(* ===== verification/_CoqProject ===== *)
-Q . S2P
Prelude.v
Float64.v
FloatBounds.v
Text.v
BTree.v
Capability.v
Errors.v
Task.v
GraphFacts.v
Agent.v
Handoff.v
Event.v
Breaker.v
Retry.v
SandboxConfig.v
Config.v
ConfigLoad.v
ConfigFacts.v
Usage.v
Registry.v
Score.v
ScoreFacts.v
Router.v
RouterFacts.v
Path.v
Index.v
Ownership.v
Guard.v
Ports.v
Planner.v
PlannerFacts.v
Context.v
Session.v
Attempt.v
AttemptFacts.v
Orchestrator.v
WaveFacts.v
OrchestratorFacts.v
SessionFacts.v
Demo.v
Skill.v
SkillTrust.v
SkillSources.v
SkillManager.v
SkillFacts.v
TrustFacts.v
ManagerFacts.v
SkillDemo.v
Host.v
Confine.v
ConfineFacts.v
Git.v
Json.v
Commands.v
WorkspaceDemo.v
Sync.v
AcpSessions.v
AcpServer.v
AcpFacts.v
AcpDemo.v
Tui.v
TuiFacts.v
A2aWire.v
A2aCard.v
A2aServer.v
A2aStream.v
A2aClient.v
A2aServerFacts.v
A2aServerLaws.v
A2aClientFacts.v
A2aAnswers.v
A2aBoth.v
A2aDemo.v
Store.v
StoreFacts.v
StoreA2a.v
StoreLaws.v
StoreSession.v
StoreDemo.v
