(* ===== verification/Prelude.v ===== *)
(** * CUMA: a verified model of the meta-agent harness

    CUMA is a harness that plans a goal as a graph of tasks, routes each task
    to one of several coding agents (and one of their models), runs the tasks
    with bounded retries, and keeps the workspace consistent while tasks run
    side by side.  This library is a shallow embedding of its core: Rust
    functions are Rocq functions on the same data, [&mut self] is state passed
    and returned, [Result] is [result], and what the code takes from outside
    (clocks, random numbers, generated identifiers, agents, providers, the file
    system, Unicode tables) is an argument.

    ** Parts, files and code

    Foundations.
    - [Prelude]: results, machine integers, lists, stable sorting, iteration.
    - [Float64], [FloatBounds]: IEEE-754 binary64 on the kernel-checked
      [spec_float] semantics, decimal printing, and the bounds the scores need.
    - [Text]: Rust strings as byte strings: UTF-8, splitting, trimming, parsing
      of numbers, [Debug] escaping.
    - [BTree]: [BTreeMap] and [BTreeSet] as sorted association lists.
    - [Path]: [std::path] on Unix: components, prefixes, suffixes, names.

    Data of the core crate ([src/crates/cuma-core/src]).
    - [Capability] (capability.rs), [Errors] (error.rs, and classify.rs of
      cuma-resilience), [Agent] (agent.rs), [Handoff] (handoff.rs), [Event]
      (event.rs), [Ports] (the planner port of ports.rs as a class with laws).
    - [Task] (task.rs): tasks and the plan graph; [GraphFacts]: its theory.

    Resilience ([cuma-resilience]).
    - [Breaker] (breaker.rs): circuit breakers over an explicit monotonic clock
      in nanoseconds and their registry, a poisoned lock included, and their
      refinement of the abstract streak of failures.
    - [Retry] (retry.rs): backoff, jitter and the retry decision.

    Configuration ([cuma-config]).
    - [SandboxConfig] (sandbox.rs), [Config] (model.rs, merge.rs), [ConfigLoad]
      (env.rs, lib.rs); [ConfigFacts]: validation, layering, precedence.

    Accounting, registries, routing.
    - [Usage] (cuma-usage), [Registry] (cuma-registry).
    - [Score] (score.rs, adaptive.rs of cuma-router) with [ScoreFacts], and
      [Router] (router.rs, explain.rs) with [RouterFacts].

    Workspace ([cuma-workspace]).
    - [Index] (index.rs), [Ownership] (ownership.rs), [Guard] (guard.rs).
    - [Host]: the machine as functions, and [std::path] beyond comparison.
    - [Confine] (confine.rs): the runtimes and their launch prefixes, with
      [ConfineFacts], which reads bubblewrap's arguments back into mounts.
    - [Git] (git.rs): operations as sequences of git calls, with theorems
      proved against a law for each command, that of its documentation: what it
      shows, what it stages in which index, what it writes.
    - [Commands] (sandbox.rs, rtk.rs);
      [WorkspaceDemo]: a small machine and repository.

    Sandboxes ([cuma-sandbox]).
    - [Sync] (sync.rs): recording a workspace and merging a sandbox's copy of
      it back, with its refinement of the three-way merge against the laws of a
      file system, which hold where no path runs through a link, and a file
      system with links that has them.

    Planning ([cuma-planner]).
    - [Planner] (heuristic.rs, llm.rs), with [PlannerFacts], which also proves
      that both planners satisfy the laws of the planner port.

    Orchestration ([cuma-orchestrator]).
    - [Context] (context.rs): assembling a prompt within a budget.
    - [Session] (executor.rs, recorder.rs): what the tasks of a session share,
      as one state, and the monad the execution loop is written in.
    - [Attempt] (execute_task and what it calls in executor.rs): one task as a
      sequence of atomic steps; [AttemptFacts]: each step keeps the life cycle
      of the task's row and brings the task nearer to its end.
    - [Orchestrator] (execute_graph, run_session, add_agent and the rest of
      executor.rs): waves of tasks under any interleaving of their steps.
    - [WaveFacts], [OrchestratorFacts]: a wave ends, its results
      fold back into a sound plan, the loop over waves; [SessionFacts]:
      the properties; [Demo]: sessions on concrete inputs.

    Skills ([cuma-skills]).
    - [Skill] (package.rs): manifests, ids and packages as directory trees.
    - [SkillTrust] (integrity.rs, validation.rs): digest, signatures, trust.
    - [SkillSources] (local.rs, git.rs, index.rs, creation.rs, lib.rs): the
      registries and the skills a model writes.
    - [SkillManager] (manager.rs): the record, the guides, the directory.
    - [SkillFacts] (walks and digest), [TrustFacts] (signatures, validation,
      laws of the registry port, staging), [ManagerFacts] (the invariant of any
      sequence of operations, restarts, updates); [SkillDemo]: concrete runs.

    A2A protocol ([cuma-protocol-a2a]).
    - [Json]: [serde_json] values; [A2aWire] (wire.rs): tasks, messages and
      stream events in both dialects; [A2aCard] (card.rs): agent cards.
    - [A2aServer] (server.rs): the store of tasks and every call on it; starts,
      runs and cancellations as a step relation, since a new task is saved, and
      a run publishes and saves, without the lock.
    - [A2aStream], [A2aClient] (client.rs): event streams; calls and attempts
      against an arbitrary peer, in a monad with a clock and a deadline.
    - [A2aServerFacts] and [A2aServerLaws] (invariant, finality, eviction,
      restarts, pages, tokens, streams), [A2aClientFacts] (termination, what is
      sent and where, chunking), [A2aAnswers] (what an attempt makes of the
      peer's answers, and what it cancels), [A2aBoth] (round trips, and the
      client against the server); [A2aDemo]: concrete runs.

    ACP server ([cuma-server-acp]).
    - [AcpSessions] (session.rs, translate.rs): sessions, their files, and the
      translation of prompts and events; what their files are and restarts.
    - [AcpServer] (workspaces.rs, lib.rs): the orchestrator of each directory
      and the handlers of a connection as steps that interleave; [AcpFacts]:
      its invariant, eviction, answers, what a client is shown; [AcpDemo].

    Persistence ([cuma-persistence], and recorder.rs and [A2aTasks] of
    [cuma-cli]).
    - [Store] (schema.rs, store.rs, recorder.rs): tables as lists of rows, each
      statement of the source as a function on them, transactions, migrations;
      [StoreFacts]: integrity under every sequence of writes and failures.
    - [StoreLaws], [StoreSession]: dashboards and loaded history against a
      session's own tracker and history, through the whole orchestrator.
    - [StoreA2a]: the task store the A2A server is given, through any number of
      lives of the server and saves that come late; [StoreDemo]: concrete runs.

    Terminal interface ([cuma-tui]).
    - [Tui] (state.rs, app.rs): the state, every event and key, and the turns of
      the event loop, those included in which drawing fails; [TuiFacts].

    ** How the parts interact

    A planner ([Planner]) turns a goal into a [TaskGraph]; [validate] accepts
    it; [ready_tasks] gives the next wave; the router ([Router]) picks a target
    from a snapshot of the agent registry ([Registry]), consulting the circuit
    breakers ([Breaker]), the adaptive history ([Score]) and the money spent
    ([Usage]); the write ledger ([Ownership]) admits tasks whose predicted
    writes do not overlap; a failure is classified ([Errors]), counted by the
    breakers and turned into a retry, a reroute with a handoff ([Handoff]), a
    new plan or a stop ([Retry]); and a task that fails for good takes its
    dependents with it ([cascade_skip]).  When nothing provides a capability,
    the skill manager ([SkillManager]) finds a skill, checks its files
    ([SkillTrust]) and installs it; enabled skills give tasks their guidance.

    ** What the theorems show

    - The plan graph: validation is equivalent to the declarative notion of a
      sound plan, always ends, and a sound plan can always make progress;
      failures are cascaded to exactly the blocked tasks.
    - Routing: hard constraints are never violated, every target is accounted
      for, routing succeeds exactly when an eligible target exists, and the
      selected one is the best, without NaN.
    - Resilience: breakers refine an abstract streak of failures; decisions of
      the retry policy are characterised exactly.
    - Ownership: claims of different tasks never overlap, claims are all or
      nothing, releases are exact, predictions cover what a description names.
    - Planning: every plan handed over is sound, replies of a model are parsed
      into exactly the rows they contain, re-planning cannot recurse.
    - Sessions: a session always ends, whatever agents answer and in whatever
      order the tasks of a wave advance; tasks are tried within their budget and
      after their dependencies, side by side only with disjoint writes, and only
      on targets that may run them; what was claimed is given back; without
      re-planning every task ends completed, failed or skipped.
    - Configuration: validation is equivalent to a declarative predicate,
      merging is associative, the environment overrides the files.
    - Skills: a digest binds every file it covers, trust comes from evidence
      alone, nothing untrusted or generated is ever enabled whatever is
      installed, updated or removed and whatever file operations fail, and a
      restart finds the record a successful operation left.
    - A2A: what one side writes the other reads back in either dialect; the
      store of tasks is consistent and bounded under every interleaving, settled
      tasks are final, pages and streams lose nothing; an attempt ends by its
      deadline with what the peer's last answer says, cancels what it abandons,
      and sends nothing in cleartext to another machine as long as addresses
      carry no user information.
    - Confinement: behind bubblewrap credentials stay out of sight and writes
      within the writable places, whatever the names; the environment is what
      is kept; requiring confinement, while sandboxing is on, refuses or confines.
    - Git: checkpoints leave the repository as the user sees it, and a
      worktree's changes are applied all or not at all.
    - Transfer: merging a sandbox's copy, where no path runs through a link of
      the workspace, is the three-way merge of every path, stays inside the
      workspace and changes nothing on a conflict.
    - ACP: those who work in one directory share one orchestrator, only idle
      ones are evicted, every request is answered, a restart finds each session
      as last written, ids of clients name files of the session directory.
    - Persistence: whatever fails, the history is the sum of the attempts kept
      and no row is orphaned; dashboards show the session's own totals, a
      reloaded history routes as the one that was saved, A2A tasks outlive the
      server unless a cancellation and a run raced to save one, and migrations
      resume.
    - Terminal: the interface's state is bounded and what it shows is what the
      events told; at most one session runs, and leaving aborts it unless it is
      drawing that failed.
    - Accounting: totals, groupings, histories and indexes equal their
      declarative definitions, within the machine widths.

    ** Bounds and fuel

    Machine integers are [Z] with explicit wrap-around or saturation ([wrap32],
    [sat64], ...); collections are assumed shorter than 2^64 (a bound no Rust
    program can exceed) only where a counter needs it.  [kahn] runs with one
    round per task and [cascade_skip] with one round per task; both are proved
    never to run out.  A wave
    runs with [run_fuel] steps per task, proved enough from the attempts each
    task has left; the loop over waves has the code's own bound [max_passes].
    The walks over packages run with one round per directory, proved
    enough.  Polling a peer has one round for each 250 ms left before the
    deadline, proved enough.  Every other recursion is structural.

    ** Granularity

    A step of a task is what [execute_task] does between two points where it
    waits for an agent, a timer or git; the mutexes it takes in between are held
    over synchronous code only, and the futures of a wave are polled by one
    task, so steps are atomic and a wave is an interleaving of them.  Streamed
    chunks are published when the answer is handled.

    ** Arguments that stand for code outside the repository

    The wall and monotonic clocks, the random source of the jitter, generated
    identifiers (assumed injective where a plan is built or attempts are
    recorded), Unicode lower-casing
    and the Unicode alphanumeric predicate, parsing and printing of decimal
    floats, the text of TOML files once parsed, the reply of a language model,
    the answers of agents, of the memory and of git, elapsed times, SHA-256,
    base64 and Ed25519, reading and printing JSON text, what a remote peer
    answers and how long it takes, the machine (files, links, programs found,
    environment), what git does to a repository, what a probed program answers,
    the workspace a merge writes to, which file operations fail, what a
    database statement runs into and how SQLite adds doubles.

    ** Not modelled

    The ACP and MCP clients, the HTTP listener of A2A, the processes and
    services behind sandboxes, memory services, providers, the
    running of git for skills, the command line and what the terminal
    interface draws: I/O over external crates.  The scan of a workspace
    ([git ls-files] and the directory walk) is an argument of the index.  Logging has no counterpart. *)

From stdpp Require Export base option list sets strings numbers.
From Stdlib Require Export Lia ZArith.
From Stdlib Require Export Sorting.Sorted.

(** ** Results *)

(** [std::result::Result]. *)
Inductive result (T E : Type) : Type :=
  | Ok (value : T)
  | Err (error : E).

Arguments Ok {T E} value.
Arguments Err {T E} error.

Declare Scope cuma_scope.
Delimit Scope cuma_scope with cuma.

(** The [?] operator. *)
Definition result_bind {T U E} (r : result T E) (f : T -> result U E) : result U E :=
  match r with Ok v => f v | Err e => Err e end.

Notation "'let?' x := r 'in' k" := (result_bind r (fun x => k))
  (at level 10, x pattern, r at level 100, k at level 200) : cuma_scope.

Definition is_ok {T E} (r : result T E) : bool :=
  match r with Ok _ => true | Err _ => false end.

(** [Result::ok]. *)
Definition result_ok {T E} (r : result T E) : option T :=
  match r with Ok v => Some v | Err _ => None end.

Open Scope cuma_scope.
Open Scope Z_scope.

(** ** Machine integers

    Integers are [Z].  [+], [*] and [+=] wrap (the release profile of the
    workspace does not enable overflow checks); [saturating_*] clamp. *)

Definition U32_MAX : Z := 2 ^ 32 - 1.
Definition U64_MAX : Z := 2 ^ 64 - 1.

Definition wrap32 (z : Z) : Z := z mod 2 ^ 32.
Definition wrap64 (z : Z) : Z := z mod 2 ^ 64.

Definition sat64 (z : Z) : Z := Z.max 0 (Z.min z U64_MAX).
Definition sat32 (z : Z) : Z := Z.max 0 (Z.min z U32_MAX).

Definition is_u32 (z : Z) : Prop := 0 <= z <= U32_MAX.
Definition is_u64 (z : Z) : Prop := 0 <= z <= U64_MAX.

Lemma wrap32_small z : is_u32 z -> wrap32 z = z.
Proof. unfold is_u32, U32_MAX, wrap32. intros. apply Z.mod_small. lia. Qed.

Lemma wrap64_small z : is_u64 z -> wrap64 z = z.
Proof. unfold is_u64, U64_MAX, wrap64. intros. apply Z.mod_small. lia. Qed.

Lemma wrap32_range z : is_u32 (wrap32 z).
Proof. unfold is_u32, U32_MAX, wrap32. pose proof (Z.mod_pos_bound z (2^32)). lia. Qed.

Lemma wrap64_range z : is_u64 (wrap64 z).
Proof. unfold is_u64, U64_MAX, wrap64. pose proof (Z.mod_pos_bound z (2^64)). lia. Qed.

Lemma sat64_range z : is_u64 (sat64 z).
Proof. unfold is_u64, sat64, U64_MAX. lia. Qed.

Lemma sat64_small z : is_u64 z -> sat64 z = z.
Proof. unfold is_u64, sat64. lia. Qed.

(** Saturating addition of non-negative numbers is associative: a running
    saturating sum only depends on the true sum. *)
Lemma sat64_add_l a b : 0 <= b -> sat64 (sat64 a + b) = sat64 (Z.max 0 a + b).
Proof. unfold sat64, U64_MAX. lia. Qed.

(** ** Mutexes

    [std::sync::Mutex]: [None] is a poisoned lock. *)
Definition Mutex (A : Type) : Type := option A.

(** ** Lists *)

(** [Vec::contains] on types with decidable equality. *)
Definition contains {A} `{EqDecision A} (l : list A) (x : A) : bool :=
  bool_decide (x ∈ l).

Lemma contains_true {A} `{EqDecision A} (l : list A) (x : A) :
  contains l x = true <-> x ∈ l.
Proof. unfold contains. apply bool_decide_eq_true. Qed.

Lemma contains_false {A} `{EqDecision A} (l : list A) (x : A) :
  contains l x = false <-> x ∉ l.
Proof. unfold contains. apply bool_decide_eq_false. Qed.

Lemma forallb_false_ex {A} (f : A -> bool) (l : list A) :
  forallb f l = false -> exists x, x ∈ l /\ f x = false.
Proof.
  induction l as [|x l IH]; simpl; [done|]. destruct (f x) eqn:E; simpl.
  - intros (y&?&?)%IH. exists y. set_solver.
  - intros _. exists x. set_solver.
Qed.

(** ** Stable sorting

    [slice::sort_by] is stable.  [stable_sort le] is an insertion sort that
    keeps equal elements in their original order: [le a b] is "a may stay
    before b". *)
Section StableSort.
Context {A : Type} (le : A -> A -> bool).

Fixpoint sorted_insert (x : A) (l : list A) : list A :=
  match l with
  | [] => [x]
  | y :: l' => if le x y then x :: y :: l' else y :: sorted_insert x l'
  end.

Fixpoint stable_sort (l : list A) : list A :=
  match l with
  | [] => []
  | x :: l' => sorted_insert x (stable_sort l')
  end.

Lemma sorted_insert_perm x l : sorted_insert x l ≡ₚ x :: l.
Proof.
  induction l as [|y l IH]; simpl; [done|].
  case_match; [done|]. rewrite IH. constructor.
Qed.

Lemma stable_sort_perm l : stable_sort l ≡ₚ l.
Proof. induction l as [|x l IH]; simpl; [done|]. by rewrite sorted_insert_perm, IH. Qed.

Lemma elem_of_stable_sort x l : x ∈ stable_sort l <-> x ∈ l.
Proof. by rewrite stable_sort_perm. Qed.

Lemma length_stable_sort l : length (stable_sort l) = length l.
Proof. by rewrite stable_sort_perm. Qed.

(** Elements on which the order is total and transitive. *)
Context (P : A -> Prop).
Hypothesis le_total : forall a b, P a -> P b -> le a b = true \/ le b a = true.
Hypothesis le_trans : forall a b c, P a -> P b -> P c ->
  le a b = true -> le b c = true -> le a c = true.

Lemma sorted_insert_sorted x l :
  P x -> Forall P l ->
  StronglySorted (fun a b => le a b = true) l ->
  StronglySorted (fun a b => le a b = true) (sorted_insert x l).
Proof.
  intros Hx Hl Hs. induction Hs as [|y l Hs IH Hy]; simpl.
  - repeat constructor.
  - inversion Hl as [|? ? Py Pl]; subst. destruct (le x y) eqn:E.
    + constructor; [by constructor|]. constructor; [done|].
      rewrite Forall_forall in Hy, Pl |- *. intros z Hz. eauto.
    + constructor; [by apply IH|].
      rewrite sorted_insert_perm. constructor; [|done].
      destruct (le_total x y); auto; congruence.
Qed.

Lemma stable_sort_sorted l :
  Forall P l -> StronglySorted (fun a b => le a b = true) (stable_sort l).
Proof.
  induction 1 as [|x l Px Pl IH]; simpl; [constructor|].
  apply sorted_insert_sorted; [done| |done]. by rewrite stable_sort_perm.
Qed.

(** Stability: the elements of any class the order does not separate keep
    their relative order. *)
Lemma stable_sort_stable (f : A -> bool) l :
  (forall a b, f a = true -> f b = true -> le a b = true) ->
  List.filter f (stable_sort l) = List.filter f l.
Proof.
  intros Hf. assert (forall x l, List.filter f (sorted_insert x l) =
    if f x then x :: List.filter f l else List.filter f l) as Hins.
  { clear l. intros x l. induction l as [|y l IH]; simpl; [by case_match|].
    destruct (le x y) eqn:E; simpl; [by repeat case_match|].
    rewrite IH. destruct (f x) eqn:Fx, (f y) eqn:Fy; try done.
    rewrite (Hf x y) in E; done. }
  induction l as [|x l IH]; simpl; [done|]. rewrite Hins, IH. by case_match.
Qed.
End StableSort.

(** Filtering keeps the image of a list under a map free of repetitions. *)
Lemma nodup_map_filter {A B} (f : A -> B) (p : A -> bool) l :
  NoDup (map f l) -> NoDup (map f (List.filter p l)).
Proof.
  induction l as [|x l IH]; simpl; [done|].
  intros Hn. inversion Hn as [|? ? Hni Hnd]; subst.
  destruct (p x); simpl; [|by apply IH]. constructor; [|by apply IH]. intros Hin. apply Hni.
  rewrite list_elem_of_In, in_map_iff in Hin |- *. destruct Hin as (y&<-&[? _]%filter_In). eauto.
Qed.

Lemma sorted_take {A} (R : A -> A -> Prop) n l : StronglySorted R l -> StronglySorted R (take n l).
Proof.
  intros Hs. revert n. induction Hs as [|x l Hs IH Hx]; intros [|n]; simpl; [constructor..|].
  constructor; [apply IH|by apply Forall_take].
Qed.

(** An invariant of every step of a left fold is an invariant of the fold. *)
Lemma filter_sublist {A} (f : A -> bool) l : List.filter f l `sublist_of` l.
Proof.
  induction l as [|x l IH]; simpl; [done|]. destruct (f x); [by apply sublist_skip|by apply sublist_cons].
Qed.

Lemma map_sublist {A B} (f : A -> B) l k : l `sublist_of` k -> map f l `sublist_of` map f k.
Proof. induction 1; simpl; by constructor. Qed.

Lemma fold_left_inv {A B} (f : A -> B -> A) (I : A -> Prop) l a :
  (forall a x, x ∈ l -> I a -> I (f a x)) -> I a -> I (fold_left f l a).
Proof.
  revert a. induction l as [|x l IH]; intros a Hf Ha; simpl; [done|].
  apply IH; [intros; apply Hf; set_solver|]. apply Hf; set_solver.
Qed.

(** What one step of a left fold establishes and the others keep holds after
    the fold. *)
Lemma fold_left_reach {A B} (f : A -> B -> A) (I P : A -> Prop) l a x :
  x ∈ l -> I a -> (forall a y, y ∈ l -> I a -> I (f a y)) ->
  (forall a, I a -> P (f a x)) -> (forall a y, y ∈ l -> P a -> P (f a y)) ->
  P (fold_left f l a).
Proof.
  intros Hx Ha HI Hfx HP. revert a Ha. induction l as [|y l IH]; intros a Ha; simpl; [set_solver|].
  apply elem_of_cons in Hx as [->|Hx].
  - apply fold_left_inv; [intros; apply HP; set_solver|by apply Hfx].
  - apply IH; [done|intros; apply HI; set_solver|intros; apply HP; set_solver|].
    apply HI; [set_solver|done].
Qed.

(** ** Automation *)

Create HintDb cuma.
Create Rewrite HintDb cuma.
#[export] Hint Resolve wrap32_range wrap64_range sat64_range : cuma.
#[export] Hint Rewrite @contains_true @contains_false : cuma.

(** Split every boolean conjunction and disjunction in the context. *)
Ltac destruct_bools :=
  repeat match goal with
  | H : _ && _ = true |- _ => apply andb_true_iff in H as [? ?]
  | H : _ || _ = false |- _ => apply orb_false_iff in H as [? ?]
  | H : negb _ = true |- _ => apply negb_true_iff in H
  | H : negb _ = false |- _ => apply negb_false_iff in H
  | H : bool_decide _ = true |- _ => apply bool_decide_eq_true in H
  | H : bool_decide _ = false |- _ => apply bool_decide_eq_false in H
  end.

(** Case split on the first [match] of a hypothesis or of the goal, clearing
    the impossible branches. *)
Ltac split_match :=
  match goal with
  | H : context [match ?x with _ => _ end] |- _ => destruct x eqn:?; simplify_eq/=
  | |- context [match ?x with _ => _ end] => destruct x eqn:?; simplify_eq/=
  end.
