(* ===== verification/Float64.v ===== *)
(** * [f64]

    IEEE 754 binary64 numbers, computed by the executable specification of the
    standard library ([SpecFloat] at precision 53 and exponent bound 1024), so
    every score, price and budget of the model is rounded the way the program
    rounds it.  Literals are quotients of integers that binary64 represents
    exactly: one correctly rounded division, hence the nearest double, which is
    what the compiler produces for the decimal literal. *)

From Stdlib Require Export Floats.SpecFloat.
From S2P Require Export Prelude.
From stdpp Require Import pretty.
From Stdlib Require Import Ascii.

Open Scope Z_scope.

Abbreviation f64 := spec_float.

Definition f64_add : f64 -> f64 -> f64 := SFadd 53 1024.
Definition f64_sub : f64 -> f64 -> f64 := SFsub 53 1024.
Definition f64_mul : f64 -> f64 -> f64 := SFmul 53 1024.
Definition f64_div : f64 -> f64 -> f64 := SFdiv 53 1024.

(** [n as f64], and [f64::from(n)] for [u32]. *)
Definition f64_of_Z (n : Z) : f64 := binary_normalize 53 1024 n 0 false.

(** The literal [p / q]. *)
Definition f64_lit (p q : Z) : f64 := f64_div (f64_of_Z p) (f64_of_Z q).

Definition f64_zero : f64 := S754_zero false.
Definition f64_neg_zero : f64 := S754_zero true.
Definition f64_one : f64 := f64_of_Z 1.

(** Arithmetic is evaluated by [vm_compute], never by simplification. *)
#[global] Arguments f64_add : simpl never.
#[global] Arguments f64_sub : simpl never.
#[global] Arguments f64_mul : simpl never.
#[global] Arguments f64_div : simpl never.
#[global] Arguments f64_of_Z : simpl never.
#[global] Arguments f64_lit : simpl never.
#[global] Arguments f64_one : simpl never.

(** [partial_cmp], [<], [<=], [==]; comparisons with NaN are all false. *)
Definition f64_cmp : f64 -> f64 -> option comparison := SFcompare.
Definition f64_ltb (a b : f64) : bool := SFltb a b.
Definition f64_leb (a b : f64) : bool := SFleb a b.
Definition f64_eqb (a b : f64) : bool := SFeqb a b.

Definition f64_is_nan (x : f64) : bool := match x with S754_nan => true | _ => false end.
Definition f64_is_finite (x : f64) : bool :=
  match x with S754_zero _ | S754_finite _ _ _ => true | _ => false end.

(** [f64::min] and [f64::max]: a NaN operand is ignored. *)
Definition f64_min (a b : f64) : f64 :=
  if f64_is_nan a then b else if f64_is_nan b then a
  else if f64_ltb b a then b else a.
Definition f64_max (a b : f64) : f64 :=
  if f64_is_nan a then b else if f64_is_nan b then a
  else if f64_ltb a b then b else a.

(** [f64::clamp]: NaN stays NaN. *)
Definition f64_clamp (x lo hi : f64) : f64 :=
  let x := if f64_ltb x lo then lo else x in
  if f64_ltb hi x then hi else x.

(** [x.clamp(0.0, 1.0)]. *)
Definition f64_clamp01 (x : f64) : f64 := f64_clamp x f64_zero f64_one.

(** [x as u64]: truncation towards zero, saturating, NaN to 0. *)
Definition f64_to_u64 (x : f64) : Z :=
  match x with
  | S754_nan | S754_zero _ => 0
  | S754_infinity s => if s then 0 else U64_MAX
  | S754_finite true _ _ => 0
  | S754_finite false m e =>
      sat64 (if e <? 0 then Z.shiftr (Zpos m) (- e) else Z.shiftl (Zpos m) e)
  end.

(** [f64::powi] with a non-negative exponent: repeated squaring, the sequence
    of multiplications of the compiler's runtime routine. *)
Fixpoint f64_powi_pos (a r : f64) (n : positive) : f64 :=
  match n with
  | xH => f64_mul r a
  | xO n' => f64_powi_pos (f64_mul a a) r n'
  | xI n' => f64_powi_pos (f64_mul a a) (f64_mul r a) n'
  end.

Definition f64_powi (a : f64) (n : Z) : f64 :=
  match n with Zpos p => f64_powi_pos a f64_one p | _ => f64_one end.

(** [Iterator::sum]: the neutral element is [-0.0]. *)
Definition f64_sum (l : list f64) : f64 := fold_left f64_add l f64_neg_zero.

(** ** Decimal rendering: [format!("{:.p$}", x)] *)

(** [n] rounded to the nearest multiple of [2^k], halves to even. *)
Definition round_shift (n k : Z) : Z :=
  let q := Z.shiftr n k in
  let r := n - Z.shiftl q k in
  let half := Z.shiftl 1 (k - 1) in
  if r <? half then q else if half <? r then q + 1 else if Z.even q then q else q + 1.

(** [|x| * 10^p], rounded to an integer. *)
Definition scaled (m e p : Z) : Z :=
  let n := m * 10 ^ p in
  if e <? 0 then round_shift n (- e) else Z.shiftl n e.

Fixpoint zeros (n : nat) : string :=
  match n with O => EmptyString | S n' => String "0"%char (zeros n') end.

(** The last [p] digits of [n], zero-padded. *)
Definition pad_digits (p : nat) (n : Z) : string :=
  let s := pretty n in (zeros (p - String.length s) +:+ s)%string.

Definition fmt_fixed (p : nat) (x : f64) : string :=
  let body (m e : Z) :=
    let n := scaled m e (Z.of_nat p) in
    let d := 10 ^ Z.of_nat p in
    if Nat.eqb p 0 then pretty n
    else (pretty (n / d) +:+ "." +:+ pad_digits p (n mod d))%string in
  match x with
  | S754_nan => "NaN"%string
  | S754_infinity s => if s then "-inf"%string else "inf"%string
  | S754_zero s => ((if s then "-" else "") +:+ body 0 0)%string
  | S754_finite s m e => ((if s then "-" else "") +:+ body (Zpos m) e)%string
  end.

(** ** Ordering

    On numbers other than NaN the comparison is a total preorder: it is the
    lexicographic order of [(class, exponent, mantissa)], signs folded in. *)
Section Order.
Definition f64_key (x : f64) : Z * Z * Z :=
  match x with
  | S754_nan => (0, 0, 0)
  | S754_zero _ => (0, 0, 0)
  | S754_infinity s => (if s then -2 else 2, 0, 0)
  | S754_finite false m e => (1, e, Zpos m)
  | S754_finite true m e => (-1, - e, Zneg m)
  end.

Definition lex3 (a b : Z * Z * Z) : comparison :=
  let '(a1, a2, a3) := a in let '(b1, b2, b3) := b in
  match a1 ?= b1 with
  | Eq => match a2 ?= b2 with Eq => a3 ?= b3 | c => c end
  | c => c
  end.

Lemma f64_cmp_key a b :
  f64_is_nan a = false -> f64_is_nan b = false ->
  f64_cmp a b = Some (lex3 (f64_key a) (f64_key b)).
Proof.
  intros Ha Hb.
  destruct a as [[]|[]| |[] ma ea], b as [[]|[]| |[] mb eb]; try done; simpl in *; f_equal.
  - replace (- ea ?= - eb) with (CompOpp (ea ?= eb)).
    + destruct (Z.compare_spec ea eb); simpl; done.
    + rewrite <- Z.compare_antisym. symmetry. apply Z.compare_opp.
Qed.

Lemma f64_cmp_nan_l a b : f64_is_nan a = true -> f64_cmp a b = None.
Proof. by destruct a. Qed.
Lemma f64_cmp_nan_r a b : f64_is_nan b = true -> f64_cmp a b = None.
Proof. by destruct b; [..|]; destruct a. Qed.

Lemma lex3_antisym a b : lex3 b a = CompOpp (lex3 a b).
Proof.
  destruct a as [[a1 a2] a3], b as [[b1 b2] b3]; simpl.
  rewrite (Z.compare_antisym a1 b1), (Z.compare_antisym a2 b2), (Z.compare_antisym a3 b3).
  destruct (a1 ?= b1), (a2 ?= b2); done.
Qed.

Lemma lex3_le_trans a b c :
  lex3 a b <> Gt -> lex3 b c <> Gt -> lex3 a c <> Gt.
Proof.
  destruct a as [[a1 a2] a3], b as [[b1 b2] b3], c as [[c1 c2] c3]; simpl.
  destruct (Z.compare_spec a1 b1), (Z.compare_spec b1 c1), (Z.compare_spec a1 c1);
    try lia; try done;
    destruct (Z.compare_spec a2 b2), (Z.compare_spec b2 c2), (Z.compare_spec a2 c2);
    try lia; try done;
    destruct (Z.compare_spec a3 b3), (Z.compare_spec b3 c3), (Z.compare_spec a3 c3);
    try lia; done.
Qed.

Lemma f64_leb_key a b :
  f64_leb a b = true <->
  f64_is_nan a = false /\ f64_is_nan b = false /\ lex3 (f64_key a) (f64_key b) <> Gt.
Proof.
  unfold f64_leb, SFleb. fold (f64_cmp a b).
  destruct (f64_is_nan a) eqn:Na; [rewrite f64_cmp_nan_l by done; naive_solver|].
  destruct (f64_is_nan b) eqn:Nb; [rewrite f64_cmp_nan_r by done; naive_solver|].
  rewrite f64_cmp_key by done. destruct (lex3 _ _); naive_solver.
Qed.

Lemma f64_ltb_key a b :
  f64_ltb a b = true <->
  f64_is_nan a = false /\ f64_is_nan b = false /\ lex3 (f64_key a) (f64_key b) = Lt.
Proof.
  unfold f64_ltb, SFltb. fold (f64_cmp a b).
  destruct (f64_is_nan a) eqn:Na; [rewrite f64_cmp_nan_l by done; naive_solver|].
  destruct (f64_is_nan b) eqn:Nb; [rewrite f64_cmp_nan_r by done; naive_solver|].
  rewrite f64_cmp_key by done. destruct (lex3 _ _); naive_solver.
Qed.

Lemma f64_leb_refl a : f64_is_nan a = false -> f64_leb a a = true.
Proof.
  intros Ha. apply f64_leb_key. split_and!; [done..|].
  intros Hg. pose proof (lex3_antisym (f64_key a) (f64_key a)) as H. by rewrite Hg in H.
Qed.

Lemma f64_leb_trans a b c : f64_leb a b = true -> f64_leb b c = true -> f64_leb a c = true.
Proof. rewrite !f64_leb_key. intros (?&?&?) (?&?&?). split_and!; eauto using lex3_le_trans. Qed.

(** [a < b] is the negation of [b <= a], NaN aside. *)
Lemma f64_ltb_leb a b :
  f64_is_nan a = false -> f64_is_nan b = false -> f64_ltb a b = negb (f64_leb b a).
Proof.
  intros Ha Hb. apply eq_true_iff_eq. rewrite negb_true_iff, <- not_true_iff_false.
  rewrite f64_ltb_key, f64_leb_key, (lex3_antisym (f64_key a) (f64_key b)).
  destruct (lex3 _ _); naive_solver.
Qed.

Lemma f64_leb_total a b :
  f64_is_nan a = false -> f64_is_nan b = false ->
  f64_leb a b = true \/ f64_leb b a = true.
Proof.
  intros Ha Hb. destruct (f64_leb b a) eqn:E; [by right|left].
  apply f64_leb_key. split_and!; [done..|]. intros Hg.
  assert (f64_ltb a b = true) as Hlt by (rewrite f64_ltb_leb, E; done).
  apply f64_ltb_key in Hlt as (_&_&Hlt). congruence.
Qed.

Lemma f64_ltb_leb_incl a b : f64_ltb a b = true -> f64_leb a b = true.
Proof. rewrite f64_ltb_key, f64_leb_key. intros (?&?&->). done. Qed.
End Order.

(** ** Clamping *)

Definition in_unit (x : f64) : Prop :=
  f64_leb f64_zero x = true /\ f64_leb x f64_one = true.

Lemma f64_clamp_nan x lo hi :
  f64_is_nan lo = false -> f64_is_nan hi = false ->
  f64_is_nan (f64_clamp x lo hi) = f64_is_nan x.
Proof.
  intros Hl Hh. unfold f64_clamp.
  destruct (f64_ltb x lo) eqn:E1.
  - apply f64_ltb_key in E1 as (Hx&_&_).
    destruct (f64_ltb hi lo); congruence.
  - destruct (f64_ltb hi x) eqn:E2; [|done]. apply f64_ltb_key in E2 as (_&Hx&_). congruence.
Qed.

Lemma f64_clamp01_unit x : f64_is_nan x = false -> in_unit (f64_clamp01 x).
Proof.
  intros Hx. unfold in_unit, f64_clamp01, f64_clamp.
  destruct (f64_ltb x f64_zero) eqn:E1; [by vm_compute|].
  destruct (f64_ltb f64_one x) eqn:E2; [by vm_compute|].
  rewrite f64_ltb_leb in E1, E2 by done. apply negb_false_iff in E1, E2. done.
Qed.

Lemma in_unit_not_nan x : in_unit x -> f64_is_nan x = false.
Proof. intros [H _]. apply f64_leb_key in H. tauto. Qed.

Lemma f64_clamp01_id x : in_unit x -> f64_clamp01 x = x.
Proof.
  intros [H0 H1]. unfold f64_clamp01, f64_clamp.
  pose proof H0 as (_&Hx&_)%f64_leb_key.
  assert (f64_ltb x f64_zero = false) as -> by (rewrite f64_ltb_leb, H0; done).
  assert (f64_ltb f64_one x = false) as -> by (rewrite f64_ltb_leb, H1; done).
  done.
Qed.

Lemma in_unit_lit p q : f64_leb f64_zero (f64_lit p q) && f64_leb (f64_lit p q) f64_one = true ->
  in_unit (f64_lit p q).
Proof. intros H. by apply andb_true_iff in H. Qed.

(** ** Closure

    Sums, products and quotients of non-negative numbers are non-negative
    numbers: a NaN only comes from a NaN, an infinity or a zero divisor. *)
Section Closure.

(** Zero, positive, or plus infinity. *)
Definition f64_nonneg (x : f64) : Prop :=
  match x with
  | S754_zero _ | S754_finite false _ _ | S754_infinity false => True
  | _ => False
  end.

(** Finite and non-negative. *)
Definition f64_fin_nonneg (x : f64) : Prop :=
  match x with S754_zero _ | S754_finite false _ _ => True | _ => False end.

Lemma shr_1_nonneg r : 0 <= shr_m r -> 0 <= shr_m (shr_1 r).
Proof. destruct r as [[|[p|p|]|[p|p|]] ? ?]; simpl; lia. Qed.

Lemma iter_shr_nonneg p r : 0 <= shr_m r -> 0 <= shr_m (SpecFloat.iter_pos shr_1 p r).
Proof.
  revert r. induction p as [p IH|p IH|]; intros r Hr; cbn [SpecFloat.iter_pos];
    eauto using shr_1_nonneg.
Qed.

Lemma shr_fexp_nonneg m e l : 0 <= m -> 0 <= shr_m (shr_fexp 53 1024 m e l).1.
Proof.
  intros Hm. unfold shr_fexp, shr.
  assert (0 <= shr_m (shr_record_of_loc m l)) by (destruct l as [|[]]; done).
  destruct (fexp 53 1024 (Zdigits2 m + e) - e); [done|by apply iter_shr_nonneg|done].
Qed.

Lemma round_nearest_nonneg m l : 0 <= m -> 0 <= round_nearest_even m l.
Proof. intros Hm. destruct l as [|[]]; simpl; try lia. destruct (Z.even m); lia. Qed.

Lemma binary_round_aux_nonneg m e l : 0 <= m -> f64_nonneg (binary_round_aux 53 1024 false m e l).
Proof.
  intros Hm. unfold binary_round_aux.
  pose proof (shr_fexp_nonneg m e l Hm) as H1. destruct (shr_fexp 53 1024 m e l) as [r1 e1].
  pose proof (shr_fexp_nonneg _ e1 loc_Exact
    (round_nearest_nonneg _ (loc_of_shr_record r1) H1)) as H2.
  destruct (shr_fexp 53 1024 (round_nearest_even _ _) e1 loc_Exact) as [r2 e2]. cbn [fst] in *.
  destruct (shr_m r2); [done| |lia]. by destruct (e2 <=? 1024 - 53).
Qed.

Lemma binary_normalize_nonneg m e : 0 <= m -> f64_nonneg (binary_normalize 53 1024 m e false).
Proof.
  intros Hm. destruct m as [|p|p]; [done| |lia]. cbn [binary_normalize]. unfold binary_round.
  destruct (shl_align _ _ _). by apply binary_round_aux_nonneg.
Qed.

Lemma f64_of_Z_nonneg n : 0 <= n -> f64_nonneg (f64_of_Z n).
Proof. apply binary_normalize_nonneg. Qed.

Lemma f64_mul_nonneg x y : f64_fin_nonneg x -> f64_fin_nonneg y -> f64_nonneg (f64_mul x y).
Proof.
  destruct x as [| | |[] mx ex], y as [| | |[] my ey]; intros Hx Hy; try done.
  by apply binary_round_aux_nonneg.
Qed.

Lemma f64_add_nonneg x y : f64_nonneg x -> f64_nonneg y -> f64_nonneg (f64_add x y).
Proof.
  destruct x as [[]|[]| |[] mx ex], y as [[]|[]| |[] my ey]; intros Hx Hy; try done.
  unfold f64_add, SFadd. cbn [cond_Zopp]. by apply binary_normalize_nonneg.
Qed.

Lemma f64_nonneg_not_nan x : f64_nonneg x -> f64_is_nan x = false.
Proof. by destruct x. Qed.

Lemma f64_fin_nonneg_nonneg x : f64_fin_nonneg x -> f64_nonneg x.
Proof. by destruct x as [| | |[]]. Qed.

Lemma in_unit_fin_nonneg x : in_unit x -> f64_fin_nonneg x.
Proof. intros [H0 H1]. destruct x as [|[]| |[]]; try done; by vm_compute in H0, H1. Qed.

Lemma f64_clamp01_nonneg x : f64_nonneg x -> in_unit (f64_clamp01 x).
Proof. intros Hx. by apply f64_clamp01_unit, f64_nonneg_not_nan. Qed.
End Closure.

#[export] Hint Resolve f64_mul_nonneg f64_add_nonneg f64_fin_nonneg_nonneg in_unit_fin_nonneg
  f64_clamp01_nonneg f64_nonneg_not_nan in_unit_not_nan : cuma.

(** ** Concrete values *)

Example f64_lit_01 : f64_lit 1 10 = S754_finite false 7205759403792794 (-56).
Proof. reflexivity. Qed.
Example fmt_fixed_1 : fmt_fixed 2 (f64_lit 3 2) = "1.50"%string.
Proof. vm_compute. reflexivity. Qed.
Example fmt_fixed_2 : fmt_fixed 3 (f64_lit 887 1000) = "0.887"%string.
Proof. vm_compute. reflexivity. Qed.
Example f64_01_plus_02 : f64_leb (f64_add (f64_lit 1 10) (f64_lit 2 10)) (f64_lit 3 10) = false.
Proof. vm_compute. reflexivity. Qed.
