(* ===== verification/FloatBounds.v ===== *)
(** * Rounding stays in bounds

    [canonical]: what every stored double satisfies.  The rounding of the
    specification produces canonical numbers, and the rounding of a value at
    most one is at most one; so scores built from products and complements of
    scores stay in the unit interval. *)

From S2P Require Export Float64.
Open Scope Z_scope.

(** ** Digits and shifts *)

Lemma digits2_pos_bounds p : 2 ^ (Zpos (digits2_pos p) - 1) <= Zpos p < 2 ^ Zpos (digits2_pos p).
Proof.
  induction p as [p IH|p IH|]; cbn [digits2_pos]; [..|done].
  all: rewrite Pos2Z.inj_succ; set (d := Zpos (digits2_pos p)) in *;
    assert (0 < d) by (subst d; lia);
    replace (Z.succ d - 1) with ((d - 1) + 1) by lia; replace (Z.succ d) with (d + 1) by lia;
    rewrite !Z.pow_add_r by lia; lia.
Qed.

(** The digit count is the only [d] with [2^(d-1) <= m < 2^d]. *)
Lemma Zdigits2_bounds m : 0 < m -> 0 < Zdigits2 m /\ 2 ^ (Zdigits2 m - 1) <= m < 2 ^ Zdigits2 m.
Proof. destruct m as [|p|p]; [lia| |lia]. intros _. split; [done|apply digits2_pos_bounds]. Qed.

Lemma Zdigits2_le m k : 0 < m -> 0 <= k -> m < 2 ^ k -> Zdigits2 m <= k.
Proof.
  intros Hm Hk Hlt. destruct (Zdigits2_bounds m Hm) as (Hd&Hlo&_).
  apply Z.le_ngt. intros Hgt.
  assert (2 ^ k <= 2 ^ (Zdigits2 m - 1)) by (apply Z.pow_le_mono_r; lia). lia.
Qed.

Lemma Zdigits2_ge m k : 0 < m -> 2 ^ k <= m -> k + 1 <= Zdigits2 m.
Proof.
  intros Hm Hle. destruct (Zdigits2_bounds m Hm) as (Hd&_&Hhi).
  apply Z.le_ngt. intros Hgt. destruct (Z.le_gt_cases 0 k).
  - assert (2 ^ Zdigits2 m <= 2 ^ k) by (apply Z.pow_le_mono_r; lia). lia.
  - lia.
Qed.

Lemma shr_1_m r : 0 <= shr_m r -> shr_m (shr_1 r) = shr_m r / 2.
Proof.
  destruct r as [[|[p|p|]|p] a b]; simpl; intros; try done; try lia.
  - rewrite Pos2Z.inj_xI. apply Z.div_unique with 1; lia.
  - rewrite Pos2Z.inj_xO. apply Z.div_unique with 0; lia.
Qed.

Lemma iter_shr_m p r :
  0 <= shr_m r -> shr_m (SpecFloat.iter_pos shr_1 p r) = shr_m r / 2 ^ Zpos p.
Proof.
  revert r. induction p as [p IH|p IH|]; intros r Hr; cbn [SpecFloat.iter_pos].
  - assert (0 <= shr_m (shr_1 r)) by by apply shr_1_nonneg.
    rewrite !IH by (try apply iter_shr_nonneg; done). rewrite shr_1_m by done.
    rewrite !Z.div_div by lia. f_equal.
    replace (Zpos p~1) with (1 + Zpos p + Zpos p) by lia. rewrite !Z.pow_add_r by lia. lia.
  - rewrite !IH by (try apply iter_shr_nonneg; done). rewrite Z.div_div by lia. f_equal.
    replace (Zpos p~0) with (Zpos p + Zpos p) by lia. by rewrite Z.pow_add_r.
  - by apply shr_1_m.
Qed.

(** No bits lost: nothing to round. *)
Definition exact_rec (r : shr_record) : Prop := shr_r r = false /\ shr_s r = false.

Lemma shr_1_exact r : 0 <= shr_m r -> shr_m r mod 2 = 0 -> exact_rec r -> exact_rec (shr_1 r).
Proof.
  destruct r as [[|[p|p|]|p] a b]; simpl; intros H0 Hm [Ha Hb]; simpl in *; subst; try done; try lia.
  exfalso. rewrite Pos2Z.inj_xI in Hm. rewrite Z.add_comm, Z.mul_comm, Z.mod_add in Hm by lia. done.
Qed.

Lemma mod_mul_0 m a b : 0 < a -> 0 < b -> m mod (a * b) = 0 -> m mod a = 0 /\ (m / a) mod b = 0.
Proof.
  intros Ha Hb Hm. apply Z.mod_divide in Hm as [k ->]; [|lia].
  replace (k * (a * b)) with (k * b * a) by lia. rewrite Z.mod_mul, Z.div_mul by lia.
  split; [done|]. by apply Z.mod_mul; lia.
Qed.

Lemma iter_shr_exact p r :
  0 <= shr_m r -> shr_m r mod 2 ^ Zpos p = 0 -> exact_rec r ->
  exact_rec (SpecFloat.iter_pos shr_1 p r).
Proof.
  revert r. induction p as [p IH|p IH|]; intros r Hr Hm He; cbn [SpecFloat.iter_pos].
  - replace (Zpos p~1) with (1 + (Zpos p + Zpos p)) in Hm by lia.
    rewrite !Z.pow_add_r in Hm by lia.
    apply mod_mul_0 in Hm as [Hm1 Hm2]; [|lia|lia].
    assert (0 <= shr_m (shr_1 r)) by by apply shr_1_nonneg.
    change (2 ^ 1) with 2 in *. rewrite <- shr_1_m in Hm2 by done.
    apply mod_mul_0 in Hm2 as [Hm2 Hm3]; [|lia|lia].
    assert (exact_rec (shr_1 r)) by by apply shr_1_exact.
    apply IH; [by apply iter_shr_nonneg| |by apply IH]. by rewrite iter_shr_m.
  - replace (Zpos p~0) with (Zpos p + Zpos p) in Hm by lia. rewrite Z.pow_add_r in Hm by lia.
    apply mod_mul_0 in Hm as [Hm1 Hm2]; [|lia|lia].
    apply IH; [by apply iter_shr_nonneg| |by apply IH]. by rewrite iter_shr_m.
  - by apply shr_1_exact.
Qed.

(** ** Canonical numbers *)

(** The mantissa has at most 53 bits, and all of them unless the exponent is
    the smallest. *)
Definition canon (m e : Z) : Prop := 0 < m < 2 ^ 53 /\ -1074 <= e /\ (2 ^ 52 <= m \/ e = -1074).

Definition canonical (x : f64) : Prop :=
  match x with S754_finite _ m e => canon (Zpos m) e | _ => True end.

Abbreviation f64_fexp := (fexp 53 1024).

Lemma f64_fexp_eq n : f64_fexp n = Z.max (n - 53) (-1074).
Proof. done. Qed.

(** What the rounding routine may be given: enough bits for the exponent. *)
Definition roundable (m e : Z) : Prop :=
  0 <= m /\ e <= f64_fexp (Zdigits2 m + e) /\ (m = 0 -> e <= -1074).

Lemma shr_record_of_loc_m m l : shr_m (shr_record_of_loc m l) = m.
Proof. by destruct l as [|[]]. Qed.

(** One shift to the exponent a mantissa should have. *)
Lemma shr_fexp_spec m e l :
  roundable m e ->
  let '(r, e1) := shr_fexp 53 1024 m e l in
  e1 = f64_fexp (Zdigits2 m + e) /\ shr_m r = m / 2 ^ (e1 - e) /\
  (l = loc_Exact -> m mod 2 ^ (e1 - e) = 0 -> exact_rec r).
Proof.
  intros (Hm&He&_). unfold shr_fexp, shr.
  destruct (f64_fexp (Zdigits2 m + e) - e) as [|p|p] eqn:En; [| |lia].
  - assert (f64_fexp (Zdigits2 m + e) = e) as Hf by lia. rewrite Hf, Z.sub_diag, Z.div_1_r.
    rewrite shr_record_of_loc_m. split_and!; [done|done|]. by intros -> _.
  - replace (e + Zpos p) with (f64_fexp (Zdigits2 m + e)) by lia. rewrite En.
    rewrite iter_shr_m by (rewrite shr_record_of_loc_m; lia). rewrite shr_record_of_loc_m.
    split_and!; [done|done|].
    intros -> Hmod. apply iter_shr_exact; simpl; [lia|done|done].
Qed.

Lemma shr_fexp_same m e :
  0 < m -> f64_fexp (Zdigits2 m + e) <= e -> shr_fexp 53 1024 m e loc_Exact = (Build_shr_record m false false, e).
Proof.
  intros Hm He. unfold shr_fexp, shr.
  destruct (f64_fexp (Zdigits2 m + e) - e) as [|p|p] eqn:En; [done|lia|done].
Qed.

Lemma round_nearest_bounds m l : m <= round_nearest_even m l <= m + 1.
Proof. destruct l as [|[]]; simpl; try lia. destruct (Z.even m); lia. Qed.

Lemma round_nearest_exact r : exact_rec r -> round_nearest_even (shr_m r) (loc_of_shr_record r) = shr_m r.
Proof. destruct r as [m a b]. intros [Ha Hb]; simpl in *; by subst. Qed.

(** What the first shift leaves. *)
Lemma first_shift m e e1 q :
  roundable m e ->
  e1 = f64_fexp (Zdigits2 m + e) -> q = m / 2 ^ (e1 - e) ->
  0 <= q < 2 ^ 53 /\ -1074 <= e1 /\ (2 ^ 52 <= q \/ e1 = -1074).
Proof.
  intros (Hm&He&H0) -> ->. destruct (Z.eq_dec m 0) as [->|Hnz].
  { specialize (H0 eq_refl). rewrite f64_fexp_eq in *. change (Zdigits2 0) with 0 in *.
    rewrite Z.div_0_l by (apply Z.pow_nonzero; lia). lia. }
  destruct (Zdigits2_bounds m) as (Hd&Hlo&Hhi); [lia|].
  set (d := Zdigits2 m) in *. rewrite f64_fexp_eq in *. set (e1 := Z.max (d + e - 53) (-1074)) in *.
  assert (0 < 2 ^ (e1 - e)) by (apply Z.pow_pos_nonneg; lia).
  split_and!; try lia.
  - apply Z.div_pos; lia.
  - apply Z.div_lt_upper_bound; [lia|].
    rewrite <- Z.pow_add_r by lia. eapply Z.lt_le_trans; [exact Hhi|].
    apply Z.pow_le_mono_r; lia.
  - destruct (Z.le_gt_cases (d + e - 53) (-1074)); [right; lia|left].
    apply Z.div_le_lower_bound; [lia|]. rewrite <- Z.pow_add_r by lia.
    eapply Z.le_trans; [|exact Hlo]. apply Z.pow_le_mono_r; lia.
Qed.

(** The second shift only acts when rounding reached [2^53]. *)
Lemma second_shift q e1 :
  0 < q <= 2 ^ 53 -> -1074 <= e1 -> (2 ^ 52 <= q \/ e1 = -1074) ->
  shr_fexp 53 1024 q e1 loc_Exact =
  if q =? 2 ^ 53 then (Build_shr_record (2 ^ 52) false false, e1 + 1)
  else (Build_shr_record q false false, e1).
Proof.
  intros Hq He1 Hn. destruct (Z.eqb_spec q (2 ^ 53)) as [->|Hne].
  - unfold shr_fexp. change (Zdigits2 (2 ^ 53)) with 54. rewrite f64_fexp_eq.
    replace (Z.max (54 + e1 - 53) (-1074) - e1) with 1 by lia. done.
  - apply shr_fexp_same; [lia|]. rewrite f64_fexp_eq.
    pose proof (Zdigits2_le q 53). lia.
Qed.

Definition finite_or_inf (s : bool) (p : positive) (e : Z) : f64 :=
  if e <=? 1024 - 53 then S754_finite s p e else S754_infinity s.

(** The result of rounding [m * 2^e]: a mantissa [q] near [m * 2^e / 2^e1]. *)
Lemma round_cases s m e l :
  roundable m e ->
  let e1 := f64_fexp (Zdigits2 m + e) in
  exists q, binary_round_aux 53 1024 s m e l =
      (if q =? 2 ^ 53 then finite_or_inf s 4503599627370496 (e1 + 1)
       else match q with Zpos p => finite_or_inf s p e1 | _ => S754_zero s end) /\
    0 <= q <= 2 ^ 53 /\ -1074 <= e1 /\ (2 ^ 52 <= q \/ e1 = -1074) /\
    m / 2 ^ (e1 - e) <= q <= m / 2 ^ (e1 - e) + 1 /\
    (l = loc_Exact -> m mod 2 ^ (e1 - e) = 0 -> q = m / 2 ^ (e1 - e)).
Proof.
  intros Hm. cbv zeta. unfold binary_round_aux.
  pose proof (shr_fexp_spec m e l Hm) as Hs.
  destruct (shr_fexp 53 1024 m e l) as [r e1]. destruct Hs as (->&Hr&Hex).
  pose proof (first_shift m e _ _ Hm eq_refl Hr) as (H0&H1&H2).
  set (e1 := f64_fexp (Zdigits2 m + e)) in *.
  set (q := round_nearest_even (shr_m r) (loc_of_shr_record r)).
  assert (shr_m r <= q <= shr_m r + 1) as Hq by apply round_nearest_bounds.
  exists q. split_and!; try lia.
  - destruct (Z.eq_dec q 0) as [->|Hq0].
    + simpl. destruct (shr_fexp 53 1024 0 e1 loc_Exact) as [r2 e2] eqn:E2.
      assert (shr_m r2 = 0) as ->; [|done].
      unfold shr_fexp, shr in E2. destruct (f64_fexp (Zdigits2 0 + e1) - e1) as [|p|p];
        simplify_eq/=; try done. by rewrite iter_shr_m.
    + rewrite second_shift by lia.
      destruct (Z.eqb_spec q (2 ^ 53)) as [->|Hne]; [done|].
      cbn [shr_m]. destruct q as [|p|p]; [done|done|lia].
  - intros Hl Hmod. unfold q. rewrite round_nearest_exact; [done|]. by apply Hex.
Qed.

Lemma round_canonical s m e l :
  roundable m e -> canonical (binary_round_aux 53 1024 s m e l).
Proof.
  intros Hm. destruct (round_cases s m e l Hm) as (q&->&Hq&He1&Hn&_).
  destruct (Z.eqb_spec q (2 ^ 53)); [|destruct q as [|p|p]]; try done;
    unfold finite_or_inf; case_match; try done; simpl; unfold canon; lia.
Qed.

(** Rounding a value at most one gives a value at most one. *)
Lemma round_le_one m e l :
  0 < m -> roundable m e -> e <= 0 -> m <= 2 ^ (- e) -> (m = 2 ^ (- e) -> l = loc_Exact) ->
  f64_leb (binary_round_aux 53 1024 false m e l) f64_one = true.
Proof.
  intros Hm He Hneg Hle Hex. destruct (round_cases false m e l He) as (q&->&Hq&He1&Hn&Hdiv&Hexact).
  set (e1 := f64_fexp (Zdigits2 m + e)) in *.
  destruct (Zdigits2_bounds m Hm) as (Hd&Hlo&Hhi).
  assert (f64_one = S754_finite false 4503599627370496 (-52)) as -> by reflexivity.
  assert (forall p e', e' < -52 \/ (e' = -52 /\ Zpos p <= 2 ^ 52) ->
    f64_leb (finite_or_inf false p e') (S754_finite false 4503599627370496 (-52)) = true) as Hlt.
  { intros p e' H. unfold finite_or_inf. rewrite (proj2 (Z.leb_le _ _)) by lia.
    apply f64_leb_key. split_and!; [done|done|]. simpl.
    destruct (Z.compare_spec e' (-52)); [|done|lia]. subst.
    destruct H as [?|[_ H]]; [lia|]. intros Hgt. apply Pos.compare_gt_iff in Hgt. lia. }
  assert (Zdigits2 m + e <= 1) as Hde.
  { assert (Zdigits2 m <= 1 - e); [|lia]. apply Zdigits2_le; [done|lia|].
    eapply Z.le_lt_trans; [exact Hle|]. apply Z.pow_lt_mono_r; lia. }
  destruct (Z.eq_dec (Zdigits2 m + e) 1) as [Hone|Hless].
  - (* the value is exactly one *)
    assert (m = 2 ^ (- e)) as Hm1.
    { apply Z.le_antisymm; [done|]. replace (- e) with (Zdigits2 m - 1) by lia. done. }
    assert (e1 = -52) as He1' by (subst e1; rewrite f64_fexp_eq; lia).
    assert (e <= -52) by (destruct He as (_&Hef&_); fold e1 in Hef; lia).
    assert (m = 2 ^ 52 * 2 ^ (e1 - e)) as Hm2.
    { rewrite He1', <- Z.pow_add_r by lia. rewrite Hm1. f_equal. lia. }
    assert (0 < 2 ^ (e1 - e)) by (apply Z.pow_pos_nonneg; lia).
    assert (q = 2 ^ 52) as ->.
    { rewrite Hexact; [|by apply Hex|]; rewrite Hm2; [apply Z.div_mul; lia|apply Z.mod_mul; lia]. }
    change (2 ^ 52 =? 2 ^ 53) with false. cbv iota. change (2 ^ 52) with 4503599627370496.
    cbv iota. apply Hlt. right. rewrite He1'. done.
  - assert (e1 <= -53) by (subst e1; rewrite f64_fexp_eq; lia).
    destruct (Z.eqb_spec q (2 ^ 53)).
    + apply Hlt. destruct (Z.eq_dec e1 (-53)) as [->|]; [right; done|left; lia].
    + destruct q as [|p|p]; [done| |lia]. apply Hlt. left. lia.
Qed.

(** ** The operations *)

Lemma roundable_pos m e : 0 < m -> e <= f64_fexp (Zdigits2 m + e) -> roundable m e.
Proof. intros. split_and!; lia. Qed.

Lemma shl_align_spec p e e' :
  let '(q, e1) := shl_align p e e' in
  (Zpos q = Zpos p * 2 ^ (e - e1)) /\ e1 = Z.min e e'.
Proof.
  unfold shl_align. destruct (e' - e) as [|d|d] eqn:Ed; [split; [|lia]..|].
  - rewrite Z.sub_diag. lia.
  - rewrite Z.sub_diag. lia.
  - split; [|lia]. replace (e - e') with (Zpos d) by lia. clear. induction d using Pos.peano_ind.
    + simpl. lia.
    + rewrite Pos.iter_succ, Pos2Z.inj_succ, Z.pow_succ_r by lia. lia.
Qed.

(** [binary_normalize] rounds [m * 2^e] after aligning it. *)
Lemma normalize_pos p e :
  exists m e1, 0 < m /\ roundable m e1 /\ e1 <= e /\ m = Zpos p * 2 ^ (e - e1) /\
    (forall s, binary_round 53 1024 s p e = binary_round_aux 53 1024 s m e1 loc_Exact).
Proof.
  pose proof (shl_align_spec p e (f64_fexp (Zpos (digits2_pos p) + e))) as Hs. unfold binary_round.
  destruct (shl_align p e _) as [q e1]. destruct Hs as [Hq He1].
  exists (Zpos q), e1. split_and!; [done| |lia|done|done].
  apply roundable_pos; [done|]. rewrite f64_fexp_eq in *.
  assert (Zdigits2 (Zpos p) + (e - e1) <= Zdigits2 (Zpos q)) as Hd.
  { destruct (Zdigits2_bounds (Zpos p)) as (Hd&Hlo&_); [done|].
    assert (Zdigits2 (Zpos p) - 1 + (e - e1) + 1 <= Zdigits2 (Zpos q)); [|lia].
    apply Zdigits2_ge; [done|]. rewrite Hq, Z.pow_add_r by lia.
    apply Z.mul_le_mono_nonneg_r; [apply Z.pow_nonneg; lia|done]. }
  change (Zpos (digits2_pos p)) with (Zdigits2 (Zpos p)) in He1. lia.
Qed.

Lemma normalize_canonical m e z : canonical (binary_normalize 53 1024 m e z).
Proof.
  destruct m as [|p|p]; [done|..]; cbn [binary_normalize];
    destruct (normalize_pos p e) as (m&e1&Hm&Hr&_&_&->); by apply round_canonical.
Qed.

Lemma f64_of_Z_canonical n : canonical (f64_of_Z n).
Proof. apply normalize_canonical. Qed.

Lemma f64_add_canonical x y : canonical x -> canonical y -> canonical (f64_add x y).
Proof.
  destruct x as [[]|[]| |s m e], y as [[]|[]| |s' m' e']; intros Hx Hy; try done.
  apply normalize_canonical.
Qed.

Lemma f64_sub_canonical x y : canonical x -> canonical y -> canonical (f64_sub x y).
Proof.
  destruct x as [[]|[]| |s m e], y as [[]|[]| |s' m' e']; intros Hx Hy; try done.
  apply normalize_canonical.
Qed.

(** The product of two mantissas has enough bits. *)
Lemma mul_roundable m e m' e' : canon m e -> canon m' e' -> roundable (m * m') (e + e').
Proof.
  intros (Hm&He&Hc) (Hm'&He'&Hc'). apply roundable_pos; [lia|]. rewrite f64_fexp_eq.
  destruct (Zdigits2_bounds m) as (_&Hlo&_); [lia|].
  destruct (Zdigits2_bounds m') as (_&Hlo'&_); [lia|].
  assert (forall a b, 0 < a -> 2 ^ 52 <= b -> 53 <= Zdigits2 (b * a)) as Hbig.
  { intros a b Ha Hb. change 53 with (52 + 1). apply Zdigits2_ge; [lia|]. nia. }
  destruct Hc as [Hc|Hc]; [specialize (Hbig m' m); lia|].
  destruct Hc' as [Hc'|Hc']; [specialize (Hbig m m'); rewrite (Z.mul_comm m' m) in Hbig; lia|].
  lia.
Qed.

Lemma f64_mul_canonical x y : canonical x -> canonical y -> canonical (f64_mul x y).
Proof.
  destruct x as [[]|[]| |s m e], y as [[]|[]| |s' m' e']; intros Hx Hy; try done.
  unfold f64_mul, SFmul. rewrite Pos2Z.inj_mul. by apply round_canonical, mul_roundable.
Qed.

(** A score: a canonical number of the unit interval. *)
Definition score (x : f64) : Prop := in_unit x /\ canonical x.

Lemma f64_one_eq : f64_one = S754_finite false 4503599627370496 (-52).
Proof. reflexivity. Qed.

Lemma score_finite s p e :
  score (S754_finite s p e) -> s = false /\ canon (Zpos p) e /\ e <= -52 /\ Zpos p <= 2 ^ (- e).
Proof.
  intros [[H0 H1] Hc]. destruct s; [done|]. split; [done|]. split; [exact Hc|].
  destruct Hc as (Hb&_). rewrite f64_one_eq in H1. apply f64_leb_key in H1 as (_&_&H1).
  unfold f64_key, lex3 in H1. change (1 ?= 1) with Eq in H1. cbv iota in H1.
  destruct (Z.compare_spec e (-52)) as [He|He|He]; [| |by destruct H1].
  - change (Zpos p <= 4503599627370496) in H1. subst e. split; [lia|].
    replace (- -52) with 52 by lia. lia.
  - split; [lia|]. assert (2 ^ 53 <= 2 ^ (- e)) by (apply Z.pow_le_mono_r; lia). lia.
Qed.

Lemma score_zero s : score (S754_zero s).
Proof. split; [by destruct s|done]. Qed.

Lemma score_lit p q :
  f64_leb f64_zero (f64_lit p q) && f64_leb (f64_lit p q) f64_one = true ->
  canonical (f64_lit p q) -> score (f64_lit p q).
Proof. intros H Hc. split; [by apply in_unit_lit|done]. Qed.

Lemma f64_mul_score x y : score x -> score y -> score (f64_mul x y).
Proof.
  intros Hx Hy. split; [|apply f64_mul_canonical; [apply Hx|apply Hy]].
  assert (f64_nonneg (f64_mul x y)) as Hn
    by (apply f64_mul_nonneg; apply in_unit_fin_nonneg; [apply Hx|apply Hy]).
  split; [by destruct (f64_mul x y) as [[]|[]| |[] ? ?]|].
  destruct x as [s|s| |s m e]; [by destruct y as [| | |[]]; try (destruct Hy as [[? ?] _])|..].
  - destruct Hx as [[? ?] _]. by destruct s.
  - by destruct Hx as [[? ?] _].
  - destruct y as [s'|s'| |s' m' e'].
    + done.
    + destruct Hy as [[? ?] _]. by destruct s'.
    + by destruct Hy as [[? ?] _].
    + apply score_finite in Hx as (->&Hc&He&Hb), Hy as (->&Hc'&He'&Hb').
      unfold f64_mul, SFmul. cbn [xorb]. rewrite Pos2Z.inj_mul.
      apply round_le_one; [lia|by apply mul_roundable|lia| |done].
      replace (- (e + e')) with (- e + - e') by lia. rewrite Z.pow_add_r by lia. nia.
Qed.

(** Normalising [m * 2^e <= 1] gives a score. *)
Lemma normalize_score m e z :
  0 <= m -> e <= 0 -> m <= 2 ^ (- e) -> score (binary_normalize 53 1024 m e z).
Proof.
  intros Hm He Hle. split; [|apply normalize_canonical].
  destruct m as [|p|p]; [by destruct z| |lia]. cbn [binary_normalize].
  destruct (normalize_pos p e) as (m&e1&Hm1&Hr&He1&Heq&->). split.
  - pose proof (binary_round_aux_nonneg m e1 loc_Exact ltac:(lia)) as Hn.
    by destruct (binary_round_aux _ _ _ _ _ _) as [[]|[]| |[] ? ?].
  - apply round_le_one; [done|done|lia| |done]. rewrite Heq.
    replace (- e1) with (- e + (e - e1)) by lia. rewrite Z.pow_add_r by lia.
    apply Z.mul_le_mono_nonneg_r; [apply Z.pow_nonneg; lia|done].
Qed.

Lemma score_one : score f64_one.
Proof. rewrite f64_one_eq. split; [split; reflexivity|]. simpl. unfold canon. lia. Qed.

(** [1 - x] of a score is a score. *)
Lemma f64_compl_score x : score x -> score (f64_sub f64_one x).
Proof.
  intros Hx. rewrite f64_one_eq. destruct x as [s|s| |s p e].
  - cbn. rewrite <- f64_one_eq. apply score_one.
  - destruct Hx as [[? ?] _]. by destruct s.
  - by destruct Hx as [[? ?] _].
  - apply score_finite in Hx as (->&Hc&He&Hb). unfold f64_sub, SFsub.
    rewrite Z.min_r by lia. cbn [cond_Zopp].
    pose proof (shl_align_spec 4503599627370496 (-52) e) as H1.
    pose proof (shl_align_spec p e e) as H2.
    destruct (shl_align 4503599627370496 (-52) e) as [m1 e1], (shl_align p e e) as [m2 e2].
    cbn [fst]. destruct H1 as [H1 ->], H2 as [H2 ->].
    rewrite Z.min_id, Z.sub_diag in H2. rewrite Z.min_r in H1 by lia.
    assert (Zpos m1 = 2 ^ (- e)) as Hm1.
    { rewrite H1. change 4503599627370496 with (2 ^ 52). rewrite <- Z.pow_add_r by lia.
      f_equal. lia. }
    apply normalize_score; lia.
Qed.

Lemma f64_clamp01_score x : f64_is_nan x = false -> canonical x -> score (f64_clamp01 x).
Proof.
  intros Hn Hc. split; [by apply f64_clamp01_unit|].
  unfold f64_clamp01, f64_clamp.
  destruct (f64_ltb x f64_zero).
  - destruct (f64_ltb f64_one f64_zero); [apply score_one|done].
  - destruct (f64_ltb f64_one x); [apply score_one|done].
Qed.

Lemma score_not_nan x : score x -> f64_is_nan x = false.
Proof. intros [Hu _]. by apply in_unit_not_nan. Qed.

Lemma score_fin_nonneg x : score x -> f64_fin_nonneg x.
Proof. intros [Hu _]. by apply in_unit_fin_nonneg. Qed.

(** Quotients. *)
Lemma div_roundable m1 e1 m2 e2 :
  canon m1 e1 -> canon m2 e2 ->
  let '(q, e', l) := SFdiv_core_binary 53 1024 m1 e1 m2 e2 in
  roundable q e' /\ e' <= e1 - e2 /\ e' <= f64_fexp (Zdigits2 m1 + e1 - (Zdigits2 m2 + e2)) /\
  exists r, m1 * 2 ^ (e1 - e2 - e') = m2 * q + r /\ 0 <= r < m2 /\ (r = 0 -> l = loc_Exact).
Proof.
  intros (Hm1&He1&_) (Hm2&He2&_). unfold SFdiv_core_binary.
  set (d1 := Zdigits2 m1). set (d2 := Zdigits2 m2).
  destruct (Zdigits2_bounds m1) as (Hd1&Hlo1&Hhi1); [lia|].
  destruct (Zdigits2_bounds m2) as (Hd2&Hlo2&Hhi2); [lia|]. fold d1 in Hd1, Hlo1. fold d2 in Hd2, Hhi2.
  set (e' := Z.min (f64_fexp (d1 + e1 - (d2 + e2))) (e1 - e2)).
  assert ((match e1 - e2 - e' with Z0 => m1 | Zpos _ => Z.shiftl m1 (e1 - e2 - e') | Zneg _ => 0 end)
    = m1 * 2 ^ (e1 - e2 - e')) as ->.
  { destruct (e1 - e2 - e') as [|s|s] eqn:Es; [by rewrite Z.mul_1_r| |lia].
    by rewrite Z.shiftl_mul_pow2. }
  pose proof (Z.div_eucl_eq (m1 * 2 ^ (e1 - e2 - e')) m2) as Hq.
  pose proof (Z.mod_pos_bound (m1 * 2 ^ (e1 - e2 - e')) m2) as Hr. unfold Z.modulo in Hr.
  destruct (Z.div_eucl _ m2) as [q r]. specialize (Hq ltac:(lia)). specialize (Hr ltac:(lia)).
  assert (0 < 2 ^ (e1 - e2 - e')) by (apply Z.pow_pos_nonneg; lia).
  assert (2 ^ (d1 - 1 + (e1 - e2 - e')) <= m1 * 2 ^ (e1 - e2 - e')) as Hlow.
  { rewrite Z.pow_add_r by lia. apply Z.mul_le_mono_nonneg_r; lia. }
  assert (0 <= q) as Hq0 by nia.
  assert (d1 + (e1 - e2 - e') - d2 <= Zdigits2 q \/ q = 0) as Hdq.
  { destruct (Z.eq_dec q 0) as [|Hnz]; [by right|left].
    destruct (Z.le_gt_cases (d1 + (e1 - e2 - e') - d2) 0).
    { destruct (Zdigits2_bounds q); lia. }
    replace (d1 + (e1 - e2 - e') - d2) with (d1 + (e1 - e2 - e') - d2 - 1 + 1) by lia.
    apply Zdigits2_ge; [lia|].
    assert (2 ^ (d1 - 1 + (e1 - e2 - e')) < 2 ^ d2 * (q + 1)) as Hlt by nia.
    replace (d1 - 1 + (e1 - e2 - e')) with (d2 + (d1 + (e1 - e2 - e') - d2 - 1)) in Hlt by lia.
    rewrite Z.pow_add_r in Hlt by lia. apply Z.mul_lt_mono_pos_l in Hlt; [lia|].
    apply Z.pow_pos_nonneg; lia. }
  split; [|split_and!; [lia|lia|exists r; split_and!; [done|lia|lia|]; intros ->;
    unfold new_location, new_location_even, new_location_odd; by destruct (Z.even m2)]].
  split; [done|]. rewrite f64_fexp_eq.
  assert (e' = Z.min (Z.max (d1 + e1 - (d2 + e2) - 53) (-1074)) (e1 - e2)) as He' by reflexivity.
  split.
  - destruct Hdq as [Hdq| ->]; [lia|].
    change (Zdigits2 0) with 0.
    destruct (Z.le_gt_cases (d1 + e1 - (d2 + e2) - 53) (-1074)); [lia|].
    exfalso. assert (d2 <= d1 - 1 + (e1 - e2 - e')) as Hge by lia.
    assert (2 ^ d2 <= 2 ^ (d1 - 1 + (e1 - e2 - e'))) by (apply Z.pow_le_mono_r; lia). nia.
  - intros ->. destruct (Z.le_gt_cases (d1 + e1 - (d2 + e2) - 53) (-1074)); [lia|].
    exfalso. assert (d2 <= d1 - 1 + (e1 - e2 - e')) as Hge by lia.
    assert (2 ^ d2 <= 2 ^ (d1 - 1 + (e1 - e2 - e'))) by (apply Z.pow_le_mono_r; lia). nia.
Qed.

Lemma f64_div_canonical x y : canonical x -> canonical y -> canonical (f64_div x y).
Proof.
  destruct x as [[]|[]| |s m e], y as [[]|[]| |s' m' e']; intros Hx Hy; try done.
  unfold f64_div, SFdiv. pose proof (div_roundable _ _ _ _ Hx Hy) as Hr.
  destruct (SFdiv_core_binary _ _ _ _ _ _) as [[q e1] l]. destruct Hr as [Hr _].
  by apply round_canonical.
Qed.

(** Dividing a non-negative finite number by a positive finite one. *)
Lemma f64_div_nonneg x y :
  f64_fin_nonneg x -> f64_fin_nonneg y -> canonical x -> canonical y ->
  f64_leb y f64_zero = false -> f64_nonneg (f64_div x y).
Proof.
  destruct x as [s|s| |[] m e], y as [s'|s'| |[] m' e']; intros Hx Hy Cx Cy Hp; try done.
  unfold f64_div, SFdiv. pose proof (div_roundable _ _ _ _ Cx Cy) as Hr.
  destruct (SFdiv_core_binary _ _ _ _ _ _) as [[q e1] l]. destruct Hr as [Hr _].
  apply binary_round_aux_nonneg, Hr.
Qed.

(** A quotient of two values, the first at most the second, is a score. *)
Lemma f64_div_score p e p' e' :
  canon (Zpos p) e -> canon (Zpos p') e' ->
  Zpos p * 2 ^ (e + 1074) <= Zpos p' * 2 ^ (e' + 1074) ->
  score (f64_div (S754_finite false p e) (S754_finite false p' e')).
Proof.
  intros Hc Hc' Hle. split; [|by apply f64_div_canonical].
  assert (f64_nonneg (f64_div (S754_finite false p e) (S754_finite false p' e'))) as Hn
    by (by apply f64_div_nonneg).
  split; [by destruct (f64_div _ _) as [[]|[]| |[] ? ?]|].
  unfold f64_div, SFdiv. pose proof (div_roundable _ _ _ _ Hc Hc') as Hr.
  destruct (SFdiv_core_binary _ _ _ _ _ _) as [[q e1] l]. cbn [xorb].
  destruct Hr as (Hr&He1&He2&r&Hq&Hb&Hex). destruct Hc as (_&Hb1&_), Hc' as (_&Hb2&_).
  assert (Zpos p * 2 ^ (e - e' - e1) <= Zpos p' * 2 ^ (- e1) \/ 0 < e1) as [Hv|Hpos].
  { destruct (Z.le_gt_cases e1 0); [left|by right].
    assert (0 < 2 ^ (e' + 1074 + e1 - e1)) by (apply Z.pow_pos_nonneg; lia).
    apply (Z.mul_le_mono_pos_r _ _ (2 ^ (e' + 1074))); [apply Z.pow_pos_nonneg; lia|].
    rewrite <- !Z.mul_assoc, <- !Z.pow_add_r by lia.
    replace (e - e' - e1 + (e' + 1074)) with (e + 1074 + - e1) by lia.
    replace (- e1 + (e' + 1074)) with (e' + 1074 + - e1) by lia.
    rewrite !(Z.pow_add_r 2 _ (- e1)) by lia. rewrite !Z.mul_assoc.
    apply Z.mul_le_mono_nonneg_r; [apply Z.pow_nonneg; lia|done]. }
  - assert (q <= 2 ^ (- e1)) as Hqle by nia.
    assert (e1 <= 0) as He1'.
    { destruct (Z.le_gt_cases e1 0); [done|]. rewrite (Z.pow_neg_r 2 (- e1)) in Hv by lia.
      assert (0 < 2 ^ (e - e' - e1)) by (apply Z.pow_pos_nonneg; lia). nia. }
    destruct (Z.eq_dec q 0) as [->|Hq0].
    + destruct (round_cases false 0 e1 l Hr) as (q&->&_&_&_&Hq1&_).
      rewrite Z.div_0_l in Hq1 by (apply Z.pow_nonzero; [lia|]; destruct Hr as (_&?&_); lia).
      destruct Hr as (_&Hf&Hz). specialize (Hz eq_refl).
      rewrite (proj2 (Z.eqb_neq q (2 ^ 53))) by lia.
      assert (f64_fexp (Zdigits2 0 + e1) = -1074) as -> by (rewrite f64_fexp_eq; simpl; lia).
      assert (q = 0 \/ q = 1) as [->| ->] by lia; reflexivity.
    + apply round_le_one; [destruct Hr; lia|done|done|done|].
      intros Heq. apply Hex. rewrite Heq in Hq. nia.
  - exfalso. rewrite f64_fexp_eq in He2. 
    destruct (Zdigits2_bounds (Zpos p)) as (Hd1&Hlo&_); [done|].
    destruct (Zdigits2_bounds (Zpos p')) as (Hd2&_&Hhi); [done|].
    assert (2 ^ (Zdigits2 (Zpos p') + (e' + 1074)) <= 2 ^ (Zdigits2 (Zpos p) - 1 + (e + 1074))) as Hpow
      by (apply Z.pow_le_mono_r; [lia|]; lia).
    rewrite (Z.pow_add_r 2 (Zdigits2 _) (e' + 1074)) in Hpow by lia.
    rewrite (Z.pow_add_r 2 (Zdigits2 _ - 1) (e + 1074)) in Hpow by lia.
    assert (0 < 2 ^ (e + 1074)) by (apply Z.pow_pos_nonneg; lia).
    assert (0 < 2 ^ (e' + 1074)) by (apply Z.pow_pos_nonneg; lia).
    assert (2 ^ (Zdigits2 (Zpos p) - 1) * 2 ^ (e + 1074) <= Zpos p * 2 ^ (e + 1074)) by nia.
    assert (Zpos p' * 2 ^ (e' + 1074) < 2 ^ Zdigits2 (Zpos p') * 2 ^ (e' + 1074)) by nia.
    lia.
Qed.

(** Integers below [2^53] are converted exactly. *)
Lemma f64_of_Z_exact p :
  Zpos p < 2 ^ 53 ->
  exists q e, f64_of_Z (Zpos p) = S754_finite false q e /\ canon (Zpos q) e /\
    Zpos q * 2 ^ (e + 1074) = Zpos p * 2 ^ 1074.
Proof.
  intros Hp. unfold f64_of_Z. cbn [binary_normalize]. unfold binary_round.
  pose proof (shl_align_spec p 0 (f64_fexp (Zpos (digits2_pos p) + 0))) as Hs.
  destruct (shl_align p 0 _) as [q e]. destruct Hs as [Hq He].
  destruct (Zdigits2_bounds (Zpos p)) as (Hd&Hlo&Hhi); [done|].
  assert (Zdigits2 (Zpos p) <= 53) by (apply Zdigits2_le; lia).
  change (Zpos (digits2_pos p)) with (Zdigits2 (Zpos p)) in He. rewrite f64_fexp_eq in He.
  assert (e = Zdigits2 (Zpos p) - 53) as He' by lia.
  assert (2 ^ 52 <= Zpos q < 2 ^ 53) as Hqb.
  { rewrite Hq. replace (2 ^ 52) with (2 ^ (Zdigits2 (Zpos p) - 1) * 2 ^ (0 - e))
      by (rewrite <- Z.pow_add_r by lia; f_equal; lia).
    replace (2 ^ 53) with (2 ^ (Zdigits2 (Zpos p)) * 2 ^ (0 - e))
      by (rewrite <- Z.pow_add_r by lia; f_equal; lia).
    assert (0 < 2 ^ (0 - e)) by (apply Z.pow_pos_nonneg; lia). nia. }
  exists q, e. split_and!.
  - unfold binary_round_aux. rewrite shr_fexp_same; [|lia|].
    2: { rewrite f64_fexp_eq. pose proof (Zdigits2_le (Zpos q) 53). lia. }
    cbn [shr_m loc_of_shr_record round_nearest_even]. rewrite shr_fexp_same; [|lia|].
    2: { rewrite f64_fexp_eq. pose proof (Zdigits2_le (Zpos q) 53). lia. }
    cbn [shr_m]. by rewrite (proj2 (Z.leb_le _ _)) by lia.
  - unfold canon. lia.
  - rewrite Hq, <- Z.mul_assoc, <- Z.pow_add_r by lia. do 2 f_equal. lia.
Qed.

(** A count out of a count. *)
Lemma ratio_score a b : 0 <= a <= b -> 0 < b < 2 ^ 53 -> score (f64_div (f64_of_Z a) (f64_of_Z b)).
Proof.
  intros Ha Hb. destruct b as [|b|b]; [lia| |lia].
  destruct (f64_of_Z_exact b) as (q'&e'&Eb&Cb&Vb); [lia|]. rewrite Eb.
  destruct a as [|a|a]; [apply score_zero| |lia].
  destruct (f64_of_Z_exact a) as (q&e&Ea&Ca&Va); [lia|]. rewrite Ea.
  apply f64_div_score; [done|done|]. rewrite Va, Vb.
  apply Z.mul_le_mono_nonneg_r; [apply Z.pow_nonneg; lia|lia].
Qed.

#[export] Hint Resolve f64_mul_score f64_compl_score score_one score_zero score_not_nan
  score_fin_nonneg f64_add_canonical f64_mul_canonical f64_div_canonical f64_sub_canonical
  f64_of_Z_canonical : cuma.
