(* ===== verification/Text.v ===== *)
(** * Strings

    A [String]/[&str] is its UTF-8 byte sequence ([string]); a [char] is its
    code point ([Z]).  The functions below are the ones of [std] the program
    uses.  The Unicode tables are not part of the program: functions that need
    more than ASCII and [White_Space] take the table as an argument. *)

From S2P Require Export Prelude.
From stdpp Require Export pretty.
From Stdlib Require Export Ascii.
Open Scope string_scope.
Open Scope Z_scope.

(** ** Bytes and chars *)

Definition byte_of (a : ascii) : Z := Z.of_N (N_of_ascii a).
Definition of_byte (z : Z) : ascii := ascii_of_N (Z.to_N z).

(** Double quote, newline and backslash, which literals cannot spell. *)
Definition DQ : string := String (of_byte 34) EmptyString.
Definition NL : string := String (of_byte 10) EmptyString.

Fixpoint bytes_of_list (l : list Z) : string :=
  match l with [] => EmptyString | b :: l' => String (of_byte b) (bytes_of_list l') end.

(** UTF-8.  Bytes that are not part of a well-formed sequence are carried as
    [0x110000 + byte], beyond every code point, so encoding inverts decoding on
    every byte string. *)
Definition INVALID : Z := 0x110000.

Definition utf8_encode (c : Z) : list Z :=
  if INVALID <=? c then [c - INVALID]
  else if c <? 0x80 then [c]
  else if c <? 0x800 then [0xC0 + c / 64; 0x80 + c mod 64]
  else if c <? 0x10000 then [0xE0 + c / 4096; 0x80 + (c / 64) mod 64; 0x80 + c mod 64]
  else [0xF0 + c / 262144; 0x80 + (c / 4096) mod 64; 0x80 + (c / 64) mod 64; 0x80 + c mod 64].

(** The code point a prefix of [bs] encodes, and the number of bytes. *)
Definition utf8_candidate (bs : list Z) : option (Z * nat) :=
  match bs with
  | [] => None
  | b0 :: r =>
      if b0 <? 0x80 then Some (b0, 1%nat)
      else match r with
      | [] => None
      | b1 :: r1 =>
          if b0 <? 0xE0 then Some ((b0 - 0xC0) * 64 + (b1 - 0x80), 2%nat)
          else match r1 with
          | [] => None
          | b2 :: r2 =>
              if b0 <? 0xF0 then
                Some ((b0 - 0xE0) * 4096 + (b1 - 0x80) * 64 + (b2 - 0x80), 3%nat)
              else match r2 with
              | [] => None
              | b3 :: _ =>
                  Some ((b0 - 0xF0) * 262144 + (b1 - 0x80) * 4096
                        + (b2 - 0x80) * 64 + (b3 - 0x80), 4%nat)
              end
          end
      end
  end.

Definition utf8_step (bs : list Z) : option (Z * nat) :=
  match utf8_candidate bs with
  | Some (c, n) =>
      if bool_decide (utf8_encode c = take n bs) && (c <? INVALID)
      then Some (c, n) else None
  | None => None
  end.

Fixpoint utf8_decode (fuel : nat) (bs : list Z) : list Z :=
  match fuel, bs with
  | S fuel', b :: r =>
      match utf8_step bs with
      | Some (c, n) => c :: utf8_decode fuel' (drop n bs)
      | None => (INVALID + b) :: utf8_decode fuel' r
      end
  | _, _ => []
  end.

Fixpoint bytes (s : string) : list Z :=
  match s with EmptyString => [] | String a s' => byte_of a :: bytes s' end.

(** [str::chars] and collecting chars back into a [String]. *)
Definition chars (s : string) : list Z := utf8_decode (String.length s) (bytes s).
Definition of_chars (l : list Z) : string := bytes_of_list (concat (map utf8_encode l)).

(** [char::is_whitespace]: the Unicode [White_Space] property. *)
Definition is_whitespace (c : Z) : bool :=
  ((9 <=? c) && (c <=? 13)) || contains [32; 0x85; 0xA0; 0x1680; 0x2028; 0x2029; 0x202F; 0x205F; 0x3000] c
  || ((0x2000 <=? c) && (c <=? 0x200A)).

Definition is_ascii_digit (c : Z) : bool := (48 <=? c) && (c <=? 57).
Definition is_ascii_upper (c : Z) : bool := (65 <=? c) && (c <=? 90).
Definition is_ascii_lower (c : Z) : bool := (97 <=? c) && (c <=? 122).
Definition is_ascii_alphanumeric (c : Z) : bool :=
  is_ascii_digit c || is_ascii_upper c || is_ascii_lower c.

(** [char::is_alphanumeric], given the Unicode table beyond ASCII. *)
Definition is_alphanumeric (unicode : Z -> bool) (c : Z) : bool :=
  if c <? 0x80 then is_ascii_alphanumeric c else unicode c.

(** Ill-formed sequences: whether there are none, and their replacement. *)
Definition utf8_valid (s : string) : bool := forallb (fun c => c <? INVALID) (chars s).

(** [String::from_utf8_lossy]: each maximal part of an ill-formed sequence is
    replaced by U+FFFD.  [cont] tells continuation bytes. *)
Definition cont (b : Z) : bool := (0x80 <=? b) && (b <=? 0xBF).

Definition second_ok (b0 b1 : Z) : bool :=
  if b0 =? 0xE0 then (0xA0 <=? b1) && (b1 <=? 0xBF)
  else if b0 =? 0xED then (0x80 <=? b1) && (b1 <=? 0x9F)
  else if b0 =? 0xF0 then (0x90 <=? b1) && (b1 <=? 0xBF)
  else if b0 =? 0xF4 then (0x80 <=? b1) && (b1 <=? 0x8F)
  else cont b1.

(** How many bytes of an ill-formed prefix are replaced together. *)
Definition ill_formed_length (bs : list Z) : nat :=
  match bs with
  | b0 :: b1 :: r =>
      if (0xE0 <=? b0) && (b0 <=? 0xEF) && second_ok b0 b1 then 2
      else if (0xF0 <=? b0) && (b0 <=? 0xF4) && second_ok b0 b1 then
        match r with b2 :: _ => if cont b2 then 3 else 2 | [] => 2 end
      else 1
  | _ => 1
  end.

Fixpoint lossy_bytes (fuel : nat) (bs : list Z) : list Z :=
  match fuel, bs with
  | S fuel', _ :: _ =>
      match utf8_step bs with
      | Some (_, n) => (take n bs ++ lossy_bytes fuel' (drop n bs))%list
      | None => (utf8_encode 0xFFFD ++ lossy_bytes fuel' (drop (ill_formed_length bs) bs))%list
      end
  | _, _ => []
  end.

Definition from_utf8_lossy (s : string) : string :=
  bytes_of_list (lossy_bytes (String.length s) (bytes s)).

(** ** Case *)

Definition ascii_lower (a : ascii) : ascii :=
  if is_ascii_upper (byte_of a) then of_byte (byte_of a + 32) else a.

Fixpoint to_ascii_lowercase (s : string) : string :=
  match s with EmptyString => EmptyString | String a s' => String (ascii_lower a) (to_ascii_lowercase s') end.

(** [str::to_lowercase], given the Unicode mapping beyond ASCII. *)
Definition to_lowercase (unicode : Z -> list Z) (s : string) : string :=
  of_chars (concat (map (fun c =>
    if c <? 0x80 then [if is_ascii_upper c then c + 32 else c] else unicode c) (chars s))).

(** [str::replace] of one ASCII character by another. *)
Fixpoint replace_char (a b : ascii) (s : string) : string :=
  match s with
  | EmptyString => EmptyString
  | String c s' => String (if bool_decide (c = a) then b else c) (replace_char a b s')
  end.

(** ** Searching *)

Fixpoint starts_with (s pat : string) {struct pat} : bool :=
  match pat, s with
  | EmptyString, _ => true
  | String a pat', String b s' => bool_decide (a = b) && starts_with s' pat'
  | _, EmptyString => false
  end.

Fixpoint str_contains (s pat : string) : bool :=
  starts_with s pat ||
  match s with EmptyString => false | String _ s' => str_contains s' pat end.

Definition strip_prefix (s pat : string) : option string :=
  if starts_with s pat
  then Some (String.substring (String.length pat) (String.length s - String.length pat) s)
  else None.

Definition ends_with (s pat : string) : bool :=
  let n := String.length s in let m := String.length pat in
  Nat.leb m n && bool_decide (String.substring (n - m) m s = pat).

(** ** Trimming *)

Fixpoint drop_while (p : Z -> bool) (l : list Z) : list Z :=
  match l with [] => [] | c :: l' => if p c then drop_while p l' else l end.

Definition trim_start_matches (p : Z -> bool) (s : string) : string :=
  of_chars (drop_while p (chars s)).
Definition trim_end_matches (p : Z -> bool) (s : string) : string :=
  of_chars (rev (drop_while p (rev (chars s)))).
Definition trim_matches (p : Z -> bool) (s : string) : string :=
  of_chars (rev (drop_while p (rev (drop_while p (chars s))))).
Definition trim (s : string) : string := trim_matches is_whitespace s.

(** [trim_start_matches] with a string pattern: the pattern is removed while it
    is a prefix. *)
Fixpoint trim_start_str (fuel : nat) (pat s : string) : string :=
  match fuel with
  | O => s
  | S fuel' => match strip_prefix s pat with Some s' => trim_start_str fuel' pat s' | None => s end
  end.

(** ** Splitting and joining *)

(** [str::split(c)]: always at least one piece. *)
Fixpoint split_char (c : ascii) (s : string) : list string :=
  match s with
  | EmptyString => [EmptyString]
  | String a s' =>
      if bool_decide (a = c) then EmptyString :: split_char c s'
      else match split_char c s' with
           | p :: ps => String a p :: ps
           | [] => [String a EmptyString]
           end
  end.

(** [str::splitn(n, c)]. *)
Fixpoint splitn_char (n : nat) (c : ascii) (s : string) : list string :=
  match n with
  | O => []
  | S O => [s]
  | S n' =>
      (fix go (acc : string) (rest : string) : list string :=
         match rest with
         | EmptyString => [acc]
         | String a rest' =>
             if bool_decide (a = c) then acc :: splitn_char n' c rest'
             else go (acc +:+ String a EmptyString) rest'
         end) EmptyString s
  end.

(** Maximal runs of chars that do not satisfy [p]. *)
Fixpoint runs (p : Z -> bool) (l : list Z) : list (list Z) :=
  match l with
  | [] => []
  | c :: l' =>
      if p c then runs p l'
      else match l' with
           | [] => [[c]]
           | d :: _ => if p d then [c] :: runs p l'
                       else match runs p l' with r :: rs => (c :: r) :: rs | [] => [[c]] end
           end
  end.

Definition split_whitespace (s : string) : list string :=
  map of_chars (runs is_whitespace (chars s)).

Definition CR : ascii := of_byte 13.
Definition LF : ascii := of_byte 10.

Definition strip_cr (s : string) : string :=
  if ends_with s (String CR EmptyString) then String.substring 0 (String.length s - 1) s else s.

(** [str::lines]. *)
Definition lines (s : string) : list string :=
  let pieces := split_char LF s in
  let pieces := match rev pieces with EmptyString :: r => rev r | _ => pieces end in
  map strip_cr pieces.

Fixpoint str_join (sep : string) (l : list string) : string :=
  match l with
  | [] => EmptyString
  | [s] => s
  | s :: l' => s +:+ sep +:+ str_join sep l'
  end.

(** ** Numbers *)

Fixpoint parse_digits (acc : Z) (s : string) : option Z :=
  match s with
  | EmptyString => Some acc
  | String a s' =>
      let c := byte_of a in
      if is_ascii_digit c then parse_digits (acc * 10 + (c - 48)) s' else None
  end.

(** [str::parse::<uN>] for an unsigned type with the given maximum: an optional
    plus sign, at least one digit, no overflow. *)
Definition parse_unsigned (max : Z) (s : string) : option Z :=
  let digits := match s with String a s' => if byte_of a =? 43 then s' else s | _ => s end in
  match digits with
  | EmptyString => None
  | _ => match parse_digits 0 digits with
         | Some n => if n <=? max then Some n else None
         | None => None
         end
  end.

(** [{:?}] of a string, for texts whose chars need no Unicode escape. *)
Definition escape_debug (a : ascii) : string :=
  let c := byte_of a in
  if c =? 34 then String (of_byte 92) DQ
  else if c =? 92 then String (of_byte 92) (String (of_byte 92) EmptyString)
  else if c =? 10 then String (of_byte 92) "n"
  else if c =? 13 then String (of_byte 92) "r"
  else if c =? 9 then String (of_byte 92) "t"
  else if c =? 0 then String (of_byte 92) "0"
  else String a EmptyString.

Fixpoint escape_str (s : string) : string :=
  match s with EmptyString => EmptyString | String a s' => escape_debug a +:+ escape_str s' end.

Definition debug_str (s : string) : string := DQ +:+ escape_str s +:+ DQ.

(** ** Round trip of UTF-8 *)

Lemma byte_of_range a : 0 <= byte_of a < 256.
Proof. unfold byte_of. pose proof (N_ascii_bounded a). lia. Qed.

Lemma of_byte_of a : of_byte (byte_of a) = a.
Proof. unfold of_byte, byte_of. rewrite N2Z.id. apply ascii_N_embedding. Qed.

Lemma bytes_of_list_bytes s : bytes_of_list (bytes s) = s.
Proof. induction s as [|a s IH]; simpl; [done|]. by rewrite of_byte_of, IH. Qed.

Lemma bytes_length s : length (bytes s) = String.length s.
Proof. induction s; simpl; congruence. Qed.

Lemma utf8_step_some bs c n :
  utf8_step bs = Some (c, n) -> utf8_encode c = take n bs /\ (0 < n)%nat /\ c < INVALID.
Proof.
  unfold utf8_step. destruct (utf8_candidate bs) as [[c' n']|] eqn:E; [|done].
  intros H. case_match; simplify_eq. destruct_bools.
  split_and!; [done| |lia]. unfold utf8_candidate in E. repeat case_match; simplify_eq; lia.
Qed.

Lemma utf8_decode_encode fuel bs :
  (length bs <= fuel)%nat -> Forall (fun b => 0 <= b < 256) bs ->
  concat (map utf8_encode (utf8_decode fuel bs)) = bs.
Proof.
  revert bs. induction fuel as [|fuel IH]; intros bs Hl Hb.
  { destruct bs; simpl in *; [done|lia]. }
  destruct bs as [|b r]; [done|]. cbn [utf8_decode].
  destruct (utf8_step (b :: r)) as [[c n]|] eqn:E.
  - apply utf8_step_some in E as (He&Hn&_). cbn [map concat]. rewrite IH.
    + rewrite He. apply take_drop.
    + rewrite length_drop. simpl in *. lia.
    + by apply Forall_drop.
  - cbn [map concat]. inversion Hb; subst. rewrite IH; [|simpl in Hl; lia|done].
    unfold utf8_encode. destruct (INVALID <=? INVALID + b) eqn:Eb; [|lia].
    simpl. f_equal. lia.
Qed.

(** Collecting the chars of a string gives the string back. *)
Lemma of_chars_chars s : of_chars (chars s) = s.
Proof.
  unfold of_chars, chars. rewrite utf8_decode_encode.
  - apply bytes_of_list_bytes.
  - by rewrite bytes_length.
  - clear. induction s as [|a s IH]; simpl; constructor; [apply byte_of_range|done].
Qed.

(** ** Lengths *)

Lemma length_bytes_of_list_app a b :
  String.length (bytes_of_list (a ++ b)) = (String.length (bytes_of_list a) + String.length (bytes_of_list b))%nat.
Proof. induction a; simpl; congruence. Qed.

Lemma length_of_chars_app a b :
  String.length (of_chars (a ++ b)) = (String.length (of_chars a) + String.length (of_chars b))%nat.
Proof. unfold of_chars. by rewrite map_app, concat_app, length_bytes_of_list_app. Qed.

Lemma utf8_encode_length c : (1 <= length (utf8_encode c) <= 4)%nat.
Proof. unfold utf8_encode. repeat case_match; simpl; lia. Qed.

Lemma length_of_chars l : (length l <= String.length (of_chars l) <= 4 * length l)%nat.
Proof.
  induction l as [|c l IH]; [simpl; lia|].
  change (c :: l) with ([c] ++ l)%list. rewrite length_of_chars_app.
  assert (String.length (of_chars [c]) = length (utf8_encode c)) as ->.
  { unfold of_chars. simpl. rewrite app_nil_r. induction (utf8_encode c); simpl; congruence. }
  pose proof (utf8_encode_length c). rewrite length_app. simpl. lia.
Qed.

Lemma drop_while_suffix p l : exists k, l = (k ++ drop_while p l)%list.
Proof.
  induction l as [|c l [k IH]]; simpl; [by exists []|].
  destruct (p c); [|by exists []]. exists (c :: k). simpl. by f_equal.
Qed.

Lemma length_trim_start_matches p s : (String.length (trim_start_matches p s) <= String.length s)%nat.
Proof.
  unfold trim_start_matches. destruct (drop_while_suffix p (chars s)) as [k Hk].
  rewrite <- (of_chars_chars s) at 2. rewrite Hk at 2. rewrite length_of_chars_app. lia.
Qed.

Lemma length_trim_matches p s : (String.length (trim_matches p s) <= String.length s)%nat.
Proof.
  unfold trim_matches. pose proof (length_trim_start_matches p s) as Hs. unfold trim_start_matches in Hs.
  set (l := drop_while p (chars s)) in *. clearbody l.
  destruct (drop_while_suffix p (rev l)) as [k Hk].
  assert (l = (rev (drop_while p (rev l)) ++ rev k)%list) as Hl
    by (rewrite <- rev_app_distr, <- Hk; by rewrite rev_involutive).
  assert (String.length (of_chars l) =
    (String.length (of_chars (rev (drop_while p (rev l)))) + String.length (of_chars (rev k)))%nat)
    by (rewrite <- length_of_chars_app; by f_equal; f_equal). lia.
Qed.

Lemma length_append a b : String.length (a +:+ b) = (String.length a + String.length b)%nat.
Proof. induction a; simpl; [done|]. by f_equal. Qed.

Lemma length_substring_le n m s : (String.length (String.substring n m s) <= m)%nat.
Proof.
  revert n m. induction s as [|a s IH]; intros n m; simpl; [destruct n, m; simpl; lia|].
  destruct n, m; simpl; [lia| |apply IH|apply IH]. specialize (IH O m). lia.
Qed.

Lemma length_trim s : (String.length (trim s) <= String.length s)%nat.
Proof. apply length_trim_matches. Qed.

Lemma length_split_char c s : (length (split_char c s) <= S (String.length s))%nat.
Proof.
  induction s as [|a s IH]; simpl; [lia|]. case_bool_decide; simpl; [lia|].
  destruct (split_char c s); simpl in *; lia.
Qed.

Lemma split_char_pieces c s p : p ∈ split_char c s -> (String.length p <= String.length s)%nat.
Proof.
  revert p. induction s as [|a s IH]; intros p; simpl.
  - intros ->%list_elem_of_singleton. simpl. lia.
  - case_bool_decide.
    + intros [->|Hp]%elem_of_cons; simpl; [lia|]. specialize (IH p Hp). lia.
    + destruct (split_char c s) as [|q qs].
      * intros ->%list_elem_of_singleton. simpl. lia.
      * intros [->|Hp]%elem_of_cons; simpl; [specialize (IH q ltac:(by left)); lia|].
        specialize (IH p ltac:(by right)). lia.
Qed.

Lemma splitn_char_pieces n c s p : p ∈ splitn_char n c s -> (String.length p <= String.length s)%nat.
Proof.
  revert s p. induction n as [|n IH]; intros s p; [intros Hp; by apply not_elem_of_nil in Hp|].
  destruct n as [|n]; [intros ->%list_elem_of_singleton; done|].
  cbn [splitn_char]. match goal with |- p ∈ ?f _ _ -> _ => set (go := f) end.
  assert (forall rest acc, p ∈ go acc rest ->
    (String.length p <= String.length acc + String.length rest)%nat) as Hgo.
  { induction rest as [|a rest IHr]; intros acc; simpl.
    - intros ->%list_elem_of_singleton. lia.
    - case_bool_decide.
      + intros [->|Hp%IH]%elem_of_cons; lia.
      + intros Hp%IHr. rewrite length_append in Hp. simpl in Hp. lia. }
  intros Hp%Hgo. simpl in Hp. lia.
Qed.

Lemma lines_pieces s p : p ∈ lines s -> (String.length p <= String.length s)%nat.
Proof.
  unfold lines. intros (q&->&Hq)%list_elem_of_fmap.
  assert (q ∈ split_char LF s) as Hin.
  { destruct (rev (split_char LF s)) as [|[|a r] rs] eqn:E; try done.
    rewrite <- (rev_involutive (split_char LF s)), E. simpl. set_solver. }
  apply split_char_pieces in Hin. unfold strip_cr. destruct (ends_with q _); [|exact Hin].
  pose proof (length_substring_le 0 (String.length q - 1) q). lia.
Qed.

(** ** Substrings *)

#[local] Arguments String.append !_ _ / : simpl nomatch.

Lemma str_app_nil_r (s : string) : s +:+ EmptyString = s.
Proof. induction s; simpl; [done|]. by f_equal. Qed.

Lemma str_app_assoc (a b c : string) : (a +:+ b) +:+ c = a +:+ b +:+ c.
Proof. induction a; simpl; [done|]. by f_equal. Qed.

Lemma starts_with_spec s pat : starts_with s pat = true <-> exists t, s = pat +:+ t.
Proof.
  revert s. induction pat as [|a pat IH]; intros s; simpl.
  - split; [eauto|done].
  - destruct s as [|b s]; [split; [done|intros [t Ht]; discriminate]|].
    rewrite andb_true_iff, bool_decide_eq_true, IH. split.
    + intros [-> [t ->]]. by exists t.
    + intros [t Ht]. simplify_eq/=. eauto.
Qed.

Lemma str_contains_spec s pat :
  str_contains s pat = true <-> exists p q, s = p +:+ pat +:+ q.
Proof.
  induction s as [|a s IH]; simpl.
  - rewrite orb_false_r, starts_with_spec. split.
    + intros [t ->]. by exists EmptyString, t.
    + intros (p&q&H). destruct p; simplify_eq/=. by exists q.
  - rewrite orb_true_iff, IH, starts_with_spec. split.
    + intros [[t Ht]|(p&q&->)]; [by exists EmptyString, t|by exists (String a p), q].
    + intros ([|b p]&q&H); simplify_eq/=; [left; eauto|right; eauto].
Qed.

Lemma of_chars_app l k : of_chars (l ++ k)%list = of_chars l +:+ of_chars k.
Proof.
  unfold of_chars. rewrite map_app, concat_app. generalize (concat (map utf8_encode l)) as x. intros x.
  induction x as [|b x IH]; [done|].
  change (bytes_of_list (b :: x)) with (String (of_byte b) (bytes_of_list x)).
  change (String (of_byte b) (bytes_of_list x) +:+ ?r) with (String (of_byte b) (bytes_of_list x +:+ r)).
  by rewrite <- IH.
Qed.

(** ** Lowercase strings *)

Definition no_upper (s : string) : Prop := Forall (fun b => is_ascii_upper b = false) (bytes s).

Lemma bytes_app a b : bytes (a +:+ b) = (bytes a ++ bytes b)%list.
Proof. induction a; simpl; [done|]. by rewrite IHa. Qed.

Lemma byte_of_of_byte z : 0 <= z < 256 -> byte_of (of_byte z) = z.
Proof. intros H. unfold byte_of, of_byte. rewrite N_ascii_embedding; lia. Qed.

Lemma ascii_lower_no_upper a : is_ascii_upper (byte_of (ascii_lower a)) = false.
Proof.
  unfold ascii_lower. destruct (is_ascii_upper (byte_of a)) eqn:E; [|done].
  unfold is_ascii_upper in *. destruct_bools. rewrite byte_of_of_byte by lia. lia.
Qed.

Lemma to_ascii_lowercase_no_upper s : no_upper (to_ascii_lowercase s).
Proof. induction s; constructor; auto using ascii_lower_no_upper. Qed.

Lemma to_ascii_lowercase_id s : no_upper s -> to_ascii_lowercase s = s.
Proof.
  induction s as [|a s IH]; intros H; [done|]. inversion H; subst. simpl.
  rewrite IH by done. unfold ascii_lower. by case_match; [congruence|].
Qed.

(** A lowercased text never contains a pattern with an uppercase letter. *)
Lemma no_upper_contains s pat :
  no_upper s -> str_contains s pat = true -> no_upper pat.
Proof.
  intros Hs (p&q&->)%str_contains_spec. unfold no_upper in *.
  rewrite !bytes_app, !Forall_app in Hs. tauto.
Qed.
#[export] Hint Resolve to_ascii_lowercase_no_upper byte_of_range : cuma.

Example trim_ex : trim "  a b " = "a b".
Proof. vm_compute. reflexivity. Qed.
Example split_ws_ex : split_whitespace " git  reset --hard " = ["git"; "reset"; "--hard"].
Proof. vm_compute. reflexivity. Qed.
Example splitn_ex : splitn_char 3 (of_byte 124) "a|b|c|d" = ["a"; "b"; "c|d"].
Proof. vm_compute. reflexivity. Qed.
Example lines_ex : lines ("a" +:+ NL +:+ "b" +:+ NL) = ["a"; "b"].
Proof. vm_compute. reflexivity. Qed.
Example utf8_ex : chars "≥é" = [0x2265; 0xE9].
Proof. vm_compute. reflexivity. Qed.

(** ** Cutting at a character, and text that is UTF-8 *)

Lemma split_char_plain c s : byte_of c ∉ bytes s -> split_char c s = [s].
Proof.
  induction s as [|a s IH]; simpl; [done|]. intros H. rewrite bool_decide_eq_false_2.
  - rewrite IH; [done|]. set_solver.
  - intros ->. set_solver.
Qed.

Lemma split_char_app c p s :
  byte_of c ∉ bytes p -> split_char c (p +:+ String c s) = p :: split_char c s.
Proof.
  induction p as [|a p IH]; simpl; intros H.
  - by rewrite bool_decide_eq_true_2.
  - rewrite bool_decide_eq_false_2 by (intros ->; set_solver). rewrite IH by set_solver. done.
Qed.

Lemma lossy_bytes_valid fuel bs :
  (length bs <= fuel)%nat -> Forall (fun b => 0 <= b) bs ->
  Forall (fun c => c < INVALID) (utf8_decode fuel bs) -> lossy_bytes fuel bs = bs.
Proof.
  revert bs. induction fuel as [|fuel IH]; intros [|b bs] Hl Hb H; [done|simpl in Hl; lia|done|].
  cbn [lossy_bytes utf8_decode] in *. destruct (utf8_step (b :: bs)) as [[c n]|] eqn:E.
  - apply utf8_step_some in E as (_ & Hn & _). apply list.Forall_cons in H as [_ H].
    rewrite IH; [apply take_drop| | |done]; [rewrite length_drop; simpl in *; lia|by apply Forall_drop].
  - apply list.Forall_cons in H as [H _]. apply list.Forall_cons in Hb as [Hb _]. lia.
Qed.

Lemma from_utf8_lossy_valid s : utf8_valid s = true -> from_utf8_lossy s = s.
Proof.
  unfold utf8_valid, from_utf8_lossy, chars. intros H. rewrite lossy_bytes_valid.
  - apply bytes_of_list_bytes.
  - by rewrite bytes_length.
  - clear. induction s as [|a s IH]; simpl; constructor; [|done]. pose proof (byte_of_range a). lia.
  - apply list.Forall_forall. intros c Hc. rewrite forallb_forall in H.
    apply Z.ltb_lt, H. by apply list_elem_of_In.
Qed.

(** ** Beginnings and ends *)

Lemma substring_all s : String.substring 0 (String.length s) s = s.
Proof. induction s as [|a s IH]; [done|]. cbn. by rewrite IH. Qed.

Lemma strip_prefix_spec s pat t : Text.strip_prefix s pat = Some t <-> s = pat +:+ t.
Proof.
  assert (forall p u, String.substring (String.length p) (String.length (p +:+ u) - String.length p) (p +:+ u) = u) as H.
  { intros p u. rewrite length_append. replace (_ + _ - _)%nat with (String.length u) by lia.
    induction p as [|a p IH]; [apply substring_all|]. exact IH. }
  unfold Text.strip_prefix. split.
  - destruct (starts_with s pat) eqn:E; [|done]. apply starts_with_spec in E as [u ->]. rewrite H. by intros [= ->].
  - intros ->. rewrite (proj2 (starts_with_spec _ _)) by eauto. by rewrite H.
Qed.

Lemma substring_app_last a b :
  String.substring (String.length (a +:+ b) - String.length b) (String.length b) (a +:+ b) = b.
Proof.
  rewrite length_append. replace (String.length a + String.length b - String.length b)%nat with (String.length a) by lia.
  induction a as [|x a IH]; simpl; [apply substring_all|done].
Qed.

Lemma substring_skip n s : (n <= String.length s)%nat ->
  s = String.substring 0 n s +:+ String.substring n (String.length s - n) s.
Proof.
  revert n. induction s as [|a s IH]; intros [|n] H; simpl in *; try done; try lia.
  - by rewrite substring_all.
  - rewrite (IH n) at 1 by lia. done.
Qed.

Lemma ends_with_spec s pat : ends_with s pat = true <-> exists t, s = t +:+ pat.
Proof.
  unfold ends_with. split.
  - intros [Hl%Nat.leb_le He%bool_decide_eq_true]%andb_true_iff.
    exists (String.substring 0 (String.length s - String.length pat) s).
    rewrite <- He at 2. rewrite (substring_skip (String.length s - String.length pat) s) at 1 by lia.
    do 2 f_equal. lia.
  - intros [t ->]. rewrite substring_app_last, bool_decide_eq_true_2, andb_true_r by done.
    apply Nat.leb_le. rewrite length_append. lia.
Qed.

Lemma split_char_cat c a s : split_char c (a +:+ String c s) = (split_char c a ++ split_char c s)%list.
Proof.
  induction a as [|x a IH]; simpl; [by rewrite bool_decide_eq_true_2|].
  case_bool_decide; [by rewrite IH|]. rewrite IH.
  destruct (split_char c a) as [|p ps] eqn:E; [|done]. by destruct a; simpl in E; repeat case_match.
Qed.

Lemma split_char_nonempty c s : split_char c s <> [].
Proof. destruct s as [|a s]; simpl; [done|]. case_bool_decide; [done|]. by destruct (split_char c s). Qed.

(** ** ASCII *)

Lemma utf8_step_ascii b r : 0 <= b < 128 -> utf8_step (b :: r) = Some (b, 1%nat).
Proof.
  intros H. unfold utf8_step, utf8_candidate. assert ((b <? 0x80) = true) as -> by lia.
  unfold utf8_encode, INVALID. assert ((0x110000 <=? b) = false) as -> by lia.
  assert ((b <? 0x80) = true) as -> by lia. cbn [take]. rewrite bool_decide_eq_true_2 by done.
  by assert ((b <? 0x110000) = true) as -> by lia.
Qed.

Lemma bytes_of_ascii l : Forall (fun c => 0 <= c < 128) l -> bytes (of_chars l) = l.
Proof.
  unfold of_chars. induction 1 as [|c l Hc _ IH]; [done|]. cbn [map concat].
  assert (utf8_encode c = [c]) as ->.
  { unfold utf8_encode, INVALID. assert ((0x110000 <=? c) = false) as -> by lia.
    by assert ((c <? 0x80) = true) as -> by lia. }
  cbn [app bytes_of_list bytes]. by rewrite IH, byte_of_of_byte by lia.
Qed.

Lemma chars_of_ascii l : Forall (fun c => 0 <= c < 128) l -> chars (of_chars l) = l.
Proof.
  intros H. unfold chars. rewrite <- bytes_length, bytes_of_ascii by done.
  induction H as [|c l Hc _ IH]; [done|]. cbn [length utf8_decode]. rewrite utf8_step_ascii by done.
  change (drop 1 (c :: l)) with l. by rewrite IH.
Qed.
