(* ===== verification/BTree.v ===== *)
(** * [BTreeMap] and [BTreeSet]

    Ordered collections as association lists in key order, so iteration,
    [keys] and [values] follow the order the program observes.  [OrdKey] is the
    [Ord] bound on keys, with the laws [std] requires of it. *)

From S2P Require Export Prelude Text.
Open Scope Z_scope.

(** ** Ordered keys *)

Class OrdKey (K : Type) `{EqDecision K} := {
  key_cmp : K -> K -> comparison;
  key_cmp_eq : forall a b, key_cmp a b = Eq <-> a = b;
  key_cmp_antisym : forall a b, key_cmp b a = CompOpp (key_cmp a b);
  key_cmp_trans : forall a b c, key_cmp a b = Lt -> key_cmp b c = Lt -> key_cmp a c = Lt;
}.

Lemma key_cmp_refl {K} `{OrdKey K} (a : K) : key_cmp a a = Eq.
Proof. by apply key_cmp_eq. Qed.

(** Keys ordered through an injection into ordered keys. *)
Definition OrdKey_inj {A B} `{EqDecision A, OrdKey B} (f : A -> B)
    (Hinj : forall a b, f a = f b -> a = b) : OrdKey A.
Proof.
  refine {| key_cmp a b := key_cmp (f a) (f b) |}.
  - intros a b. rewrite key_cmp_eq. naive_solver.
  - intros a b. apply key_cmp_antisym.
  - intros a b c. apply key_cmp_trans.
Defined.

#[export] Instance Z_OrdKey : OrdKey Z.
Proof.
  refine {| key_cmp := Z.compare |}.
  - apply Z.compare_eq_iff.
  - intros a b. by rewrite Z.compare_antisym.
  - intros a b c. rewrite !Z.compare_lt_iff. lia.
Defined.

Fixpoint list_cmp {K} `{OrdKey K} (a b : list K) : comparison :=
  match a, b with
  | [], [] => Eq
  | [], _ => Lt
  | _, [] => Gt
  | x :: a', y :: b' => match key_cmp x y with Eq => list_cmp a' b' | c => c end
  end.

#[export] Instance list_OrdKey {K} `{OrdKey K} : OrdKey (list K).
Proof.
  refine {| key_cmp := list_cmp |}.
  - induction a as [|x a IH]; intros [|y b]; simpl; try (split; congruence).
    pose proof (key_cmp_eq x y). specialize (IH b).
    destruct (key_cmp x y); naive_solver.
  - induction a as [|x a IH]; intros [|y b]; simpl; try done.
    rewrite (key_cmp_antisym x y). destruct (key_cmp x y); simpl; auto.
  - induction a as [|x a IH]; intros [|y b] [|z c]; simpl; try done.
    pose proof (key_cmp_eq x y). pose proof (key_cmp_eq y z).
    destruct (key_cmp x y) eqn:E1; [|intros _|done].
    + assert (x = y) as -> by naive_solver. destruct (key_cmp y z); eauto.
    + destruct (key_cmp y z) eqn:E2; [|intros _|done].
      * assert (y = z) as -> by naive_solver. by rewrite E1.
      * by rewrite (key_cmp_trans x y z).
Defined.

#[export] Instance prod_OrdKey {K L} `{OrdKey K, OrdKey L} : OrdKey (K * L).
Proof.
  refine {| key_cmp a b :=
    match key_cmp a.1 b.1 with Eq => key_cmp a.2 b.2 | c => c end |}.
  - intros [x1 x2] [y1 y2]; simpl. pose proof (key_cmp_eq x1 y1).
    pose proof (key_cmp_eq x2 y2). destruct (key_cmp x1 y1); naive_solver.
  - intros [x1 x2] [y1 y2]; simpl. rewrite (key_cmp_antisym x1 y1), (key_cmp_antisym x2 y2).
    destruct (key_cmp x1 y1); done.
  - intros [x1 x2] [y1 y2] [z1 z2]; simpl.
    destruct (key_cmp x1 y1) eqn:E1; [apply key_cmp_eq in E1 as ->|intros _|done].
    + destruct (key_cmp y1 z1); eauto using key_cmp_trans.
    + destruct (key_cmp y1 z1) eqn:E2; [apply key_cmp_eq in E2 as ->; by rewrite E1|intros _|done].
      by rewrite (key_cmp_trans x1 y1 z1).
Defined.

Lemma bytes_inj a b : bytes a = bytes b -> a = b.
Proof. intros H. rewrite <- (bytes_of_list_bytes a), <- (bytes_of_list_bytes b). by f_equal. Qed.

(** [String: Ord] compares bytes. *)
#[export] Instance string_OrdKey : OrdKey string := OrdKey_inj bytes bytes_inj.

(** ** Maps *)

Abbreviation btree K V := (list (K * V)).

Section Map.
Context {K : Type} `{OrdKey K} {V : Type}.
Implicit Types (m : btree K V) (k : K) (v : V).

Fixpoint bt_get k m : option V :=
  match m with
  | [] => None
  | (k', v) :: m' => if bool_decide (k = k') then Some v else bt_get k m'
  end.

Fixpoint bt_insert k v m : btree K V :=
  match m with
  | [] => [(k, v)]
  | (k', v') :: m' =>
      match key_cmp k k' with
      | Lt => (k, v) :: m
      | Eq => (k, v) :: m'
      | Gt => (k', v') :: bt_insert k v m'
      end
  end.

Definition bt_remove k m : btree K V := List.filter (fun p => negb (bool_decide (k = p.1))) m.

(** [BTreeMap::retain]. *)
Definition bt_retain (p : K -> V -> bool) m : btree K V := List.filter (fun kv => p kv.1 kv.2) m.

Definition bt_keys m : list K := map fst m.
Definition bt_values m : list V := map snd m.
Definition bt_contains_key k m : bool := match bt_get k m with Some _ => true | None => false end.

(** Writing through [get_mut]: nothing happens when the key is absent. *)
Definition bt_alter (f : V -> V) k m : btree K V :=
  match bt_get k m with Some v => bt_insert k (f v) m | None => m end.

(** Writing through [entry(k).or_insert(d)]. *)
Definition bt_upsert (d : V) (f : V -> V) k m : btree K V :=
  bt_insert k (f (match bt_get k m with Some v => v | None => d end)) m.

(** Keys in strictly increasing order. *)
Definition bt_wf m : Prop := StronglySorted (fun a b => key_cmp a b = Lt) (bt_keys m).

Lemma bt_get_insert k k' v m :
  bt_get k (bt_insert k' v m) = if bool_decide (k = k') then Some v else bt_get k m.
Proof.
  induction m as [|[k0 v0] m IH]; simpl; [done|].
  destruct (key_cmp k' k0) eqn:E; simpl; [| done |].
  - apply key_cmp_eq in E as ->. by case_bool_decide.
  - rewrite IH. case_bool_decide as H1; [|done]. subst. case_bool_decide; [|done].
    subst. rewrite key_cmp_refl in E. done.
Qed.

Lemma bt_get_insert_eq k v m : bt_get k (bt_insert k v m) = Some v.
Proof. rewrite bt_get_insert. by rewrite bool_decide_true. Qed.

Lemma bt_get_insert_ne k k' v m : k <> k' -> bt_get k (bt_insert k' v m) = bt_get k m.
Proof. intros. rewrite bt_get_insert. by rewrite bool_decide_false. Qed.

Lemma bt_get_retain_some p k m v :
  NoDup (bt_keys m) ->
  bt_get k (bt_retain p m) = Some v <-> bt_get k m = Some v /\ p k v = true.
Proof.
  induction m as [|[k0 v0] m IH]; simpl; [naive_solver|].
  intros [Hni Hnd]%NoDup_cons. specialize (IH Hnd). destruct (p k0 v0) eqn:E; simpl.
  - case_bool_decide; subst; [naive_solver|exact IH].
  - case_bool_decide; subst; [|exact IH].
    assert (forall m', k0 ∉ bt_keys m' -> bt_get k0 m' = None) as Hn.
    { induction m' as [|[a b] m' IHm]; simpl; [done|]. rewrite not_elem_of_cons.
      intros [??]. rewrite bool_decide_false by done. auto. }
    rewrite (Hn m) in IH by done. rewrite IH. split; [by intros [? _]|]. intros [[= ->] ?]. congruence.
Qed.

Lemma bt_get_alter f k k' m :
  bt_get k (bt_alter f k' m) = if bool_decide (k = k') then f <$> bt_get k m else bt_get k m.
Proof.
  unfold bt_alter. destruct (bt_get k' m) eqn:E.
  - rewrite bt_get_insert. case_bool_decide; subst; [by rewrite E|done].
  - case_bool_decide; subst; [by rewrite E|done].
Qed.

Lemma bt_get_upsert d f k k' m :
  bt_get k (bt_upsert d f k' m) =
  if bool_decide (k = k') then Some (f (default d (bt_get k m))) else bt_get k m.
Proof.
  unfold bt_upsert. rewrite bt_get_insert. case_bool_decide; subst; [|done].
  by destruct (bt_get k' m).
Qed.

Lemma bt_get_Some_keys k m : is_Some (bt_get k m) <-> k ∈ bt_keys m.
Proof.
  induction m as [|[k0 v0] m IH]; simpl.
  - split; [intros [? [=]]|by intros ?%not_elem_of_nil].
  - rewrite elem_of_cons, <- IH. case_bool_decide; naive_solver.
Qed.

Lemma bt_get_None_keys k m : bt_get k m = None <-> k ∉ bt_keys m.
Proof. rewrite <- bt_get_Some_keys, <- eq_None_not_Some. done. Qed.

Lemma bt_contains_key_spec k m : bt_contains_key k m = true <-> k ∈ bt_keys m.
Proof. rewrite <- bt_get_Some_keys. unfold bt_contains_key. destruct (bt_get k m); naive_solver. Qed.

Lemma bt_get_elem_of k v m : bt_get k m = Some v -> (k, v) ∈ m.
Proof.
  induction m as [|[k0 v0] m IH]; simpl; [done|].
  case_bool_decide; intros; simplify_eq; rewrite elem_of_cons; auto.
Qed.

Lemma bt_elem_of_get k v m : NoDup (bt_keys m) -> (k, v) ∈ m -> bt_get k m = Some v.
Proof.
  induction m as [|[k0 v0] m IH]; simpl; [by intros _ ?%not_elem_of_nil|].
  intros [Hni Hnd]%NoDup_cons [?|Hin]%elem_of_cons; simplify_eq.
  - by rewrite bool_decide_true.
  - rewrite bool_decide_false; [auto|]. intros ->. apply Hni.
    apply bt_get_Some_keys. eauto.
Qed.

Lemma bt_insert_keys k k' v m : k ∈ bt_keys (bt_insert k' v m) <-> k = k' \/ k ∈ bt_keys m.
Proof. rewrite <- !bt_get_Some_keys, bt_get_insert. case_bool_decide; naive_solver. Qed.

Lemma bt_wf_nil : bt_wf [].
Proof. constructor. Qed.

Lemma bt_wf_NoDup m : bt_wf m -> NoDup (bt_keys m).
Proof.
  unfold bt_wf. induction 1 as [|k l Hs IH Hk]; constructor; [|done].
  intros Hin. rewrite Forall_forall in Hk. specialize (Hk _ Hin).
  rewrite key_cmp_refl in Hk. done.
Qed.

Lemma bt_wf_insert k v m : bt_wf m -> bt_wf (bt_insert k v m).
Proof.
  unfold bt_wf. induction m as [|[k0 v0] m IH]; simpl; [repeat constructor|].
  intros Hw. inversion Hw as [|? ? Hs Hk]; subst.
  destruct (key_cmp k k0) eqn:E; simpl.
  - apply key_cmp_eq in E as ->. by constructor.
  - constructor; [done|]. constructor; [done|].
    rewrite Forall_forall in Hk |- *. intros x Hx. eapply key_cmp_trans; eauto.
  - constructor; [auto|]. rewrite Forall_forall in Hk |- *. intros x Hx.
    apply bt_insert_keys in Hx as [->|]; [|auto].
    rewrite key_cmp_antisym, E. done.
Qed.

Lemma bt_wf_retain p m : bt_wf m -> bt_wf (bt_retain p m).
Proof.
  unfold bt_wf, bt_retain. induction m as [|[k0 v0] m IH]; simpl; [done|].
  intros Hw. inversion Hw as [|? ? Hs Hk]; subst.
  destruct (p k0 v0); simpl; [|auto]. constructor; [auto|].
  rewrite Forall_forall in Hk |- *. intros x Hx. apply Hk.
  unfold bt_keys in *. rewrite list_elem_of_In, in_map_iff in Hx |- *.
  destruct Hx as ([a b]&<-&[Hin _]%filter_In). exists (a, b). auto.
Qed.

Lemma bt_remove_retain k m : bt_remove k m = bt_retain (fun k' _ => negb (bool_decide (k = k'))) m.
Proof. done. Qed.

Lemma bt_wf_alter f k m : bt_wf m -> bt_wf (bt_alter f k m).
Proof. unfold bt_alter. destruct (bt_get k m); auto using bt_wf_insert. Qed.

Lemma bt_wf_upsert d f k m : bt_wf m -> bt_wf (bt_upsert d f k m).
Proof. apply bt_wf_insert. Qed.

Lemma bt_alter_keys f k m : bt_wf m -> bt_keys (bt_alter f k m) = bt_keys m.
Proof.
  unfold bt_alter, bt_wf. destruct (bt_get k m) eqn:E; [|done]. intros Hw.
  generalize (f v); clear f; intros w. revert E Hw.
  induction m as [|[k0 v0] m IH]; simpl; [done|].
  case_bool_decide; subst.
  - intros _ _. by rewrite key_cmp_refl.
  - intros Hg Hw. inversion Hw as [|? ? Hs Hk]; subst.
    assert (k ∈ bt_keys m) as Hin by (apply bt_get_Some_keys; eauto).
    rewrite Forall_forall in Hk. rewrite (key_cmp_antisym k0 k), (Hk k Hin). simpl.
    f_equal. auto.
Qed.

(** Two well-formed maps with the same lookups are equal. *)
Lemma bt_ext m1 m2 : bt_wf m1 -> bt_wf m2 -> (forall k, bt_get k m1 = bt_get k m2) -> m1 = m2.
Proof.
  unfold bt_wf. revert m2. induction m1 as [|[k1 v1] m1 IH]; intros [|[k2 v2] m2] W1 W2 He.
  - done.
  - specialize (He k2). simpl in He. by rewrite bool_decide_true in He.
  - specialize (He k1). simpl in He. by rewrite bool_decide_true in He.
  - inversion W1 as [|? ? S1 F1]; inversion W2 as [|? ? S2 F2]; subst.
    rewrite Forall_forall in F1, F2.
    assert (k1 = k2) as <-.
    { destruct (decide (k1 = k2)) as [|Hne]; [done|].
      assert (k1 ∈ bt_keys m2) as H1.
      { apply bt_get_Some_keys. pose proof (He k1) as Hk. simpl in Hk.
        rewrite bool_decide_true, bool_decide_false in Hk by done. eauto. }
      assert (k2 ∈ bt_keys m1) as H2.
      { apply bt_get_Some_keys. pose proof (He k2) as Hk. simpl in Hk.
        rewrite bool_decide_false, bool_decide_true in Hk by congruence. eauto. }
      apply F1 in H2. apply F2 in H1. rewrite key_cmp_antisym, H1 in H2. done. }
    pose proof (He k1) as Hk. simpl in Hk. rewrite !bool_decide_true in Hk by done.
    simplify_eq. f_equal. apply IH; [done..|]. intros k.
    destruct (decide (k = k1)) as [->|Hne].
    + assert (bt_get k1 m1 = None) as ->.
      { apply bt_get_None_keys. intros Hin%F1. by rewrite key_cmp_refl in Hin. }
      symmetry. apply bt_get_None_keys. intros Hin%F2. by rewrite key_cmp_refl in Hin.
    + specialize (He k). simpl in He. by rewrite !bool_decide_false in He.
Qed.
End Map.

#[export] Hint Resolve bt_wf_nil bt_wf_insert bt_wf_retain bt_wf_alter bt_wf_upsert bt_wf_NoDup : cuma.

(** ** Sets *)

Abbreviation btset K := (list K).

Section Set_.
Context {K : Type} `{OrdKey K}.
Implicit Types (s : btset K) (x : K).

Fixpoint bs_insert x s : btset K :=
  match s with
  | [] => [x]
  | y :: s' =>
      match key_cmp x y with Lt => x :: s | Eq => s | Gt => y :: bs_insert x s' end
  end.

Definition bs_contains x s : bool := contains s x.

(** [extend], and [collect] from the empty set. *)
Definition bs_extend s (l : list K) : btset K := fold_left (fun s x => bs_insert x s) l s.

Definition bs_wf s : Prop := StronglySorted (fun a b => key_cmp a b = Lt) s.

Lemma bs_elem_of_insert x y s : x ∈ bs_insert y s <-> x = y \/ x ∈ s.
Proof.
  induction s as [|z s IH]; simpl; [set_solver|].
  destruct (key_cmp y z) eqn:E; [apply key_cmp_eq in E as ->|..]; set_solver.
Qed.

Lemma bs_elem_of_extend x s l : x ∈ bs_extend s l <-> x ∈ s \/ x ∈ l.
Proof.
  unfold bs_extend. revert s. induction l as [|y l IH]; intros s; simpl; [set_solver|].
  rewrite IH, bs_elem_of_insert. set_solver.
Qed.

Lemma bs_insert_same x s : bs_insert x (bs_insert x s) = bs_insert x s.
Proof.
  induction s as [|y s IH]; simpl; [by rewrite key_cmp_refl|].
  destruct (key_cmp x y) eqn:E; simpl; rewrite ?key_cmp_refl, ?E, ?IH; done.
Qed.

Lemma bs_wf_insert x s : bs_wf s -> bs_wf (bs_insert x s).
Proof.
  unfold bs_wf. induction s as [|y s IH]; simpl; [repeat constructor|].
  intros Hw. inversion Hw as [|? ? Hs Hk]; subst.
  destruct (key_cmp x y) eqn:E; [done|..].
  - constructor; [done|]. constructor; [done|].
    rewrite Forall_forall in Hk |- *. intros z Hz. eapply key_cmp_trans; eauto.
  - constructor; [auto|]. rewrite Forall_forall in Hk |- *.
    intros z [->|]%bs_elem_of_insert; [|auto]. by rewrite key_cmp_antisym, E.
Qed.

Lemma bs_wf_extend s l : bs_wf s -> bs_wf (bs_extend s l).
Proof. unfold bs_extend. revert s. induction l; simpl; auto using bs_wf_insert. Qed.

Lemma bs_wf_NoDup s : bs_wf s -> NoDup s.
Proof.
  unfold bs_wf. induction 1 as [|k l Hs IH Hk]; constructor; [|done].
  intros Hin. rewrite Forall_forall in Hk. specialize (Hk _ Hin).
  by rewrite key_cmp_refl in Hk.
Qed.
End Set_.

#[export] Hint Resolve bs_wf_insert bs_wf_extend bs_wf_NoDup : cuma.
