(* ===== verification/Capability.v ===== *)
(** * Capabilities ([cuma-core/src/capability.rs], [ids.rs])

    The vocabulary tasks and agents share, and the matching of what a task
    requires against what an agent advertises. *)

From S2P Require Export BTree Float64.
Open Scope string_scope.
Open Scope Z_scope.

(** Identifiers are newtypes over [String]; they are compared, ordered and
    printed as the string they wrap. *)
Abbreviation AgentId := string.
Abbreviation ModelId := string.
Abbreviation TaskId := string.
Abbreviation AttemptId := string.
Abbreviation SessionId := string.

Inductive Capability : Type :=
  | CodeComprehension | CodeGeneration | CodeEditing | Debugging | Refactoring
  | Testing | ShellExecution | FileSystem | VersionControl | Research
  | Documentation | Architecture | CodeReview | Planning | ToolUse | Vision
  | StructuredOutput
  | Custom (name : string).

#[export] Instance Capability_eq_dec : EqDecision Capability.
Proof. solve_decision. Defined.

(** The serde [snake_case] name of each variant, which [Display] reuses. *)
Definition capability_display (c : Capability) : string :=
  match c with
  | CodeComprehension => "code_comprehension"
  | CodeGeneration => "code_generation"
  | CodeEditing => "code_editing"
  | Debugging => "debugging"
  | Refactoring => "refactoring"
  | Testing => "testing"
  | ShellExecution => "shell_execution"
  | FileSystem => "file_system"
  | VersionControl => "version_control"
  | Research => "research"
  | Documentation => "documentation"
  | Architecture => "architecture"
  | CodeReview => "code_review"
  | Planning => "planning"
  | ToolUse => "tool_use"
  | Vision => "vision"
  | StructuredOutput => "structured_output"
  | Custom name => name
  end.

Definition known_capabilities : list Capability :=
  [CodeComprehension; CodeGeneration; CodeEditing; Debugging; Refactoring; Testing;
   ShellExecution; FileSystem; VersionControl; Research; Documentation; Architecture;
   CodeReview; Planning; ToolUse; Vision; StructuredOutput].

(** [Capability::parse]. *)
Definition capability_parse (raw : string) : Capability :=
  let s := replace_char (of_byte 45) (of_byte 95) (to_ascii_lowercase (trim raw)) in
  if bool_decide (s = "code_comprehension") then CodeComprehension
  else if bool_decide (s = "code_generation") then CodeGeneration
  else if bool_decide (s = "code_editing") then CodeEditing
  else if bool_decide (s = "debugging") then Debugging
  else if bool_decide (s = "refactoring") then Refactoring
  else if bool_decide (s = "testing") then Testing
  else if bool_decide (s = "shell_execution") then ShellExecution
  else if bool_decide (s = "file_system") then FileSystem
  else if bool_decide (s = "version_control") then VersionControl
  else if bool_decide (s = "research") then Research
  else if bool_decide (s = "documentation") then Documentation
  else if bool_decide (s = "architecture") then Architecture
  else if bool_decide (s = "code_review") then CodeReview
  else if bool_decide (s = "planning") then Planning
  else if bool_decide (s = "tool_use") then ToolUse
  else if bool_decide (s = "vision") then Vision
  else if bool_decide (s = "structured_output") then StructuredOutput
  else Custom s.

(** [derive(Ord)]: declaration order, then the custom name. *)
Definition capability_rank (c : Capability) : Z * string :=
  match c with
  | CodeComprehension => (0, "") | CodeGeneration => (1, "") | CodeEditing => (2, "")
  | Debugging => (3, "") | Refactoring => (4, "") | Testing => (5, "")
  | ShellExecution => (6, "") | FileSystem => (7, "") | VersionControl => (8, "")
  | Research => (9, "") | Documentation => (10, "") | Architecture => (11, "")
  | CodeReview => (12, "") | Planning => (13, "") | ToolUse => (14, "")
  | Vision => (15, "") | StructuredOutput => (16, "")
  | Custom name => (17, name)
  end.

Lemma capability_rank_inj a b : capability_rank a = capability_rank b -> a = b.
Proof. destruct a, b; simpl; congruence. Qed.

#[export] Instance Capability_OrdKey : OrdKey Capability :=
  OrdKey_inj capability_rank capability_rank_inj.

(** ** Capability sets *)

Abbreviation CapabilitySet := (btset Capability).

Record CapabilityMatch := {
  cm_score : f64;
  cm_missing : list Capability;
}.

(** [CapabilityMatch::is_complete]. *)
Definition is_complete (m : CapabilityMatch) : bool :=
  match cm_missing m with [] => true | _ => false end.

(** [CapabilitySet::match_against]. *)
Definition match_against (self required : CapabilitySet) : CapabilityMatch :=
  match required with
  | [] => {| cm_score := f64_one; cm_missing := [] |}
  | _ =>
      let missing := List.filter (fun c => negb (bs_contains c self)) required in
      let matched := Z.of_nat (length required) - Z.of_nat (length missing) in
      {| cm_score := f64_div (f64_of_Z matched) (f64_of_Z (Z.of_nat (length required)));
         cm_missing := missing |}
  end.

(** [FromIterator], [with] and [insert]. *)
Definition caps_of (l : list Capability) : CapabilitySet := bs_extend [] l.
Definition caps_insert (c : Capability) (s : CapabilitySet) : CapabilitySet := bs_insert c s.

(** ** Lemmas *)

Lemma match_missing self required c :
  c ∈ cm_missing (match_against self required) <-> c ∈ required /\ c ∉ self.
Proof.
  assert (forall l, c ∈ List.filter (fun c => negb (bs_contains c self)) l <-> c ∈ l /\ c ∉ self) as Hf.
  { intros l. rewrite list_elem_of_In, filter_In, <- list_elem_of_In, negb_true_iff.
    unfold bs_contains. by rewrite contains_false. }
  destruct required as [|r required]; [simpl; set_solver|]. apply Hf.
Qed.

(** A match is complete exactly when every requirement is advertised. *)
Lemma match_complete self required :
  is_complete (match_against self required) = true <-> required ⊆ self.
Proof.
  unfold is_complete. split.
  - intros H c Hc. destruct (decide (c ∈ self)); [done|].
    assert (c ∈ cm_missing (match_against self required)) as Hm by by apply match_missing.
    destruct (cm_missing _); [set_solver|done].
  - intros H. destruct (cm_missing (match_against self required)) as [|c l] eqn:E; [done|].
    assert (c ∈ cm_missing (match_against self required)) as Hm by (rewrite E; set_solver).
    apply match_missing in Hm as [? ?]. set_solver.
Qed.

Lemma elem_of_caps_of c l : c ∈ caps_of l <-> c ∈ l.
Proof. unfold caps_of. rewrite bs_elem_of_extend. set_solver. Qed.

Lemma elem_of_caps_insert c d s : c ∈ caps_insert d s <-> c = d \/ c ∈ s.
Proof. apply bs_elem_of_insert. Qed.

(** Every known capability is read back from what is printed for it. *)
Lemma capability_roundtrip :
  Forall (fun c => capability_parse (capability_display c) = c) known_capabilities.
Proof. repeat constructor; vm_compute; reflexivity. Qed.

Example capability_parse_ex : capability_parse "  Code-Review " = CodeReview.
Proof. vm_compute. reflexivity. Qed.
Example capability_parse_custom : capability_parse "My-Skill" = Custom "my_skill".
Proof. vm_compute. reflexivity. Qed.
