(* ===== verification/Errors.v ===== *)
(** * Errors ([cuma-core/src/error.rs], [cuma-resilience/src/classify.rs])

    The error taxonomy, its classification, and the fallback classifier of free
    text. *)

From S2P Require Export Capability.
From stdpp Require Import pretty.
Open Scope string_scope.
Open Scope Z_scope.

Inductive ErrorClass : Type :=
  | RateLimit | QuotaExceeded | AuthenticationFailure | AgentCrash | Timeout
  | ProtocolError | ContextOverflow | ToolFailure | ModelUnavailable
  | ConnectionFailure | InvalidResponse | TaskFailure | SecurityViolation
  | Configuration | Cancelled | Unknown.

#[export] Instance ErrorClass_eq_dec : EqDecision ErrorClass.
Proof. solve_decision. Defined.

(** [{:?}]. *)
Definition class_debug (c : ErrorClass) : string :=
  match c with
  | RateLimit => "RateLimit" | QuotaExceeded => "QuotaExceeded"
  | AuthenticationFailure => "AuthenticationFailure" | AgentCrash => "AgentCrash"
  | Timeout => "Timeout" | ProtocolError => "ProtocolError"
  | ContextOverflow => "ContextOverflow" | ToolFailure => "ToolFailure"
  | ModelUnavailable => "ModelUnavailable" | ConnectionFailure => "ConnectionFailure"
  | InvalidResponse => "InvalidResponse" | TaskFailure => "TaskFailure"
  | SecurityViolation => "SecurityViolation" | Configuration => "Configuration"
  | Cancelled => "Cancelled" | Unknown => "Unknown"
  end.

Definition is_retryable_on_same_target (c : ErrorClass) : bool :=
  match c with RateLimit | Timeout | ConnectionFailure | Unknown => true | _ => false end.

Definition is_reroutable (c : ErrorClass) : bool :=
  match c with
  | RateLimit | QuotaExceeded | AgentCrash | Timeout | ProtocolError | ModelUnavailable
  | ConnectionFailure | InvalidResponse | ToolFailure | Unknown => true
  | _ => false
  end.

Definition counts_against_health (c : ErrorClass) : bool :=
  match c with
  | Cancelled | Configuration | SecurityViolation | ContextOverflow => false
  | _ => true
  end.

Definition requires_replan (c : ErrorClass) : bool :=
  match c with ContextOverflow | TaskFailure => true | _ => false end.

(** [MetaAgentError].  The [source] of a protocol error is not observed. *)
Inductive MetaAgentError : Type :=
  | EProtocol (protocol message : string)
  | EAgent (agent : AgentId) (message : string) (cls : ErrorClass)
  | EModel (model : ModelId) (message : string)
  | ERouting (task : TaskId) (reason : string)
  | EAuthentication (target message : string)
  | ETimeout (operation : string) (elapsed_ms : Z)
  | ERateLimit (agent : AgentId) (retry_after_ms : option Z)
  | ESkill (m : string)
  | EMemory (m : string)
  | ETool (tool message : string)
  | ESecurity (m : string)
  | EConfiguration (m : string)
  | EPersistence (m : string)
  | ECancelled (m : string)
  | EOther (m : string).

Abbreviation Result T := (result T MetaAgentError).

(** [MetaAgentError::class]. *)
Definition error_class (e : MetaAgentError) : ErrorClass :=
  match e with
  | EProtocol _ _ => ProtocolError
  | EAgent _ _ cls => cls
  | EModel _ _ => ModelUnavailable
  | ERouting _ _ => Configuration
  | EAuthentication _ _ => AuthenticationFailure
  | ETimeout _ _ => Timeout
  | ERateLimit _ _ => RateLimit
  | ESkill _ => ToolFailure
  | EMemory _ => Unknown
  | ETool _ _ => ToolFailure
  | ESecurity _ => SecurityViolation
  | EConfiguration _ => Configuration
  | EPersistence _ => Unknown
  | ECancelled _ => Cancelled
  | EOther _ => Unknown
  end.

(** [Display], from the [#[error(...)]] attributes. *)
Definition error_display (e : MetaAgentError) : string :=
  match e with
  | EProtocol p m => "protocol error on " +:+ p +:+ " adapter: " +:+ m
  | EAgent a m _ => "agent " +:+ a +:+ " failed: " +:+ m
  | EModel md m => "model " +:+ md +:+ " unavailable: " +:+ m
  | ERouting t r => "no agent could be routed for task " +:+ t +:+ ": " +:+ r
  | EAuthentication t m => "authentication failed for " +:+ t +:+ ": " +:+ m
  | ETimeout op ms => op +:+ " timed out after " +:+ pretty ms +:+ "ms"
  | ERateLimit a r =>
      "rate limited by " +:+ a +:+
      match r with Some ms => ", retry after " +:+ pretty ms +:+ "ms" | None => "" end
  | ESkill m => "skill error: " +:+ m
  | EMemory m => "memory error: " +:+ m
  | ETool t m => "tool " +:+ t +:+ " failed: " +:+ m
  | ESecurity m => "security policy violation: " +:+ m
  | EConfiguration m => "configuration error: " +:+ m
  | EPersistence m => "persistence error: " +:+ m
  | ECancelled m => "operation cancelled: " +:+ m
  | EOther m => m
  end.

(** ** Classification of free text *)

Definition contains_any (haystack : string) (needles : list string) : bool :=
  existsb (fun n => str_contains haystack n) needles.

(** [classify_message]. *)
Definition classify_message (message : string) : ErrorClass :=
  let m := to_ascii_lowercase message in
  if str_contains m "quota" || str_contains m "insufficient_quota" || str_contains m "billing"
  then QuotaExceeded
  else if str_contains m "rate limit" || str_contains m "rate_limit"
       || str_contains m "429" || str_contains m "too many requests"
  then RateLimit
  else if str_contains m "unauthorized" || str_contains m "401" || str_contains m "403"
       || str_contains m "forbidden" || str_contains m "invalid api key"
       || str_contains m "authentication"
  then AuthenticationFailure
  else if str_contains m "context length" || str_contains m "context window"
       || str_contains m "too many tokens" || str_contains m "maximum context"
  then ContextOverflow
  else if str_contains m "timeout" || str_contains m "timed out" || str_contains m "deadline exceeded"
  then Timeout
  else if str_contains m "connection refused" || str_contains m "connection reset"
       || str_contains m "broken pipe" || str_contains m "dns" || str_contains m "unreachable"
  then ConnectionFailure
  else if str_contains m "exited with" || str_contains m "killed" || str_contains m "signal"
       || str_contains m "panicked" || str_contains m "crash"
  then AgentCrash
  else if str_contains m "model not found" || str_contains m "unknown model"
       || str_contains m "model unavailable" || str_contains m "overloaded"
  then ModelUnavailable
  else if str_contains m "jsonrpc" || str_contains m "json-rpc" || str_contains m "protocol"
  then ProtocolError
  else if str_contains m "cancel" then Cancelled
  else Unknown.

(** The class the orchestrator acts on: an adapter's own classification, or the
    message's when the adapter had none ([executor.rs], the [Err(err)] arm). *)
Definition effective_class (e : MetaAgentError) : ErrorClass :=
  match error_class e with
  | Unknown => classify_message (error_display e)
  | known => known
  end.

(** Quota wording wins over rate-limit wording, and both over the rest. *)
Lemma classify_quota m :
  str_contains (to_ascii_lowercase m) "quota" = true -> classify_message m = QuotaExceeded.
Proof. intros H. unfold classify_message. by rewrite H. Qed.

(** Classification ignores ASCII case. *)
Lemma classify_case m : classify_message (to_ascii_lowercase m) = classify_message m.
Proof.
  unfold classify_message.
  by rewrite (to_ascii_lowercase_id _ (to_ascii_lowercase_no_upper m)).
Qed.

(** The classes the text classifier can produce: it never invents a security
    violation, a configuration error or a task failure. *)
Lemma classify_range m :
  classify_message m ∈ [QuotaExceeded; RateLimit; AuthenticationFailure; ContextOverflow;
    Timeout; ConnectionFailure; AgentCrash; ModelUnavailable; ProtocolError; Cancelled; Unknown].
Proof.
  unfold classify_message. cbv zeta.
  repeat match goal with |- context [if ?b then _ else _] => destruct b end; set_solver.
Qed.
