(* ===== verification/Task.v ===== *)
(** * Tasks and the plan DAG ([cuma-core/src/task.rs])

    Task metadata, token accounting, execution outcomes, and the task graph:
    insertion, validation (Kahn's algorithm), the ready frontier, and the
    cascade of skips after a failure.  Fresh identifiers
    ([TaskId::generate], a random UUID) are arguments. *)

From S2P Require Export Errors.
Open Scope string_scope.
Open Scope Z_scope.

Inductive TaskType : Type :=
  | Inspection | TResearch | Design | Implementation | BugFix | Refactor
  | TTesting | Validation | TDocumentation | Review | General.

#[export] Instance TaskType_eq_dec : EqDecision TaskType.
Proof. solve_decision. Defined.

Definition task_type_debug (t : TaskType) : string :=
  match t with
  | Inspection => "Inspection" | TResearch => "Research" | Design => "Design"
  | Implementation => "Implementation" | BugFix => "BugFix" | Refactor => "Refactor"
  | TTesting => "Testing" | Validation => "Validation" | TDocumentation => "Documentation"
  | Review => "Review" | General => "General"
  end.

Definition task_type_rank (t : TaskType) : Z :=
  match t with
  | Inspection => 0 | TResearch => 1 | Design => 2 | Implementation => 3 | BugFix => 4
  | Refactor => 5 | TTesting => 6 | Validation => 7 | TDocumentation => 8
  | Review => 9 | General => 10
  end.

Lemma task_type_rank_inj a b : task_type_rank a = task_type_rank b -> a = b.
Proof. destruct a, b; simpl; congruence. Qed.

#[export] Instance TaskType_OrdKey : OrdKey TaskType :=
  OrdKey_inj task_type_rank task_type_rank_inj.

(** [TaskType::baseline_capabilities]. *)
Definition baseline_capabilities (t : TaskType) : CapabilitySet :=
  caps_of match t with
  | Inspection => [CodeComprehension; FileSystem]
  | TResearch => [Research]
  | Design => [Architecture; Planning]
  | Implementation => [CodeGeneration; CodeEditing; FileSystem]
  | BugFix => [Debugging; CodeEditing; CodeComprehension]
  | Refactor => [Refactoring; CodeEditing; CodeComprehension]
  | TTesting => [Testing; CodeGeneration]
  | Validation => [ShellExecution]
  | TDocumentation => [Documentation]
  | Review => [CodeReview; CodeComprehension]
  | General => []
  end.

(** [TaskType::baseline_complexity]. *)
Definition baseline_complexity (t : TaskType) : f64 :=
  match t with
  | Validation => f64_lit 1 10
  | Inspection | TDocumentation => f64_lit 3 10
  | TTesting | TResearch => f64_lit 4 10
  | Review | Refactor => f64_lit 5 10
  | Implementation | General => f64_lit 6 10
  | BugFix => f64_lit 7 10
  | Design => f64_lit 8 10
  end.

Inductive Risk : Type := ReadOnly | Low | Medium | High.

#[export] Instance Risk_eq_dec : EqDecision Risk.
Proof. solve_decision. Defined.

Inductive TaskStatus : Type :=
  | Pending | Ready | Running | Completed | Failed | Skipped | TCancelled.

#[export] Instance TaskStatus_eq_dec : EqDecision TaskStatus.
Proof. solve_decision. Defined.

(** [TaskStatus::is_terminal]. *)
Definition is_terminal (s : TaskStatus) : bool :=
  match s with Completed | Failed | Skipped | TCancelled => true | _ => false end.

(** ** Token usage *)

Record TokenUsage := {
  tu_input : Z;
  tu_output : Z;
  tu_cached : Z;
  tu_reported : bool;
}.

Definition tokens_reported (input output : Z) : TokenUsage :=
  {| tu_input := input; tu_output := output; tu_cached := 0; tu_reported := true |}.

Definition tokens_estimated (input output : Z) : TokenUsage :=
  {| tu_input := input; tu_output := output; tu_cached := 0; tu_reported := false |}.

(** [TokenUsage::estimate_from_text]: [len().div_ceil(4)] on bytes. *)
Definition estimate_from_text (input output : string) : TokenUsage :=
  let tokens (t : string) := (Z.of_nat (String.length t) + 3) / 4 in
  tokens_estimated (tokens input) (tokens output).

Definition tokens_total (t : TokenUsage) : Z := sat64 (tu_input t + tu_output t).

Definition tokens_merge (a b : TokenUsage) : TokenUsage :=
  {| tu_input := sat64 (tu_input a + tu_input b);
     tu_output := sat64 (tu_output a + tu_output b);
     tu_cached := sat64 (tu_cached a + tu_cached b);
     tu_reported := tu_reported a && tu_reported b |}.

(** ** Specs, outcomes, tasks *)

Record TaskSpec := {
  sp_description : string;
  sp_task_type : TaskType;
  sp_required : CapabilitySet;
  sp_dependencies : list TaskId;
  sp_priority : Z;
  sp_risk : Risk;
  sp_complexity : f64;
  sp_estimated_tokens : option Z;
}.

(** [TaskSpec::new]. *)
Definition spec_new (description : string) (t : TaskType) : TaskSpec :=
  {| sp_description := description; sp_task_type := t;
     sp_required := baseline_capabilities t; sp_dependencies := [];
     sp_priority := 5; sp_risk := ReadOnly;
     sp_complexity := baseline_complexity t; sp_estimated_tokens := None |}.

Definition spec_with_dependencies (deps : list TaskId) (s : TaskSpec) : TaskSpec :=
  {| sp_description := sp_description s; sp_task_type := sp_task_type s;
     sp_required := sp_required s; sp_dependencies := deps;
     sp_priority := sp_priority s; sp_risk := sp_risk s;
     sp_complexity := sp_complexity s; sp_estimated_tokens := sp_estimated_tokens s |}.

(** [TaskSpec::depends_on]. *)
Definition depends_on (task : TaskId) (s : TaskSpec) : TaskSpec :=
  spec_with_dependencies (sp_dependencies s ++ [task])%list s.

(** [TaskSpec::with_risk]. *)
Definition with_risk (risk : Risk) (s : TaskSpec) : TaskSpec :=
  {| sp_description := sp_description s; sp_task_type := sp_task_type s;
     sp_required := sp_required s; sp_dependencies := sp_dependencies s;
     sp_priority := sp_priority s; sp_risk := risk;
     sp_complexity := sp_complexity s; sp_estimated_tokens := sp_estimated_tokens s |}.

(** [TaskSpec::with_complexity]. *)
Definition with_complexity (complexity : f64) (s : TaskSpec) : TaskSpec :=
  {| sp_description := sp_description s; sp_task_type := sp_task_type s;
     sp_required := sp_required s; sp_dependencies := sp_dependencies s;
     sp_priority := sp_priority s; sp_risk := sp_risk s;
     sp_complexity := f64_clamp01 complexity; sp_estimated_tokens := sp_estimated_tokens s |}.

(** [TaskSpec::requiring]. *)
Definition requiring (c : Capability) (s : TaskSpec) : TaskSpec :=
  {| sp_description := sp_description s; sp_task_type := sp_task_type s;
     sp_required := caps_insert c (sp_required s); sp_dependencies := sp_dependencies s;
     sp_priority := sp_priority s; sp_risk := sp_risk s;
     sp_complexity := sp_complexity s; sp_estimated_tokens := sp_estimated_tokens s |}.

Record ExecutionOutcome := {
  oc_attempt_id : AttemptId;
  oc_agent_id : AgentId;
  oc_model_id : option ModelId;
  oc_success : bool;
  oc_output : string;
  oc_changed_files : list string;
  oc_tokens : TokenUsage;
  oc_latency_ms : Z;
  oc_failure_class : option ErrorClass;
  oc_failure_reason : option string;
  oc_reported_cost_usd : option f64;
}.

Record Task := {
  t_id : TaskId;
  t_parent_id : option TaskId;
  t_spec : TaskSpec;
  t_status : TaskStatus;
  t_assigned_agent : option AgentId;
  t_assigned_model : option ModelId;
  t_attempts : list ExecutionOutcome;
  t_artifacts : list string;
}.

(** [Task::new] and [Task::with_id]; the identifier is supplied. *)
Definition task_with_id (id : TaskId) (spec : TaskSpec) : Task :=
  {| t_id := id; t_parent_id := None; t_spec := spec; t_status := Pending;
     t_assigned_agent := None; t_assigned_model := None;
     t_attempts := []; t_artifacts := [] |}.

Definition with_status (s : TaskStatus) (t : Task) : Task :=
  {| t_id := t_id t; t_parent_id := t_parent_id t; t_spec := t_spec t; t_status := s;
     t_assigned_agent := t_assigned_agent t; t_assigned_model := t_assigned_model t;
     t_attempts := t_attempts t; t_artifacts := t_artifacts t |}.

Definition with_parent (p : TaskId) (t : Task) : Task :=
  {| t_id := t_id t; t_parent_id := Some p; t_spec := t_spec t; t_status := t_status t;
     t_assigned_agent := t_assigned_agent t; t_assigned_model := t_assigned_model t;
     t_attempts := t_attempts t; t_artifacts := t_artifacts t |}.

Definition with_assignment (a : AgentId) (m : option ModelId) (t : Task) : Task :=
  {| t_id := t_id t; t_parent_id := t_parent_id t; t_spec := t_spec t; t_status := t_status t;
     t_assigned_agent := Some a; t_assigned_model := m;
     t_attempts := t_attempts t; t_artifacts := t_artifacts t |}.

Definition push_attempt (o : ExecutionOutcome) (t : Task) : Task :=
  {| t_id := t_id t; t_parent_id := t_parent_id t; t_spec := t_spec t; t_status := t_status t;
     t_assigned_agent := t_assigned_agent t; t_assigned_model := t_assigned_model t;
     t_attempts := (t_attempts t ++ [o])%list; t_artifacts := t_artifacts t |}.

Definition with_artifacts (l : list string) (t : Task) : Task :=
  {| t_id := t_id t; t_parent_id := t_parent_id t; t_spec := t_spec t; t_status := t_status t;
     t_assigned_agent := t_assigned_agent t; t_assigned_model := t_assigned_model t;
     t_attempts := t_attempts t; t_artifacts := l |}.

(** [Task::attempt_count]. *)
Definition attempt_count (t : Task) : Z := Z.of_nat (length (t_attempts t)).

(** [Task::failed_targets]. *)
Definition failed_targets (t : Task) : list (AgentId * option ModelId) :=
  map (fun a => (oc_agent_id a, oc_model_id a))
      (List.filter (fun a => negb (oc_success a)) (t_attempts t)).

(** [Task::successful_outcome]. *)
Definition successful_outcome (t : Task) : option ExecutionOutcome :=
  List.find oc_success (t_attempts t).

(** [Task::total_tokens]. *)
Definition task_total_tokens (t : Task) : TokenUsage :=
  fold_left (fun acc a => tokens_merge acc (oc_tokens a)) (t_attempts t) (tokens_reported 0 0).

(** ** The graph *)

Record TaskGraph := {
  g_tasks : btree TaskId Task;
  g_order : list TaskId;
}.

Definition graph_new : TaskGraph := {| g_tasks := []; g_order := [] |}.

(** [TaskGraph::get]. *)
Definition graph_get (g : TaskGraph) (id : TaskId) : option Task := bt_get id (g_tasks g).

(** [TaskGraph::add]. *)
Definition graph_add (g : TaskGraph) (t : Task) : TaskGraph * TaskId :=
  let id := t_id t in
  ({| g_tasks := bt_insert id t (g_tasks g);
      g_order := match graph_get g id with None => (g_order g ++ [id])%list | Some _ => g_order g end |},
   id).

(** A write through [TaskGraph::get_mut]. *)
Definition graph_update (f : Task -> Task) (id : TaskId) (g : TaskGraph) : TaskGraph :=
  {| g_tasks := bt_alter f id (g_tasks g); g_order := g_order g |}.

Definition graph_len (g : TaskGraph) : Z := Z.of_nat (length (g_tasks g)).

(** [TaskGraph::iter]: planner order. *)
Definition graph_iter (g : TaskGraph) : list Task :=
  omap (fun id => graph_get g id) (g_order g).

Definition dependencies (t : Task) : list TaskId := sp_dependencies (t_spec t).

(** *** [TaskGraph::validate] *)

(** The first dangling dependency, in iteration order. *)
Definition find_dangling (g : TaskGraph) : option (TaskId * TaskId) :=
  head (concat (map (fun t => map (fun d => (t_id t, d))
    (List.filter (fun d => negb (bt_contains_key d (g_tasks g))) (dependencies t))) (graph_iter g))).

Definition initial_indegree (g : TaskGraph) : btree TaskId Z :=
  fold_left (fun m t =>
      fold_left (fun m d =>
          if bt_contains_key d (g_tasks g)
          then bt_upsert 0 (fun n => wrap64 (n + 1)) (t_id t) m else m)
        (dependencies t) m)
    (graph_iter g)
    (map (fun id => (id, 0)) (bt_keys (g_tasks g))).

(** One task of the inner loop over [self.iter()], for the popped [id]. *)
Definition relax (id : TaskId) (st : btree TaskId Z * list TaskId) (t : Task)
  : btree TaskId Z * list TaskId :=
  let '(indegree, queue) := st in
  if contains (dependencies t) id then
    match bt_get (t_id t) indegree with
    | Some d =>
        let d' := wrap64 (d - 1) in
        (bt_insert (t_id t) d' indegree,
         if d' =? 0 then (queue ++ [t_id t])%list else queue)
    | None => st
    end
  else st.

(** [while let Some(id) = queue.pop_front()]; [None] when the fuel runs out. *)
Fixpoint kahn (fuel : nat) (g : TaskGraph) (indegree : btree TaskId Z)
    (queue : list TaskId) (visited : Z) : option Z :=
  match queue with
  | [] => Some visited
  | id :: queue' =>
      match fuel with
      | O => None
      | S fuel' =>
          let '(indegree', queue'') :=
            fold_left (relax id) (graph_iter g) (indegree, queue') in
          kahn fuel' g indegree' queue'' (visited + 1)
      end
  end.

Definition cycle_error : MetaAgentError :=
  EConfiguration "task graph contains a dependency cycle".

Definition dangling_error (t d : TaskId) : MetaAgentError :=
  EConfiguration ("task " +:+ t +:+ " depends on unknown task " +:+ d).

(** [None] would mean the loop did not end within one round per task. *)
Definition validate (g : TaskGraph) : option (Result unit) :=
  match find_dangling g with
  | Some (t, d) => Some (Err (dangling_error t d))
  | None =>
      let indegree := initial_indegree g in
      let queue := map fst (List.filter (fun p => p.2 =? 0) indegree) in
      match kahn (length (g_tasks g)) g indegree queue 0 with
      | None => None
      | Some visited =>
          Some (if visited =? graph_len g then Ok tt else Err cycle_error)
      end
  end.

(** *** [TaskGraph::ready_tasks] *)

Definition deps_completed (g : TaskGraph) (t : Task) : bool :=
  forallb (fun d => match graph_get g d with
                    | Some dt => bool_decide (t_status dt = Completed)
                    | None => false end) (dependencies t).

Definition is_waiting (s : TaskStatus) : bool :=
  match s with Pending | Ready => true | _ => false end.

Definition ready_tasks (g : TaskGraph) : list Task :=
  stable_sort (fun a b => sp_priority (t_spec b) <=? sp_priority (t_spec a))
    (List.filter (deps_completed g) (List.filter (fun t => is_waiting (t_status t)) (graph_iter g))).

(** [TaskGraph::is_complete]. *)
Definition graph_complete (g : TaskGraph) : bool :=
  forallb (fun t => is_terminal (t_status t)) (bt_values (g_tasks g)).

(** *** [TaskGraph::cascade_skip] *)

Definition dependents_of (g : TaskGraph) (frontier : btset TaskId) : list TaskId :=
  map t_id (List.filter (fun t => existsb (fun d => bs_contains d frontier) (dependencies t))
    (List.filter (fun t => negb (is_terminal (t_status t))) (bt_values (g_tasks g)))).

Definition skip_one (st : TaskGraph * btset TaskId * list TaskId) (id : TaskId)
  : TaskGraph * btset TaskId * list TaskId :=
  let '(g, frontier, skipped) := st in
  (graph_update (with_status Skipped) id g, bs_insert id frontier, (skipped ++ [id])%list).

Fixpoint cascade_loop (fuel : nat) (g : TaskGraph) (frontier : btset TaskId)
    (skipped : list TaskId) : option (TaskGraph * list TaskId) :=
  match dependents_of g frontier with
  | [] => Some (g, skipped)
  | dependents =>
      match fuel with
      | O => None
      | S fuel' =>
          let '(g', frontier', skipped') := fold_left skip_one dependents (g, frontier, skipped) in
          cascade_loop fuel' g' frontier' skipped'
      end
  end.

Definition cascade_skip (g : TaskGraph) (failed : TaskId) : option (TaskGraph * list TaskId) :=
  cascade_loop (length (g_tasks g)) g [failed] [].

(** [TaskGraph::total_tokens]. *)
Definition graph_total_tokens (g : TaskGraph) : TokenUsage :=
  fold_left (fun acc t => tokens_merge acc (task_total_tokens t)) (bt_values (g_tasks g))
    (tokens_reported 0 0).
