(* ===== verification/GraphFacts.v ===== *)
(** * The task graph: well-formedness, validation, readiness, cascades

    [wf_graph] is the invariant [TaskGraph] keeps through its interface.  Over
    well-formed graphs: [validate] always ends and accepts exactly the graphs
    without dangling, repeated or cyclic dependencies; [ready_tasks] is the
    stable priority order of the unblocked waiting tasks; [cascade_skip] skips
    exactly the transitively blocked tasks; and a validated graph in which
    nothing failed always has something to run. *)

From S2P Require Export Task.
From stdpp Require Import relations fin_sets.
Open Scope Z_scope.

Record wf_graph (g : TaskGraph) : Prop := {
  wf_sorted : bt_wf (g_tasks g);
  wf_order_nodup : NoDup (g_order g);
  wf_order_keys : forall id, id ∈ g_order g <-> id ∈ bt_keys (g_tasks g);
  wf_ids : forall id t, graph_get g id = Some t -> t_id t = id;
  (** a [Vec] holds at most [isize::MAX] elements *)
  wf_small : forall id t, graph_get g id = Some t -> Z.of_nat (length (dependencies t)) < 2 ^ 64;
}.

(** [depends g t d]: task [t] lists [d] among its dependencies. *)
Definition depends (g : TaskGraph) (t d : TaskId) : Prop :=
  exists tk, graph_get g t = Some tk /\ d ∈ dependencies tk.

(** No task reaches itself along dependencies. *)
Definition acyclic (g : TaskGraph) : Prop := forall t, ~ tc (depends g) t t.

Definition no_dangling (g : TaskGraph) : Prop :=
  forall t d, depends g t d -> is_Some (graph_get g d).

Definition no_repeats (g : TaskGraph) : Prop :=
  forall id t, graph_get g id = Some t -> NoDup (dependencies t).

(** The tasks a failure of [failed] blocks: unfinished, and depending on it
    directly or through other blocked tasks. *)
Inductive blocked (g : TaskGraph) (failed : TaskId) : TaskId -> Prop :=
  | blocked_direct t tk :
      graph_get g t = Some tk -> is_terminal (t_status tk) = false ->
      failed ∈ dependencies tk -> blocked g failed t
  | blocked_step t tk d :
      graph_get g t = Some tk -> is_terminal (t_status tk) = false ->
      d ∈ dependencies tk -> blocked g failed d -> blocked g failed t.

(** ** Iteration *)

Lemma wf_graph_new : wf_graph graph_new.
Proof. split; simpl; try done; repeat constructor; set_solver. Qed.

Lemma graph_get_add g t id :
  graph_get (graph_add g t).1 id = if bool_decide (id = t_id t) then Some t else graph_get g id.
Proof. unfold graph_get. simpl. apply bt_get_insert. Qed.

Lemma wf_graph_add g t :
  wf_graph g -> Z.of_nat (length (dependencies t)) < 2 ^ 64 -> wf_graph (graph_add g t).1.
Proof.
  intros [W1 W2 W3 W4 W5] Hs. split.
  - simpl. by apply bt_wf_insert.
  - simpl. destruct (graph_get g (t_id t)) eqn:E; [done|].
    apply NoDup_app. split_and!; [done| |repeat constructor; set_solver].
    intros x Hx%W3 ->%list_elem_of_singleton. apply bt_get_Some_keys in Hx.
    unfold graph_get in E. rewrite E in Hx. by destruct Hx.
  - intros id. simpl. rewrite bt_insert_keys. destruct (graph_get g (t_id t)) eqn:E.
    + rewrite W3. split; [auto|]. intros [->|]; [|done]. apply bt_get_Some_keys. by exists t0.
    + rewrite elem_of_app, list_elem_of_singleton, W3. tauto.
  - intros id t'. rewrite graph_get_add. case_bool_decide; [by intros [= <-]|apply W4].
  - intros id t'. rewrite graph_get_add. case_bool_decide; [by intros [= <-]|apply W5].
Qed.

Lemma graph_get_update f id id' g :
  graph_get (graph_update f id g) id' =
  if bool_decide (id' = id) then f <$> graph_get g id' else graph_get g id'.
Proof. apply bt_get_alter. Qed.

(** Updates that keep identifiers and dependencies keep the invariant. *)
Lemma wf_graph_update f id g :
  (forall t, t_id (f t) = t_id t) -> (forall t, dependencies (f t) = dependencies t) ->
  wf_graph g -> wf_graph (graph_update f id g).
Proof.
  intros Hid Hdep [W1 W2 W3 W4 W5].
  assert (forall id' t', graph_get (graph_update f id g) id' = Some t' ->
    exists t, graph_get g id' = Some t /\ t_id t' = t_id t /\ dependencies t' = dependencies t) as Hg.
  { intros id' t'. rewrite graph_get_update. case_bool_decide; [|by eauto].
    destruct (graph_get g id') as [t|]; [|done]. intros [= <-]. by eauto. }
  split.
  - simpl. auto with cuma.
  - done.
  - intros x. simpl. by rewrite bt_alter_keys.
  - intros id' t' (t&Ht&->&_)%Hg. eauto.
  - intros id' t' (t&Ht&_&->)%Hg. eauto.
Qed.

Section Iteration.
Context (g : TaskGraph) (W : wf_graph g).

Lemma graph_iter_ids : map t_id (graph_iter g) = g_order g.
Proof.
  unfold graph_iter.
  assert (forall l, (forall id, id ∈ l -> is_Some (graph_get g id)) ->
    map t_id (omap (fun id => graph_get g id) l) = l) as Hl.
  { induction l as [|id l IH]; intros Hs; simpl; [done|].
    destruct (Hs id) as [t Ht]; [set_solver|]. rewrite Ht. simpl.
    f_equal; [by eapply wf_ids|]. apply IH. set_solver. }
  apply Hl. intros id Hid. apply bt_get_Some_keys. by apply wf_order_keys.
Qed.

Lemma elem_of_graph_iter t : t ∈ graph_iter g <-> graph_get g (t_id t) = Some t.
Proof.
  unfold graph_iter. rewrite list_elem_of_omap. split.
  - intros (id&_&Ht). by rewrite (wf_ids g W _ _ Ht).
  - intros Ht. exists (t_id t). split; [|done].
    apply (wf_order_keys g W). apply bt_get_Some_keys. eauto.
Qed.

Lemma graph_iter_nodup : NoDup (map t_id (graph_iter g)).
Proof. rewrite graph_iter_ids. apply W. Qed.

Lemma elem_of_graph_values t : t ∈ bt_values (g_tasks g) <-> graph_get g (t_id t) = Some t.
Proof.
  unfold bt_values. rewrite list_elem_of_fmap. split.
  - intros ([id t']&->&Hin). apply bt_elem_of_get in Hin; [|apply bt_wf_NoDup; apply W].
    simpl. by rewrite (wf_ids g W id t' Hin).
  - intros Ht. exists (t_id t, t). split; [done|]. by apply bt_get_elem_of.
Qed.

Lemma graph_order_length : length (g_order g) = length (g_tasks g).
Proof.
  rewrite <- (length_map fst (g_tasks g)). apply Permutation_length.
  apply NoDup_Permutation; [apply W|apply bt_wf_NoDup; apply W|apply W].
Qed.

Lemma graph_complete_spec :
  graph_complete g = true <->
  forall id t, graph_get g id = Some t -> is_terminal (t_status t) = true.
Proof.
  unfold graph_complete. rewrite forallb_forall. split.
  - intros H id t Ht. apply H, list_elem_of_In, elem_of_graph_values.
    by rewrite (wf_ids g W _ _ Ht).
  - intros H t Ht%list_elem_of_In%elem_of_graph_values. eauto.
Qed.
End Iteration.

(** ** Counting dependencies *)

(** How many distinct elements of [l] are in [P]. *)
Definition count_in (P l : list TaskId) : nat := length (filter (.∈ P) (remove_dups l)).

Lemma filter_snoc_length (P L : list TaskId) x :
  NoDup L ->
  length (filter (.∈ (P ++ [x])%list) L) =
  (length (filter (.∈ P) L) + (if bool_decide (x ∈ L /\ x ∉ P) then 1 else 0))%nat.
Proof.
  induction 1 as [|y L Hy _ IH]; [by rewrite bool_decide_false by set_solver|].
  rewrite !filter_cons.
  destruct (decide (y ∈ P)) as [Hp|Hp].
  - rewrite decide_True by set_solver. simpl. rewrite IH.
    erewrite bool_decide_ext; [reflexivity|]. set_solver.
  - destruct (decide (y = x)) as [->|Hne].
    + rewrite decide_True by set_solver. simpl. rewrite IH.
      rewrite bool_decide_false by set_solver. rewrite bool_decide_true by set_solver. lia.
    + rewrite decide_False by set_solver. rewrite IH.
      erewrite bool_decide_ext; [reflexivity|]. set_solver.
Qed.

Lemma count_in_snoc P l x :
  count_in (P ++ [x])%list l =
  (count_in P l + (if bool_decide (x ∈ l /\ x ∉ P) then 1 else 0))%nat.
Proof.
  unfold count_in. rewrite filter_snoc_length by apply NoDup_remove_dups.
  erewrite bool_decide_ext; [reflexivity|]. by rewrite elem_of_remove_dups.
Qed.

Lemma remove_dups_length (l : list TaskId) : (length (remove_dups l) <= length l)%nat.
Proof. induction l; simpl; [lia|]. case_decide; simpl; lia. Qed.

Lemma remove_dups_nodup (l : list TaskId) : length (remove_dups l) = length l -> NoDup l.
Proof.
  induction l as [|x l IH]; simpl; [constructor|]. pose proof (remove_dups_length l).
  case_decide; simpl; intros; [lia|]. constructor; [done|]. apply IH. lia.
Qed.

Lemma nodup_remove_dups (l : list TaskId) : NoDup l -> remove_dups l = l.
Proof. induction 1; simpl; [done|]. case_decide; [done|]. congruence. Qed.

Lemma count_in_le P l : (count_in P l <= length l)%nat.
Proof. unfold count_in. rewrite length_filter. apply remove_dups_length. Qed.

Lemma filter_full (P L : list TaskId) :
  length (filter (.∈ P) L) = length L -> L ⊆ P.
Proof.
  induction L as [|x L IH]; [set_solver|]. rewrite filter_cons. intros H.
  pose proof (length_filter (.∈ P) L). case_decide; simpl in H; [|lia].
  intros y [->|]%elem_of_cons; [done|]. apply IH; [lia|done].
Qed.

(** All of [l] is counted exactly when it has no repetition and lies in [P]. *)
Lemma count_in_full P l : count_in P l = length l <-> NoDup l /\ l ⊆ P.
Proof.
  unfold count_in. split.
  - intros H. pose proof (remove_dups_length l). pose proof (length_filter (.∈ P) (remove_dups l)).
    split; [apply remove_dups_nodup; lia|]. intros x Hx.
    apply (filter_full P (remove_dups l)); [lia|]. by apply elem_of_remove_dups.
  - intros [Hn Hs]. rewrite nodup_remove_dups by done.
    assert (filter (.∈ P) l = l) as ->; [|done]. clear Hn.
    induction l as [|x l IH]; [done|]. rewrite filter_cons, decide_True by set_solver.
    f_equal. apply IH. set_solver.
Qed.

(** ** The indegree table *)

Section Kahn.
Context (g : TaskGraph) (W : wf_graph g).

(** [find_dangling] finds nothing exactly when every dependency is a task. *)
Lemma find_dangling_none : find_dangling g = None <-> no_dangling g.
Proof.
  unfold find_dangling, no_dangling. rewrite head_None. split.
  - intros Hc t d (tk&Ht&Hd). destruct (bt_contains_key d (g_tasks g)) eqn:E.
    { by apply bt_get_Some_keys, bt_contains_key_spec. }
    assert (tk ∈ graph_iter g) as Hin.
    { apply (elem_of_graph_iter g W). by rewrite (wf_ids g W _ _ Ht). }
    exfalso. eapply (not_elem_of_nil (t_id tk, d)). rewrite <- Hc.
    rewrite list_elem_of_In, in_concat. eexists. split.
    + apply in_map, list_elem_of_In, Hin.
    + apply in_map, filter_In. split; [by apply list_elem_of_In|]. by rewrite E.
  - intros Hn. apply elem_of_nil_inv. intros [a d] Hin.
    rewrite list_elem_of_In, in_concat in Hin. destruct Hin as (l&(tk&<-&Htk)%in_map_iff&Hl).
    apply in_map_iff in Hl as (d'&[= <- <-]&[Hd Hc]%filter_In).
    apply list_elem_of_In, (elem_of_graph_iter g W) in Htk. apply list_elem_of_In in Hd.
    assert (is_Some (graph_get g d')) as Hs by (eapply Hn; eexists; eauto).
    apply bt_get_Some_keys, bt_contains_key_spec in Hs. rewrite Hs in Hc. done.
Qed.

Lemma indegree_inner id deps (m : btree TaskId Z) n k :
  Forall (fun d => bt_contains_key d (g_tasks g) = true) deps ->
  bt_get id m = Some n -> 0 <= n -> n + Z.of_nat (length deps) < 2 ^ 64 ->
  bt_get k (fold_left (fun m d =>
      if bt_contains_key d (g_tasks g)
      then bt_upsert 0 (fun n => wrap64 (n + 1)) id m else m) deps m) =
  if bool_decide (k = id) then Some (n + Z.of_nat (length deps)) else bt_get k m.
Proof.
  intros Hd. revert m n. induction Hd as [|d deps Hd _ IH]; intros m n Hg Hn Hb; simpl in *.
  - case_bool_decide; [|done]. subst. rewrite Hg. f_equal. lia.
  - rewrite Hd. rewrite (IH _ (n + 1)).
    + case_bool_decide; [f_equal; lia|]. by rewrite bt_get_upsert, bool_decide_false.
    + rewrite bt_get_upsert, bool_decide_true, Hg by done. simpl. f_equal.
      apply wrap64_small. unfold is_u64, U64_MAX. lia.
    + lia.
    + lia.
Qed.

Lemma indegree_outer ts (m : btree TaskId Z) :
  NoDup (map t_id ts) ->
  Forall (fun t => Z.of_nat (length (dependencies t)) < 2 ^ 64 /\
    Forall (fun d => bt_contains_key d (g_tasks g) = true) (dependencies t)) ts ->
  Forall (fun t => bt_get (t_id t) m = Some 0) ts ->
  let m' := fold_left (fun m t =>
      fold_left (fun m d =>
          if bt_contains_key d (g_tasks g)
          then bt_upsert 0 (fun n => wrap64 (n + 1)) (t_id t) m else m)
        (dependencies t) m) ts m in
  (forall k, k ∉ map t_id ts -> bt_get k m' = bt_get k m) /\
  Forall (fun t => bt_get (t_id t) m' = Some (Z.of_nat (length (dependencies t)))) ts.
Proof.
  revert m. induction ts as [|t ts IH]; intros m Hn Hs Hz; simpl; [done|].
  inversion Hn as [|? ? Hni Hn']; inversion Hs as [|? ? [Hb Hd] Hs'];
    inversion Hz as [|? ? Ht Hz']; subst.
  set (m1 := fold_left _ (dependencies t) m).
  assert (forall k, bt_get k m1 = if bool_decide (k = t_id t)
    then Some (Z.of_nat (length (dependencies t))) else bt_get k m) as Hm1.
  { intros k. unfold m1. rewrite (indegree_inner _ _ m 0 k Hd Ht) by lia. done. }
  destruct (IH m1) as [IH1 IH2]; [done|done| |].
  { rewrite Forall_forall in Hz' |- *. intros t' Ht'. rewrite Hm1, bool_decide_false; [auto|].
    intros He. apply Hni. rewrite <- He. by apply list_elem_of_fmap_2. }
  split.
  - intros k [? ?]%not_elem_of_cons. rewrite IH1 by done.
    by rewrite Hm1, bool_decide_false.
  - constructor; [|done]. rewrite IH1 by done. by rewrite Hm1, bool_decide_true.
Qed.

Lemma indegree_wf : bt_wf (initial_indegree g).
Proof.
  unfold initial_indegree.
  assert (bt_wf (map (fun id => (id, 0)) (bt_keys (g_tasks g)))) as H0.
  { unfold bt_wf, bt_keys. rewrite map_map. simpl. rewrite map_id. apply W. }
  revert H0. generalize (map (fun id : TaskId => (id, 0)) (bt_keys (g_tasks g))).
  generalize (graph_iter g). clear W. intros ts.
  induction ts as [|t ts IH]; intros m Hm; simpl; [done|]. apply IH. clear IH.
  revert m Hm. generalize (dependencies t). intros deps.
  induction deps as [|d deps IH]; intros m Hm; simpl; [done|]. apply IH.
  case_match; auto with cuma.
Qed.

Lemma zero_table (l : list TaskId) k :
  bt_get k (map (fun id => (id, 0)) l) = if bool_decide (k ∈ l) then Some 0 else None.
Proof.
  induction l as [|x l IH]; [done|]. cbn [map bt_get].
  rewrite IH. destruct (decide (k = x)) as [->|Hne].
  - rewrite !bool_decide_true by (try rewrite elem_of_cons; auto). done.
  - rewrite (bool_decide_false (k = x)) by done.
    erewrite bool_decide_ext; [reflexivity|]. rewrite elem_of_cons. tauto.
Qed.

Lemma indegree_graph :
  no_dangling g ->
  (forall k, k ∉ bt_keys (g_tasks g) -> bt_get k (initial_indegree g) = None) /\
  (forall t, t ∈ graph_iter g ->
    bt_get (t_id t) (initial_indegree g) = Some (Z.of_nat (length (dependencies t)))).
Proof.
  intros Hdang.
  destruct (indegree_outer (graph_iter g) (map (fun id => (id, 0)) (bt_keys (g_tasks g))))
    as [H1 H2].
  - by apply graph_iter_nodup.
  - rewrite Forall_forall. intros t' Ht'%(elem_of_graph_iter g W). split.
    + by eapply wf_small.
    + rewrite Forall_forall. intros d Hd. apply bt_contains_key_spec, bt_get_Some_keys.
      eapply Hdang. eexists; eauto.
  - rewrite Forall_forall. intros t' Ht'%(elem_of_graph_iter g W).
    rewrite zero_table, bool_decide_true; [done|]. apply bt_get_Some_keys; eauto.
  - rewrite Forall_forall in H2. split; [|done]. intros k Hk.
    unfold initial_indegree. rewrite H1.
    + by rewrite zero_table, bool_decide_false.
    + rewrite (graph_iter_ids g W). by rewrite (wf_order_keys g W).
Qed.

(** ** The drain loop *)

Definition hits (id : TaskId) (t : Task) : bool := contains (dependencies t) id.

Lemma relax_fold id ts m q :
  NoDup (map t_id ts) ->
  (forall t, t ∈ ts -> hits id t = true ->
    exists d, bt_get (t_id t) m = Some d /\ 1 <= d <= U64_MAX) ->
  let '(m', q') := fold_left (relax id) ts (m, q) in
  (forall k, k ∉ map t_id ts -> bt_get k m' = bt_get k m) /\
  (forall t, t ∈ ts -> bt_get (t_id t) m' =
    (fun d => if hits id t then d - 1 else d) <$> bt_get (t_id t) m) /\
  q' = (q ++ map t_id (List.filter
    (fun t => hits id t && bool_decide (bt_get (t_id t) m = Some 1)) ts))%list.
Proof.
  revert m q. induction ts as [|t ts IH]; intros m q Hn Hd; simpl.
  { split_and!; [done|set_solver|by rewrite app_nil_r]. }
  inversion Hn as [|? ? Hni Hn']; subst. fold (hits id t).
  assert (forall t', t' ∈ ts -> t_id t' <> t_id t) as Hne.
  { intros t' Ht' He. apply Hni. rewrite <- He. by apply list_elem_of_fmap_2. }
  destruct (hits id t) eqn:Eh; simpl.
  - destruct (Hd t) as (d&Hg&Hr); [set_solver|done|]. rewrite Hg.
    rewrite wrap64_small by (unfold is_u64; lia).
    assert (forall t', t' ∈ ts ->
      bt_get (t_id t') (bt_insert (t_id t) (d - 1) m) = bt_get (t_id t') m) as Hsame.
    { intros t' Ht'. rewrite bt_get_insert, bool_decide_false; auto. }
    set (q1 := if d - 1 =? 0 then _ else _).
    specialize (IH (bt_insert (t_id t) (d - 1) m) q1 Hn').
    destruct (fold_left (relax id) ts _) as [m' q']. destruct IH as (IH1&IH2&IH3).
    { intros t' Ht' Hh. rewrite Hsame by done. apply Hd; set_solver. }
    split_and!.
    + intros k [? ?]%not_elem_of_cons. rewrite IH1 by done. by apply bt_get_insert_ne.
    + intros t' [->|Ht']%elem_of_cons; [|by rewrite IH2, Hsame].
      rewrite IH1 by done. rewrite bt_get_insert_eq, Hg. simpl. by rewrite Eh.
    + rewrite IH3. unfold q1. rewrite (filter_ext_in _
        (fun t => hits id t && bool_decide (bt_get (t_id t) m = Some 1))).
      2:{ intros t' Ht'%list_elem_of_In. by rewrite Hsame. }
      destruct (Z.eqb_spec (d - 1) 0).
      * rewrite bool_decide_true by (f_equal; lia). simpl. by rewrite <- app_assoc.
      * rewrite bool_decide_false; [done|]. intros [=]. lia.
  - specialize (IH m q Hn'). unfold hits in Eh. 
    destruct (fold_left (relax id) ts _) as [m' q']. destruct IH as (IH1&IH2&IH3).
    { intros t' Ht' Hh. apply Hd; set_solver. }
    split_and!.
    + intros k [? ?]%not_elem_of_cons. auto.
    + intros t' [->|Ht']%elem_of_cons; [|auto]. rewrite IH1 by done.
      unfold hits. rewrite Eh. by destruct (bt_get _ m).
    + done.
Qed.

(** The loop invariant: [P] is what was popped so far, in order. *)
Record kahn_inv (P queue : list TaskId) (m : btree TaskId Z) : Prop := {
  ki_nodup : NoDup (P ++ queue);
  ki_keys : forall x, x ∈ (P ++ queue)%list -> x ∈ bt_keys (g_tasks g);
  ki_indegree : forall t, t ∈ graph_iter g -> bt_get (t_id t) m =
    Some (Z.of_nat (length (dependencies t)) - Z.of_nat (count_in P (dependencies t)));
  ki_zero : forall t, t ∈ graph_iter g ->
    t_id t ∈ (P ++ queue)%list <-> count_in P (dependencies t) = length (dependencies t);
  ki_topo : forall l1 x l2 t, (P ++ queue)%list = (l1 ++ x :: l2)%list ->
    graph_get g x = Some t -> dependencies t ⊆ l1;
}.

(** What popping [id] adds to the queue: the tasks whose last unpopped
    dependency it was. *)
Definition released (P : list TaskId) (id : TaskId) (new : list Task) : Prop :=
  NoDup (map t_id new) /\
  forall t, t ∈ new <-> t ∈ graph_iter g /\ hits id t = true /\
    count_in (P ++ [id]) (dependencies t) = length (dependencies t).

Lemma hits_count P id t :
  id ∉ P -> count_in (P ++ [id]) (dependencies t) =
    (count_in P (dependencies t) + (if hits id t then 1 else 0))%nat.
Proof.
  intros HidP. rewrite count_in_snoc. f_equal. unfold hits, contains.
  erewrite bool_decide_ext; [reflexivity|]. naive_solver.
Qed.

Lemma hits_below P id t :
  id ∉ P -> hits id t = true -> (count_in P (dependencies t) < length (dependencies t))%nat.
Proof.
  intros HidP Hh. pose proof (count_in_le (P ++ [id]) (dependencies t)) as Hle.
  rewrite hits_count, Hh in Hle by done. lia.
Qed.

Lemma popped_fresh P id queue m : kahn_inv P (id :: queue) m -> id ∉ P.
Proof.
  intros [I1 _ _ _ _] Hin. apply NoDup_app in I1 as (_&Hd&_). apply (Hd id Hin). set_solver.
Qed.

Lemma relax_round P id queue m :
  kahn_inv P (id :: queue) m ->
  let '(m', q') := fold_left (relax id) (graph_iter g) (m, queue) in
  exists new, released P id new /\ q' = (queue ++ map t_id new)%list /\
    forall t, t ∈ graph_iter g -> bt_get (t_id t) m' =
      Some (Z.of_nat (length (dependencies t)) - Z.of_nat (count_in (P ++ [id]) (dependencies t))).
Proof.
  intros Hinv. pose proof (popped_fresh _ _ _ _ Hinv) as HidP. destruct Hinv as [_ _ I3 _ _].
  pose proof (relax_fold id (graph_iter g) m queue (graph_iter_nodup g W)) as Hr.
  destruct (fold_left (relax id) (graph_iter g) (m, queue)) as [m' q'].
  destruct Hr as (_&R2&R3).
  { intros t Ht Hh. rewrite I3 by done. eexists. split; [done|].
    pose proof (hits_below P id t HidP Hh). apply (elem_of_graph_iter g W) in Ht.
    pose proof (wf_small g W _ _ Ht). unfold U64_MAX. lia. }
  eexists. split_and!; [|exact R3|].
  - split; [apply nodup_map_filter, (graph_iter_nodup g W)|].
    intros t. rewrite !list_elem_of_In, filter_In, <- list_elem_of_In. split.
    + intros [Ht Hb]. destruct_bools. rewrite I3 in H0 by done. simplify_eq.
      rewrite hits_count, H by done. split_and!; [done..|]. lia.
    + intros (Ht&Hh&Hc). split; [done|]. rewrite Hh. simpl. apply bool_decide_eq_true.
      rewrite I3 by done. rewrite hits_count, Hh in Hc by done. f_equal. lia.
  - intros t Ht. rewrite R2, I3, hits_count by done. simpl. f_equal. case_match; lia.
Qed.

Lemma released_fresh P id queue m new x :
  kahn_inv P (id :: queue) m -> released P id new -> x ∈ map t_id new -> x ∉ (P ++ id :: queue)%list.
Proof.
  intros Hinv [_ Hnew] (t&->&Ht)%list_elem_of_fmap. apply Hnew in Ht as (Ht&Hh&_).
  rewrite (ki_zero _ _ _ Hinv) by done.
  pose proof (hits_below P id t (popped_fresh _ _ _ _ Hinv) Hh). lia.
Qed.

(** Every dependency of a task precedes it in the extended order. *)
Lemma released_topo P id queue m new l1 x l2 t :
  kahn_inv P (id :: queue) m -> released P id new ->
  ((P ++ id :: queue) ++ map t_id new)%list = (l1 ++ x :: l2)%list ->
  graph_get g x = Some t -> dependencies t ⊆ l1.
Proof.
  intros Hinv [_ Hnew] Hsplit Ht.
  assert (x ∈ map t_id new -> dependencies t ⊆ (P ++ [id])%list) as Hx.
  { intros (t'&->&Ht')%list_elem_of_fmap. apply Hnew in Ht' as (Ht'&_&Hc).
    apply (elem_of_graph_iter g W) in Ht'. simplify_eq. by apply count_in_full in Hc as [_ Hs]. }
  apply app_eq_inv in Hsplit as [(k&He1&He2)|(k&He1&He2)].
  - destruct k as [|y k]; simpl in He2.
    + rewrite app_nil_r in He1. specialize (Hx ltac:(rewrite <- He2; set_solver)). set_solver.
    + injection He2 as -> ->. by eapply (ki_topo _ _ _ Hinv l1).
  - specialize (Hx ltac:(rewrite He2; set_solver)). set_solver.
Qed.

Lemma kahn_inv_step P id queue m :
  kahn_inv P (id :: queue) m ->
  let '(m', q') := fold_left (relax id) (graph_iter g) (m, queue) in
  kahn_inv (P ++ [id]) q' m'.
Proof.
  intros Hinv. pose proof (relax_round P id queue m Hinv) as Hround.
  pose proof (popped_fresh _ _ _ _ Hinv) as HidP.
  destruct (fold_left (relax id) (graph_iter g) (m, queue)) as [m' q'].
  destruct Hround as (new&Hrel&->&Hdeg). pose proof Hrel as [Hnn Hnew].
  pose proof (released_fresh P id queue m new) as Hfresh.
  pose proof (released_topo P id queue m new) as Htopo. pose proof Hinv as [I1 I2 _ I4 _].
  assert (((P ++ [id]) ++ queue ++ map t_id new)%list = ((P ++ id :: queue) ++ map t_id new)%list) as Heq
    by (by rewrite <- !app_assoc).
  split; [..|done|intros t Ht|]; rewrite ?Heq.
  - apply NoDup_app. split_and!; [done| |done]. intros x Hx Hx'. by eapply Hfresh in Hx'.
  - intros x. rewrite elem_of_app. intros [?|Hx]; [auto|].
    apply list_elem_of_fmap in Hx as (t&->&Ht). apply Hnew in Ht as (Ht&_).
    apply (elem_of_graph_iter g W) in Ht. apply bt_get_Some_keys. eauto.
  - rewrite elem_of_app, I4, hits_count by done. pose proof (hits_below P id t HidP) as Hlt. split.
    + intros [Hc|(t'&Hid&Ht')%list_elem_of_fmap].
      * destruct (hits id t); [|lia]. specialize (Hlt eq_refl). lia.
      * apply Hnew in Ht' as (Ht'&Hh&Hc).
        assert (t = t') as <-.
        { apply (elem_of_graph_iter g W) in Ht, Ht'. rewrite Hid in Ht. congruence. }
        by rewrite hits_count in Hc.
    + intros Hc. destruct (hits id t) eqn:Eh; [|left; lia].
      right. apply list_elem_of_fmap_2. apply Hnew. by rewrite hits_count, Eh.
  - intros l1 x l2 t. eauto.
Qed.
End Kahn.

(** Dependency descent is well-founded on acyclic graphs. *)
Lemma depends_sn g x : wf_graph g -> acyclic g -> no_dangling g -> sn (depends g) x.
Proof.
  intros W Ha Hd. apply tc_finite_sn; [exact Ha|].
  exists (bt_keys (g_tasks g)). intros y Hy.
  assert (is_Some (graph_get g y)) as Hs.
  { induction Hy as [a b Hab|a b c _ _ IH]; [by eapply Hd|done]. }
  by apply bt_get_Some_keys in Hs.
Qed.

Lemma nodup_incl_length (l k : list TaskId) :
  NoDup l -> (forall x, x ∈ l -> x ∈ k) -> (length l <= length k)%nat.
Proof. intros Hn Hs. apply submseteq_length. by apply NoDup_submseteq. Qed.

Section Validate.
Context (g : TaskGraph) (W : wf_graph g).

Lemma in_keys_iter x :
  x ∈ bt_keys (g_tasks g) <-> exists t, t ∈ graph_iter g /\ t_id t = x.
Proof.
  rewrite <- bt_get_Some_keys. split.
  - intros [t Ht]. exists t. pose proof (wf_ids g W _ _ Ht) as Hid.
    split; [|done]. apply (elem_of_graph_iter g W). by rewrite Hid.
  - intros (t&Ht&<-). apply (elem_of_graph_iter g W) in Ht. by exists t.
Qed.

Lemma keys_length : length (bt_keys (g_tasks g)) = length (g_tasks g).
Proof. apply length_map. Qed.

Lemma kahn_runs fuel P queue m :
  kahn_inv g P queue m -> (length (g_tasks g) <= length P + fuel)%nat ->
  exists P' m', kahn fuel g m queue (Z.of_nat (length P)) = Some (Z.of_nat (length P'))
    /\ kahn_inv g P' [] m'.
Proof.
  revert P queue m. induction fuel as [|fuel IH]; intros P [|id queue] m Hinv Hf; simpl; eauto.
  - exfalso. destruct Hinv as [I1 I2 _ _ _].
    assert (length (P ++ id :: queue) <= length (bt_keys (g_tasks g)))%nat as Hl
      by (by apply nodup_incl_length).
    rewrite keys_length, length_app in Hl. simpl in Hl. lia.
  - pose proof (kahn_inv_step g W P id queue m Hinv) as Hstep.
    destruct (fold_left (relax id) (graph_iter g) (m, queue)) as [m' q'].
    destruct (IH (P ++ [id])%list q' m' Hstep) as (P'&m''&He&Hi).
    { rewrite length_app. simpl. lia. }
    exists P', m''. split; [|done]. rewrite <- He. f_equal. rewrite length_app. simpl. lia.
Qed.

Lemma kahn_inv_init :
  no_dangling g ->
  kahn_inv g [] (map fst (List.filter (fun p => p.2 =? 0) (initial_indegree g)))
    (initial_indegree g).
Proof.
  intros Hd. destruct (indegree_graph g W Hd) as [H1 H2].
  pose proof (indegree_wf g W) as Hwf. pose proof (bt_wf_NoDup _ Hwf) as Hnd.
  set (m := initial_indegree g) in *.
  assert (forall x, x ∈ map fst (List.filter (fun p => p.2 =? 0) m) <-> bt_get x m = Some 0) as Hq.
  { intros x. rewrite list_elem_of_In, in_map_iff. split.
    - intros ([k v]&<-&[Hin Hz]%filter_In). simpl in *. apply Z.eqb_eq in Hz as ->.
      apply bt_elem_of_get; [done|]. by apply list_elem_of_In.
    - intros Hx. exists (x, 0). split; [done|]. apply filter_In. split; [|done].
      by apply list_elem_of_In, bt_get_elem_of. }
  assert (forall l, count_in [] l = 0%nat) as Hc.
  { intros l. unfold count_in. induction (remove_dups l) as [|x l' IH]; [done|].
    rewrite filter_cons, decide_False; [done|]. apply not_elem_of_nil. }
  split.
  - by apply nodup_map_filter.
  - intros x. rewrite app_nil_l. intros Hx%Hq.
    destruct (decide (x ∈ bt_keys (g_tasks g))) as [|Hn]; [done|].
    apply H1 in Hn. congruence.
  - intros t Ht. rewrite Hc, H2 by done. f_equal. lia.
  - intros t Ht. rewrite app_nil_l, Hq, H2, Hc by done. split; [intros [=]; lia|]. intros <-. done.
  - intros l1 x l2 t He Ht. rewrite app_nil_l in He.
    assert (bt_get x m = Some 0) as Hx by (apply Hq; rewrite He; set_solver).
    assert (t ∈ graph_iter g /\ t_id t = x) as [Hti <-].
    { pose proof (wf_ids g W _ _ Ht) as Hid. split; [|done].
      apply (elem_of_graph_iter g W). by rewrite Hid. }
    rewrite H2 in Hx by done. destruct (dependencies t); [set_solver|done].
Qed.

(** A drained queue that covers the graph certifies it. *)
Lemma kahn_full P m :
  kahn_inv g P [] m -> (length (g_tasks g) <= length P)%nat -> no_repeats g /\ acyclic g.
Proof.
  intros [I1 I2 _ I4 I5] Hl. rewrite app_nil_r in *.
  assert (forall x, x ∈ bt_keys (g_tasks g) -> x ∈ P) as Hall.
  { assert (P ≡ₚ bt_keys (g_tasks g)) as Hp.
    { apply submseteq_length_Permutation.
      - by apply NoDup_submseteq.
      - by rewrite keys_length. }
    intros x. by rewrite Hp. }
  split.
  - intros id t Ht. pose proof (wf_ids g W _ _ Ht) as Hid. subst id.
    assert (t ∈ graph_iter g) as Hti by by apply (elem_of_graph_iter g W).
    assert (t_id t ∈ P) as HP by (apply Hall, in_keys_iter; eauto).
    apply I4 in HP; [|done]. by apply count_in_full in HP as [? _].
  - assert (forall x y, tc (depends g) x y -> forall l1 l2, P = (l1 ++ x :: l2)%list -> y ∈ l1) as Hpos.
    { induction 1 as [x y (t&Ht&Hy)|x z y (t&Ht&Hz) _ IH]; intros l1 l2 HP.
      - by eapply I5.
      - assert (z ∈ l1) as (a&b&->)%list_elem_of_split by (by eapply I5).
        assert (y ∈ a); [|set_solver]. apply (IH a (b ++ x :: l2)%list).
        by rewrite HP, <- app_assoc. }
    intros x Hx. assert (x ∈ P) as (l1&l2&HP)%list_elem_of_split.
    { apply Hall. apply bt_get_Some_keys. inversion Hx as [? ? (t&Ht&_)|? ? ? (t&Ht&_)]; eauto. }
    pose proof (Hpos x x Hx l1 l2 HP) as Hin. rewrite HP in I1.
    apply NoDup_app in I1 as (_&Hd&_). apply (Hd x Hin). set_solver.
Qed.

(** On an acyclic graph without repeated dependencies the drain covers it. *)
Lemma kahn_drains P m :
  kahn_inv g P [] m -> no_dangling g -> no_repeats g -> acyclic g ->
  (length (g_tasks g) <= length P)%nat.
Proof.
  intros [I1 I2 _ I4 _] Hd Hr Ha. rewrite app_nil_r in *.
  rewrite <- keys_length. apply nodup_incl_length; [apply bt_wf_NoDup, W|].
  intros x Hx. pose proof (depends_sn g x W Ha Hd) as Hsn.
  induction Hsn as [x _ IH]. apply in_keys_iter in Hx as (t&Ht&<-).
  pose proof Ht as Hg. apply (elem_of_graph_iter g W) in Hg.
  apply I4; [done|]. apply count_in_full. split; [by eapply Hr|].
  intros d Hdep. apply IH; [by exists t|].
  assert (is_Some (graph_get g d)) as Hs by (eapply Hd; by exists t).
  by apply bt_get_Some_keys.
Qed.

Lemma validate_cases :
  no_dangling g ->
  exists P m, kahn_inv g P [] m /\
  validate g = Some (if Z.of_nat (length P) =? graph_len g then Ok tt else Err cycle_error).
Proof.
  intros Hd. unfold validate. pose proof Hd as Hn. apply (find_dangling_none g W) in Hn as ->.
  destruct (kahn_runs (length (g_tasks g)) [] _ _ (kahn_inv_init Hd)) as (P&m&He&Hi).
  { simpl. lia. }
  exists P, m. split; [done|]. change (Z.of_nat (length [])) with 0 in He. by rewrite He.
Qed.
End Validate.

(** ** The skip cascade *)

Lemma dependents_of_spec g F x :
  wf_graph g ->
  (x ∈ dependents_of g F) <-> (exists t, graph_get g x = Some t /\ is_terminal (t_status t) = false /\
    exists d, d ∈ dependencies t /\ d ∈ F).
Proof.
  intros W. unfold dependents_of. rewrite list_elem_of_In, in_map_iff. split.
  - intros (t&<-&[Hin He]%filter_In). apply filter_In in Hin as [Hin Ht].
    apply list_elem_of_In, (elem_of_graph_values g W) in Hin.
    apply negb_true_iff in Ht. apply existsb_exists in He as (d&Hd&Hf).
    exists t. split_and!; [done..|]. exists d.
    by rewrite list_elem_of_In, <- (contains_true F).
  - intros (t&Hg&Ht&d&Hd&Hf). pose proof (wf_ids g W _ _ Hg) as Hid. exists t.
    split; [done|]. apply filter_In. split.
    + apply filter_In. split; [|by rewrite Ht].
      apply list_elem_of_In, (elem_of_graph_values g W). by rewrite Hid.
    + apply existsb_exists. exists d. rewrite <- list_elem_of_In.
      split; [done|]. by apply contains_true.
Qed.

Lemma dependents_of_nodup g F : wf_graph g -> NoDup (dependents_of g F).
Proof.
  intros W. unfold dependents_of, bt_values.
  assert (map t_id (map snd (g_tasks g)) = bt_keys (g_tasks g)) as Heq.
  { unfold bt_keys. rewrite map_map. apply map_ext_in. intros [k t] Hin. simpl.
    apply list_elem_of_In, bt_elem_of_get in Hin; [|apply bt_wf_NoDup, W].
    by apply (wf_ids g W). }
  assert (NoDup (map t_id (map snd (g_tasks g)))) as Hn.
  { rewrite Heq. apply bt_wf_NoDup, W. }
  by do 2 apply nodup_map_filter.
Qed.

Lemma skip_fold l g F S g' F' S' :
  fold_left skip_one l (g, F, S) = (g', F', S') ->
  S' = (S ++ l)%list /\ (forall x, x ∈ F' <-> x ∈ F \/ x ∈ l) /\
  (wf_graph g -> wf_graph g') /\
  (forall id, graph_get g' id =
    if bool_decide (id ∈ l) then with_status Skipped <$> graph_get g id else graph_get g id).
Proof.
  revert g F S. induction l as [|x l IH]; intros g F S; simpl.
  - intros [= -> -> ->]. rewrite app_nil_r. split_and!; [done|set_solver|done|done].
  - intros (->&HF&HW&Hg)%IH. split_and!.
    + by rewrite <- app_assoc.
    + intros y. rewrite HF, bs_elem_of_insert. set_solver.
    + intros W. apply HW. by apply wf_graph_update.
    + intros id. rewrite Hg, graph_get_update. destruct (decide (id = x)) as [->|Hne].
      * rewrite (bool_decide_true (x = x)) by done.
        rewrite (bool_decide_true (x ∈ x :: l)) by set_solver.
        case_bool_decide; [|done]. by destruct (graph_get g x).
      * rewrite (bool_decide_false (id = x)) by done.
        erewrite (bool_decide_ext (id ∈ x :: l)); [reflexivity|]. set_solver.
Qed.

(** The state of the cascade after skipping [S]. *)
Record cascade_inv (g0 : TaskGraph) (failed : TaskId)
    (g : TaskGraph) (F : btset TaskId) (S : list TaskId) : Prop := {
  ca_wf : wf_graph g;
  ca_frontier : forall x, x ∈ F <-> x = failed \/ x ∈ S;
  ca_nodup : NoDup S;
  ca_blocked : forall x, x ∈ S -> blocked g0 failed x;
  ca_get : forall id, graph_get g id =
    if bool_decide (id ∈ S) then with_status Skipped <$> graph_get g0 id else graph_get g0 id;
}.

Lemma cascade_inv_step g0 failed g F S :
  cascade_inv g0 failed g F S ->
  let '(g', F', S') := fold_left skip_one (dependents_of g F) (g, F, S) in
  cascade_inv g0 failed g' F' S'.
Proof.
  intros [W HF HN HB HG].
  destruct (fold_left skip_one (dependents_of g F) (g, F, S)) as [[g' F'] S'] eqn:E.
  apply skip_fold in E as (->&HF'&HW'&HG').
  assert (forall x, x ∈ dependents_of g F -> (x ∉ S) /\ exists t, graph_get g0 x = Some t /\
    is_terminal (t_status t) = false /\ exists d, d ∈ dependencies t /\ d ∈ F) as Hnew.
  { intros x (t&Hg&Ht&d&Hd&Hf)%dependents_of_spec; [|done]. rewrite HG in Hg.
    case_bool_decide as Hin.
    - destruct (graph_get g0 x); simplify_eq/=.
    - split; [done|]. exists t. split_and!; [done..|]. eauto. }
  split.
  - by apply HW'.
  - intros x. rewrite HF', HF, elem_of_app. tauto.
  - apply NoDup_app. split_and!; [done| |by apply dependents_of_nodup].
    intros x Hx Hd. by apply Hnew in Hd as [? _].
  - intros x [Hx|Hx]%elem_of_app; [auto|].
    apply Hnew in Hx as (_&t&Hg&Ht&d&Hd&[->|Hf]%HF).
    + by eapply blocked_direct.
    + eapply blocked_step; eauto.
  - intros id. rewrite HG', HG. 
    destruct (decide (id ∈ S)) as [Hs|Hs], (decide (id ∈ dependents_of g F)) as [Hd|Hd].
    + by apply Hnew in Hd as [? _].
    + rewrite (bool_decide_true (id ∈ S)), (bool_decide_false (id ∈ dependents_of g F)),
        bool_decide_true by set_solver. done.
    + rewrite (bool_decide_false (id ∈ S)), (bool_decide_true (id ∈ dependents_of g F)),
        bool_decide_true by set_solver. done.
    + rewrite (bool_decide_false (id ∈ S)), (bool_decide_false (id ∈ dependents_of g F)),
        bool_decide_false by set_solver. done.
Qed.

Lemma cascade_inv_size g0 failed g F S :
  wf_graph g0 -> cascade_inv g0 failed g F S -> (length S <= length (g_tasks g0))%nat.
Proof.
  intros W0 [_ _ HN HB _]. rewrite <- keys_length. apply nodup_incl_length; [done|].
  intros x Hx%HB. apply bt_get_Some_keys. inversion Hx; eauto.
Qed.

Lemma cascade_loop_runs g0 failed fuel g F S :
  wf_graph g0 -> cascade_inv g0 failed g F S ->
  (length (g_tasks g0) <= length S + fuel)%nat ->
  exists g' F' S', cascade_loop fuel g F S = Some (g', S') /\
    cascade_inv g0 failed g' F' S' /\ dependents_of g' F' = [].
Proof.
  intros W0. revert g F S. induction fuel as [|fuel IH]; intros g F S Hinv Hf; simpl;
    pose proof (cascade_inv_step g0 failed g F S Hinv) as Hstep;
    (destruct (dependents_of g F) as [|x l] eqn:Ed; [by exists g, F, S|]);
    destruct (fold_left skip_one (x :: l) (g, F, S)) as [[g' F'] S'] eqn:Es;
    pose proof (skip_fold _ _ _ _ _ _ _ Es) as (HS&_);
    pose proof (cascade_inv_size _ _ _ _ _ W0 Hstep) as Hsz;
    rewrite HS, length_app in Hsz; simpl in Hsz.
  - lia.
  - simpl in Es. rewrite Es. apply (IH g' F' S'); [done|]. rewrite HS, length_app. simpl. lia.
Qed.

Lemma cascade_done g0 failed g F S x :
  cascade_inv g0 failed g F S -> dependents_of g F = [] -> blocked g0 failed x -> x ∈ S.
Proof.
  intros [W HF _ _ HG] Hd Hb.
  assert (forall t tk d, graph_get g0 t = Some tk -> is_terminal (t_status tk) = false ->
    d ∈ dependencies tk -> d ∈ F -> t ∈ S) as Hclosed.
  { intros t tk d Ht Hn Hdep Hf. destruct (decide (t ∈ S)) as [|Hni]; [done|]. exfalso.
    apply (not_elem_of_nil t). rewrite <- Hd. apply dependents_of_spec; [done|].
    exists tk. rewrite HG, bool_decide_false by done. eauto. }
  induction Hb as [t tk Ht Hn Hdep|t tk d Ht Hn Hdep _ IH].
  - eapply Hclosed; eauto. apply HF. auto.
  - eapply Hclosed; eauto. apply HF. auto.
Qed.

Lemma cascade_skip_runs g failed :
  wf_graph g -> exists g' F S, cascade_skip g failed = Some (g', S) /\
    cascade_inv g failed g' F S /\ dependents_of g' F = [].
Proof.
  intros W. unfold cascade_skip.
  assert (cascade_inv g failed g [failed] []) as H0.
  { split; [done| |constructor|set_solver|].
    - intros x. set_solver.
    - intros id. rewrite bool_decide_false by set_solver. done. }
  destruct (cascade_loop_runs g failed (length (g_tasks g)) g [failed] [] W H0) as (g'&F&S&?&?&?).
  { simpl. lia. }
  by exists g', F, S.
Qed.

(** ** Readiness *)

Lemma deps_completed_spec g t :
  deps_completed g t = true <->
  forall d, d ∈ dependencies t -> exists dt, graph_get g d = Some dt /\ t_status dt = Completed.
Proof.
  unfold deps_completed. rewrite forallb_forall. split.
  - intros H d Hd. specialize (H d). rewrite <- list_elem_of_In in H. specialize (H Hd).
    destruct (graph_get g d) as [dt|]; [|done]. apply bool_decide_eq_true in H. eauto.
  - intros H d Hd%list_elem_of_In. destruct (H d Hd) as (dt&->&Hs). by apply bool_decide_eq_true.
Qed.

Lemma elem_of_ready_tasks g t :
  wf_graph g ->
  t ∈ ready_tasks g <->
  graph_get g (t_id t) = Some t /\ is_waiting (t_status t) = true /\
  forall d, d ∈ dependencies t -> exists dt, graph_get g d = Some dt /\ t_status dt = Completed.
Proof.
  intros W. unfold ready_tasks. rewrite elem_of_stable_sort, list_elem_of_In, filter_In, filter_In.
  rewrite <- list_elem_of_In, (elem_of_graph_iter g W), deps_completed_spec. tauto.
Qed.

(** A waiting or running task never depends on one that ended without
    completing, except possibly on [x]. *)
Definition failure_closed_but (x : option TaskId) (g : TaskGraph) : Prop :=
  forall id t d dt, graph_get g id = Some t -> is_terminal (t_status t) = false ->
    d ∈ dependencies t -> graph_get g d = Some dt -> is_terminal (t_status dt) = true ->
    Some d <> x -> t_status dt = Completed.

Abbreviation failure_closed := (failure_closed_but None).

Definition nothing_running (g : TaskGraph) : Prop :=
  forall id t, graph_get g id = Some t -> t_status t <> Running.

(** Skipping what a failure blocks restores closure. *)
Lemma cascade_inv_closed g failed g' F S :
  cascade_inv g failed g' F S -> dependents_of g' F = [] ->
  failure_closed_but (Some failed) g -> failure_closed g'.
Proof.
  intros Hinv Hd Hc id t d dt Hg Ht Hdep Hgd Htd _.
  pose proof Hinv as [W HF HN HB HG]. rewrite HG in Hg.
  case_bool_decide as Hs; [by destruct (graph_get g id); simplify_eq/=|].
  assert (d <> failed) as Hne.
  { intros ->. apply Hs. apply (cascade_done _ _ _ _ _ _ Hinv Hd). by eapply blocked_direct. }
  rewrite HG in Hgd. case_bool_decide as Hsd.
  - exfalso. apply Hs. apply (cascade_done _ _ _ _ _ _ Hinv Hd).
    eapply blocked_step; eauto.
  - apply (Hc id t d dt); try done. congruence.
Qed.

(** A closed plan in which nothing is running has something to run. *)
Lemma progresses g (W : wf_graph g) :
  no_dangling g -> acyclic g -> failure_closed g -> nothing_running g ->
  graph_complete g = false -> exists t, t ∈ ready_tasks g.
Proof.
  intros Hd Ha Hc Hr Hn.
  assert (exists id t, graph_get g id = Some t /\ is_terminal (t_status t) = false) as (id&t&Hg&Ht).
  { apply forallb_false_ex in Hn as (t&Hin&Ht).
    apply (elem_of_graph_values g W) in Hin. eauto. }
  pose proof (depends_sn g id W Ha Hd) as Hsn. revert t Hg Ht.
  induction Hsn as [id _ IH]. intros t Hg Ht.
  destruct (deps_completed g t) eqn:Edc.
  - exists t. apply (elem_of_ready_tasks g t W).
    rewrite (wf_ids g W _ _ Hg). split_and!; [done| |by apply deps_completed_spec].
    specialize (Hr _ _ Hg). by destruct (t_status t).
  - assert (exists d dt, d ∈ dependencies t /\ graph_get g d = Some dt /\
      is_terminal (t_status dt) = false) as (d&dt&Hdep&Hgd&Htd).
    { unfold deps_completed in Edc. apply forallb_false_ex in Edc as (d&Hin&Hf).
      destruct (Hd id d) as [dt Hgd]; [by exists t|]. rewrite Hgd in Hf.
      exists d, dt. split_and!; [done..|].
      destruct (is_terminal (t_status dt)) eqn:E; [|done]. exfalso.
      rewrite bool_decide_true in Hf; [done|]. by apply (Hc id t d dt). }
    eapply (IH d); eauto. by exists t.
Qed.

(** ** A decision procedure for well-formedness *)

Fixpoint keys_increasing (l : list TaskId) : bool :=
  match l with
  | [] => true
  | x :: l' => forallb (fun y => match key_cmp x y with Lt => true | _ => false end) l'
               && keys_increasing l'
  end.

Definition wf_graphb (g : TaskGraph) : bool :=
  keys_increasing (bt_keys (g_tasks g)) && bool_decide (NoDup (g_order g)) &&
  forallb (fun id => contains (bt_keys (g_tasks g)) id) (g_order g) &&
  forallb (fun id => contains (g_order g) id) (bt_keys (g_tasks g)) &&
  forallb (fun p => bool_decide (t_id p.2 = p.1) &&
                    (Z.of_nat (length (dependencies p.2)) <? 2 ^ 64)) (g_tasks g).

Lemma keys_increasing_sorted l :
  keys_increasing l = true -> StronglySorted (fun a b => key_cmp a b = Lt) l.
Proof.
  induction l as [|x l IH]; [constructor|]. cbn [keys_increasing]. intros H. destruct_bools.
  constructor; [auto|]. rewrite forallb_forall in H. rewrite Forall_forall.
  intros y Hy%list_elem_of_In%H. by destruct (key_cmp x y).
Qed.

Lemma wf_graphb_sound g : wf_graphb g = true -> wf_graph g.
Proof.
  unfold wf_graphb. intros H. destruct_bools.
  assert (forall id t, graph_get g id = Some t -> t_id t = id /\
    Z.of_nat (length (dependencies t)) < 2 ^ 64) as Hall.
  { intros id t Hg%bt_get_elem_of%list_elem_of_In. rewrite forallb_forall in H0.
    specialize (H0 _ Hg). simpl in H0. destruct_bools. split; [done|lia]. }
  rewrite !forallb_forall in *.
  split.
  - by apply keys_increasing_sorted.
  - done.
  - intros id. split; intros Hin%list_elem_of_In.
    + apply H2, contains_true in Hin. done.
    + apply H1, contains_true in Hin. done.
  - intros id t Hg. apply (Hall _ _ Hg).
  - intros id t Hg. apply (Hall _ _ Hg).
Qed.

Lemma validate_ok_inv g (W : wf_graph g) :
  validate g = Some (Ok tt) -> no_dangling g /\ no_repeats g /\ acyclic g.
Proof.
  intros Hv. destruct (find_dangling g) as [[t d]|] eqn:E.
  { unfold validate in Hv. by rewrite E in Hv. }
  apply (find_dangling_none g W) in E. split; [done|].
  destruct (validate_cases g W E) as (P&m&Hi&He). rewrite He in Hv.
  destruct (Z.eqb_spec (Z.of_nat (length P)) (graph_len g)) as [Hl|]; [|done].
  unfold graph_len in Hl. eapply kahn_full; eauto. lia.
Qed.

(** What [validate] checks. *)
Record sound_plan (g : TaskGraph) : Prop := {
  sp_wf : wf_graph g;
  sp_dangling : no_dangling g;
  sp_repeats : no_repeats g;
  sp_acyclic : acyclic g;
}.

Lemma sound_plan_validates g : sound_plan g -> validate g = Some (Ok tt).
Proof.
  intros [W Hd Hr Ha]. destruct (validate_cases g W Hd) as (P&m&Hi&->).
  pose proof (kahn_drains g W P m Hi Hd Hr Ha) as Hge.
  destruct Hi as [I1 I2 _ _ _]. rewrite app_nil_r in *.
  pose proof (nodup_incl_length _ _ I1 I2) as Hle. rewrite keys_length in Hle.
  unfold graph_len. by rewrite (proj2 (Z.eqb_eq _ _)) by lia.
Qed.

Lemma validates_sound_plan g : wf_graph g -> validate g = Some (Ok tt) -> sound_plan g.
Proof. intros W Hv. destruct (validate_ok_inv g W Hv) as (?&?&?). by split. Qed.

(** [validate] always ends. *)
Lemma validate_total g : wf_graph g -> exists r, validate g = Some r.
Proof.
  intros W. destruct (find_dangling g) as [[t d]|] eqn:E.
  - eexists. unfold validate. by rewrite E.
  - apply (find_dangling_none g W) in E. destruct (validate_cases g W E) as (P&m&_&->). by eexists.
Qed.

Lemma graph_iter_add g t :
  wf_graph g -> graph_get g (t_id t) = None -> graph_iter (graph_add g t).1 = (graph_iter g ++ [t])%list.
Proof.
  intros W Hfresh. unfold graph_iter.
  assert (g_order (graph_add g t).1 = (g_order g ++ [t_id t])%list) as ->
    by (unfold graph_add; rewrite Hfresh; done).
  rewrite omap_app. cbn [omap list_omap]. rewrite graph_get_add, bool_decide_eq_true_2 by done. f_equal.
  apply list_omap_ext, Forall_Forall2_diag, list.Forall_forall. intros id Hid.
  rewrite graph_get_add, bool_decide_eq_false_2; [done|]. intros ->.
  apply (wf_order_keys g W), bt_get_Some_keys in Hid.
  unfold graph_get in Hfresh. rewrite Hfresh in Hid. by destruct Hid.
Qed.

(** Adding a fresh task whose dependencies are distinct tasks of the graph. *)
Section AddTask.
Context (g : TaskGraph) (t : Task).
Hypothesis Hsound : sound_plan g.
Hypothesis Hfresh : graph_get g (t_id t) = None.
Hypothesis Hin : forall d, d ∈ dependencies t -> is_Some (graph_get g d).
Hypothesis Hnodup : NoDup (dependencies t).
Hypothesis Hsmall : Z.of_nat (length (dependencies t)) < 2 ^ 64.

Lemma depends_add x d :
  depends (graph_add g t).1 x d <-> (x = t_id t /\ d ∈ dependencies t) \/ depends g x d.
Proof.
  unfold depends. rewrite graph_get_add. case_bool_decide as Hx.
  - subst x. split.
    + intros (tk&[= <-]&?). by left.
    + intros [[_ ?]|(tk&Hg&_)]; [by exists t|]. congruence.
  - split; [by right|]. intros [[? _]|?]; [done|done].
Qed.

Lemma depends_old x d : depends g x d -> x <> t_id t.
Proof. intros (tk&Hg&_) ->. congruence. Qed.

Lemma depends_target x d : depends (graph_add g t).1 x d -> d <> t_id t.
Proof.
  rewrite depends_add. intros [[-> Hd]|Hd] ->.
  - apply Hin in Hd. rewrite Hfresh in Hd. by destruct Hd.
  - apply (sp_dangling g Hsound) in Hd. rewrite Hfresh in Hd. by destruct Hd.
Qed.

Lemma sound_plan_add : sound_plan (graph_add g t).1.
Proof.
  pose proof Hsound as [W Hd Hr Ha]. split.
  - by apply wf_graph_add.
  - intros x d Hdep. rewrite graph_get_add. case_bool_decide; [by eexists|].
    apply depends_add in Hdep as [[_ ?]|?]; [by apply Hin|by eapply Hd].
  - intros id t'. rewrite graph_get_add. case_bool_decide; [by intros [= <-]|apply Hr].
  - assert (forall x y, tc (depends (graph_add g t).1) x y -> x <> t_id t -> tc (depends g) x y) as Hold.
    { intros x y Htc. induction Htc as [x y Hs|x y z Hs _ IH]; intros Hx.
      - apply depends_add in Hs as [[? _]|?]; [done|by constructor].
      - pose proof (depends_target _ _ Hs) as Hy.
        apply depends_add in Hs as [[? _]|Hs]; [done|]. eapply tc_l; [done|by apply IH]. }
    intros x Htc. apply (Ha x), Hold; [done|].
    assert (forall x y, tc (depends (graph_add g t).1) x y -> y <> t_id t) as Hend.
    { induction 1 as [? ? Hs|? ? ? _ _ IH]; [by apply depends_target in Hs|done]. }
    by apply Hend in Htc.
Qed.
End AddTask.

(** Writes that keep identifiers and dependencies keep the plan sound. *)
Lemma depends_update f id g x d :
  (forall t, dependencies (f t) = dependencies t) ->
  depends (graph_update f id g) x d <-> depends g x d.
Proof.
  intros Hf. unfold depends. rewrite graph_get_update. case_bool_decide; [|done].
  destruct (graph_get g x) as [t|]; simpl; [|done]. split; intros (tk&[= <-]&Hd).
  - exists t. by rewrite Hf in Hd.
  - exists (f t). by rewrite Hf.
Qed.

Lemma sound_plan_update f id g :
  (forall t, t_id (f t) = t_id t) -> (forall t, dependencies (f t) = dependencies t) ->
  sound_plan g -> sound_plan (graph_update f id g).
Proof.
  intros Hid Hf [W Hd Hr Ha]. split.
  - by apply wf_graph_update.
  - intros x d Hdep%(depends_update f id g x d Hf)%Hd. rewrite graph_get_update.
    case_bool_decide; [|done]. destruct Hdep as [t ->]. by eexists.
  - intros x t'. rewrite graph_get_update. case_bool_decide; [|apply Hr].
    destruct (graph_get g x) as [t|] eqn:E; [|done]. intros [= <-]. rewrite Hf. by eapply Hr.
  - intros x Htc. apply (Ha x). revert Htc. generalize x at 1 3. intros y Htc. induction Htc as [y z Hs|y z w Hs _ IH].
    + constructor. by eapply depends_update.
    + eapply tc_l; [by eapply depends_update|done].
Qed.

(** ** Properties *)

(** C22: [TaskGraph::validate] accepts a well-formed graph exactly when every
    dependency names a task, no task lists a dependency twice, and no task
    transitively depends on itself. *)
Theorem validate_accepts g (W : wf_graph g) :
  validate g = Some (Ok tt) <-> no_dangling g /\ no_repeats g /\ acyclic g.
Proof.
  split.
  - by apply validate_ok_inv.
  - intros (Hd&Hr&Ha). by apply sound_plan_validates.
Qed.

(** [validate] always ends, and refuses with the right reason: a dangling
    dependency that really is one, or a cycle error only when dependencies are
    repeated or cyclic. *)
Theorem validate_refuses g (W : wf_graph g) :
  (~ no_dangling g -> exists t d, depends g t d /\ graph_get g d = None /\
     validate g = Some (Err (dangling_error t d))) /\
  (no_dangling g -> ~ (no_repeats g /\ acyclic g) -> validate g = Some (Err cycle_error)).
Proof.
  split.
  - intros Hn. destruct (find_dangling g) as [[t d]|] eqn:E.
    2: { apply (find_dangling_none g W) in E. done. }
    exists t, d. unfold validate. rewrite E. unfold find_dangling in E.
    apply head_Some_elem_of in E. rewrite list_elem_of_In, in_concat in E.
    destruct E as (l&(tk&<-&Htk)%in_map_iff&Hl).
    apply in_map_iff in Hl as (d'&[= <- <-]&[Hd Hc]%filter_In).
    apply list_elem_of_In, (elem_of_graph_iter g W) in Htk. apply list_elem_of_In in Hd.
    split_and!; [by exists tk| |done]. apply negb_true_iff in Hc.
    unfold bt_contains_key, graph_get in *. by destruct (bt_get d' (g_tasks g)).
  - intros Hd Hno. destruct (validate_cases g W Hd) as (P&m&Hi&->).
    destruct (Z.eqb_spec (Z.of_nat (length P)) (graph_len g)) as [Hl|]; [|done].
    exfalso. apply Hno. unfold graph_len in Hl. eapply kahn_full; eauto. lia.
Qed.

(** C24: [cascade_skip] always ends; it marks [Skipped] exactly the unfinished
    tasks that depend on the failed one, directly or through other blocked
    tasks, reports each once, and leaves every other task untouched. *)
Theorem cascade_skip_exact g failed (W : wf_graph g) :
  exists g' skipped, cascade_skip g failed = Some (g', skipped) /\
    NoDup skipped /\ (forall x, x ∈ skipped <-> blocked g failed x) /\
    wf_graph g' /\
    (forall id, graph_get g' id =
      if bool_decide (id ∈ skipped) then with_status Skipped <$> graph_get g id
      else graph_get g id).
Proof.
  destruct (cascade_skip_runs g failed W) as (g'&F&S&He&Hi&Hd).
  exists g', S. pose proof Hi as [W' HF HN HB HG]. split_and!; [done|done| |done|done].
  intros x. split; [by apply HB|]. by eapply cascade_done.
Qed.

(** [ready_tasks] returns exactly the waiting tasks all of whose
    dependencies completed, highest priority first, ties in planner order. *)
Theorem ready_tasks_spec g (W : wf_graph g) :
  (forall t, t ∈ ready_tasks g <->
    graph_get g (t_id t) = Some t /\ is_waiting (t_status t) = true /\
    forall d, d ∈ dependencies t ->
      exists dt, graph_get g d = Some dt /\ t_status dt = Completed) /\
  StronglySorted (fun a b => sp_priority (t_spec b) <= sp_priority (t_spec a)) (ready_tasks g) /\
  (forall p, List.filter (fun t => sp_priority (t_spec t) =? p) (ready_tasks g) =
    List.filter (fun t => sp_priority (t_spec t) =? p)
      (List.filter (deps_completed g)
        (List.filter (fun t => is_waiting (t_status t)) (graph_iter g)))).
Proof.
  split_and!.
  - intros t. by apply elem_of_ready_tasks.
  - unfold ready_tasks. set (l := List.filter _ _).
    assert (StronglySorted (fun a b => (sp_priority (t_spec b) <=? sp_priority (t_spec a)) = true)
      (stable_sort (fun a b => sp_priority (t_spec b) <=? sp_priority (t_spec a)) l)) as Hs.
    { apply (stable_sort_sorted _ (fun _ => True)).
      - intros a b _ _. lia.
      - intros a b c _ _ _. lia.
      - by apply Forall_true. }
    induction Hs as [|x l' Hs IH Hx]; constructor; [done|].
    eapply Forall_impl; [exact Hx|]. simpl. intros. lia.
  - intros p. apply stable_sort_stable. intros a b Ha Hb. lia.
Qed.

(** A validated graph in which nothing is running and no unfinished task
    depends on an unsuccessful one either is complete or has a ready task: the
    plan can always make progress. *)
Theorem validated_graph_progresses g (W : wf_graph g) :
  validate g = Some (Ok tt) -> failure_closed g -> nothing_running g ->
  graph_complete g = false -> exists t, t ∈ ready_tasks g.
Proof.
  intros Hv Hc Hr Hn. destruct (validate_ok_inv g W Hv) as (Hd&_&Ha). by apply (progresses g W).
Qed.

(** ** Witnesses *)

(** Two tasks, the second depending on the first. *)
Definition sample_graph : TaskGraph :=
  let a := task_with_id "a" (spec_new "look" Inspection) in
  let b := task_with_id "b" (depends_on "a" (spec_new "test" TTesting)) in
  (graph_add (graph_add graph_new a).1 b).1.

Lemma sample_graph_wf : wf_graph sample_graph.
Proof. apply wf_graphb_sound. vm_compute. reflexivity. Qed.

(** The same graph with a dependency on a task that does not exist. *)
Definition dangling_graph : TaskGraph :=
  (graph_add graph_new (task_with_id "b" (depends_on "a" (spec_new "test" TTesting)))).1.

Lemma dangling_graph_wf : wf_graph dangling_graph.
Proof. apply wf_graphb_sound. vm_compute. reflexivity. Qed.

Lemma validate_accepts_witness : no_dangling sample_graph /\ no_repeats sample_graph /\ acyclic sample_graph.
Proof. apply (validate_accepts sample_graph sample_graph_wf). vm_compute. reflexivity. Defined.

Lemma validate_refuses_witness :
  exists t d, depends dangling_graph t d /\ graph_get dangling_graph d = None /\
    validate dangling_graph = Some (Err (dangling_error t d)).
Proof.
  apply (validate_refuses dangling_graph dangling_graph_wf).
  intros Hd. destruct (Hd "b" "a") as [t Ht]; [|discriminate Ht].
  exists (task_with_id "b" (depends_on "a" (spec_new "test" TTesting))).
  split; [reflexivity|]. by apply list_elem_of_singleton.
Defined.

Lemma cascade_skip_exact_witness : exists g' skipped, cascade_skip sample_graph "a" = Some (g', skipped) /\ NoDup skipped.
Proof.
  destruct (cascade_skip_exact sample_graph "a" sample_graph_wf) as (g'&s&He&Hn&_). by exists g', s.
Defined.

Lemma ready_tasks_spec_witness :
  StronglySorted (fun a b => sp_priority (t_spec b) <= sp_priority (t_spec a)) (ready_tasks sample_graph).
Proof. apply (ready_tasks_spec sample_graph sample_graph_wf). Defined.

Lemma validated_graph_progresses_witness : exists t, t ∈ ready_tasks sample_graph.
Proof.
  apply (validated_graph_progresses sample_graph sample_graph_wf); [vm_compute; reflexivity| | |vm_compute; reflexivity].
  - intros id t d dt _ _ _ Hdt Hterm _.
    assert (t_status dt = Pending) as Hp.
    { apply bt_get_elem_of in Hdt. vm_compute in Hdt.
      repeat (apply elem_of_cons in Hdt as [[= -> ->]|Hdt]; [reflexivity|]). by apply not_elem_of_nil in Hdt. }
    rewrite Hp in *. done.
  - intros id t Ht. apply bt_get_elem_of in Ht. vm_compute in Ht.
    repeat (apply elem_of_cons in Ht as [[= -> ->]|Ht]; [done|]). by apply not_elem_of_nil in Ht.
Defined.
