(* ===== verification/Agent.v ===== *)
(** * Agents and models ([cuma-core/src/agent.rs])

    What the router sees of an agent: descriptors, health, limits, prices and
    performance, each figure marked as reported, estimated or unknown. *)

From S2P Require Export Errors.
Open Scope string_scope.
Open Scope Z_scope.

Inductive AgentProtocol : Type := Acp | A2A | Native.

#[export] Instance AgentProtocol_eq_dec : EqDecision AgentProtocol.
Proof. solve_decision. Defined.

(** [Known<T>]. *)
Inductive Known (T : Type) : Type :=
  | Reported (v : T)
  | Estimated (v : T)
  | KUnknown.

Arguments Reported {T} v.
Arguments Estimated {T} v.
Arguments KUnknown {T}.

Definition known_value {T} (k : Known T) : option T :=
  match k with Reported v | Estimated v => Some v | KUnknown => None end.

Definition known_or {T} (k : Known T) (fallback : T) : T :=
  match known_value k with Some v => v | None => fallback end.

Definition is_reported {T} (k : Known T) : bool :=
  match k with Reported _ => true | _ => false end.

(** [HealthState]; [Unknown] is [HUnknown] here. *)
Inductive HealthState : Type := Healthy | Degraded | RateLimited | Unavailable | HUnknown.

#[export] Instance HealthState_eq_dec : EqDecision HealthState.
Proof. solve_decision. Defined.

Definition health_is_routable (h : HealthState) : bool :=
  match h with Healthy | Degraded | HUnknown => true | _ => false end.

(** Timestamps are nanoseconds. *)
Record AgentHealth := {
  h_state : HealthState;
  h_consecutive_failures : Z;
  h_last_latency_ms : Known Z;
  h_last_success : option Z;
  h_last_error : option string;
}.

Definition health_default : AgentHealth :=
  {| h_state := Healthy; h_consecutive_failures := 0; h_last_latency_ms := KUnknown;
     h_last_success := None; h_last_error := None |}.

Record AgentLimits := {
  max_concurrent_sessions : option Z;
  requests_per_minute : Known Z;
  tokens_per_minute : Known Z;
}.

Definition limits_default : AgentLimits :=
  {| max_concurrent_sessions := None; requests_per_minute := KUnknown;
     tokens_per_minute := KUnknown |}.

Record CostProfile := {
  input_per_mtok : Known f64;
  output_per_mtok : Known f64;
  cache_read_per_mtok : Known f64;
}.

Definition cost_default : CostProfile :=
  {| input_per_mtok := KUnknown; output_per_mtok := KUnknown; cache_read_per_mtok := KUnknown |}.

Definition MTOK : f64 := f64_of_Z 1000000.

(** [CostProfile::estimate]: never [Reported], and unknown as soon as one of
    the two prices is. *)
Definition estimate (c : CostProfile) (input_tokens output_tokens : Z) : Known f64 :=
  match known_value (input_per_mtok c), known_value (output_per_mtok c) with
  | Some input_price, Some output_price =>
      Estimated (f64_add (f64_mul (f64_div (f64_of_Z input_tokens) MTOK) input_price)
                         (f64_mul (f64_div (f64_of_Z output_tokens) MTOK) output_price))
  | _, _ => KUnknown
  end.

Record PerformanceProfile := {
  typical_latency_ms : Known Z;
  throughput_tps : Known f64;
  historical_success_rate : Known f64;
  coding_score : Known f64;
  reasoning_score : Known f64;
}.

Definition performance_default : PerformanceProfile :=
  {| typical_latency_ms := KUnknown; throughput_tps := KUnknown;
     historical_success_rate := KUnknown; coding_score := KUnknown; reasoning_score := KUnknown |}.

Inductive AgentAuth : Type :=
  | AgentManaged
  | SecretRef (handle : string)
  | AuthNone.

Record ModelDescriptor := {
  m_id : ModelId;
  m_agent_id : AgentId;
  m_name : string;
  m_provider : option string;
  m_context_window : Known Z;
  m_cost : CostProfile;
  m_performance : PerformanceProfile;
  m_capabilities : CapabilitySet;
  m_available : bool;
}.

(** [ModelDescriptor::minimal]. *)
Definition model_minimal (agent : AgentId) (id : ModelId) (name : string) : ModelDescriptor :=
  {| m_id := id; m_agent_id := agent; m_name := name; m_provider := None;
     m_context_window := KUnknown; m_cost := cost_default; m_performance := performance_default;
     m_capabilities := []; m_available := true |}.

Record AgentDescriptor := {
  a_id : AgentId;
  a_name : string;
  a_protocol : AgentProtocol;
  a_capabilities : CapabilitySet;
  a_models : list ModelDescriptor;
  a_health : AgentHealth;
  a_limits : AgentLimits;
  a_cost_profile : CostProfile;
  a_performance_profile : PerformanceProfile;
  a_auth : AgentAuth;
  a_enabled : bool;
  a_metadata : btree string string;
}.

(** [AgentDescriptor::new]. *)
Definition agent_new (id : AgentId) (name : string) (p : AgentProtocol) : AgentDescriptor :=
  {| a_id := id; a_name := name; a_protocol := p; a_capabilities := []; a_models := [];
     a_health := health_default; a_limits := limits_default; a_cost_profile := cost_default;
     a_performance_profile := performance_default; a_auth := AgentManaged; a_enabled := true;
     a_metadata := [] |}.

Definition with_capabilities (caps : CapabilitySet) (a : AgentDescriptor) : AgentDescriptor :=
  {| a_id := a_id a; a_name := a_name a; a_protocol := a_protocol a; a_capabilities := caps;
     a_models := a_models a; a_health := a_health a; a_limits := a_limits a;
     a_cost_profile := a_cost_profile a; a_performance_profile := a_performance_profile a;
     a_auth := a_auth a; a_enabled := a_enabled a; a_metadata := a_metadata a |}.

Definition with_models (models : list ModelDescriptor) (a : AgentDescriptor) : AgentDescriptor :=
  {| a_id := a_id a; a_name := a_name a; a_protocol := a_protocol a;
     a_capabilities := a_capabilities a; a_models := models; a_health := a_health a;
     a_limits := a_limits a; a_cost_profile := a_cost_profile a;
     a_performance_profile := a_performance_profile a;
     a_auth := a_auth a; a_enabled := a_enabled a; a_metadata := a_metadata a |}.

(** [AgentDescriptor::with_model]. *)
Definition with_model (m : ModelDescriptor) (a : AgentDescriptor) : AgentDescriptor :=
  with_models (a_models a ++ [m])%list a.

Definition with_health (h : AgentHealth) (a : AgentDescriptor) : AgentDescriptor :=
  {| a_id := a_id a; a_name := a_name a; a_protocol := a_protocol a;
     a_capabilities := a_capabilities a; a_models := a_models a; a_health := h;
     a_limits := a_limits a; a_cost_profile := a_cost_profile a;
     a_performance_profile := a_performance_profile a;
     a_auth := a_auth a; a_enabled := a_enabled a; a_metadata := a_metadata a |}.

Definition with_enabled (b : bool) (a : AgentDescriptor) : AgentDescriptor :=
  {| a_id := a_id a; a_name := a_name a; a_protocol := a_protocol a;
     a_capabilities := a_capabilities a; a_models := a_models a; a_health := a_health a;
     a_limits := a_limits a; a_cost_profile := a_cost_profile a;
     a_performance_profile := a_performance_profile a;
     a_auth := a_auth a; a_enabled := b; a_metadata := a_metadata a |}.

(** [AgentDescriptor::is_routable]. *)
Definition agent_is_routable (a : AgentDescriptor) : bool :=
  a_enabled a && health_is_routable (h_state (a_health a)).

(** [AgentDescriptor::effective_capabilities]. *)
Definition effective_capabilities (a : AgentDescriptor) (m : option ModelDescriptor) : CapabilitySet :=
  match m with
  | Some m => fold_left (fun s c => caps_insert c s) (m_capabilities m) (a_capabilities a)
  | None => a_capabilities a
  end.

(** [AgentDescriptor::model]. *)
Definition agent_model (a : AgentDescriptor) (id : ModelId) : option ModelDescriptor :=
  List.find (fun m => bool_decide (m_id m = id)) (a_models a).

Lemma elem_of_effective a m c :
  c ∈ effective_capabilities a m <->
  c ∈ a_capabilities a \/ exists md, m = Some md /\ c ∈ m_capabilities md.
Proof.
  unfold effective_capabilities. destruct m as [md|]; [|naive_solver].
  change (c ∈ bs_extend (a_capabilities a) (m_capabilities md) <->
    c ∈ a_capabilities a \/ exists md0, Some md = Some md0 /\ c ∈ m_capabilities md0).
  rewrite bs_elem_of_extend. naive_solver.
Qed.

Lemma estimate_known c i o :
  (exists x, estimate c i o = Estimated x) \/ estimate c i o = KUnknown.
Proof. unfold estimate. repeat case_match; eauto. Qed.

(** Asking for a model the agent does not offer finds nothing; a found model is
    one of the agent's and carries the requested identifier. *)
Lemma agent_model_spec a id md :
  agent_model a id = Some md -> md ∈ a_models a /\ m_id md = id.
Proof.
  intros [Hin Hid]%find_some. apply bool_decide_eq_true in Hid.
  by rewrite list_elem_of_In.
Qed.
