(* ===== verification/Handoff.v ===== *)
(** * Handoffs ([cuma-core/src/handoff.rs])

    The structured summary one agent leaves to the next, and the prompt it is
    rendered to. *)

From S2P Require Export Capability.
Open Scope string_scope.
Open Scope Z_scope.

Record AgentHandoff := {
  ho_task_id : TaskId;
  ho_task_description : string;
  ho_from_agent : AgentId;
  ho_to_agent : option AgentId;
  ho_completed_work : list string;
  ho_remaining_work : list string;
  ho_decisions : list string;
  ho_changed_files : list string;
  ho_relevant_context : list string;
  ho_warnings : list string;
  ho_validation_results : list string;
  ho_reason : string;
}.

(** [AgentHandoff::new]. *)
Definition handoff_new (task : TaskId) (description : string) (from : AgentId) (reason : string)
  : AgentHandoff :=
  {| ho_task_id := task; ho_task_description := description; ho_from_agent := from;
     ho_to_agent := None; ho_completed_work := []; ho_remaining_work := []; ho_decisions := [];
     ho_changed_files := []; ho_relevant_context := []; ho_warnings := [];
     ho_validation_results := []; ho_reason := reason |}.

Definition handoff_to (a : AgentId) (h : AgentHandoff) : AgentHandoff :=
  {| ho_task_id := ho_task_id h; ho_task_description := ho_task_description h;
     ho_from_agent := ho_from_agent h; ho_to_agent := Some a;
     ho_completed_work := ho_completed_work h; ho_remaining_work := ho_remaining_work h;
     ho_decisions := ho_decisions h; ho_changed_files := ho_changed_files h;
     ho_relevant_context := ho_relevant_context h; ho_warnings := ho_warnings h;
     ho_validation_results := ho_validation_results h; ho_reason := ho_reason h |}.

Definition handoff_completed (i : string) (h : AgentHandoff) : AgentHandoff :=
  {| ho_task_id := ho_task_id h; ho_task_description := ho_task_description h;
     ho_from_agent := ho_from_agent h; ho_to_agent := ho_to_agent h;
     ho_completed_work := (ho_completed_work h ++ [i])%list;
     ho_remaining_work := ho_remaining_work h;
     ho_decisions := ho_decisions h; ho_changed_files := ho_changed_files h;
     ho_relevant_context := ho_relevant_context h; ho_warnings := ho_warnings h;
     ho_validation_results := ho_validation_results h; ho_reason := ho_reason h |}.

Definition handoff_remaining (i : string) (h : AgentHandoff) : AgentHandoff :=
  {| ho_task_id := ho_task_id h; ho_task_description := ho_task_description h;
     ho_from_agent := ho_from_agent h; ho_to_agent := ho_to_agent h;
     ho_completed_work := ho_completed_work h;
     ho_remaining_work := (ho_remaining_work h ++ [i])%list;
     ho_decisions := ho_decisions h; ho_changed_files := ho_changed_files h;
     ho_relevant_context := ho_relevant_context h; ho_warnings := ho_warnings h;
     ho_validation_results := ho_validation_results h; ho_reason := ho_reason h |}.

Definition handoff_warning (i : string) (h : AgentHandoff) : AgentHandoff :=
  {| ho_task_id := ho_task_id h; ho_task_description := ho_task_description h;
     ho_from_agent := ho_from_agent h; ho_to_agent := ho_to_agent h;
     ho_completed_work := ho_completed_work h; ho_remaining_work := ho_remaining_work h;
     ho_decisions := ho_decisions h; ho_changed_files := ho_changed_files h;
     ho_relevant_context := ho_relevant_context h; ho_warnings := (ho_warnings h ++ [i])%list;
     ho_validation_results := ho_validation_results h; ho_reason := ho_reason h |}.

Definition handoff_changed_file (i : string) (h : AgentHandoff) : AgentHandoff :=
  {| ho_task_id := ho_task_id h; ho_task_description := ho_task_description h;
     ho_from_agent := ho_from_agent h; ho_to_agent := ho_to_agent h;
     ho_completed_work := ho_completed_work h; ho_remaining_work := ho_remaining_work h;
     ho_decisions := ho_decisions h; ho_changed_files := (ho_changed_files h ++ [i])%list;
     ho_relevant_context := ho_relevant_context h; ho_warnings := ho_warnings h;
     ho_validation_results := ho_validation_results h; ho_reason := ho_reason h |}.

Definition push_items (out : string) (items : list string) : string :=
  fold_left (fun out item => out +:+ ("- " +:+ item +:+ NL)) items out.

Definition push_section (out : string) (section : string * list string) : string :=
  let '(heading, items) := section in
  match items with
  | [] => out
  | _ => push_items (out +:+ (NL +:+ "### " +:+ heading +:+ NL)) items
  end.

Definition handoff_sections (h : AgentHandoff) : list (string * list string) :=
  [("Already done", ho_completed_work h);
   ("Still to do", ho_remaining_work h);
   ("Decisions made (do not revisit)", ho_decisions h);
   ("Files changed", ho_changed_files h);
   ("Warnings", ho_warnings h);
   ("Validation results", ho_validation_results h)].

(** [AgentHandoff::to_prompt]. *)
Definition to_prompt (h : AgentHandoff) : string :=
  let out := "## Handoff" +:+ NL +:+ NL in
  let out := out +:+ ("Task: " +:+ ho_task_description h +:+ NL) in
  let out := out +:+ ("Previous agent: " +:+ ho_from_agent h +:+ " (handed over because: "
                      +:+ ho_reason h +:+ ")" +:+ NL) in
  let out := fold_left push_section (handoff_sections h) out in
  match ho_relevant_context h with
  | [] => out
  | ctx => fold_left (fun out item => (out +:+ item) +:+ NL) ctx (out +:+ (NL +:+ "### Context" +:+ NL))
  end.

(** ** Rendering as concatenation *)

(** The lines one section contributes. *)
Definition section_lines (section : string * list string) : list string :=
  match section.2 with
  | [] => []
  | items => (NL +:+ "### " +:+ section.1 +:+ NL) :: map (fun i => "- " +:+ i +:+ NL) items
  end.

Definition context_lines (ctx : list string) : list string :=
  match ctx with
  | [] => []
  | _ => (NL +:+ "### Context" +:+ NL) :: map (fun i => i +:+ NL) ctx
  end.

Definition str_concat (l : list string) : string := fold_right String.append "" l.

Lemma str_concat_app a b : str_concat (a ++ b) = str_concat a +:+ str_concat b.
Proof.
  induction a as [|x a IH]; [done|]. cbn [app str_concat fold_right] in *.
  rewrite str_app_assoc. f_equal. exact IH.
Qed.

Lemma push_items_concat out items :
  push_items out items = out +:+ str_concat (map (fun i => "- " +:+ i +:+ NL) items).
Proof.
  unfold push_items. revert out. induction items as [|i items IH]; intros out; simpl.
  - by rewrite str_app_nil_r.
  - rewrite IH. by rewrite str_app_assoc.
Qed.

Lemma push_section_concat out s : push_section out s = out +:+ str_concat (section_lines s).
Proof.
  destruct s as [h [|i items]]; simpl; [by rewrite str_app_nil_r|].
  unfold push_items. simpl. fold (push_items ((out +:+ (NL +:+ "### " +:+ h +:+ NL)) +:+ ("- " +:+ i +:+ NL)) items).
  rewrite push_items_concat. by rewrite !str_app_assoc.
Qed.

Lemma push_sections_concat ss out :
  fold_left push_section ss out = out +:+ str_concat (concat (map section_lines ss)).
Proof.
  revert out. induction ss as [|s ss IH]; intros out; simpl; [by rewrite str_app_nil_r|].
  rewrite IH, push_section_concat, str_concat_app. by rewrite str_app_assoc.
Qed.

Lemma push_context_concat ctx out :
  fold_left (fun out item => (out +:+ item) +:+ NL) ctx out =
  out +:+ str_concat (map (fun i => i +:+ NL) ctx).
Proof.
  revert out. induction ctx as [|c ctx IH]; intros out; simpl; [by rewrite str_app_nil_r|].
  rewrite IH. by rewrite !str_app_assoc.
Qed.

(** The handoff prompt is its heading, the task, the abandoned agent with
    the reason, then each non-empty section in a fixed order with one bullet
    per item, then the context verbatim: no item is lost, repeated or moved to
    another section, and an empty section leaves no heading. *)
Theorem to_prompt_layout h :
  to_prompt h =
  "## Handoff" +:+ NL +:+ NL +:+ "Task: " +:+ ho_task_description h +:+ NL +:+
  "Previous agent: " +:+ ho_from_agent h +:+ " (handed over because: " +:+ ho_reason h
    +:+ ")" +:+ NL +:+
  str_concat (concat (map section_lines (handoff_sections h)) ++ context_lines (ho_relevant_context h)).
Proof.
  unfold to_prompt. cbv zeta. rewrite push_sections_concat, str_concat_app.
  destruct (ho_relevant_context h) as [|c ctx] eqn:E.
  - cbn [context_lines str_concat fold_right]. by rewrite str_app_nil_r, !str_app_assoc.
  - rewrite push_context_concat. cbn [context_lines str_concat fold_right].
    by rewrite !str_app_assoc.
Qed.
