(* ===== verification/Event.v ===== *)
(** * Events ([cuma-core/src/event.rs])

    What the harness announces.  The bus itself is [tokio]'s broadcast channel;
    the model of the orchestrator keeps the sequence of published events. *)

From S2P Require Export Task Agent.
Open Scope string_scope.
Open Scope Z_scope.

Inductive EventKind : Type :=
  | SessionStarted (goal : string)
  | SessionCompleted (success : bool)
  | TaskPlanned (task_count : Z)
  | TaskCreated (description : string)
  | TaskStatusChanged (status : TaskStatus)
  | TaskCompleted (tokens : TokenUsage)
  | TaskFailed (reason : string)
  | TaskSkipped (blocked_by : TaskId)
  | AgentSelected (agent : AgentId) (model : option ModelId) (score : f64) (explanation : string)
  | RoutingFailed (reason : string)
  | AgentStarted (agent : AgentId)
  | AgentOutputReceived (chunk : string)
  | AgentFailed (agent : AgentId) (class : ErrorClass) (message : string)
  | RetryScheduled (attempt : Z) (delay_ms : Z) (reason : string)
  | FallbackSelected (from to : AgentId) (reason : string)
  | CircuitBreakerChanged (agent : AgentId) (state : string)
  | HandoffPerformed (from to : AgentId)
  | SkillInstalled (skill : string) (trust : string)
  | SkillRejected (skill : string) (reason : string)
  | UsageRecorded (tokens : TokenUsage) (estimated_cost_usd : option f64).

Record Event := {
  ev_at : Z;
  ev_session_id : SessionId;
  ev_task_id : option TaskId;
  ev_attempt_id : option AttemptId;
  ev_kind : EventKind;
}.

(** [Event::session]; the clock reading is the first argument. *)
Definition event_session (at_ : Z) (s : SessionId) (k : EventKind) : Event :=
  {| ev_at := at_; ev_session_id := s; ev_task_id := None; ev_attempt_id := None; ev_kind := k |}.

(** [Event::task]. *)
Definition event_task (at_ : Z) (s : SessionId) (t : TaskId) (k : EventKind) : Event :=
  {| ev_at := at_; ev_session_id := s; ev_task_id := Some t; ev_attempt_id := None; ev_kind := k |}.

(** [Event::with_attempt]. *)
Definition with_attempt (a : AttemptId) (e : Event) : Event :=
  {| ev_at := ev_at e; ev_session_id := ev_session_id e; ev_task_id := ev_task_id e;
     ev_attempt_id := Some a; ev_kind := ev_kind e |}.
