(* ===== verification/Breaker.v ===== *)
(** * Circuit breakers ([cuma-resilience/src/breaker.rs])

    The breaker state machine and the registry of breakers keyed per agent and
    per agent and model.  Instants are nanoseconds on the monotonic clock and
    are arguments, as they are in the code. *)

From S2P Require Export Agent.
Open Scope string_scope.
Open Scope Z_scope.

Inductive BreakerState : Type := Closed | Open | HalfOpen.

#[export] Instance BreakerState_eq_dec : EqDecision BreakerState.
Proof. solve_decision. Defined.

Definition breaker_state_debug (s : BreakerState) : string :=
  match s with Closed => "Closed" | Open => "Open" | HalfOpen => "HalfOpen" end.

(** [BreakerState::to_health]. *)
Definition to_health (s : BreakerState) : HealthState :=
  match s with Closed => Healthy | Open => Unavailable | HalfOpen => Degraded end.

Record BreakerConfig := {
  failure_threshold : Z;
  success_threshold : Z;
  cooldown_ms : Z;
}.

Definition breaker_config_default : BreakerConfig :=
  {| failure_threshold := 3; success_threshold := 1; cooldown_ms := 30000 |}.

Record CircuitBreaker := {
  cb_config : BreakerConfig;
  cb_state : BreakerState;
  consecutive_failures : Z;
  consecutive_successes : Z;
  opened_at : option Z;
  last_error : option string;
}.

(** [CircuitBreaker::new]. *)
Definition breaker_new (config : BreakerConfig) : CircuitBreaker :=
  {| cb_config := config; cb_state := Closed; consecutive_failures := 0;
     consecutive_successes := 0; opened_at := None; last_error := None |}.

Definition NANOS_PER_MS : Z := 1000000.

(** [Instant::duration_since] saturates at zero. *)
Definition duration_since (now earlier : Z) : Z := Z.max 0 (now - earlier).

(** [CircuitBreaker::state_at]. *)
Definition state_at (now : Z) (b : CircuitBreaker) : CircuitBreaker * BreakerState :=
  let b' :=
    match cb_state b, opened_at b with
    | Open, Some t =>
        if cooldown_ms (cb_config b) * NANOS_PER_MS <=? duration_since now t then
          {| cb_config := cb_config b; cb_state := HalfOpen;
             consecutive_failures := consecutive_failures b; consecutive_successes := 0;
             opened_at := opened_at b; last_error := last_error b |}
        else b
    | _, _ => b
    end in
  (b', cb_state b').

(** [CircuitBreaker::allows_request]. *)
Definition allows_request (now : Z) (b : CircuitBreaker) : CircuitBreaker * bool :=
  let '(b', s) := state_at now b in (b', negb (bool_decide (s = Open))).

(** [CircuitBreaker::record_success]. *)
Definition record_success (b : CircuitBreaker) : CircuitBreaker :=
  match cb_state b with
  | HalfOpen =>
      let n := wrap32 (consecutive_successes b + 1) in
      if success_threshold (cb_config b) <=? n then
        {| cb_config := cb_config b; cb_state := Closed; consecutive_failures := 0;
           consecutive_successes := 0; opened_at := None; last_error := None |}
      else
        {| cb_config := cb_config b; cb_state := HalfOpen; consecutive_failures := 0;
           consecutive_successes := n; opened_at := opened_at b; last_error := None |}
  | Closed =>
      {| cb_config := cb_config b; cb_state := Closed; consecutive_failures := 0;
         consecutive_successes := consecutive_successes b; opened_at := opened_at b;
         last_error := None |}
  | Open =>
      {| cb_config := cb_config b; cb_state := HalfOpen; consecutive_failures := 0;
         consecutive_successes := 1; opened_at := opened_at b; last_error := None |}
  end.

(** [CircuitBreaker::record_failure]. *)
Definition record_failure (class : ErrorClass) (message : string) (now : Z)
    (b : CircuitBreaker) : CircuitBreaker :=
  if negb (counts_against_health class) then b else
  let n := wrap32 (consecutive_failures b + 1) in
  let '(s, t) :=
    match cb_state b with
    | HalfOpen => (Open, Some now)
    | Closed => if failure_threshold (cb_config b) <=? n then (Open, Some now)
                else (Closed, opened_at b)
    | Open => (Open, Some now)
    end in
  {| cb_config := cb_config b; cb_state := s; consecutive_failures := n;
     consecutive_successes := 0; opened_at := t; last_error := Some message |}.

(** ** The registry *)

Inductive BreakerKey : Type :=
  | KAgent (a : AgentId)
  | KModel (a : AgentId) (m : ModelId).

#[export] Instance BreakerKey_eq_dec : EqDecision BreakerKey.
Proof. solve_decision. Defined.

Definition breaker_key_rank (k : BreakerKey) : Z * (string * string) :=
  match k with KAgent a => (0, (a, "")) | KModel a m => (1, (a, m)) end.

Lemma breaker_key_rank_inj a b : breaker_key_rank a = breaker_key_rank b -> a = b.
Proof. destruct a, b; simpl; congruence. Qed.

#[export] Instance BreakerKey_OrdKey : OrdKey BreakerKey :=
  OrdKey_inj breaker_key_rank breaker_key_rank_inj.

Record CircuitBreakerRegistry := {
  cr_config : BreakerConfig;
  cr_breakers : Mutex (btree BreakerKey CircuitBreaker);
}.

Definition registry_new (config : BreakerConfig) : CircuitBreakerRegistry :=
  {| cr_config := config; cr_breakers := Some [] |}.

(** [CircuitBreakerRegistry::with_breaker]. *)
Definition with_breaker {T} (key : BreakerKey) (f : CircuitBreaker -> CircuitBreaker * T)
    (r : CircuitBreakerRegistry) : CircuitBreakerRegistry * option T :=
  match cr_breakers r with
  | None => (r, None)
  | Some m =>
      let b := match bt_get key m with Some b => b | None => breaker_new (cr_config r) end in
      let '(b', v) := f b in
      ({| cr_config := cr_config r; cr_breakers := Some (bt_insert key b' m) |}, Some v)
  end.

Definition unwrap_or {T} (d : T) (o : option T) : T := match o with Some v => v | None => d end.

Definition returning_unit (f : CircuitBreaker -> CircuitBreaker) (b : CircuitBreaker)
  : CircuitBreaker * unit := (f b, tt).

(** [CircuitBreakerRegistry::allows]. *)
Definition registry_allows (now : Z) (agent : AgentId) (model : option ModelId)
    (r : CircuitBreakerRegistry) : CircuitBreakerRegistry * bool :=
  let '(r, agent_ok) := with_breaker (KAgent agent) (allows_request now) r in
  if negb (unwrap_or true agent_ok) then (r, false)
  else match model with
       | Some m =>
           let '(r, ok) := with_breaker (KModel agent m) (allows_request now) r in
           (r, unwrap_or true ok)
       | None => (r, true)
       end.

(** [CircuitBreakerRegistry::health]. *)
Definition registry_health (now : Z) (agent : AgentId) (r : CircuitBreakerRegistry)
  : CircuitBreakerRegistry * HealthState :=
  let '(r, h) := with_breaker (KAgent agent)
    (fun b => let '(b', s) := state_at now b in (b', to_health s)) r in
  (r, unwrap_or HUnknown h).

(** [CircuitBreakerRegistry::record_success]. *)
Definition registry_record_success (agent : AgentId) (model : option ModelId)
    (r : CircuitBreakerRegistry) : CircuitBreakerRegistry :=
  let r := (with_breaker (KAgent agent) (returning_unit record_success) r).1 in
  match model with
  | Some m => (with_breaker (KModel agent m) (returning_unit record_success) r).1
  | None => r
  end.

(** [CircuitBreakerRegistry::record_failure]. *)
Definition registry_record_failure (now : Z) (agent : AgentId) (model : option ModelId)
    (class : ErrorClass) (message : string) (r : CircuitBreakerRegistry)
  : CircuitBreakerRegistry * BreakerState :=
  let fail := record_failure class message now in
  match bool_decide (class = ModelUnavailable), model with
  | true, Some m =>
      let r := (with_breaker (KModel agent m) (returning_unit fail) r).1 in
      let '(r, s) := with_breaker (KAgent agent) (state_at now) r in
      (r, unwrap_or Closed s)
  | _, _ =>
      let r := match model with
               | Some m => (with_breaker (KModel agent m) (returning_unit fail) r).1
               | None => r
               end in
      let '(r, s) := with_breaker (KAgent agent) (fun b => state_at now (fail b)) r in
      (r, unwrap_or Closed s)
  end.

Definition breaker_label (k : BreakerKey) : string :=
  match k with KAgent a => a | KModel a m => a +:+ "/" +:+ m end.

(** [CircuitBreakerRegistry::snapshot]. *)
Definition registry_snapshot (now : Z) (r : CircuitBreakerRegistry)
  : CircuitBreakerRegistry * list (string * BreakerState * Z) :=
  match cr_breakers r with
  | None => (r, [])
  | Some m =>
      let m' := map (fun kb => (kb.1, (state_at now kb.2).1)) m in
      ({| cr_config := cr_config r; cr_breakers := Some m' |},
       map (fun kb => (breaker_label kb.1, cb_state kb.2, consecutive_failures kb.2)) m')
  end.

(** ** Invariant, tripping, cooldown, isolation *)

(** ** Histories of one breaker *)

Inductive BreakerOp : Type :=
  | OpStateAt (now : Z)
  | OpSuccess
  | OpFailure (class : ErrorClass) (message : string) (now : Z).

Definition breaker_step (b : CircuitBreaker) (op : BreakerOp) : CircuitBreaker :=
  match op with
  | OpStateAt now => (state_at now b).1
  | OpSuccess => record_success b
  | OpFailure class message now => record_failure class message now b
  end.

Definition breaker_run (config : BreakerConfig) (h : list BreakerOp) : CircuitBreaker :=
  fold_left breaker_step h (breaker_new config).

(** The specification of the counters: the messages of the failures that count,
    newest first, since the last success. *)
Definition streak_step (l : list string) (op : BreakerOp) : list string :=
  match op with
  | OpStateAt _ => l
  | OpSuccess => []
  | OpFailure class message _ => if counts_against_health class then message :: l else l
  end.

Definition streak (h : list BreakerOp) : list string := fold_left streak_step h [].

(** What holds of every reachable breaker; [n] is the length of the streak. *)
Record breaker_inv (config : BreakerConfig) (l : list string) (b : CircuitBreaker) : Prop := {
  bi_config : cb_config b = config;
  bi_failures : consecutive_failures b = wrap32 (Z.of_nat (length l));
  bi_error : last_error b = head l;
  bi_closed : cb_state b = Closed ->
    Z.of_nat (length l) < Z.max 1 (failure_threshold config) /\
    consecutive_successes b = 0 /\ opened_at b = None;
  bi_open : cb_state b = Open -> is_Some (opened_at b) /\ consecutive_successes b = 0 /\ l <> [];
  bi_half : cb_state b = HalfOpen -> is_Some (opened_at b) /\
    0 <= consecutive_successes b <= Z.max 1 (success_threshold config - 1);
}.

Definition config_ok (c : BreakerConfig) : Prop :=
  is_u32 (failure_threshold c) /\ is_u32 (success_threshold c) /\ is_u64 (cooldown_ms c).

Lemma breaker_inv_new config : breaker_inv config [] (breaker_new config).
Proof. split; simpl; try done. intros _. split; [lia|done]. Qed.

Lemma wrap32_succ n : wrap32 (wrap32 n + 1) = wrap32 (n + 1).
Proof. unfold wrap32. rewrite Z.add_mod_idemp_l; lia. Qed.

Lemma breaker_inv_step config l b op :
  config_ok config -> breaker_inv config l b ->
  breaker_inv config (streak_step l op) (breaker_step b op).
Proof.
  intros (Cf&Cs&_) Hinv. pose proof Hinv as [I1 I2 I3 I4 I5 I6].
  destruct op as [now| |class message now]; simpl.
  - unfold state_at. destruct (cb_state b) eqn:E; simpl; try done.
    destruct (opened_at b) eqn:Eo; simpl; [|done].
    case_match; simpl; [|done]. split; simpl; try done. intros _. split; [by eauto|lia].
  - unfold record_success. rewrite I1. destruct (cb_state b) eqn:E.
    + destruct (I4 eq_refl) as (?&?&?). split; simpl; try done. intros _. split; [lia|done].
    + destruct (I5 eq_refl) as (?&?&?). split; simpl; try done. intros _. split; [done|lia].
    + destruct (I6 eq_refl) as (Ho&Hs).
      rewrite wrap32_small by (unfold is_u32, U32_MAX in *; lia).
      case_match; split; simpl; try done; intros _; split; (done || lia).
  - unfold record_failure. destruct (counts_against_health class); simpl; [|done].
    rewrite I2, wrap32_succ, I1.
    replace (Z.of_nat (length l) + 1) with (Z.of_nat (length (message :: l))) by (simpl; lia).
    destruct (cb_state b) eqn:E; cbn beta iota zeta; [|split; simpl; eauto; done..].
    destruct (I4 eq_refl) as (Hl&Hs&Ho).
    rewrite (wrap32_small (Z.of_nat (length (message :: l))))
      by (unfold is_u32, U32_MAX in *; simpl; lia).
    destruct (Z.leb_spec (failure_threshold config) (Z.of_nat (length (message :: l))));
      split; cbn -[Z.of_nat length]; try done;
      try (by rewrite wrap32_small by (unfold is_u32, U32_MAX in *; simpl; lia)).
    intros _. split; [lia|done].
Qed.

Lemma breaker_inv_run config h :
  config_ok config -> breaker_inv config (streak h) (breaker_run config h).
Proof.
  intros C. unfold streak, breaker_run. pose proof (breaker_inv_new config) as Hi. revert Hi.
  generalize (breaker_new config), (@nil string).
  induction h as [|op h IH]; intros b l Hi; simpl; [done|]. by apply IH, breaker_inv_step.
Qed.

(** ** Tripping *)

(** A run of failures that all count. *)
Definition failures (fs : list (ErrorClass * string * Z)) : list BreakerOp :=
  map (fun f => OpFailure f.1.1 f.1.2 f.2) fs.

Definition all_count (fs : list (ErrorClass * string * Z)) : Prop :=
  Forall (fun f => counts_against_health f.1.1 = true) fs.

Lemma streak_failures fs l :
  all_count fs ->
  length (fold_left streak_step (failures fs) l) = (length l + length fs)%nat.
Proof.
  intros Hc. revert l. induction Hc as [|f fs Hf _ IH]; intros l; simpl; [lia|].
  rewrite Hf, IH. simpl. lia.
Qed.

(** While closed or open, failures never make the breaker half-open, and an
    open breaker stays open with the clock of the last failure. *)
Lemma failure_closed_open b class message now :
  counts_against_health class = true -> cb_state b <> HalfOpen ->
  cb_state (record_failure class message now b) <> HalfOpen /\
  (cb_state b = Open -> cb_state (record_failure class message now b) = Open) /\
  (cb_state (record_failure class message now b) = Open ->
    opened_at (record_failure class message now b) = Some now).
Proof.
  intros Hc Hs. unfold record_failure. rewrite Hc. simpl.
  destruct (cb_state b); [|done|done]. case_match; simpl in *; simplify_eq; split_and!; try done;
    by case_match; simplify_eq.
Qed.

Lemma failures_closed_open fs b :
  all_count fs -> cb_state b <> HalfOpen ->
  cb_state (fold_left breaker_step (failures fs) b) <> HalfOpen.
Proof.
  intros Hc. revert b. induction Hc as [|f fs Hf _ IH]; intros b Hs; simpl; [done|].
  apply IH. by apply failure_closed_open.
Qed.

Lemma fold_left_failures_snoc fs f b :
  fold_left breaker_step (failures (fs ++ [f])) b =
  record_failure f.1.1 f.1.2 f.2 (fold_left breaker_step (failures fs) b).
Proof. unfold failures. by rewrite map_app, fold_left_app. Qed.

Lemma failures_open_enough config b fs :
  cb_config b = config -> cb_state b = Closed -> all_count fs ->
  0 <= consecutive_failures b -> consecutive_failures b + Z.of_nat (length fs) <= U32_MAX ->
  let b' := fold_left breaker_step (failures fs) b in
  consecutive_failures b' = consecutive_failures b + Z.of_nat (length fs) /\
  cb_config b' = config /\
  (cb_state b' = Open -> failure_threshold config <= consecutive_failures b').
Proof.
  intros Hcf Hs Hc H0. revert Hc. induction fs as [|f fs IH] using rev_ind; intros Hc Hb.
  { simpl. split_and!; [lia|done|congruence]. }
  rewrite length_app in Hb. simpl in Hb.
  apply Forall_app in Hc as [Hc Hf]. inversion Hf as [|? ? Hf1 _]; subst.
  destruct IH as (I1&I2&I3); [done|lia|]. cbv zeta.
  rewrite fold_left_failures_snoc.
  set (b1 := fold_left breaker_step (failures fs) b) in *.
  pose proof (failures_closed_open fs b Hc) as Hnh. fold b1 in Hnh.
  unfold record_failure. rewrite Hf1. simpl. rewrite I1, I2, length_app.
  rewrite wrap32_small by (unfold is_u32; simpl; lia).
  destruct (cb_state b1) eqn:E1; simpl.
  - destruct (Z.leb_spec (failure_threshold (cb_config b))
      (consecutive_failures b + Z.of_nat (length fs) + 1)); simpl; split_and!; try done; lia.
  - split_and!; [lia|done|]. specialize (I3 eq_refl). lia.
  - exfalso. apply Hnh; [congruence|done].
Qed.

(** ** The registry, key by key *)

Definition breaker_of (r : CircuitBreakerRegistry) (k : BreakerKey) : option CircuitBreaker :=
  match cr_breakers r with Some m => bt_get k m | None => None end.

(** The breaker an operation works on: the stored one or a fresh one. *)
Definition breaker_at (r : CircuitBreakerRegistry) (k : BreakerKey) : CircuitBreaker :=
  unwrap_or (breaker_new (cr_config r)) (breaker_of r k).

Lemma with_breaker_spec {T} k (f : CircuitBreaker -> CircuitBreaker * T) r :
  let '(r', v) := with_breaker k f r in
  cr_config r' = cr_config r /\
  (cr_breakers r = None -> r' = r /\ v = None) /\
  (cr_breakers r <> None -> cr_breakers r' <> None /\ v = Some (f (breaker_at r k)).2 /\
    forall k', breaker_of r' k' =
      if bool_decide (k' = k) then Some (f (breaker_at r k)).1 else breaker_of r k').
Proof.
  unfold with_breaker, breaker_at, breaker_of. destruct (cr_breakers r) as [m|] eqn:E; simpl.
  - replace (match bt_get k m with Some b => b | None => breaker_new (cr_config r) end)
      with (unwrap_or (breaker_new (cr_config r)) (bt_get k m)) by (by destruct (bt_get k m)).
    destruct (f _) as [b' v] eqn:Ef. simpl. split_and!; try done.
    intros _. split_and!; try done. intros k'. apply bt_get_insert.
  - done.
Qed.

Lemma with_breaker_at {T} k k' (f : CircuitBreaker -> CircuitBreaker * T) r :
  cr_breakers r <> None ->
  breaker_at (with_breaker k f r).1 k' =
    if bool_decide (k' = k) then (f (breaker_at r k)).1 else breaker_at r k'.
Proof.
  intros Hp. pose proof (with_breaker_spec k f r) as Hs.
  destruct (with_breaker k f r) as [r' v]. destruct Hs as (Hc&_&Hs).
  destruct (Hs Hp) as (_&_&Hk). simpl. unfold breaker_at at 1. rewrite Hk, Hc.
  by case_bool_decide.
Qed.

Lemma with_breaker_alive {T} k (f : CircuitBreaker -> CircuitBreaker * T) r :
  cr_breakers r <> None -> cr_breakers (with_breaker k f r).1 <> None.
Proof.
  intros Hp. pose proof (with_breaker_spec k f r) as Hs.
  destruct (with_breaker k f r) as [r' v]. by apply Hs.
Qed.

Lemma with_breaker_value {T} k (f : CircuitBreaker -> CircuitBreaker * T) r :
  cr_breakers r <> None -> (with_breaker k f r).2 = Some (f (breaker_at r k)).2.
Proof.
  intros Hp. pose proof (with_breaker_spec k f r) as Hs.
  destruct (with_breaker k f r) as [r' v]. by apply Hs.
Qed.

Lemma with_breaker_then {T} k (f : CircuitBreaker -> CircuitBreaker * T) r d :
  cr_breakers r <> None ->
  (let '(r', v) := with_breaker k f r in (r', unwrap_or d v)) =
  ((with_breaker k f r).1, (f (breaker_at r k)).2).
Proof.
  intros Hp. pose proof (with_breaker_value k f r Hp) as Hv.
  destruct (with_breaker k f r) as [r' v]. simpl in *. by rewrite Hv.
Qed.

#[export] Hint Resolve with_breaker_alive : cuma.

Lemma registry_failure_alive now agent model class message r :
  cr_breakers r <> None -> cr_breakers (registry_record_failure now agent model class message r).1 <> None.
Proof.
  intros H. unfold registry_record_failure.
  assert (forall (r1 : CircuitBreakerRegistry) (f : CircuitBreaker -> CircuitBreaker * BreakerState),
    cr_breakers r1 <> None ->
    cr_breakers (let '(r, s) := with_breaker (KAgent agent) f r1 in (r, unwrap_or Closed s)).1 <> None) as Hlast.
  { intros r1 f H1. pose proof (with_breaker_alive (KAgent agent) f r1 H1) as Ha.
    by destruct (with_breaker (KAgent agent) f r1). }
  destruct (bool_decide _), model; apply Hlast; auto with cuma.
Qed.

(** Whether a breaker lets a request through at [now]. *)
Definition admits (now : Z) (b : CircuitBreaker) : Prop :=
  cb_state b = Open ->
  exists t, opened_at b = Some t /\ cooldown_ms (cb_config b) * NANOS_PER_MS <= duration_since now t.

Lemma allows_request_admits now b : (allows_request now b).2 = true <-> admits now b.
Proof.
  unfold allows_request, state_at, admits. destruct (cb_state b) eqn:E; simpl; try (rewrite E; naive_solver).
  destruct (opened_at b) as [t|] eqn:Et; simpl; [|rewrite E; naive_solver].
  destruct (Z.leb_spec (cooldown_ms (cb_config b) * NANOS_PER_MS) (duration_since now t)); simpl.
  - naive_solver.
  - rewrite E. simpl. split; [done|]. intros Hx. destruct (Hx eq_refl) as (t'&[= <-]&?). lia.
Qed.

(** ** Properties *)

(** C32: after any history of clock readings, successes and failures, a breaker's
    counter and message are those of the current streak of counted failures,
    and its state is consistent: closed only below the failure threshold, open
    only with an opening time, half-open only with its probes counted. *)
Theorem breaker_refines config h :
  config_ok config ->
  let b := breaker_run config h in
  consecutive_failures b = wrap32 (Z.of_nat (length (streak h))) /\
  last_error b = head (streak h) /\
  match cb_state b with
  | Closed => Z.of_nat (length (streak h)) < Z.max 1 (failure_threshold config) /\
      consecutive_successes b = 0 /\ opened_at b = None
  | Open => is_Some (opened_at b) /\ consecutive_successes b = 0 /\ streak h <> []
  | HalfOpen => is_Some (opened_at b) /\
      0 <= consecutive_successes b <= Z.max 1 (success_threshold config - 1)
  end.
Proof.
  intros C. cbv zeta. destruct (breaker_inv_run config h C) as [_ I2 I3 I4 I5 I6].
  split_and!; [done..|]. destruct (cb_state (breaker_run config h)); eauto.
Qed.

Lemma breaker_refines_witness :
  config_ok breaker_config_default /\
  let h := [OpFailure Timeout "slow" 5; OpFailure Cancelled "ctrl-c" 6; OpFailure AgentCrash "dead" 7] in
  consecutive_failures (breaker_run breaker_config_default h) = 2 /\
  cb_state (breaker_run breaker_config_default h) = Closed.
Proof.
  assert (config_ok breaker_config_default) as C by (unfold config_ok, is_u32, is_u64; vm_compute; intuition done).
  split; [done|]. cbv zeta.
  pose proof (breaker_refines breaker_config_default
    [OpFailure Timeout "slow" 5; OpFailure Cancelled "ctrl-c" 6; OpFailure AgentCrash "dead" 7] C) as [H _].
  split; [rewrite H; vm_compute; done | vm_compute; done].
Defined.

(** A closed breaker trips on exactly the failure that brings the streak to
    the threshold, and the cooldown then runs from the last failure; failures
    that say nothing about health never trip it. *)
Theorem breaker_trips config h fs :
  config_ok config -> cb_state (breaker_run config h) = Closed -> all_count fs -> fs <> [] ->
  Z.of_nat (length (streak h) + length fs) <= U32_MAX ->
  let b := fold_left breaker_step (failures fs) (breaker_run config h) in
  (cb_state b = Open <->
    Z.max 1 (failure_threshold config) <= Z.of_nat (length (streak h) + length fs)) /\
  (cb_state b = Open -> opened_at b = option_map snd (head (rev fs))) /\
  (cb_state b <> Open -> cb_state b = Closed).
Proof.
  intros C Hcl Hc Hne Hb. cbv zeta.
  destruct (breaker_inv_run config h C) as [I1 I2 _ I4 _ _]. destruct (I4 Hcl) as (Hl&_&_).
  rewrite wrap32_small in I2 by (unfold is_u32; lia).
  destruct (failures_open_enough config _ fs I1 Hcl Hc) as (Hn&_&Ho); [lia|lia|].
  pose proof (breaker_inv_run config (h ++ failures fs) C) as [_ _ _ J4 _ _].
  unfold streak, breaker_run in J4. rewrite !fold_left_app in J4.
  fold (streak h) (breaker_run config h) in J4. rewrite streak_failures in J4 by done.
  pose proof (failures_closed_open fs (breaker_run config h) Hc) as Hnh.
  assert (length fs <> 0%nat) by (by destruct fs).
  set (b := fold_left breaker_step (failures fs) (breaker_run config h)) in *.
  split_and!.
  - split; [intros Hop; specialize (Ho Hop); lia|]. intros Ht.
    destruct (cb_state b) eqn:E; [|done|exfalso; apply Hnh; congruence].
    destruct (J4 eq_refl) as (?&_). lia.
  - subst b. destruct fs as [|f fs _] using rev_ind; [done|].
    rewrite fold_left_failures_snoc, rev_unit. apply Forall_app in Hc as [Hc Hf].
    inversion Hf; subst. apply failure_closed_open; [done|].
    apply failures_closed_open; [done|congruence].
  - intros Hno. destruct (cb_state b); [done|done|]. exfalso. apply Hnh; congruence.
Qed.

Lemma breaker_trips_witness :
  cb_state (fold_left breaker_step
    (failures [(Timeout, "a", 1); (Timeout, "b", 2); (AgentCrash, "c", 3)])
    (breaker_run breaker_config_default [])) = Open.
Proof.
  apply (breaker_trips breaker_config_default []
    [(Timeout, "a", 1); (Timeout, "b", 2); (AgentCrash, "c", 3)]).
  - unfold config_ok, is_u32, is_u64; vm_compute; intuition done.
  - reflexivity.
  - repeat constructor.
  - done.
  - vm_compute. done.
  - vm_compute. done.
Defined.

(** Successes in a row on a half-open breaker. *)
Lemma successes_half_open n b :
  cb_state b = HalfOpen -> 0 <= consecutive_successes b ->
  consecutive_successes b + Z.of_nat n < success_threshold (cb_config b) ->
  success_threshold (cb_config b) <= U32_MAX ->
  cb_state (Nat.iter n record_success b) = HalfOpen /\
  cb_config (Nat.iter n record_success b) = cb_config b /\
  consecutive_successes (Nat.iter n record_success b) = consecutive_successes b + Z.of_nat n.
Proof.
  intros Hs H0. induction n as [|n IH]; intros Hb Hm; [simpl; split_and!; [done|done|lia]|].
  destruct IH as (I1&I2&I3); [lia|done|]. rewrite Nat.iter_succ.
  unfold record_success at 1 3 5. rewrite I1, I2, I3.
  rewrite wrap32_small by (unfold is_u32; lia).
  destruct (Z.leb_spec (success_threshold (cb_config b)) (consecutive_successes b + Z.of_nat n + 1));
    [lia|]. simpl. split_and!; [done..|lia].
Qed.

(** An open breaker refuses every request until its cooldown has elapsed
    and changes nothing meanwhile; then it lets requests through half-open,
    closes after the configured number of successes, and one counted failure
    re-opens it with a fresh cooldown. *)
Theorem breaker_recovers config b t now :
  config_ok config -> cb_config b = config -> cb_state b = Open -> opened_at b = Some t -> t <= now ->
  if now - t <? cooldown_ms config * NANOS_PER_MS
  then allows_request now b = (b, false)
  else exists b1, allows_request now b = (b1, true) /\ cb_state b1 = HalfOpen /\
    (forall n, Z.of_nat n < success_threshold config ->
       cb_state (Nat.iter n record_success b1) = HalfOpen) /\
    cb_state (Nat.iter (Z.to_nat (Z.max 1 (success_threshold config))) record_success b1) = Closed /\
    (forall class message now', counts_against_health class = true ->
       cb_state (record_failure class message now' b1) = Open /\
       opened_at (record_failure class message now' b1) = Some now').
Proof.
  intros (_&[Cs0 Cs]&Cc0&_) Hcf Hs Ht Hle. unfold allows_request, state_at. rewrite Hs, Ht, Hcf.
  unfold duration_since. rewrite Z.max_r by lia.
  destruct (Z.ltb_spec (now - t) (cooldown_ms config * NANOS_PER_MS)) as [Hlt|Hge].
  { rewrite (proj2 (Z.leb_gt _ _)) by lia. by rewrite Hs. }
  rewrite (proj2 (Z.leb_le _ _)) by lia. eexists. split; [reflexivity|]. split; [done|].
  set (b1 := {| cb_state := HalfOpen |}).
  assert (forall n, Z.of_nat n < success_threshold config ->
    cb_state (Nat.iter n record_success b1) = HalfOpen /\
    cb_config (Nat.iter n record_success b1) = config /\
    consecutive_successes (Nat.iter n record_success b1) = Z.of_nat n) as Hn.
  { intros n Hn. apply (successes_half_open n b1); simpl; try done; lia. }
  split_and!.
  - intros n Hlt. by apply Hn.
  - assert (exists k, Z.to_nat (Z.max 1 (success_threshold config)) = S k /\
      (k = 0%nat \/ Z.of_nat k < success_threshold config) /\
      success_threshold config <= Z.of_nat k + 1) as (k&->&Hk&Hk').
    { exists (Z.to_nat (Z.max 1 (success_threshold config) - 1)). lia. }
    rewrite Nat.iter_succ. unfold record_success at 1.
    assert (cb_state (Nat.iter k record_success b1) = HalfOpen /\
      cb_config (Nat.iter k record_success b1) = config /\
      consecutive_successes (Nat.iter k record_success b1) = Z.of_nat k) as (E1&E2&E3).
    { destruct Hk as [->|Hk]; [done|by apply Hn]. }
    rewrite E1, E2, E3, wrap32_small by (unfold is_u32, U32_MAX in *; lia).
    by rewrite (proj2 (Z.leb_le _ _)) by lia.
  - intros class message now' Hc. unfold record_failure. by rewrite Hc.
Qed.

Lemma breaker_recovers_witness :
  let b := breaker_run breaker_config_default
    (failures [(Timeout, "a", 1); (Timeout, "b", 2); (AgentCrash, "c", 3)]) in
  (allows_request 4 b).2 = false /\ (allows_request 30000000003 b).2 = true.
Proof.
  cbv zeta. set (b := breaker_run _ _).
  assert (config_ok breaker_config_default) as C
    by (unfold config_ok, is_u32, is_u64; vm_compute; intuition done).
  split.
  - pose proof (breaker_recovers breaker_config_default b 3 4 C eq_refl eq_refl eq_refl ltac:(lia)) as H.
    destruct (Z.ltb_spec (4 - 3) (cooldown_ms breaker_config_default * NANOS_PER_MS)) as [_|Hx].
    + by rewrite H.
    + exfalso. vm_compute in Hx. by apply Hx.
  - pose proof (breaker_recovers breaker_config_default b 3 30000000003 C eq_refl eq_refl eq_refl
      ltac:(lia)) as H.
    destruct (Z.ltb_spec (30000000003 - 3) (cooldown_ms breaker_config_default * NANOS_PER_MS)) as [Hx|_].
    + by vm_compute in Hx.
    + destruct H as (b1&->&_). done.
Defined.

(** The module's comment speaks of exactly one probe; a half-open breaker
    refuses none. *)
Lemma half_open_admits_all b now :
  cb_state b = HalfOpen -> allows_request now b = (b, true).
Proof. intros Hs. unfold allows_request, state_at. rewrite Hs. simpl. by rewrite Hs. Qed.

(** A failed attempt is recorded on the breaker of its model and, unless the
    failure is the model's alone, on the breaker of its agent; every other
    breaker is left alone, and the agent's resulting state is reported. *)
Theorem registry_failure_isolated now agent model class message r :
  cr_breakers r <> None ->
  let '(r', s) := registry_record_failure now agent model class message r in
  let fail := record_failure class message now in
  let agent_op := if bool_decide (class = ModelUnavailable) && bool_decide (is_Some model)
                  then fun b => b else fail in
  (forall k, k <> KAgent agent -> (forall m, model = Some m -> k <> KModel agent m) ->
     breaker_at r' k = breaker_at r k) /\
  (forall m, model = Some m ->
     breaker_at r' (KModel agent m) = fail (breaker_at r (KModel agent m))) /\
  breaker_at r' (KAgent agent) = (state_at now (agent_op (breaker_at r (KAgent agent)))).1 /\
  s = (state_at now (agent_op (breaker_at r (KAgent agent)))).2.
Proof.
  intros Hp. unfold registry_record_failure. cbv zeta.
  destruct model as [m|].
  - rewrite (bool_decide_true (is_Some (Some m))) by done. rewrite andb_true_r.
    case_bool_decide; rewrite with_breaker_then by auto with cuma;
      (split_and!;
      [ intros k Hk Hm; rewrite !with_breaker_at, !bool_decide_false by auto with cuma; done
      | intros m' [= <-]; rewrite !with_breaker_at by auto with cuma;
        by rewrite bool_decide_false, bool_decide_true
      | rewrite !with_breaker_at by auto with cuma;
        by rewrite bool_decide_true, bool_decide_false
      | rewrite !with_breaker_at by auto with cuma; by rewrite bool_decide_false ]).
  - rewrite (bool_decide_false (is_Some None)) by (by intros [? ?]). rewrite andb_false_r.
    case_bool_decide; rewrite with_breaker_then by done;
      (split_and!; [intros k Hk _| done | | done]; rewrite with_breaker_at by done;
       [by rewrite bool_decide_false|by rewrite bool_decide_true]).
Qed.

Lemma registry_failure_isolated_witness :
  breaker_at (registry_record_failure 1 "a" (Some "m") ModelUnavailable "gone"
    (registry_new breaker_config_default)).1 (KAgent "a") = breaker_new breaker_config_default.
Proof.
  pose proof (registry_failure_isolated 1 "a" (Some "m") ModelUnavailable "gone"
    (registry_new breaker_config_default) ltac:(done)) as H.
  destruct (registry_record_failure _ _ _ _ _ _) as [r' s]. destruct H as (_&_&H&_).
  simpl. rewrite H. reflexivity.
Defined.

(** The registry lets a request to an agent and model through exactly when
    neither breaker is open with its cooldown running; an unknown breaker and a
    poisoned lock admit everything. *)
Theorem registry_allows_spec now agent model r :
  (registry_allows now agent model r).2 = true <->
  cr_breakers r = None \/
  (admits now (breaker_at r (KAgent agent)) /\
   forall m, model = Some m -> admits now (breaker_at r (KModel agent m))).
Proof.
  destruct (cr_breakers r) as [mp|] eqn:E.
  - assert (cr_breakers r <> None) as Hp by congruence.
    unfold registry_allows.
    pose proof (with_breaker_value (KAgent agent) (allows_request now) r Hp) as Hv.
    pose proof (with_breaker_alive (KAgent agent) (allows_request now) r Hp) as Hp1.
    pose proof (fun k => with_breaker_at (KAgent agent) k (allows_request now) r Hp) as Ha.
    destruct (with_breaker (KAgent agent) (allows_request now) r) as [r1 v]. cbn [fst snd] in *.
    rewrite Hv. cbn [unwrap_or]. rewrite <- allows_request_admits.
    destruct (allows_request now (breaker_at r (KAgent agent))).2 eqn:Eag; cbn [negb snd]; [|naive_solver].
    destruct model as [m|]; [|naive_solver].
    pose proof (with_breaker_value (KModel agent m) (allows_request now) r1 Hp1) as Hv2.
    destruct (with_breaker (KModel agent m) (allows_request now) r1) as [r2 v2]. cbn [fst snd] in *.
    rewrite Hv2, Ha, bool_decide_false by done. cbn [unwrap_or]. rewrite allows_request_admits. naive_solver.
  - split; [by left|]. intros _. unfold registry_allows, with_breaker. rewrite E. simpl.
    destruct model; [by rewrite E|done].
Qed.
