(* ===== verification/Retry.v ===== *)
(** * Bounded retry ([cuma-resilience/src/retry.rs])

    Exponential backoff and the decision taken after a failure.  The random
    number generator is an argument: the offset [random_range] draws from the
    symmetric range it is given. *)

From S2P Require Export Errors.
From stdpp Require Import pretty.
Open Scope string_scope.
Open Scope Z_scope.

Record Backoff := {
  base_ms : Z;
  multiplier : f64;
  max_ms : Z;
  jitter : f64;
}.

Definition backoff_default : Backoff :=
  {| base_ms := 500; multiplier := f64_lit 2 1; max_ms := 60000; jitter := f64_lit 1 4 |}.

(** [Backoff::delay_for], in milliseconds. *)
Definition delay_for (b : Backoff) (attempt : Z) : Z :=
  let exponent := Z.min (sat32 (attempt - 1)) 32 in
  let raw := f64_mul (f64_of_Z (base_ms b)) (f64_powi (multiplier b) exponent) in
  f64_to_u64 (f64_max (f64_min raw (f64_of_Z (max_ms b))) f64_zero).

(** [rand::Rng::random_range] on [lo..=hi]. *)
Definition Rng : Type := f64 -> f64 -> f64.

(** [-x]. *)
Definition f64_neg (x : f64) : f64 := SFopp x.

(** [Backoff::delay_with_jitter]. *)
Definition delay_with_jitter (b : Backoff) (attempt : Z) (rng : Rng) : Z :=
  let base := delay_for b attempt in
  if f64_leb (jitter b) f64_zero then base
  else
    let j := f64_clamp01 (jitter b) in
    let base_f := f64_of_Z base in
    let spread := f64_mul base_f j in
    let offset := rng (f64_neg spread) spread in
    f64_to_u64 (f64_max (f64_add base_f offset) f64_zero).

Inductive RetryDecision : Type :=
  | RetrySameTarget (delay : Z) (attempt : Z) (reason : string)
  | Reroute (reason : string)
  | Replan (reason : string)
  | GiveUp (reason : string).

(** [RetryDecision::continues]. *)
Definition continues (d : RetryDecision) : bool :=
  match d with GiveUp _ => false | _ => true end.

(** [RetryDecision::reason]. *)
Definition decision_reason (d : RetryDecision) : string :=
  match d with RetrySameTarget _ _ r | Reroute r | Replan r | GiveUp r => r end.

Record RetryPolicy := {
  max_attempts : Z;
  max_attempts_per_target : Z;
  backoff : Backoff;
}.

Definition retry_policy_default : RetryPolicy :=
  {| max_attempts := 4; max_attempts_per_target := 2; backoff := backoff_default |}.

(** [RetryPolicy::with_max_attempts]. *)
Definition with_max_attempts (n : Z) : RetryPolicy :=
  {| max_attempts := Z.max n 1;
     max_attempts_per_target := max_attempts_per_target retry_policy_default;
     backoff := backoff retry_policy_default |}.

Definition is_terminal_class (c : ErrorClass) : bool :=
  match c with AuthenticationFailure | SecurityViolation | Configuration => true | _ => false end.

(** [RetryPolicy::decide]. *)
Definition retry_decide (p : RetryPolicy) (class : ErrorClass) (attempts_so_far attempts_on_target : Z)
    (alternatives_available : bool) (rng : Rng) : RetryDecision :=
  if bool_decide (class = Cancelled) then GiveUp "task was cancelled"
  else if is_terminal_class class then
    GiveUp (class_debug class +:+ " is not recoverable by retrying")
  else if max_attempts p <=? attempts_so_far then
    GiveUp ("exhausted the retry budget (" +:+ pretty (max_attempts p) +:+ " attempts)")
  else if requires_replan class then
    Replan (class_debug class +:+ " requires a smaller or different plan")
  else
    let target_budget_left := attempts_on_target <? max_attempts_per_target p in
    if is_retryable_on_same_target class && target_budget_left then
      let next_attempt := wrap32 (attempts_so_far + 1) in
      RetrySameTarget (delay_with_jitter (backoff p) next_attempt rng) next_attempt
        (class_debug class +:+ " is transient; backing off")
    else if is_reroutable class && alternatives_available then
      Reroute (if target_budget_left
               then class_debug class +:+ " will not clear on this agent"
               else class_debug class +:+ " persisted for " +:+ pretty attempts_on_target
                    +:+ " attempts on this agent")
    else
      GiveUp (if is_reroutable class
              then class_debug class +:+ " needs a different agent, but no alternative is available"
              else class_debug class +:+ " is not retryable and not reroutable").

(** Classes after which nothing is attempted again. *)
Definition never_retried (c : ErrorClass) : bool :=
  bool_decide (c = Cancelled) || is_terminal_class c.

(** Each decision of [RetryPolicy::decide] is taken exactly under its own
    condition (the four conditions exclude each other): cancellations and
    terminal classes always stop, the attempt budget stops everything else, and
    what remains depends on the class, on the target's own budget and on whether
    there is an alternative. *)
Theorem retry_decide_spec p class so_far on_target alternatives rng :
  let alive := never_retried class = false /\ so_far < max_attempts p in
  let same := is_retryable_on_same_target class = true /\ on_target < max_attempts_per_target p in
  match retry_decide p class so_far on_target alternatives rng with
  | RetrySameTarget delay attempt _ =>
      alive /\ requires_replan class = false /\ same /\
      attempt = wrap32 (so_far + 1) /\ delay = delay_with_jitter (backoff p) attempt rng
  | Reroute _ =>
      alive /\ requires_replan class = false /\ ~ same /\
      is_reroutable class = true /\ alternatives = true
  | Replan _ => alive /\ requires_replan class = true
  | GiveUp _ =>
      ~ alive \/ (requires_replan class = false /\ ~ same /\
                 (is_reroutable class = false \/ alternatives = false))
  end.
Proof.
  cbv zeta. unfold retry_decide, never_retried.
  destruct (bool_decide (class = Cancelled)); [left; by intros [? _]|].
  destruct (is_terminal_class class); [left; by intros [? _]|].
  destruct (Z.leb_spec (max_attempts p) so_far) as [Hb|Hb]; [left; lia|].
  destruct (requires_replan class); [done|].
  destruct (is_retryable_on_same_target class),
    (Z.ltb_spec on_target (max_attempts_per_target p)) as [Ht|Ht]; cbn [andb]; [done|..];
    destruct (is_reroutable class), alternatives; cbn [andb];
    try (split_and!; [done|done|done|lia || (by intros [? _])|done|done]);
    right; split_and!; try done; try lia; auto; by intros [? _].
Qed.

(** With the default parameters the delay doubles from half a second and
    stops at one minute, whatever the attempt number. *)
Theorem default_backoff_delays attempt :
  0 <= attempt ->
  delay_for backoff_default attempt = Z.min (500 * 2 ^ Z.min (Z.max 0 (attempt - 1)) 32) 60000.
Proof.
  intros Ha. unfold delay_for.
  assert (Z.min (sat32 (attempt - 1)) 32 = Z.min (Z.max 0 (attempt - 1)) 32) as ->
    by (unfold sat32, U32_MAX; lia).
  assert (0 <= Z.min (Z.max 0 (attempt - 1)) 32 <= 32) as Hr by lia.
  set (e := Z.min _ 32) in *. clearbody e. clear Ha.
  assert (forallb (fun k => f64_to_u64 (f64_max (f64_min
      (f64_mul (f64_of_Z (base_ms backoff_default)) (f64_powi (multiplier backoff_default) (Z.of_nat k)))
      (f64_of_Z (max_ms backoff_default))) f64_zero) =? Z.min (500 * 2 ^ Z.of_nat k) 60000)
    (seq 0 33) = true) as Hall by (vm_compute; reflexivity).
  rewrite forallb_forall in Hall. specialize (Hall (Z.to_nat e)).
  rewrite Z2Nat.id in Hall by lia. apply Z.eqb_eq, Hall, in_seq. lia.
Qed.

Lemma default_backoff_delays_witness : delay_for backoff_default 9 = 60000.
Proof. rewrite (default_backoff_delays 9); [reflexivity|lia]. Defined.
