(* ===== verification/SandboxConfig.v ===== *)
(** * Agent sandbox settings ([cuma-config/src/sandbox.rs])

    The [[sandboxes.<name>]] sections: their data, defaults, and the validation
    that names the field it rejects.  A plugin's [options] table is handed to
    the plugin and inspected by nothing here; it is left out of the record. *)

From S2P Require Export Errors.
Open Scope string_scope.
Open Scope Z_scope.

Definition NATIVE_RUNTIMES : list string := ["ai-jail"; "bubblewrap"; "sandbox-exec"; "firejail"].
Definition AUTO : string := "auto".
Definition ISOLATIONS : list string := ["process"; "container"; "microvm"; "wasm"; "remote"].

Record NativeSandbox := { nat_runtime : string }.

Record DockerSandbox := {
  dk_image : string;
  dk_program : string;
  dk_context : option string;
  dk_runtime : option string;
  dk_network : string;
  dk_home : string;
  dk_user : option string;
  dk_memory : option string;
  dk_cpus : option string;
  dk_entrypoint : option string;
  dk_extra_args : list string;
}.

Record MicrosandboxSandbox := {
  msb_image : string;
  msb_program : string;
  msb_cpus : option Z;
  msb_memory : option string;
  msb_home : string;
  msb_secrets : btree string (list string);
  msb_env : btree string string;
}.

Record ArcboxSandbox := {
  ab_image : option string;
  ab_template : option string;
  ab_dockerfile : option string;
  ab_program : string;
  ab_cpus : option Z;
  ab_memory_mib : option Z;
  ab_ttl_secs : Z;
  ab_user : option string;
}.

Record KubernetesSandbox := {
  k8s_image : option string;
  k8s_warm_pool : option string;
  k8s_program : string;
  k8s_context : option string;
  k8s_kubeconfig : option string;
  k8s_namespace : string;
  k8s_container : string;
  k8s_runtime_class : option string;
  k8s_service_account : option string;
  k8s_ready_timeout_secs : Z;
  k8s_lifetime_secs : Z;
}.

Record E2bSandbox := {
  e2b_api_url : string;
  e2b_domain : string;
  e2b_template : string;
  e2b_api_key_ref : option string;
  e2b_envd_scheme : string;
  e2b_envd_port : Z;
  e2b_timeout_secs : Z;
  e2b_user : string;
  e2b_internet : bool;
}.

Record OpenSandboxSandbox := {
  osb_server_url : string;
  osb_api_key_ref : option string;
  osb_image : string;
  osb_cpu : string;
  osb_memory : string;
  osb_mount_workspace : bool;
  osb_timeout_secs : Z;
  osb_tunnel_port : Z;
}.

Record WasmerSandbox := { wa_program : string; wa_extra_args : list string }.

Record CommandSandbox := {
  cmd_prefix : list string;
  cmd_probe : list string;
  cmd_setup : list string;
  cmd_teardown : list string;
  cmd_isolation : string;
}.

Record PluginSandbox := { pl_program : string; pl_timeout_secs : Z }.

(** ** Defaults *)

Definition native_default : NativeSandbox := {| nat_runtime := AUTO |}.

Definition docker_default : DockerSandbox :=
  {| dk_image := ""; dk_program := "docker"; dk_context := None; dk_runtime := None;
     dk_network := "bridge"; dk_home := "/root"; dk_user := None; dk_memory := None;
     dk_cpus := None; dk_entrypoint := None; dk_extra_args := [] |}.

Definition microsandbox_default : MicrosandboxSandbox :=
  {| msb_image := ""; msb_program := "msb"; msb_cpus := None; msb_memory := None;
     msb_home := "/root"; msb_secrets := []; msb_env := [] |}.

Definition arcbox_default : ArcboxSandbox :=
  {| ab_image := None; ab_template := None; ab_dockerfile := None; ab_program := "abctl";
     ab_cpus := None; ab_memory_mib := None; ab_ttl_secs := 3600; ab_user := None |}.

Definition kubernetes_default : KubernetesSandbox :=
  {| k8s_image := None; k8s_warm_pool := None; k8s_program := "kubectl"; k8s_context := None;
     k8s_kubeconfig := None; k8s_namespace := "default"; k8s_container := "agent";
     k8s_runtime_class := None; k8s_service_account := None; k8s_ready_timeout_secs := 300;
     k8s_lifetime_secs := 3600 |}.

Definition e2b_default : E2bSandbox :=
  {| e2b_api_url := "https://api.e2b.app"; e2b_domain := "e2b.app"; e2b_template := "";
     e2b_api_key_ref := Some "E2B_API_KEY"; e2b_envd_scheme := "https"; e2b_envd_port := 49983;
     e2b_timeout_secs := 3600; e2b_user := "user"; e2b_internet := true |}.

Definition opensandbox_default : OpenSandboxSandbox :=
  {| osb_server_url := ""; osb_api_key_ref := None; osb_image := ""; osb_cpu := "1";
     osb_memory := "2Gi"; osb_mount_workspace := false; osb_timeout_secs := 3600;
     osb_tunnel_port := 7681 |}.

Definition wasmer_default : WasmerSandbox := {| wa_program := "wasmer"; wa_extra_args := [] |}.

Definition command_default : CommandSandbox :=
  {| cmd_prefix := []; cmd_probe := []; cmd_setup := []; cmd_teardown := [];
     cmd_isolation := "process" |}.

Definition plugin_default : PluginSandbox := {| pl_program := ""; pl_timeout_secs := 120 |}.

Inductive SandboxSettings : Type :=
  | SbNative (s : NativeSandbox)
  | SbDocker (s : DockerSandbox)
  | SbMicrosandbox (s : MicrosandboxSandbox)
  | SbArcbox (s : ArcboxSandbox)
  | SbKubernetes (s : KubernetesSandbox)
  | SbE2b (s : E2bSandbox)
  | SbOpensandbox (s : OpenSandboxSandbox)
  | SbWasmer (s : WasmerSandbox)
  | SbCommand (s : CommandSandbox)
  | SbPlugin (s : PluginSandbox).

(** [SandboxSettings::kind]. *)
Definition sandbox_kind (s : SandboxSettings) : string :=
  match s with
  | SbNative _ => "native" | SbDocker _ => "docker" | SbMicrosandbox _ => "microsandbox"
  | SbArcbox _ => "arcbox" | SbKubernetes _ => "kubernetes" | SbE2b _ => "e2b"
  | SbOpensandbox _ => "opensandbox" | SbWasmer _ => "wasmer" | SbCommand _ => "command"
  | SbPlugin _ => "plugin"
  end.

(** ** Names *)

Definition is_ascii_alphabetic (c : Z) : bool := is_ascii_upper c || is_ascii_lower c.

(** Letters, digits, ['-'] and ['_']. *)
Definition is_plain_char (c : Z) : bool := is_ascii_alphanumeric c || (c =? 45) || (c =? 95).

Definition is_plain_name (name : string) : bool :=
  negb (bool_decide (name = "")) && (Z.of_nat (String.length name) <=? 64) &&
  forallb is_plain_char (chars name).

Definition is_builtin_sandbox (name : string) : bool :=
  bool_decide (name = AUTO) || contains NATIVE_RUNTIMES name.

(** [is_known_sandbox]. *)
Definition is_known_sandbox (name : string) (sandboxes : btree string SandboxSettings) : bool :=
  bool_decide (name = AUTO) || contains NATIVE_RUNTIMES name || bt_contains_key name sandboxes.

(** [check_sandbox_name]. *)
Definition check_sandbox_name (name : string) : Result unit :=
  if negb (is_plain_name name) then
    Err (EConfiguration ("sandboxes." +:+ name +:+ ": names must be letters, digits, '-' or '_'"))
  else if is_builtin_sandbox name then
    Err (EConfiguration ("sandboxes." +:+ name +:+ ": " +:+ debug_str name
                         +:+ " is a built-in name; choose another"))
  else Ok tt.

(** [is_env_name]. *)
Definition is_env_name (name : string) : bool :=
  match chars name with
  | [] => false
  | c :: rest => (is_ascii_alphabetic c || (c =? 95)) &&
                 forallb (fun c => is_ascii_alphanumeric c || (c =? 95)) rest
  end.

(** [is_dns_label]. *)
Definition is_dns_label (value : string) : bool :=
  negb (bool_decide (value = "")) && (Z.of_nat (String.length value) <=? 63) &&
  forallb (fun c => is_ascii_lower c || is_ascii_digit c || (c =? 45)) (chars value) &&
  negb (starts_with value "-") && negb (ends_with value "-").

(** ** Validation *)

Definition is_blank (s : string) : bool := bool_decide (trim s = "").

Definition invalid (message : string) : Result unit := Err (EConfiguration message).

(** [if c { return invalid(m) }]. *)
Definition ensure (c : bool) (message : string) : Result unit :=
  if c then Ok tt else invalid message.

Section Validate.
Context (name : string).

Definition field (key : string) : string := "sandboxes." +:+ name +:+ "." +:+ key.

Definition required (key value : string) : Result unit :=
  ensure (negb (is_blank value)) (field key +:+ " must be set").

Definition absolute (key value : string) : Result unit :=
  ensure (starts_with value "/")
    (field key +:+ " must be an absolute path, got " +:+ debug_str value).

Definition url (key value : string) : Result unit :=
  ensure (starts_with value "http://" || starts_with value "https://")
    (field key +:+ " must be an http(s) URL, got " +:+ debug_str value).

Definition one_of (keys : list string) (values : list (option string)) : Result unit :=
  ensure (Z.of_nat (length (List.filter (fun v => match v with Some _ => true | None => false end) values)) =? 1)
    ("exactly one of " +:+ str_join ", " (map field keys) +:+ " must be set").

Definition positive (key : string) (value : Z) : Result unit :=
  ensure (0 <? value) (field key +:+ " must be positive").

Definition check_secret (secret : string * list string) : Result unit :=
  let '(variable, hosts) := secret in
  if negb (is_env_name variable)
  then invalid (field ("secrets." +:+ variable) +:+ " is not a variable name")
  else if match hosts with [] => true | _ => false end || existsb is_blank hosts
  then invalid (field ("secrets." +:+ variable) +:+ " must name the hosts the secret may be sent to")
  else Ok tt.

(** [for x in l { f(x)? }]. *)
Definition for_each {A} (f : A -> Result unit) (l : list A) : Result unit :=
  fold_right (fun x rest => let? _ := f x in rest) (Ok tt) l.

Definition check_label (kv : string * string) : Result unit :=
  ensure (is_dns_label kv.2)
    (field kv.1 +:+ " must be a lowercase DNS label, got " +:+ debug_str kv.2).

Definition check_handle (handle : option string) : Result unit :=
  match handle with
  | Some h => ensure (is_env_name h) (field "api_key_ref" +:+ " must name a variable")
  | None => Ok tt
  end.

(** [SandboxSettings::validate]. *)
Definition sandbox_validate (s : SandboxSettings) : Result unit :=
  match s with
  | SbNative native =>
      ensure (bool_decide (nat_runtime native = AUTO) || contains NATIVE_RUNTIMES (nat_runtime native))
        (field "runtime" +:+ " must be auto or one of " +:+ str_join ", " NATIVE_RUNTIMES
         +:+ ", got " +:+ debug_str (nat_runtime native))
  | SbDocker docker =>
      let? _ := required "image" (dk_image docker) in
      let? _ := required "program" (dk_program docker) in
      let? _ := required "network" (dk_network docker) in
      absolute "home" (dk_home docker)
  | SbMicrosandbox msb =>
      let? _ := required "image" (msb_image msb) in
      let? _ := required "program" (msb_program msb) in
      let? _ := absolute "home" (msb_home msb) in
      let? _ := for_each check_secret (msb_secrets msb) in
      match List.find (fun k => negb (is_env_name k)) (bt_keys (msb_env msb)) with
      | Some variable => invalid (field ("env." +:+ variable) +:+ " is not a variable name")
      | None => Ok tt
      end
  | SbArcbox arcbox =>
      let? _ := one_of ["image"; "template"; "dockerfile"]
                       [ab_image arcbox; ab_template arcbox; ab_dockerfile arcbox] in
      let? _ := required "program" (ab_program arcbox) in
      positive "ttl_secs" (ab_ttl_secs arcbox)
  | SbKubernetes k8s =>
      let? _ := one_of ["image"; "warm_pool"] [k8s_image k8s; k8s_warm_pool k8s] in
      let? _ := required "program" (k8s_program k8s) in
      let? _ := for_each check_label
        [("namespace", k8s_namespace k8s); ("container", k8s_container k8s)] in
      let? _ := positive "ready_timeout_secs" (k8s_ready_timeout_secs k8s) in
      positive "lifetime_secs" (k8s_lifetime_secs k8s)
  | SbE2b e2b =>
      let? _ := url "api_url" (e2b_api_url e2b) in
      let? _ := required "domain" (e2b_domain e2b) in
      let? _ := required "template" (e2b_template e2b) in
      let? _ := required "user" (e2b_user e2b) in
      let? _ := ensure (contains ["http"; "https"] (e2b_envd_scheme e2b))
                       (field "envd_scheme" +:+ " must be http or https") in
      let? _ := positive "envd_port" (e2b_envd_port e2b) in
      let? _ := positive "timeout_secs" (e2b_timeout_secs e2b) in
      check_handle (e2b_api_key_ref e2b)
  | SbOpensandbox osb =>
      let? _ := url "server_url" (osb_server_url osb) in
      let? _ := required "image" (osb_image osb) in
      let? _ := required "cpu" (osb_cpu osb) in
      let? _ := required "memory" (osb_memory osb) in
      let? _ := positive "tunnel_port" (osb_tunnel_port osb) in
      let? _ := ensure (60 <=? osb_timeout_secs osb)
                       (field "timeout_secs" +:+ " must be at least 60") in
      check_handle (osb_api_key_ref osb)
  | SbWasmer wasmer => required "program" (wa_program wasmer)
  | SbCommand command =>
      let? _ := ensure (negb (match cmd_prefix command with [] => true | word :: _ => is_blank word end))
                       (field "prefix" +:+ " must name a program") in
      ensure (contains ISOLATIONS (cmd_isolation command))
        (field "isolation" +:+ " must be one of " +:+ str_join ", " ISOLATIONS)
  | SbPlugin plugin =>
      let? _ := required "program" (pl_program plugin) in
      positive "timeout_secs" (pl_timeout_secs plugin)
  end.
End Validate.

(** ** Lemmas *)

Lemma bind_ok {A B} (r : Result A) (k : A -> Result B) v :
  result_bind r k = Ok v <-> exists a, r = Ok a /\ k a = Ok v.
Proof. destruct r; simpl; naive_solver. Qed.

Lemma ensure_ok c m : ensure c m = Ok tt <-> c = true.
Proof. by destruct c. Qed.

Lemma for_each_ok {A} (f : A -> Result unit) l :
  for_each f l = Ok tt <-> Forall (fun x => f x = Ok tt) l.
Proof.
  induction l as [|x l IH]; simpl; [split; [constructor|done]|].
  rewrite bind_ok, Forall_cons_iff, <- IH. split; [intros ([]&?&?); done|intros [? ?]; by exists tt].
Qed.

Lemma check_sandbox_name_ok name :
  check_sandbox_name name = Ok tt <-> is_plain_name name = true /\ is_builtin_sandbox name = false.
Proof.
  unfold check_sandbox_name. destruct (is_plain_name name), (is_builtin_sandbox name); naive_solver.
Qed.

(** A rejection is a configuration error that names a field of the section. *)
Definition names_field_of (name : string) (r : Result unit) : Prop :=
  forall e, r = Err e -> exists m, e = EConfiguration m /\
    str_contains m ("sandboxes." +:+ name +:+ ".") = true.

Lemma contains_prefix a b : str_contains (a +:+ b) a = true.
Proof. apply str_contains_spec. by exists "", b. Qed.

Lemma contains_app_r a b c : str_contains b c = true -> str_contains (a +:+ b) c = true.
Proof.
  rewrite !str_contains_spec. intros (x&y&->). exists (a +:+ x), y. by rewrite str_app_assoc.
Qed.

Lemma contains_app_l a b c : str_contains a c = true -> str_contains (a +:+ b) c = true.
Proof.
  rewrite !str_contains_spec. intros (x&y&->). exists x, (y +:+ b). by rewrite !str_app_assoc.
Qed.

Lemma names_field name key rest :
  str_contains (field name key +:+ rest) ("sandboxes." +:+ name +:+ ".") = true.
Proof.
  apply contains_app_l. apply str_contains_spec. exists "", key. unfold field.
  by rewrite !str_app_assoc.
Qed.

Lemma names_field_keys name key keys rest :
  str_contains (str_join ", " (map (field name) (key :: keys)) +:+ rest)
    ("sandboxes." +:+ name +:+ ".") = true.
Proof.
  apply contains_app_l. destruct keys as [|k keys].
  - cbn. rewrite <- (str_app_nil_r (field name key)). apply names_field.
  - change (str_contains (field name key +:+ (", " +:+ str_join ", " (map (field name) (k :: keys))))
      ("sandboxes." +:+ name +:+ ".") = true). apply names_field.
Qed.

Lemma names_bind name (r : Result unit) k :
  names_field_of name r -> (forall a, names_field_of name (k a)) ->
  names_field_of name (result_bind r k).
Proof.
  intros Hr Hk e. destruct r as [a|e']; simpl; [apply Hk|]. intros [= <-]. by apply Hr.
Qed.

Lemma names_ensure name c m :
  str_contains m ("sandboxes." +:+ name +:+ ".") = true -> names_field_of name (ensure c m).
Proof. intros Hm e. destruct c; simpl; [done|]. intros [= <-]. eauto. Qed.

Lemma names_for_each {A} name (f : A -> Result unit) l :
  (forall x, names_field_of name (f x)) -> names_field_of name (for_each f l).
Proof.
  intros Hf. induction l as [|x l IH]; simpl; [done|]. apply names_bind; [done|]. intros _. apply IH.
Qed.

Lemma names_ok name : names_field_of name (Ok tt).
Proof. done. Qed.

Lemma names_handle name h : names_field_of name (check_handle name h).
Proof. destruct h; [|apply names_ok]. apply names_ensure, names_field. Qed.

Lemma names_secret name s : names_field_of name (check_secret name s).
Proof.
  destruct s as [v hosts]. unfold check_secret.
  destruct (negb (is_env_name v)); [|destruct (_ || _); [|apply names_ok]];
    apply (names_ensure name false), names_field.
Qed.

Lemma names_required name k v : names_field_of name (required name k v).
Proof. apply names_ensure, names_field. Qed.
Lemma names_absolute name k v : names_field_of name (absolute name k v).
Proof. apply names_ensure, names_field. Qed.
Lemma names_url name k v : names_field_of name (url name k v).
Proof. apply names_ensure, names_field. Qed.
Lemma names_positive name k v : names_field_of name (positive name k v).
Proof. apply names_ensure, names_field. Qed.
Lemma names_label name kv : names_field_of name (check_label name kv).
Proof. apply names_ensure, names_field. Qed.
Lemma names_one_of name k ks vs : names_field_of name (one_of name (k :: ks) vs).
Proof. apply names_ensure, contains_app_r, names_field_keys. Qed.

#[export] Hint Resolve names_ensure names_field names_for_each names_ok names_handle
  names_secret names_required names_absolute names_url names_positive names_label names_one_of : cuma.

Lemma validate_names_field name s : names_field_of name (sandbox_validate name s).
Proof.
  destruct s; unfold sandbox_validate; repeat (apply names_bind; [|intros _]); auto with cuma.
  destruct (List.find _ _); [|apply names_ok]. apply (names_ensure name false), names_field.
Qed.

(** A sandbox section is rejected only with a configuration error whose
    message names the offending field of that very section. *)
Theorem sandbox_validate_names_section name s :
  sandbox_validate name s = Ok tt \/
  exists m, sandbox_validate name s = Err (EConfiguration m) /\
    str_contains m ("sandboxes." +:+ name +:+ ".") = true.
Proof.
  destruct (sandbox_validate name s) as [[]|e] eqn:E; [by left|right].
  assert (names_field_of name (sandbox_validate name s)) as Hn by apply validate_names_field.
  apply Hn in E as (m&->&Hm). by exists m.
Qed.
