(* ===== verification/Config.v ===== *)
(** * Configuration ([cuma-config/src/model.rs], [merge.rs], [env.rs], [lib.rs])

    The schema with its defaults, the validation of a loaded configuration, the
    field-by-field merge of layers, the environment layer, and the loader.
    Reading a file and parsing TOML are arguments; so are the decimal rendering
    and parsing of floating-point numbers. *)

From S2P Require Export SandboxConfig Agent.
From stdpp Require Import pretty.
Open Scope string_scope.
Open Scope Z_scope.

(** ** Routing strategy and weights *)

Inductive RoutingStrategy : Type :=
  | Balanced | QualityFirst | CostFirst | LatencyFirst | LocalFirst | PrivacyFirst | Manual.

#[export] Instance RoutingStrategy_eq_dec : EqDecision RoutingStrategy.
Proof. solve_decision. Defined.

Record RouterWeights := {
  w_quality : f64;
  w_cost : f64;
  w_latency : f64;
  w_reliability : f64;
  w_context : f64;
}.

(** [RoutingStrategy::default_weights] and [RouterWeights::default]. *)
Definition default_weights (s : RoutingStrategy) : RouterWeights :=
  match s with
  | Balanced | Manual =>
      {| w_quality := f64_lit 30 100; w_cost := f64_lit 20 100; w_latency := f64_lit 10 100;
         w_reliability := f64_lit 30 100; w_context := f64_lit 10 100 |}
  | QualityFirst =>
      {| w_quality := f64_lit 55 100; w_cost := f64_lit 5 100; w_latency := f64_lit 5 100;
         w_reliability := f64_lit 25 100; w_context := f64_lit 10 100 |}
  | CostFirst =>
      {| w_quality := f64_lit 15 100; w_cost := f64_lit 55 100; w_latency := f64_lit 5 100;
         w_reliability := f64_lit 15 100; w_context := f64_lit 10 100 |}
  | LatencyFirst =>
      {| w_quality := f64_lit 15 100; w_cost := f64_lit 10 100; w_latency := f64_lit 50 100;
         w_reliability := f64_lit 20 100; w_context := f64_lit 5 100 |}
  | LocalFirst | PrivacyFirst =>
      {| w_quality := f64_lit 25 100; w_cost := f64_lit 15 100; w_latency := f64_lit 15 100;
         w_reliability := f64_lit 35 100; w_context := f64_lit 10 100 |}
  end.

Definition weights_default : RouterWeights := default_weights Balanced.

(** [PartialEq] on weights. *)
Definition weights_eqb (a b : RouterWeights) : bool :=
  f64_eqb (w_quality a) (w_quality b) && f64_eqb (w_cost a) (w_cost b) &&
  f64_eqb (w_latency a) (w_latency b) && f64_eqb (w_reliability a) (w_reliability b) &&
  f64_eqb (w_context a) (w_context b).

(** [RouterWeights::sum]. *)
Definition weights_sum (w : RouterWeights) : f64 :=
  f64_add (f64_add (f64_add (f64_add (w_quality w) (w_cost w)) (w_latency w)) (w_reliability w))
          (w_context w).

(** [RouterWeights::validate]; [show] renders a number with [{}]. *)
Definition weights_validate (show : f64 -> string) (w : RouterWeights) : Result unit :=
  let check (d : string * f64) : Result unit :=
    if f64_ltb d.2 f64_zero || negb (f64_is_finite d.2)
    then invalid ("router.weights." +:+ d.1 +:+ " must be a finite non-negative number, got "
                  +:+ show d.2)
    else Ok tt in
  let? _ := for_each check
    [("quality", w_quality w); ("cost", w_cost w); ("latency", w_latency w);
     ("reliability", w_reliability w); ("context", w_context w)] in
  if f64_leb (weights_sum w) f64_zero
  then invalid "router weights cannot all be zero; routing would be arbitrary"
  else Ok tt.

(** [RouterWeights::normalized]. *)
Definition weights_normalized (w : RouterWeights) : RouterWeights :=
  let sum := weights_sum w in
  if f64_leb sum f64_zero then weights_default
  else {| w_quality := f64_div (w_quality w) sum; w_cost := f64_div (w_cost w) sum;
          w_latency := f64_div (w_latency w) sum; w_reliability := f64_div (w_reliability w) sum;
          w_context := f64_div (w_context w) sum |}.

(** ** The schema *)

Record RouterConfig := {
  strategy : RoutingStrategy;
  weights : RouterWeights;
  pin_agent : option string;
  pin_model : option string;
  exclude_agents : list string;
  exclude_models : list string;
  adaptive_weight : f64;
  adaptive_min_samples : Z;
}.

Record AgentConfig := {
  ac_enabled : bool;
  ac_protocol : string;
  ac_command : option string;
  ac_endpoint : option string;
  ac_capabilities : list string;
  ac_models : list string;
  ac_auth_secret_ref : option string;
  ac_metadata : btree string string;
  ac_sandbox : option string;
  ac_state : list string;
  ac_env : list string;
}.

Record McpServerSettings := {
  mcp_enabled : bool;
  mcp_command : string;
  mcp_args : list string;
  mcp_env : btree string string;
  mcp_allowed_tools : list string;
  mcp_share_with_agents : bool;
}.

Record MemoryConfig := {
  mem_enabled : bool;
  mem_backend : string;
  mem_command : option string;
  mem_mcp_server : option string;
  recall_limit : Z;
}.

Inductive RtkMode : Type := RtkAuto | RtkAlways | RtkNever.

#[export] Instance RtkMode_eq_dec : EqDecision RtkMode.
Proof. solve_decision. Defined.

Record RtkConfig := { rtk_enabled : RtkMode; rtk_binary : option string }.

Inductive SkillAutoInstall : Type := InstallNever | TrustedOnly | Verified.

#[export] Instance SkillAutoInstall_eq_dec : EqDecision SkillAutoInstall.
Proof. solve_decision. Defined.

Record SkillsConfig := {
  sk_enabled : bool;
  sk_auto_install : SkillAutoInstall;
  sk_registries : list string;
  sk_install_dir : option string;
  sk_allow_creation : bool;
  sk_trusted_keys : btree string string;
}.

Record SecurityConfig := {
  sec_sandbox : bool;
  sec_sandbox_command : option string;
  allow_destructive_operations : bool;
  checkpoint_before_write : bool;
  command_allowlist : list string;
  network_allowlist : list string;
  agent_env : list string;
  agent_writable_paths : list string;
  require_agent_sandbox : bool;
  agent_sandbox : string;
  trusted_workspaces : list string;
  a2a_server_token_refs : list string;
}.

Inductive TaskIsolation : Type := Shared | Worktree.

#[export] Instance TaskIsolation_eq_dec : EqDecision TaskIsolation.
Proof. solve_decision. Defined.

Record LimitsConfig := {
  max_parallel_tasks : Z;
  max_retries : Z;
  task_timeout_secs : Z;
  max_cost_usd : option f64;
  max_tokens : option Z;
  isolation : TaskIsolation;
}.

Record TelemetryConfig := {
  log_level : string;
  json_logs : bool;
  database_path : option string;
  otlp_endpoint : option string;
}.

Record Config := {
  router : RouterConfig;
  agents : btree string AgentConfig;
  mcp : btree string McpServerSettings;
  sandboxes : btree string SandboxSettings;
  memory : MemoryConfig;
  rtk : RtkConfig;
  skills : SkillsConfig;
  security : SecurityConfig;
  limits : LimitsConfig;
  telemetry : TelemetryConfig;
}.

(** ** Defaults *)

Definition router_default : RouterConfig :=
  {| strategy := Balanced; weights := weights_default; pin_agent := None; pin_model := None;
     exclude_agents := []; exclude_models := []; adaptive_weight := f64_zero;
     adaptive_min_samples := 0 |}.

Definition agent_config_default : AgentConfig :=
  {| ac_enabled := true; ac_protocol := "acp"; ac_command := None; ac_endpoint := None;
     ac_capabilities := []; ac_models := []; ac_auth_secret_ref := None; ac_metadata := [];
     ac_sandbox := None; ac_state := []; ac_env := [] |}.

Definition mcp_default : McpServerSettings :=
  {| mcp_enabled := true; mcp_command := ""; mcp_args := []; mcp_env := [];
     mcp_allowed_tools := []; mcp_share_with_agents := false |}.

Definition memory_default : MemoryConfig :=
  {| mem_enabled := false; mem_backend := "ai-memory-cli"; mem_command := None;
     mem_mcp_server := None; recall_limit := 8 |}.

Definition rtk_default : RtkConfig := {| rtk_enabled := RtkAuto; rtk_binary := None |}.

Definition skills_default : SkillsConfig :=
  {| sk_enabled := true; sk_auto_install := TrustedOnly; sk_registries := ["builtin"; "local"];
     sk_install_dir := None; sk_allow_creation := false; sk_trusted_keys := [] |}.

Definition security_default : SecurityConfig :=
  {| sec_sandbox := true; sec_sandbox_command := None; allow_destructive_operations := false;
     checkpoint_before_write := true; command_allowlist := []; network_allowlist := [];
     agent_env := []; agent_writable_paths := []; require_agent_sandbox := false;
     agent_sandbox := AUTO; trusted_workspaces := []; a2a_server_token_refs := [] |}.

Definition limits_config_default : LimitsConfig :=
  {| max_parallel_tasks := 4; max_retries := 3; task_timeout_secs := 600; max_cost_usd := None;
     max_tokens := None; isolation := Shared |}.

Definition telemetry_default : TelemetryConfig :=
  {| log_level := "info"; json_logs := false; database_path := None; otlp_endpoint := None |}.

Definition config_default : Config :=
  {| router := router_default; agents := []; mcp := []; sandboxes := []; memory := memory_default;
     rtk := rtk_default; skills := skills_default; security := security_default;
     limits := limits_config_default; telemetry := telemetry_default |}.

(** ** Validation *)

Definition check_mcp (entry : string * McpServerSettings) : Result unit :=
  let '(name, server) := entry in
  if negb (is_plain_name name) then
    invalid ("mcp." +:+ name +:+ ": server names must be letters, digits, '-' or '_'")
  else if is_blank (mcp_command server) then
    invalid ("mcp." +:+ name +:+ ".command must be set")
  else Ok tt.

Definition check_sandbox (entry : string * SandboxSettings) : Result unit :=
  let? _ := check_sandbox_name entry.1 in sandbox_validate entry.1 entry.2.

Definition unknown_sandbox (key name : string) : Result unit :=
  invalid (key +:+ " = " +:+ debug_str name
    +:+ " is neither auto, a native runtime (ai-jail, bubblewrap, sandbox-exec, firejail) nor a [sandboxes."
    +:+ name +:+ "] section").

Definition check_agent (sandboxes : btree string SandboxSettings) (entry : string * AgentConfig)
  : Result unit :=
  let '(id, agent) := entry in
  let rest : Result unit :=
    if existsb is_blank (ac_state agent) then
      invalid ("agents." +:+ id +:+ ".state has an empty path")
    else match List.find (fun name => negb (is_env_name name)) (ac_env agent) with
         | Some name =>
             invalid ("agents." +:+ id +:+ ".env: " +:+ debug_str name
                      +:+ " is not a variable name; list names, never values")
         | None => Ok tt
         end in
  match ac_sandbox agent with
  | Some name => if negb (is_known_sandbox name sandboxes)
                 then unknown_sandbox ("agents." +:+ id +:+ ".sandbox") name
                 else rest
  | None => rest
  end.

(** [Config::validate_sandboxes]. *)
Definition validate_sandboxes (c : Config) : Result unit :=
  let? _ := for_each check_sandbox (sandboxes c) in
  if negb (is_known_sandbox (agent_sandbox (security c)) (sandboxes c))
  then unknown_sandbox "security.agent_sandbox" (agent_sandbox (security c))
  else for_each (check_agent (sandboxes c)) (agents c).

(** [Config::validate]. *)
Definition config_validate (show : f64 -> string) (c : Config) : Result unit :=
  let? _ := weights_validate show (weights (router c)) in
  if max_parallel_tasks (limits c) =? 0 then
    invalid "limits.max_parallel_tasks must be at least 1"
  else if 10 <? max_retries (limits c) then
    invalid ("limits.max_retries = " +:+ pretty (max_retries (limits c))
             +:+ " is implausibly high; retries must stay bounded")
  else
    let? _ := match max_cost_usd (limits c) with
              | Some budget => ensure (negb (f64_leb budget f64_zero))
                                      "limits.max_cost_usd must be positive when set"
              | None => Ok tt
              end in
    let? _ := for_each check_mcp (mcp c) in
    let? _ := match mem_mcp_server (memory c) with
              | Some server =>
                  ensure (bt_contains_key server (mcp c))
                    ("memory.mcp_server = " +:+ debug_str server +:+ " names no [mcp." +:+ server
                     +:+ "] section")
              | None => Ok tt
              end in
    validate_sandboxes c.

(** ** What the operator states about an agent *)

Definition add_stated_model (d : AgentDescriptor) (model : string) : AgentDescriptor :=
  match agent_model d model with
  | None => with_model (model_minimal (a_id d) model model) d
  | Some _ => d
  end.

(** [BTreeMap::extend] and the [for] loops that insert every entry. *)
Definition bt_extend {K V} `{OrdKey K} (m l : btree K V) : btree K V :=
  fold_left (fun m kv => bt_insert kv.1 kv.2 m) l m.

Definition with_metadata (md : btree string string) (a : AgentDescriptor) : AgentDescriptor :=
  {| a_id := a_id a; a_name := a_name a; a_protocol := a_protocol a;
     a_capabilities := a_capabilities a; a_models := a_models a; a_health := a_health a;
     a_limits := a_limits a; a_cost_profile := a_cost_profile a;
     a_performance_profile := a_performance_profile a;
     a_auth := a_auth a; a_enabled := a_enabled a; a_metadata := md |}.

(** [AgentConfig::apply_to]. *)
Definition apply_to (c : AgentConfig) (d : AgentDescriptor) : AgentDescriptor :=
  let d := with_capabilities
    (bs_extend (a_capabilities d) (map capability_parse (ac_capabilities c))) d in
  let d := fold_left add_stated_model (ac_models c) d in
  with_metadata (bt_extend (a_metadata d) (ac_metadata c)) d.

(** ** Merging layers *)

(** [merge_field!]: the upper layer wins unless it holds the default. *)
Definition merge_field {A} `{EqDecision A} (target source default : A) : A :=
  if bool_decide (source <> default) then source else target.

(** [merge_field!] on a float: IEEE equality. *)
Definition merge_f64 (target source default : f64) : f64 :=
  if negb (f64_eqb source default) then source else target.

(** [merge_option!]. *)
Definition merge_option {A} (target source : option A) : option A :=
  match source with Some _ => source | None => target end.

(** [merge_collection!]. *)
Definition merge_collection {A} (target source : list A) : list A :=
  match source with [] => target | _ => source end.

Definition merge_weights (target : RouterWeights) (source : RouterConfig) : RouterWeights :=
  if negb (weights_eqb (weights source) weights_default) then weights source
  else if bool_decide (strategy source <> Balanced) then default_weights (strategy source)
  else target.

Definition merge_router (a b : RouterConfig) : RouterConfig :=
  {| strategy := merge_field (strategy a) (strategy b) (strategy router_default);
     weights := merge_weights (weights a) b;
     pin_agent := merge_option (pin_agent a) (pin_agent b);
     pin_model := merge_option (pin_model a) (pin_model b);
     exclude_agents := merge_collection (exclude_agents a) (exclude_agents b);
     exclude_models := merge_collection (exclude_models a) (exclude_models b);
     adaptive_weight := merge_f64 (adaptive_weight a) (adaptive_weight b)
                                  (adaptive_weight router_default);
     adaptive_min_samples := merge_field (adaptive_min_samples a) (adaptive_min_samples b)
                                         (adaptive_min_samples router_default) |}.

Definition merge_memory (a b : MemoryConfig) : MemoryConfig :=
  {| mem_enabled := merge_field (mem_enabled a) (mem_enabled b) (mem_enabled memory_default);
     mem_backend := merge_field (mem_backend a) (mem_backend b) (mem_backend memory_default);
     mem_command := merge_option (mem_command a) (mem_command b);
     mem_mcp_server := merge_option (mem_mcp_server a) (mem_mcp_server b);
     recall_limit := merge_field (recall_limit a) (recall_limit b) (recall_limit memory_default) |}.

Definition merge_rtk (a b : RtkConfig) : RtkConfig :=
  {| rtk_enabled := merge_field (rtk_enabled a) (rtk_enabled b) (rtk_enabled rtk_default);
     rtk_binary := merge_option (rtk_binary a) (rtk_binary b) |}.

Definition merge_skills (a b : SkillsConfig) : SkillsConfig :=
  {| sk_enabled := merge_field (sk_enabled a) (sk_enabled b) (sk_enabled skills_default);
     sk_auto_install := merge_field (sk_auto_install a) (sk_auto_install b)
                                    (sk_auto_install skills_default);
     sk_registries := merge_collection (sk_registries a) (sk_registries b);
     sk_install_dir := merge_option (sk_install_dir a) (sk_install_dir b);
     sk_allow_creation := merge_field (sk_allow_creation a) (sk_allow_creation b)
                                      (sk_allow_creation skills_default);
     sk_trusted_keys := bt_extend (sk_trusted_keys a) (sk_trusted_keys b) |}.

Definition merge_security (a b : SecurityConfig) : SecurityConfig :=
  let d := security_default in
  {| sec_sandbox := merge_field (sec_sandbox a) (sec_sandbox b) (sec_sandbox d);
     sec_sandbox_command := merge_option (sec_sandbox_command a) (sec_sandbox_command b);
     allow_destructive_operations :=
       merge_field (allow_destructive_operations a) (allow_destructive_operations b)
                   (allow_destructive_operations d);
     checkpoint_before_write :=
       merge_field (checkpoint_before_write a) (checkpoint_before_write b) (checkpoint_before_write d);
     command_allowlist := merge_collection (command_allowlist a) (command_allowlist b);
     network_allowlist := merge_collection (network_allowlist a) (network_allowlist b);
     agent_env := merge_collection (agent_env a) (agent_env b);
     agent_writable_paths := merge_collection (agent_writable_paths a) (agent_writable_paths b);
     require_agent_sandbox :=
       merge_field (require_agent_sandbox a) (require_agent_sandbox b) (require_agent_sandbox d);
     agent_sandbox := merge_field (agent_sandbox a) (agent_sandbox b) (agent_sandbox d);
     trusted_workspaces := merge_collection (trusted_workspaces a) (trusted_workspaces b);
     a2a_server_token_refs := merge_collection (a2a_server_token_refs a) (a2a_server_token_refs b) |}.

Definition merge_limits (a b : LimitsConfig) : LimitsConfig :=
  let d := limits_config_default in
  {| isolation := merge_field (isolation a) (isolation b) (isolation d);
     max_parallel_tasks := merge_field (max_parallel_tasks a) (max_parallel_tasks b)
                                       (max_parallel_tasks d);
     max_retries := merge_field (max_retries a) (max_retries b) (max_retries d);
     task_timeout_secs := merge_field (task_timeout_secs a) (task_timeout_secs b)
                                      (task_timeout_secs d);
     max_cost_usd := merge_option (max_cost_usd a) (max_cost_usd b);
     max_tokens := merge_option (max_tokens a) (max_tokens b) |}.

Definition merge_telemetry (a b : TelemetryConfig) : TelemetryConfig :=
  {| log_level := merge_field (log_level a) (log_level b) (log_level telemetry_default);
     json_logs := merge_field (json_logs a) (json_logs b) (json_logs telemetry_default);
     database_path := merge_option (database_path a) (database_path b);
     otlp_endpoint := merge_option (otlp_endpoint a) (otlp_endpoint b) |}.

(** [Config::merge]: [b] over [a]. *)
Definition config_merge (a b : Config) : Config :=
  {| router := merge_router (router a) (router b);
     agents := bt_extend (agents a) (agents b);
     mcp := bt_extend (mcp a) (mcp b);
     sandboxes := bt_extend (sandboxes a) (sandboxes b);
     memory := merge_memory (memory a) (memory b);
     rtk := merge_rtk (rtk a) (rtk b);
     skills := merge_skills (skills a) (skills b);
     security := merge_security (security a) (security b);
     limits := merge_limits (limits a) (limits b);
     telemetry := merge_telemetry (telemetry a) (telemetry b) |}.
