(* ===== verification/ConfigLoad.v ===== *)
(** * The environment layer and the loader ([cuma-config/src/env.rs], [lib.rs])

    [CUMA_*] variables applied over the merged files, and the order of layers:
    defaults, global file, project file, environment, then validation. *)

From S2P Require Export Config.
From stdpp Require Import pretty.
Open Scope string_scope.
Open Scope Z_scope.

(** [std::env::var(key).ok()]. *)
Definition Env : Type := string -> option string.

(** [var]: a blank value counts as unset. *)
Definition var (env : Env) (key : string) : option string :=
  match env key with Some v => if is_blank v then None else Some v | None => None end.

(** [split_list]. *)
Definition split_list (raw : string) : list string :=
  List.filter (fun s => negb (bool_decide (s = ""))) (map trim (split_char (of_byte 44) raw)).

Definition config_error {T} (m : string) : Result T := Err (EConfiguration m).

(** [parse_strategy]. *)
Definition parse_strategy (raw : string) : Result RoutingStrategy :=
  let s := replace_char (of_byte 95) (of_byte 45) (to_ascii_lowercase (trim raw)) in
  if bool_decide (s = "balanced") then Ok Balanced
  else if bool_decide (s = "quality-first") then Ok QualityFirst
  else if bool_decide (s = "cost-first") then Ok CostFirst
  else if bool_decide (s = "latency-first") then Ok LatencyFirst
  else if bool_decide (s = "local-first") then Ok LocalFirst
  else if bool_decide (s = "privacy-first") then Ok PrivacyFirst
  else if bool_decide (s = "manual") then Ok Manual
  else config_error ("unknown routing strategy " +:+ debug_str s).

(** [parse_num]; [parse] is the target type's [FromStr]. *)
Definition parse_num {T} (parse : string -> option T) (raw key : string) : Result T :=
  match parse (trim raw) with
  | Some n => Ok n
  | None => config_error (key +:+ " must be a number, got " +:+ debug_str raw)
  end.

(** [parse_bool]. *)
Definition parse_bool (raw key : string) : Result bool :=
  let s := to_ascii_lowercase (trim raw) in
  if contains ["1"; "true"; "yes"; "on"] s then Ok true
  else if contains ["0"; "false"; "no"; "off"] s then Ok false
  else config_error (key +:+ " must be a boolean, got " +:+ debug_str s).

Definition parse_rtk (raw : string) : Result RtkMode :=
  let s := to_ascii_lowercase (trim raw) in
  if bool_decide (s = "auto") then Ok RtkAuto
  else if contains ["always"; "true"; "1"] s then Ok RtkAlways
  else if contains ["never"; "false"; "0"] s then Ok RtkNever
  else config_error ("CUMA_RTK must be auto, always or never, got " +:+ debug_str s).

Definition parse_auto_install (raw : string) : Result SkillAutoInstall :=
  let s := to_ascii_lowercase (trim raw) in
  if bool_decide (s = "never") then Ok InstallNever
  else if contains ["trusted-only"; "trusted_only"] s then Ok TrustedOnly
  else if bool_decide (s = "verified") then Ok Verified
  else config_error
    ("CUMA_SKILLS_AUTO_INSTALL must be never, trusted-only or verified, got " +:+ debug_str s).

(** ** Field updates *)

Definition set_router (r : RouterConfig) (c : Config) : Config :=
  {| router := r; agents := agents c; mcp := mcp c; sandboxes := sandboxes c; memory := memory c;
     rtk := rtk c; skills := skills c; security := security c; limits := limits c;
     telemetry := telemetry c |}.

Definition set_limits (l : LimitsConfig) (c : Config) : Config :=
  {| router := router c; agents := agents c; mcp := mcp c; sandboxes := sandboxes c;
     memory := memory c; rtk := rtk c; skills := skills c; security := security c; limits := l;
     telemetry := telemetry c |}.

Definition set_telemetry (t : TelemetryConfig) (c : Config) : Config :=
  {| router := router c; agents := agents c; mcp := mcp c; sandboxes := sandboxes c;
     memory := memory c; rtk := rtk c; skills := skills c; security := security c;
     limits := limits c; telemetry := t |}.

Definition set_strategy (s : RoutingStrategy) (c : Config) : Config :=
  let r := router c in
  set_router {| strategy := s; weights := default_weights s; pin_agent := pin_agent r;
    pin_model := pin_model r; exclude_agents := exclude_agents r;
    exclude_models := exclude_models r; adaptive_weight := adaptive_weight r;
    adaptive_min_samples := adaptive_min_samples r |} c.

Definition set_pin_agent (p : option string) (c : Config) : Config :=
  let r := router c in
  set_router {| strategy := strategy r; weights := weights r; pin_agent := p;
    pin_model := pin_model r; exclude_agents := exclude_agents r;
    exclude_models := exclude_models r; adaptive_weight := adaptive_weight r;
    adaptive_min_samples := adaptive_min_samples r |} c.

Definition set_pin_model (p : option string) (c : Config) : Config :=
  let r := router c in
  set_router {| strategy := strategy r; weights := weights r; pin_agent := pin_agent r;
    pin_model := p; exclude_agents := exclude_agents r;
    exclude_models := exclude_models r; adaptive_weight := adaptive_weight r;
    adaptive_min_samples := adaptive_min_samples r |} c.

Definition set_exclude_agents (l : list string) (c : Config) : Config :=
  let r := router c in
  set_router {| strategy := strategy r; weights := weights r; pin_agent := pin_agent r;
    pin_model := pin_model r; exclude_agents := l;
    exclude_models := exclude_models r; adaptive_weight := adaptive_weight r;
    adaptive_min_samples := adaptive_min_samples r |} c.

Definition set_max_parallel (n : Z) (c : Config) : Config :=
  let l := limits c in
  set_limits {| max_parallel_tasks := n; max_retries := max_retries l;
    task_timeout_secs := task_timeout_secs l; max_cost_usd := max_cost_usd l;
    max_tokens := max_tokens l; isolation := isolation l |} c.

Definition set_max_retries (n : Z) (c : Config) : Config :=
  let l := limits c in
  set_limits {| max_parallel_tasks := max_parallel_tasks l; max_retries := n;
    task_timeout_secs := task_timeout_secs l; max_cost_usd := max_cost_usd l;
    max_tokens := max_tokens l; isolation := isolation l |} c.

Definition set_timeout (n : Z) (c : Config) : Config :=
  let l := limits c in
  set_limits {| max_parallel_tasks := max_parallel_tasks l; max_retries := max_retries l;
    task_timeout_secs := n; max_cost_usd := max_cost_usd l;
    max_tokens := max_tokens l; isolation := isolation l |} c.

Definition set_max_cost (x : option f64) (c : Config) : Config :=
  let l := limits c in
  set_limits {| max_parallel_tasks := max_parallel_tasks l; max_retries := max_retries l;
    task_timeout_secs := task_timeout_secs l; max_cost_usd := x;
    max_tokens := max_tokens l; isolation := isolation l |} c.

Definition set_log_level (s : string) (c : Config) : Config :=
  let t := telemetry c in
  set_telemetry {| log_level := s; json_logs := json_logs t; database_path := database_path t;
    otlp_endpoint := otlp_endpoint t |} c.

Definition set_json_logs (b : bool) (c : Config) : Config :=
  let t := telemetry c in
  set_telemetry {| log_level := log_level t; json_logs := b; database_path := database_path t;
    otlp_endpoint := otlp_endpoint t |} c.

Definition set_database_path (p : option string) (c : Config) : Config :=
  let t := telemetry c in
  set_telemetry {| log_level := log_level t; json_logs := json_logs t; database_path := p;
    otlp_endpoint := otlp_endpoint t |} c.

Definition set_memory_enabled (b : bool) (c : Config) : Config :=
  let m := memory c in
  {| router := router c; agents := agents c; mcp := mcp c; sandboxes := sandboxes c;
     memory := {| mem_enabled := b; mem_backend := mem_backend m; mem_command := mem_command m;
                  mem_mcp_server := mem_mcp_server m; recall_limit := recall_limit m |};
     rtk := rtk c; skills := skills c; security := security c; limits := limits c;
     telemetry := telemetry c |}.

Definition set_rtk (m : RtkMode) (c : Config) : Config :=
  {| router := router c; agents := agents c; mcp := mcp c; sandboxes := sandboxes c;
     memory := memory c; rtk := {| rtk_enabled := m; rtk_binary := rtk_binary (rtk c) |};
     skills := skills c; security := security c; limits := limits c; telemetry := telemetry c |}.

Definition set_sandbox (b : bool) (c : Config) : Config :=
  let s := security c in
  {| router := router c; agents := agents c; mcp := mcp c; sandboxes := sandboxes c;
     memory := memory c; rtk := rtk c; skills := skills c;
     security := {| sec_sandbox := b; sec_sandbox_command := sec_sandbox_command s;
       allow_destructive_operations := allow_destructive_operations s;
       checkpoint_before_write := checkpoint_before_write s;
       command_allowlist := command_allowlist s; network_allowlist := network_allowlist s;
       agent_env := agent_env s; agent_writable_paths := agent_writable_paths s;
       require_agent_sandbox := require_agent_sandbox s; agent_sandbox := agent_sandbox s;
       trusted_workspaces := trusted_workspaces s;
       a2a_server_token_refs := a2a_server_token_refs s |};
     limits := limits c; telemetry := telemetry c |}.

Definition set_auto_install (a : SkillAutoInstall) (c : Config) : Config :=
  let s := skills c in
  {| router := router c; agents := agents c; mcp := mcp c; sandboxes := sandboxes c;
     memory := memory c; rtk := rtk c;
     skills := {| sk_enabled := sk_enabled s; sk_auto_install := a;
       sk_registries := sk_registries s; sk_install_dir := sk_install_dir s;
       sk_allow_creation := sk_allow_creation s; sk_trusted_keys := sk_trusted_keys s |};
     security := security c; limits := limits c; telemetry := telemetry c |}.

(** ** [env::apply] *)

(** One [if let Some(raw) = var(key)] block. *)
Definition env_step (env : Env) (key : string) (f : string -> Config -> Result Config)
    (st : Config * bool) : Result (Config * bool) :=
  match var env key with
  | Some raw => let? c := f raw st.1 in Ok (c, true)
  | None => Ok st
  end.

Definition setting {T} (parse : string -> Result T) (set : T -> Config -> Config)
    (raw : string) (c : Config) : Result Config :=
  let? v := parse raw in Ok (set v c).

Section Apply.
(** [<f64 as FromStr>::from_str]. *)
Context (parse_f64 : string -> option f64) (env : Env).

Definition env_blocks : list (string * (string -> Config -> Result Config)) :=
  [("CUMA_ROUTER_STRATEGY", setting parse_strategy set_strategy);
   ("CUMA_ROUTER_PIN_AGENT", setting Ok (fun raw => set_pin_agent (Some raw)));
   ("CUMA_ROUTER_PIN_MODEL", setting Ok (fun raw => set_pin_model (Some raw)));
   ("CUMA_ROUTER_EXCLUDE_AGENTS", setting (fun raw => Ok (split_list raw)) set_exclude_agents);
   ("CUMA_MAX_PARALLEL_TASKS",
      setting (fun raw => parse_num (parse_unsigned U64_MAX) raw "CUMA_MAX_PARALLEL_TASKS")
              set_max_parallel);
   ("CUMA_MAX_RETRIES",
      setting (fun raw => parse_num (parse_unsigned U32_MAX) raw "CUMA_MAX_RETRIES")
              set_max_retries);
   ("CUMA_TASK_TIMEOUT_SECS",
      setting (fun raw => parse_num (parse_unsigned U64_MAX) raw "CUMA_TASK_TIMEOUT_SECS")
              set_timeout);
   ("CUMA_MAX_COST_USD",
      setting (fun raw => parse_num parse_f64 raw "CUMA_MAX_COST_USD")
              (fun x => set_max_cost (Some x)));
   ("CUMA_LOG_LEVEL", setting Ok set_log_level);
   ("CUMA_JSON_LOGS", setting (fun raw => parse_bool raw "CUMA_JSON_LOGS") set_json_logs);
   ("CUMA_DATABASE_PATH", setting Ok (fun raw => set_database_path (Some raw)));
   ("CUMA_MEMORY_ENABLED",
      setting (fun raw => parse_bool raw "CUMA_MEMORY_ENABLED") set_memory_enabled);
   ("CUMA_RTK", setting parse_rtk set_rtk);
   ("CUMA_SANDBOX", setting (fun raw => parse_bool raw "CUMA_SANDBOX") set_sandbox);
   ("CUMA_SKILLS_AUTO_INSTALL", setting parse_auto_install set_auto_install)].

Definition run_blocks (blocks : list (string * (string -> Config -> Result Config)))
    (st : Result (Config * bool)) : Result (Config * bool) :=
  fold_left (fun st b => let? s := st in env_step env b.1 b.2 s) blocks st.

(** [env::apply]: the configuration and whether any variable was applied. *)
Definition env_apply (c : Config) : Result (Config * bool) := run_blocks env_blocks (Ok (c, false)).
End Apply.

(** ** [Config::load] *)

Inductive ConfigSource : Type :=
  | SourceDefault
  | SourceFile (path : string)
  | SourceEnvironment.

(** [read path] is [Some] of the parsed file when it exists. *)
Definition merge_file (read : string -> option (Result Config)) (path : string)
    (st : Config * list ConfigSource) : Result (Config * list ConfigSource) :=
  match read path with
  | None => Ok st
  | Some parsed =>
      let? layer := parsed in
      Ok (config_merge st.1 layer, (st.2 ++ [SourceFile path])%list)
  end.

Definition config_load (show : f64 -> string) (parse_f64 : string -> option f64) (env : Env)
    (read : string -> option (Result Config)) (global : option string) (project : string)
  : Result (Config * list ConfigSource) :=
  let st := (config_default, [SourceDefault]) in
  let? st := match global with Some g => merge_file read g st | None => Ok st end in
  let? st := merge_file read project st in
  let? overlay := env_apply parse_f64 env st.1 in
  let '(c, applied) := overlay in
  let sources := if applied then (st.2 ++ [SourceEnvironment])%list else st.2 in
  let? _ := config_validate show c in
  Ok (c, sources).
