(* ===== verification/ConfigFacts.v ===== *)
(** * Laws of the configuration layers

    Validated configurations, the algebra of [Config::merge], the environment
    layer, and what the operator states about an agent. *)

From S2P Require Export ConfigLoad.
Open Scope string_scope.
Open Scope Z_scope.

(** ** [bt_extend] *)

Section Extend.
Context {K V : Type} `{OrdKey K}.
Implicit Types (m l : btree K V).

Lemma bt_extend_wf m l : bt_wf m -> bt_wf (bt_extend m l).
Proof.
  unfold bt_extend. revert m. induction l as [|[k v] l IH]; intros m W; simpl; [done|].
  apply IH. by apply bt_wf_insert.
Qed.

Lemma bt_get_extend_notin m l k : k ∉ bt_keys l -> bt_get k (bt_extend m l) = bt_get k m.
Proof.
  unfold bt_extend. revert m. induction l as [|[k' v] l IH]; intros m Hk; simpl; [done|].
  cbn in Hk. rewrite IH by set_solver. apply bt_get_insert_ne. set_solver.
Qed.

Lemma bt_get_extend m l k :
  NoDup (bt_keys l) ->
  bt_get k (bt_extend m l) = match bt_get k l with Some v => Some v | None => bt_get k m end.
Proof.
  revert m. induction l as [|[k' v] l IH]; intros m Hn; simpl; [done|].
  cbn in Hn. inversion Hn as [|? ? Hni Hn']; subst.
  change (bt_extend m ((k', v) :: l)) with (bt_extend (bt_insert k' v m) l).
  case_bool_decide as Hk.
  - subst. rewrite bt_get_extend_notin by done. apply bt_get_insert_eq.
  - rewrite IH by done. by rewrite bt_get_insert_ne.
Qed.

Lemma bt_extend_assoc (a b c : btree K V) :
  bt_wf a -> bt_wf b -> bt_wf c ->
  bt_extend (bt_extend a b) c = bt_extend a (bt_extend b c).
Proof.
  intros Wa Wb Wc. apply bt_ext; [by repeat apply bt_extend_wf..|]. intros k.
  rewrite !bt_get_extend by (apply bt_wf_NoDup; eauto using bt_extend_wf).
  by destruct (bt_get k c).
Qed.
End Extend.

(** ** Merging one field *)

Section MergeField.
Context {A : Type} `{EqDecision A}.
Lemma merge_field_assoc (a b c d : A) :
  merge_field (merge_field a b d) c d = merge_field a (merge_field b c d) d.
Proof. unfold merge_field. repeat case_bool_decide; congruence. Qed.
Lemma merge_field_default (a d : A) : merge_field a d d = a.
Proof. unfold merge_field. by case_bool_decide. Qed.
End MergeField.

Lemma merge_f64_assoc a b c d :
  merge_f64 (merge_f64 a b d) c d = merge_f64 a (merge_f64 b c d) d.
Proof.
  unfold merge_f64. destruct (f64_eqb b d) eqn:Eb, (f64_eqb c d) eqn:Ec; simpl;
    rewrite ?Eb, ?Ec; done.
Qed.

Lemma merge_option_assoc {A} (a b c : option A) :
  merge_option (merge_option a b) c = merge_option a (merge_option b c).
Proof. by destruct c. Qed.

Lemma merge_collection_assoc {A} (a b c : list A) :
  merge_collection (merge_collection a b) c = merge_collection a (merge_collection b c).
Proof. by destruct c. Qed.

#[export] Hint Rewrite @merge_field_assoc @merge_option_assoc @merge_collection_assoc
  @merge_field_default merge_f64_assoc : cuma.

Lemma weights_eqb_manual : weights_eqb (default_weights Manual) weights_default = true.
Proof. vm_compute. done. Qed.

Lemma merge_weights_assoc w b c :
  merge_weights (merge_weights w b) c = merge_weights w (merge_router b c).
Proof.
  unfold merge_weights at 1 2 3, merge_router, merge_field; cbn [weights strategy router_default].
  unfold merge_weights.
  destruct (weights_eqb (weights c) weights_default) eqn:Ec; cbn [negb]; [|by rewrite Ec].
  destruct (bool_decide (strategy c <> Balanced)) eqn:Es; [|done].
  rewrite Es. by destruct (weights_eqb (default_weights (strategy c)) weights_default).
Qed.

Lemma merge_router_assoc a b c :
  merge_router (merge_router a b) c = merge_router a (merge_router b c).
Proof.
  pose proof (merge_weights_assoc (weights a) b c) as Hw.
  unfold merge_router in *. cbn in *. by rewrite Hw; autorewrite with cuma.
Qed.

Record config_wf (c : Config) : Prop := {
  cw_agents : bt_wf (agents c);
  cw_mcp : bt_wf (mcp c);
  cw_sandboxes : bt_wf (sandboxes c);
  cw_keys : bt_wf (sk_trusted_keys (skills c));
}.

Lemma config_wf_merge a b : config_wf a -> config_wf b -> config_wf (config_merge a b).
Proof. intros [] []. by split; simpl; apply bt_extend_wf. Qed.

(** ** What a valid configuration guarantees *)

Definition weights_valid (w : RouterWeights) : Prop :=
  Forall (fun x => f64_is_finite x = true /\ f64_ltb x f64_zero = false)
    [w_quality w; w_cost w; w_latency w; w_reliability w; w_context w] /\
  f64_leb (weights_sum w) f64_zero = false.

Lemma weights_validate_ok show w : weights_validate show w = Ok tt <-> weights_valid w.
Proof.
  unfold weights_validate, weights_valid. rewrite bind_ok.
  assert (forall (c : bool) m, (if c then invalid m else Ok tt) = Ok tt <-> c = false) as Hif
    by (intros [] ?; done).
  split.
  - intros ([]&Hf&Hs). apply Hif in Hs. split; [|done].
    apply for_each_ok in Hf. rewrite !Forall_cons_iff in Hf |- *. simpl in Hf.
    rewrite !Hif, !orb_false_iff, !negb_false_iff in Hf. repeat split; tauto || constructor.
  - intros [Hf Hs]. exists tt. rewrite Hif. split; [|done]. apply for_each_ok.
    rewrite !Forall_cons_iff in Hf |- *. simpl. rewrite !Hif, !orb_false_iff, !negb_false_iff.
    repeat split; tauto || constructor.
Qed.

Lemma invalid_ok (c : bool) m (r : Result unit) :
  (if c then invalid m else r) = Ok tt <-> c = false /\ r = Ok tt.
Proof. destruct c; [by split; [|intros [? ?]]|tauto]. Qed.

Lemma check_mcp_ok e :
  check_mcp e = Ok tt <-> is_plain_name e.1 = true /\ is_blank (mcp_command e.2) = false.
Proof.
  destruct e as [name server]. unfold check_mcp. rewrite !invalid_ok, negb_false_iff. simpl. tauto.
Qed.

Lemma check_sandbox_ok e :
  check_sandbox e = Ok tt <->
  is_plain_name e.1 = true /\ is_builtin_sandbox e.1 = false /\ sandbox_validate e.1 e.2 = Ok tt.
Proof.
  unfold check_sandbox. rewrite bind_ok. split.
  - intros ([]&Hn%check_sandbox_name_ok&Hv). tauto.
  - intros (?&?&?). exists tt. split; [by apply check_sandbox_name_ok|done].
Qed.

Lemma find_none_forall {A} (p : A -> bool) l :
  List.find p l = None <-> Forall (fun x => p x = false) l.
Proof.
  induction l as [|x l IH]; simpl; [split; [constructor|done]|].
  rewrite Forall_cons_iff, <- IH. destruct (p x); naive_solver.
Qed.

Lemma existsb_false_forall {A} (p : A -> bool) l :
  existsb p l = false <-> Forall (fun x => p x = false) l.
Proof.
  induction l as [|x l IH]; simpl; [split; [constructor|done]|].
  rewrite Forall_cons_iff, <- IH. by rewrite orb_false_iff.
Qed.

Definition agent_config_valid (sb : btree string SandboxSettings) (a : AgentConfig) : Prop :=
  (forall name, ac_sandbox a = Some name -> is_known_sandbox name sb = true) /\
  Forall (fun p => is_blank p = false) (ac_state a) /\
  Forall (fun v => is_env_name v = true) (ac_env a).

Lemma check_agent_ok sb e : check_agent sb e = Ok tt <-> agent_config_valid sb e.2.
Proof.
  destruct e as [id a]. unfold check_agent, agent_config_valid. simpl.
  set (rest := if existsb is_blank (ac_state a) then _ else _).
  assert (rest = Ok tt <-> Forall (fun p => is_blank p = false) (ac_state a) /\
    Forall (fun v => is_env_name v = true) (ac_env a)) as Hrest.
  { unfold rest. rewrite invalid_ok, existsb_false_forall.
    assert ((match List.find (fun name => negb (is_env_name name)) (ac_env a) with
      | Some name => invalid ("agents." +:+ id +:+ ".env: " +:+ debug_str name
                      +:+ " is not a variable name; list names, never values")
      | None => Ok tt end) = Ok tt <-> List.find (fun name => negb (is_env_name name)) (ac_env a) = None) as ->
      by (by destruct (List.find _ _)).
    rewrite find_none_forall.
    assert (Forall (fun x => negb (is_env_name x) = false) (ac_env a) <->
      Forall (fun v => is_env_name v = true) (ac_env a)) as -> by (apply Forall_iff; intros v; apply negb_false_iff).
    done. }
  destruct (ac_sandbox a) as [name|]; [|rewrite Hrest; naive_solver].
  unfold unknown_sandbox. rewrite invalid_ok, Hrest, negb_false_iff. naive_solver.
Qed.

(** ** Runs of the environment blocks *)

Section Blocks.
Context (env : Env).
Implicit Types (blocks : list (string * (string -> Config -> Result Config))).

(** [b] keeps the value of [f]. *)
Definition keeps {T} (f : Config -> T) (b : string * (string -> Config -> Result Config)) : Prop :=
  forall raw c c', b.2 raw c = Ok c' -> f c' = f c.

Lemma run_blocks_app b1 b2 st :
  run_blocks env (b1 ++ b2) st = run_blocks env b2 (run_blocks env b1 st).
Proof. apply fold_left_app. Qed.

Lemma run_blocks_err blocks e : run_blocks env blocks (Err e) = Err e.
Proof. unfold run_blocks. by induction blocks. Qed.

Lemma env_step_keeps {T} (f : Config -> T) b st st' :
  keeps f b -> env_step env b.1 b.2 st = Ok st' -> f st'.1 = f st.1.
Proof.
  intros Hk. unfold env_step. destruct (var env b.1) as [raw|]; [|by intros [= <-]].
  intros (c&Hc&[= <-])%bind_ok. simpl. by eapply Hk.
Qed.

Lemma run_blocks_keeps {T} (f : Config -> T) blocks st st' :
  Forall (keeps f) blocks -> run_blocks env blocks (Ok st) = Ok st' -> f st'.1 = f st.1.
Proof.
  intros Hk. revert st. induction Hk as [|b blocks Hb _ IH]; intros st; simpl; [by intros [= <-]|].
  change (run_blocks env (b :: blocks) (Ok st)) with (run_blocks env blocks (env_step env b.1 b.2 st)).
  destruct (env_step env b.1 b.2 st) as [s|e] eqn:E; [|by rewrite run_blocks_err].
  intros Hr. rewrite (IH s Hr). by eapply env_step_keeps.
Qed.

(** A value [f] that one block only sets, to [g] of the parsed variable: at the
    end it is that when the variable is set, and the previous one otherwise. *)
Lemma run_blocks_set {V T} (f : Config -> T) (g : V -> T) (parse : string -> Result V) set key
    b1 b2 st st' :
  Forall (keeps f) b1 -> Forall (keeps f) b2 -> (forall v c, f (set v c) = g v) ->
  run_blocks env (b1 ++ (key, setting parse set) :: b2) (Ok st) = Ok st' ->
  match var env key with
  | Some raw => exists v, parse raw = Ok v /\ f st'.1 = g v
  | None => f st'.1 = f st.1
  end.
Proof.
  intros H1 H2 Hs. rewrite run_blocks_app.
  destruct (run_blocks env b1 (Ok st)) as [s1|e] eqn:E1; [|by rewrite run_blocks_err].
  apply (run_blocks_keeps f) in E1; [|done].
  change (run_blocks env ((key, setting parse set) :: b2) (Ok s1)) with
    (run_blocks env b2 (env_step env key (setting parse set) s1)).
  destruct (env_step env key (setting parse set) s1) as [s2|e] eqn:E2; [|by rewrite run_blocks_err].
  intros Hr%(run_blocks_keeps f); [|done]. rewrite Hr.
  unfold env_step in E2. destruct (var env key) as [raw|]; [|by simplify_eq].
  apply bind_ok in E2 as (c&Hc&[= <-]). apply bind_ok in Hc as (v&Hv&[= <-]). simpl. by exists v.
Qed.

Lemma env_step_applied b st st' :
  env_step env b.1 b.2 st = Ok st' -> st'.2 = st.2 || bool_decide (var env b.1 <> None).
Proof.
  unfold env_step. destruct (var env b.1) as [raw|].
  - intros (c&_&[= <-])%bind_ok. simpl. by rewrite orb_true_r.
  - intros [= <-]. by rewrite orb_false_r.
Qed.

Lemma run_blocks_applied blocks st st' :
  run_blocks env blocks (Ok st) = Ok st' ->
  st'.2 = st.2 || existsb (fun b => bool_decide (var env b.1 <> None)) blocks.
Proof.
  revert st. induction blocks as [|b blocks IH]; intros st; simpl.
  { intros [= <-]. by rewrite orb_false_r. }
  change (run_blocks env (b :: blocks) (Ok st)) with (run_blocks env blocks (env_step env b.1 b.2 st)).
  destruct (env_step env b.1 b.2 st) as [s|e] eqn:E; [|by rewrite run_blocks_err].
  intros Hr. rewrite (IH s Hr), (env_step_applied _ _ _ E). by rewrite orb_assoc.
Qed.
End Blocks.

(** Decides [keeps] for the blocks of the program: each sets one other field. *)
Ltac solve_keeps_one :=
  intros ? ? ?; cbn [snd]; unfold setting; intros (?&_&[= <-])%bind_ok; reflexivity.
Ltac solve_keeps :=
  unfold env_blocks; simpl;
  repeat first [apply List.Forall_nil | apply List.Forall_cons; [solve_keeps_one|]].

(** ** Stated models *)

Lemma find_app {A} (p : A -> bool) l k :
  List.find p (l ++ k) = match List.find p l with Some x => Some x | None => List.find p k end.
Proof. induction l as [|x l IH]; simpl; [done|]. by destruct (p x). Qed.

Lemma agent_model_add d m id :
  is_Some (agent_model d id) -> is_Some (agent_model (add_stated_model d m) id).
Proof.
  unfold add_stated_model. destruct (agent_model d m) eqn:E; [done|].
  unfold agent_model. simpl. rewrite find_app. intros [x ->]. by eexists.
Qed.

Lemma agent_model_added d m : is_Some (agent_model (add_stated_model d m) m).
Proof.
  unfold add_stated_model. destruct (agent_model d m) eqn:E; [by eexists|].
  unfold agent_model in *. simpl. rewrite find_app, E. simpl. by rewrite bool_decide_true.
Qed.

Lemma add_stated_models_spec l d :
  let d' := fold_left add_stated_model l d in
  (forall id, is_Some (agent_model d id) -> is_Some (agent_model d' id)) /\
  (forall m, m ∈ l -> is_Some (agent_model d' m)) /\
  a_id d' = a_id d /\ a_capabilities d' = a_capabilities d /\ a_metadata d' = a_metadata d.
Proof.
  revert d. induction l as [|m l IH]; intros d; simpl.
  { split_and!; try done. intros m Hm. by apply not_elem_of_nil in Hm. }
  destruct (IH (add_stated_model d m)) as (I1&I2&I3&I4&I5).
  assert (a_id (add_stated_model d m) = a_id d /\
    a_capabilities (add_stated_model d m) = a_capabilities d /\
    a_metadata (add_stated_model d m) = a_metadata d) as (E1&E2&E3)
    by (unfold add_stated_model; by destruct (agent_model d m)).
  split_and!; try congruence.
  - intros id Hid. by apply I1, agent_model_add.
  - intros m' [->|Hm]%elem_of_cons; [apply I1, agent_model_added|by apply I2].
Qed.

Lemma add_stated_models_present l d :
  (forall m, m ∈ l -> is_Some (agent_model d m)) -> fold_left add_stated_model l d = d.
Proof.
  induction l as [|m l IH]; intros Hm; simpl; [done|].
  assert (add_stated_model d m = d) as ->.
  { unfold add_stated_model. by destruct (Hm m) as [x ->]; [set_solver|]. }
  apply IH. intros m' Hm'. apply Hm. set_solver.
Qed.

Lemma bs_insert_present {K} `{OrdKey K} (x : K) (s : btset K) :
  bs_wf s -> x ∈ s -> bs_insert x s = s.
Proof.
  unfold bs_wf. induction s as [|y s IH]; [by intros _ ?%not_elem_of_nil|].
  intros Hw [->|Hx]%elem_of_cons; simpl.
  - by rewrite key_cmp_refl.
  - inversion Hw as [|? ? Hw' Hy]; subst. rewrite Forall_forall in Hy.
    pose proof (Hy x (proj1 (list_elem_of_In _ _) Hx)) as Hlt. rewrite key_cmp_antisym, Hlt. simpl. by rewrite IH.
Qed.

Lemma bs_extend_present {K} `{OrdKey K} (s : btset K) l :
  bs_wf s -> (forall x, x ∈ l -> x ∈ s) -> bs_extend s l = s.
Proof.
  intros W. induction l as [|x l IH]; intros Hl; [done|]. unfold bs_extend. simpl.
  rewrite bs_insert_present by (auto; apply Hl; set_solver). apply IH. set_solver.
Qed.

(** ** Properties *)

(** [Config::validate] accepts exactly the configurations in which the
    router weights are finite, non-negative and not all zero, work is possible
    and retries bounded, a stated budget is not zero or negative, every MCP
    server is named and runnable, and every sandbox an agent may run under is a
    built-in or a valid section that does not shadow a built-in. *)
Theorem config_validate_exact show c :
  config_validate show c = Ok tt <->
  weights_valid (weights (router c)) /\
  max_parallel_tasks (limits c) <> 0 /\ max_retries (limits c) <= 10 /\
  (forall b, max_cost_usd (limits c) = Some b -> f64_leb b f64_zero = false) /\
  Forall (fun e => is_plain_name e.1 = true /\ is_blank (mcp_command e.2) = false) (mcp c) /\
  (forall s, mem_mcp_server (memory c) = Some s -> s ∈ bt_keys (mcp c)) /\
  Forall (fun e => is_plain_name e.1 = true /\ is_builtin_sandbox e.1 = false /\
                   sandbox_validate e.1 e.2 = Ok tt) (sandboxes c) /\
  is_known_sandbox (agent_sandbox (security c)) (sandboxes c) = true /\
  Forall (fun e => agent_config_valid (sandboxes c) e.2) (agents c).
Proof.
  assert (forall (P : Prop) (r k : Result unit), (r = Ok tt <-> P) ->
    (let? _ := r in k) = Ok tt <-> P /\ k = Ok tt) as Hbind.
  { intros P r k <-. rewrite bind_ok. split; [by intros ([]&?&?)|by exists tt]. }
  unfold config_validate, validate_sandboxes, unknown_sandbox.
  rewrite (Hbind _ _ _ (weights_validate_ok show _)), !invalid_ok, Z.eqb_neq, Z.ltb_ge.
  rewrite (Hbind (forall b, max_cost_usd (limits c) = Some b -> f64_leb b f64_zero = false)).
  2: { destruct (max_cost_usd (limits c)) as [b|]; [|naive_solver].
       rewrite ensure_ok, negb_true_iff. naive_solver. }
  rewrite (Hbind _ _ _ (for_each_ok _ _)), (Forall_iff _ _ _ check_mcp_ok).
  rewrite (Hbind (forall s, mem_mcp_server (memory c) = Some s -> s ∈ bt_keys (mcp c))).
  2: { destruct (mem_mcp_server (memory c)) as [s|]; [|naive_solver].
       rewrite ensure_ok, bt_contains_key_spec. naive_solver. }
  rewrite (Hbind _ _ _ (for_each_ok _ _)), (Forall_iff _ _ _ check_sandbox_ok).
  rewrite invalid_ok, negb_false_iff, for_each_ok.
  rewrite (Forall_iff _ _ _ (check_agent_ok (sandboxes c))). tauto.
Qed.

(** Merging layers is associative: stacking the project's layer on the
    global one and then on the defaults is the same as stacking each in turn. *)
Theorem config_merge_assoc a b c :
  config_wf a -> config_wf b -> config_wf c ->
  config_merge (config_merge a b) c = config_merge a (config_merge b c).
Proof.
  intros [Wa1 Wa2 Wa3 Wa4] [Wb1 Wb2 Wb3 Wb4] [Wc1 Wc2 Wc3 Wc4].
  unfold config_merge; simpl. rewrite !bt_extend_assoc by done. f_equal.
  - apply merge_router_assoc.
  - unfold merge_memory; simpl. by autorewrite with cuma.
  - unfold merge_rtk; simpl. by autorewrite with cuma.
  - unfold merge_skills; simpl. autorewrite with cuma. by rewrite bt_extend_assoc.
  - unfold merge_security; simpl. by autorewrite with cuma.
  - unfold merge_limits; simpl. by autorewrite with cuma.
  - unfold merge_telemetry; simpl. by autorewrite with cuma.
Qed.

Lemma config_merge_assoc_witness :
  config_wf config_default /\
  config_merge (config_merge config_default config_default) (set_max_retries 5 config_default) =
  config_merge config_default (config_merge config_default (set_max_retries 5 config_default)).
Proof.
  assert (config_wf config_default) as W by (split; constructor).
  assert (config_wf (set_max_retries 5 config_default)) as W' by (split; constructor).
  split; [done|]. apply (config_merge_assoc _ _ _ W W W').
Defined.

(** A layer that sets nothing changes nothing, except that it resets
    [skills.registries] to the built-in list: that field's default is not
    empty, so the merge takes the silent layer's default for a setting. *)
Theorem silent_layer_resets_registries c :
  let c' := config_merge c config_default in
  sk_registries (skills c') = ["builtin"; "local"] /\
  router c' = router c /\ agents c' = agents c /\ mcp c' = mcp c /\ sandboxes c' = sandboxes c /\
  memory c' = memory c /\ rtk c' = rtk c /\ security c' = security c /\ limits c' = limits c /\
  telemetry c' = telemetry c /\
  (sk_registries (skills c) = ["builtin"; "local"] -> c' = c).
Proof.
  assert (router (config_merge c config_default) = router c) as Hr.
  { destruct c as [[]]; simpl. unfold merge_router; simpl.
    unfold merge_field, merge_f64, merge_weights; simpl. by vm_compute. }
  cbv zeta. destruct c as [r ag mc sb [] [] [] [] [] []]. simpl in Hr.
  unfold config_merge; simpl. rewrite Hr.
  unfold merge_memory, merge_rtk, merge_skills, merge_security, merge_limits, merge_telemetry; simpl.
  autorewrite with cuma. split_and!; try done. by intros ->.
Qed.

(** A recognized variable wins over every file, an unset or blank one
    changes nothing, a set but unparseable one is an error, and the sections the
    environment cannot reach are never touched. *)
Theorem env_apply_precedence parse_f64 env c c' applied :
  env_apply parse_f64 env c = Ok (c', applied) ->
  applied = existsb (fun b => bool_decide (var env b.1 <> None)) (env_blocks parse_f64) /\
  match var env "CUMA_MAX_RETRIES" with
  | Some raw => exists n, parse_num (parse_unsigned U32_MAX) raw "CUMA_MAX_RETRIES" = Ok n /\
                          max_retries (limits c') = n
  | None => max_retries (limits c') = max_retries (limits c)
  end /\
  match var env "CUMA_ROUTER_STRATEGY" with
  | Some raw => exists s, parse_strategy raw = Ok s /\
                  (strategy (router c'), weights (router c')) = (s, default_weights s)
  | None => (strategy (router c'), weights (router c')) = (strategy (router c), weights (router c))
  end /\
  match var env "CUMA_SANDBOX" with
  | Some raw => exists b, parse_bool raw "CUMA_SANDBOX" = Ok b /\ sec_sandbox (security c') = b
  | None => sec_sandbox (security c') = sec_sandbox (security c)
  end /\
  agents c' = agents c /\ mcp c' = mcp c /\ sandboxes c' = sandboxes c.
Proof.
  intros Hr. unfold env_apply in Hr. pose proof (run_blocks_applied _ _ _ _ Hr) as Ha.
  pose proof (fun T (f : Config -> T) H => run_blocks_keeps env f _ _ _ H Hr) as Hk.
  split; [exact Ha|]. split; [|split; [|split]].
  - apply (run_blocks_set env (fun c => max_retries (limits c)) (fun n => n)
      (fun raw => parse_num (parse_unsigned U32_MAX) raw "CUMA_MAX_RETRIES") set_max_retries
      "CUMA_MAX_RETRIES" (take 5 (env_blocks parse_f64)) (drop 6 (env_blocks parse_f64)) (c, false) (c', applied));
      [solve_keeps|solve_keeps|done|exact Hr].
  - apply (run_blocks_set env (fun c => (strategy (router c), weights (router c)))
      (fun s => (s, default_weights s)) parse_strategy set_strategy "CUMA_ROUTER_STRATEGY"
      [] (drop 1 (env_blocks parse_f64)) (c, false) (c', applied));
      [constructor|solve_keeps|done|exact Hr].
  - apply (run_blocks_set env (fun c => sec_sandbox (security c)) (fun b => b)
      (fun raw => parse_bool raw "CUMA_SANDBOX") set_sandbox "CUMA_SANDBOX" (take 13 (env_blocks parse_f64)) (drop 14 (env_blocks parse_f64)) (c, false) (c', applied));
      [solve_keeps|solve_keeps|done|exact Hr].
  - split_and!; apply Hk; solve_keeps.
Qed.

Lemma env_apply_precedence_witness :
  let env (k : string) := if bool_decide (k = "CUMA_MAX_RETRIES") then Some " 5 " else None in
  match env_apply (fun _ => None) env config_default with
  | Ok (c, applied) => applied = true /\ max_retries (limits c) = 5
  | Err _ => False
  end.
Proof.
  intros env.
  destruct (env_apply (fun _ => None) env config_default) as [[c b]|e] eqn:E; [|by vm_compute in E].
  destruct (env_apply_precedence _ _ _ _ _ E) as (Hb&Hm&_). vm_compute in Hb. split; [done|].
  destruct Hm as (n&Hn&->). vm_compute in Hn. by injection Hn as <-.
Defined.

(** Stating an agent's profile adds exactly the stated capabilities, gives
    the agent every stated model once, and stating it again changes nothing. *)
Theorem apply_to_spec cfg d :
  bs_wf (a_capabilities d) -> bt_wf (a_metadata d) -> NoDup (bt_keys (ac_metadata cfg)) ->
  let d' := apply_to cfg d in
  (forall x, x ∈ a_capabilities d' <->
     x ∈ a_capabilities d \/ x ∈ map capability_parse (ac_capabilities cfg)) /\
  (forall m, m ∈ ac_models cfg -> is_Some (agent_model d' m)) /\
  (forall k, bt_get k (a_metadata d') =
     match bt_get k (ac_metadata cfg) with Some v => Some v | None => bt_get k (a_metadata d) end) /\
  apply_to cfg d' = d'.
Proof.
  intros Wc Wm Hn. cbv zeta.
  set (d1 := with_capabilities (bs_extend (a_capabilities d) (map capability_parse (ac_capabilities cfg))) d).
  destruct (add_stated_models_spec (ac_models cfg) d1) as (_&S2&_&S4&S5).
  set (d2 := fold_left add_stated_model (ac_models cfg) d1) in *.
  assert (apply_to cfg d = with_metadata (bt_extend (a_metadata d2) (ac_metadata cfg)) d2) as Hd' by done.
  assert (a_capabilities d2 = bs_extend (a_capabilities d) (map capability_parse (ac_capabilities cfg))) as Hc
    by (by rewrite S4).
  rewrite Hd'. split_and!.
  - intros x. cbn [with_metadata a_capabilities]. by rewrite Hc, bs_elem_of_extend.
  - exact S2.
  - intros k. cbn [with_metadata a_metadata]. rewrite bt_get_extend by done. by rewrite S5.
  - unfold apply_to. cbn [with_metadata a_capabilities]. rewrite Hc.
    rewrite bs_extend_present by (auto using bs_wf_extend; intros x; rewrite bs_elem_of_extend; auto).
    rewrite <- Hc. rewrite (add_stated_models_present (ac_models cfg)) by exact S2.
    unfold with_metadata, with_capabilities; cbn. f_equal.
    apply bt_ext; [by repeat apply bt_extend_wf; rewrite S5|by apply bt_extend_wf; rewrite S5|].
    intros k. rewrite !bt_get_extend by done. by destruct (bt_get k (ac_metadata cfg)).
Qed.

Lemma apply_to_spec_witness :
  let cfg := {| ac_enabled := true; ac_protocol := "acp"; ac_command := None; ac_endpoint := None;
    ac_capabilities := ["research"]; ac_models := ["m1"; "m1"]; ac_auth_secret_ref := None;
    ac_metadata := [("k", "v")]; ac_sandbox := None; ac_state := []; ac_env := [] |} in
  Research ∈ a_capabilities (apply_to cfg (agent_new "a" "A" Acp)).
Proof.
  cbv zeta. eapply apply_to_spec.
  - constructor.
  - constructor.
  - apply (NoDup_singleton "k").
  - right. apply list_elem_of_In. simpl. by left.
Defined.
