(* ===== verification/Usage.v ===== *)
(** * Usage accounting ([cuma-usage/src/lib.rs])

    The session ledger, its totals and groupings.  Counters are [u32] and wrap,
    token and latency sums are [u64] and saturate, costs are doubles. *)

From S2P Require Export Task Agent.
From stdpp Require Import pretty.
Open Scope string_scope.
Open Scope Z_scope.

Record UsageRecord := {
  u_attempt_id : AttemptId;
  u_session_id : SessionId;
  u_task_id : TaskId;
  u_task_type : TaskType;
  u_agent_id : AgentId;
  u_model_id : option ModelId;
  u_provider : option string;
  u_started_at : Z;
  u_latency_ms : Z;
  u_tokens : TokenUsage;
  u_estimated_cost_usd : option f64;
  u_cost_reported : bool;
  u_success : bool;
  u_failure_class : option ErrorClass;
  u_retry_count : Z;
}.

Record UsageTotals := {
  ut_attempts : Z;
  ut_successes : Z;
  ut_input_tokens : Z;
  ut_output_tokens : Z;
  ut_cached_tokens : Z;
  ut_estimated_cost_usd : f64;
  ut_attempts_without_pricing : Z;
  ut_attempts_with_estimated_tokens : Z;
  ut_total_latency_ms : Z;
  ut_retries : Z;
}.

Definition totals_default : UsageTotals :=
  {| ut_attempts := 0; ut_successes := 0; ut_input_tokens := 0; ut_output_tokens := 0;
     ut_cached_tokens := 0; ut_estimated_cost_usd := f64_zero; ut_attempts_without_pricing := 0;
     ut_attempts_with_estimated_tokens := 0; ut_total_latency_ms := 0; ut_retries := 0 |}.

Definition priced (r : UsageRecord) : bool :=
  match u_estimated_cost_usd r with Some _ => true | None => false end.

(** [+= 1] under a condition. *)
Definition count_if (c : bool) (n : Z) : Z := if c then wrap32 (n + 1) else n.

(** [UsageTotals::add]. *)
Definition totals_add (t : UsageTotals) (r : UsageRecord) : UsageTotals :=
  {| ut_attempts := wrap32 (ut_attempts t + 1);
     ut_successes := count_if (u_success r) (ut_successes t);
     ut_input_tokens := sat64 (ut_input_tokens t + tu_input (u_tokens r));
     ut_output_tokens := sat64 (ut_output_tokens t + tu_output (u_tokens r));
     ut_cached_tokens := sat64 (ut_cached_tokens t + tu_cached (u_tokens r));
     ut_estimated_cost_usd :=
       match u_estimated_cost_usd r with
       | Some cost => f64_add (ut_estimated_cost_usd t) cost
       | None => ut_estimated_cost_usd t
       end;
     ut_attempts_without_pricing := count_if (negb (priced r)) (ut_attempts_without_pricing t);
     ut_attempts_with_estimated_tokens :=
       count_if (negb (tu_reported (u_tokens r))) (ut_attempts_with_estimated_tokens t);
     ut_total_latency_ms := sat64 (ut_total_latency_ms t + u_latency_ms r);
     ut_retries := wrap32 (ut_retries t + u_retry_count r) |}.

(** [UsageTotals::total_tokens]. *)
Definition totals_total_tokens (t : UsageTotals) : Z := sat64 (ut_input_tokens t + ut_output_tokens t).

(** [UsageTotals::success_rate]. *)
Definition success_rate (t : UsageTotals) : option f64 :=
  if ut_attempts t =? 0 then None
  else Some (f64_div (f64_of_Z (ut_successes t)) (f64_of_Z (ut_attempts t))).

(** [UsageTotals::mean_latency_ms]. *)
Definition mean_latency_ms (t : UsageTotals) : option Z :=
  if ut_attempts t =? 0 then None else Some (ut_total_latency_ms t / ut_attempts t).

(** [UsageTotals::is_complete]. *)
Definition totals_is_complete (t : UsageTotals) : bool :=
  (ut_attempts_without_pricing t =? 0) && (ut_attempts_with_estimated_tokens t =? 0).

(** [UsageTotals::render_cost]. *)
Definition render_cost (t : UsageTotals) : string :=
  if ut_attempts t =? 0 then "-"
  else if ut_attempts_without_pricing t =? ut_attempts t then "unknown"
  else if 0 <? ut_attempts_without_pricing t then
    "≥$" +:+ fmt_fixed 4 (ut_estimated_cost_usd t) +:+ " ("
    +:+ pretty (ut_attempts_without_pricing t) +:+ " of " +:+ pretty (ut_attempts t)
    +:+ " attempts unpriced)"
  else "~$" +:+ fmt_fixed 4 (ut_estimated_cost_usd t).

(** ** The ledger *)

Record UsageTracker := {
  records : list UsageRecord;
  rtk_tokens_saved : Z;
}.

Definition tracker_new : UsageTracker := {| records := []; rtk_tokens_saved := 0 |}.

(** [UsageTracker::record]. *)
Definition tracker_record (r : UsageRecord) (t : UsageTracker) : UsageTracker :=
  {| records := (records t ++ [r])%list; rtk_tokens_saved := rtk_tokens_saved t |}.

(** [UsageTracker::record_rtk_saving]. *)
Definition record_rtk_saving (tokens : Z) (t : UsageTracker) : UsageTracker :=
  {| records := records t; rtk_tokens_saved := sat64 (rtk_tokens_saved t + tokens) |}.

Definition totals_of (l : list UsageRecord) : UsageTotals := fold_left totals_add l totals_default.

(** [UsageTracker::totals]. *)
Definition totals (t : UsageTracker) : UsageTotals := totals_of (records t).

(** [UsageTracker::spent_usd]. *)
Definition spent_usd (t : UsageTracker) : f64 := f64_sum (omap u_estimated_cost_usd (records t)).

(** [grouped.entry(key).or_default().add(record)] for every record that has a
    key. *)
Definition group_by {K} `{OrdKey K} (key : UsageRecord -> option K) (l : list UsageRecord)
  : btree K UsageTotals :=
  fold_left (fun m r => match key r with
                        | Some k => bt_upsert totals_default (fun t => totals_add t r) k m
                        | None => m
                        end) l [].

(** [UsageTracker::by_agent], [by_model] and [by_task_type]. *)
Definition by_agent (t : UsageTracker) : btree AgentId UsageTotals :=
  group_by (fun r => Some (u_agent_id r)) (records t).

Definition by_model (t : UsageTracker) : btree (AgentId * ModelId) UsageTotals :=
  group_by (fun r => match u_model_id r with Some m => Some (u_agent_id r, m) | None => None end)
    (records t).

Definition by_task_type (t : UsageTracker) : btree TaskType UsageTotals :=
  group_by (fun r => Some (u_task_type r)) (records t).

(** [UsageTracker::retry_rate]. *)
Definition retry_rate (t : UsageTracker) : option f64 :=
  if ut_attempts (totals t) =? 0 then None
  else Some (f64_div (f64_of_Z (ut_retries (totals t))) (f64_of_Z (ut_attempts (totals t)))).

Definition failure_label (r : UsageRecord) : string :=
  match u_failure_class r with Some c => class_debug c | None => "unclassified" end.

(** [UsageTracker::failure_breakdown]. *)
Definition failure_breakdown (t : UsageTracker) : btree string Z :=
  fold_left (fun m r => bt_upsert 0 (fun n => wrap32 (n + 1)) (failure_label r) m)
    (List.filter (fun r => negb (u_success r)) (records t)) [].

(** [UsageTracker::cost_per_success]. *)
Definition cost_per_success (t : UsageTracker) : option f64 :=
  let s := totals t in
  if (ut_successes s =? 0) || (ut_attempts_without_pricing s =? ut_attempts s) then None
  else Some (f64_div (ut_estimated_cost_usd s) (f64_of_Z (ut_successes s))).

(** [estimate_cost]. *)
Definition estimate_cost (profile : CostProfile) (tokens : TokenUsage) : option f64 :=
  known_value (estimate profile (tu_input tokens) (tu_output tokens)).

(** ** Folding in records *)

(** Records as the program builds them: every counter fits its width. *)
Definition record_ok (r : UsageRecord) : Prop :=
  is_u64 (tu_input (u_tokens r)) /\ is_u64 (tu_output (u_tokens r)) /\
  is_u64 (tu_cached (u_tokens r)) /\ is_u64 (u_latency_ms r) /\ is_u32 (u_retry_count r).

Definition sum_of (f : UsageRecord -> Z) (l : list UsageRecord) : Z :=
  fold_right (fun r n => f r + n) 0 l.

Definition count_of (p : UsageRecord -> bool) (l : list UsageRecord) : Z :=
  Z.of_nat (length (List.filter p l)).

Lemma sum_of_app f l k : sum_of f (l ++ k) = sum_of f l + sum_of f k.
Proof. induction l as [|r l IH]; simpl; [done|]. rewrite IH. lia. Qed.

Lemma sum_of_nonneg f l : Forall (fun r => 0 <= f r) l -> 0 <= sum_of f l.
Proof. induction 1; simpl; lia. Qed.

Lemma count_of_snoc p l r : count_of p (l ++ [r]) = count_of p l + (if p r then 1 else 0).
Proof. unfold count_of. rewrite List.filter_app, length_app. simpl. destruct (p r); simpl; lia. Qed.

Lemma count_if_wrap c n : count_if c (wrap32 n) = wrap32 (n + (if c then 1 else 0)).
Proof.
  unfold count_if, wrap32. destruct c; [by rewrite Z.add_mod_idemp_l|by rewrite Z.add_0_r].
Qed.

Lemma sat64_add_sum a b : 0 <= a -> 0 <= b -> sat64 (sat64 a + b) = sat64 (a + b).
Proof. intros. rewrite sat64_add_l by done. by rewrite Z.max_r. Qed.

(** Every counter of the totals, in closed form. *)
Record totals_spec (l : list UsageRecord) (t : UsageTotals) : Prop := {
  ts_attempts : ut_attempts t = wrap32 (Z.of_nat (length l));
  ts_successes : ut_successes t = wrap32 (count_of u_success l);
  ts_input : ut_input_tokens t = sat64 (sum_of (fun r => tu_input (u_tokens r)) l);
  ts_output : ut_output_tokens t = sat64 (sum_of (fun r => tu_output (u_tokens r)) l);
  ts_cached : ut_cached_tokens t = sat64 (sum_of (fun r => tu_cached (u_tokens r)) l);
  ts_cost : ut_estimated_cost_usd t = fold_left f64_add (omap u_estimated_cost_usd l) f64_zero;
  ts_unpriced : ut_attempts_without_pricing t = wrap32 (count_of (fun r => negb (priced r)) l);
  ts_estimated : ut_attempts_with_estimated_tokens t =
    wrap32 (count_of (fun r => negb (tu_reported (u_tokens r))) l);
  ts_latency : ut_total_latency_ms t = sat64 (sum_of u_latency_ms l);
  ts_retries : ut_retries t = wrap32 (sum_of u_retry_count l);
}.

Lemma totals_of_snoc l r : totals_of (l ++ [r]) = totals_add (totals_of l) r.
Proof. unfold totals_of. by rewrite fold_left_app. Qed.

Lemma omap_app_list {A B} (f : A -> option B) l k : omap f (l ++ k)%list = (omap f l ++ omap f k)%list.
Proof.
  induction l as [|x l IH]; [done|]. cbn. destruct (f x); [|exact IH]. cbn. f_equal. exact IH.
Qed.

Lemma totals_of_spec l : Forall record_ok l -> totals_spec l (totals_of l).
Proof.
  induction l as [|r l IH] using rev_ind; [done|]. intros [Hl Hr]%Forall_app.
  specialize (IH Hl) as [I1 I2 I3 I4 I5 I6 I7 I8 I9 I10]. inversion Hr as [|? ? (?&?&?&?&?) _]; subst.
  assert (forall f, (forall r, record_ok r -> 0 <= f r) -> 0 <= sum_of f l) as Hs.
  { intros f Hf. apply sum_of_nonneg. eapply Forall_impl; [exact Hl|exact Hf]. }
  unfold record_ok, is_u64, is_u32 in *.
  rewrite totals_of_snoc. split; cbn [totals_add ut_attempts ut_successes ut_input_tokens
    ut_output_tokens ut_cached_tokens ut_estimated_cost_usd ut_attempts_without_pricing
    ut_attempts_with_estimated_tokens ut_total_latency_ms ut_retries];
    rewrite ?sum_of_app, ?count_of_snoc; cbn [sum_of fold_right]; rewrite ?Z.add_0_r.
  - rewrite I1, length_app. unfold wrap32. rewrite Z.add_mod_idemp_l by lia. f_equal. simpl. lia.
  - by rewrite I2, count_if_wrap.
  - rewrite I3, sat64_add_sum; [done| |lia]. apply Hs. intros; lia.
  - rewrite I4, sat64_add_sum; [done| |lia]. apply Hs. intros; lia.
  - rewrite I5, sat64_add_sum; [done| |lia]. apply Hs. intros; lia.
  - rewrite omap_app_list, fold_left_app, I6. simpl. by destruct (u_estimated_cost_usd r).
  - by rewrite I7, count_if_wrap.
  - by rewrite I8, count_if_wrap.
  - rewrite I9, sat64_add_sum; [done| |lia]. apply Hs. intros; lia.
  - rewrite I10. unfold wrap32. by rewrite Z.add_mod_idemp_l by lia.
Qed.

(** ** Grouping *)

Section Group.
Context {K : Type} `{OrdKey K} (key : UsageRecord -> option K).

Definition has_key (k : K) (r : UsageRecord) : bool := bool_decide (key r = Some k).

Lemma group_by_snoc l r :
  group_by key (l ++ [r]) =
  match key r with
  | Some k => bt_upsert totals_default (fun t => totals_add t r) k (group_by key l)
  | None => group_by key l
  end.
Proof. unfold group_by. by rewrite fold_left_app. Qed.

Lemma group_by_get k l :
  bt_get k (group_by key l) =
  match List.filter (has_key k) l with [] => None | l' => Some (totals_of l') end.
Proof.
  induction l as [|r l IH] using rev_ind; [done|].
  rewrite group_by_snoc, List.filter_app. simpl. unfold has_key at 2.
  destruct (key r) as [k'|] eqn:Ek.
  - rewrite bt_get_upsert. destruct (decide (k = k')) as [->|Hne].
    + rewrite !bool_decide_true by done. rewrite IH. f_equal.
      destruct (List.filter (has_key k') l) as [|x l'] eqn:Ef; [done|].
      simpl. change (x :: l' ++ [r])%list with ((x :: l') ++ [r])%list. by rewrite totals_of_snoc.
    + rewrite (bool_decide_false (k = k')) by done.
      rewrite (bool_decide_false (Some k' = Some k)) by (intros [=]; congruence).
      by rewrite IH, app_nil_r.
  - rewrite (bool_decide_false (None = Some k)) by done. by rewrite IH, app_nil_r.
Qed.

Lemma group_by_wf l : bt_wf (group_by key l).
Proof.
  induction l as [|r l IH] using rev_ind; [constructor|]. rewrite group_by_snoc.
  destruct (key r); [by apply bt_wf_upsert|done].
Qed.
End Group.

(** ** Properties *)

(** The session totals count every recorded attempt: the counters modulo
    their width, the token and latency sums saturated, and the cost summed over
    the priced attempts only. *)
Theorem totals_exact t :
  Forall record_ok (records t) ->
  let l := records t in let s := totals t in
  ut_attempts s = wrap32 (Z.of_nat (length l)) /\
  ut_successes s = wrap32 (count_of u_success l) /\
  ut_input_tokens s = sat64 (sum_of (fun r => tu_input (u_tokens r)) l) /\
  ut_output_tokens s = sat64 (sum_of (fun r => tu_output (u_tokens r)) l) /\
  ut_total_latency_ms s = sat64 (sum_of u_latency_ms l) /\
  ut_retries s = wrap32 (sum_of u_retry_count l) /\
  ut_attempts_without_pricing s = wrap32 (count_of (fun r => negb (priced r)) l) /\
  ut_estimated_cost_usd s = fold_left f64_add (omap u_estimated_cost_usd l) f64_zero.
Proof. intros Hl. cbv zeta. by destruct (totals_of_spec (records t) Hl). Qed.

Definition sample_record (agent : AgentId) (cost : option f64) : UsageRecord :=
  {| u_attempt_id := "t"; u_session_id := "s"; u_task_id := "k"; u_task_type := General;
     u_agent_id := agent; u_model_id := None; u_provider := None; u_started_at := 0;
     u_latency_ms := 7; u_tokens := tokens_reported 10 20; u_estimated_cost_usd := cost;
     u_cost_reported := false; u_success := true; u_failure_class := None; u_retry_count := 0 |}.

Lemma totals_exact_witness :
  ut_attempts_without_pricing (totals {| records := [sample_record "a" None; sample_record "b" (Some f64_one)];
    rtk_tokens_saved := 0 |}) = 1.
Proof.
  edestruct (totals_exact {| records := [sample_record "a" None; sample_record "b" (Some f64_one)];
    rtk_tokens_saved := 0 |}) as (_&_&_&_&_&_&H&_).
  - repeat constructor; vm_compute; done.
  - rewrite H. vm_compute. done.
Defined.

(** Grouping loses and mixes nothing: the totals of an agent, of an agent's
    model and of a task type are the totals of exactly the records that carry
    that key, and a key without records has no entry. *)
Theorem groups_partition t :
  let some_totals l := match l with [] => None | _ => Some (totals_of l) end in
  (forall a, bt_get a (by_agent t) =
     some_totals (List.filter (fun r => bool_decide (u_agent_id r = a)) (records t))) /\
  (forall a m, bt_get (a, m) (by_model t) =
     some_totals (List.filter (fun r => bool_decide (u_agent_id r = a /\ u_model_id r = Some m))
       (records t))) /\
  (forall ty, bt_get ty (by_task_type t) =
     some_totals (List.filter (fun r => bool_decide (u_task_type r = ty)) (records t))) /\
  bt_wf (by_agent t) /\ bt_wf (by_model t) /\ bt_wf (by_task_type t).
Proof.
  cbv zeta. split_and!; try apply group_by_wf.
  - intros a. unfold by_agent. rewrite group_by_get.
    rewrite (List.filter_ext _ (fun r => bool_decide (u_agent_id r = a))); [by destruct (List.filter _ _)|].
    intros r. apply bool_decide_ext. naive_solver.
  - intros a m. unfold by_model. rewrite group_by_get.
    rewrite (List.filter_ext _ (fun r => bool_decide (u_agent_id r = a /\ u_model_id r = Some m))); [by destruct (List.filter _ _)|].
    intros r. apply bool_decide_ext. destruct (u_model_id r); naive_solver.
  - intros ty. unfold by_task_type. rewrite group_by_get.
    rewrite (List.filter_ext _ (fun r => bool_decide (u_task_type r = ty))); [by destruct (List.filter _ _)|].
    intros r. apply bool_decide_ext. naive_solver.
Qed.

(** Totals are presented as complete exactly when every attempt reported its
    tokens and was priced; an estimate never passes for a measurement. *)
Theorem complete_means_reported t :
  Forall record_ok (records t) -> Z.of_nat (length (records t)) <= U32_MAX ->
  totals_is_complete (totals t) = true <->
  forall r, r ∈ records t -> priced r = true /\ tu_reported (u_tokens r) = true.
Proof.
  intros Hl Hn. destruct (totals_of_spec (records t) Hl) as [_ _ _ _ _ _ T7 T8 _ _].
  unfold totals_is_complete, totals. rewrite T7, T8.
  assert (forall p, 0 <= count_of p (records t) <= U32_MAX) as Hc.
  { intros p. unfold count_of. pose proof (List.filter_length_le p (records t)). lia. }
  rewrite !wrap32_small by apply Hc. rewrite andb_true_iff, !Z.eqb_eq.
  assert (forall p : UsageRecord -> bool, count_of (fun r => negb (p r)) (records t) = 0 <->
    forall r, r ∈ records t -> p r = true) as Hz.
  { intros p. unfold count_of. clear. induction (records t) as [|r l IH]; simpl.
    - split; [intros _ r Hr; by apply not_elem_of_nil in Hr|done].
    - destruct (p r) eqn:E; simpl; [rewrite IH|]; split.
      + intros Hi r' [->|Hr]%elem_of_cons; [done|by apply Hi].
      + intros Hi r' Hr. apply Hi, elem_of_cons. by right.
      + lia.
      + intros Hi. rewrite Hi in E; [done|]. apply elem_of_cons. by left. }
  rewrite !Hz. naive_solver.
Qed.

Lemma complete_means_reported_witness :
  totals_is_complete (totals {| records := [sample_record "b" (Some f64_one)]; rtk_tokens_saved := 0 |}) = true.
Proof.
  apply (complete_means_reported {| records := [sample_record "b" (Some f64_one)]; rtk_tokens_saved := 0 |}).
  - repeat constructor; vm_compute; done.
  - vm_compute. done.
  - intros r [->|Hr]%elem_of_cons; [split; reflexivity|by apply not_elem_of_nil in Hr].
Defined.
