(* ===== verification/Registry.v ===== *)
(** * Registries ([cuma-registry/src/agents.rs], [models.rs], [capabilities.rs])

    The registry of agents and its routing snapshot, the registry of models
    with its running success rate, and the reverse index from capabilities to
    agents.  The read-write locks serialise the operations; each is one step. *)

From S2P Require Export Config.
Open Scope string_scope.
Open Scope Z_scope.

(** ** Snapshots *)

Definition RegistrySnapshot : Type := list AgentDescriptor.

(** [RegistrySnapshot::routable]. *)
Definition routable (s : RegistrySnapshot) : list AgentDescriptor := List.filter agent_is_routable s.

(** [RegistrySnapshot::get]. *)
Definition snapshot_get (s : RegistrySnapshot) (id : AgentId) : option AgentDescriptor :=
  List.find (fun a => bool_decide (a_id a = id)) s.

Definition insert_all (set : CapabilitySet) (caps : CapabilitySet) : CapabilitySet :=
  fold_left (fun s c => caps_insert c s) caps set.

(** An agent's capabilities and its models'. *)
Definition add_agent_caps (set : CapabilitySet) (a : AgentDescriptor) : CapabilitySet :=
  fold_left (fun s m => insert_all s (m_capabilities m)) (a_models a)
    (insert_all set (a_capabilities a)).

(** [RegistrySnapshot::available_capabilities]. *)
Definition available_capabilities (s : RegistrySnapshot) : CapabilitySet :=
  fold_left add_agent_caps (routable s) [].

(** ** [AgentRegistry] *)

Definition AgentRegistry : Type := btree AgentId AgentDescriptor.

(** [AgentRegistry::register]. *)
Definition register (agent : AgentDescriptor) (r : AgentRegistry) : AgentRegistry :=
  let agent := match bt_get (a_id agent) r with
               | Some existing => with_health (a_health existing) agent
               | None => agent
               end in
  bt_insert (a_id agent) agent r.

(** [AgentRegistry::register_all]. *)
Definition register_all (agents : list AgentDescriptor) (r : AgentRegistry) : AgentRegistry :=
  fold_left (fun r a => register a r) agents r.

(** [AgentRegistry::deregister]. *)
Definition deregister (id : AgentId) (r : AgentRegistry) : AgentRegistry * option AgentDescriptor :=
  (bt_remove id r, bt_get id r).

(** [AgentRegistry::snapshot]. *)
Definition registry_snapshot (r : AgentRegistry) : RegistrySnapshot := bt_values r.

(** The body of [AgentRegistry::set_health]; [now] is the wall clock. *)
Definition health_after (now : Z) (state : HealthState) (error : option string) (h : AgentHealth)
  : AgentHealth :=
  if bool_decide (state = Healthy) then
    {| h_state := state; h_consecutive_failures := 0; h_last_latency_ms := h_last_latency_ms h;
       h_last_success := Some now; h_last_error := None |}
  else match error with
       | Some _ =>
           {| h_state := state; h_consecutive_failures := wrap32 (h_consecutive_failures h + 1);
              h_last_latency_ms := h_last_latency_ms h; h_last_success := h_last_success h;
              h_last_error := error |}
       | None =>
           {| h_state := state; h_consecutive_failures := h_consecutive_failures h;
              h_last_latency_ms := h_last_latency_ms h; h_last_success := h_last_success h;
              h_last_error := h_last_error h |}
       end.

(** [AgentRegistry::set_health]. *)
Definition set_health (now : Z) (id : AgentId) (state : HealthState) (error : option string)
    (r : AgentRegistry) : AgentRegistry :=
  bt_alter (fun a => with_health (health_after now state error (a_health a)) a) id r.

(** [AgentRegistry::record_latency]. *)
Definition record_latency (id : AgentId) (latency_ms : Z) (r : AgentRegistry) : AgentRegistry :=
  bt_alter (fun a =>
    with_health {| h_state := h_state (a_health a);
                   h_consecutive_failures := h_consecutive_failures (a_health a);
                   h_last_latency_ms := Reported latency_ms;
                   h_last_success := h_last_success (a_health a);
                   h_last_error := h_last_error (a_health a) |} a) id r.

(** [AgentRegistry::set_enabled]. *)
Definition set_enabled (id : AgentId) (enabled : bool) (r : AgentRegistry) : AgentRegistry :=
  bt_alter (with_enabled enabled) id r.

(** A discovery source: its name and what [discover] returns. *)
Definition Source : Type := string * Result (list AgentDescriptor).

(** [AgentRegistry::discover]. *)
Definition discover (sources : list Source) (r : AgentRegistry)
  : AgentRegistry * (Z * list (string * string)) :=
  fold_left (fun st (source : Source) =>
      let '(r, (discovered, failures)) := st in
      match source.2 with
      | Ok agents => (register_all agents r, (discovered + Z.of_nat (length agents), failures))
      | Err err => (r, (discovered, (failures ++ [(source.1, error_display err)])%list))
      end) sources (r, (0, [])).

(** [AgentRegistry::by_protocol]. *)
Definition by_protocol (p : AgentProtocol) (r : AgentRegistry) : list AgentDescriptor :=
  List.filter (fun a => bool_decide (a_protocol a = p)) (bt_values r).

(** ** [descriptors_from_config] *)

Definition protocol_of (id raw : string) : Result AgentProtocol :=
  let s := to_ascii_lowercase raw in
  if bool_decide (s = "acp") then Ok Acp
  else if bool_decide (s = "a2a") then Ok A2A
  else if bool_decide (s = "native") then Ok Native
  else Err (EConfiguration ("agent " +:+ id +:+ ": unknown protocol " +:+ debug_str s
                            +:+ " (expected acp, a2a or native)")).

Definition with_auth (auth : AgentAuth) (a : AgentDescriptor) : AgentDescriptor :=
  {| a_id := a_id a; a_name := a_name a; a_protocol := a_protocol a;
     a_capabilities := a_capabilities a; a_models := a_models a; a_health := a_health a;
     a_limits := a_limits a; a_cost_profile := a_cost_profile a;
     a_performance_profile := a_performance_profile a;
     a_auth := auth; a_enabled := a_enabled a; a_metadata := a_metadata a |}.

Definition add_metadata (key : string) (value : option string) (a : AgentDescriptor) : AgentDescriptor :=
  match value with
  | Some v => with_metadata (bt_insert key v (a_metadata a)) a
  | None => a
  end.

Definition descriptor_from_config (entry : string * AgentConfig) : Result AgentDescriptor :=
  let '(id, cfg) := entry in
  let? protocol := protocol_of id (ac_protocol cfg) in
  let d := with_enabled (ac_enabled cfg) (agent_new id id protocol) in
  let d := apply_to cfg d in
  let d := add_metadata "command" (ac_command cfg) d in
  let d := add_metadata "endpoint" (ac_endpoint cfg) d in
  Ok (with_auth (match ac_auth_secret_ref cfg with
                 | Some handle => SecretRef handle
                 | None => AgentManaged
                 end) d).

Fixpoint descriptors_of (l : list (string * AgentConfig)) : Result (list AgentDescriptor) :=
  match l with
  | [] => Ok []
  | e :: l' => let? d := descriptor_from_config e in
               let? ds := descriptors_of l' in Ok (d :: ds)
  end.

Definition descriptors_from_config (c : Config) : Result (list AgentDescriptor) :=
  descriptors_of (agents c).

(** ** [ModelRegistry] *)

Definition ModelRegistry : Type := btree (AgentId * ModelId) ModelDescriptor.

(** [ModelRegistry::register]. *)
Definition model_register (m : ModelDescriptor) (r : ModelRegistry) : ModelRegistry :=
  bt_insert (m_agent_id m, m_id m) m r.

(** [ModelRegistry::register_agent_models]. *)
Definition register_agent_models (a : AgentDescriptor) (r : ModelRegistry) : ModelRegistry :=
  fold_left (fun r m => model_register m r) (a_models a) r.

(** [ModelRegistry::for_agent]. *)
Definition for_agent (agent : AgentId) (r : ModelRegistry) : list ModelDescriptor :=
  map snd (List.filter (fun e => bool_decide (e.1.1 = agent)) r).

Definition with_available (b : bool) (m : ModelDescriptor) : ModelDescriptor :=
  {| m_id := m_id m; m_agent_id := m_agent_id m; m_name := m_name m; m_provider := m_provider m;
     m_context_window := m_context_window m; m_cost := m_cost m; m_performance := m_performance m;
     m_capabilities := m_capabilities m; m_available := b |}.

(** [ModelRegistry::set_available]. *)
Definition set_available (agent : AgentId) (model : ModelId) (b : bool) (r : ModelRegistry)
  : ModelRegistry := bt_alter (with_available b) (agent, model) r.

Definition ALPHA : f64 := f64_lit 1 10.

Definition rate_after (success : bool) (rate : Known f64) : Known f64 :=
  let observation := if success then f64_one else f64_zero in
  let updated := match rate with
                 | Reported prev | Estimated prev =>
                     f64_add (f64_mul prev (f64_sub f64_one ALPHA)) (f64_mul observation ALPHA)
                 | KUnknown => observation
                 end in
  Estimated (f64_clamp01 updated).

Definition with_success_rate (rate : Known f64) (m : ModelDescriptor) : ModelDescriptor :=
  let p := m_performance m in
  {| m_id := m_id m; m_agent_id := m_agent_id m; m_name := m_name m; m_provider := m_provider m;
     m_context_window := m_context_window m; m_cost := m_cost m;
     m_performance := {| typical_latency_ms := typical_latency_ms p;
       throughput_tps := throughput_tps p; historical_success_rate := rate;
       coding_score := coding_score p; reasoning_score := reasoning_score p |};
     m_capabilities := m_capabilities m; m_available := m_available m |}.

(** [ModelRegistry::record_outcome]. *)
Definition record_outcome (agent : AgentId) (model : ModelId) (success : bool) (r : ModelRegistry)
  : ModelRegistry :=
  bt_alter (fun m => with_success_rate
    (rate_after success (historical_success_rate (m_performance m))) m) (agent, model) r.

(** ** [CapabilityIndex] *)

Definition CapabilityIndex : Type := btree Capability (btset AgentId).

Definition index_agent (ix : CapabilityIndex) (a : AgentDescriptor) : CapabilityIndex :=
  let caps := fold_left (fun s m => insert_all s (m_capabilities m)) (a_models a) (a_capabilities a) in
  fold_left (fun ix c => bt_upsert [] (bs_insert (a_id a)) c ix) caps ix.

(** [CapabilityIndex::build]. *)
Definition index_build (s : RegistrySnapshot) : CapabilityIndex := fold_left index_agent (routable s) [].

(** [CapabilityIndex::providers]. *)
Definition providers (c : Capability) (ix : CapabilityIndex) : list AgentId :=
  match bt_get c ix with Some set => set | None => [] end.

(** The narrowing loop of [CapabilityIndex::providers_of_all]. *)
Fixpoint narrow (ix : CapabilityIndex) (candidates : btset AgentId) (caps : list Capability)
  : list AgentId :=
  match caps with
  | [] => candidates
  | c :: caps' =>
      match bt_get c ix with
      | None => []
      | Some providers =>
          match List.filter (fun id => bs_contains id providers) candidates with
          | [] => []
          | candidates' => narrow ix candidates' caps'
          end
      end
  end.

(** [CapabilityIndex::providers_of_all]. *)
Definition providers_of_all (required : CapabilitySet) (ix : CapabilityIndex) : list AgentId :=
  match required with
  | [] => []
  | first :: rest =>
      narrow ix (match bt_get first ix with Some set => set | None => [] end) rest
  end.

(** [CapabilityIndex::missing_from]. *)
Definition missing_from (required : CapabilitySet) (ix : CapabilityIndex) : list Capability :=
  List.filter (fun c => negb (bt_contains_key c ix)) required.

(** [CapabilityIndex::all_capabilities]. *)
Definition all_capabilities (ix : CapabilityIndex) : list Capability := bt_keys ix.

(** ** Health is kept, discovery tolerates failures, the index is

    exact, the running success rate stays a rate *)

(** ** Capabilities an agent can offer *)

Definition offers (a : AgentDescriptor) (c : Capability) : Prop :=
  c ∈ a_capabilities a \/ exists m, m ∈ a_models a /\ c ∈ m_capabilities m.

Lemma elem_of_insert_all c s l : c ∈ insert_all s l <-> c ∈ s \/ c ∈ l.
Proof. apply bs_elem_of_extend. Qed.

Lemma elem_of_model_caps c s ms :
  c ∈ fold_left (fun s m => insert_all s (m_capabilities m)) ms s <->
  c ∈ s \/ exists m, m ∈ ms /\ c ∈ m_capabilities m.
Proof.
  revert s. induction ms as [|m ms IH]; intros s; simpl.
  - split; [by left|]. intros [?|(m&Hm&_)]; [done|by apply not_elem_of_nil in Hm].
  - rewrite IH, elem_of_insert_all. split.
    + intros [[?|?]|(m'&?&?)]; [by left|right; exists m|right; exists m']; rewrite elem_of_cons; auto.
    + intros [?|(m'&[->|?]%elem_of_cons&?)]; eauto.
Qed.

Lemma elem_of_available c s :
  c ∈ available_capabilities s <-> exists a, a ∈ routable s /\ offers a c.
Proof.
  unfold available_capabilities. generalize (routable s). intros l.
  assert (forall acc, c ∈ fold_left add_agent_caps l acc <->
    c ∈ acc \/ exists a, a ∈ l /\ offers a c) as Hacc.
  { induction l as [|a l IH]; intros acc; simpl.
    - split; [by left|]. intros [?|(a&Ha&_)]; [done|by apply not_elem_of_nil in Ha].
    - rewrite IH. unfold add_agent_caps. rewrite elem_of_model_caps, elem_of_insert_all.
      unfold offers. split.
      + intros [[[?|?]|?]|(a'&?&?)]; [by left|right; exists a|right; exists a|right; exists a'];
          rewrite elem_of_cons; auto.
      + intros [?|(a'&[->|?]%elem_of_cons&Ho)]; [auto| |eauto]. destruct Ho; auto. }
  rewrite Hacc. split; [intros [Hn|?]; [by apply not_elem_of_nil in Hn|done]|by right].
Qed.

(** ** The index *)

Lemma index_caps_fold a caps ix c :
  bt_get c (fold_left (fun ix c => bt_upsert [] (bs_insert (a_id a)) c ix) caps ix) =
  if contains caps c
  then Some (bs_insert (a_id a) (match bt_get c ix with Some s => s | None => [] end))
  else bt_get c ix.
Proof.
  revert ix. induction caps as [|x caps IH]; intros ix; simpl; [done|].
  rewrite IH, bt_get_upsert. unfold contains.
  destruct (decide (c = x)) as [->|Hne].
  - rewrite (bool_decide_true (x = x)), (bool_decide_true (x ∈ x :: caps))
      by (rewrite ?elem_of_cons; auto).
    case_bool_decide; [|done]. f_equal. by rewrite bs_insert_same.
  - rewrite (bool_decide_false (c = x)) by done.
    erewrite (bool_decide_ext (c ∈ x :: caps)); [reflexivity|]. rewrite elem_of_cons. tauto.
Qed.

(** Agent [id] is listed under [c]. *)
Definition listed (ix : CapabilityIndex) (c : Capability) (id : AgentId) : Prop :=
  id ∈ providers c ix.

Lemma listed_index_agent ix a c id :
  listed (index_agent ix a) c id <-> listed ix c id \/ (id = a_id a /\ offers a c).
Proof.
  unfold listed, providers, index_agent. rewrite index_caps_fold.
  set (caps := fold_left _ (a_models a) (a_capabilities a)).
  assert (c ∈ caps <-> offers a c) as Hc by apply elem_of_model_caps.
  unfold contains. case_bool_decide as Hin.
  - rewrite bs_elem_of_insert. rewrite Hc in Hin. tauto.
  - rewrite Hc in Hin. tauto.
Qed.

Lemma key_index_agent ix a c :
  is_Some (bt_get c (index_agent ix a)) <-> is_Some (bt_get c ix) \/ offers a c.
Proof.
  unfold index_agent. rewrite index_caps_fold.
  set (caps := fold_left _ (a_models a) (a_capabilities a)).
  assert (c ∈ caps <-> offers a c) as Hc by apply elem_of_model_caps.
  unfold contains. case_bool_decide as Hin; rewrite <- Hc; [|tauto].
  split; [by right|by eexists].
Qed.

Lemma index_build_listed s c id :
  listed (index_build s) c id <-> exists a, a ∈ routable s /\ a_id a = id /\ offers a c.
Proof.
  unfold index_build. generalize (routable s). intros l.
  assert (forall ix, listed (fold_left index_agent l ix) c id <->
    listed ix c id \/ exists a, a ∈ l /\ a_id a = id /\ offers a c) as Hix.
  { induction l as [|a l IH]; intros ix; simpl.
    - split; [by left|]. intros [?|(a&Ha&_)]; [done|by apply not_elem_of_nil in Ha].
    - rewrite IH, listed_index_agent. split.
      + intros [[?|[-> ?]]|(a'&?&?)]; [by left|right; exists a|right; exists a'];
          rewrite elem_of_cons; auto.
      + intros [?|(a'&[->|?]%elem_of_cons&<-&?)]; eauto 6. }
  rewrite Hix. split; [intros [Hn|?]; [by apply not_elem_of_nil in Hn|done]|by right].
Qed.

Lemma index_build_key s c :
  is_Some (bt_get c (index_build s)) <-> exists a, a ∈ routable s /\ offers a c.
Proof.
  unfold index_build. generalize (routable s). intros l.
  assert (forall ix, is_Some (bt_get c (fold_left index_agent l ix)) <->
    is_Some (bt_get c ix) \/ exists a, a ∈ l /\ offers a c) as Hix.
  { induction l as [|a l IH]; intros ix; simpl.
    - split; [by left|]. intros [?|(a&Ha&_)]; [done|by apply not_elem_of_nil in Ha].
    - rewrite IH, key_index_agent. split.
      + intros [[?|?]|(a'&?&?)]; [by left|right; exists a|right; exists a'];
          rewrite elem_of_cons; auto.
      + intros [?|(a'&[->|?]%elem_of_cons&?)]; eauto 6. }
  rewrite Hix. split; [intros [[? Hn]|?]; [done|done]|by right].
Qed.

Lemma elem_of_narrow ix caps cand id :
  id ∈ narrow ix cand caps <-> id ∈ cand /\ forall c, c ∈ caps -> listed ix c id.
Proof.
  revert cand. induction caps as [|c caps IH]; intros cand; simpl.
  { split; [|tauto]. intros ?. split; [done|]. intros c Hc. by apply not_elem_of_nil in Hc. }
  assert (forall P : Prop, (id ∈ cand /\ forall c', c' ∈ c :: caps -> listed ix c' id) <->
    (id ∈ cand /\ listed ix c id) /\ forall c', c' ∈ caps -> listed ix c' id) as Hcons.
  { intros _. setoid_rewrite elem_of_cons. naive_solver. }
  rewrite (Hcons True). unfold listed at 1, providers.
  destruct (bt_get c ix) as [s|]; [|split; [by intros ?%not_elem_of_nil|by intros [[_ ?%not_elem_of_nil] _]]].
  assert (id ∈ List.filter (fun x => bs_contains x s) cand <-> id ∈ cand /\ id ∈ s) as Hf.
  { rewrite !list_elem_of_In, filter_In, <- !list_elem_of_In. unfold bs_contains.
    by rewrite contains_true. }
  destruct (List.filter _ cand) as [|x cand'] eqn:E.
  - rewrite <- Hf. split; [by intros ?%not_elem_of_nil|by intros [?%not_elem_of_nil _]].
  - by rewrite IH, Hf.
Qed.

(** ** Registration *)

Lemma register_get a r id :
  bt_get id (register a r) =
  if bool_decide (id = a_id a)
  then Some (match bt_get id r with Some e => with_health (a_health e) a | None => a end)
  else bt_get id r.
Proof.
  unfold register. destruct (bt_get (a_id a) r) as [e|] eqn:E; cbn [with_health a_id];
    rewrite bt_get_insert; case_bool_decide as Hid; [subst; by rewrite E|done|subst; by rewrite E|done].
Qed.

Lemma register_wf a r : bt_wf r -> bt_wf (register a r).
Proof. intros W. by apply bt_wf_insert. Qed.

Lemma register_all_app a b r : register_all (a ++ b) r = register_all b (register_all a r).
Proof. apply fold_left_app. Qed.

Definition ok_agents (sources : list Source) : list AgentDescriptor :=
  concat (map (fun s => match s.2 with Ok l => l | Err _ => [] end) sources).

Definition failed_sources (sources : list Source) : list (string * string) :=
  omap (fun s : Source => match s.2 with Ok _ => None | Err e => Some (s.1, error_display e) end) sources.

Lemma discover_fold sources r n f :
  fold_left (fun st (source : Source) =>
      let '(r, (discovered, failures)) := st in
      match source.2 with
      | Ok agents => (register_all agents r, (discovered + Z.of_nat (length agents), failures))
      | Err err => (r, (discovered, (failures ++ [(source.1, error_display err)])%list))
      end) sources (r, (n, f)) =
  (register_all (ok_agents sources) r,
   (n + Z.of_nat (length (ok_agents sources)), (f ++ failed_sources sources)%list)).
Proof.
  revert r n f. induction sources as [|[name [l|e]] ss IH]; intros r n f; simpl.
  - unfold ok_agents, failed_sources. simpl. by rewrite Z.add_0_r, app_nil_r.
  - rewrite IH. unfold ok_agents, failed_sources. simpl. by rewrite register_all_app, length_app, Nat2Z.inj_add, Z.add_assoc.
  - rewrite IH. unfold ok_agents, failed_sources. simpl. by rewrite <- app_assoc.
Qed.

(** ** Properties *)

(** The capability index is exact and loses no candidate: the agents it
    returns for a non-empty requirement are those that, as routable agents,
    offer every required capability themselves or through a model. *)
Theorem index_exact s required id :
  required <> [] ->
  id ∈ providers_of_all required (index_build s) <->
  forall c, c ∈ required -> exists a, a ∈ routable s /\ a_id a = id /\ offers a c.
Proof.
  intros Hne. destruct required as [|first rest]; [done|]. unfold providers_of_all.
  rewrite elem_of_narrow. setoid_rewrite elem_of_cons.
  change (id ∈ match bt_get first (index_build s) with Some set => set | None => [] end)
    with (listed (index_build s) first id).
  setoid_rewrite index_build_listed. naive_solver.
Qed.

Lemma index_exact_witness :
  "a" ∈ providers_of_all [CodeReview]
    (index_build [with_capabilities [CodeReview] (agent_new "a" "A" Acp)]).
Proof.
  apply index_exact; [done|]. intros c ->%list_elem_of_singleton.
  exists (with_capabilities [CodeReview] (agent_new "a" "A" Acp)).
  split; [|split; [done|left]]; apply list_elem_of_In; simpl; auto.
Defined.

(** What the index reports missing is exactly what no routable agent can
    offer, and that agrees with the planner's view of the registry. *)
Theorem missing_exact s required c :
  c ∈ missing_from required (index_build s) <->
  c ∈ required /\ c ∉ available_capabilities s.
Proof.
  unfold missing_from. rewrite list_elem_of_In, filter_In, <- list_elem_of_In, negb_true_iff.
  rewrite <- not_true_iff_false, bt_contains_key_spec, <- bt_get_Some_keys, index_build_key,
    elem_of_available. done.
Qed.

(** Registering an agent again replaces what it declares and keeps its
    health record; every other agent is untouched. *)
Theorem register_keeps_health a r id :
  bt_get id (register a r) =
    (if bool_decide (id = a_id a)
     then Some (match bt_get id r with Some e => with_health (a_health e) a | None => a end)
     else bt_get id r) /\
  (forall e, bt_get (a_id a) r = Some e ->
     exists a', bt_get (a_id a) (register a r) = Some a' /\ a_health a' = a_health e /\
       a_capabilities a' = a_capabilities a /\ a_models a' = a_models a /\
       a_enabled a' = a_enabled a).
Proof.
  split; [apply register_get|]. intros e He. rewrite register_get, bool_decide_true, He by done.
  by eexists.
Qed.

(** Discovery registers what every working source found, in order, counts
    it, and reports exactly the failed sources; a failure never stops the
    sources after it. *)
Theorem discover_tolerates_failures sources r :
  discover sources r =
  (register_all (ok_agents sources) r,
   (Z.of_nat (length (ok_agents sources)), failed_sources sources)).
Proof. unfold discover. rewrite discover_fold. by rewrite Z.add_0_l. Qed.

(** The running success rate is always an estimate and stays within the
    unit interval: one observation on an unknown rate is that observation, and
    updating a rate can neither leave the interval nor become a NaN. *)
Theorem success_rate_stays_rate success rate :
  (forall x, known_value rate = Some x -> in_unit x) ->
  exists y, rate_after success rate = Estimated y /\ in_unit y /\
    (rate = KUnknown -> y = if success then f64_one else f64_zero).
Proof.
  intros Hr. unfold rate_after.
  assert (in_unit (if success then f64_one else f64_zero)) as Ho by (by destruct success; vm_compute).
  assert (f64_fin_nonneg (f64_sub f64_one ALPHA) /\ f64_fin_nonneg ALPHA) as [Ha Hb] by (by vm_compute).
  assert (forall x, in_unit x -> in_unit (f64_clamp01 (f64_add
    (f64_mul x (f64_sub f64_one ALPHA))
    (f64_mul (if success then f64_one else f64_zero) ALPHA)))) as Hstep.
  { intros x Hx. apply f64_clamp01_nonneg, f64_add_nonneg;
      apply f64_mul_nonneg; first [exact Ha|exact Hb|apply in_unit_fin_nonneg; assumption]. }
  destruct rate as [x|x|]; cbn [known_value] in Hr;
    (eexists; split; [reflexivity|split]); try discriminate.
  - exact (Hstep x (Hr x eq_refl)).
  - exact (Hstep x (Hr x eq_refl)).
  - rewrite f64_clamp01_id; exact Ho.
  - intros _. rewrite f64_clamp01_id; [reflexivity|exact Ho].
Qed.

Lemma success_rate_stays_rate_witness :
  exists y, rate_after true (Estimated (f64_lit 1 2)) = Estimated y /\ in_unit y.
Proof.
  destruct (success_rate_stays_rate true (Estimated (f64_lit 1 2))) as (y&Hy&Hu&_).
  - intros x Hx. cbn [known_value] in Hx. assert (x = f64_lit 1 2) as -> by congruence.
    apply in_unit_lit. vm_compute. reflexivity.
  - exact (ex_intro _ y (conj Hy Hu)).
Defined.
