(* ===== verification/Score.v ===== *)
(** * Scoring and adaptive history ([cuma-router/src/score.rs], [adaptive.rs])

    The five dimensions a candidate is scored on, and the observed history that
    adjusts one of them. *)

From S2P Require Export Registry Task.
Open Scope string_scope.
Open Scope Z_scope.

(** The neutral score of a metric nobody reported ([UNKNOWN]). *)
Definition NEUTRAL : f64 := f64_lit 1 2.
Definition COST_CEILING_PER_MTOK : f64 := f64_of_Z 30.
Definition LATENCY_CEILING_MS : f64 := f64_of_Z 120000.

Record DimensionScores := {
  d_quality : f64;
  d_cost : f64;
  d_latency : f64;
  d_reliability : f64;
  d_context : f64;
}.

Definition performance_of (a : AgentDescriptor) (m : option ModelDescriptor) : PerformanceProfile :=
  match m with Some m => m_performance m | None => a_performance_profile a end.

Definition cost_profile_of (a : AgentDescriptor) (m : option ModelDescriptor) : CostProfile :=
  match m with Some m => m_cost m | None => a_cost_profile a end.

Definition task_coverage (a : AgentDescriptor) (m : option ModelDescriptor) (t : Task) : CapabilityMatch :=
  match_against (effective_capabilities a m) (sp_required (t_spec t)).

(** [score::quality]. *)
Definition score_quality (a : AgentDescriptor) (m : option ModelDescriptor) (t : Task) : f64 :=
  let coverage := cm_score (task_coverage a m t) in
  let performance := performance_of a m in
  let coding := known_or (coding_score performance) NEUTRAL in
  let reasoning := known_or (reasoning_score performance) NEUTRAL in
  let complexity := f64_clamp01 (sp_complexity (t_spec t)) in
  let skill := f64_add (f64_mul coding (f64_sub f64_one complexity)) (f64_mul reasoning complexity) in
  f64_clamp01 (f64_add (f64_mul coverage (f64_lit 7 10)) (f64_mul skill (f64_lit 3 10))).

(** [score::cost]. *)
Definition score_cost (a : AgentDescriptor) (m : option ModelDescriptor) : f64 * bool :=
  let profile := cost_profile_of a m in
  match known_value (input_per_mtok profile), known_value (output_per_mtok profile) with
  | Some input, Some output =>
      let blended := f64_add (f64_mul input (f64_lit 4 10)) (f64_mul output (f64_lit 6 10)) in
      (f64_sub f64_one (f64_clamp01 (f64_div blended COST_CEILING_PER_MTOK)), true)
  | _, _ => (NEUTRAL, false)
  end.

(** [score::latency]. *)
Definition score_latency (a : AgentDescriptor) (m : option ModelDescriptor) : f64 * bool :=
  let observed := known_value (h_last_latency_ms (a_health a)) in
  let profiled := known_value (typical_latency_ms (performance_of a m)) in
  match (match observed with Some _ => observed | None => profiled end) with
  | None => (NEUTRAL, false)
  | Some ms => (f64_sub f64_one (f64_clamp01 (f64_div (f64_of_Z ms) LATENCY_CEILING_MS)), true)
  end.

Definition health_multiplier (h : HealthState) : f64 :=
  match h with
  | Healthy => f64_one
  | Degraded => f64_lit 6 10
  | RateLimited => f64_lit 3 10
  | HUnknown => f64_one
  | Unavailable => f64_zero
  end.

(** [score::reliability]. *)
Definition score_reliability (a : AgentDescriptor) (m : option ModelDescriptor) : f64 * bool :=
  let '(base, known) :=
    match historical_success_rate (performance_of a m) with
    | Reported rate | Estimated rate => (f64_clamp01 rate, true)
    | KUnknown => (NEUTRAL, false)
    end in
  (f64_clamp01 (f64_mul base (health_multiplier (h_state (a_health a)))), known).

(** [score::context]. *)
Definition score_context (m : option ModelDescriptor) (estimated_tokens : option Z) : f64 * bool :=
  match m, estimated_tokens with
  | Some m, Some needed =>
      match known_value (m_context_window m) with
      | None => (NEUTRAL, false)
      | Some window =>
          if window <=? needed then (f64_zero, true)
          else
            let headroom := f64_sub f64_one (f64_div (f64_of_Z needed) (f64_of_Z window)) in
            (f64_clamp01 (f64_div headroom (f64_lit 66 100)), true)
      end
  | _, _ => (NEUTRAL, false)
  end.

Definition note_unless (known : bool) (note : string) : list string :=
  if known then [] else [note].

(** [score::all]. *)
Definition score_all (a : AgentDescriptor) (m : option ModelDescriptor) (t : Task)
  : DimensionScores * list string :=
  let '(cost, cost_known) := score_cost a m in
  let '(latency, latency_known) := score_latency a m in
  let '(reliability, reliability_known) := score_reliability a m in
  let '(context, context_known) := score_context m (sp_estimated_tokens (t_spec t)) in
  let missing := cm_missing (task_coverage a m t) in
  let notes :=
    (note_unless cost_known "pricing unknown; cost scored neutrally" ++
     note_unless latency_known "no latency data; scored neutrally" ++
     note_unless reliability_known "no execution history yet; reliability scored neutrally" ++
     note_unless context_known "context window or task size unknown; scored neutrally" ++
     match missing with
     | [] => []
     | _ => ["missing capabilities: " +:+ str_join ", " (map capability_display missing)]
     end)%list in
  ({| d_quality := score_quality a m t; d_cost := cost; d_latency := latency;
      d_reliability := reliability; d_context := context |}, notes).

(** ** Observed history *)

Record OutcomeRecord := {
  or_agent_id : AgentId;
  or_model_id : option ModelId;
  or_task_type : TaskType;
  or_success : bool;
  or_failure_class : option ErrorClass;
  or_latency_ms : Z;
  or_tokens : Z;
  or_estimated_cost_usd : option f64;
  or_retry_count : Z;
  or_user_accepted : option bool;
  or_at : Z;
}.

(** [OutcomeRecord::success] and [OutcomeRecord::failure]; [now] is the clock. *)
Definition outcome_success (now : Z) (agent : AgentId) (model : option ModelId) (ty : TaskType)
    (latency_ms tokens : Z) : OutcomeRecord :=
  {| or_agent_id := agent; or_model_id := model; or_task_type := ty; or_success := true;
     or_failure_class := None; or_latency_ms := latency_ms; or_tokens := tokens;
     or_estimated_cost_usd := None; or_retry_count := 0; or_user_accepted := None; or_at := now |}.

Definition outcome_failure (now : Z) (agent : AgentId) (model : option ModelId) (ty : TaskType)
    (class : ErrorClass) (latency_ms : Z) : OutcomeRecord :=
  {| or_agent_id := agent; or_model_id := model; or_task_type := ty; or_success := false;
     or_failure_class := Some class; or_latency_ms := latency_ms; or_tokens := 0;
     or_estimated_cost_usd := None; or_retry_count := 0; or_user_accepted := None; or_at := now |}.

Record AdaptiveStats := {
  as_attempts : Z;
  as_successes : Z;
  as_mean_latency_ms : Z;
  as_mean_tokens : Z;
}.

Definition stats_default : AdaptiveStats :=
  {| as_attempts := 0; as_successes := 0; as_mean_latency_ms := 0; as_mean_tokens := 0 |}.

(** [AdaptiveStats::success_rate]. *)
Definition stats_success_rate (s : AdaptiveStats) : option f64 :=
  if as_attempts s =? 0 then None
  else Some (f64_div (f64_of_Z (as_successes s)) (f64_of_Z (as_attempts s))).

(** [running_mean]. *)
Definition running_mean (current count sample : Z) : Z :=
  if count =? 0 then sample
  else sat64 (sat64 (current * count) + sample) / (count + 1).

(** [AdaptiveStats::record]. *)
Definition stats_record (s : AdaptiveStats) (o : OutcomeRecord) : AdaptiveStats :=
  let previous := as_attempts s in
  {| as_attempts := wrap32 (as_attempts s + 1);
     as_successes := if or_success o then wrap32 (as_successes s + 1) else as_successes s;
     as_mean_latency_ms := running_mean (as_mean_latency_ms s) previous (or_latency_ms o);
     as_mean_tokens := if or_success o then running_mean (as_mean_tokens s) previous (or_tokens o)
                       else as_mean_tokens s |}.

Definition RoutingHistory : Type := btree string AdaptiveStats.

Definition BAR : string := String (of_byte 124) EmptyString.

(** [key]. *)
Definition bucket_key (agent : AgentId) (model : option ModelId) (ty : TaskType) : string :=
  agent +:+ BAR +:+ match model with Some m => m | None => "*" end +:+ BAR +:+ task_type_debug ty.

(** [RoutingHistory::record]. *)
Definition history_record (o : OutcomeRecord) (h : RoutingHistory) : RoutingHistory :=
  bt_upsert stats_default (fun s => stats_record s o)
    (bucket_key (or_agent_id o) (or_model_id o) (or_task_type o)) h.

(** [RoutingHistory::stats]. *)
Definition history_stats (agent : AgentId) (model : option ModelId) (ty : TaskType)
    (h : RoutingHistory) : option AdaptiveStats := bt_get (bucket_key agent model ty) h.

(** [RoutingHistory::blend]. *)
Definition blend (h : RoutingHistory) (prior : f64) (agent : AgentId) (model : option ModelId)
    (ty : TaskType) (adaptive_weight : f64) (min_samples : Z) : f64 * bool :=
  let weight := f64_clamp01 adaptive_weight in
  if f64_leb weight f64_zero then (prior, false)
  else match history_stats agent model ty h with
       | None => (prior, false)
       | Some stats =>
           match stats_success_rate stats with
           | None => (prior, false)
           | Some observed =>
               let floor := Z.max min_samples 1 in
               if as_attempts stats <? floor then (prior, false)
               else
                 let confidence := f64_clamp01
                   (f64_div (f64_of_Z (as_attempts stats)) (f64_of_Z (wrap32 (floor * 2)))) in
                 let effective := f64_mul weight confidence in
                 (f64_clamp01 (f64_add (f64_mul prior (f64_sub f64_one effective))
                                       (f64_mul observed effective)), true)
           end
       end.

(** [RoutingHistory::restore]. *)
Definition history_restore (agent : AgentId) (model : option ModelId) (ty : TaskType)
    (s : AdaptiveStats) (h : RoutingHistory) : RoutingHistory :=
  bt_insert (bucket_key agent model ty) s h.

(** ** Lemmas *)

(** Blending never touches the prior unless there are enough samples and a
    positive weight. *)
Lemma blend_unapplied h prior agent model ty w k :
  (blend h prior agent model ty w k).2 = false -> (blend h prior agent model ty w k).1 = prior.
Proof.
  unfold blend. destruct (f64_leb _ _); [done|].
  destruct (history_stats agent model ty h) as [s|]; [|done].
  destruct (stats_success_rate s); [|done]. by destruct (as_attempts s <? Z.max k 1).
Qed.

Lemma blend_applied_samples h prior agent model ty w k :
  (blend h prior agent model ty w k).2 = true ->
  exists s, history_stats agent model ty h = Some s /\ Z.max k 1 <= as_attempts s /\
    f64_leb (f64_clamp01 w) f64_zero = false.
Proof.
  unfold blend. destruct (f64_leb _ _) eqn:Ew; [done|].
  destruct (history_stats agent model ty h) as [s|]; [|done].
  destruct (stats_success_rate s); [|done].
  destruct (Z.ltb_spec (as_attempts s) (Z.max k 1)); [done|]. intros _. by exists s.
Qed.

(** The key does not separate every bucket: identifiers may contain the bar,
    and a model may be called ['*']. *)
Example bucket_key_collision :
  bucket_key "a" None General = bucket_key "a" (Some "*") General /\
  bucket_key ("a" +:+ BAR +:+ "b") (Some "m") General = bucket_key "a" (Some ("b" +:+ BAR +:+ "m")) General.
Proof. by vm_compute. Qed.

(** The mean of tokens weighs by every earlier attempt, failed ones included:
    one failure followed by a success of 100 tokens gives a mean of 50. *)
Example mean_tokens_counts_failures :
  as_mean_tokens (stats_record (stats_record stats_default
    (outcome_failure 0 "a" None General Timeout 10)) (outcome_success 1 "a" None General 10 100)) = 50.
Proof. vm_compute. reflexivity. Qed.
