(* ===== verification/ScoreFacts.v ===== *)
(** * Scores are scores: every dimension is a number of the unit interval, and
    so is a reliability adjusted by history *)

From S2P Require Export Score FloatBounds.
Open Scope string_scope.
Open Scope Z_scope.

(** A metric that is a score whenever it is given. *)
Definition metric_score (k : Known f64) : Prop := forall x, known_value k = Some x -> score x.

(** A metric that is a number (not a NaN) whenever it is given. *)
Definition metric_number (k : Known f64) : Prop :=
  forall x, known_value k = Some x -> f64_is_nan x = false /\ canonical x.

(** A price that is finite and not negative whenever it is given. *)
Definition metric_price (k : Known f64) : Prop :=
  forall x, known_value k = Some x -> f64_fin_nonneg x /\ canonical x.

(** The metrics a candidate and a task are described with are sensible. *)
Record sensible (a : AgentDescriptor) (m : option ModelDescriptor) (t : Task) : Prop := {
  se_coding : metric_score (coding_score (performance_of a m));
  se_reasoning : metric_score (reasoning_score (performance_of a m));
  se_rate : metric_number (historical_success_rate (performance_of a m));
  se_input : metric_price (input_per_mtok (cost_profile_of a m));
  se_output : metric_price (output_per_mtok (cost_profile_of a m));
  se_complexity : f64_is_nan (sp_complexity (t_spec t)) = false /\ canonical (sp_complexity (t_spec t));
  se_latency : forall ms, known_value (h_last_latency_ms (a_health a)) = Some ms \/
    known_value (typical_latency_ms (performance_of a m)) = Some ms -> 0 <= ms;
  se_tokens : forall n, sp_estimated_tokens (t_spec t) = Some n -> 0 <= n;
  se_window : forall md w, m = Some md -> known_value (m_context_window md) = Some w -> w < 2 ^ 53;
  se_required : Z.of_nat (length (sp_required (t_spec t))) < 2 ^ 53;
}.

(** Literals of the scoring functions, checked once. *)
Definition scoreb (x : f64) : bool :=
  f64_leb f64_zero x && f64_leb x f64_one &&
  match x with
  | S754_finite _ m e => (Zpos m <? 2 ^ 53) && (-1074 <=? e) && ((2 ^ 52 <=? Zpos m) || (e =? -1074))
  | _ => true
  end.

Lemma scoreb_sound x : scoreb x = true -> score x.
Proof.
  unfold scoreb, score, in_unit. rewrite !andb_true_iff. intros [[H0 H1] Hc]. split; [done|].
  destruct x; try done. simpl. unfold canon.
  apply andb_true_iff in Hc as [Hc Hn]. apply andb_true_iff in Hc as [Hm He].
  apply orb_true_iff in Hn. lia.
Qed.

Ltac score_literal := apply scoreb_sound; vm_compute; reflexivity.

Lemma neutral_score : score NEUTRAL. Proof. score_literal. Qed.

Lemma metric_score_or k : metric_score k -> score (known_or k NEUTRAL).
Proof.
  intros Hk. unfold known_or. destruct (known_value k) as [x|] eqn:E; [by apply Hk|apply neutral_score].
Qed.

(** A clamped sum of two products of scores. *)
Lemma blend_score a b c d :
  score a -> score b -> score c -> score d ->
  score (f64_clamp01 (f64_add (f64_mul a b) (f64_mul c d))).
Proof.
  intros Ha Hb Hc Hd. pose proof (f64_mul_score a b Ha Hb) as H1.
  pose proof (f64_mul_score c d Hc Hd) as H2.
  apply f64_clamp01_score.
  - apply f64_nonneg_not_nan, f64_add_nonneg; apply f64_fin_nonneg_nonneg, score_fin_nonneg; assumption.
  - apply f64_add_canonical; [apply H1|apply H2].
Qed.

Lemma coverage_score self required :
  Z.of_nat (length required) < 2 ^ 53 -> score (cm_score (match_against self required)).
Proof.
  intros Hl. unfold match_against. destruct required as [|c l]; [apply score_one|].
  cbn [cm_score]. apply ratio_score; [|simpl length in *; lia].
  pose proof (List.filter_length_le (fun x => negb (bs_contains x self)) (c :: l)). lia.
Qed.

(** A positive finite divisor. *)
Definition divisor (y : f64) : Prop := f64_fin_nonneg y /\ canonical y /\ f64_leb y f64_zero = false.

Lemma score_divisor y : score y -> f64_leb y f64_zero = false -> divisor y.
Proof. intros Hy Hp. split_and!; [by apply score_fin_nonneg|apply Hy|done]. Qed.

Lemma of_Z_divisor p : Zpos p < 2 ^ 53 -> divisor (f64_of_Z (Zpos p)).
Proof. intros Hp. destruct (f64_of_Z_exact p Hp) as (q&e&->&Hc&_). by split_and!. Qed.

(** A non-negative number over a divisor, clamped. *)
Lemma clamped_quotient_score x y :
  f64_nonneg x -> canonical x -> divisor y -> score (f64_clamp01 (f64_div x y)).
Proof.
  intros Hx Cx (Hy&Cy&Hp). apply f64_clamp01_score; [|by apply f64_div_canonical].
  destruct x as [s|[]| |[] m e]; try done.
  - by destruct y as [| | |[]].
  - by destruct y as [| | |[]].
  - by apply f64_nonneg_not_nan, f64_div_nonneg.
Qed.

Lemma f64_mul_pos_nonneg x y :
  f64_nonneg x -> f64_fin_nonneg y -> f64_leb y f64_zero = false -> f64_nonneg (f64_mul x y).
Proof.
  destruct x as [s|[]| |[] m e], y as [s'|s'| |[] m' e']; intros Hx Hy Hp; try done.
  by apply f64_mul_nonneg.
Qed.

Section Dimensions.
Context (a : AgentDescriptor) (m : option ModelDescriptor) (t : Task) (S : sensible a m t).

Lemma complexity_score : score (f64_clamp01 (sp_complexity (t_spec t))).
Proof. destruct (se_complexity a m t S) as [Hn Hc]. by apply f64_clamp01_score. Qed.

Lemma quality_score : score (score_quality a m t).
Proof.
  destruct S. unfold score_quality.
  pose proof complexity_score as Hx.
  set (c := f64_clamp01 (sp_complexity (t_spec t))) in *.
  pose proof (f64_compl_score c Hx) as Hc.
  pose proof (metric_score_or _ se_coding0) as H1. pose proof (metric_score_or _ se_reasoning0) as H2.
  set (p1 := known_or (coding_score _) NEUTRAL) in *. set (p2 := known_or (reasoning_score _) NEUTRAL) in *.
  assert (score (f64_mul (cm_score (task_coverage a m t)) (f64_lit 7 10))) as Hcov.
  { apply f64_mul_score; [by apply coverage_score|score_literal]. }
  pose proof (f64_mul_score p1 _ H1 Hc) as M1. pose proof (f64_mul_score p2 c H2 Hx) as M2.
  pose proof (score_fin_nonneg _ M1) as F1. pose proof (score_fin_nonneg _ M2) as F2.
  assert (f64_nonneg (f64_add (f64_mul p1 (f64_sub f64_one c)) (f64_mul p2 c))) as Hsk
    by (apply f64_add_nonneg; by apply f64_fin_nonneg_nonneg).
  apply f64_clamp01_score.
  - apply f64_nonneg_not_nan, f64_add_nonneg; [by apply f64_fin_nonneg_nonneg, score_fin_nonneg|].
    apply f64_mul_pos_nonneg; [done| |vm_compute; reflexivity].
    apply score_fin_nonneg. score_literal.
  - apply f64_add_canonical; [apply Hcov|]. apply f64_mul_canonical.
    + apply f64_add_canonical; [apply M1|apply M2].
    + assert (score (f64_lit 3 10)) as H3 by score_literal. apply H3.
Qed.

Lemma cost_score : score (score_cost a m).1.
Proof.
  destruct S. unfold score_cost.
  destruct (known_value (input_per_mtok _)) as [x|] eqn:Ex; [|apply neutral_score].
  destruct (known_value (output_per_mtok _)) as [y|] eqn:Ey; [|apply neutral_score].
  destruct (se_input0 x Ex) as [Fx Cx]. destruct (se_output0 y Ey) as [Fy Cy].
  assert (score (f64_lit 4 10)) as H4 by score_literal.
  assert (score (f64_lit 6 10)) as H6 by score_literal.
  apply f64_compl_score, clamped_quotient_score; [| |by apply of_Z_divisor].
  - apply f64_add_nonneg; apply f64_mul_nonneg; try assumption; by apply score_fin_nonneg.
  - apply f64_add_canonical; apply f64_mul_canonical; try assumption; [apply H4|apply H6].
Qed.

Lemma latency_score : score (score_latency a m).1.
Proof.
  destruct S. unfold score_latency.
  set (o := match known_value (h_last_latency_ms (a_health a)) with Some _ => _ | None => _ end).
  assert (forall ms, o = Some ms -> 0 <= ms) as Ho.
  { intros ms Hms. apply se_latency0. unfold o in Hms.
    destruct (known_value (h_last_latency_ms (a_health a))); auto. }
  destruct o as [ms|]; [|apply neutral_score].
  apply f64_compl_score, clamped_quotient_score; [| |by apply of_Z_divisor].
  - by apply f64_of_Z_nonneg, Ho.
  - apply f64_of_Z_canonical.
Qed.

Lemma reliability_score : score (score_reliability a m).1.
Proof.
  destruct S. unfold score_reliability.
  assert (score (health_multiplier (h_state (a_health a)))) as Hh
    by (destruct (h_state (a_health a)); score_literal).
  destruct (historical_success_rate (performance_of a m)) as [x|x|]; cbn [fst].
  3: { pose proof (f64_mul_score _ _ neutral_score Hh) as Hm. apply f64_clamp01_score;
       [by apply score_not_nan|apply Hm]. }
  all: destruct (se_rate0 x eq_refl) as [Nx Cx];
    pose proof (f64_mul_score _ _ (f64_clamp01_score x Nx Cx) Hh) as Hm;
    apply f64_clamp01_score; [by apply score_not_nan|apply Hm].
Qed.

Lemma context_score : score (score_context m (sp_estimated_tokens (t_spec t))).1.
Proof.
  destruct S. unfold score_context. destruct m as [md|]; [|apply neutral_score].
  destruct (sp_estimated_tokens (t_spec t)) as [n|] eqn:En; [|apply neutral_score].
  destruct (known_value (m_context_window md)) as [w|] eqn:Ew; [|apply neutral_score].
  specialize (se_tokens0 n eq_refl). specialize (se_window0 md w eq_refl Ew).
  destruct (Z.leb_spec w n); [apply score_zero|].
  assert (score (f64_sub f64_one (f64_div (f64_of_Z n) (f64_of_Z w)))) as Hh.
  { apply f64_compl_score, ratio_score; lia. }
  apply clamped_quotient_score.
  - by apply f64_fin_nonneg_nonneg, score_fin_nonneg.
  - apply Hh.
  - apply score_divisor; [score_literal|vm_compute; reflexivity].
Qed.
End Dimensions.

(** ** Recorded history *)

Definition in_bucket (k : string) (o : OutcomeRecord) : bool :=
  bool_decide (bucket_key (or_agent_id o) (or_model_id o) (or_task_type o) = k).

Definition stats_of (l : list OutcomeRecord) : AdaptiveStats := fold_left stats_record l stats_default.

Lemma history_get k l :
  bt_get k (fold_left (fun h o => history_record o h) l []) =
  match List.filter (in_bucket k) l with [] => None | l' => Some (stats_of l') end.
Proof.
  induction l as [|o l IH] using rev_ind; [done|].
  rewrite fold_left_app, List.filter_app. simpl. unfold history_record at 1. rewrite bt_get_upsert, IH.
  assert (in_bucket k o = bool_decide (k = bucket_key (or_agent_id o) (or_model_id o) (or_task_type o)))
    as -> by (apply bool_decide_ext; done).
  destruct (decide (bucket_key (or_agent_id o) (or_model_id o) (or_task_type o) = k)) as [<-|Hne].
  - rewrite !bool_decide_true by done.
    destruct (List.filter (in_bucket _) l) as [|x l'] eqn:Ef; [done|].
    simpl. unfold stats_of. simpl. by rewrite fold_left_app.
  - rewrite !bool_decide_false by congruence. by rewrite app_nil_r.
Qed.

Lemma running_mean_le cur n s M :
  0 <= n -> 0 <= cur <= M -> 0 <= s <= M -> 0 <= running_mean cur n s <= M.
Proof.
  intros Hn Hc Hs. unfold running_mean. destruct (Z.eqb_spec n 0); [done|].
  assert (0 <= sat64 (sat64 (cur * n) + s) <= M * (n + 1)) as Hb.
  { assert (0 <= cur * n <= M * n) by nia. unfold sat64, U64_MAX. lia. }
  split; [apply Z.div_pos; lia|]. apply Z.div_le_upper_bound; lia.
Qed.

Definition outcomes_where (p : OutcomeRecord -> bool) (l : list OutcomeRecord) : Z :=
  Z.of_nat (length (List.filter p l)).

Lemma stats_of_spec l M :
  Z.of_nat (length l) <= U32_MAX -> 0 <= M ->
  Forall (fun o => 0 <= or_latency_ms o <= M) l ->
  let s := stats_of l in
  as_attempts s = Z.of_nat (length l) /\ as_successes s = outcomes_where or_success l /\
  0 <= as_mean_latency_ms s <= M.
Proof.
  intros Hn HM. induction l as [|o l IH] using rev_ind; [done|]. intros [Hl Ho]%Forall_app.
  inversion Ho as [|? ? Ho' _]; subst. rewrite length_app in Hn. simpl in Hn.
  destruct IH as (I1&I2&I3); [lia|done|]. cbv zeta in *. unfold stats_of in *.
  rewrite fold_left_app. simpl. rewrite I1, I2, length_app. unfold outcomes_where.
  pose proof (List.filter_length_le or_success l).
  rewrite List.filter_app, length_app. simpl. split; [|split].
  - rewrite wrap32_small; unfold is_u32; lia.
  - destruct (or_success o); simpl; [rewrite wrap32_small; unfold is_u32; lia|lia].
  - apply running_mean_le; lia.
Qed.

(** Recorded statistics: no more successes than attempts, in [u32]. *)
Definition stats_ok (s : AdaptiveStats) : Prop := 0 <= as_successes s <= as_attempts s /\ is_u32 (as_attempts s).

(** Blending keeps scores. *)
Lemma blend_score_kept h prior agent model ty w k r applied :
  blend h prior agent model ty w k = (r, applied) ->
  score prior -> f64_is_nan w = false -> canonical w -> is_u32 k ->
  (forall s, history_stats agent model ty h = Some s -> stats_ok s) -> score r.
Proof.
  intros E Hp Nw Cw Hkk Hst. unfold blend in E.
  destruct (f64_leb (f64_clamp01 w) f64_zero); [by injection E as <- _|].
  destruct (history_stats agent model ty h) as [s|]; [|by injection E as <- _].
  destruct (Hst s eq_refl) as [Hso Hsa]. clear Hst. unfold stats_success_rate in E.
  unfold is_u32, U32_MAX in *.
  destruct (Z.eqb_spec (as_attempts s) 0); [by injection E as <- _|].
  destruct (Z.ltb_spec (as_attempts s) (Z.max k 1)); [by injection E as <- _|].
  assert (score (f64_div (f64_of_Z (as_successes s)) (f64_of_Z (as_attempts s)))) as Hobs
    by (apply ratio_score; lia).
  assert (score (f64_clamp01 (f64_div (f64_of_Z (as_attempts s))
    (f64_of_Z (wrap32 (Z.max k 1 * 2)))))) as Hconf.
  { pose proof (wrap32_range (Z.max k 1 * 2)) as Hr. unfold is_u32, U32_MAX in Hr.
    destruct (wrap32 (Z.max k 1 * 2)) as [|p|p]; [| |lia].
    - destruct (as_attempts s) as [|p|p]; [lia| |lia].
      destruct (f64_of_Z_exact p) as (q&e&->&Hc&_); [lia|]. by apply f64_clamp01_score.
    - apply clamped_quotient_score; [apply f64_of_Z_nonneg; lia|apply f64_of_Z_canonical|].
      apply of_Z_divisor. lia. }
  pose proof (f64_mul_score _ _ (f64_clamp01_score w Nw Cw) Hconf) as Heff.
  pose proof (blend_score _ _ _ _ Hp (f64_compl_score _ Heff) Hobs Heff) as Hres.
  injection E as <- _. exact Hres.
Qed.

(** ** Properties *)

(** Whatever a sensibly described candidate and task look like, each of the
    five dimensions is a number between zero and one: unknown metrics, extreme
    prices, latencies and windows never push a score out of range. *)
Theorem dimensions_in_unit a m t (S : sensible a m t) :
  let d := (score_all a m t).1 in
  in_unit (d_quality d) /\ in_unit (d_cost d) /\ in_unit (d_latency d) /\
  in_unit (d_reliability d) /\ in_unit (d_context d).
Proof.
  cbv zeta. unfold score_all.
  pose proof (quality_score a m t S) as H1. pose proof (cost_score a m t S) as H2.
  pose proof (latency_score a m t S) as H3. pose proof (reliability_score a m t S) as H4.
  pose proof (context_score a m t S) as H5.
  destruct (score_cost a m) as [c ck], (score_latency a m) as [l lk],
    (score_reliability a m) as [r rk], (score_context m (sp_estimated_tokens (t_spec t))) as [x xk].
  cbn [fst d_quality d_cost d_latency d_reliability d_context] in *.
  split_and!; [apply H1|apply H2|apply H3|apply H4|apply H5].
Qed.

Definition sample_task : Task := task_with_id "t1" (spec_new "look around" Inspection).

Lemma sample_sensible : sensible (agent_new "a" "A" Acp) None sample_task.
Proof.
  split; try (intros x Hx; discriminate Hx); try done.
  - split; [reflexivity|]. assert (score (f64_lit 3 10)) as H by score_literal. apply H.
  - intros ms [H|H]; discriminate H.
Qed.

Lemma dimensions_in_unit_witness :
  in_unit (d_quality (score_all (agent_new "a" "A" Acp) None sample_task).1).
Proof. apply (dimensions_in_unit (agent_new "a" "A" Acp) None sample_task sample_sensible). Defined.

(** History adjusts a reliability only when the bucket exists, has at least
    the configured number of samples (and at least one) and the weight is
    positive; otherwise the prior is returned unchanged; and an adjusted
    reliability is still a number between zero and one. *)
Theorem blend_guarded h prior agent model ty w k :
  let '(r, applied) := blend h prior agent model ty w k in
  (applied = false -> r = prior) /\
  (applied = true -> exists s, history_stats agent model ty h = Some s /\
     Z.max k 1 <= as_attempts s /\ f64_leb (f64_clamp01 w) f64_zero = false /\
     (score prior -> stats_ok s -> f64_is_nan w = false -> canonical w -> is_u32 k -> in_unit r)).
Proof.
  pose proof (blend_unapplied h prior agent model ty w k) as Hu.
  pose proof (blend_applied_samples h prior agent model ty w k) as Ha.
  destruct (blend h prior agent model ty w k) as [r applied] eqn:E. cbn [fst snd] in *.
  split; [done|]. intros ->. destruct (Ha eq_refl) as (s&Hs&Hk&Hw).
  exists s. split_and!; [done..|]. intros Hp [Hso Hsa] Nw Cw Hkk.
  assert (score r) as Hr by (by apply (blend_score_kept h prior agent model ty w k r true E); [..|
    rewrite Hs; intros ? [= <-]]). apply Hr.
Qed.

(** A bucket's statistics are exactly those of the outcomes recorded under
    its key: attempts and successes are counted, the running mean latency never
    leaves the range of the recorded latencies, and an unrecorded bucket has no
    statistics. *)
Theorem history_exact l agent model ty M :
  Z.of_nat (length l) <= U32_MAX -> Forall (fun o => 0 <= or_latency_ms o <= M) l -> 0 <= M ->
  let mine := List.filter (in_bucket (bucket_key agent model ty)) l in
  match history_stats agent model ty (fold_left (fun h o => history_record o h) l []) with
  | None => mine = []
  | Some s => mine <> [] /\ as_attempts s = Z.of_nat (length mine) /\
              as_successes s = outcomes_where or_success mine /\ stats_ok s /\
              0 <= as_mean_latency_ms s <= M
  end.
Proof.
  intros Hn Hl HM. cbv zeta. unfold history_stats. rewrite history_get.
  set (mine := List.filter _ l).
  assert (Z.of_nat (length mine) <= U32_MAX) as Hm.
  { pose proof (List.filter_length_le (in_bucket (bucket_key agent model ty)) l). subst mine. lia. }
  assert (Forall (fun o => 0 <= or_latency_ms o <= M) mine) as Hl'.
  { rewrite Forall_forall in *. intros o Ho. apply Hl. by apply filter_In in Ho as [? _]. }
  destruct (stats_of_spec mine M Hm HM Hl') as (S1&S2&S3).
  destruct mine as [|o l'] eqn:Em; [done|]. split_and!; [done|done|done| |apply S3|apply S3].
  unfold stats_ok, is_u32. rewrite S1, S2. unfold outcomes_where.
  pose proof (List.filter_length_le or_success (o :: l')). simpl length in *. lia.
Qed.

Lemma history_exact_witness :
  match history_stats "a" None General
    (fold_left (fun h o => history_record o h) [outcome_success 0 "a" None General 10 5] []) with
  | Some s => as_attempts s = 1
  | None => False
  end.
Proof.
  pose proof (history_exact [outcome_success 0 "a" None General 10 5] "a" None General 10) as H.
  destruct (history_stats _ _ _ _) as [s|].
  - destruct H as (_&H&_); [vm_compute; done|repeat constructor; simpl; lia|lia|]. rewrite H. reflexivity.
  - discriminate H; [vm_compute; done|repeat constructor; simpl; lia|lia].
Defined.
