(* ===== verification/Router.v ===== *)
(** * The router ([cuma-router/src/router.rs], [explain.rs])

    Filter, score, explain.  The circuit breakers the router consults are shared
    state that a query may move from open to half-open, so routing threads the
    registry; every query reads the monotonic clock, which is a function of the
    number of readings so far. *)

From S2P Require Export Score Breaker.
From stdpp Require Import pretty.
Open Scope string_scope.
Open Scope Z_scope.

(** ** Explanations *)

Definition pad_right (n : nat) (s : string) : string :=
  s +:+ of_chars (repeat 32 (n - length (chars s))).
Definition pad_left (n : nat) (s : string) : string :=
  of_chars (repeat 32 (n - length (chars s))) +:+ s.

Definition strategy_debug (s : RoutingStrategy) : string :=
  match s with
  | Balanced => "Balanced" | QualityFirst => "QualityFirst" | CostFirst => "CostFirst"
  | LatencyFirst => "LatencyFirst" | LocalFirst => "LocalFirst" | PrivacyFirst => "PrivacyFirst"
  | Manual => "Manual"
  end.

Definition health_debug (h : HealthState) : string :=
  match h with
  | Healthy => "Healthy" | Degraded => "Degraded" | RateLimited => "RateLimited"
  | Unavailable => "Unavailable" | HUnknown => "Unknown"
  end.

Record ScoreBreakdown := {
  sb_quality : f64;
  sb_cost : f64;
  sb_latency : f64;
  sb_reliability : f64;
  sb_context : f64;
  sb_total : f64;
}.

(** [ScoreBreakdown::render]. *)
Definition breakdown_render (b : ScoreBreakdown) (weights : RouterWeights) : string :=
  let w := weights_normalized weights in
  let row (r : string * f64 * f64) :=
    let '(name, raw, weight) := r in
    "  " +:+ pad_right 22 name +:+ " " +:+ pad_left 6 (fmt_fixed 2 raw) +:+ "  x"
    +:+ pad_right 5 (fmt_fixed 2 weight) +:+ " = " +:+ pad_left 6 (fmt_fixed 3 (f64_mul raw weight))
    +:+ NL in
  fold_left (fun out r => out +:+ row r)
    [("capability & quality", sb_quality b, w_quality w); ("cost", sb_cost b, w_cost w);
     ("latency", sb_latency b, w_latency w); ("reliability", sb_reliability b, w_reliability w);
     ("context fit", sb_context b, w_context w)] ""
  +:+ "  " +:+ pad_right 22 "total" +:+ " " +:+ pad_left 21 (fmt_fixed 3 (sb_total b)) +:+ NL.

Record Candidate := {
  c_agent_id : AgentId;
  c_model_id : option ModelId;
  c_breakdown : ScoreBreakdown;
  c_notes : list string;
}.

(** [Candidate::summary]. *)
Definition candidate_summary (c : Candidate) : string :=
  match c_model_id c with
  | Some m => c_agent_id c +:+ "/" +:+ m +:+ "  " +:+ fmt_fixed 3 (sb_total (c_breakdown c))
  | None => c_agent_id c +:+ "  " +:+ fmt_fixed 3 (sb_total (c_breakdown c))
  end.

Record Rejection := {
  rj_agent_id : AgentId;
  rj_model_id : option ModelId;
  rj_reason : string;
}.

Record RoutingDecision := {
  selected : Candidate;
  alternatives : list Candidate;
  rejected : list Rejection;
  rd_weights : RouterWeights;
  rd_strategy : RoutingStrategy;
}.

(** [RoutingDecision::has_alternatives]. *)
Definition has_alternatives (d : RoutingDecision) : bool :=
  match alternatives d with [] => false | _ => true end.

Definition concat_lines (l : list string) : string := fold_left String.append l "".

(** [RoutingDecision::explain]. *)
Definition explain (d : RoutingDecision) : string :=
  let sel := selected d in
  "Selected:" +:+ NL +:+
  "  Agent: " +:+ c_agent_id sel +:+ NL +:+
  (match c_model_id sel with Some m => "  Model: " +:+ m +:+ NL | None => "" end) +:+
  "Strategy: " +:+ strategy_debug (rd_strategy d) +:+ NL +:+
  "Reasons:" +:+ NL +:+
  breakdown_render (c_breakdown sel) (rd_weights d) +:+
  (match c_notes sel with
   | [] => ""
   | notes => "Notes:" +:+ NL +:+ concat_lines (map (fun n => "  - " +:+ n +:+ NL) notes)
   end) +:+
  (match alternatives d with
   | [] => ""
   | alts => "Alternatives:" +:+ NL
             +:+ concat_lines (map (fun a => "  " +:+ candidate_summary a +:+ NL) alts)
   end) +:+
  (match rejected d with
   | [] => ""
   | rs => "Rejected:" +:+ NL +:+ concat_lines (map (fun r =>
       "  " +:+ (match rj_model_id r with
                 | Some m => rj_agent_id r +:+ "/" +:+ m
                 | None => rj_agent_id r
                 end) +:+ ": " +:+ rj_reason r +:+ NL) rs)
   end).

(** [RoutingDecision::summary]. *)
Definition decision_summary (d : RoutingDecision) : string :=
  candidate_summary (selected d) +:+ " (score " +:+ fmt_fixed 3 (sb_total (c_breakdown (selected d)))
  +:+ ", " +:+ pretty (length (alternatives d)) +:+ " alternatives, "
  +:+ pretty (length (rejected d)) +:+ " rejected)".

(** ** Requests *)

Record RouteRequest := {
  rq_task : Task;
  rq_snapshot : RegistrySnapshot;
  rq_exclude_targets : list (AgentId * option ModelId);
  rq_spent_usd : f64;
  rq_budget_usd : option f64;
}.

(** [RouteRequest::new], [excluding] and [with_budget]. *)
Definition request_new (t : Task) (s : RegistrySnapshot) : RouteRequest :=
  {| rq_task := t; rq_snapshot := s; rq_exclude_targets := []; rq_spent_usd := f64_zero;
     rq_budget_usd := None |}.

Definition excluding (targets : list (AgentId * option ModelId)) (r : RouteRequest) : RouteRequest :=
  {| rq_task := rq_task r; rq_snapshot := rq_snapshot r; rq_exclude_targets := targets;
     rq_spent_usd := rq_spent_usd r; rq_budget_usd := rq_budget_usd r |}.

Definition with_budget (spent : f64) (budget : option f64) (r : RouteRequest) : RouteRequest :=
  {| rq_task := rq_task r; rq_snapshot := rq_snapshot r; rq_exclude_targets := rq_exclude_targets r;
     rq_spent_usd := spent; rq_budget_usd := budget |}.

(** ** Routing *)

Definition MAX_ALTERNATIVES : nat := 5.

(** The breakers as the router shares them, with the readings made so far of
    the clock [Instant::now]. *)
Record Breakers := { br_registry : CircuitBreakerRegistry; br_ticks : nat }.

Section Route.
Context (clock : nat -> Z) (config : RouterConfig) (history : RoutingHistory).

(** [self.breakers.allows(agent, model)]. *)
Definition breakers_allow (agent : AgentId) (model : option ModelId) (b : Breakers) : Breakers * bool :=
  let '(r, ok) := registry_allows (clock (br_ticks b)) agent model (br_registry b) in
  ({| br_registry := r; br_ticks := S (br_ticks b) |}, ok).

(** What [route] accumulates. *)
Record Accumulated := {
  acc_breakers : Breakers;
  acc_candidates : list Candidate;
  acc_rejected : list Rejection;
}.

Definition reject (agent : AgentId) (model : option ModelId) (reason : string) (acc : Accumulated)
  : Accumulated :=
  {| acc_breakers := acc_breakers acc; acc_candidates := acc_candidates acc;
     acc_rejected := (acc_rejected acc ++
       [{| rj_agent_id := agent; rj_model_id := model; rj_reason := reason |}])%list |}.

Definition with_breakers (b : Breakers) (acc : Accumulated) : Accumulated :=
  {| acc_breakers := b; acc_candidates := acc_candidates acc; acc_rejected := acc_rejected acc |}.

Definition add_candidate (c : Candidate) (acc : Accumulated) : Accumulated :=
  {| acc_breakers := acc_breakers acc; acc_candidates := (acc_candidates acc ++ [c])%list;
     acc_rejected := acc_rejected acc |}.

(** [Router::weights]. *)
Definition router_weights : RouterWeights := weights_normalized (weights config).

(** [Router::estimate_cost]. *)
Definition router_estimate_cost (a : AgentDescriptor) (m : option ModelDescriptor) (t : Task)
  : option f64 :=
  match sp_estimated_tokens (t_spec t) with
  | None => None
  | Some tokens =>
      let input := wrap64 (tokens * 7) / 10 in
      let output := wrap64 (tokens - input) in
      known_value (estimate (cost_profile_of a m) input output)
  end.

(** The checks of [consider_target] on a model, in order: a reason to reject. *)
Definition model_gate (a : AgentDescriptor) (m : ModelDescriptor) (b : Breakers)
  : Breakers * option string :=
  if negb (m_available m) then (b, Some "model unavailable")
  else if contains (exclude_models config) (m_id m) then
    (b, Some "excluded by router.exclude_models")
  else match pin_model config with
       | Some pinned =>
           if negb (bool_decide (pinned = m_id m))
           then (b, Some ("router.pin_model is " +:+ pinned))
           else let '(b, ok) := breakers_allow (a_id a) (Some (m_id m)) b in
                (b, if ok then None else Some "model circuit breaker open")
       | None =>
           let '(b, ok) := breakers_allow (a_id a) (Some (m_id m)) b in
           (b, if ok then None else Some "model circuit breaker open")
       end.

(** [exclude_targets.iter().any(...)]. *)
Definition target_excluded (request : RouteRequest) (agent : AgentId) (model : option ModelId) : bool :=
  existsb (fun e => bool_decide (e.1 = agent) &&
                    (bool_decide (e.2 = None) || bool_decide (e.2 = model)))
    (rq_exclude_targets request).

(** The checks of [consider_target] on the task: exclusions, coverage, budget. *)
Definition task_gate (a : AgentDescriptor) (m : option ModelDescriptor) (request : RouteRequest)
  : option string :=
  let coverage := task_coverage a m (rq_task request) in
  if target_excluded request (a_id a) (m_id <$> m) then Some "already failed this task"
  else if negb (is_complete coverage) then
    Some ("missing required capabilities: "
          +:+ str_join ", " (map capability_display (cm_missing coverage)))
  else match rq_budget_usd request with
       | None => None
       | Some budget =>
           let remaining := f64_sub budget (rq_spent_usd request) in
           if f64_leb remaining f64_zero then
             Some ("session budget of $" +:+ fmt_fixed 2 budget +:+ " is exhausted")
           else match router_estimate_cost a m (rq_task request) with
                | Some estimated =>
                    if f64_ltb remaining estimated then
                      Some ("estimated $" +:+ fmt_fixed 4 estimated +:+ " exceeds $"
                            +:+ fmt_fixed 4 remaining +:+ " remaining budget")
                    else None
                | None => None
                end
       end.

(** The candidate [consider_target] pushes. *)
Definition score_target (a : AgentDescriptor) (m : option ModelDescriptor) (request : RouteRequest)
  : Candidate :=
  let task := rq_task request in
  let '(d, notes) := score_all a m task in
  let '(reliability, adapted) :=
    blend history (d_reliability d) (a_id a) (m_id <$> m) (sp_task_type (t_spec task))
      (adaptive_weight config) (adaptive_min_samples config) in
  let notes := if adapted
    then (notes ++ ["reliability adjusted from observed history for "
                    +:+ task_type_debug (sp_task_type (t_spec task))])%list
    else notes in
  let w := router_weights in
  let total :=
    f64_add (f64_add (f64_add (f64_add
      (f64_mul (d_quality d) (w_quality w)) (f64_mul (d_cost d) (w_cost w)))
      (f64_mul (d_latency d) (w_latency w))) (f64_mul reliability (w_reliability w)))
      (f64_mul (d_context d) (w_context w)) in
  {| c_agent_id := a_id a; c_model_id := m_id <$> m;
     c_breakdown := {| sb_quality := d_quality d; sb_cost := d_cost d; sb_latency := d_latency d;
                       sb_reliability := reliability; sb_context := d_context d; sb_total := total |};
     c_notes := notes |}.

(** [Router::consider_target]. *)
Definition consider_target (a : AgentDescriptor) (m : option ModelDescriptor)
    (request : RouteRequest) (acc : Accumulated) : Accumulated :=
  let '(b, refused) := match m with
                       | Some md => model_gate a md (acc_breakers acc)
                       | None => (acc_breakers acc, None)
                       end in
  let acc := with_breakers b acc in
  match refused with
  | Some reason => reject (a_id a) (m_id <$> m) reason acc
  | None =>
      match task_gate a m request with
      | Some reason => reject (a_id a) (m_id <$> m) reason acc
      | None => add_candidate (score_target a m request) acc
      end
  end.

Definition is_local_strategy (s : RoutingStrategy) : bool :=
  match s with LocalFirst | PrivacyFirst => true | _ => false end.

(** The checks of [consider_agent] before the breaker. *)
Definition agent_gate (a : AgentDescriptor) : option string :=
  if negb (a_enabled a) then Some "disabled by configuration"
  else if contains (exclude_agents config) (a_id a) then Some "excluded by router.exclude_agents"
  else match pin_agent config with
       | Some pinned =>
           if negb (bool_decide (pinned = a_id a)) then Some ("router.pin_agent is " +:+ pinned)
           else if negb (health_is_routable (h_state (a_health a)))
           then Some ("health is " +:+ health_debug (h_state (a_health a)))
           else None
       | None =>
           if negb (health_is_routable (h_state (a_health a)))
           then Some ("health is " +:+ health_debug (h_state (a_health a)))
           else None
       end.

(** [Router::consider_agent]. *)
Definition consider_agent (request : RouteRequest) (acc : Accumulated) (a : AgentDescriptor)
  : Accumulated :=
  match agent_gate a with
  | Some reason => reject (a_id a) None reason acc
  | None =>
      let '(b, ok) := breakers_allow (a_id a) None (acc_breakers acc) in
      let acc := with_breakers b acc in
      if negb ok then reject (a_id a) None "circuit breaker open" acc
      else if is_local_strategy (strategy config) && bool_decide (a_protocol a = A2A) then
        reject (a_id a) None (strategy_debug (strategy config) +:+ " excludes remote A2A agents") acc
      else match a_models a with
           | [] => consider_target a None request acc
           | models => fold_left (fun acc m => consider_target a (Some m) request acc) models acc
           end
  end.

(** The sort's comparator keeps [a] before [b] unless [b] compares greater. *)
Definition ranked_before (a b : Candidate) : bool :=
  match f64_cmp (sb_total (c_breakdown b)) (sb_total (c_breakdown a)) with
  | Some Gt => false
  | _ => true
  end.

Definition routing_error (task : TaskId) (rejected : list Rejection) : MetaAgentError :=
  ERouting task
    (match rejected with
     | [] => "no agents are registered"
     | _ => str_join "; " (map (fun r => rj_agent_id r +:+ ": " +:+ rj_reason r) rejected)
     end).

Definition consider_all (request : RouteRequest) (b : Breakers) : Accumulated :=
  fold_left (consider_agent request) (rq_snapshot request)
    {| acc_breakers := b; acc_candidates := []; acc_rejected := [] |}.

(** [Router::route]. *)
Definition route (request : RouteRequest) (b : Breakers) : Breakers * Result RoutingDecision :=
  let acc := consider_all request b in
  (acc_breakers acc,
   match stable_sort ranked_before (acc_candidates acc) with
   | [] => Err (routing_error (t_id (rq_task request)) (acc_rejected acc))
   | best :: others =>
       Ok {| selected := best; alternatives := take MAX_ALTERNATIVES others;
             rejected := acc_rejected acc; rd_weights := router_weights;
             rd_strategy := strategy config |}
   end).
End Route.
