(* ===== verification/RouterFacts.v ===== *)
(** * Routing is safe, complete and optimal

    Every candidate satisfies the hard constraints, every target is either a
    candidate or a recorded rejection, routing only fails when nothing is
    eligible, and the selected candidate has the best score. *)

From S2P Require Export Router ScoreFacts Breaker.
Open Scope string_scope.
Open Scope Z_scope.

(** ** Breakers that admit *)

(** The breaker of a key is not open (an untouched key has a closed one). *)
Definition openless (r : CircuitBreakerRegistry) (k : BreakerKey) : Prop :=
  forall b, breaker_of r k = Some b -> cb_state b <> Open.

Lemma state_at_openless now b : cb_state b <> Open -> cb_state (state_at now b).1 <> Open.
Proof. unfold state_at. destruct (cb_state b) eqn:E; simpl; by rewrite ?E. Qed.

Lemma allow_openless now k r :
  let '(r', ok) := with_breaker k (allows_request now) r in
  (unwrap_or true ok = true -> openless r' k) /\
  (openless r k -> unwrap_or true ok = true) /\
  (forall k', openless r k' -> openless r' k').
Proof.
  pose proof (with_breaker_spec k (allows_request now) r) as Hs.
  destruct (with_breaker k (allows_request now) r) as [r' v]. destruct Hs as (_&Hn&Hs).
  destruct (cr_breakers r) as [m|] eqn:E.
  - destruct Hs as (_&->&Hk); [done|]. clear Hn. unfold unwrap_or at 1 2.
    assert ((allows_request now (breaker_at r k)).1 = (state_at now (breaker_at r k)).1 /\
      (allows_request now (breaker_at r k)).2 =
        negb (bool_decide (cb_state (state_at now (breaker_at r k)).1 = Open))) as [Ha1 Ha2] by done.
    rewrite Ha2. rewrite Ha1 in Hk.
    assert (forall k', openless r k' -> cb_state (breaker_at r k') <> Open) as Hat.
    { intros k' Ho. unfold breaker_at. destruct (breaker_of r k') eqn:Eb; [by apply Ho|done]. }
    split_and!.
    + intros Hd. destruct_bools. intros b. rewrite Hk, bool_decide_eq_true_2 by done. naive_solver.
    + intros Ho. apply negb_true_iff, bool_decide_eq_false_2. by apply state_at_openless, Hat.
    + intros k' Ho b. rewrite Hk. destruct (bool_decide (k' = k)) eqn:Hkk; [|exact (Ho b)]. intros [= <-].
      apply bool_decide_eq_true in Hkk as ->. by apply state_at_openless, Hat.
  - destruct (Hn eq_refl) as [-> ->].
    assert (forall k', openless r k') as Hall.
    { intros k'. unfold openless, breaker_of. rewrite E. intros b Hb. discriminate Hb. }
    split_and!; auto.
Qed.

(** The keys an admission consults. *)
Definition keys_of (agent : AgentId) (model : option ModelId) : list BreakerKey :=
  KAgent agent :: match model with Some m => [KModel agent m] | None => [] end.

Lemma registry_allows_openless now agent model r :
  let '(r', ok) := registry_allows now agent model r in
  (ok = true -> Forall (openless r') (keys_of agent model)) /\
  (Forall (openless r) (keys_of agent model) -> ok = true) /\
  (forall k, openless r k -> openless r' k).
Proof.
  unfold registry_allows, keys_of. pose proof (allow_openless now (KAgent agent) r) as H1.
  destruct (with_breaker (KAgent agent) _ r) as [r1 ok1]. destruct H1 as (A1&B1&C1).
  destruct (unwrap_or true ok1) eqn:E1; simpl.
  - destruct model as [m|].
    + pose proof (allow_openless now (KModel agent m) r1) as H2.
      destruct (with_breaker (KModel agent m) _ r1) as [r2 ok2]. destruct H2 as (A2&B2&C2).
      split_and!; [|rewrite !Forall_cons_iff; naive_solver|auto].
      intros Hok. repeat constructor; auto.
    + split_and!; [repeat constructor; auto|done|auto].
  - split_and!; [done| |auto]. rewrite Forall_cons_iff. naive_solver.
Qed.

(** ** Eligibility *)

Section RouteFacts.
Context (clock : nat -> Z) (config : RouterConfig) (history : RoutingHistory).
Context (request : RouteRequest).

(** A target of a snapshot: an agent with one of its models, or an agent that
    lists none. *)
Definition is_target (s : RegistrySnapshot) (a : AgentDescriptor) (m : option ModelDescriptor) : Prop :=
  a ∈ s /\ match m with Some md => md ∈ a_models a | None => a_models a = [] end.

(** What the agent itself must satisfy, the breaker aside. *)
Record agent_ok (a : AgentDescriptor) : Prop := {
  ao_enabled : a_enabled a = true;
  ao_included : a_id a ∉ exclude_agents config;
  ao_pin : forall p, pin_agent config = Some p -> p = a_id a;
  ao_health : health_is_routable (h_state (a_health a)) = true;
}.

(** What the model must satisfy, the breaker aside. *)
Record model_ok (md : ModelDescriptor) : Prop := {
  mo_available : m_available md = true;
  mo_included : m_id md ∉ exclude_models config;
  mo_pin : forall p, pin_model config = Some p -> p = m_id md;
}.

(** The remaining budget is positive and covers the estimate, when there is
    one. *)
Definition affordable (a : AgentDescriptor) (m : option ModelDescriptor) : Prop :=
  forall budget, rq_budget_usd request = Some budget ->
    f64_leb (f64_sub budget (rq_spent_usd request)) f64_zero = false /\
    forall x, router_estimate_cost a m (rq_task request) = Some x ->
      f64_ltb (f64_sub budget (rq_spent_usd request)) x = false.

(** What the pair must satisfy for the task. *)
Record task_ok (a : AgentDescriptor) (m : option ModelDescriptor) : Prop := {
  to_untried : forall e, e ∈ rq_exclude_targets request -> e.1 = a_id a ->
    e.2 <> None /\ e.2 <> m_id <$> m;
  to_capable : sp_required (t_spec (rq_task request)) ⊆ effective_capabilities a m;
  to_affordable : affordable a m;
}.

(** The hard constraints of routing, the breakers aside. *)
Record eligible (a : AgentDescriptor) (m : option ModelDescriptor) : Prop := {
  el_target : is_target (rq_snapshot request) a m;
  el_agent : agent_ok a;
  el_local : is_local_strategy (strategy config) = true -> a_protocol a <> A2A;
  el_model : forall md, m = Some md -> model_ok md;
  el_task : task_ok a m;
}.

Lemma pin_spec (p : option string) id :
  (forall x, p = Some x -> x = id) <-> match p with Some x => x = id | None => True end.
Proof. destruct p; naive_solver. Qed.

Lemma agent_gate_spec a : agent_gate config a = None <-> agent_ok a.
Proof.
  unfold agent_gate. split.
  - intros H. destruct (a_enabled a) eqn:E1; simpl in H; [|done].
    destruct (contains (exclude_agents config) (a_id a)) eqn:E2; [done|].
    apply contains_false in E2.
    assert (health_is_routable (h_state (a_health a)) = true /\
      forall p, pin_agent config = Some p -> p = a_id a) as [H1 H2]
      by (rewrite pin_spec; repeat case_match; by destruct_bools).
    by split.
  - intros [-> E2%contains_false H3 ->]. rewrite E2. simpl. apply pin_spec in H3.
    case_match; [|done]. by rewrite bool_decide_eq_true_2 by done.
Qed.

Lemma model_gate_ok a md b :
  model_ok md ->
  model_gate clock config a md b =
    (let '(b', ok) := breakers_allow clock (a_id a) (Some (m_id md)) b in
     (b', if ok then None else Some "model circuit breaker open")).
Proof.
  intros [E1 E2%contains_false E3%pin_spec]. unfold model_gate. rewrite E1, E2. simpl.
  case_match; [|done]. by rewrite bool_decide_eq_true_2 by done.
Qed.

Lemma model_gate_cases a md b :
  (model_ok md /\ model_gate clock config a md b =
    (let '(b', ok) := breakers_allow clock (a_id a) (Some (m_id md)) b in
     (b', if ok then None else Some "model circuit breaker open"))) \/
  (~ model_ok md /\ exists reason, model_gate clock config a md b = (b, Some reason)).
Proof.
  destruct (m_available md) eqn:E1.
  2: { right. split; [intros [? _ _]; congruence|]. unfold model_gate. rewrite E1. simpl. eauto. }
  destruct (decide (m_id md ∈ exclude_models config)) as [E2|E2].
  { right. split; [by intros [_ ? _]|]. unfold model_gate.
    apply contains_true in E2. rewrite E1, E2. simpl. eauto. }
  destruct (pin_model config) as [p|] eqn:E3.
  - destruct (decide (p = m_id md)) as [E4|E4].
    + left. assert (model_ok md) by (split; naive_solver). split; [done|by apply model_gate_ok].
    + right. split; [intros [_ _ ?]; naive_solver|]. unfold model_gate.
      apply contains_false in E2. rewrite E1, E2, E3, bool_decide_eq_false_2 by done. simpl. eauto.
  - left. assert (model_ok md) by (split; naive_solver). split; [done|by apply model_gate_ok].
Qed.

Lemma target_excluded_spec agent model :
  target_excluded request agent model = false <->
  forall e, e ∈ rq_exclude_targets request -> e.1 = agent -> e.2 <> None /\ e.2 <> model.
Proof.
  unfold target_excluded. rewrite <- not_true_iff_false, existsb_exists. split.
  - intros H e He H1. split; intros H2; apply H; exists e; rewrite <- list_elem_of_In; (split; [done|]);
      rewrite (bool_decide_eq_true_2 _ H1), (bool_decide_eq_true_2 _ H2), ?orb_true_r; done.
  - intros H (e&He&Hb). rewrite <- list_elem_of_In in He. destruct_bools.
    destruct (H e He) as [? ?]; [done|].
    apply orb_true_iff in H1 as [H1|H1]; by apply bool_decide_eq_true in H1.
Qed.

Lemma task_gate_spec a m : task_gate a m request = None <-> task_ok a m.
Proof.
  unfold task_gate. split.
  - intros H. destruct (target_excluded request (a_id a) (m_id <$> m)) eqn:E1; [done|].
    destruct (is_complete _) eqn:E2; simpl in H; [|done]. split.
    + by apply target_excluded_spec.
    + by apply match_complete.
    + intros budget Hb. rewrite Hb in H. destruct (f64_leb _ f64_zero) eqn:E3; [done|].
      split; [done|]. intros x Hx. rewrite Hx in H. by destruct (f64_ltb _ x).
  - intros [H1%target_excluded_spec H2%match_complete H3]. rewrite H1.
    unfold task_coverage. rewrite H2. simpl.
    destruct (rq_budget_usd request) as [budget|] eqn:Eb; [|done].
    destruct (H3 budget Eb) as [-> H4]. case_match; [|done]. by rewrite H4.
Qed.

(** ** One target *)

Definition registry_of (acc : Accumulated) : CircuitBreakerRegistry := br_registry (acc_breakers acc).

(** Breakers only ever stop being open while routing. *)
Definition opens_up (acc acc' : Accumulated) : Prop :=
  forall k, openless (registry_of acc) k -> openless (registry_of acc') k.

Definition model_fine (m : option ModelDescriptor) : Prop := forall md, m = Some md -> model_ok md.

(** Considering a target either adds its candidate, all constraints met and
    its breakers not open, or records a rejection for a reason. *)
Definition added a m (acc acc' : Accumulated) : Prop :=
  task_ok a m /\ model_fine m /\
  acc_candidates acc' = (acc_candidates acc ++ [score_target config history a m request])%list /\
  acc_rejected acc' = acc_rejected acc /\
  forall md, m = Some md -> Forall (openless (registry_of acc')) (keys_of (a_id a) (m_id <$> m)).

Definition refused a m (acc acc' : Accumulated) : Prop :=
  acc_candidates acc' = acc_candidates acc /\
  (exists reason, acc_rejected acc' = (acc_rejected acc ++
     [{| rj_agent_id := a_id a; rj_model_id := m_id <$> m; rj_reason := reason |}])%list) /\
  (task_ok a m -> model_fine m -> ~ Forall (openless (registry_of acc)) (keys_of (a_id a) (m_id <$> m))).

Lemma task_gate_outcome a m (acc0 acc : Accumulated) :
  acc_candidates acc = acc_candidates acc0 -> acc_rejected acc = acc_rejected acc0 ->
  model_fine m ->
  (forall md, m = Some md -> Forall (openless (registry_of acc)) (keys_of (a_id a) (m_id <$> m))) ->
  let acc' := match task_gate a m request with
              | Some reason => reject (a_id a) (m_id <$> m) reason acc
              | None => add_candidate (score_target config history a m request) acc
              end in
  registry_of acc' = registry_of acc /\ (added a m acc0 acc' \/ refused a m acc0 acc').
Proof.
  intros Hc Hr Hm Hk. cbv zeta. destruct (task_gate a m request) as [reason|] eqn:E.
  - split; [done|]. right. split_and!; simpl; [done|exists reason; by rewrite Hr|].
    intros H%task_gate_spec. congruence.
  - apply task_gate_spec in E. split; [done|]. left. by split_and!; simpl; rewrite ?Hc.
Qed.

Lemma consider_target_spec a m acc :
  let acc' := consider_target clock config history a m request acc in
  opens_up acc acc' /\ (added a m acc acc' \/ refused a m acc acc').
Proof.
  unfold consider_target. destruct m as [md|]; cbv zeta.
  - destruct (model_gate_cases a md (acc_breakers acc)) as [[Hm ->]|(Hm&reason&->)].
    + unfold breakers_allow.
      pose proof (registry_allows_openless (clock (br_ticks (acc_breakers acc))) (a_id a)
        (Some (m_id md)) (br_registry (acc_breakers acc))) as Ha.
      destruct (registry_allows _ _ _ _) as [r ok]. destruct Ha as (Ha&Hb&Hmono).
      destruct ok.
      * edestruct (task_gate_outcome a (Some md) acc
          (with_breakers {| br_registry := r; br_ticks := S (br_ticks (acc_breakers acc)) |} acc))
          as [He Ho]; [done|done|by intros ? [= <-]|by intros ? _; apply Ha|].
        split; [|exact Ho]. intros k Hok. rewrite He. by apply Hmono.
      * split; [exact Hmono|]. right. split_and!; simpl; [done|by eexists|].
        intros _ _ Hall. discriminate (Hb Hall).
    + split; [by intros k|]. right. split_and!; simpl; [done|by eexists|].
      intros _ Hf. by destruct (Hm (Hf md eq_refl)).
  - destruct (task_gate_outcome a None acc (with_breakers (acc_breakers acc) acc)) as [He Ho];
      [done|done|done|done|]. split; [|exact Ho]. intros k Hok. by rewrite He.
Qed.

(** ** All targets *)

(** The safety invariant of the accumulated candidates. *)
Definition sound_candidate (r : CircuitBreakerRegistry) (c : Candidate) : Prop :=
  exists a m, eligible a m /\ c = score_target config history a m request /\
    Forall (openless r) (keys_of (a_id a) (m_id <$> m)).

Definition sound (acc : Accumulated) : Prop :=
  Forall (sound_candidate (registry_of acc)) (acc_candidates acc).

(** A target is accounted for: a candidate, or a rejection that names it. *)
Definition accounted a m (acc : Accumulated) : Prop :=
  score_target config history a m request ∈ acc_candidates acc \/
  exists rj, rj ∈ acc_rejected acc /\ rj_agent_id rj = a_id a /\
    (rj_model_id rj = None \/ rj_model_id rj = m_id <$> m).

(** What routing has accumulated only grows. *)
Definition grows (acc acc' : Accumulated) : Prop :=
  acc_candidates acc ⊆ acc_candidates acc' /\ acc_rejected acc ⊆ acc_rejected acc' /\ opens_up acc acc'.

#[local] Instance grows_preorder : PreOrder grows.
Proof.
  split.
  - intros acc. split_and!; [set_solver..|by intros k].
  - intros a b c (?&?&H1) (?&?&H2). split_and!; [set_solver|set_solver|].
    intros k Hk. by apply H2, H1.
Qed.

Lemma accounted_grows a m acc acc' : grows acc acc' -> accounted a m acc -> accounted a m acc'.
Proof. intros (?&?&_) [?|(rj&?&?)]; [left|right; exists rj]; set_solver. Qed.

Lemma outcome_grows a m acc :
  grows acc (consider_target clock config history a m request acc) /\
  accounted a m (consider_target clock config history a m request acc).
Proof.
  destruct (consider_target_spec a m acc) as [Ho [(_&_&Hc&Hr&_)|(Hc&[reason Hr]&_)]];
    unfold grows, accounted; rewrite Hc, Hr; split_and!; try set_solver.
Qed.

Lemma sound_grows acc acc' c : opens_up acc acc' ->
  sound_candidate (registry_of acc) c -> sound_candidate (registry_of acc') c.
Proof.
  intros Ho (a&m&He&Hc&Hk). exists a, m. split_and!; [done..|].
  eapply Forall_impl; [|exact Hk]. intros k. apply Ho.
Qed.

Lemma consider_target_sound a m acc :
  is_target (rq_snapshot request) a m -> agent_ok a ->
  (is_local_strategy (strategy config) = true -> a_protocol a <> A2A) ->
  openless (registry_of acc) (KAgent (a_id a)) -> sound acc ->
  sound (consider_target clock config history a m request acc).
Proof.
  intros Ht Ha Hl Hk Hs. unfold sound.
  destruct (consider_target_spec a m acc) as [Ho [(Htask&Hm&Hc&_&Hkm)|(Hc&_)]]; rewrite Hc.
  - apply Forall_app. split.
    + eapply Forall_impl; [|exact Hs]. intros c. by apply sound_grows.
    + repeat constructor. exists a, m. split_and!; [by split|done|].
      destruct m as [md|]; [by apply (Hkm md)|]. repeat constructor. by apply Ho.
  - eapply Forall_impl; [|exact Hs]. intros c. by apply sound_grows.
Qed.

Abbreviation one_agent := (consider_agent clock config history request).
Abbreviation one_target := (fun a acc m => consider_target clock config history a (Some m) request acc).

Lemma models_grow a l acc : grows acc (fold_left (one_target a) l acc).
Proof.
  apply (fold_left_inv _ (grows acc)); [|reflexivity].
  intros acc' m _ H. etrans; [exact H|]. apply outcome_grows.
Qed.

(** The agent's breaker, once passed. *)
Lemma agent_breaker a acc :
  let '(b, ok) := breakers_allow clock (a_id a) None (acc_breakers acc) in
  (ok = true -> openless (br_registry b) (KAgent (a_id a))) /\
  (openless (registry_of acc) (KAgent (a_id a)) -> ok = true) /\
  opens_up acc (with_breakers b acc).
Proof.
  unfold breakers_allow.
  pose proof (registry_allows_openless (clock (br_ticks (acc_breakers acc))) (a_id a) None
    (br_registry (acc_breakers acc))) as H.
  destruct (registry_allows _ _ _ _) as [r ok]. destruct H as (H1&H2&H3). simpl.
  split_and!; [|by intros; apply H2; repeat constructor|exact H3].
  intros Hok. specialize (H1 Hok). by inversion H1.
Qed.

(** An agent is rejected as a whole, or each of its targets is considered once
    its breaker has let it through. *)
Lemma consider_agent_cases acc a :
  (exists b reason, one_agent acc a = reject (a_id a) None reason (with_breakers b acc) /\
     opens_up acc (with_breakers b acc) /\
     (agent_ok a -> (is_local_strategy (strategy config) = true -> a_protocol a <> A2A) ->
      ~ openless (registry_of acc) (KAgent (a_id a)))) \/
  (agent_ok a /\ (is_local_strategy (strategy config) = true -> a_protocol a <> A2A) /\
   exists b, let acc1 := with_breakers b acc in
     opens_up acc acc1 /\ openless (registry_of acc1) (KAgent (a_id a)) /\
     one_agent acc a = match a_models a with
                       | [] => consider_target clock config history a None request acc1
                       | models => fold_left (one_target a) models acc1
                       end).
Proof.
  unfold consider_agent. destruct (agent_gate config a) as [reason|] eqn:Eg.
  { left. exists (acc_breakers acc), reason. split_and!; [by destruct acc|by intros k|].
    intros Ha%agent_gate_spec. congruence. }
  apply agent_gate_spec in Eg. pose proof (agent_breaker a acc) as Hb.
  destruct (breakers_allow _ _ _ _) as [b ok]. destruct Hb as (H1&H2&H3).
  destruct ok; simpl.
  2: { left. do 2 eexists. split_and!; [done|exact H3|]. intros _ _ Hk. discriminate (H2 Hk). }
  destruct (is_local_strategy (strategy config)) eqn:El; simpl.
  - case_bool_decide as Hp.
    + left. do 2 eexists. split_and!; [done|exact H3|]. intros _ Hn. by destruct (Hn eq_refl).
    + right. split_and!; [done|done|]. exists b. split_and!; [exact H3|by apply H1|].
      by destruct (a_models a).
  - right. split_and!; [done|done|]. exists b. split_and!; [exact H3|by apply H1|].
    by destruct (a_models a).
Qed.

Lemma grows_with_breakers b acc : opens_up acc (with_breakers b acc) -> grows acc (with_breakers b acc).
Proof. intros H. split_and!; [set_solver..|exact H]. Qed.

Lemma consider_agent_grows acc a : grows acc (one_agent acc a).
Proof.
  destruct (consider_agent_cases acc a) as [(b&reason&->&Ho&_)|(_&_&b&Ho&_&->)].
  - split_and!; simpl; [set_solver..|exact Ho].
  - etrans; [by apply (grows_with_breakers b)|].
    destruct (a_models a); [apply outcome_grows|apply (models_grow a)].
Qed.

Lemma consider_agent_accounts acc a m :
  is_target (rq_snapshot request) a m -> accounted a m (one_agent acc a).
Proof.
  intros [_ Ht]. destruct (consider_agent_cases acc a) as [(b&reason&->&_)|(_&_&b&_&_&->)].
  { right. eexists. simpl. split; [apply elem_of_app; right; by left|]. simpl. eauto. }
  destruct m as [md|].
  - assert (accounted a (Some md) (fold_left (one_target a) (a_models a) (with_breakers b acc))) as H.
    { apply (fold_left_reach (one_target a) (fun _ => True) _ _ _ md); [done|done|done| |].
      - intros acc' _. apply outcome_grows.
      - intros acc' y _. apply accounted_grows, outcome_grows. }
    destruct (a_models a); [set_solver|exact H].
  - rewrite Ht. apply outcome_grows.
Qed.

Lemma consider_agent_sound acc a :
  a ∈ rq_snapshot request -> sound acc -> sound (one_agent acc a).
Proof.
  intros Hin Hs. destruct (consider_agent_cases acc a) as [(b&reason&->&Ho&_)|(Ha&Hl&b&Ho&Hk&->)].
  { unfold sound. simpl. eapply Forall_impl; [|exact Hs]. intros c. by apply (sound_grows acc). }
  assert (sound (with_breakers b acc)) as Hs1.
  { unfold sound. simpl. eapply Forall_impl; [|exact Hs]. intros c. by apply (sound_grows acc). }
  destruct (a_models a) as [|m0 ms] eqn:Em.
  - by apply consider_target_sound.
  - apply (fold_left_inv _ (fun acc => sound acc /\ openless (registry_of acc) (KAgent (a_id a)))); [|done].
    intros acc' md Hmd [Hs' Hk']. split.
    + apply consider_target_sound; [|done..]. split; [done|by rewrite Em].
    + by apply outcome_grows.
Qed.

(** ** The whole snapshot *)

Abbreviation everyone := (consider_all clock config history request).

Lemma consider_all_sound b : sound (everyone b).
Proof. unfold consider_all. apply fold_left_inv; [|by constructor]. intros. by apply consider_agent_sound. Qed.

Lemma consider_all_accounts b a m :
  is_target (rq_snapshot request) a m -> accounted a m (everyone b).
Proof.
  intros Ht. pose proof Ht as [Hin _]. unfold consider_all.
  apply (fold_left_reach _ (fun _ => True) _ _ _ a); [done|done|done| |].
  - intros acc _. by apply consider_agent_accounts.
  - intros acc y _. apply accounted_grows, consider_agent_grows.
Qed.

Definition all_openless (r : CircuitBreakerRegistry) : Prop := forall k, openless r k.

Lemma target_completes a m acc :
  eligible a m -> all_openless (registry_of acc) ->
  score_target config history a m request ∈
    acc_candidates (consider_target clock config history a m request acc).
Proof.
  intros [_ _ _ Hm Ht] Ho. destruct (consider_target_spec a m acc) as [_ [(_&_&Hc&_)|(_&_&Hr)]].
  - rewrite Hc. set_solver.
  - destruct (Hr Ht Hm). by apply Forall_forall.
Qed.

Lemma consider_agent_completes acc a m :
  eligible a m -> all_openless (registry_of acc) ->
  score_target config history a m request ∈ acc_candidates (one_agent acc a).
Proof.
  intros He Ho. pose proof He as [[_ Ht] Ha Hl _ _].
  destruct (consider_agent_cases acc a) as [(b&reason&_&_&Hn)|(_&_&b&Hopen&_&->)].
  { by destruct (Hn Ha Hl (Ho _)). }
  assert (all_openless (registry_of (with_breakers b acc))) as Ho1 by (intros k; by apply Hopen).
  destruct m as [md|]; [|rewrite Ht; by apply target_completes].
  assert (score_target config history a (Some md) request ∈
    acc_candidates (fold_left (one_target a) (a_models a) (with_breakers b acc))) as H.
  { apply (fold_left_reach (one_target a) (fun acc => all_openless (registry_of acc))
      (fun acc => score_target config history a (Some md) request ∈ acc_candidates acc) _ _ md); [done|done| | |].
    - intros acc' y _ Ho' k. by apply outcome_grows.
    - intros acc' Ho'. by apply target_completes.
    - intros acc' y _ Hin. by apply outcome_grows. }
  destruct (a_models a); [set_solver|exact H].
Qed.

Lemma consider_all_completes b a m :
  all_openless (br_registry b) -> eligible a m ->
  score_target config history a m request ∈ acc_candidates (everyone b).
Proof.
  intros Ho He. pose proof He as [[Hin _] _ _ _ _]. unfold consider_all.
  apply (fold_left_reach _ (fun acc => all_openless (registry_of acc))
    (fun acc => score_target config history a m request ∈ acc_candidates acc) _ _ a); [done|done| | |].
  - intros acc y _ Ho' k. by apply consider_agent_grows.
  - intros acc Ho'. by apply consider_agent_completes.
  - intros acc y _ H. by apply consider_agent_grows.
Qed.

(** ** Totals are numbers *)

Definition total (c : Candidate) : f64 := sb_total (c_breakdown c).

(** Everything a score is computed from is sensible. *)
Record scores_ok : Prop := {
  so_target : forall a m, is_target (rq_snapshot request) a m -> sensible a m (rq_task request);
  so_history : forall a m ty s, history_stats a m ty history = Some s -> stats_ok s;
  so_weight : f64_is_nan (adaptive_weight config) = false /\ canonical (adaptive_weight config);
  so_samples : is_u32 (adaptive_min_samples config);
  so_weights : let w := router_weights config in
    Forall f64_fin_nonneg [w_quality w; w_cost w; w_latency w; w_reliability w; w_context w];
}.

Lemma target_total_number a m :
  scores_ok -> is_target (rq_snapshot request) a m ->
  f64_is_nan (total (score_target config history a m request)) = false.
Proof.
  intros [S H1 [H2 H3] H4 H5] Ht. specialize (S a m Ht). cbv zeta in H5.
  unfold score_target, score_all.
  pose proof (quality_score a m _ S) as S1. pose proof (cost_score a m _ S) as S2.
  pose proof (latency_score a m _ S) as S3. pose proof (reliability_score a m _ S) as S4.
  pose proof (context_score a m _ S) as S5.
  destruct (score_cost a m) as [c ck], (score_latency a m) as [l lk],
    (score_reliability a m) as [r rk], (score_context m _) as [x xk]. cbn [fst] in *.
  cbn [d_quality d_cost d_latency d_reliability d_context].
  destruct (blend history r (a_id a) (m_id <$> m) _ (adaptive_weight config) _) as [r' adapted] eqn:Eb.
  apply blend_score_kept in Eb; [|done|done|done|done|by intros; eapply H1].
  unfold total. cbn [c_breakdown sb_total].
  rewrite !Forall_cons_iff in H5. destruct H5 as (W1&W2&W3&W4&W5&_).
  apply f64_nonneg_not_nan.
  repeat apply f64_add_nonneg; apply f64_mul_nonneg; try assumption; by apply score_fin_nonneg.
Qed.

(** Sorting puts the best totals first. *)
Lemma ranked_before_leb a b :
  f64_is_nan (total a) = false -> f64_is_nan (total b) = false ->
  ranked_before a b = f64_leb (total b) (total a).
Proof.
  intros Ha Hb. unfold ranked_before. change (sb_total (c_breakdown a)) with (total a).
  change (sb_total (c_breakdown b)) with (total b). unfold f64_leb, SFleb.
  rewrite f64_cmp_key by done. change (SFcompare (total b) (total a)) with (f64_cmp (total b) (total a)).
  rewrite f64_cmp_key by done. by destruct (lex3 _ _).
Qed.

Lemma ranked_sorted l :
  Forall (fun c => f64_is_nan (total c) = false) l ->
  StronglySorted (fun a b => f64_leb (total b) (total a) = true) (stable_sort ranked_before l).
Proof.
  intros Hl.
  assert (StronglySorted (fun a b => ranked_before a b = true) (stable_sort ranked_before l)) as Hs.
  { apply (stable_sort_sorted _ (fun c => f64_is_nan (total c) = false)); [| |done].
    - intros a b Ha Hb. rewrite !ranked_before_leb by done. by apply f64_leb_total.
    - intros a b c Ha Hb Hc. rewrite !ranked_before_leb by done. intros. by eapply f64_leb_trans. }
  assert (Forall (fun c => f64_is_nan (total c) = false) (stable_sort ranked_before l)) as Hn
    by (by rewrite stable_sort_perm).
  induction Hs as [|c l' Hs IH Hc]; constructor; inversion Hn as [|? ? Hn1 Hn2]; subst; [by apply IH|].
  rewrite Forall_forall in Hc, Hn2 |- *. intros x Hx. rewrite <- ranked_before_leb; auto.
Qed.
End RouteFacts.

(** Whatever is selected or ranked is a sound candidate. *)
Lemma route_sound clock config history request b b' d :
  route clock config history request b = (b', Ok d) ->
  Forall (sound_candidate config history request (br_registry b')) (selected d :: alternatives d).
Proof.
  unfold route. pose proof (consider_all_sound clock config history request b) as Hs.
  unfold sound, registry_of in Hs.
  destruct (stable_sort ranked_before _) as [|best others] eqn:Es; [done|]. intros [= <- <-].
  assert (Forall (sound_candidate config history request (br_registry (acc_breakers
    (consider_all clock config history request b)))) (best :: others)) as Hall
    by (rewrite <- Es; by rewrite stable_sort_perm).
  inversion Hall as [|? ? Hb Ho]; subst. constructor; [done|]. by apply Forall_take.
Qed.

(** ** Properties *)

(** C1: a routed task never violates a hard constraint.  The selected candidate
    and every alternative come from an agent of the snapshot that is enabled,
    routable, not excluded and the pinned one if an agent is pinned, with one
    of its own models (available, not excluded, the pinned one) or, if it lists
    none, without a model; not a remote agent under a local strategy; not a
    target the request excludes; with every required capability; within the
    remaining budget; and with breakers that are not open once routing is
    done. *)
Theorem route_safe clock config history request b b' d :
  route clock config history request b = (b', Ok d) ->
  Forall (sound_candidate config history request (br_registry b')) (selected d :: alternatives d).
Proof. apply route_sound. Qed.

(** Routing accounts for every target.  Whatever the breakers say, a target
    of the snapshot is selected or ranked, or dropped behind five alternatives,
    or rejected with a recorded reason under its name; and when routing fails,
    the error carries all those reasons. *)
Theorem route_accounts clock config history request b a m :
  is_target (rq_snapshot request) a m ->
  let c := score_target config history a m request in
  let named rs := exists rj, rj ∈ rs /\ rj_agent_id rj = a_id a /\
    (rj_model_id rj = None \/ rj_model_id rj = m_id <$> m) in
  match (route clock config history request b).2 with
  | Ok d => c ∈ selected d :: alternatives d \/ length (alternatives d) = MAX_ALTERNATIVES \/
            named (rejected d)
  | Err e => exists rs, e = routing_error (t_id (rq_task request)) rs /\ named rs
  end.
Proof.
  intros Ht. pose proof (consider_all_accounts clock config history request b a m Ht) as Ha.
  unfold route. cbv zeta. unfold accounted in Ha.
  destruct (stable_sort ranked_before _) as [|best others] eqn:Es; simpl.
  - eexists. split; [done|]. destruct Ha as [Hin|?]; [|done].
    rewrite <- (elem_of_stable_sort ranked_before), Es in Hin. set_solver.
  - destruct Ha as [Hin|?]; [|by right; right].
    rewrite <- (elem_of_stable_sort ranked_before), Es in Hin.
    destruct (Nat.le_gt_cases (length others) MAX_ALTERNATIVES).
    + left. by rewrite take_ge.
    + right. left. rewrite length_take. lia.
Qed.

(** With no breaker open, routing succeeds exactly when some target of the
    snapshot satisfies the constraints; it fails for no other reason. *)
Theorem route_succeeds_iff clock config history request b :
  all_openless (br_registry b) ->
  is_ok (route clock config history request b).2 = true <->
  exists a m, eligible config request a m.
Proof.
  intros Ho. unfold route. split.
  - pose proof (consider_all_sound clock config history request b) as Hs.
    destruct (stable_sort ranked_before _) as [|best others] eqn:Es; [done|]. intros _.
    unfold sound in Hs. rewrite <- (stable_sort_perm ranked_before), Es in Hs.
    inversion Hs as [|? ? (a&m&He&_) _]. by exists a, m.
  - intros (a&m&He).
    pose proof (consider_all_completes clock config history request b a m Ho He) as Hin.
    rewrite <- (elem_of_stable_sort ranked_before) in Hin.
    destruct (stable_sort ranked_before _); [set_solver|done].
Qed.

(** The best candidate wins.  When the agents, the history and the weights
    are sensible, no total is a NaN, the decision lists the selected candidate
    and at most five alternatives by decreasing total, and nothing routing
    considered beats the selected one; with no breaker open that is every
    eligible target. *)
Theorem route_best clock config history request b b' d :
  scores_ok config history request -> route clock config history request b = (b', Ok d) ->
  StronglySorted (fun x y => f64_leb (total y) (total x) = true) (selected d :: alternatives d) /\
  (length (alternatives d) <= MAX_ALTERNATIVES)%nat /\
  (forall c, c ∈ acc_candidates (consider_all clock config history request b) ->
     f64_leb (total c) (total (selected d)) = true) /\
  (all_openless (br_registry b) -> forall a m, eligible config request a m ->
     f64_leb (total (score_target config history a m request)) (total (selected d)) = true).
Proof.
  intros Hok. unfold route.
  pose proof (consider_all_sound clock config history request b) as Hs. unfold sound in Hs.
  pose proof (consider_all_completes clock config history request b) as Hc.
  set (l := acc_candidates _) in *.
  assert (Forall (fun c => f64_is_nan (total c) = false) l) as Hn.
  { eapply Forall_impl; [|exact Hs]. intros c (a&m&He&->&_). apply target_total_number; [done|apply He]. }
  pose proof (ranked_sorted l Hn) as Hsort.
  destruct (stable_sort ranked_before l) as [|best others] eqn:Es; [done|]. intros [= _ <-]. simpl.
  assert (forall c, c ∈ l -> f64_leb (total c) (total best) = true) as Hmax.
  { intros c Hin. rewrite <- (elem_of_stable_sort ranked_before), Es in Hin.
    apply elem_of_cons in Hin as [->|Hin].
    - apply f64_leb_refl. rewrite <- (stable_sort_perm ranked_before), Es in Hn. by inversion Hn.
    - inversion Hsort as [|? ? _ Hall]; subst. rewrite Forall_forall in Hall. by apply Hall, list_elem_of_In. }
  split_and!; [|rewrite length_take; lia|done|].
  - inversion Hsort as [|? ? Hss Hall]; subst. constructor; [|by apply Forall_take].
    by apply sorted_take.
  - intros Ho a m He. by apply Hmax, Hc.
Qed.

(** ** Witnesses: one agent, no model, the default configuration *)

Definition sample_agent : AgentDescriptor :=
  with_capabilities (baseline_capabilities Inspection) (agent_new "a" "A" Acp).
Definition sample_request : RouteRequest := request_new sample_task [sample_agent].
Definition sample_breakers : Breakers :=
  {| br_registry := registry_new breaker_config_default; br_ticks := 0 |}.
Definition sample_clock (n : nat) : Z := Z.of_nat n.

Definition sample_decision : Breakers * Result RoutingDecision :=
  route sample_clock router_default [] sample_request sample_breakers.

(** Concluding about the decision a route makes when it makes one. *)
Definition on_ok (r : Breakers * Result RoutingDecision) (P : Breakers -> RoutingDecision -> Prop) : Prop :=
  match r.2 with Ok d => P r.1 d | Err _ => False end.

Lemma sample_targets a m : is_target (rq_snapshot sample_request) a m -> a = sample_agent /\ m = None.
Proof.
  intros [Ha Hm]. apply list_elem_of_singleton in Ha as ->. split; [done|].
  destruct m; [|done]. simpl in Hm. set_solver.
Qed.

Lemma sample_eligible : eligible router_default sample_request sample_agent None.
Proof.
  split; [by split; [apply list_elem_of_singleton|]| |done|done|].
  - by apply agent_gate_spec.
  - split; [|intros c Hc|intros budget Hb; discriminate Hb].
    + intros e He. by apply not_elem_of_nil in He.
    + exact Hc.
Qed.

Lemma sample_openless : all_openless (br_registry sample_breakers).
Proof. intros k b Hb. discriminate Hb. Qed.

Lemma sample_scores_ok : scores_ok router_default [] sample_request.
Proof.
  split.
  - intros a m [-> ->]%sample_targets. destruct sample_sensible. by split.
  - intros a m ty s Hs. discriminate Hs.
  - done.
  - unfold is_u32, U32_MAX. simpl. lia.
  - vm_compute. repeat constructor.
Qed.

Lemma route_safe_witness :
  on_ok sample_decision (fun b d =>
    Forall (sound_candidate router_default [] sample_request (br_registry b)) (selected d :: alternatives d)).
Proof.
  pose proof (route_safe sample_clock router_default [] sample_request sample_breakers) as H.
  unfold on_ok. change (route sample_clock router_default [] sample_request sample_breakers)
    with sample_decision in H.
  destruct sample_decision as [b [d|e]] eqn:E; [by apply H|].
  vm_compute in E. discriminate E.
Defined.

Lemma route_accounts_witness :
  on_ok sample_decision (fun _ d =>
    let c := score_target router_default [] sample_agent None sample_request in
    c ∈ selected d :: alternatives d \/ length (alternatives d) = MAX_ALTERNATIVES \/
    exists rj, rj ∈ rejected d /\ rj_agent_id rj = "a" /\
      (rj_model_id rj = None \/ rj_model_id rj = None)).
Proof.
  pose proof (route_accounts sample_clock router_default [] sample_request sample_breakers
    sample_agent None (el_target _ _ _ _ sample_eligible)) as H.
  unfold on_ok. change (route sample_clock router_default [] sample_request sample_breakers)
    with sample_decision in H.
  destruct sample_decision as [b [d|e]] eqn:E; [exact H|].
  vm_compute in E. discriminate E.
Defined.

Lemma route_succeeds_iff_witness : is_ok sample_decision.2 = true.
Proof.
  apply (route_succeeds_iff sample_clock router_default [] sample_request sample_breakers sample_openless).
  exists sample_agent, None. exact sample_eligible.
Defined.

Lemma route_best_witness :
  on_ok sample_decision (fun _ d =>
    f64_leb (total (score_target router_default [] sample_agent None sample_request)) (total (selected d)) = true).
Proof.
  pose proof (route_best sample_clock router_default [] sample_request sample_breakers) as H.
  unfold on_ok. change (route sample_clock router_default [] sample_request sample_breakers)
    with sample_decision in H.
  destruct sample_decision as [b [d|e]] eqn:E.
  - destruct (H b d sample_scores_ok eq_refl) as (_&_&_&Hb).
    exact (Hb sample_openless sample_agent None sample_eligible).
  - vm_compute in E. discriminate E.
Defined.
