(* ===== verification/Path.v ===== *)
(** * Paths

    The parts of [std::path] the workspace uses, on Unix: a [PathBuf] is its
    text, and comparison, ordering and prefixes go through its components, so
    ["src/"], ["src"] and ["src//."] are the same path. *)

From S2P Require Export BTree.
Open Scope string_scope.
Open Scope Z_scope.

Definition PathBuf : Type := string.

Inductive Component : Type :=
  | RootDir
  | CurDir
  | ParentDir
  | Normal (name : string).

#[export] Instance Component_eq_dec : EqDecision Component.
Proof. solve_decision. Defined.

(** [derive(Ord)]: declaration order, then the name. *)
Definition component_rank (c : Component) : Z * string :=
  match c with
  | RootDir => (1, "") | CurDir => (2, "") | ParentDir => (3, "") | Normal name => (4, name)
  end.

Lemma component_rank_inj a b : component_rank a = component_rank b -> a = b.
Proof. destruct a, b; simpl; congruence. Qed.

#[export] Instance Component_OrdKey : OrdKey Component :=
  OrdKey_inj component_rank component_rank_inj.

Definition SLASH : ascii := of_byte 47.

(** A piece between separators: empty pieces and [.] are dropped. *)
Definition piece_component (p : string) : list Component :=
  if bool_decide (p = "") || bool_decide (p = ".") then []
  else if bool_decide (p = "..") then [ParentDir]
  else [Normal p].

(** [Path::components]: a leading separator is the root, a leading [.] is kept. *)
Definition components (path : PathBuf) : list Component :=
  let pieces := split_char SLASH path in
  let start :=
    if starts_with path "/" then [RootDir]
    else match pieces with
         | p :: _ => if bool_decide (p = ".") then [CurDir] else []
         | [] => []
         end in
  (start ++ concat (map piece_component pieces))%list.

(** [PartialEq] on paths. *)
Definition path_eqb (a b : PathBuf) : bool := bool_decide (components a = components b).

Fixpoint prefix_of (a b : list Component) : bool :=
  match a, b with
  | [], _ => true
  | x :: a', y :: b' => bool_decide (x = y) && prefix_of a' b'
  | _, [] => false
  end.

(** [Path::starts_with], [Path::ends_with] and [Path::file_name]. *)
Definition path_starts_with (path base : PathBuf) : bool := prefix_of (components base) (components path).

Definition path_ends_with (path child : PathBuf) : bool :=
  prefix_of (rev (components child)) (rev (components path)).

Definition file_name (path : PathBuf) : option string :=
  match rev (components path) with Normal name :: _ => Some name | _ => None end.

(** [Vec<PathBuf>::contains]. *)
Definition paths_contain (l : list PathBuf) (p : PathBuf) : bool := existsb (fun q => path_eqb q p) l.

(** Appending a path unless an equal one is there. *)
Definition add_path (l : list PathBuf) (p : PathBuf) : list PathBuf :=
  if paths_contain l p then l else (l ++ [p])%list.

(** A file name: UTF-8, neither empty nor with a separator or a NUL. *)
Definition plain_name (n : string) : Prop :=
  utf8_valid n = true /\ n <> "" /\ (47 ∉ bytes n) /\ (0 ∉ bytes n).

(** ** Lemmas *)

Lemma prefix_of_spec a b : prefix_of a b = true <-> exists c, b = (a ++ c)%list.
Proof.
  revert b. induction a as [|x a IH]; intros b; simpl.
  - split; [by exists b|done].
  - destruct b as [|y b]; [split; [done|by intros [c Hc]]|].
    rewrite andb_true_iff, bool_decide_eq_true, IH. split.
    + intros [-> [c ->]]. by exists c.
    + intros [c Hc]. simplify_eq/=. eauto.
Qed.

Lemma prefix_of_refl a : prefix_of a a = true.
Proof. apply prefix_of_spec. exists []. by rewrite app_nil_r. Qed.

Lemma paths_contain_spec l p :
  paths_contain l p = true <-> exists q, q ∈ l /\ components q = components p.
Proof.
  unfold paths_contain, path_eqb. rewrite existsb_exists. split.
  - intros (q&Hq&He). exists q. rewrite list_elem_of_In. by destruct_bools.
  - intros (q&Hq&He). exists q. rewrite <- list_elem_of_In. by rewrite bool_decide_eq_true.
Qed.

(** Adding keeps what is there and makes an equal path present. *)
Lemma add_path_incl l p : l ⊆ add_path l p.
Proof. unfold add_path. case_match; set_solver. Qed.

Lemma add_path_present l p : exists q, q ∈ add_path l p /\ components q = components p.
Proof.
  unfold add_path. destruct (paths_contain l p) eqn:E; [by apply paths_contain_spec|].
  exists p. set_solver.
Qed.

Lemma elem_of_add_path l p q : q ∈ add_path l p -> q ∈ l \/ q = p.
Proof. unfold add_path. case_match; set_solver. Qed.

(** No two paths of the list are equal. *)
Definition distinct_paths (l : list PathBuf) : Prop := NoDup (map components l).

Lemma add_path_distinct l p : distinct_paths l -> distinct_paths (add_path l p).
Proof.
  unfold distinct_paths, add_path. destruct (paths_contain l p) eqn:E; [done|]. intros Hn.
  rewrite map_app. apply NoDup_app. split_and!; [done| |repeat constructor; set_solver].
  intros x Hx ->%list_elem_of_singleton. apply not_true_iff_false in E. apply E.
  apply list_elem_of_fmap in Hx as (q&Hc&Hq). apply paths_contain_spec. by exists q.
Qed.

Example components_ex :
  components "./src//a.rs/" = [CurDir; Normal "src"; Normal "a.rs"] /\
  components "/etc/../x" = [RootDir; Normal "etc"; ParentDir; Normal "x"] /\
  components "" = [] /\ components "." = [CurDir] /\ components "/" = [RootDir].
Proof. by vm_compute. Qed.

Lemma split_str_join l :
  l <> [] -> Forall (fun n => 47 ∉ bytes n) l -> split_char SLASH (str_join "/" l) = l.
Proof.
  intros Hne H. induction H as [|n l Hn H IH]; [done|]. destruct l as [|n' l].
  - by apply split_char_plain.
  - change (str_join "/" (n :: n' :: l)) with (n +:+ String SLASH (str_join "/" (n' :: l))).
    rewrite split_char_app by done. by rewrite IH.
Qed.
