(* ===== verification/Index.v ===== *)
(** * The workspace index ([cuma-workspace/src/index.rs])

    The files of a workspace by relative path and by file name.  Listing them
    ([git ls-files] or a directory walk) is input and output; the index is
    built from the list. *)

From S2P Require Export Path.
Open Scope string_scope.
Open Scope Z_scope.

Definition MAX_FILES : nat := Z.to_nat 200000.

Record WorkspaceIndex := {
  ix_files : list PathBuf;
  ix_by_name : btree string (list nat);
  ix_truncated : bool;
}.

(** One file of the loop over [files.iter().enumerate()]. *)
Definition index_file (m : btree string (list nat)) (e : nat * PathBuf) : btree string (list nat) :=
  match file_name e.2 with
  | Some name => bt_upsert [] (fun l => l ++ [e.1])%list name m
  | None => m
  end.

Fixpoint enumerate {A} (n : nat) (l : list A) : list (nat * A) :=
  match l with [] => [] | x :: l' => (n, x) :: enumerate (S n) l' end.

(** [WorkspaceIndex::from_files], with the bound as an argument. *)
Definition from_files_bounded (max : nat) (files : list PathBuf) : WorkspaceIndex :=
  let kept := take max files in
  {| ix_files := kept; ix_by_name := fold_left index_file (enumerate 0 kept) [];
     ix_truncated := Nat.ltb max (length files) |}.

Definition from_files (files : list PathBuf) : WorkspaceIndex := from_files_bounded MAX_FILES files.

Definition index_len (ix : WorkspaceIndex) : nat := length (ix_files ix).

(** [WorkspaceIndex::contains]. *)
Definition index_contains (ix : WorkspaceIndex) (path : PathBuf) : bool :=
  existsb (fun f => path_eqb f path || path_starts_with f path) (ix_files ix).

(** [WorkspaceIndex::named]; an index out of bounds would panic, and no index
    built from files has one ([named_exact]). *)
Definition named (ix : WorkspaceIndex) (name : string) : list PathBuf :=
  match bt_get name (ix_by_name ix) with
  | Some positions => omap (fun i => ix_files ix !! i) positions
  | None => []
  end.

(** [WorkspaceIndex::ending_with]. *)
Definition ending_with (ix : WorkspaceIndex) (suffix : PathBuf) : list PathBuf :=
  List.filter (fun f => path_ends_with f suffix) (ix_files ix).

(** ** Lemmas *)

Definition has_name (name : string) (f : PathBuf) : bool := bool_decide (file_name f = Some name).

(** What the map holds for a name: the positions of the files of that name. *)
Lemma index_positions name l n m :
  bt_get name (fold_left index_file (enumerate n l) m) =
  let found := map fst (List.filter (fun e => has_name name e.2) (enumerate n l)) in
  match bt_get name m, found with
  | None, [] => None
  | o, _ => Some (default [] o ++ found)%list
  end.
Proof.
  cbv zeta. revert n m. induction l as [|f l IH]; intros n m; simpl.
  { destruct (bt_get name m); simpl; [by rewrite app_nil_r|done]. }
  rewrite IH. unfold index_file, has_name. simpl. destruct (file_name f) as [name'|] eqn:E; [|done].
  rewrite bt_get_upsert. destruct (decide (name = name')) as [->|Hne].
  - rewrite !bool_decide_eq_true_2 by done. simpl.
    by destruct (bt_get name' m) as [l0|]; simpl; rewrite <- ?app_assoc.
  - rewrite !bool_decide_eq_false_2 by congruence. done.
Qed.

Lemma enumerate_lookup {A} (l : list A) n e :
  e ∈ enumerate n l -> (n <= e.1)%nat /\ l !! (e.1 - n)%nat = Some e.2.
Proof.
  revert n. induction l as [|x l IH]; intros n; simpl; [set_solver|].
  intros [->|He]%elem_of_cons; simpl; [by rewrite Nat.sub_diag|].
  destruct (IH (S n) He) as [Hle Hl]. split; [lia|].
  by replace (e.1 - n)%nat with (S (e.1 - S n))%nat by lia.
Qed.

Lemma omap_positions {A} (l : list (nat * A)) (files : list A) (p : nat * A -> bool) :
  (forall e, e ∈ l -> files !! e.1 = Some e.2) ->
  omap (fun i => files !! i) (map fst (List.filter p l)) = map snd (List.filter p l).
Proof.
  induction l as [|e l IH]; intros Hl; simpl; [done|].
  destruct (p e); simpl; [|apply IH; set_solver].
  rewrite (Hl e) by set_solver. simpl. f_equal. apply IH. set_solver.
Qed.

Lemma map_snd_filter_enumerate {A} (p : A -> bool) n (l : list A) :
  map snd (List.filter (fun e => p e.2) (enumerate n l)) = List.filter p l.
Proof. revert n. induction l as [|x l IH]; intros n; simpl; [done|]. case_match; simpl; by rewrite IH. Qed.

(** Looking a name up finds exactly the indexed files of that name, in order. *)
Lemma named_exact files max name :
  named (from_files_bounded max files) name =
  List.filter (has_name name) (ix_files (from_files_bounded max files)).
Proof.
  unfold named. cbn [ix_by_name from_files_bounded ix_files]. rewrite index_positions. simpl.
  set (l := take max files).
  rewrite <- (map_snd_filter_enumerate (has_name name) 0 l).
  rewrite <- (omap_positions (enumerate 0 l) l (fun e => has_name name e.2)).
  - by destruct (map fst _).
  - intros e He. apply enumerate_lookup in He as [_ He]. by rewrite Nat.sub_0_r in He.
Qed.

Lemma index_contains_spec ix path :
  index_contains ix path = true <->
  exists f, f ∈ ix_files ix /\ prefix_of (components path) (components f) = true.
Proof.
  unfold index_contains. rewrite existsb_exists. split.
  - intros (f&Hf&Hb). exists f. rewrite list_elem_of_In. split; [done|].
    apply orb_true_iff in Hb as [Hb|Hb]; [|done]. unfold path_eqb in Hb. destruct_bools.
    rewrite Hb. apply prefix_of_refl.
  - intros (f&Hf&Hb). exists f. rewrite <- list_elem_of_In. split; [done|].
    unfold path_starts_with. rewrite Hb. apply orb_true_r.
Qed.

Lemma elem_of_ending_with ix suffix f :
  f ∈ ending_with ix suffix <-> f ∈ ix_files ix /\ path_ends_with f suffix = true.
Proof. unfold ending_with. by rewrite !list_elem_of_In, filter_In. Qed.
