(* ===== verification/Ownership.v ===== *)
(** * File ownership ([cuma-workspace/src/ownership.rs])

    The ledger of claimed path prefixes and the prediction of what a task will
    write.  A ledger is shared; each operation takes its lock, so operations are
    steps on its contents, and [None] is a poisoned lock. *)

From S2P Require Export Index Capability.
Open Scope string_scope.
Open Scope Z_scope.

Record WriteConflict := {
  wc_path : PathBuf;
  held_by_task : TaskId;
  requested_by : TaskId;
}.

(** [Display for WriteConflict]. *)
Definition conflict_display (c : WriteConflict) : string :=
  wc_path c +:+ " is already claimed by task " +:+ held_by_task c.

(** A [BTreeMap<PathBuf, TaskId>]: keys compare by components, and the first
    spelling of a key is kept. *)
Definition Claims : Type := btree (list Component) (PathBuf * TaskId).
Definition OwnershipLedger : Type := Mutex Claims.

Definition ledger_new : OwnershipLedger := Some [].

Definition BACKSLASH : Z := 92.

(** [OwnershipLedger::normalize]. *)
Definition normalize (path : PathBuf) : PathBuf :=
  let text := trim path in
  let text := trim_start_str (String.length text) "./" text in
  let text := trim_end_matches (fun c => c =? 47) text in
  let text := trim_end_matches (fun c => c =? BACKSLASH) text in
  if bool_decide (text = "") then "." else text.

(** [OwnershipLedger::overlaps]. *)
Definition overlaps (candidate held : PathBuf) : bool :=
  if path_eqb candidate "." || path_eqb held "." then true
  else path_eqb candidate held || path_starts_with candidate held || path_starts_with held candidate.

(** The first conflict of a claim, in the order of the two nested loops. *)
Definition conflict_with (task : TaskId) (claims : Claims) (candidate : PathBuf) : option WriteConflict :=
  match List.find (fun e => negb (bool_decide (e.2.2 = task)) && overlaps candidate e.2.1) claims with
  | Some e => Some {| wc_path := candidate; held_by_task := e.2.2; requested_by := task |}
  | None => None
  end.

Definition first_conflict (task : TaskId) (claims : Claims) (paths : list PathBuf) : option WriteConflict :=
  head (omap (conflict_with task claims) paths).

(** [BTreeMap::insert]: an existing key is kept, its value is replaced. *)
Definition insert_claim (task : TaskId) (claims : Claims) (path : PathBuf) : Claims :=
  let key := components path in
  bt_insert key (match bt_get key claims with Some (kept, _) => kept | None => path end, task) claims.

(** [OwnershipLedger::claim]. *)
Definition claim (task : TaskId) (paths : list PathBuf) (ledger : OwnershipLedger)
  : OwnershipLedger * result unit WriteConflict :=
  match ledger with
  | None => (None, Err {| wc_path := match paths with p :: _ => p | [] => "" end;
                          held_by_task := "unknown"; requested_by := task |})
  | Some claims =>
      let normalized := map normalize paths in
      match first_conflict task claims normalized with
      | Some c => (ledger, Err c)
      | None => (Some (fold_left (insert_claim task) normalized claims), Ok tt)
      end
  end.

(** [OwnershipLedger::would_conflict]. *)
Definition would_conflict (task : TaskId) (paths : list PathBuf) (ledger : OwnershipLedger)
  : option WriteConflict :=
  match ledger with
  | None => None
  | Some claims => first_conflict task claims (map normalize paths)
  end.

(** [OwnershipLedger::release]. *)
Definition release (task : TaskId) (ledger : OwnershipLedger) : OwnershipLedger :=
  match ledger with
  | Some claims => Some (bt_retain (fun _ v => negb (bool_decide (v.2 = task))) claims)
  | None => None
  end.

(** [OwnershipLedger::held_by]. *)
Definition held_by (task : TaskId) (ledger : OwnershipLedger) : list PathBuf :=
  match ledger with
  | Some claims => map (fun e => e.2.1) (List.filter (fun e => bool_decide (e.2.2 = task)) claims)
  | None => []
  end.

Definition ledger_len (ledger : OwnershipLedger) : nat :=
  match ledger with Some claims => length claims | None => 0 end.

Definition ledger_is_empty (ledger : OwnershipLedger) : bool := Nat.eqb (ledger_len ledger) 0.

(** ** Prediction *)

Section Prediction.
(** [char::is_alphanumeric] beyond ASCII. *)
Context (unicode_alphanumeric : Z -> bool).

Definition is_path_char (c : Z) : bool :=
  is_alphanumeric unicode_alphanumeric c || contains [47; 46; 95; 45] c.

(** [rsplit('.').next()]: what follows the last dot. *)
Definition after_last_dot (s : string) : string :=
  match rev (split_char (of_byte 46) s) with ext :: _ => ext | [] => s end.

Definition looks_like_a_path (cleaned : string) : bool :=
  str_contains cleaned "/" ||
  (let ext := after_last_dot cleaned in
   Nat.leb 1 (String.length ext) && Nat.leb (String.length ext) 5
   && forallb (is_alphanumeric unicode_alphanumeric) (chars ext)).

(** One token of [predicted_writes]. *)
Definition predict_token (paths : list PathBuf) (token : string) : list PathBuf :=
  let cleaned := trim_matches (fun c => negb (is_path_char c)) token in
  if Nat.ltb (String.length cleaned) 3
     || (negb (str_contains cleaned "/") && negb (str_contains cleaned ".")) then paths
  else if looks_like_a_path cleaned && negb (ends_with cleaned ".") then add_path paths cleaned
  else paths.

(** [predicted_writes]. *)
Definition predicted_writes (description : string) : list PathBuf :=
  match fold_left predict_token (split_whitespace description) [] with
  | [] => ["."]
  | paths => paths
  end.

(** What a named path resolves to; nothing means the path as written. *)
Definition resolve (index : option WorkspaceIndex) (path : PathBuf) : list PathBuf :=
  match index with
  | Some ix =>
      if index_contains ix path then []
      else if Nat.eqb (length (components path)) 1 then named ix path
      else ending_with ix path
  | None => []
  end.

Definition add_resolved (index : option WorkspaceIndex) (paths : list PathBuf) (path : PathBuf)
  : list PathBuf :=
  match resolve index path with
  | [] => add_path paths path
  | resolved => fold_left add_path resolved paths
  end.

Definition add_output (paths : list PathBuf) (output : string) : list PathBuf :=
  let output := trim output in
  if bool_decide (output = "") then paths else add_path paths output.

(** [named == [PathBuf::from(".")]]. *)
Definition is_whole_workspace (named : list PathBuf) : bool :=
  match named with [p] => path_eqb p "." | _ => false end.

(** [predict_writes]. *)
Definition predict_writes (description : string) (index : option WorkspaceIndex)
    (dependency_outputs : list string) : list PathBuf :=
  let named := predicted_writes description in
  if is_whole_workspace named then named
  else fold_left add_output dependency_outputs (fold_left (add_resolved index) named []).
End Prediction.

(** ** Exclusive, all-or-nothing, released in full; prediction covers

    what a description names *)

(** ** Overlap *)

Lemma overlaps_spec a b :
  overlaps a b = true <->
  components a = [CurDir] \/ components b = [CurDir] \/
  prefix_of (components a) (components b) = true \/ prefix_of (components b) (components a) = true.
Proof.
  assert (components "." = [CurDir]) as Hdot by reflexivity.
  unfold overlaps, path_eqb, path_starts_with. rewrite Hdot.
  destruct (bool_decide (components a = [CurDir])) eqn:E1; destruct_bools; [naive_solver|].
  destruct (bool_decide (components b = [CurDir])) eqn:E2; destruct_bools; [naive_solver|].
  simpl. rewrite !orb_true_iff, bool_decide_eq_true. split; [|naive_solver].
  intros [[Heq|?]|?]; [|naive_solver..]. rewrite Heq. right; right; left. apply prefix_of_refl.
Qed.

Lemma overlaps_sym a b : overlaps a b = overlaps b a.
Proof. apply eq_true_iff_eq. rewrite !overlaps_spec. tauto. Qed.

Lemma overlaps_components a b a' b' :
  components a = components a' -> components b = components b' -> overlaps a b = overlaps a' b'.
Proof. intros Ha Hb. apply eq_true_iff_eq. by rewrite !overlaps_spec, Ha, Hb. Qed.

(** ** The ledger invariant *)

Definition holds (claims : Claims) (task : TaskId) (p : PathBuf) : Prop :=
  bt_get (components p) claims = Some (p, task).

(** Keys are the components of the stored spelling, and two tasks never hold
    overlapping paths. *)
Record claims_ok (claims : Claims) : Prop := {
  co_wf : bt_wf claims;
  co_keys : forall k p t, bt_get k claims = Some (p, t) -> components p = k;
  co_exclusive : forall t t' p p', holds claims t p -> holds claims t' p' -> t <> t' ->
    overlaps p p' = false;
}.

Lemma claims_ok_nil : claims_ok [].
Proof. split; [apply bt_wf_nil|done|done]. Qed.

Lemma claims_entry claims e :
  claims_ok claims -> e ∈ claims -> e.1 = components e.2.1 /\ holds claims e.2.2 e.2.1.
Proof.
  intros [Hw Hk _] He. destruct e as [k [p t]].
  assert (bt_get k claims = Some (p, t)) as Hg by (apply bt_elem_of_get; [by apply bt_wf_NoDup|done]).
  simpl. pose proof (Hk _ _ _ Hg) as Hc. subst k. done.
Qed.

Lemma elem_of_held_by claims task p :
  claims_ok claims -> p ∈ held_by task (Some claims) <-> holds claims task p.
Proof.
  intros Hok. unfold held_by. rewrite list_elem_of_In, in_map_iff. split.
  - intros (e&<-&[He Ht]%filter_In). apply bool_decide_eq_true in Ht as <-.
    apply list_elem_of_In in He. by apply claims_entry.
  - intros Hh. exists (components p, (p, task)). split; [done|]. apply filter_In. split.
    + apply list_elem_of_In. by apply bt_get_elem_of.
    + by apply bool_decide_eq_true.
Qed.

Lemma conflict_with_spec task claims p :
  claims_ok claims ->
  match conflict_with task claims p with
  | Some c => wc_path c = p /\ requested_by c = task /\ held_by_task c <> task /\
              exists q, holds claims (held_by_task c) q /\ overlaps p q = true
  | None => forall t q, holds claims t q -> t <> task -> overlaps p q = false
  end.
Proof.
  intros Hok. unfold conflict_with. destruct (List.find _ claims) as [e|] eqn:E.
  - apply find_some in E as [He Hb]. destruct_bools. apply list_elem_of_In in He.
    destruct (claims_entry _ _ Hok He) as [_ Hh]. simpl. split_and!; [done..|]. by exists e.2.1.
  - intros t q Hh Ht. pose proof (find_none _ _ E (components q, (q, t))) as Hn.
    apply bt_get_elem_of, list_elem_of_In in Hh. specialize (Hn Hh). simpl in Hn.
    by rewrite bool_decide_eq_false_2 in Hn.
Qed.

Lemma first_conflict_spec task claims l :
  claims_ok claims ->
  match first_conflict task claims l with
  | Some c => wc_path c ∈ l /\ requested_by c = task /\ held_by_task c <> task /\
              exists q, holds claims (held_by_task c) q /\ overlaps (wc_path c) q = true
  | None => forall p, p ∈ l -> forall t q, holds claims t q -> t <> task -> overlaps p q = false
  end.
Proof.
  intros Hok. unfold first_conflict. induction l as [|p l IH]; simpl; [set_solver|].
  pose proof (conflict_with_spec task claims p Hok) as Hp.
  destruct (conflict_with task claims p) as [c|]; simpl.
  - destruct Hp as (<-&?&?&?). split_and!; [by left|done..].
  - destruct (head _) as [c|]; [|intros p' [->|Hp']%elem_of_cons; [done|by apply IH]].
    destruct IH as (?&?&?&?). split_and!; [by right|done..].
Qed.

Lemma insert_claim_get task claims p k :
  claims_ok claims ->
  bt_get k (insert_claim task claims p) =
    if bool_decide (k = components p)
    then Some (match bt_get k claims with Some (kept, _) => kept | None => p end, task)
    else bt_get k claims.
Proof. intros _. unfold insert_claim. rewrite bt_get_insert. by case_bool_decide; subst. Qed.

(** Inserting a path no other task's claim overlaps. *)
Lemma insert_claim_ok task claims p :
  claims_ok claims ->
  (forall t q, holds claims t q -> t <> task -> overlaps p q = false) ->
  claims_ok (insert_claim task claims p) /\
  (exists q, holds (insert_claim task claims p) task q /\ components q = components p) /\
  (forall q, holds claims task q -> holds (insert_claim task claims p) task q) /\
  (forall t q, t <> task -> holds (insert_claim task claims p) t q <-> holds claims t q) /\
  (forall q, holds (insert_claim task claims p) task q ->
     holds claims task q \/ components q = components p).
Proof.
  intros Hok Hfree. pose proof Hok as [Hw Hk Hx].
  pose proof (fun k => insert_claim_get task claims p k Hok) as Hget.
  set (claims' := insert_claim task claims p) in *.
  assert (forall t q, bt_get (components p) claims = Some (q, t) -> t = task /\ components q = components p) as Hmine.
  { intros t q Hg. pose proof (Hk _ _ _ Hg) as Hc. split; [|done].
    destruct (decide (t = task)) as [|Hne]; [done|].
    assert (holds claims t q) as Hh by (unfold holds; by rewrite Hc).
    specialize (Hfree t q Hh Hne). apply not_true_iff_false in Hfree. destruct Hfree.
    apply overlaps_spec. rewrite Hc. right; right; left. apply prefix_of_refl. }
  assert (forall t q, t <> task -> holds claims' t q <-> holds claims t q) as Hother.
  { intros t q Ht. unfold holds. rewrite Hget. case_bool_decide as Hc; [|done]. rewrite Hc. split.
    - intros [= _ ?]. congruence.
    - intros Hg. destruct (Hmine _ _ Hg). congruence. }
  assert (forall q, holds claims' task q -> holds claims task q \/ components q = components p) as Hnew.
  { intros q. unfold holds. rewrite Hget. case_bool_decide; [by right|by left]. }
  split_and!; [split|..|done|done].
  - by apply bt_wf_insert.
  - intros k q t. rewrite Hget. case_bool_decide as Hc; [|apply Hk]. subst k.
    destruct (bt_get (components p) claims) as [[q' t']|] eqn:Eg; intros [= <- <-]; [|done].
    by apply (Hmine t' q').
  - assert (forall t q q', holds claims' task q -> holds claims' t q' -> t <> task ->
      overlaps q q' = false) as Hmix.
    { intros t q q' Hq Hq' Ht. apply Hother in Hq'; [|done].
      destruct (Hnew q Hq) as [Hh|Hc]; [by apply (Hx task t)|].
      rewrite (overlaps_components q q' p q') by done. by apply (Hfree t). }
    intros t t' q q' Hq Hq' Ht. destruct (decide (t = task)) as [->|Hn]; [by apply (Hmix t')|].
    destruct (decide (t' = task)) as [->|Hn']; [rewrite overlaps_sym; by apply (Hmix t)|].
    apply Hother in Hq, Hq'; [|done..]. by apply (Hx t t').
  - set (q := match bt_get (components p) claims with Some (kept, _) => kept | None => p end).
    exists q. assert (components q = components p) as Hc.
    { unfold q. destruct (bt_get _ _) as [[q' t']|] eqn:Eg; [by apply (Hmine t' q')|done]. }
    split; [|done]. unfold holds. rewrite Hget, bool_decide_eq_true_2 by done. by rewrite Hc.
  - intros q Hh. unfold holds in *. rewrite Hget. case_bool_decide; [|done]. by rewrite Hh.
Qed.

(** Inserting the normalized paths of a claim. *)
Lemma insert_claims_ok task l claims :
  claims_ok claims ->
  (forall p, p ∈ l -> forall t q, holds claims t q -> t <> task -> overlaps p q = false) ->
  let claims' := fold_left (insert_claim task) l claims in
  claims_ok claims' /\
  (forall p, p ∈ l -> exists q, holds claims' task q /\ components q = components p) /\
  (forall q, holds claims task q -> holds claims' task q) /\
  (forall t q, t <> task -> holds claims' t q <-> holds claims t q) /\
  (forall q, holds claims' task q ->
     holds claims task q \/ exists p, p ∈ l /\ components q = components p).
Proof.
  revert claims. induction l as [|p l IH]; intros claims Hok Hfree; simpl.
  { split_and!; [done|set_solver|done|done|auto]. }
  destruct (insert_claim_ok task claims p Hok) as (H1&(q0&Hq0&Hc0)&H3&H4&H5).
  { intros t q. apply Hfree. by left. }
  destruct (IH (insert_claim task claims p) H1) as (I1&I2&I3&I4&I5).
  { intros p' Hp' t q Hh Ht. apply H4 in Hh; [|done]. eapply Hfree; [by right|done..]. }
  split_and!; [done| |by eauto| |].
  - intros p' [->|Hp']%elem_of_cons; [exists q0; by eauto|by apply I2].
  - intros t q Ht. by rewrite I4, H4.
  - intros q [Hh|(p'&?&?)]%I5; [|right; exists p'; set_solver].
    destruct (H5 q Hh) as [?|?]; [by left|]. right. exists p. set_solver.
Qed.

Lemma release_holds task claims t q :
  bt_wf claims ->
  holds (bt_retain (fun _ v => negb (bool_decide (v.2 = task))) claims) t q <->
  holds claims t q /\ t <> task.
Proof.
  intros Hw. unfold holds. rewrite bt_get_retain_some by (by apply bt_wf_NoDup).
  simpl. by rewrite negb_true_iff, bool_decide_eq_false.
Qed.

Lemma release_ok task claims :
  claims_ok claims -> claims_ok (bt_retain (fun _ v => negb (bool_decide (v.2 = task))) claims).
Proof.
  intros [Hw Hk Hx]. split.
  - by apply bt_wf_retain.
  - intros k p t Hg. apply bt_get_retain_some in Hg as [Hg _]; [by eapply Hk|by apply bt_wf_NoDup].
  - intros t t' p p' [Hh _]%release_holds [Hh' _]%release_holds; [|done..]. by apply (Hx t t').
Qed.

(** ** Runs *)

(** A session's operations on a ledger. *)
Inductive ledger_step : OwnershipLedger -> OwnershipLedger -> Prop :=
  | step_claim task paths l : ledger_step l (claim task paths l).1
  | step_release task l : ledger_step l (release task l).

Inductive ledger_reachable : OwnershipLedger -> Prop :=
  | reachable_new : ledger_reachable ledger_new
  | reachable_step l l' : ledger_reachable l -> ledger_step l l' -> ledger_reachable l'.

Lemma reachable_claims_ok l claims : ledger_reachable l -> l = Some claims -> claims_ok claims.
Proof.
  intros Hr. revert claims. induction Hr as [|l l' _ IH Hs]; intros claims Hl.
  { injection Hl as <-. apply claims_ok_nil. }
  destruct Hs as [task paths l|task l]; destruct l as [c|]; try discriminate Hl.
  - specialize (IH c eq_refl). unfold claim in Hl.
    pose proof (first_conflict_spec task c (map normalize paths) IH) as Hf.
    destruct (first_conflict _ _ _); injection Hl as <-; [done|]. by apply insert_claims_ok.
  - injection Hl as <-. by apply release_ok, IH.
Qed.

(** ** Prediction *)

(** [q] is one of the predicted paths, up to spelling. *)
Definition claimed (l : list PathBuf) (p : PathBuf) : Prop :=
  exists q, q ∈ l /\ components q = components p.

Lemma claimed_incl l l' p : l ⊆ l' -> claimed l p -> claimed l' p.
Proof. intros Hs (q&?&?). exists q. set_solver. Qed.

Lemma fold_add_incl {A} (f : list PathBuf -> A -> list PathBuf) l acc :
  (forall acc x, acc ⊆ f acc x) -> acc ⊆ fold_left f l acc.
Proof.
  intros Hf. apply (fold_left_inv f (fun l => acc ⊆ l)); [|done].
  intros a x _ Ha. etrans; [exact Ha|apply Hf].
Qed.

Lemma fold_add_claims {A} (f : list PathBuf -> A -> list PathBuf) l acc x p :
  (forall acc x, acc ⊆ f acc x) -> (forall acc, claimed (f acc x) p) -> x ∈ l ->
  claimed (fold_left f l acc) p.
Proof.
  intros Hf Hx Hin.
  apply (fold_left_reach f (fun _ => True) (fun l => claimed l p) _ _ x); [done|done|done|auto|].
  intros a y _. apply claimed_incl, Hf.
Qed.

Lemma add_resolved_incl index acc p : acc ⊆ add_resolved index acc p.
Proof.
  unfold add_resolved. destruct (resolve index p); [apply add_path_incl|].
  apply fold_add_incl. intros. apply add_path_incl.
Qed.

Lemma add_output_incl acc o : acc ⊆ add_output acc o.
Proof. unfold add_output. case_bool_decide; [done|apply add_path_incl]. Qed.

Lemma add_resolved_claims index acc p :
  match resolve index p with
  | [] => claimed (add_resolved index acc p) p
  | resolved => forall f, f ∈ resolved -> claimed (add_resolved index acc p) f
  end.
Proof.
  unfold add_resolved. destruct (resolve index p) as [|r rs]; [apply add_path_present|].
  intros f Hf. apply (fold_add_claims add_path (r :: rs) acc f); [|intros; apply add_path_present|done].
  intros. apply add_path_incl.
Qed.

(** The indexed files a named path may stand for. *)
Definition refers (p f : PathBuf) : bool :=
  if Nat.eqb (length (components p)) 1 then has_name p f else path_ends_with f p.

Lemma resolve_spec files max p f :
  let ix := from_files_bounded max files in
  index_contains ix p = false ->
  f ∈ resolve (Some ix) p <-> f ∈ ix_files ix /\ refers p f = true.
Proof.
  cbv zeta. intros Hc. unfold resolve, refers. rewrite Hc.
  destruct (Nat.eqb (length (components p)) 1).
  - rewrite named_exact. by rewrite !list_elem_of_In, filter_In.
  - apply elem_of_ending_with.
Qed.

(** ** Properties *)

(** C21: whatever sequence of claims and releases a session performs, no two
    tasks ever hold overlapping paths: neither the same path, nor one inside
    the other's, nor anything beside a claim of the whole workspace. *)
Theorem ledger_exclusive l claims t t' p p' :
  ledger_reachable l -> l = Some claims -> t <> t' ->
  p ∈ held_by t l -> p' ∈ held_by t' l -> overlaps p p' = false.
Proof.
  intros Hr -> Ht Hp Hp'. pose proof (reachable_claims_ok _ _ Hr eq_refl) as Hok.
  rewrite elem_of_held_by in Hp, Hp' by done. by apply (co_exclusive _ Hok t t').
Qed.

(** A claim is all or nothing.  It is refused exactly when some other task
    holds a path overlapping one of the requested paths, naming such a holder
    and path and changing nothing; otherwise the task holds every requested
    path besides what it held, and the other tasks' holdings are untouched. *)
Theorem claim_exact task paths claims :
  claims_ok claims ->
  let '(l', r) := claim task paths (Some claims) in
  match r with
  | Err c => l' = Some claims /\ requested_by c = task /\ wc_path c ∈ map normalize paths /\
             held_by_task c <> task /\
             exists q, q ∈ held_by (held_by_task c) l' /\ overlaps (wc_path c) q = true
  | Ok _ => (forall p t q, p ∈ map normalize paths -> q ∈ held_by t (Some claims) -> t <> task ->
               overlaps p q = false) /\
            (forall p, p ∈ map normalize paths -> claimed (held_by task l') p) /\
            (forall q, q ∈ held_by task (Some claims) -> q ∈ held_by task l') /\
            (forall t q, t <> task -> q ∈ held_by t l' <-> q ∈ held_by t (Some claims)) /\
            exists claims', l' = Some claims' /\ claims_ok claims'
  end.
Proof.
  intros Hok. unfold claim.
  pose proof (first_conflict_spec task claims (map normalize paths) Hok) as Hf.
  destruct (first_conflict task claims (map normalize paths)) as [c|].
  - destruct Hf as (H1&H2&H3&q&Hq&Ho). split_and!; [done..|].
    exists q. by rewrite elem_of_held_by.
  - destruct (insert_claims_ok task (map normalize paths) claims Hok Hf) as (H1&H2&H3&H4&_).
    split_and!; [| | | |by eexists].
    + intros p t q Hp Hq Ht. rewrite elem_of_held_by in Hq by done. by apply (Hf p Hp t).
    + intros p Hp. destruct (H2 p Hp) as (q&Hq&Hc). exists q. by rewrite elem_of_held_by.
    + intros q. rewrite !elem_of_held_by by done. apply H3.
    + intros t q Ht. rewrite !elem_of_held_by by done. by apply H4.
Qed.

(** Releasing gives back everything the task holds and nothing else, so
    that afterwards only the claims of other tasks can refuse a request. *)
Theorem release_exact task claims :
  claims_ok claims ->
  exists claims', release task (Some claims) = Some claims' /\ claims_ok claims' /\
    held_by task (Some claims') = [] /\
    (forall t q, t <> task -> q ∈ held_by t (Some claims') <-> q ∈ held_by t (Some claims)) /\
    (forall t paths, would_conflict t paths (Some claims') = None <->
       forall p t' q, p ∈ map normalize paths -> t' <> t -> t' <> task ->
         q ∈ held_by t' (Some claims) -> overlaps p q = false).
Proof.
  intros Hok. eexists. split; [done|]. pose proof (release_ok task claims Hok) as Hok'.
  set (claims' := bt_retain _ claims) in *. pose proof Hok as [Hw _ _].
  assert (forall t q, q ∈ held_by t (Some claims') <-> q ∈ held_by t (Some claims) /\ t <> task) as Hheld.
  { intros t q. rewrite !elem_of_held_by by done. by apply release_holds. }
  split_and!; [done| | |].
  - destruct (held_by task (Some claims')) as [|q l] eqn:E; [done|].
    assert (q ∈ held_by task (Some claims')) as Hq by (rewrite E; by left). by apply Hheld in Hq as [_ ?].
  - intros t q Ht. rewrite Hheld. tauto.
  - intros t paths. unfold would_conflict.
    pose proof (first_conflict_spec t claims' (map normalize paths) Hok') as Hf.
    destruct (first_conflict t claims' (map normalize paths)) as [c|]; split; try done.
    + intros Hall. destruct Hf as (Hp&_&Hn&q&Hq&Ho). rewrite <- elem_of_held_by, Hheld in Hq by done.
      destruct Hq as [Hq Hnt]. by rewrite (Hall _ _ q Hp Hn Hnt Hq) in Ho.
    + intros _ p t' q Hp Ht Hnt Hq. apply (Hf p Hp t'); [|done].
      rewrite <- elem_of_held_by by done. by apply Hheld.
Qed.

(** A prediction is never narrower than what the description names.  A task
    that names no path claims the whole workspace, which overlaps every claim;
    otherwise each named path is claimed as written or, when the index does not
    contain it, through every indexed file it may stand for; and every output
    of a dependency is claimed. *)
Theorem prediction_covers alphanumeric description files max outputs :
  let ix := from_files_bounded max files in
  let named := predicted_writes alphanumeric description in
  let predicted := predict_writes alphanumeric description (Some ix) outputs in
  if is_whole_workspace named then predicted = named /\ forall p q, p ∈ predicted -> overlaps p q = true
  else
    (forall p, p ∈ named ->
       claimed predicted p \/
       (index_contains ix p = false /\
        forall f, f ∈ ix_files ix -> refers p f = true -> claimed predicted f)) /\
    (forall o, o ∈ outputs -> trim o <> "" -> claimed predicted (trim o)).
Proof.
  cbv zeta. unfold predict_writes. set (named := predicted_writes _ _).
  set (ix := from_files_bounded max files). destruct (is_whole_workspace named) eqn:Ew.
  - split; [done|]. intros p q Hp. destruct named as [|n [|]]; try done.
    apply list_elem_of_singleton in Hp as ->. simpl in Ew. unfold path_eqb in Ew. destruct_bools.
    apply overlaps_spec. left. rewrite Ew. reflexivity.
  - split.
    + intros p Hp.
      assert (forall x, (forall acc, claimed (add_resolved (Some ix) acc p) x) ->
        claimed (fold_left add_output outputs (fold_left (add_resolved (Some ix)) named [])) x) as Hc.
      { intros x Hx. eapply claimed_incl; [apply fold_add_incl; intros; apply add_output_incl|].
        apply (fold_add_claims _ _ _ p); [intros; apply add_resolved_incl|done|done]. }
      destruct (resolve (Some ix) p) as [|r rs] eqn:Er.
      * left. apply Hc. intros acc. pose proof (add_resolved_claims (Some ix) acc p) as Ha.
        by rewrite Er in Ha.
      * right. assert (index_contains ix p = false) as Hn.
        { unfold resolve in Er. by destruct (index_contains ix p). }
        split; [done|]. intros f Hf Hr. apply Hc. intros acc.
        pose proof (add_resolved_claims (Some ix) acc p) as Ha. rewrite Er in Ha. apply Ha.
        rewrite <- Er. by apply resolve_spec.
    + intros o Ho Hne. apply (fold_add_claims _ _ _ o); [intros; apply add_output_incl| |done].
      intros acc. unfold add_output. rewrite bool_decide_eq_false_2 by done. apply add_path_present.
Qed.

(** ** Witnesses *)

Definition sample_ledger : OwnershipLedger := (claim "t2" ["docs"] (claim "t1" ["./src/"] ledger_new).1).1.

Lemma sample_ledger_reachable : ledger_reachable sample_ledger.
Proof. repeat (eapply reachable_step; [|constructor]). constructor. Qed.

Definition sample_claims : Claims :=
  match sample_ledger with Some claims => claims | None => [] end.

Lemma sample_ledger_eq : sample_ledger = Some sample_claims.
Proof. vm_compute. reflexivity. Qed.

Lemma sample_claims_ok : claims_ok sample_claims.
Proof. exact (reachable_claims_ok _ _ sample_ledger_reachable sample_ledger_eq). Qed.

Lemma ledger_exclusive_witness : overlaps "src" "docs" = false.
Proof.
  apply (ledger_exclusive sample_ledger sample_claims "t1" "t2"); [exact sample_ledger_reachable| | | |].
  - exact sample_ledger_eq.
  - discriminate.
  - assert (held_by "t1" sample_ledger = ["src"]) as -> by (vm_compute; reflexivity).
    by apply list_elem_of_singleton.
  - assert (held_by "t2" sample_ledger = ["docs"]) as -> by (vm_compute; reflexivity).
    by apply list_elem_of_singleton.
Defined.

Lemma claim_exact_witness :
  (claim "t3" ["src/a.rs"] (Some sample_claims)).2 =
    Err {| wc_path := "src/a.rs"; held_by_task := "t1"; requested_by := "t3" |} /\
  exists q, q ∈ held_by "t1" (Some sample_claims) /\ overlaps "src/a.rs" q = true.
Proof.
  pose proof (claim_exact "t3" ["src/a.rs"] sample_claims sample_claims_ok) as H.
  destruct (claim "t3" ["src/a.rs"] (Some sample_claims)) as [l r] eqn:E.
  vm_compute in E. injection E as <- <-. destruct H as (Hl&_&_&_&q&Hq&Ho). split; [reflexivity|].
  exists q. rewrite <- Hl. split; [exact Hq|exact Ho].
Defined.

Lemma release_exact_witness :
  exists claims', release "t1" (Some sample_claims) = Some claims' /\ held_by "t1" (Some claims') = [].
Proof.
  destruct (release_exact "t1" sample_claims sample_claims_ok) as (claims'&Hr&_&Hh&_). exists claims'. split; [exact Hr|exact Hh].
Defined.

(** A task naming a bare file and one naming its path claim the same file. *)
Example prediction_meets :
  predict_writes (fun _ => false) "fix auth.rs" (Some (from_files_bounded 10 ["src/auth.rs"])) [] = ["src/auth.rs"].
Proof. vm_compute. reflexivity. Qed.

(** A file named at the end of a sentence is missed: the dot that ends the
    sentence is taken as part of the name, and only the other path is claimed. *)
Example prediction_misses_sentence_end :
  predict_writes (fun _ => false) "Move src/a.rs next to src/b.rs." None [] = ["src/a.rs"].
Proof. vm_compute. reflexivity. Qed.
