(* ===== verification/Guard.v ===== *)
(** * The command guard ([cuma-workspace/src/guard.rs])

    Screening of shell commands against the security settings, with the theorem
    that says exactly which commands pass. *)

From S2P Require Export Config.
Open Scope string_scope.
Open Scope Z_scope.

Inductive CommandVerdict : Type :=
  | Allow
  | Deny (reason : string).

(** [CommandVerdict::is_allowed] and [CommandVerdict::reason]. *)
Definition is_allowed (v : CommandVerdict) : bool := match v with Allow => true | Deny _ => false end.
Definition verdict_reason (v : CommandVerdict) : option string :=
  match v with Allow => None | Deny reason => Some reason end.

Definition DESTRUCTIVE : list (string * string) :=
  [("git reset --hard", "discards every uncommitted change");
   ("git checkout -- .", "discards every uncommitted change");
   ("git checkout --force", "discards every uncommitted change");
   ("git clean -f", "deletes untracked files");
   ("git clean -x", "deletes untracked and ignored files");
   ("git push --force", "rewrites published history");
   ("git push -f", "rewrites published history");
   ("git branch -D", "deletes a branch without a merge check");
   ("git stash drop", "discards stashed work");
   ("git stash clear", "discards every stash");
   ("rm -rf", "deletes recursively without confirmation");
   ("rm -fr", "deletes recursively without confirmation");
   ("mkfs", "formats a filesystem");
   ("dd if=", "writes raw blocks");
   ("truncate -s 0", "empties a file");
   (":(){ :|:& };:", "is a fork bomb");
   ("chmod -r 777", "removes every permission boundary");
   ("shutdown", "halts the machine");
   ("reboot", "restarts the machine")].

Definition PROTECTED_ROOTS : list string :=
  ["/"; "/etc"; "/usr"; "/bin"; "/sbin"; "/boot"; "/var"; "/sys"; "/proc"; "~"].

Record CommandGuard := {
  allow_destructive : bool;
  allowlist : list string;
}.

(** [CommandGuard::new]. *)
Definition guard_new (config : SecurityConfig) : CommandGuard :=
  {| allow_destructive := allow_destructive_operations config;
     allowlist := List.filter (fun c => negb (bool_decide (c = "")))
       (map (fun c => to_ascii_lowercase (trim c)) (command_allowlist config)) |}.

(** [CommandGuard::permissive]. *)
Definition permissive : CommandGuard := {| allow_destructive := true; allowlist := [] |}.

(** [CommandGuard::normalize]. *)
Definition normalize_command (command : string) : string :=
  to_ascii_lowercase (str_join " " (split_whitespace command)).

(** The body of the loop of [protected_target]. *)
Definition protected_argument (argument : string) : option string :=
  if starts_with argument "-" then None
  else
    let target := trim_end_matches (fun c => c =? 47) argument in
    let target := if bool_decide (target = "") then "/" else target in
    if contains PROTECTED_ROOTS target then Some (debug_str target +:+ " is outside any project")
    else None.

(** [CommandGuard::protected_target]. *)
Definition protected_target (normalized : string) : option string :=
  if negb (starts_with normalized "rm " || str_contains normalized " rm ") then None
  else head (omap protected_argument (tl (split_whitespace normalized))).

Definition first_word (normalized : string) : string :=
  match split_whitespace normalized with w :: _ => w | [] => "" end.

Definition permitted (g : CommandGuard) (normalized : string) : bool :=
  existsb (fun allowed => bool_decide (first_word normalized = allowed) || starts_with normalized allowed)
    (allowlist g).

(** [CommandGuard::screen]. *)
Definition screen (g : CommandGuard) (command : string) : CommandVerdict :=
  let normalized := normalize_command command in
  if bool_decide (normalized = "") then Deny "the command is empty"
  else if negb (match allowlist g with [] => true | _ => permitted g normalized end) then
    Deny (debug_str (first_word normalized) +:+ " is not in security.command_allowlist")
  else if allow_destructive g then Allow
  else match List.find (fun d => str_contains normalized d.1) DESTRUCTIVE with
       | Some (pattern, effect) =>
           Deny (debug_str pattern +:+ " " +:+ effect
                 +:+ "; set security.allow_destructive_operations to permit it")
       | None => match protected_target normalized with
                 | Some reason => Deny reason
                 | None => Allow
                 end
       end.

(** ** Lemmas *)

Lemma normalize_no_upper command : no_upper (normalize_command command).
Proof. apply to_ascii_lowercase_no_upper. Qed.

Lemma protected_target_spec normalized :
  is_Some (protected_target normalized) <->
  (starts_with normalized "rm " || str_contains normalized " rm ") = true /\
  exists a, a ∈ tl (split_whitespace normalized) /\ is_Some (protected_argument a).
Proof.
  unfold protected_target. destruct (_ || _); simpl.
  2: { split; [by intros [? ?]|by intros [? _]]. }
  assert (forall l, is_Some (head (omap protected_argument l)) <->
    exists a, a ∈ l /\ is_Some (protected_argument a)) as Hl.
  { induction l as [|a l IH]; cbn [omap list_omap].
    - split; [by intros [? ?]|intros (a&Ha&_); by apply not_elem_of_nil in Ha].
    - destruct (protected_argument a) as [r|] eqn:E; cbn [head].
      + split; [intros _; exists a; rewrite E; split; [by left|by eexists]|by eexists].
      + change (list_omap string string protected_argument l) with (omap protected_argument l).
        rewrite IH. split; intros (b&Hb&Hs); [exists b; split; [by right|done]|].
        apply elem_of_cons in Hb as [->|Hb]; [rewrite E in Hs; by destruct Hs|by exists b]. }
  rewrite Hl. tauto.
Qed.

(** ** Properties *)

(** A command runs exactly when it is not blank, the allowlist is empty or
    one of its entries is the command's first word or begins the command, and,
    unless destructive operations are permitted, it contains no destructive
    pattern and is not a delete that names a protected root.  The comparison is
    on the text with its whitespace collapsed and in lower case. *)
Theorem screen_exact g command :
  screen g command = Allow <->
  let c := normalize_command command in
  c <> "" /\
  (allowlist g = [] \/ exists allowed, allowed ∈ allowlist g /\
     (first_word c = allowed \/ starts_with c allowed = true)) /\
  (allow_destructive g = true \/
   (forall pattern effect, (pattern, effect) ∈ DESTRUCTIVE -> str_contains c pattern = false) /\
   ~ ((starts_with c "rm " || str_contains c " rm ") = true /\
      exists a, a ∈ tl (split_whitespace c) /\ is_Some (protected_argument a))).
Proof.
  cbv zeta. unfold screen. set (c := normalize_command command).
  case_bool_decide as Hc; [by split; [|intros [? _]]|].
  assert (match allowlist g with [] => true | _ => permitted g c end = true <->
    allowlist g = [] \/ exists allowed, allowed ∈ allowlist g /\
      (first_word c = allowed \/ starts_with c allowed = true)) as Hlist.
  { unfold permitted. destruct (allowlist g) as [|x l]; [split; [by left|done]|].
    rewrite existsb_exists. split.
    - intros (y&Hy&Hb). right. exists y. rewrite list_elem_of_In.
      by rewrite orb_true_iff, bool_decide_eq_true in Hb.
    - intros [Hn|(y&Hy&Hb)]; [done|]. exists y.
      by rewrite <- list_elem_of_In, orb_true_iff, bool_decide_eq_true. }
  destruct (match allowlist g with [] => true | _ => _ end); cbn [negb].
  2: { split; [done|]. intros (_&Hl&_). by apply Hlist in Hl. }
  destruct (allow_destructive g); [naive_solver|].
  rewrite <- protected_target_spec.
  destruct (List.find _ DESTRUCTIVE) as [[pattern effect]|] eqn:E.
  - split; [done|]. intros (_&_&[?|[Hd _]]); [done|].
    apply find_some in E as [Hin Hb]. apply list_elem_of_In in Hin. simpl in Hb.
    by rewrite (Hd _ _ Hin) in Hb.
  - assert (forall pattern effect, (pattern, effect) ∈ DESTRUCTIVE -> str_contains c pattern = false) as Hd.
    { intros pattern effect Hin%list_elem_of_In. exact (find_none _ _ E _ Hin). }
    destruct (protected_target c) as [r|].
    + split; [done|]. intros (_&_&[?|[_ Hn]]); [done|]. destruct Hn. by eexists.
    + split; [|done]. intros _. split; [done|]. split; [by apply Hlist|]. right.
      split; [exact Hd|]. by intros [? ?].
Qed.

(** A pattern with an uppercase letter can never match the lowered text: the
    entry for [git branch -D] screens nothing. *)
Lemma branch_pattern_dead command : str_contains (normalize_command command) "git branch -D" = false.
Proof.
  apply not_true_iff_false. intros H.
  apply no_upper_contains in H; [|apply normalize_no_upper].
  assert (existsb is_ascii_upper (bytes "git branch -D") = true) as He by (vm_compute; reflexivity).
  apply existsb_exists in He as (b&Hin&Hb). unfold no_upper in H. rewrite Forall_forall in H.
  specialize (H b). rewrite H in Hb; [discriminate|done].
Qed.

Example branch_delete_allowed : screen (guard_new security_default) "git branch -D main" = Allow.
Proof. vm_compute. reflexivity. Qed.

Example spacing_does_not_evade :
  is_allowed (screen (guard_new security_default) "GIT   reset  --hard") = false /\
  is_allowed (screen (guard_new security_default) "rm -r /etc/") = false /\
  is_allowed (screen (guard_new security_default) "cargo test") = true.
Proof. vm_compute. split_and!; reflexivity. Qed.
