(* ===== verification/Ports.v ===== *)
(** * Ports ([cuma-core/src/ports.rs])

    The interfaces the orchestrator is written against, and what the core
    promises through them.  Identifiers are drawn from a supply [gen]: the
    [n]-th one drawn in a session ([TaskId::generate]). *)

From S2P Require Export GraphFacts Handoff.
Open Scope string_scope.
Open Scope Z_scope.

(** [MemoryEntry] and [PlanningContext]. *)
Record MemoryEntry := {
  me_id : string;
  me_content : string;
  me_kind : string;
  me_relevance : option f64;
  me_created_at : Z;
}.

Record PlanningContext := {
  pc_workspace : string;
  pc_available : CapabilitySet;
  pc_memories : list MemoryEntry;
  pc_hints : btree string string;
}.

(** [ExecutionRequest]. *)
Record ExecutionRequest := {
  er_task : Task;
  er_model : option ModelId;
  er_prompt : string;
  er_workspace : string;
  er_handoff : option AgentHandoff;
  er_timeout_ms : Z;
}.

(** [TrustLevel] and [SkillGuide]. *)
Inductive TrustLevel : Type := Trusted | TVerified | Community | Untrusted.

Record SkillGuide := {
  sg_id : string;
  sg_name : string;
  sg_trust : TrustLevel;
  sg_instructions : string;
}.

(** ** The context port *)

Class ContextManager (C : Type) := {
  assemble : C -> Task -> TaskGraph -> option AgentHandoff -> Z -> Result string;
}.

(** ** The planner port *)

(** A planner's answer; [None] would be a validation that does not end. *)
Definition Answer (A : Type) : Type := option (Result A).

Class Planner (P : Type) := {
  plan : P -> string -> PlanningContext -> nat -> nat * Answer TaskGraph;
  replan : P -> TaskGraph -> Task -> string -> nat -> nat * Answer (option TaskGraph);
}.

(** The default of [Planner::replan]: it refuses. *)
Definition default_replan (graph : TaskGraph) (failed : Task) (reason : string) (n : nat)
  : nat * Answer (option TaskGraph) := (n, Some (Ok None)).

(** No task of the graph has an identifier that is still to be drawn. *)
Definition fresh_from (gen : nat -> TaskId) (n : nat) (g : TaskGraph) : Prop :=
  forall k, (n <= k)%nat -> graph_get g (gen k) = None.

(** A task nothing has happened to yet. *)
Definition untouched (t : Task) : Prop := t_status t = Pending /\ t_attempts t = [].

(** What a planner hands over: a sound plan of untouched tasks. *)
Record planned (gen : nat -> TaskId) (n n' : nat) (g : TaskGraph) : Prop := {
  pd_sound : sound_plan g;
  pd_fresh : fresh_from gen n' g;
  pd_drawn : (n <= n')%nat;
  pd_untouched : Forall untouched (graph_iter g);
}.

(** How a revised plan relates to the one it replaces: the failed task is
    skipped, the other tasks keep their rows, and what is new is untouched. *)
Record revises (g : TaskGraph) (failed : Task) (g' : TaskGraph) : Prop := {
  rv_rows id t : graph_get g' id = Some t ->
    (id <> t_id failed /\ graph_get g id = Some t) \/
    (id = t_id failed /\ t = with_status Skipped failed) \/
    (graph_get g id = None /\ untouched t);
  rv_keeps id : is_Some (graph_get g id) -> is_Some (graph_get g' id);
}.

(** What the orchestrator relies on: a planner answers, and every graph it
    hands over is a sound plan. *)
Class PlannerLaws (gen : nat -> TaskId) {P : Type} `{Planner P} (p : P) := {
  plan_answers goal ctx n : (plan p goal ctx n).2 <> None;
  plan_sound goal ctx n g :
    (plan p goal ctx n).2 = Some (Ok g) -> planned gen n (plan p goal ctx n).1 g;
  replan_answers g failed reason n :
    sound_plan g -> fresh_from gen n g -> graph_get g (t_id failed) = Some failed ->
    (replan p g failed reason n).2 <> None;
  replan_draws g failed reason n :
    sound_plan g -> fresh_from gen n g -> graph_get g (t_id failed) = Some failed ->
    (n <= (replan p g failed reason n).1)%nat;
  replan_sound g failed reason n g' :
    sound_plan g -> fresh_from gen n g -> graph_get g (t_id failed) = Some failed ->
    (replan p g failed reason n).2 = Some (Ok (Some g')) ->
    sound_plan g' /\ fresh_from gen (replan p g failed reason n).1 g' /\ revises g failed g';
}.

(** [graph.validate()?; Ok(graph)]. *)
Definition checked (g : TaskGraph) : Answer TaskGraph :=
  match validate g with
  | None => None
  | Some (Ok _) => Some (Ok g)
  | Some (Err e) => Some (Err e)
  end.

Lemma checked_sound g : sound_plan g -> checked g = Some (Ok g).
Proof. intros Hs. unfold checked. by rewrite sound_plan_validates. Qed.
