(* ===== verification/Planner.v ===== *)
(** * Planners ([cuma-planner/src/heuristic.rs], [llm.rs])

    Decomposition of a goal into a task graph by recognising its shape, and by
    parsing a model's reply with the first as fallback. *)

From S2P Require Export Ports.
Open Scope string_scope.
Open Scope Z_scope.

(** ** [HeuristicPlanner] *)

Record HeuristicPlanner := { always_validate : bool }.

(** [HeuristicPlanner::new]. *)
Definition heuristic_new : HeuristicPlanner := {| always_validate := true |}.

Record GoalShape := {
  changes_code : bool;
  needs_research : bool;
  mentions_tests : bool;
  is_investigation : bool;
  is_review : bool;
  is_documentation : bool;
  is_design_heavy : bool;
}.

Section Planners.
(** The supply of identifiers and the lower case of non-ASCII chars. *)
Context (gen : nat -> TaskId) (unicode_lower : Z -> list Z).

(** [shape_of]. *)
Definition shape_of (goal : string) : GoalShape :=
  let g := to_lowercase unicode_lower goal in
  {| changes_code := contains_any g
       ["implement"; "implementa"; "add "; "adicion"; "create"; "cri"; "write"; "escrev"; "fix";
        "corrig"; "conserta"; "refactor"; "refator"; "update"; "atualiz"; "migrate"; "migra";
        "rename"; "renome"; "remove"; "remov"; "delete"; "port "; "upgrade"];
     is_investigation := contains_any g
       ["why"; "por que"; "porque"; "investigate"; "investig"; "debug"; "diagnos"; "understand";
        "entend"; "explain"; "explic"; "analyz"; "analis"; "audit"];
     is_review := contains_any g ["review"; "revis"; "critique"; "avali"];
     is_documentation := contains_any g ["document"; "documenta"; "readme"; "changelog"];
     mentions_tests := contains_any g ["test"; "teste"; "spec"; "coverage"; "cobertura"; "ci "];
     needs_research := contains_any g
       ["research"; "pesquis"; "how to"; "como "; "best practice"; "boas prátic"; "compare";
        "compar"; "evaluate"; "oauth"; "protocol"; "protocolo"; "spec"; "library"; "bibliotec";
        "sdk"];
     is_design_heavy := contains_any g
       ["architect"; "arquitet"; "design"; "desenh"; "redesign"; "restructure"; "reestrutur";
        "rewrite"; "reescrev"; "migrate"; "strategy"; "estratégia"] |}.

(** A graph under construction and the identifiers drawn so far. *)
Definition Draft : Type := TaskGraph * nat.

(** [graph.add(Task::new(spec))]. *)
Definition add_new (spec : TaskSpec) (d : Draft) : Draft * TaskId :=
  let '(g, id) := graph_add d.1 (task_with_id (gen d.2) spec) in ((g, S d.2), id).

(** [push]. *)
Definition push (d : Draft) (spec : TaskSpec) (after : list TaskId) : Draft * TaskId :=
  add_new (spec_with_dependencies (sp_dependencies spec ++ after)%list spec) d.

Definition with_priority (p : Z) (s : TaskSpec) : TaskSpec :=
  {| sp_description := sp_description s; sp_task_type := sp_task_type s;
     sp_required := sp_required s; sp_dependencies := sp_dependencies s;
     sp_priority := p; sp_risk := sp_risk s;
     sp_complexity := sp_complexity s; sp_estimated_tokens := sp_estimated_tokens s |}.

Definition empty_goal : MetaAgentError := EConfiguration "cannot plan an empty goal".

Definition inspect_spec (goal : string) : TaskSpec :=
  with_priority 9 (spec_new ("Inspect the repository to understand: " +:+ goal) Inspection).

(** The inspection, then research and design on top of it: the draft and the
    prerequisites of what follows. *)
Definition plan_prerequisites (goal : string) (shape : GoalShape) (n : nat) : Draft * list TaskId :=
  let '(d, inspect) := add_new (inspect_spec goal) (graph_new, n) in
  let '(d, prerequisites) :=
    if needs_research shape then
      let '(d, research) := push d (requiring Research
        (spec_new ("Research what is needed to: " +:+ goal) TResearch)) [inspect] in
      (d, [inspect; research])
    else (d, [inspect]) in
  if is_design_heavy shape then
    let '(d, design) := push d (with_complexity (f64_lit 85 100)
      (spec_new ("Design the approach for: " +:+ goal) Design)) [inspect] in
    (d, (prerequisites ++ [design])%list)
  else (d, prerequisites).

(** The task a goal that changes no code ends with. *)
Definition read_only_spec (goal : string) (shape : GoalShape) : option TaskSpec :=
  if changes_code shape then None
  else if is_investigation shape then
    Some (with_risk ReadOnly (spec_new ("Investigate and report findings for: " +:+ goal) BugFix))
  else if is_review shape then
    Some (with_risk ReadOnly (spec_new ("Review: " +:+ goal) Review))
  else if is_documentation shape then
    Some (with_risk Low (spec_new ("Write documentation for: " +:+ goal) TDocumentation))
  else None.

(** The pipeline that changes code. *)
Definition plan_change (self : HeuristicPlanner) (goal : string) (shape : GoalShape) (d : Draft)
    (prerequisites : list TaskId) : Draft :=
  let task_type := if is_investigation shape then BugFix else Implementation in
  let '(d, implement) :=
    push d (with_risk Medium (spec_new ("Implement: " +:+ goal) task_type)) prerequisites in
  let '(d, validation_deps) :=
    if mentions_tests shape then
      let '(d, tests) := push d (with_risk Low
        (spec_new ("Write or update tests for: " +:+ goal) TTesting)) [implement] in
      (d, [implement; tests])
    else (d, [implement]) in
  if always_validate self then
    let '(d, validate) := push d (with_risk Low (requiring ShellExecution
      (spec_new "Run the project's tests and report failures" Validation))) validation_deps in
    (push d (with_risk ReadOnly (spec_new ("Review the changes made for: " +:+ goal) Review))
       [validate]).1
  else d.

(** [HeuristicPlanner::plan]; the warning about unroutable tasks is only
    logged. *)
Definition heuristic_plan (self : HeuristicPlanner) (goal : string) (ctx : PlanningContext) (n : nat)
  : nat * Answer TaskGraph :=
  let goal := trim goal in
  if bool_decide (goal = "") then (n, Some (Err empty_goal))
  else
    let shape := shape_of goal in
    let '(d, prerequisites) := plan_prerequisites goal shape n in
    let d := match read_only_spec goal shape with
             | Some spec => (push d spec prerequisites).1
             | None => plan_change self goal shape d prerequisites
             end in
    (d.2, checked d.1).

Definition part_one (description : string) : string :=
  description +:+ " (part 1 of 2: narrow the scope to the smallest change)".
Definition part_two (description : string) : string :=
  description +:+ " (part 2 of 2: complete the remaining work)".

Definition half_spec (base : TaskSpec) (description : string) : TaskSpec :=
  {| sp_description := description; sp_task_type := sp_task_type base;
     sp_required := sp_required base; sp_dependencies := sp_dependencies base;
     sp_priority := sp_priority base; sp_risk := sp_risk base;
     sp_complexity := sp_complexity base;
     sp_estimated_tokens := (fun t => t / 2) <$> sp_estimated_tokens base |}.

(** One half of a split task. *)
Definition add_half (failed : TaskId) (spec : TaskSpec) (d : Draft) : Draft * TaskId :=
  let '(g, id) := graph_add d.1 (with_parent failed (task_with_id (gen d.2) spec)) in ((g, S d.2), id).

(** [HeuristicPlanner::replan]. *)
Definition heuristic_replan (graph : TaskGraph) (failed : Task) (reason : string) (n : nat)
  : nat * Answer (option TaskGraph) :=
  if negb (str_contains (to_lowercase unicode_lower reason) "context") then (n, Some (Ok None))
  else match t_parent_id failed with
  | Some _ => (n, Some (Ok None))
  | None =>
      match graph_get graph (t_id failed) with
      | None => (n, Some (Ok None))
      | Some _ =>
          let revised := graph_update (with_status Skipped) (t_id failed) graph in
          let base := t_spec failed in
          let '(d, first) := add_half (t_id failed)
            (half_spec base (part_one (sp_description base))) (revised, n) in
          let '(d, _) := add_half (t_id failed)
            (spec_with_dependencies [first] (half_spec base (part_two (sp_description base)))) d in
          (d.2, match checked d.1 with
                | None => None
                | Some (Err e) => Some (Err e)
                | Some (Ok g) => Some (Ok (Some g))
                end)
      end
  end.

#[export] Instance HeuristicPlanner_Planner : Planner HeuristicPlanner := {|
  plan := heuristic_plan;
  replan _ := heuristic_replan;
|}.

(** ** [LlmPlanner] *)

(** [char::is_alphanumeric] beyond ASCII. *)
Context (unicode_alphanumeric : Z -> bool).

(** [parse_task_type]. *)
Definition parse_task_type (raw : string) : TaskType :=
  let s := to_ascii_lowercase (trim raw) in
  if contains ["inspection"; "inspect"] s then Inspection
  else if contains ["research"] s then TResearch
  else if contains ["design"; "architecture"] s then Design
  else if contains ["implementation"; "implement"] s then Implementation
  else if contains ["bugfix"; "bug_fix"; "debug"] s then BugFix
  else if contains ["refactor"; "refactoring"] s then Refactor
  else if contains ["testing"; "test"; "tests"] s then TTesting
  else if contains ["validation"; "validate"] s then Validation
  else if contains ["documentation"; "docs"] s then TDocumentation
  else if contains ["review"] s then Review
  else General.

(** [risk_for]. *)
Definition risk_for (t : TaskType) : Risk :=
  match t with
  | Inspection | TResearch | Design | Review => ReadOnly
  | TDocumentation | TTesting | Validation => Low
  | Implementation | BugFix | Refactor | General => Medium
  end.

Definition BULLETS : list Z := [45; 42; 0x2022].

Definition clean_line (line : string) : string :=
  trim (trim_start_matches (contains BULLETS) (trim line)).

(** A row's dependencies: 1-based numbers of rows accepted before it. *)
Definition parse_dependencies (accepted : nat) (field : string) : list nat :=
  if bool_decide (field = "-") then []
  else omap (fun d =>
         match parse_unsigned U64_MAX (trim d) with
         | Some n => if (1 <=? n) && (n <=? Z.of_nat accepted) then Some (Z.to_nat n - 1)%nat else None
         | None => None
         end) (split_char (of_byte 44) field).

(** The body of the loop over lines: the row, or [None] when it is skipped. *)
Definition parse_row (available : CapabilitySet) (accepted : nat) (line : string)
  : option (TaskSpec * list nat) :=
  let line := clean_line line in
  if bool_decide (line = "") || starts_with line "```" then None
  else match map trim (splitn_char 3 (of_byte 124) line) with
  | [ty; deps; rest] =>
      if bool_decide (ty = "") then None
      else
        let task_type := parse_task_type ty in
        let description := trim rest in
        if negb (existsb (is_alphanumeric unicode_alphanumeric) (chars description)) then None
        else
          let spec := with_risk (risk_for task_type) (spec_new description task_type) in
          if match available with [] => false | _ => true end
             && negb (is_complete (match_against available (sp_required spec))) then None
          else Some (spec, parse_dependencies accepted deps)
  | _ => None
  end.

Definition accept_row (available : CapabilitySet) (pending : list (TaskSpec * list nat)) (line : string)
  : list (TaskSpec * list nat) :=
  match parse_row available (length pending) line with
  | Some row => (pending ++ [row])%list
  | None => pending
  end.

(** One accepted row of the second loop. *)
Definition add_row (st : Draft * list TaskId) (row : TaskSpec * list nat) : Draft * list TaskId :=
  let '(d, ids) := st in
  let '(d, id) := add_new (spec_with_dependencies (omap (fun i => ids !! i) row.2) row.1) d in
  (d, (ids ++ [id])%list).

(** [parse_plan]: [Some None] when the reply is unusable. *)
Definition parse_plan (reply : string) (available : CapabilitySet) (n : nat)
  : nat * option (option TaskGraph) :=
  let pending := fold_left (accept_row available) (lines reply) [] in
  if Nat.ltb (length pending) 2 then (n, Some None)
  else
    let '(d, _) := fold_left add_row pending ((graph_new, n), []) in
    (d.2, match checked d.1 with
          | None => None
          | Some (Ok g) => Some (Some g)
          | Some (Err _) => Some None
          end).

(** [LlmPlanner::user_prompt]. *)
Definition user_prompt (goal : string) (ctx : PlanningContext) : string :=
  "Goal: " +:+ goal +:+ NL
  +:+ (match pc_available ctx with
       | [] => ""
       | caps => NL +:+ "Only these capabilities are available: "
                 +:+ str_join ", " (map capability_display caps) +:+ NL
       end)
  +:+ (match pc_memories ctx with
       | [] => ""
       | memories => NL +:+ "Relevant prior knowledge:" +:+ NL
           +:+ fold_left (fun out m => out +:+ "- " +:+ me_content m +:+ NL) (take 5 memories) ""
       end).

Definition SYSTEM_PROMPT : string :=
  str_join NL
    ["You decompose software engineering goals into executable subtasks."; "";
     "Reply with ONE task per line and nothing else. Each line must be:"; "";
     "  TYPE | DEPENDS_ON | DESCRIPTION"; "";
     "TYPE is one of: inspection, research, design, implementation, bugfix,";
     "refactor, testing, validation, documentation, review.";
     "DEPENDS_ON is a comma-separated list of 1-based line numbers of earlier";
     "lines, or `-` for none."; "DESCRIPTION is a single imperative sentence."; "";
     "Produce between 2 and 12 lines. Do not number the lines. Do not add prose,";
     "headings or code fences."].

(** The provider: what it answers to a system prompt and a prompt. *)
Record LlmPlanner := { complete : string -> string -> Result string }.

(** [LlmPlanner::plan]. *)
Definition llm_plan (self : LlmPlanner) (goal : string) (ctx : PlanningContext) (n : nat)
  : nat * Answer TaskGraph :=
  let goal := trim goal in
  if bool_decide (goal = "") then (n, Some (Err empty_goal))
  else match complete self SYSTEM_PROMPT (user_prompt goal ctx) with
       | Ok reply =>
           match parse_plan reply (pc_available ctx) n with
           | (n, Some (Some graph)) => (n, Some (Ok graph))
           | (n, Some None) => heuristic_plan heuristic_new goal ctx n
           | (n, None) => (n, None)
           end
       | Err _ => heuristic_plan heuristic_new goal ctx n
       end.

#[export] Instance LlmPlanner_Planner : Planner LlmPlanner := {|
  plan := llm_plan;
  replan _ := heuristic_replan;
|}.
End Planners.

(** [unsatisfiable_capabilities]. *)
Definition unsatisfiable_capabilities (graph : TaskGraph) (available : CapabilitySet) : list Capability :=
  fold_left (fun missing t =>
    fold_left (fun missing c => if contains missing c then missing else (missing ++ [c])%list)
      (cm_missing (match_against available (sp_required (t_spec t)))) missing)
    (graph_iter graph) [].
