(* ===== verification/PlannerFacts.v ===== *)
(** * Plans are sound, start by looking and end in one place *)

From S2P Require Export Planner.
From stdpp Require Import relations.
Open Scope string_scope.
Open Scope Z_scope.

(** ** Drafts *)

Section Drafts.
Context (gen : nat -> TaskId) (gen_inj : forall i j, gen i = gen j -> i = j).

(** A draft is sound, its identifiers were drawn from the supply, and so no
    later draw collides. *)
Record draft_ok (d : Draft) : Prop := {
  do_sound : sound_plan d.1;
  do_fresh : fresh_from gen d.2 d.1;
}.

(** What adding a task does to the graph. *)
Definition extends (d d' : Draft) (t : Task) : Prop :=
  d'.2 = S d.2 /\ graph_iter d'.1 = (graph_iter d.1 ++ [t])%list /\
  (forall x y, depends d'.1 x y <-> (x = t_id t /\ y ∈ dependencies t) \/ depends d.1 x y) /\
  (forall x, is_Some (graph_get d'.1 x) <-> x = t_id t \/ is_Some (graph_get d.1 x)).

Lemma add_task_ok d t :
  draft_ok d -> t_id t = gen d.2 -> NoDup (dependencies t) ->
  (forall x, x ∈ dependencies t -> is_Some (graph_get d.1 x)) ->
  Z.of_nat (length (dependencies t)) < 2 ^ 64 ->
  draft_ok ((graph_add d.1 t).1, S d.2) /\ extends d ((graph_add d.1 t).1, S d.2) t.
Proof.
  intros [Hs Hf] Hid Hn Hin Hl.
  assert (graph_get d.1 (t_id t) = None) as Hfresh by (rewrite Hid; by apply Hf).
  split; [split|split_and!]; cbn [fst snd].
  - by apply sound_plan_add.
  - intros k Hk. rewrite graph_get_add, bool_decide_eq_false_2; [apply Hf; lia|].
    rewrite Hid. intros He%gen_inj. lia.
  - done.
  - apply graph_iter_add; [apply Hs|done].
  - intros x y. by apply depends_add.
  - intros x. rewrite graph_get_add. case_bool_decide; [naive_solver|]. naive_solver.
Qed.

(** ** Pipelines *)

(** A pipeline rooted at [r] whose loose ends are among [S]: every task reaches
    the root, is reached from a loose end, and satisfies [Q]. *)
Record pipeline (Q : Task -> Prop) (r : TaskId) (S : list TaskId) (d : Draft) : Prop := {
  pl_draft : draft_ok d;
  pl_present : forall x, x ∈ S -> is_Some (graph_get d.1 x);
  pl_nodup : NoDup S;
  pl_nonempty : S <> [];
  pl_short : (length S <= 4)%nat;
  pl_root : forall x, is_Some (graph_get d.1 x) -> rtc (depends d.1) x r;
  pl_ends : forall x, is_Some (graph_get d.1 x) -> exists s, s ∈ S /\ rtc (depends d.1) s x;
  pl_all : Forall Q (graph_iter d.1);
}.

Lemma rtc_extends d d' t x y : extends d d' t -> rtc (depends d.1) x y -> rtc (depends d'.1) x y.
Proof.
  intros (_&_&Hd&_) Hr. induction Hr as [x|x y z Hs _ IH]; [reflexivity|].
  eapply rtc_l; [|exact IH]. apply Hd. by right.
Qed.

(** Adding a task after some loose ends; [S'] are the loose ends that remain. *)
Lemma pipeline_extend (Q : Task -> Prop) r S d t S' :
  pipeline Q r S d -> t_id t = gen d.2 -> Q t ->
  (forall x, x ∈ dependencies t -> is_Some (graph_get d.1 x)) ->
  NoDup (dependencies t) -> dependencies t <> [] ->
  (length (dependencies t) <= 4)%nat ->
  S' ⊆ S -> NoDup S' -> (length S' <= 3)%nat -> (forall x, x ∈ S -> x ∈ S' \/ x ∈ dependencies t) ->
  pipeline Q r (S' ++ [t_id t])%list ((graph_add d.1 t).1, Datatypes.S d.2).
Proof.
  intros [Hd Hp Hn He Hs Hr Hc Ha] Hid HQ Hin Hnd Hne Hlen HS' HnS' HlS' Hcover.
  destruct (add_task_ok d t Hd Hid Hnd) as [Hd' Hext]; [done|lia|].
  set (d' := ((graph_add d.1 t).1, Datatypes.S d.2)) in *.
  pose proof Hext as (_&Hiter&Hdep&Hget).
  assert (graph_get d.1 (t_id t) = None) as Hfresh by (rewrite Hid; by apply (do_fresh d Hd)).
  split; [done| | |by destruct S'|rewrite length_app; simpl; lia| | |].
  - intros x [Hx| ->%list_elem_of_singleton]%elem_of_app; apply Hget; [right|by left]. set_solver.
  - apply NoDup_app. split_and!; [done| |repeat constructor; set_solver].
    intros x Hx ->%list_elem_of_singleton. destruct (Hp (t_id t)); [set_solver|congruence].
  - intros x [->|Hx]%Hget.
    + destruct (dependencies t) as [|y l] eqn:E; [done|].
      eapply rtc_l; [apply Hdep; left; split; [done|by left]|].
      eapply rtc_extends; [exact Hext|]. apply Hr, Hin. set_solver.
    + eapply rtc_extends; [exact Hext|]. by apply Hr.
  - intros x [->|Hx]%Hget; [exists (t_id t); split; [set_solver|reflexivity]|].
    destruct (Hc x Hx) as (s&Hs1&Hs2). apply (rtc_extends d d' t) in Hs2; [|done].
    destruct (Hcover s Hs1) as [?|?]; [exists s; set_solver|].
    exists (t_id t). split; [set_solver|]. eapply rtc_l; [|exact Hs2]. apply Hdep. by left.
  - rewrite Hiter. apply Forall_app. split; [done|]. by repeat constructor.
Qed.

(** [push] as it is used: on a specification without dependencies of its own. *)
Definition pushed (d : Draft) (spec : TaskSpec) (after : list TaskId) : Task :=
  task_with_id (gen d.2) (spec_with_dependencies (sp_dependencies spec ++ after)%list spec).

Lemma push_eq d spec after :
  push gen d spec after =
    (((graph_add d.1 (pushed d spec after)).1, S d.2), gen d.2).
Proof. reflexivity. Qed.

(** After all loose ends: the new task is the only one left. *)
Lemma push_end (Q : Task -> Prop) r S d spec after :
  pipeline Q r S d -> sp_dependencies spec = [] -> Q (pushed d spec after) ->
  S ⊆ after -> (forall x, x ∈ after -> is_Some (graph_get d.1 x)) -> NoDup after -> (length after <= 4)%nat ->
  pipeline Q r [gen d.2] (push gen d spec after).1.
Proof.
  intros Hp Hs HQ Hsub Hin Hn Hl. rewrite push_eq. cbn [fst]. pose proof Hp as [? ? ? Hne ? ? ? ?].
  assert (dependencies (pushed d spec after) = after) as Hdep
    by (unfold pushed, dependencies; simpl; by rewrite Hs).
  apply (pipeline_extend Q r S d (pushed d spec after) []); rewrite ?Hdep; try done;
    [destruct S, after; set_solver|set_solver|constructor|simpl; lia|auto].
Qed.

Lemma push_last (Q : Task -> Prop) r S d spec :
  pipeline Q r S d -> sp_dependencies spec = [] -> Q (pushed d spec S) ->
  pipeline Q r [gen d.2] (push gen d spec S).1.
Proof. intros Hp Hs HQ. destruct Hp as [? ? ? ? ? ? ? ?]. by apply (push_end Q r S). Qed.

(** After one loose end, which stays one. *)
Lemma push_side (Q : Task -> Prop) r S d spec s :
  pipeline Q r S d -> s ∈ S -> (length S <= 3)%nat -> sp_dependencies spec = [] ->
  Q (pushed d spec [s]) -> pipeline Q r (S ++ [gen d.2])%list (push gen d spec [s]).1.
Proof.
  intros Hp Hin Hl Hs HQ. rewrite push_eq. cbn [fst]. pose proof (pl_nodup _ _ _ _ Hp).
  assert (dependencies (pushed d spec [s]) = [s]) as Hdep by (unfold pushed, dependencies; simpl; by rewrite Hs).
  apply (pipeline_extend Q r S d (pushed d spec [s]) S); rewrite ?Hdep; try done;
    [intros x ->%list_elem_of_singleton; by apply (pl_present _ _ _ _ Hp)
    |repeat constructor; set_solver|simpl; lia|auto].
Qed.

(** The first task of a plan. *)
Lemma pipeline_first (Q : Task -> Prop) n spec :
  sp_dependencies spec = [] -> Q (task_with_id (gen n) spec) ->
  pipeline Q (gen n) [gen n] (add_new gen spec (graph_new, n)).1.
Proof.
  intros Hs HQ. set (t := task_with_id (gen n) spec).
  assert (draft_ok (graph_new, n)) as H0.
  { split; [|done]. split; [apply wf_graph_new|by intros ? ? (?&?&_)|done|].
    intros x Htc. inversion Htc as [? ? (?&?&_)|? ? ? (?&?&_)]; done. }
  assert (dependencies t = []) as Ht by (unfold t, dependencies; simpl; by rewrite Hs).
  destruct (add_task_ok (graph_new, n) t H0) as [Hd (_&Hi&_&Hget)]; rewrite ?Ht;
    [done|constructor|set_solver|simpl; lia|].
  change (add_new gen spec (graph_new, n)).1 with ((graph_add graph_new t).1, S n).
  assert (forall x, is_Some (graph_get (graph_add graph_new t).1 x) <-> x = gen n) as Hx.
  { intros x. cbn [fst snd] in Hget. rewrite Hget. split; [intros [->|[? Hg]]; [done|discriminate Hg]|by left]. }
  split; [exact Hd| |repeat constructor; set_solver|done|simpl; lia| | |].
  - intros x ->%list_elem_of_singleton. by apply Hx.
  - intros x ->%Hx. reflexivity.
  - intros x ->%Hx. exists (gen n). split; [by left|reflexivity].
  - cbn [fst] in Hi |- *. rewrite Hi. by repeat constructor.
Qed.
End Drafts.

(** ** The heuristic planner *)

(** A goal that asks for no change of code. *)
Definition asks_read_only (s : GoalShape) : bool :=
  negb (changes_code s) && (is_investigation s || is_review s || is_documentation s).

(** Every planned task is yet to run, and a goal that asks for no change plans
    nothing riskier than [Low]. *)
Definition in_scope (s : GoalShape) (t : Task) : Prop :=
  t_status t = Pending /\ t_attempts t = [] /\ t_parent_id t = None /\
  (asks_read_only s = true -> sp_risk (t_spec t) = ReadOnly \/ sp_risk (t_spec t) = Low).

Section HeuristicPlans.
Context (gen : nat -> TaskId) (gen_inj : forall i j, gen i = gen j -> i = j).

Lemma push_keeps d spec after x t :
  fresh_from gen d.2 d.1 -> graph_get d.1 x = Some t -> graph_get (push gen d spec after).1.1 x = Some t.
Proof.
  intros Hf Hg. rewrite push_eq. cbn [fst]. rewrite graph_get_add, bool_decide_eq_false_2; [done|].
  intros ->. simpl in Hg. rewrite Hf in Hg; [done|lia].
Qed.

(** What the start of every plan guarantees. *)
Definition started (goal : string) (shape : GoalShape) (n : nat) (d : Draft) (S : list TaskId) : Prop :=
  pipeline gen (in_scope shape) (gen n) S d /\
  graph_get d.1 (gen n) = Some (task_with_id (gen n) (inspect_spec goal)).

Lemma started_side goal shape n d S spec :
  started goal shape n d S -> gen n ∈ S -> (length S <= 3)%nat -> sp_dependencies spec = [] ->
  in_scope shape (pushed gen d spec [gen n]) ->
  let '(d', id) := push gen d spec [gen n] in started goal shape n d' (S ++ [id])%list.
Proof.
  intros [Hp Hg] Hin Hl Hs HQ. split; cbn [fst snd].
  - exact (push_side gen gen_inj _ _ _ _ _ _ Hp Hin Hl Hs HQ).
  - apply (push_keeps d spec [gen n]); [apply (pl_draft _ _ _ _ _ Hp)|done].
Qed.

Lemma started_last goal shape n d S spec after :
  started goal shape n d S -> sp_dependencies spec = [] -> in_scope shape (pushed gen d spec after) ->
  S ⊆ after -> (forall x, x ∈ after -> is_Some (graph_get d.1 x)) -> NoDup after -> (length after <= 4)%nat ->
  let '(d', id) := push gen d spec after in
  started goal shape n d' [id] /\ id = gen d.2 /\
  forall x, is_Some (graph_get d.1 x) -> is_Some (graph_get d'.1 x).
Proof.
  intros [Hp Hg] Hs HQ Hsub Hin Hn Hl.
  assert (fresh_from gen d.2 d.1) as Hf by apply (pl_draft _ _ _ _ _ Hp).
  split; [split|split; [done|]]; cbn [fst snd].
  - exact (push_end gen gen_inj _ _ _ _ _ _ Hp Hs HQ Hsub Hin Hn Hl).
  - by apply (push_keeps d spec after).
  - intros x [t Ht]. exists t. by apply (push_keeps d spec after).
Qed.

Lemma prerequisites_started goal shape n :
  let '(d, pre) := plan_prerequisites gen goal shape n in
  started goal shape n d pre /\ (length pre <= 3)%nat.
Proof.
  unfold plan_prerequisites.
  assert (started goal shape n (add_new gen (inspect_spec goal) (graph_new, n)).1 [gen n]) as H0.
  { split; [apply (pipeline_first gen gen_inj); [done|]; split_and!; try done; by left|].
    cbn [add_new fst]. unfold graph_add, graph_get. simpl. by rewrite bool_decide_eq_true_2. }
  change (add_new gen (inspect_spec goal) (graph_new, n)) with
    ((add_new gen (inspect_spec goal) (graph_new, n)).1, gen n).
  set (d0 := (add_new gen (inspect_spec goal) (graph_new, n)).1) in *. clearbody d0. cbv beta iota.
  assert (let '(d, pre) := if needs_research shape
    then let '(d, research) := push gen d0 (requiring Research
      (spec_new ("Research what is needed to: " +:+ goal) TResearch)) [gen n] in (d, [gen n; research])
    else (d0, [gen n]) in
    started goal shape n d pre /\ gen n ∈ pre /\ (length pre <= 2)%nat) as H1.
  { destruct (needs_research shape); [|split_and!; [done|by left|simpl; lia]].
    pose proof (started_side goal shape n d0 [gen n] (requiring Research
      (spec_new ("Research what is needed to: " +:+ goal) TResearch)) H0) as Hs.
    destruct (push _ _ _ _) as [d r]. split_and!; [|by left|simpl; lia].
    apply Hs; [by left|simpl; lia|done|]. split_and!; try done. by left. }
  destruct (if needs_research shape then _ else _) as [d pre]. destruct H1 as (H1&Hin&Hl).
  destruct (is_design_heavy shape); [|split; [done|lia]].
  pose proof (started_side goal shape n d pre (with_complexity (f64_lit 85 100)
    (spec_new ("Design the approach for: " +:+ goal) Design)) H1 Hin) as Hs.
  destruct (push _ _ _ _) as [d' r]. split; [|rewrite length_app; simpl; lia].
  apply Hs; [lia|done|]. split_and!; try done. by left.
Qed.

(** The task just pushed. *)
Lemma push_new d spec after :
  graph_get (push gen d spec after).1.1 (gen d.2) = Some (pushed gen d spec after).
Proof. rewrite push_eq. cbn [fst]. by rewrite graph_get_add, bool_decide_eq_true_2. Qed.

(** One step at the end of the pipeline, after its loose ends [S]. *)
Lemma started_step goal shape n d S spec :
  started goal shape n d S -> sp_dependencies spec = [] -> in_scope shape (pushed gen d spec S) ->
  let '(d', id) := push gen d spec S in
  started goal shape n d' [id] /\ id = gen d.2 /\ graph_get d'.1 id = Some (pushed gen d spec S) /\
  forall x, is_Some (graph_get d.1 x) -> is_Some (graph_get d'.1 x).
Proof.
  intros Hst Hs HQ. pose proof Hst as [[Hd Hp Hn He Hl _ _ _] _].
  pose proof (started_last goal shape n d S spec S Hst Hs HQ) as H. pose proof (push_new d spec S) as Hnew.
  destruct (push gen d spec S) as [d' id]. destruct H as (H1&->&H3); try done.
Qed.

(** What a plan that changes code ends with. *)
Definition ends_in_review (d : Draft) (last : TaskId) : Prop :=
  exists r v, graph_get d.1 last = Some r /\ sp_task_type (t_spec r) = Review /\
    dependencies r = [t_id v] /\ graph_get d.1 (t_id v) = Some v /\ sp_task_type (t_spec v) = Validation.

Lemma change_started self goal shape n d S :
  started goal shape n d S -> asks_read_only shape = false ->
  exists last, started goal shape n (plan_change gen self goal shape d S) [last] /\
    (always_validate self = true -> ends_in_review (plan_change gen self goal shape d S) last).
Proof.
  intros Hst Hro. unfold plan_change.
  assert (forall t, t_status t = Pending -> t_attempts t = [] -> t_parent_id t = None -> in_scope shape t) as Hsc.
  { intros t ? ? ?. split_and!; try done. by rewrite Hro. }
  pose proof (started_step goal shape n d S (with_risk Medium (spec_new ("Implement: " +:+ goal)
    (if is_investigation shape then BugFix else Implementation))) Hst eq_refl ltac:(by apply Hsc)) as H1.
  destruct (push gen d _ S) as [d1 i]. destruct H1 as (H1&_&_&_).
  set (tests := with_risk Low (spec_new ("Write or update tests for: " +:+ goal) TTesting)).
  assert (let '(d2, deps) := if mentions_tests shape
    then let '(d, t) := push gen d1 tests [i] in (d, [i; t]) else (d1, [i]) in
    exists S2, started goal shape n d2 S2 /\ S2 ⊆ deps /\ NoDup deps /\ (length deps <= 4)%nat /\
      (forall x, x ∈ deps -> is_Some (graph_get d2.1 x)) /\ exists s, S2 = [s]) as H2.
  { destruct (mentions_tests shape).
    - pose proof (started_step goal shape n d1 [i] tests H1 eq_refl ltac:(by apply Hsc)) as H2.
      destruct (push gen d1 tests [i]) as [d2 t]. destruct H2 as (H2&->&_&Hkeep).
      pose proof (pl_present _ _ _ _ _ (proj1 H1) i ltac:(by left)) as Hi.
      exists [gen d1.2]. split_and!; [done|set_solver| |simpl; lia| |by eexists].
      + apply NoDup_cons. split; [|repeat constructor; set_solver].
        intros ->%list_elem_of_singleton. rewrite (do_fresh _ _ (pl_draft _ _ _ _ _ (proj1 H1))) in Hi by lia.
        by destruct Hi.
      + intros x [->| ->%list_elem_of_singleton]%elem_of_cons; [by apply Hkeep|].
        apply (pl_present _ _ _ _ _ (proj1 H2)). by left.
    - exists [i]. split_and!; [done|done|repeat constructor; set_solver|simpl; lia| |by eexists].
      apply (pl_present _ _ _ _ _ (proj1 H1)). }
  destruct (if mentions_tests shape then _ else _) as [d2 deps].
  destruct H2 as (S2&H2&Hsub&Hnd&Hlen&Hpres&s&->).
  destruct (always_validate self); [|by exists s].
  set (check := with_risk Low (requiring ShellExecution
    (spec_new "Run the project's tests and report failures" Validation))).
  pose proof (started_last goal shape n d2 [s] check deps H2 eq_refl ltac:(by apply Hsc) Hsub Hpres Hnd Hlen) as H3.
  pose proof (push_new d2 check deps) as Hv. destruct (push gen d2 check deps) as [d3 v].
  destruct H3 as (H3&->&_). cbn [fst] in Hv.
  set (review := with_risk ReadOnly (spec_new ("Review the changes made for: " +:+ goal) Review)).
  pose proof (started_step goal shape n d3 [gen d2.2] review H3 eq_refl ltac:(by apply Hsc)) as H4.
  pose proof (push_keeps d3 review [gen d2.2] _ _ (do_fresh _ _ (pl_draft _ _ _ _ _ (proj1 H3))) Hv) as Hv'.
  destruct (push gen d3 review [gen d2.2]) as [d4 r]. destruct H4 as (H4&_&Hr&_). cbn [fst] in *.
  exists r. split; [done|]. intros _. exists (pushed gen d3 review [gen d2.2]), (pushed gen d2 check deps).
  by split_and!.
Qed.
End HeuristicPlans.

Lemma heuristic_plan_started gen lower self goal ctx n :
  (forall i j, gen i = gen j -> i = j) -> trim goal <> "" ->
  let shape := shape_of lower (trim goal) in
  exists d last, heuristic_plan gen lower self goal ctx n = (d.2, checked d.1) /\
    started gen (trim goal) shape n d [last] /\
    (always_validate self = true -> read_only_spec (trim goal) shape = None -> ends_in_review d last).
Proof.
  intros Hinj Hg. unfold heuristic_plan. cbv zeta. rewrite bool_decide_eq_false_2 by done.
  set (goal' := trim goal). set (shape := shape_of lower goal').
  pose proof (prerequisites_started gen Hinj goal' shape n) as Hst.
  destruct (plan_prerequisites gen goal' shape n) as [d pre]. destruct Hst as [Hst _].
  set (d' := match read_only_spec goal' shape with Some _ => _ | None => _ end).
  exists d'. cut (exists last, started gen goal' shape n d' [last] /\
    (always_validate self = true -> read_only_spec goal' shape = None -> ends_in_review d' last)).
  { intros (last&?&?). by exists last. }
  unfold d'. unfold read_only_spec. destruct (changes_code shape) eqn:E1.
  - destruct (change_started gen Hinj self goal' shape n d pre Hst) as (last&?&?);
      [unfold asks_read_only; by rewrite E1|]. exists last. split; auto.
  - destruct (if is_investigation shape then _ else _) as [spec|] eqn:Es.
    + pose proof (started_step gen Hinj goal' shape n d pre spec Hst) as Hs.
      destruct (push gen d spec pre) as [d2 id]. exists id. split; [|done].
      apply Hs; [by repeat case_match; simplify_eq|].
      split_and!; try done. intros _. repeat case_match; simplify_eq; simpl; auto.
    + destruct (change_started gen Hinj self goal' shape n d pre Hst) as (last&?&?).
      { unfold asks_read_only. rewrite E1.
        by destruct (is_investigation shape), (is_review shape), (is_documentation shape). }
      exists last. split; auto.
Qed.

(** ** The model's plan *)

(** The tasks a list of accepted rows stands for; row [k] becomes the task with
    the [k]-th identifier drawn. *)
Definition row_task (gen : nat -> TaskId) (n k : nat) (row : TaskSpec * list nat) : Task :=
  task_with_id (gen (n + k)%nat)
    (spec_with_dependencies (map (fun i => gen (n + i)%nat) row.2) row.1).

Fixpoint tasks_of_rows (gen : nat -> TaskId) (n k : nat) (rows : list (TaskSpec * list nat)) : list Task :=
  match rows with
  | [] => []
  | row :: rows' => row_task gen n k row :: tasks_of_rows gen n (S k) rows'
  end.

(** What parsing guarantees of row [k]: it only depends on rows before it. *)
Definition row_ok (available : CapabilitySet) (k : nat) (row : TaskSpec * list nat) : Prop :=
  Forall (fun i => (i < k)%nat) row.2 /\ Z.of_nat (length row.2) < 2 ^ 64 /\
  (available = [] \/ sp_required row.1 ⊆ available).

Fixpoint rows_ok (available : CapabilitySet) (k : nat) (rows : list (TaskSpec * list nat)) : Prop :=
  match rows with
  | [] => True
  | row :: rows' => row_ok available k row /\ rows_ok available (S k) rows'
  end.

Lemma rows_ok_snoc available rows row k :
  rows_ok available k (rows ++ [row]) <-> rows_ok available k rows /\ row_ok available (k + length rows) row.
Proof.
  revert k. induction rows as [|r rows IH]; intros k; simpl; [rewrite Nat.add_0_r; tauto|].
  rewrite IH. replace (S k + length rows)%nat with (k + S (length rows))%nat by lia. tauto.
Qed.

Section ModelPlans.
Context (gen : nat -> TaskId) (gen_inj : forall i j, gen i = gen j -> i = j).
Context (alphanumeric : Z -> bool) (available : CapabilitySet).

Lemma length_omap {A B} (f : A -> option B) l : (length (omap f l) <= length l)%nat.
Proof. induction l as [|x l IH]; csimpl; [done|]. destruct (f x); csimpl; lia. Qed.

Lemma parse_dependencies_spec accepted field :
  Forall (fun i => (i < accepted)%nat) (parse_dependencies accepted field) /\
  (length (parse_dependencies accepted field) <= S (String.length field))%nat.
Proof.
  unfold parse_dependencies. case_bool_decide; [split; [constructor|simpl; lia]|]. split.
  - apply list.Forall_forall. intros i (d&_&Hd)%list_elem_of_omap.
    destruct (parse_unsigned U64_MAX (trim d)) as [m|]; [|done]. case_match; simplify_eq.
    destruct_bools. lia.
  - pose proof (length_split_char (of_byte 44) field). pose proof (length_omap (fun d =>
      match parse_unsigned U64_MAX (trim d) with
      | Some n => if (1 <=? n) && (n <=? Z.of_nat accepted) then Some (Z.to_nat n - 1)%nat else None
      | None => None end) (split_char (of_byte 44) field)). lia.
Qed.

Lemma length_clean_line line : (String.length (clean_line line) <= String.length line)%nat.
Proof.
  unfold clean_line. etrans; [apply length_trim|]. etrans; [apply length_trim_start_matches|].
  apply length_trim.
Qed.

Lemma parse_row_ok accepted line row :
  Z.of_nat (String.length line) < 2 ^ 63 ->
  parse_row alphanumeric available accepted line = Some row -> row_ok available accepted row.
Proof.
  intros Hl. unfold parse_row. case_match; [done|].
  pose proof (length_clean_line line) as Hc.
  destruct (map trim (splitn_char 3 (of_byte 124) (clean_line line))) as [|ty [|deps [|rest [|]]]] eqn:Es; try done.
  assert (String.length deps <= String.length (clean_line line))%nat as Hd.
  { assert (deps ∈ map trim (splitn_char 3 (of_byte 124) (clean_line line))) as Hin by (rewrite Es; right; left).
    apply list_elem_of_fmap in Hin as (q&->&Hq%splitn_char_pieces).
    pose proof (length_trim q). lia. }
  case_match; [done|]. case_match; [done|].
  destruct (parse_dependencies_spec accepted deps) as [Hp Hn].
  case_match eqn:Ec; [done|]. intros [= <-]. split_and!; cbn [fst snd]; [done|lia|].
  destruct available as [|c l]; [by left|]. right.
  cbn [andb] in Ec. destruct_bools. by apply match_complete.
Qed.

Lemma accepted_rows reply :
  Z.of_nat (String.length reply) < 2 ^ 63 ->
  rows_ok available 0 (fold_left (accept_row alphanumeric available) (lines reply) []).
Proof.
  intros Hl. apply (fold_left_inv _ (rows_ok available 0)); [|done].
  intros rows line Hin Hr. unfold accept_row. destruct (parse_row _ _ _ _) as [row|] eqn:E; [|done].
  apply rows_ok_snoc. split; [done|]. eapply parse_row_ok; [|exact E].
  apply lines_pieces in Hin. lia.
Qed.

(** The second loop: every row becomes its task, sound or not. *)
Definition rows_drafted (n : nat) (rows : list (TaskSpec * list nat)) (st : Draft * list TaskId) : Prop :=
  wf_graph st.1.1 /\ st.1.2 = (n + length rows)%nat /\ st.2 = map (fun i => gen (n + i)%nat) (seq 0 (length rows)) /\
  fresh_from gen st.1.2 st.1.1 /\ graph_iter st.1.1 = tasks_of_rows gen n 0 rows.

Lemma tasks_of_rows_snoc n k rows row :
  tasks_of_rows gen n k (rows ++ [row]) = (tasks_of_rows gen n k rows ++ [row_task gen n (k + length rows) row])%list.
Proof.
  revert k. induction rows as [|r rows IH]; intros k; simpl; [by rewrite Nat.add_0_r|].
  by rewrite IH, Nat.add_succ_r.
Qed.

Lemma add_row_task n rows row st :
  row_ok available (length rows) row -> rows_drafted n rows st ->
  add_row gen st row =
    (((graph_add st.1.1 (row_task gen n (length rows) row)).1, S st.1.2),
     (st.2 ++ [gen (n + length rows)%nat])%list).
Proof.
  destruct st as [d ids]. intros (Hi&_&_) (_&Hn&Hids&_). cbn [fst snd] in *. unfold add_row, row_task.
  assert (omap (fun i => ids !! i) row.2 = map (fun i => gen (n + i)%nat) row.2) as ->.
  { induction Hi as [|i l Hi _ IH]; csimpl; [done|].
    rewrite Hids, list_lookup_fmap, lookup_seq_lt by done. csimpl. rewrite <- Hids. by rewrite IH. }
  unfold add_new. rewrite Hn. reflexivity.
Qed.

Lemma add_row_drafted n rows row st :
  row_ok available (length rows) row -> rows_drafted n rows st ->
  rows_drafted n (rows ++ [row]) (add_row gen st row).
Proof.
  intros Hrow Hst. rewrite (add_row_task n rows row st Hrow Hst).
  destruct Hst as (W&Hn&Hids&Hf&Hiter). destruct Hrow as (_&Hl&_).
  assert (graph_get st.1.1 (t_id (row_task gen n (length rows) row)) = None) as Hfresh
    by (apply Hf; lia).
  unfold rows_drafted. cbn [fst snd]. rewrite length_app, seq_app, map_app, <- Hids.
  cbn [length seq map Nat.add]. split_and!.
  - apply wf_graph_add; [done|]. unfold row_task, dependencies. simpl. by rewrite length_map.
  - lia.
  - done.
  - intros k Hk. rewrite graph_get_add, bool_decide_eq_false_2; [apply Hf; lia|].
    simpl. intros He%gen_inj. lia.
  - rewrite graph_iter_add by done. by rewrite Hiter, tasks_of_rows_snoc.
Qed.

Lemma rows_run n rows :
  rows_ok available 0 rows -> rows_drafted n rows (fold_left (add_row gen) rows ((graph_new, n), [])).
Proof.
  induction rows as [|row rows IH] using rev_ind; intros Hok.
  - split_and!; simpl; [apply wf_graph_new|lia|done|done|done].
  - apply rows_ok_snoc in Hok as [Hok Hrow]. rewrite fold_left_app. simpl.
    by apply add_row_drafted; [|apply IH].
Qed.

(** Rows that list each dependency once give a sound plan. *)
Lemma rows_sound n rows :
  rows_ok available 0 rows -> Forall (fun row => NoDup row.2) rows ->
  sound_plan (fold_left (add_row gen) rows ((graph_new, n), [])).1.1.
Proof.
  induction rows as [|row rows IH] using rev_ind; intros Hok Hn.
  { split; [apply wf_graph_new|by intros ? ? (?&?&_)|done|].
    intros x Htc. inversion Htc as [? ? (?&?&_)|? ? ? (?&?&_)]; done. }
  apply rows_ok_snoc in Hok as [Hok Hrow]. apply Forall_app in Hn as [Hn Hr].
  apply Forall_cons_iff in Hr as [Hr _]. rewrite fold_left_app. cbn [fold_left].
  pose proof (rows_run n rows Hok) as Hd. set (st := fold_left _ rows _) in *.
  rewrite (add_row_task n rows row st Hrow Hd). cbn [fst].
  destruct Hd as (W&Hn'&_&Hf&Hiter). destruct Hrow as (Hi&Hl&_).
  apply sound_plan_add; [by apply IH|apply Hf; lia| | |].
  - unfold row_task, dependencies. simpl. intros x (i&->&Hin)%list_elem_of_fmap.
    rewrite list.Forall_forall in Hi. specialize (Hi i Hin). simpl in Hi.
    apply bt_get_Some_keys, (wf_order_keys _ W). rewrite <- (graph_iter_ids _ W), Hiter.
    clear -Hi. assert (forall k, (i < length rows)%nat ->
      gen (n + (k + i))%nat ∈ map t_id (tasks_of_rows gen n k rows)) as H.
    { revert i Hi. induction rows as [|r rows IH]; intros i Hi k Hlt; simpl in *; [lia|].
      destruct i as [|i]; [rewrite Nat.add_0_r; by left|right].
      replace (k + S i)%nat with (S k + i)%nat by lia. apply IH; lia. }
    by apply (H 0%nat).
  - unfold row_task, dependencies. simpl. apply NoDup_fmap_2; [|done].
    intros i j He%gen_inj. lia.
  - unfold row_task, dependencies. simpl. by rewrite length_map.
Qed.

Lemma elem_of_tasks_of_rows n k rows row :
  row ∈ rows -> exists j, row_task gen n j row ∈ tasks_of_rows gen n k rows.
Proof.
  revert k. induction rows as [|r rows IH]; intros k; simpl; [set_solver|].
  intros [->|Hin]%elem_of_cons; [exists k; by left|]. destruct (IH (S k) Hin) as [j Hj].
  exists j. by right.
Qed.
End ModelPlans.

(** ** Splitting a task *)

Section Replanning.
Context (gen : nat -> TaskId) (gen_inj : forall i j, gen i = gen j -> i = j) (lower : Z -> list Z).

(** The two halves of a task. *)
Definition half_one (n : nat) (failed : Task) : Task :=
  with_parent (t_id failed) (task_with_id (gen n)
    (half_spec (t_spec failed) (part_one (sp_description (t_spec failed))))).

Definition half_two (n : nat) (failed : Task) : Task :=
  with_parent (t_id failed) (task_with_id (gen (S n))
    (spec_with_dependencies [gen n] (half_spec (t_spec failed) (part_two (sp_description (t_spec failed)))))).

Definition split_graph (g : TaskGraph) (failed : Task) (n : nat) : TaskGraph :=
  (graph_add (graph_add (graph_update (with_status Skipped) (t_id failed) g) (half_one n failed)).1
    (half_two n failed)).1.

(** When the planner splits. *)
Definition splits (failed : Task) (reason : string) : Prop :=
  str_contains (to_lowercase lower reason) "context" = true /\ t_parent_id failed = None.

Lemma split_ok g failed n :
  sound_plan g -> fresh_from gen n g -> graph_get g (t_id failed) = Some failed ->
  draft_ok gen (split_graph g failed n, S (S n)) /\
  graph_iter (split_graph g failed n) =
    (graph_iter (graph_update (with_status Skipped) (t_id failed) g) ++ [half_one n failed; half_two n failed])%list.
Proof.
  intros Hs Hf Hg. set (g0 := graph_update (with_status Skipped) (t_id failed) g).
  assert (forall x, is_Some (graph_get g x) -> is_Some (graph_get g0 x)) as Hkeep.
  { intros x [t Ht]. unfold g0. rewrite graph_get_update, Ht. case_bool_decide; by eexists. }
  assert (draft_ok gen (g0, n)) as H0.
  { split; [by apply sound_plan_update|]. intros k Hk. cbn [fst]. unfold g0.
    rewrite graph_get_update. pose proof (Hf k Hk) as Hn. destruct (bool_decide _); by rewrite Hn. }
  destruct (add_task_ok gen gen_inj (g0, n) (half_one n failed) H0) as [H1 (_&I1&_&_)]; [done|..].
  { by apply (sp_repeats g Hs _ _ Hg). }
  { intros x Hx. apply Hkeep. apply (sp_dangling g Hs (t_id failed) x). by exists failed. }
  { apply (wf_small g (sp_wf g Hs) _ _ Hg). }
  set (g1 := (graph_add g0 (half_one n failed)).1) in *. cbn [fst snd] in *.
  destruct (add_task_ok gen gen_inj (g1, S n) (half_two n failed) H1) as [H2 (_&I2&_&_)]; [done|..].
  { repeat constructor. set_solver. }
  { intros x ->%list_elem_of_singleton. cbn [fst]. unfold g1. rewrite graph_get_add.
    rewrite bool_decide_eq_true_2 by done. by eexists. }
  { simpl. lia. }
  split; [exact H2|]. cbn [fst] in I2. unfold split_graph. fold g0 g1. fold g1 in I1. rewrite I2, I1.
  by rewrite <- app_assoc.
Qed.

Lemma replan_split g failed reason n :
  sound_plan g -> fresh_from gen n g -> graph_get g (t_id failed) = Some failed -> splits failed reason ->
  heuristic_replan gen lower g failed reason n = (S (S n), Some (Ok (Some (split_graph g failed n)))).
Proof.
  intros Hs Hf Hg [Hr Hp]. unfold heuristic_replan. rewrite Hr, Hp, Hg. cbn [negb].
  change (add_half gen (t_id failed) (half_spec (t_spec failed) (part_one (sp_description (t_spec failed))))
    (graph_update (with_status Skipped) (t_id failed) g, n)) with
    (((graph_add (graph_update (with_status Skipped) (t_id failed) g) (half_one n failed)).1, S n), gen n).
  cbv beta iota.
  change (add_half gen (t_id failed) (spec_with_dependencies [gen n] (half_spec (t_spec failed)
    (part_two (sp_description (t_spec failed))))) _) with
    ((split_graph g failed n, S (S n)), gen (S n)).
  cbv beta iota. cbn [fst snd]. rewrite checked_sound; [done|]. by apply split_ok.
Qed.

Lemma replan_declines g failed reason n :
  ~ splits failed reason -> heuristic_replan gen lower g failed reason n = (n, Some (Ok None)).
Proof.
  intros Hn. unfold heuristic_replan. destruct (str_contains _ _) eqn:E; [|done]. cbn [negb].
  destruct (t_parent_id failed) eqn:Ep; [done|]. by destruct Hn.
Qed.

Lemma splits_dec failed reason : splits failed reason \/ ~ splits failed reason.
Proof.
  unfold splits. destruct (str_contains _ _); [|right; by intros [? _]].
  destruct (t_parent_id failed); [right; by intros [_ ?]|by left].
Qed.
End Replanning.

(** ** The planners implement the port *)

Section Laws.
Context (gen : nat -> TaskId) (gen_inj : forall i j, gen i = gen j -> i = j).
Context (lower : Z -> list Z) (alphanumeric : Z -> bool).

Lemma untouched_of_scope shape l : Forall (in_scope shape) l -> Forall untouched l.
Proof. intros H. eapply list.Forall_impl; [exact H|]. by intros t (?&?&_). Qed.

Lemma heuristic_plan_laws self goal ctx n :
  (heuristic_plan gen lower self goal ctx n).2 <> None /\
  forall g, (heuristic_plan gen lower self goal ctx n).2 = Some (Ok g) ->
    planned gen n (heuristic_plan gen lower self goal ctx n).1 g.
Proof.
  destruct (decide (trim goal = "")) as [Hg|Hg].
  { unfold heuristic_plan. by rewrite bool_decide_eq_true_2. }
  destruct (heuristic_plan_started gen lower self goal ctx n gen_inj Hg) as (d&last&->&[Hp Hi]&_).
  destruct Hp as [Hd _ _ _ _ _ _ Ha]. cbn [fst snd]. rewrite checked_sound by apply Hd.
  split; [done|]. intros g [= <-]. split; [apply Hd|apply Hd| |by eapply untouched_of_scope].
  destruct (Nat.le_gt_cases n d.2); [done|]. rewrite (do_fresh _ _ Hd n) in Hi; [done|lia].
Qed.

(** Splitting revises the plan. *)
Lemma split_revises g failed n :
  fresh_from gen n g -> graph_get g (t_id failed) = Some failed -> revises g failed (split_graph gen g failed n).
Proof.
  intros Hf Hg. pose proof (Hf n (le_n n)) as F1. pose proof (Hf (S n) (le_S _ _ (le_n n))) as F2.
  split; intros id; unfold split_graph; rewrite !graph_get_add, graph_get_update; cbn [t_id half_one half_two].
  - intros t. case_bool_decide as H2; [|case_bool_decide as H1; [|case_bool_decide as H0]].
    + intros [= <-]. right. right. subst id. by split.
    + intros [= <-]. right. right. subst id. by split.
    + subst id. rewrite Hg. intros [= <-]. right. by left.
    + by left.
  - intros [t Ht]. rewrite Ht. repeat case_bool_decide; by eexists.
Qed.

Lemma heuristic_replan_laws g failed reason n :
  sound_plan g -> fresh_from gen n g -> graph_get g (t_id failed) = Some failed ->
  (heuristic_replan gen lower g failed reason n).2 <> None /\
  (n <= (heuristic_replan gen lower g failed reason n).1)%nat /\
  forall g', (heuristic_replan gen lower g failed reason n).2 = Some (Ok (Some g')) ->
    sound_plan g' /\ fresh_from gen (heuristic_replan gen lower g failed reason n).1 g' /\
    revises g failed g'.
Proof.
  intros Hs Hf Hg. destruct (splits_dec lower failed reason) as [Hsp|Hsp].
  - rewrite (replan_split gen gen_inj lower g failed reason n Hs Hf Hg Hsp). cbn [fst snd].
    split_and!; [done|lia|]. intros g' [= <-]. destruct (split_ok gen gen_inj g failed n Hs Hf Hg) as [Hd _].
    split_and!; [apply Hd|apply Hd|by apply split_revises].
  - by rewrite (replan_declines gen lower g failed reason n Hsp).
Qed.

#[export] Instance HeuristicPlanner_laws self :
  PlannerLaws gen (H := HeuristicPlanner_Planner gen lower) self.
Proof.
  split; intros; by eapply heuristic_plan_laws || by eapply heuristic_replan_laws.
Qed.

(** A provider's reply is a [String]: never longer than [isize::MAX]. *)
Definition replies_bounded (self : LlmPlanner) : Prop :=
  forall s p r, complete self s p = Ok r -> Z.of_nat (String.length r) < 2 ^ 63.

(** What [parse_plan] makes of the rows it accepted. *)
Lemma parse_plan_rows reply available n :
  Z.of_nat (String.length reply) < 2 ^ 63 ->
  let rows := fold_left (accept_row alphanumeric available) (lines reply) [] in
  rows_ok available 0 rows /\
  if decide ((2 <= length rows)%nat /\ Forall (fun row => NoDup row.2) rows) then
    exists g, parse_plan gen alphanumeric reply available n = ((n + length rows)%nat, Some (Some g)) /\
      sound_plan g /\ fresh_from gen (n + length rows) g /\ graph_iter g = tasks_of_rows gen n 0 rows
  else (parse_plan gen alphanumeric reply available n).2 = Some None.
Proof.
  intros Hl. cbv zeta. pose proof (accepted_rows alphanumeric available reply Hl) as Hok.
  unfold parse_plan. set (rows := fold_left _ (lines reply) []) in *. split; [done|].
  pose proof (rows_run gen gen_inj available n rows Hok) as Hd.
  pose proof (rows_sound gen gen_inj available n rows Hok) as Hsound.
  destruct (fold_left (add_row gen) rows _) as [d ids]. destruct Hd as (W&Hn&_&Hf&Hiter). cbn [fst snd] in *.
  destruct (Nat.ltb_spec (length rows) 2) as [Hlen|Hlen].
  { rewrite decide_False; [done|]. intros [? _]. lia. }
  case_decide as Hnd.
  - pose proof (Hsound (proj2 Hnd)) as Hs. exists d.1. rewrite checked_sound by done. rewrite <- Hn. by split_and!.
  - cbn [snd]. unfold checked. destruct (validate_total d.1 W) as [[u|e] Hv]; rewrite Hv; [|done].
    exfalso. apply Hnd. split; [done|]. destruct u. apply list.Forall_forall. intros row Hrow.
    destruct (elem_of_tasks_of_rows gen gen_inj n 0 rows row Hrow) as [j Hj]. rewrite <- Hiter in Hj.
    apply (elem_of_graph_iter d.1 W) in Hj.
    pose proof (sp_repeats _ (validates_sound_plan d.1 W Hv) _ _ Hj) as Hnn.
    unfold row_task, dependencies in Hnn. simpl in Hnn. by apply NoDup_fmap_1 in Hnn.
Qed.

Lemma tasks_of_rows_untouched n k rows : Forall untouched (tasks_of_rows gen n k rows).
Proof. revert k. induction rows as [|row rows IH]; intros k; constructor; [by split|apply IH]. Qed.

Lemma parse_plan_laws reply available n :
  Z.of_nat (String.length reply) < 2 ^ 63 ->
  exists n', (n <= n')%nat /\
    (parse_plan gen alphanumeric reply available n = (n', Some None) \/
     exists g, parse_plan gen alphanumeric reply available n = (n', Some (Some g)) /\ planned gen n n' g).
Proof.
  intros Hl. pose proof (parse_plan_rows reply available n Hl) as [Hok H]. cbv zeta in H.
  assert (n <= (parse_plan gen alphanumeric reply available n).1)%nat as Hle.
  { unfold parse_plan. destruct (Nat.ltb _ 2); [done|].
    pose proof (rows_run gen gen_inj available n _ Hok) as Hd.
    destruct (fold_left (add_row gen) _ _) as [d ids]. destruct Hd as (_&Hn&_). cbn [fst snd] in *. lia. }
  exists (parse_plan gen alphanumeric reply available n).1. split; [done|].
  case_decide.
  - destruct H as (g&He&Hs&Hf&Hi). rewrite He in *. cbn [fst] in *. right. exists g. split; [done|].
    split; [done|done|done|]. rewrite Hi. apply tasks_of_rows_untouched.
  - left. by destruct (parse_plan gen alphanumeric reply available n); simpl in *; subst.
Qed.

Lemma llm_plan_laws self goal ctx n :
  replies_bounded self ->
  (llm_plan gen lower alphanumeric self goal ctx n).2 <> None /\
  forall g, (llm_plan gen lower alphanumeric self goal ctx n).2 = Some (Ok g) ->
    planned gen n (llm_plan gen lower alphanumeric self goal ctx n).1 g.
Proof.
  intros Hb. unfold llm_plan. case_bool_decide; [done|].
  destruct (complete self SYSTEM_PROMPT _) as [reply|e] eqn:Ec; [|apply heuristic_plan_laws].
  destruct (parse_plan_laws reply (pc_available ctx) n (Hb _ _ _ Ec)) as (n'&Hle&[->|(g&->&Hs)]).
  - destruct (heuristic_plan_laws heuristic_new (trim goal) ctx n') as [H1 H2]. split; [done|].
    intros g Hg. destruct (H2 g Hg) as [? ? ? ?]. split; [done|done|lia|done].
  - cbn [fst snd]. split; [done|]. by intros g' [= <-].
Qed.

#[export] Instance LlmPlanner_laws self :
  replies_bounded self -> PlannerLaws gen (H := LlmPlanner_Planner gen lower alphanumeric) self.
Proof.
  intros Hb. split; intros; by eapply llm_plan_laws || by eapply heuristic_replan_laws.
Qed.
End Laws.

(** ** Properties *)

(** Whatever the goal, the heuristic planner answers with a plan that passes
    validation and can start: it begins with the inspection of the repository,
    every other task waits for it and leads to one final task, no task has run,
    and a goal that asks for no change of code plans nothing riskier than a
    documentation edit, while a goal that does ends in a review of a validation
    run.  Only a blank goal is refused. *)
Theorem heuristic_plan_pipeline gen lower self goal ctx n :
  (forall i j, gen i = gen j -> i = j) ->
  if bool_decide (trim goal = "") then heuristic_plan gen lower self goal ctx n = (n, Some (Err empty_goal))
  else exists n' g last,
    heuristic_plan gen lower self goal ctx n = (n', Some (Ok g)) /\ sound_plan g /\ fresh_from gen n' g /\
    graph_get g (gen n) = Some (task_with_id (gen n) (inspect_spec (trim goal))) /\
    (forall x, is_Some (graph_get g x) -> rtc (depends g) x (gen n) /\ rtc (depends g) last x) /\
    Forall (in_scope (shape_of lower (trim goal))) (graph_iter g) /\
    (always_validate self = true -> read_only_spec (trim goal) (shape_of lower (trim goal)) = None ->
     ends_in_review (g, n') last).
Proof.
  intros Hinj. case_bool_decide as Hg; [unfold heuristic_plan; by rewrite bool_decide_eq_true_2|].
  destruct (heuristic_plan_started gen lower self goal ctx n Hinj Hg) as (d&last&He&[Hp Hi]&Hend).
  pose proof Hp as [Hd _ _ _ _ Hr Hc Ha]. exists d.2, d.1, last.
  rewrite He, checked_sound by apply Hd. destruct d as [g n']. cbn [fst snd] in *.
  split_and!; [done|apply Hd|apply Hd|done| |done|done].
  intros x Hx. split; [by apply Hr|]. destruct (Hc x Hx) as (s&->%list_elem_of_singleton&?). done.
Qed.

(** C31: a model's reply becomes a plan exactly when it has at least two usable
    rows and no row repeats a dependency.  The plan then is sound, has one task
    per accepted row in order, each depending only on earlier rows, and nothing
    in it needs a capability that is not available; any other reply is rejected
    as a whole, for the heuristics to take over.  No reply, however malformed,
    makes the planner diverge or hand over an invalid graph. *)
Theorem parse_plan_exact gen alphanumeric reply available n :
  (forall i j, gen i = gen j -> i = j) -> Z.of_nat (String.length reply) < 2 ^ 63 ->
  let rows := fold_left (accept_row alphanumeric available) (lines reply) [] in
  if decide ((2 <= length rows)%nat /\ Forall (fun row => NoDup row.2) rows) then
    exists g, parse_plan gen alphanumeric reply available n = ((n + length rows)%nat, Some (Some g)) /\
      sound_plan g /\ graph_iter g = tasks_of_rows gen n 0 rows /\ rows_ok available 0 rows
  else (parse_plan gen alphanumeric reply available n).2 = Some None.
Proof.
  intros Hinj Hl. cbv zeta. pose proof (parse_plan_rows gen Hinj alphanumeric reply available n Hl) as [Hok H].
  cbv zeta in H. case_decide; [|done]. destruct H as (g&?&?&_&?). by exists g.
Qed.

(** Re-planning splits a task that overflowed its context into two halves
    chained one after the other, and nothing else: the failed task is skipped,
    the revised plan is sound, every other task keeps its row, and neither half
    can be split again, so re-planning cannot recurse.  Any other failure, and a
    task that is already a half, is declined. *)
Theorem replan_splits_once gen lower g failed reason n :
  (forall i j, gen i = gen j -> i = j) ->
  sound_plan g -> fresh_from gen n g -> graph_get g (t_id failed) = Some failed ->
  if str_contains (to_lowercase lower reason) "context" && bool_decide (t_parent_id failed = None) then
    exists g', heuristic_replan gen lower g failed reason n = (S (S n), Some (Ok (Some g'))) /\ sound_plan g' /\
      graph_iter g' = (graph_iter (graph_update (with_status Skipped) (t_id failed) g)
                       ++ [half_one gen n failed; half_two gen n failed])%list /\
      dependencies (half_one gen n failed) = dependencies failed /\
      dependencies (half_two gen n failed) = [t_id (half_one gen n failed)] /\
      forall half reason' g'' k, half = half_one gen n failed \/ half = half_two gen n failed ->
        heuristic_replan gen lower g'' half reason' k = (k, Some (Ok None))
  else heuristic_replan gen lower g failed reason n = (n, Some (Ok None)).
Proof.
  intros Hinj Hs Hf Hg. destruct (_ && _) eqn:E.
  - apply andb_true_iff in E as [E1 E2]. apply bool_decide_eq_true in E2.
    exists (split_graph gen g failed n). destruct (split_ok gen Hinj g failed n Hs Hf Hg) as [Hd Hi].
    rewrite (replan_split gen Hinj lower g failed reason n Hs Hf Hg) by (by split).
    split_and!; [done|apply Hd|done|done|done|].
    intros half reason' g'' k [->| ->]; apply replan_declines; intros [_ Hp]; discriminate Hp.
  - apply replan_declines. intros [H1 H2]. rewrite H1, H2 in E. discriminate E.
Qed.

(** ** Witnesses: identifiers are numbers, text is ASCII *)

Definition sample_gen (n : nat) : TaskId := "t" +:+ pretty n.

Lemma sample_gen_inj i j : sample_gen i = sample_gen j -> i = j.
Proof. intros H. injection H. apply (inj pretty). Qed.

Definition ascii_lower_only (c : Z) : list Z := [c].
Definition no_unicode (c : Z) : bool := false.

Definition sample_context : PlanningContext :=
  {| pc_workspace := "."; pc_available := []; pc_memories := []; pc_hints := [] |}.

Lemma heuristic_plan_pipeline_witness :
  exists n' g last, heuristic_plan sample_gen ascii_lower_only heuristic_new "Fix the login bug" sample_context 0
    = (n', Some (Ok g)) /\ sound_plan g /\ ends_in_review (g, n') last.
Proof.
  pose proof (heuristic_plan_pipeline sample_gen ascii_lower_only heuristic_new "Fix the login bug"
    sample_context 0 sample_gen_inj) as H.
  rewrite bool_decide_eq_false_2 in H by (vm_compute; discriminate).
  destruct H as (n'&g&last&H1&H2&_&_&_&_&H7). exists n', g, last. split; [exact H1|split; [exact H2|]].
  apply H7; [reflexivity|]. vm_compute. reflexivity.
Defined.

Definition sample_reply : string := "inspection | - | Look around" +:+ NL +:+ "implementation | 1 | Fix it".

Lemma parse_plan_exact_witness :
  exists g, parse_plan sample_gen no_unicode sample_reply [] 0 = (2%nat, Some (Some g)) /\ sound_plan g.
Proof.
  pose proof (parse_plan_exact sample_gen no_unicode sample_reply [] 0 sample_gen_inj) as H.
  cbv zeta in H. specialize (H ltac:(vm_compute; reflexivity)).
  set (rows := fold_left _ (lines sample_reply) []) in H.
  assert (length rows = 2%nat) as Hlen by (vm_compute; reflexivity).
  assert (map snd rows = [[]; [0%nat]]) as Hdeps by (vm_compute; reflexivity).
  destruct (decide _) as [_|Hn].
  - destruct H as (g&H1&H2&_). exists g. rewrite Hlen in H1. split; [exact H1|exact H2].
  - exfalso. apply Hn. split; [lia|]. rewrite <- Forall_map, Hdeps.
    constructor; [constructor|]. constructor; [|constructor].
    constructor; [apply not_elem_of_nil|constructor].
Defined.

(** Listing a dependency twice discards the whole plan. *)
Example repeated_dependency_discards :
  (parse_plan sample_gen no_unicode
    ("inspection | - | Look around" +:+ NL +:+ "implementation | 1,1 | Fix it") [] 0).2 = Some None.
Proof. vm_compute. reflexivity. Qed.

(** A skipped row shifts the numbering: the third line meant the second. *)
Example skipped_row_shifts :
  (fun g => map (fun t => (sp_description (t_spec t), dependencies t)) (graph_iter g)) <$>
    default None (parse_plan sample_gen no_unicode
      ("prose" +:+ NL +:+ "inspection | - | Look" +:+ NL +:+ "design | 2 | Think" +:+ NL
       +:+ "implementation | 2 | Do") [] 0).2
  = Some [("Look", []); ("Think", []); ("Do", ["t1"])].
Proof. vm_compute. reflexivity. Qed.

Definition lone_task : Task := task_with_id "lone" (spec_new "Edit everything" Implementation).
Definition lone_graph : TaskGraph := (graph_add graph_new lone_task).1.

Lemma lone_graph_sound : sound_plan lone_graph.
Proof.
  apply validates_sound_plan; [|vm_compute; reflexivity]. apply wf_graphb_sound. vm_compute. reflexivity.
Qed.

Lemma replan_splits_once_witness :
  exists g', heuristic_replan sample_gen ascii_lower_only lone_graph lone_task "Context window exceeded" 0
    = (2%nat, Some (Ok (Some g'))) /\ sound_plan g'.
Proof.
  pose proof (replan_splits_once sample_gen ascii_lower_only lone_graph lone_task "Context window exceeded" 0
    sample_gen_inj lone_graph_sound) as H.
  assert (str_contains (to_lowercase ascii_lower_only "Context window exceeded") "context" = true) as Hc
    by (vm_compute; reflexivity).
  rewrite Hc in H.
  destruct H as (g'&H1&H2&_).
  - intros k _. unfold lone_graph. rewrite graph_get_add, bool_decide_eq_false_2; [reflexivity|].
    intros Hk. discriminate Hk.
  - reflexivity.
  - exists g'. split; [exact H1|exact H2].
Defined.
