(* ===== verification/Context.v ===== *)
(** * Context assembly ([cuma-orchestrator/src/context.rs])

    The prompt an agent receives: the handoff, recalled memories, the task, the
    results of its completed prerequisites and its earlier failures, in that
    order, cut to the token budget; with the theorems that say what is in it
    and how far the budget binds. *)

From S2P Require Export Ports.
From stdpp Require Import pretty.
Open Scope string_scope.
Open Scope Z_scope.

Definition CHARS_PER_TOKEN : Z := 4.

Record MinimalContextManager := {
  mc_memories : list MemoryEntry;
  max_dependency_chars : Z;
}.

(** [MinimalContextManager::new]. *)
Definition context_new : MinimalContextManager :=
  {| mc_memories := []; max_dependency_chars := 2000 |}.

(** [MinimalContextManager::with_memories]. *)
Definition with_memories (memories : list MemoryEntry) (m : MinimalContextManager)
  : MinimalContextManager :=
  {| mc_memories := memories; max_dependency_chars := max_dependency_chars m |}.

Definition omitted (n : Z) : string :=
  NL +:+ "[... truncated, " +:+ pretty n +:+ " chars omitted]".

(** [MinimalContextManager::truncate]. *)
Definition truncate (text : string) (max_chars : Z) : string :=
  let count := Z.of_nat (length (chars text)) in
  if count <=? max_chars then text
  else of_chars (take (Z.to_nat max_chars) (chars text)) +:+ omitted (count - max_chars).

(** [MinimalContextManager::estimate_tokens]. *)
Definition estimate_tokens (text : string) : Z := Z.of_nat (String.length text) / CHARS_PER_TOKEN.

(** [assemble]'s [dependency_outputs]: descriptions and outputs. *)
Definition dependency_outputs (task : Task) (graph : TaskGraph) : list (string * string) :=
  omap (fun dep => (fun outcome => (sp_description (t_spec dep), oc_output outcome))
                     <$> successful_outcome dep)
    (omap (graph_get graph) (dependencies task)).

(** [assemble]'s [failures]. *)
Definition failure_reasons (task : Task) : list string :=
  omap oc_failure_reason (List.filter (fun a => negb (oc_success a)) (t_attempts task)).

Definition push_memories (memories : list MemoryEntry) (prompt : string) : string :=
  match memories with
  | [] => prompt
  | _ => fold_left (fun p m => p +:+ ("- (" +:+ me_kind m +:+ ") " +:+ me_content m +:+ NL)) memories
           (prompt +:+ ("## Prior knowledge about this project" +:+ NL +:+ NL)) +:+ NL
  end.

Definition push_outputs (max_chars : Z) (outputs : list (string * string)) (prompt : string) : string :=
  match outputs with
  | [] => prompt
  | _ => fold_left (fun p o => ((p +:+ ("### " +:+ o.1 +:+ NL)) +:+ truncate o.2 max_chars)
                                 +:+ (NL +:+ NL)) outputs
           (prompt +:+ ("## Results of prerequisite work" +:+ NL +:+ NL))
  end.

Definition push_failures (failures : list string) (prompt : string) : string :=
  match failures with
  | [] => prompt
  | _ => fold_left (fun p reason => p +:+ ("- " +:+ reason +:+ NL)) failures
           (prompt +:+ ("## Previous attempts on this task failed" +:+ NL +:+ NL)) +:+ NL
  end.

(** The prompt before the budget is enforced. *)
Definition full_prompt (m : MinimalContextManager) (task : Task) (graph : TaskGraph)
    (handoff : option AgentHandoff) : string :=
  let prompt := match handoff with Some h => to_prompt h +:+ NL | None => "" end in
  let prompt := push_memories (mc_memories m) prompt in
  let prompt := prompt +:+ ("## Task" +:+ NL +:+ NL) in
  let prompt := prompt +:+ sp_description (t_spec task) in
  let prompt := prompt +:+ (NL +:+ NL) in
  let prompt := push_outputs (max_dependency_chars m) (dependency_outputs task graph) prompt in
  push_failures (failure_reasons task) prompt.

(** Its budget in bytes: [token_budget as usize] times [CHARS_PER_TOKEN]. *)
Definition budget_chars (token_budget : Z) : Z := sat64 (token_budget * CHARS_PER_TOKEN).

(** [ContextManager::assemble]. *)
Definition minimal_assemble (m : MinimalContextManager) (task : Task) (graph : TaskGraph)
    (handoff : option AgentHandoff) (token_budget : Z) : Result string :=
  let prompt := full_prompt m task graph handoff in
  Ok (if (0 <? budget_chars token_budget)
         && (budget_chars token_budget <? Z.of_nat (String.length prompt))
      then truncate prompt (budget_chars token_budget) else prompt).

#[export] Instance MinimalContextManager_ContextManager : ContextManager MinimalContextManager :=
  {| assemble := minimal_assemble |}.

(** ** Truncation *)

(** A cut text is a prefix of the text followed by the notice. *)
Lemma truncate_cases text max :
  0 <= max ->
  truncate text max = text \/
  exists kept rest n, text = kept +:+ rest /\ truncate text max = kept +:+ omitted n /\ 0 < n /\
    max <= Z.of_nat (String.length kept) <= 4 * max.
Proof.
  intros Hm. unfold truncate. destruct (_ <=? max) eqn:E; [by left|right]. apply Z.leb_gt in E.
  exists (of_chars (take (Z.to_nat max) (chars text))), (of_chars (drop (Z.to_nat max) (chars text))).
  eexists. split_and!.
  - rewrite <- of_chars_app, take_drop. by rewrite of_chars_chars.
  - reflexivity.
  - lia.
  - pose proof (length_of_chars (take (Z.to_nat max) (chars text))) as H.
    rewrite length_take_le in H by lia. lia.
  - pose proof (length_of_chars (take (Z.to_nat max) (chars text))) as H.
    rewrite length_take_le in H by lia. lia.
Qed.

(** ** The sections of a prompt *)

Lemma fold_append {A} (f : A -> string) l p :
  fold_left (fun p x => p +:+ f x) l p = p +:+ str_concat (map f l).
Proof.
  revert p. induction l as [|x l IH]; intros p; simpl; [by rewrite str_app_nil_r|].
  rewrite IH. by rewrite str_app_assoc.
Qed.

Definition memory_lines (memories : list MemoryEntry) : list string :=
  match memories with
  | [] => []
  | _ => ["## Prior knowledge about this project" +:+ NL +:+ NL] ++
         map (fun m => "- (" +:+ me_kind m +:+ ") " +:+ me_content m +:+ NL) memories ++ [NL]
  end.

Definition output_lines (max_chars : Z) (outputs : list (string * string)) : list string :=
  match outputs with
  | [] => []
  | _ => ["## Results of prerequisite work" +:+ NL +:+ NL] ++
         map (fun o => ("### " +:+ o.1 +:+ NL) +:+ truncate o.2 max_chars +:+ NL +:+ NL) outputs
  end.

Definition failure_lines (failures : list string) : list string :=
  match failures with
  | [] => []
  | _ => ["## Previous attempts on this task failed" +:+ NL +:+ NL] ++
         map (fun reason => "- " +:+ reason +:+ NL) failures ++ [NL]
  end.

Lemma push_memories_concat l p : push_memories l p = p +:+ str_concat (memory_lines l).
Proof.
  unfold push_memories, memory_lines. destruct l as [|x l]; [by rewrite str_app_nil_r|].
  rewrite fold_append, !str_concat_app. set (q := x :: l). clearbody q.
  cbn [str_concat fold_right]. by rewrite !str_app_nil_r, !str_app_assoc.
Qed.

Lemma push_outputs_concat n l p : push_outputs n l p = p +:+ str_concat (output_lines n l).
Proof.
  unfold push_outputs, output_lines. destruct l as [|x l]; [by rewrite str_app_nil_r|].
  rewrite str_concat_app. set (q := x :: l). clearbody q.
  transitivity (fold_left (fun p o => p +:+ (("### " +:+ o.1 +:+ NL) +:+ truncate o.2 n +:+ NL +:+ NL)) q
    (p +:+ ("## Results of prerequisite work" +:+ NL +:+ NL))).
  - generalize (p +:+ ("## Results of prerequisite work" +:+ NL +:+ NL)).
    induction q as [|o q IH]; intros r; [done|]. simpl. rewrite IH. by rewrite !str_app_assoc.
  - rewrite fold_append. cbn [str_concat fold_right]. by rewrite !str_app_nil_r, !str_app_assoc.
Qed.

Lemma push_failures_concat l p : push_failures l p = p +:+ str_concat (failure_lines l).
Proof.
  unfold push_failures, failure_lines. destruct l as [|x l]; [by rewrite str_app_nil_r|].
  rewrite fold_append, !str_concat_app. set (q := x :: l). clearbody q.
  cbn [str_concat fold_right]. by rewrite !str_app_nil_r, !str_app_assoc.
Qed.

Definition prompt_lines (m : MinimalContextManager) (task : Task) (graph : TaskGraph)
    (handoff : option AgentHandoff) : list string :=
  match handoff with Some h => [to_prompt h; NL] | None => [] end ++
  memory_lines (mc_memories m) ++
  ["## Task" +:+ NL +:+ NL; sp_description (t_spec task); NL +:+ NL] ++
  output_lines (max_dependency_chars m) (dependency_outputs task graph) ++
  failure_lines (failure_reasons task).

Lemma full_prompt_concat m task graph handoff :
  full_prompt m task graph handoff = str_concat (prompt_lines m task graph handoff).
Proof.
  unfold full_prompt, prompt_lines.
  rewrite push_failures_concat, push_outputs_concat, push_memories_concat, !str_concat_app.
  set (x := str_concat (memory_lines _)). set (y := str_concat (output_lines _ _)).
  set (z := str_concat (failure_lines _)). clearbody x y z.
  destruct handoff; cbn [str_concat fold_right]; by rewrite !str_app_nil_r, !str_app_assoc.
Qed.

Lemma elem_of_dependency_outputs task graph d o :
  (d, o) ∈ dependency_outputs task graph <->
  exists id dep out, id ∈ dependencies task /\ graph_get graph id = Some dep /\
    successful_outcome dep = Some out /\ d = sp_description (t_spec dep) /\ o = oc_output out.
Proof.
  unfold dependency_outputs. rewrite list_elem_of_omap. split.
  - intros (dep&Hin&He). apply list_elem_of_omap in Hin as (id&Hid&Hg).
    apply fmap_Some in He as (out&Ho&[= -> ->]). by exists id, dep, out.
  - intros (id&dep&out&Hid&Hg&Ho&->&->). exists dep. split; [|by rewrite Ho].
    apply list_elem_of_omap. by exists id.
Qed.

Lemma elem_of_failure_reasons task reason :
  reason ∈ failure_reasons task <->
  exists a, a ∈ t_attempts task /\ oc_success a = false /\ oc_failure_reason a = Some reason.
Proof.
  unfold failure_reasons. rewrite list_elem_of_omap. split.
  - intros (a&Hin&He). apply list_elem_of_In, filter_In in Hin as [Hin Hs%negb_true_iff].
    exists a. by rewrite list_elem_of_In.
  - intros (a&Hin&Hs&He). exists a. split; [|done].
    apply list_elem_of_In, filter_In. rewrite Hs. by rewrite <- list_elem_of_In.
Qed.

Lemma append_split a b c d :
  a +:+ b = c +:+ d -> (String.length a <= String.length c)%nat -> exists e, c = a +:+ e.
Proof.
  revert c. induction a as [|x a IH]; intros c He Hl; [by exists c|].
  destruct c as [|y c]; simpl in Hl; [lia|].
  change (String x (a +:+ b) = String y (c +:+ d)) in He. injection He as -> He.
  destruct (IH c He) as [e ->]; [lia|]. by exists e.
Qed.

(** A prompt holds what its task needs and nothing else: the handoff first,
    recalled memories, the task, the output of every prerequisite that
    succeeded and of no other task, and the reasons this task failed before;
    within the budget nothing is dropped. *)
Theorem assemble_minimal m task graph handoff budget :
  let full := str_concat (prompt_lines m task graph handoff) in
  (budget_chars budget = 0 \/ Z.of_nat (String.length full) <= budget_chars budget ->
   assemble m task graph handoff budget = Ok full) /\
  (forall d o, (d, o) ∈ dependency_outputs task graph <->
     exists id dep out, id ∈ dependencies task /\ graph_get graph id = Some dep /\
       successful_outcome dep = Some out /\ d = sp_description (t_spec dep) /\ o = oc_output out) /\
  (forall reason, reason ∈ failure_reasons task <->
     exists a, a ∈ t_attempts task /\ oc_success a = false /\ oc_failure_reason a = Some reason).
Proof.
  cbv zeta. split_and!; [|apply elem_of_dependency_outputs|apply elem_of_failure_reasons].
  rewrite <- full_prompt_concat. intros Hb. cbn [assemble MinimalContextManager_ContextManager].
  unfold minimal_assemble. destruct Hb as [->|Hb]; [done|].
  apply Z.ltb_ge in Hb. rewrite Hb. by rewrite andb_false_r.
Qed.

(** An over-budget prompt is cut rather than refused: what is kept is a
    prefix of the whole followed by a notice of the number of characters
    omitted, and a handoff that fits the budget is never lost.  The budget is
    in characters where the prompt is measured in bytes, so what is kept may
    take up to four times as many bytes. *)
Theorem assemble_budget m task graph handoff budget :
  0 < budget_chars budget ->
  let full := full_prompt m task graph handoff in
  exists prompt, assemble m task graph handoff budget = Ok prompt /\
    (prompt = full \/
     budget_chars budget < Z.of_nat (String.length full) /\
     exists kept rest n, full = kept +:+ rest /\ prompt = kept +:+ omitted n /\ 0 < n /\
       budget_chars budget <= Z.of_nat (String.length kept) <= 4 * budget_chars budget) /\
    (forall h, handoff = Some h -> Z.of_nat (String.length (to_prompt h)) <= budget_chars budget ->
       exists rest, prompt = to_prompt h +:+ rest).
Proof.
  intros Hb full. cbn [assemble MinimalContextManager_ContextManager]. unfold minimal_assemble. fold full.
  assert (forall h, handoff = Some h -> exists rest, full = to_prompt h +:+ rest) as Hh.
  { intros h ->. subst full. rewrite full_prompt_concat. unfold prompt_lines.
    rewrite str_concat_app. cbn [str_concat fold_right]. rewrite str_app_assoc. by eexists. }
  apply Z.ltb_lt in Hb as Hb'. rewrite Hb'. cbn [andb].
  destruct (budget_chars budget <? _) eqn:E.
  2: { exists full. split_and!; [done|by left|]. eauto. }
  apply Z.ltb_lt in E. eexists. split; [done|].
  destruct (truncate_cases full (budget_chars budget)) as [->|(kept&rest&n&He&->&Hn&Hk)]; [lia| |].
  - split; [by left|]. eauto.
  - split; [right; split; [done|]; by exists kept, rest, n|]. intros h Hs Hl.
    destruct (Hh h Hs) as [rest' He']. rewrite He in He'. symmetry in He'.
    apply append_split in He' as [e ->]; [|lia]. exists (e +:+ omitted n). by rewrite str_app_assoc.
Qed.

Lemma assemble_budget_witness :
  let task := task_with_id "t" (spec_new "Fix src/a.rs" BugFix) in
  exists prompt, assemble context_new task graph_new None 1 = Ok prompt /\
    String.length prompt = 38%nat.
Proof.
  intros task.
  destruct (assemble_budget context_new task graph_new None 1 eq_refl) as (prompt&He&_&_).
  exists prompt. split; [exact He|].
  assert (assemble context_new task graph_new None 1
    = Ok ("## T" +:+ omitted 19)) as Hc by (vm_compute; reflexivity).
  rewrite Hc in He. injection He as <-. vm_compute. reflexivity.
Defined.
