(* ===== verification/Session.v ===== *)
(** * The state of a session ([cuma-orchestrator/src/executor.rs])

    What an [Orchestrator] owns and every task of a session shares, and the
    effects the execution loop is written with: reading the clock, drawing
    identifiers, publishing events, calling the recorder and the memory. *)

From S2P Require Export Ports Context Planner RouterFacts Ownership Retry Usage Registry Event.
Open Scope string_scope.
Open Scope Z_scope.

(** What a session reports. *)
Record SessionResult := {
  sr_session_id : SessionId;
  sr_graph : TaskGraph;
  sr_success : bool;
  sr_usage : UsageTotals;
  sr_spent_usd : f64;
  sr_summary : string;
}.

(** Calls made to the session recorder ([recorder.rs]). *)
Inductive Recorded : Type :=
  | RecSessionStarted (goal : string)
  | RecRoutingDecided (task : TaskId) (d : RoutingDecision)
  | RecAttempt (r : UsageRecord)
  | RecHealthChanged (agent : AgentId) (h : HealthState) (error : option string)
  | RecSessionFinished (r : SessionResult).

(** The orchestrator's shared state.  [sh_attempts], [sh_task_ids], [sh_reads]
    and [sh_recalls] count the attempt identifiers and task identifiers drawn,
    the readings of the wall clock and the calls to the memory. *)
Record SessionState := {
  sh_agents : AgentRegistry;
  sh_models : ModelRegistry;
  sh_breakers : Breakers;
  sh_usage : UsageTracker;
  sh_history : RoutingHistory;
  sh_ledger : OwnershipLedger;
  sh_events : list Event;
  sh_recorded : list Recorded;
  sh_remembered : list (string * string);
  sh_handoffs : list AgentHandoff;
  sh_attempts : nat;
  sh_task_ids : nat;
  sh_reads : nat;
  sh_recalls : nat;
}.

Definition put_agents (v : AgentRegistry) (s : SessionState) : SessionState :=
  {| sh_agents := v; sh_models := sh_models s; sh_breakers := sh_breakers s;
     sh_usage := sh_usage s; sh_history := sh_history s; sh_ledger := sh_ledger s;
     sh_events := sh_events s; sh_recorded := sh_recorded s;
     sh_remembered := sh_remembered s; sh_handoffs := sh_handoffs s;
     sh_attempts := sh_attempts s; sh_task_ids := sh_task_ids s; sh_reads := sh_reads s;
     sh_recalls := sh_recalls s |}.

Definition put_models (v : ModelRegistry) (s : SessionState) : SessionState :=
  {| sh_agents := sh_agents s; sh_models := v; sh_breakers := sh_breakers s;
     sh_usage := sh_usage s; sh_history := sh_history s; sh_ledger := sh_ledger s;
     sh_events := sh_events s; sh_recorded := sh_recorded s;
     sh_remembered := sh_remembered s; sh_handoffs := sh_handoffs s;
     sh_attempts := sh_attempts s; sh_task_ids := sh_task_ids s; sh_reads := sh_reads s;
     sh_recalls := sh_recalls s |}.

Definition put_breakers (v : Breakers) (s : SessionState) : SessionState :=
  {| sh_agents := sh_agents s; sh_models := sh_models s; sh_breakers := v;
     sh_usage := sh_usage s; sh_history := sh_history s; sh_ledger := sh_ledger s;
     sh_events := sh_events s; sh_recorded := sh_recorded s;
     sh_remembered := sh_remembered s; sh_handoffs := sh_handoffs s;
     sh_attempts := sh_attempts s; sh_task_ids := sh_task_ids s; sh_reads := sh_reads s;
     sh_recalls := sh_recalls s |}.

Definition put_usage (v : UsageTracker) (s : SessionState) : SessionState :=
  {| sh_agents := sh_agents s; sh_models := sh_models s; sh_breakers := sh_breakers s;
     sh_usage := v; sh_history := sh_history s; sh_ledger := sh_ledger s;
     sh_events := sh_events s; sh_recorded := sh_recorded s;
     sh_remembered := sh_remembered s; sh_handoffs := sh_handoffs s;
     sh_attempts := sh_attempts s; sh_task_ids := sh_task_ids s; sh_reads := sh_reads s;
     sh_recalls := sh_recalls s |}.

Definition put_history (v : RoutingHistory) (s : SessionState) : SessionState :=
  {| sh_agents := sh_agents s; sh_models := sh_models s; sh_breakers := sh_breakers s;
     sh_usage := sh_usage s; sh_history := v; sh_ledger := sh_ledger s;
     sh_events := sh_events s; sh_recorded := sh_recorded s;
     sh_remembered := sh_remembered s; sh_handoffs := sh_handoffs s;
     sh_attempts := sh_attempts s; sh_task_ids := sh_task_ids s; sh_reads := sh_reads s;
     sh_recalls := sh_recalls s |}.

Definition put_ledger (v : OwnershipLedger) (s : SessionState) : SessionState :=
  {| sh_agents := sh_agents s; sh_models := sh_models s; sh_breakers := sh_breakers s;
     sh_usage := sh_usage s; sh_history := sh_history s; sh_ledger := v;
     sh_events := sh_events s; sh_recorded := sh_recorded s;
     sh_remembered := sh_remembered s; sh_handoffs := sh_handoffs s;
     sh_attempts := sh_attempts s; sh_task_ids := sh_task_ids s; sh_reads := sh_reads s;
     sh_recalls := sh_recalls s |}.

Definition put_events (v : list Event) (s : SessionState) : SessionState :=
  {| sh_agents := sh_agents s; sh_models := sh_models s; sh_breakers := sh_breakers s;
     sh_usage := sh_usage s; sh_history := sh_history s; sh_ledger := sh_ledger s;
     sh_events := v; sh_recorded := sh_recorded s; sh_remembered := sh_remembered s;
     sh_handoffs := sh_handoffs s; sh_attempts := sh_attempts s;
     sh_task_ids := sh_task_ids s; sh_reads := sh_reads s; sh_recalls := sh_recalls s |}.

Definition put_recorded (v : list Recorded) (s : SessionState) : SessionState :=
  {| sh_agents := sh_agents s; sh_models := sh_models s; sh_breakers := sh_breakers s;
     sh_usage := sh_usage s; sh_history := sh_history s; sh_ledger := sh_ledger s;
     sh_events := sh_events s; sh_recorded := v; sh_remembered := sh_remembered s;
     sh_handoffs := sh_handoffs s; sh_attempts := sh_attempts s;
     sh_task_ids := sh_task_ids s; sh_reads := sh_reads s; sh_recalls := sh_recalls s |}.

Definition put_remembered (v : list (string * string)) (s : SessionState) : SessionState :=
  {| sh_agents := sh_agents s; sh_models := sh_models s; sh_breakers := sh_breakers s;
     sh_usage := sh_usage s; sh_history := sh_history s; sh_ledger := sh_ledger s;
     sh_events := sh_events s; sh_recorded := sh_recorded s; sh_remembered := v;
     sh_handoffs := sh_handoffs s; sh_attempts := sh_attempts s;
     sh_task_ids := sh_task_ids s; sh_reads := sh_reads s; sh_recalls := sh_recalls s |}.

Definition put_handoffs (v : list AgentHandoff) (s : SessionState) : SessionState :=
  {| sh_agents := sh_agents s; sh_models := sh_models s; sh_breakers := sh_breakers s;
     sh_usage := sh_usage s; sh_history := sh_history s; sh_ledger := sh_ledger s;
     sh_events := sh_events s; sh_recorded := sh_recorded s;
     sh_remembered := sh_remembered s; sh_handoffs := v; sh_attempts := sh_attempts s;
     sh_task_ids := sh_task_ids s; sh_reads := sh_reads s; sh_recalls := sh_recalls s |}.

Definition put_attempts (v : nat) (s : SessionState) : SessionState :=
  {| sh_agents := sh_agents s; sh_models := sh_models s; sh_breakers := sh_breakers s;
     sh_usage := sh_usage s; sh_history := sh_history s; sh_ledger := sh_ledger s;
     sh_events := sh_events s; sh_recorded := sh_recorded s;
     sh_remembered := sh_remembered s; sh_handoffs := sh_handoffs s; sh_attempts := v;
     sh_task_ids := sh_task_ids s; sh_reads := sh_reads s; sh_recalls := sh_recalls s |}.

Definition put_task_ids (v : nat) (s : SessionState) : SessionState :=
  {| sh_agents := sh_agents s; sh_models := sh_models s; sh_breakers := sh_breakers s;
     sh_usage := sh_usage s; sh_history := sh_history s; sh_ledger := sh_ledger s;
     sh_events := sh_events s; sh_recorded := sh_recorded s;
     sh_remembered := sh_remembered s; sh_handoffs := sh_handoffs s;
     sh_attempts := sh_attempts s; sh_task_ids := v; sh_reads := sh_reads s;
     sh_recalls := sh_recalls s |}.

Definition put_reads (v : nat) (s : SessionState) : SessionState :=
  {| sh_agents := sh_agents s; sh_models := sh_models s; sh_breakers := sh_breakers s;
     sh_usage := sh_usage s; sh_history := sh_history s; sh_ledger := sh_ledger s;
     sh_events := sh_events s; sh_recorded := sh_recorded s;
     sh_remembered := sh_remembered s; sh_handoffs := sh_handoffs s;
     sh_attempts := sh_attempts s; sh_task_ids := sh_task_ids s; sh_reads := v;
     sh_recalls := sh_recalls s |}.

Definition put_recalls (v : nat) (s : SessionState) : SessionState :=
  {| sh_agents := sh_agents s; sh_models := sh_models s; sh_breakers := sh_breakers s;
     sh_usage := sh_usage s; sh_history := sh_history s; sh_ledger := sh_ledger s;
     sh_events := sh_events s; sh_recorded := sh_recorded s;
     sh_remembered := sh_remembered s; sh_handoffs := sh_handoffs s;
     sh_attempts := sh_attempts s; sh_task_ids := sh_task_ids s; sh_reads := sh_reads s;
     sh_recalls := v |}.

(** ** Effects *)

(** A computation on the shared state. *)
Definition M (A : Type) : Type := SessionState -> SessionState * A.

Definition ret {A} (x : A) : M A := fun s => (s, x).
Definition bind {A B} (m : M A) (k : A -> M B) : M B := fun s => let '(s, x) := m s in k x s.
Definition gets {A} (f : SessionState -> A) : M A := fun s => (s, f s).
Definition modify (f : SessionState -> SessionState) : M unit := fun s => (f s, tt).

Notation "'let!' x := m 'in' k" := (bind m (fun x => k))
  (at level 10, x pattern, m at level 100, k at level 200) : cuma_scope.
Notation "'do!' m 'in' k" := (bind m (fun _ => k))
  (at level 10, m at level 100, k at level 200) : cuma_scope.

Fixpoint for_all {A} (f : A -> M unit) (l : list A) : M unit :=
  match l with [] => ret tt | x :: l' => do! f x in for_all f l' end.

Section Effects.
Context (wall : nat -> Z) (session : SessionId).

(** [chrono::Utc::now()]. *)
Definition now : M Z := fun s => (put_reads (S (sh_reads s)) s, wall (sh_reads s)).

(** [self.events.publish(Event::task(..))]. *)
Definition publish_event (e : Z -> Event) : M unit :=
  let! at_ := now in modify (fun s => put_events (sh_events s ++ [e at_])%list s).

Definition publish (task : TaskId) (k : EventKind) : M unit :=
  publish_event (fun at_ => event_task at_ session task k).

Definition publish_attempt (task : TaskId) (attempt : AttemptId) (k : EventKind) : M unit :=
  publish_event (fun at_ => with_attempt attempt (event_task at_ session task k)).

Definition publish_session (k : EventKind) : M unit :=
  publish_event (fun at_ => event_session at_ session k).
End Effects.

(** A call to the recorder. *)
Definition tell (r : Recorded) : M unit :=
  modify (fun s => put_recorded (sh_recorded s ++ [r])%list s).
