(* ===== verification/AttemptFacts.v ===== *)
(** * Running one task: its row follows the life cycle, and it ends *)

From S2P Require Export Attempt PlannerFacts.
Open Scope string_scope.
Open Scope Z_scope.

(** ** Computations that leave the plan's resources alone *)

(** Claims and task identifiers are as before. *)
Definition frame (s s' : SessionState) : Prop :=
  sh_ledger s' = sh_ledger s /\ sh_task_ids s' = sh_task_ids s.

(** From any state, [m] keeps the frame and returns a value in [Q]. *)
Definition runs {A} (m : M A) (Q : A -> Prop) : Prop := forall s, frame s (m s).1 /\ Q (m s).2.

Lemma frame_refl s : frame s s.
Proof. done. Qed.

Lemma runs_ret {A} (x : A) (Q : A -> Prop) : Q x -> runs (ret x) Q.
Proof. intros H s. by split. Qed.

Lemma runs_bind {A B} (m : M A) (k : A -> M B) (R : A -> Prop) (Q : B -> Prop) :
  runs m R -> (forall x, R x -> runs (k x) Q) -> runs (bind m k) Q.
Proof.
  intros Hm Hk s. unfold bind. destruct (m s) as [s1 x] eqn:E.
  pose proof (Hm s) as [[F1 F2] Hx]. rewrite E in F1, F2, Hx. cbn [fst snd] in *.
  destruct (Hk x Hx s1) as [[G1 G2] HQ]. split; [|done]. split; congruence.
Qed.

(** A computation run for its effects. *)
Abbreviation framed m := (runs m (fun _ => True)).

Lemma framed_then {A B} (m : M A) (k : A -> M B) (Q : B -> Prop) :
  framed m -> (forall x, runs (k x) Q) -> runs (bind m k) Q.
Proof. intros Hm Hk. eapply runs_bind; eauto. Qed.

Lemma framed_modify f : (forall s, frame s (f s)) -> framed (modify f).
Proof. intros H s. split; [apply H|done]. Qed.

Lemma framed_gets {A} (f : SessionState -> A) : framed (gets f).
Proof. by intros s. Qed.

Lemma framed_for_all {A} (f : A -> M unit) l : (forall x, framed (f x)) -> framed (for_all f l).
Proof.
  intros Hf. induction l as [|x l IH]; [by apply runs_ret|]. simpl. by apply framed_then.
Qed.

Lemma framed_if {A} (b : bool) (m m' : M A) Q :
  runs m Q -> runs m' Q -> runs (if b then m else m') Q.
Proof. by destruct b. Qed.

Create HintDb framed discriminated.
#[export] Hint Resolve framed_gets : framed.
#[export] Hint Extern 1 (runs (modify _) _) => (apply framed_modify; intros; split; reflexivity) : framed.
#[export] Hint Extern 1 (runs (ret _) (fun _ => True)) => (apply runs_ret; exact I) : framed.

(** Prove that a computation run for its effects keeps the frame. *)
Ltac framed :=
  repeat first
    [ progress auto with framed nocore
    | apply framed_then; [|intros ?]
    | apply framed_for_all; intros ?
    | case_match ].

Lemma framed_now wall : framed (now wall).
Proof. intros s. by repeat split. Qed.
#[export] Hint Resolve framed_now : framed.

Lemma framed_publish wall session t k : framed (publish wall session t k).
Proof. unfold publish, publish_event. framed. Qed.

Lemma framed_publish_attempt wall session t a k : framed (publish_attempt wall session t a k).
Proof. unfold publish_attempt, publish_event. framed. Qed.

Lemma framed_tell r : framed (tell r).
Proof. unfold tell. framed. Qed.
#[export] Hint Resolve framed_publish framed_publish_attempt framed_tell : framed.

(** ** The life of a task's row *)

Definition failed_attempts (t : Task) : Prop := Forall (fun o => oc_success o = false) (t_attempts t).

(** What the row of the running task satisfies in each phase; [N] is the
    attempt budget. *)
Definition row_inv (N : Z) (phase : Phase) (t : Task) : Prop :=
  match phase with
  | Preparing => is_waiting (t_status t) = true /\ t_attempts t = []
  | Selecting =>
      is_terminal (t_status t) = false /\ failed_attempts t /\ attempt_count t <= N
  | Waiting p =>
      t_status t = Running /\ failed_attempts t /\ attempt_count t < N /\
      t_spec (p_task p) = t_spec t /\ t_attempts (p_task p) = t_attempts t
  | Settling outcome =>
      attempt_count t <= N /\
      match outcome with
      | Ok true => t_status t = Completed /\ exists os o, t_attempts t = (os ++ [o])%list /\
          Forall (fun o => oc_success o = false) os /\ oc_success o = true
      | Ok false => t_status t = Failed /\ failed_attempts t
      | Err _ => is_terminal (t_status t) = false /\ failed_attempts t
      end
  | Finished outcome =>
      attempt_count t <= N /\
      match outcome with
      | Ok true => t_status t = Completed /\ exists os o, t_attempts t = (os ++ [o])%list /\
          Forall (fun o => oc_success o = false) os /\ oc_success o = true
      | Ok false => t_status t = Failed
      | Err _ => is_terminal (t_status t) = false /\ failed_attempts t
      end
  | Diverging => False
  end.

(** The other rows are those of the graph the run started from. *)
Definition others_kept (g0 g : TaskGraph) (id : TaskId) : Prop :=
  forall x, x <> id -> graph_get g x = graph_get g0 x.

(** The other rows are kept or new. *)
Definition others_extended (g0 g : TaskGraph) (id : TaskId) : Prop :=
  forall x, x <> id -> graph_get g x = graph_get g0 x \/
    (graph_get g0 x = None /\ exists t, graph_get g x = Some t /\ untouched t).

(** The row of a run that replaced its plan: skipped, or failed when its work
    could not be applied. *)
Definition retired (phase : Phase) (st : TaskStatus) : Prop :=
  match phase with
  | Settling (Ok true) | Finished (Ok true) => st = Skipped
  | Finished (Ok false) => st = Failed
  | _ => False
  end.

(** The planner hands over a revised plan at least once. *)
Definition revises_plans {P : Type} `{Planner P} (p : P) : Prop :=
  exists g failed reason n g', (replan p g failed reason n).2 = Some (Ok (Some g')).

(** A run is on course, or has replaced its graph by a revised plan; [V] tells
    whether the planner ever revises one. *)
Inductive progress (V : Prop) (N : Z) (g0 : TaskGraph) (r : Run) : Prop :=
  | on_course t0 t :
      graph_get g0 (r_id r) = Some t0 -> graph_get (r_graph r) (r_id r) = Some t ->
      t_spec t = t_spec t0 -> others_kept g0 (r_graph r) (r_id r) -> row_inv N (r_phase r) t ->
      progress V N g0 r
  | replaced t0 t :
      V ->
      graph_get g0 (r_id r) = Some t0 -> graph_get (r_graph r) (r_id r) = Some t ->
      t_spec t = t_spec t0 -> others_extended g0 (r_graph r) (r_id r) ->
      failed_attempts t -> attempt_count t <= N ->
      retired (r_phase r) (t_status t) ->
      progress V N g0 r.

Record run_ok (gen : nat -> TaskId) (V : Prop) (N : Z) (n : nat) (g0 : TaskGraph) (r : Run) : Prop := {
  ro_sound : sound_plan (r_graph r);
  ro_fresh : fresh_from gen n (r_graph r);
  ro_progress : progress V N g0 r;
}.

(** Steps left to a run: two per attempt left, and a few around them. *)
Definition attempts_made (r : Run) : nat :=
  match graph_get (r_graph r) (r_id r) with Some t => length (t_attempts t) | None => 0 end.

Definition steps_left (N : Z) (r : Run) : nat :=
  let left := (Z.to_nat N - attempts_made r)%nat in
  match r_phase r with
  | Preparing => 2 * Z.to_nat N + 3
  | Selecting => 2 * left + 2
  | Waiting _ => 2 * left + 1
  | Settling _ => 1
  | Finished _ | Diverging => 0
  end.

(** Writes to the running task's own row. *)
Lemma get_own f id g t : graph_get g id = Some t -> graph_get (graph_update f id g) id = Some (f t).
Proof. intros Hg. by rewrite graph_get_update, bool_decide_eq_true_2, Hg. Qed.

Lemma kept_update f id g0 g : others_kept g0 g id -> others_kept g0 (graph_update f id g) id.
Proof. intros H x Hx. rewrite graph_get_update, bool_decide_eq_false_2 by done. by apply H. Qed.

Lemma extended_update f id g0 g : others_extended g0 g id -> others_extended g0 (graph_update f id g) id.
Proof. intros H x Hx. rewrite graph_get_update, bool_decide_eq_false_2 by done. by apply H. Qed.

Lemma fresh_update gen n f id g : fresh_from gen n g -> fresh_from gen n (graph_update f id g).
Proof.
  intros H k Hk. rewrite graph_get_update, (H k Hk). by destruct (bool_decide _).
Qed.

Lemma fresh_mono gen n n' g : (n <= n')%nat -> fresh_from gen n g -> fresh_from gen n' g.
Proof. intros Hn H k Hk. apply H. lia. Qed.

(** A function on rows that keeps identity and specification. *)
Definition keeps_spec (f : Task -> Task) : Prop := forall t, t_id (f t) = t_id t /\ t_spec (f t) = t_spec t.

Lemma sound_keeps f id g : keeps_spec f -> sound_plan g -> sound_plan (graph_update f id g).
Proof.
  intros Hf. apply sound_plan_update; intros t; [apply Hf|]. unfold dependencies.
  by rewrite (proj2 (Hf t)).
Qed.

Lemma keeps_status st : keeps_spec (with_status st).
Proof. done. Qed.

Lemma keeps_push o : keeps_spec (push_attempt o).
Proof. done. Qed.

Lemma keeps_artifacts l : keeps_spec (fun t => fold_left add_artifact l t).
Proof.
  intros t. revert t. induction l as [|p l IH]; intros t; [done|]. simpl.
  destruct (IH (add_artifact t p)) as [-> ->]. unfold add_artifact. by destruct (contains _ _).
Qed.

Lemma artifacts_row l t :
  let t' := fold_left add_artifact l t in t_status t' = t_status t /\ t_attempts t' = t_attempts t.
Proof.
  revert t. induction l as [|p l IH]; intros t; [done|]. simpl.
  destruct (IH (add_artifact t p)) as [-> ->]. unfold add_artifact. by destruct (contains _ _).
Qed.

(** An update of the own row that meets the next phase's invariant keeps a run
    on course. *)
Lemma run_ok_update gen V N n g0 r f phase r' :
  run_ok gen V N n g0 r -> keeps_spec f ->
  r_id r' = r_id r -> r_graph r' = graph_update f (r_id r) (r_graph r) -> r_phase r' = phase ->
  others_kept g0 (r_graph r) (r_id r) ->
  (forall t, graph_get (r_graph r) (r_id r) = Some t -> row_inv N phase (f t)) ->
  run_ok gen V N n g0 r'.
Proof.
  intros [Hs Hf Hp] Hk Hid Hg Hph Ho Hrow.
  assert (exists t0 t, graph_get g0 (r_id r) = Some t0 /\ graph_get (r_graph r) (r_id r) = Some t /\
    t_spec t = t_spec t0) as (t0&t&H0&Ht&Hsp) by (destruct Hp; eauto 10).
  split.
  - rewrite Hg. by apply sound_keeps.
  - rewrite Hg. by apply fresh_update.
  - apply (on_course V N g0 r' t0 (f t)).
    + by rewrite Hid.
    + rewrite Hid, Hg. by apply get_own.
    + by rewrite (proj2 (Hk t)).
    + rewrite Hid, Hg. by apply kept_update.
    + rewrite Hph. by apply Hrow.
Qed.

(** ** The steps *)

Definition is_open (p : Phase) : bool :=
  match p with Preparing | Selecting | Waiting _ => true | _ => false end.

Lemma open_course V N g0 r :
  progress V N g0 r -> is_open (r_phase r) = true ->
  exists t0 t, graph_get g0 (r_id r) = Some t0 /\ graph_get (r_graph r) (r_id r) = Some t /\
    t_spec t = t_spec t0 /\ others_kept g0 (r_graph r) (r_id r) /\ row_inv N (r_phase r) t.
Proof.
  intros [t0 t ? ? ? ? ?|t0 t ? ? ? ? ? ? ? Hr] Ho; [by exists t0, t|by destruct (r_phase r)].
Qed.

(** What a step may not touch: the identity of the run and its worktree. *)
Definition same_run (r r' : Run) : Prop := r_id r' = r_id r /\ r_worktree r' = r_worktree r.

Lemma same_run_trans r1 r2 r3 : same_run r1 r2 -> same_run r2 r3 -> same_run r1 r3.
Proof. intros [] []. split; congruence. Qed.

Lemma at_phase_same p r : r_phase r = p -> at_phase p r = r.
Proof. by destruct r; simpl; intros <-. Qed.

Section Steps.
Context (wall clock : nat -> Z) (attempt_id : nat -> AttemptId) (elapsed : nat -> Z) (rng : nat -> Rng).
Context {C : Type} `{!ContextManager C} {P : Type} `{!Planner P}.
Context (config : Config) (workspace : string) (planner : P) (context_manager : C).
Context (adapters : btree AgentId AgentAdapter) (memory : option MemoryStore).
Context (guidance : option (CapabilitySet -> list SkillGuide)) (git : Git) (session : SessionId).
Context (gen : nat -> TaskId) `{!PlannerLaws gen planner}.

Local Abbreviation V := (revises_plans planner).

Local Abbreviation N := (max_attempts (retry_policy config)).
Local Abbreviation emit := (emit wall session).
Local Abbreviation prepare := (prepare config workspace memory git).
Local Abbreviation select := (select wall clock attempt_id elapsed config context_manager adapters
  memory guidance session).
Local Abbreviation react := (react wall clock rng config planner memory session).
Local Abbreviation settle := (settle wall git session).
Local Abbreviation step := (run_step wall clock attempt_id elapsed rng config workspace planner
  context_manager adapters memory guidance git session).

Lemma budget_bounds : 1 <= N <= U32_MAX.
Proof.
  unfold retry_policy, with_max_attempts. cbn [max_attempts]. unfold wrap32, U32_MAX.
  pose proof (Z.mod_pos_bound (Z.max (max_retries (limits config)) 1 + 1) (2 ^ 32)). lia.
Qed.

Lemma framed_emit r k : framed (emit r k).
Proof. apply framed_publish. Qed.
Local Hint Resolve framed_emit : framed.

Lemma framed_route t l : framed (route_task clock config t l).
Proof.
  intros s. unfold route_task. by destruct (route _ _ _ _ _).
Qed.
Local Hint Resolve framed_route : framed.

Lemma framed_breakers {A} (f : Z -> CircuitBreakerRegistry -> CircuitBreakerRegistry * A) :
  framed (on_breakers clock f).
Proof. intros s. unfold on_breakers. by destruct (f _ _). Qed.
Local Hint Resolve framed_breakers : framed.

Lemma framed_recall t : framed (recall_for_task config memory t).
Proof. unfold recall_for_task. framed. Qed.

Lemma framed_record p tokens cost ok class n :
  framed (record_attempt wall session p tokens cost ok class n).
Proof. unfold record_attempt. framed. Qed.

Lemma framed_remember t a : framed (remember_success memory t a).
Proof. unfold remember_success. framed. Qed.

Lemma framed_note p class reason r : framed (note_failure wall clock session p class reason r).
Proof. unfold note_failure. framed. Qed.
Local Hint Resolve framed_recall framed_record framed_remember framed_note : framed.

(** Giving up on a task that is not finished. *)
Lemma fail_run_ok n g0 reason r :
  run_ok gen V N n g0 (at_phase Selecting r) ->
  runs (fail_run wall session reason r)
    (fun r' => run_ok gen V N n g0 r' /\ same_run r r' /\ r_phase r' = Settling (Ok false)).
Proof.
  intros Hok. unfold fail_run, fail_task. eapply runs_bind; [|intros x Hx; apply runs_ret; exact Hx].
  apply framed_then; [framed|]. intros _. apply runs_ret. split_and!; [|done|done].
  destruct (open_course _ _ _ _ (ro_progress _ _ _ _ _ _ Hok) eq_refl) as (t0&t&_&Ht&_&Ho&_).
  eapply (run_ok_update gen V N n g0 (at_phase Selecting r) (with_status Failed) (Settling (Ok false)));
    [done|apply keeps_status|done..|].
  intros t' Ht'. destruct (open_course _ _ _ _ (ro_progress _ _ _ _ _ _ Hok) eq_refl)
    as (?&t2&_&Ht2&_&_&_&Hf&Hn). cbn in Ht', Ht2. simplify_eq. by split.
Qed.

Lemma deliver_runs agent r :
  runs (deliver_handoff wall memory session agent r) (fun r' => same_run r r' /\ r_graph r' = r_graph r).
Proof.
  unfold deliver_handoff. destruct (r_delivered r), (r_handoff r); try by apply runs_ret.
  apply framed_then; [framed|]. intros _. apply framed_then; [framed|]. intros _. by apply runs_ret.
Qed.

Lemma prepare_ok n g0 r :
  run_ok gen V N n g0 r -> r_phase r = Preparing ->
  runs (prepare r) (fun r' => run_ok gen V N n g0 r' /\ r_id r' = r_id r /\ r_phase r' = Selecting).
Proof.
  intros Hok Hp. unfold Attempt.prepare. apply framed_then; [framed|]. intros recalled.
  apply runs_ret. split_and!; [|done|done].
  destruct (open_course _ _ _ _ (ro_progress _ _ _ _ _ _ Hok) ltac:(by rewrite Hp))
    as (t0&t&H0&Ht&Hsp&Ho&Hr). rewrite Hp in Hr. destruct Hr as [Hw Ha].
  split; [apply Hok|apply Hok|]. apply (on_course _ _ _ _ t0 t); try done. cbn [row_inv r_phase].
  unfold failed_attempts, attempt_count. rewrite Ha. pose proof budget_bounds.
  split_and!; [by destruct (t_status t)|constructor|simpl; lia].
Qed.

(** Handing a task to a target: an attempt is under way. *)
Lemma start_ok n g0 task d r :
  run_ok gen V N n g0 r -> r_phase r = Selecting -> graph_get (r_graph r) (r_id r) = Some task ->
  attempt_count task < N ->
  runs (start_attempt wall attempt_id elapsed config context_manager adapters memory guidance session
          task d r)
    (fun r' => run_ok gen V N n g0 r' /\ same_run r r' /\ attempts_made r' = attempts_made r /\
       exists p, r_phase r' = Waiting p).
Proof.
  intros Hok Hp Hg Hn. unfold start_attempt.
  apply framed_then; [framed|]. intros _. apply framed_then; [framed|]. intros _.
  eapply runs_bind; [apply deliver_runs|]. intros r1 [[Hid Hwt] Hgr]. cbn [on_graph r_id r_worktree r_graph] in *.
  apply framed_then; [framed|]. intros k. apply framed_then; [framed|]. intros _.
  apply framed_then; [framed|]. intros at_. apply framed_then; [framed|]. intros _.
  apply framed_then; [framed|]. intros request.
  destruct (adapter_answer _ _ _ _ _) as [result chunks]. apply runs_ret.
  destruct (open_course _ _ _ _ (ro_progress _ _ _ _ _ _ Hok) ltac:(by rewrite Hp))
    as (t0&t&_&Ht&_&Ho&Hr). rewrite Hp in Hr. destruct Hr as (_&Hf&_).
  assert (t = task) as -> by congruence. split_and!.
  - eapply run_ok_update with (r := r); [done| |exact Hid|exact Hgr|done|done|]; [done|].
    intros t' Ht'. assert (t' = task) as -> by congruence. by split_and!.
  - by split.
  - unfold attempts_made. cbn [at_phase r_graph r_id]. rewrite Hgr, Hid.
    by rewrite (get_own _ _ _ _ Hg), Hg.
  - by eexists.
Qed.

Lemma select_ok n g0 r :
  run_ok gen V N n g0 r -> r_phase r = Selecting ->
  runs (select r)
    (fun r' => run_ok gen V N n g0 r' /\ same_run r r' /\
       (r_phase r' = Settling (Ok false) \/
        attempts_made r' = attempts_made r /\ exists p, r_phase r' = Waiting p)).
Proof.
  intros Hok Hp. unfold Attempt.select.
  destruct (open_course _ _ _ _ (ro_progress _ _ _ _ _ _ Hok) ltac:(by rewrite Hp))
    as (t0&t&_&Ht&_&Ho&Hr). rewrite Hp in Hr. destruct Hr as (_&Hf&Hn). rewrite Ht.
  assert (at_phase Selecting r = r) as Er by (by apply at_phase_same).
  assert (forall reason, runs (fail_run wall session reason r) (fun r' => run_ok gen V N n g0 r' /\ same_run r r' /\
     (r_phase r' = Settling (Ok false) \/
      attempts_made r' = attempts_made r /\ exists p, r_phase r' = Waiting p))) as Hfail.
  { intros reason s. destruct (fail_run_ok n g0 reason r ltac:(by rewrite Er) s) as (?&?&?&?). by auto 10. }
  destruct (N <=? wrap32 (attempt_count t)) eqn:Eb; [apply Hfail|].
  apply framed_then; [framed|]. intros [d|e].
  - assert (attempt_count t < N).
    { pose proof budget_bounds. unfold wrap32 in Eb. rewrite Z.mod_small in Eb; [lia|].
      unfold attempt_count, U32_MAX in *. lia. }
    intros s. destruct (start_ok n g0 t d r Hok Hp Ht ltac:(done) s) as (?&?&?&?&?). by auto 10.
  - apply framed_then; [framed|]. intros _. apply Hfail.
Qed.

(** The outcome of a judged answer, and the failure that goes with it. *)
Lemma judge_cases result :
  match judge result with
  | (Some o, None) => oc_success o = true /\ result = Ok o
  | (None, None) => False
  | (Some o, Some _) => oc_success o = false
  | (None, Some _) => True
  end.
Proof.
  unfold judge. destruct result as [o|e]; [|done]. by destruct (oc_success o) eqn:E.
Qed.

Lemma succeed_ok n g0 p o tokens r :
  run_ok gen V N n g0 r -> r_phase r = Waiting p -> oc_success o = true ->
  runs (succeed wall memory session p o tokens r)
    (fun r' => run_ok gen V N n g0 r' /\ same_run r r' /\ r_phase r' = Settling (Ok true)).
Proof.
  intros Hok Hp Hs. unfold succeed. cbv zeta. do 7 (apply framed_then; [framed|]; intros ?).
  apply framed_then; [framed|]. intros _.
  apply runs_ret. split_and!; [|done|done].
  destruct (open_course _ _ _ _ (ro_progress _ _ _ _ _ _ Hok) ltac:(by rewrite Hp))
    as (t0&t&_&Ht&_&Ho&Hr). rewrite Hp in Hr. destruct Hr as (_&Hf&Hn&_).
  eapply run_ok_update with (r := r); [done| |done|done|done|done|]; [done|].
  intros t' Ht'. simplify_eq. cbn [row_inv]. split; [|split; [done|by exists (t_attempts t), o]].
  unfold attempt_count in *. cbn [t_attempts with_status push_attempt with_artifacts].
  rewrite length_app. cbn [length]. lia.
Qed.

(** What reacting leads to, from [n] identifiers drawn to those of [s']: a
    stopped run, or one more attempt on the row. *)
Definition reacted (n : nat) (l : OwnershipLedger) (g0 : TaskGraph) (r : Run) (sr : SessionState * Run)
  : Prop :=
  let '(s', r') := sr in
  sh_ledger s' = l /\ run_ok gen V N (sh_task_ids s') g0 r' /\ same_run r r' /\
  (n <= sh_task_ids s')%nat /\
  ((exists o, r_phase r' = Settling o) \/
   r_phase r' = Selecting /\ attempts_made r' = S (attempts_made r)).

Lemma reacted_stop n l g0 r r1 sr :
  same_run r r1 ->
  (let '(s', r') := sr in
   sh_ledger s' = l /\ run_ok gen V N (sh_task_ids s') g0 r' /\ same_run r1 r' /\
   (n <= sh_task_ids s')%nat /\ exists o, r_phase r' = Settling o) -> reacted n l g0 r sr.
Proof.
  destruct sr as [s' r']. intros H1 (?&?&?&?&?). split_and!; [done|done|by eapply same_run_trans|done|by left].
Qed.

Lemma runs_reacted n l g0 r r1 (m : M Run) s :
  same_run r r1 -> sh_ledger s = l -> sh_task_ids s = n ->
  runs m (fun r' => run_ok gen V N n g0 r' /\ same_run r1 r' /\
    ((exists o, r_phase r' = Settling o) \/
     r_phase r' = Selecting /\ attempts_made r' = S (attempts_made r))) ->
  reacted n l g0 r (m s).
Proof.
  intros H1 Hl Hn Hm. destruct (Hm s) as [[Fl Fi] (?&?&?)]. destruct (m s) as [s' r']. cbn [fst snd] in *.
  unfold reacted. rewrite Fl, Fi, Hn. split_and!; [done|done|by eapply same_run_trans|lia|done].
Qed.

(** The row once a failed attempt is pushed. *)
Lemma push_failed n g0 p o m r :
  run_ok gen V N n g0 r -> r_phase r = Waiting p -> oc_success o = false ->
  let r1 := on_target m (on_graph (graph_update (push_attempt o) (r_id r)) r) in
  run_ok gen V N n g0 (at_phase Selecting r1) /\ same_run r r1 /\
  attempts_made r1 = S (attempts_made r) /\
  exists t, graph_get (r_graph r1) (r_id r) = Some t /\ t_id t = r_id r.
Proof.
  intros Hok Hp Hs r1.
  destruct (open_course _ _ _ _ (ro_progress _ _ _ _ _ _ Hok) ltac:(by rewrite Hp))
    as (t0&t&H0&Ht&_&Ho&Hr). rewrite Hp in Hr. destruct Hr as (Hst&Hf&Hn&_). split_and!.
  - eapply run_ok_update with (r := r); [done|apply keeps_push|done|done|done|done|].
    intros t' Ht'. simplify_eq. cbn [row_inv]. split_and!.
    + cbn [t_status push_attempt]. by rewrite Hst.
    + unfold failed_attempts. cbn [t_attempts push_attempt]. apply Forall_app. by repeat constructor.
    + unfold attempt_count in *. cbn [t_attempts push_attempt]. rewrite length_app. cbn [length]. lia.
  - done.
  - unfold attempts_made, r1. cbn [on_target on_graph r_graph r_id].
    rewrite (get_own _ _ _ _ Ht), Ht. cbn [t_attempts push_attempt]. rewrite length_app. simpl. lia.
  - exists (push_attempt o t). unfold r1. cbn [on_target on_graph r_graph]. split; [by apply get_own|].
    apply (wf_ids _ (sp_wf _ (ro_sound _ _ _ _ _ _ Hok)) _ _ Ht).
Qed.

(** [replan] on a run whose row is [t]. *)
Lemma replan_ok n g0 reason t r s :
  sh_task_ids s = n -> run_ok gen V N n g0 (at_phase Selecting r) ->
  graph_get (r_graph r) (r_id r) = Some t -> t_id t = r_id r ->
  let '(s', r') := replan_run wall planner session t reason r s in
  sh_ledger s' = sh_ledger s /\ run_ok gen V N (sh_task_ids s') g0 r' /\ same_run r r' /\
  (n <= sh_task_ids s')%nat /\ exists o, r_phase r' = Settling o.
Proof.
  intros Hn Hok Ht Hid. pose proof Hok as [Hs Hf Hp]. cbn [at_phase r_graph] in Hs, Hf.
  destruct (open_course _ _ _ _ Hp eq_refl) as (t0&t1&H0&Ht1&Hsp&Ho&Hst&Hfa&Hcnt).
  cbn [at_phase r_graph r_id r_phase] in *. assert (t1 = t) as -> by congruence.
  assert (graph_get (r_graph r) (t_id t) = Some t) as Hg by congruence.
  unfold replan_run. rewrite Hn.
  pose proof (replan_answers (gen := gen) (r_graph r) t reason n Hs Hf Hg) as Hans.
  pose proof (replan_draws (gen := gen) (r_graph r) t reason n Hs Hf Hg) as Hdraw.
  pose proof (fun g' => replan_sound (gen := gen) (r_graph r) t reason n g' Hs Hf Hg) as Hsound.
  destruct (replan planner (r_graph r) t reason n) as [n' answer] eqn:Er. cbn [fst snd] in *.
  assert (forall phase r', r' = at_phase phase r -> row_inv N phase t -> run_ok gen V N n' g0 r') as Hstay.
  { intros phase r' -> Hinv. split; [done|by apply fresh_mono with n|]. by apply (on_course _ _ _ _ t0 t). }
  destruct answer as [[[g'|]|e]|]; [| | |done].
  - destruct (Hsound g' eq_refl) as (Hs'&Hf'&[Hrows Hkeeps]).
    destruct (Hkeeps (r_id r) ltac:(by eexists)) as [t' Ht'].
    assert (t' = with_status Skipped t) as ->.
    { destruct (Hrows _ _ Ht') as [[? _]|[[_ ?]|[? _]]]; [congruence|done|congruence]. }
    split_and!; [done| |done|done|by eexists]. split; [done|done|].
    apply (replaced _ _ _ _ t0 (with_status Skipped t)); try done.
    { exists (r_graph r), t, reason, n, g'. by rewrite Er. }
    intros x Hx. rewrite <- (Ho x Hx). destruct (graph_get g' x) as [tx|] eqn:Ex.
    + cbn [finish at_phase on_graph r_graph r_id] in *. rewrite Ex.
      destruct (Hrows _ _ Ex) as [[_ ?]|[[? _]|[? ?]]]; [left; congruence|congruence|].
      right. split; [done|]. by exists tx.
    + left. cbn [finish at_phase on_graph r_graph r_id] in *. rewrite Ex.
      destruct (graph_get (r_graph r) x) eqn:E; [|done].
      destruct (Hkeeps x ltac:(by rewrite E; eexists)). congruence.
  - pose proof (fail_run_ok n' g0 reason r (Hstay Selecting _ eq_refl ltac:(by split_and!))) as Hr.
    destruct (Hr (put_task_ids n' s)) as [[Hl Hi] (?&?&?)].
    destruct (fail_run wall session reason r (put_task_ids n' s)) as [s' r']. cbn [fst snd] in *.
    rewrite Hl, Hi. split_and!; [done|done|done|done|by eexists].
  - split_and!; [done| |done|done|by eexists].
    apply (Hstay (Settling (Err e))); [done|]. by split_and!.
Qed.

(** Computations before a final one, at a given state. *)
Lemma then_reacted {A} n l g0 r (m : M A) (k : A -> M Run) s :
  framed m -> sh_ledger s = l -> sh_task_ids s = n ->
  (forall x s', sh_ledger s' = l -> sh_task_ids s' = n -> reacted n l g0 r (k x s')) ->
  reacted n l g0 r (bind m k s).
Proof.
  intros Hm Hl Hn Hk. destruct (Hm s) as [[Fl Fi] _]. unfold bind.
  destruct (m s) as [s' x]. cbn [fst snd] in *. apply Hk; congruence.
Qed.

Lemma decide_ok n l g0 p t class r r1 s :
  same_run r r1 -> sh_ledger s = l -> sh_task_ids s = n ->
  run_ok gen V N n g0 (at_phase Selecting r1) -> attempts_made r1 = S (attempts_made r) ->
  graph_get (r_graph r1) (r_id r1) = Some t -> t_id t = r_id r1 ->
  reacted n l g0 r (decide_next wall clock rng config planner session t p class r1 s).
Proof.
  intros H1 Hl Hn Hok Hm Ht Hid. unfold decide_next. apply then_reacted; [framed|done|done|].
  intros alternative s' Hl' Hn'. destruct (retry_decide _ _ _ _ _ _) as [delay attempt reason|reason|reason|reason].
  - apply runs_reacted with r1; try done. unfold retry. apply framed_then; [framed|]. intros _.
    apply runs_ret. split_and!; [done|done|by right].
  - apply runs_reacted with r1; try done. unfold reroute. apply framed_then; [framed|]. intros _.
    apply runs_ret. destruct Hok. split_and!; [|done|by right].
    destruct (open_course _ _ _ _ ro_progress0 eq_refl) as (t0&t1&?&?&?&?&?).
    split; [done|done|]. by apply (on_course _ _ _ _ t0 t1).
  - pose proof (replan_ok n g0 reason t r1 s' Hn' Hok Ht Hid) as Hr. rewrite Hl' in Hr.
    by eapply reacted_stop.
  - apply runs_reacted with r1; try done. intros s2.
    destruct (fail_run_ok n g0 reason r1 Hok s2) as (?&?&?&?). split_and!; [done..|]. left. by eexists.
Qed.

Lemma react_ok n l g0 p r s :
  sh_ledger s = l -> sh_task_ids s = n -> run_ok gen V N n g0 r -> r_phase r = Waiting p ->
  reacted n l g0 r (react p r s).
Proof.
  intros Hl Hn Hok Hp. unfold Attempt.react. apply then_reacted; [framed|done|done|].
  intros _ s1 Hl1 Hn1. pose proof (judge_cases (p_result p)) as Hj.
  destruct (judge (p_result p)) as [outcome failure]. apply then_reacted; [framed|done|done|].
  intros _ s2 Hl2 Hn2. destruct failure as [[class reason]|]; [|destruct outcome as [o|]; [|done]].
  - unfold fail_attempt. apply then_reacted; [framed|done|done|]. intros _ s3 Hl3 Hn3.
    destruct (open_course _ _ _ _ (ro_progress _ _ _ _ _ _ Hok) ltac:(by rewrite Hp))
      as (t0&t&_&Ht&_). rewrite Ht.
    set (o := match outcome with Some o => o | None => _ end).
    assert (oc_success o = false) as Ho by (unfold o; by destruct outcome).
    destruct (push_failed n g0 p o (wrap32 (r_on_target r + 1)) r Hok Hp Ho) as (Hok1&Hs1&Hm1&t1&Ht1&Hid1).
    set (r1 := on_target _ _) in *. change (r_id r) with (r_id r1) in Ht1, Hid1.
    cbn zeta. fold r1. rewrite Ht1. by apply decide_ok.
  - apply runs_reacted with r; try done. intros s3.
    destruct (succeed_ok n g0 p o (oc_tokens o) r Hok Hp (proj1 Hj) s3) as (?&?&?&?).
    split_and!; [done..|]. left. by eexists.
Qed.

(** Writes to the row of a finished run. *)
Lemma finished_update n g0 f o o' r :
  run_ok gen V N n g0 r -> r_phase r = Finished o -> keeps_spec f ->
  (forall t, t_attempts (f t) = t_attempts t) ->
  (forall t, row_inv N (Finished o) t -> row_inv N (Finished o') (f t)) ->
  (forall t, retired (Finished o) (t_status t) -> retired (Finished o') (t_status (f t))) ->
  run_ok gen V N n g0 (at_phase (Finished o') (on_graph (graph_update f (r_id r)) r)).
Proof.
  intros [Hs Hf Hpr] Hp Hk Ha Hi Hr. split; cbn [at_phase on_graph r_graph r_id].
  - by apply sound_keeps.
  - by apply fresh_update.
  - destruct Hpr as [t0 t H0 Ht Hsp Ho Hrow|t0 t HV H0 Ht Hsp Ho Hfa Hn Hret]; rewrite Hp in *;
      [apply (on_course _ _ _ _ t0 (f t))|apply (replaced _ _ _ _ t0 (f t))];
      cbn [at_phase on_graph r_graph r_id r_phase] in *;
      try (by apply (get_own _ _ _ _ Ht)); try (by rewrite (proj2 (Hk t))); auto.
    + by apply kept_update.
    + by apply extended_update.
    + unfold failed_attempts in *. by rewrite Ha.
    + unfold attempt_count in *. by rewrite Ha.
Qed.

Lemma settle_ok n g0 outcome r :
  run_ok gen V N n g0 r -> r_phase r = Settling outcome ->
  runs (settle outcome r)
    (fun r' => run_ok gen V N n g0 r' /\ r_id r' = r_id r /\ exists o, r_phase r' = Finished o).
Proof.
  intros Hok Hp.
  assert (run_ok gen V N n g0 (at_phase (Finished outcome) r)) as Hfin.
  { destruct Hok as [Hs Hf [t0 t ? ? ? ? Hr|t0 t ? ? ? ? ? ? ? Ho]]; split; try done; rewrite Hp in *.
    - apply (on_course _ _ _ _ t0 t); try done. cbn [r_phase at_phase row_inv] in *.
      destruct outcome as [[]|]; naive_solver.
    - apply (replaced _ _ _ _ t0 t); try done. by destruct outcome as [[]|]. }
  unfold Attempt.settle. destruct (r_worktree r) as [path|]; [|apply runs_ret; eauto].
  destruct outcome as [[]|]; [|apply runs_ret; by eauto..].
  destruct (git_apply git (r_id r) path) as [changed|e].
  - apply runs_ret. split_and!; [|done|by eexists].
    apply (finished_update n g0 (fun t => fold_left add_artifact changed t) (Ok true) (Ok true) _ Hfin);
      try done; [apply keeps_artifacts|intros t; destruct (artifacts_row changed t) as [Es Ea]..].
    + done.
    + cbn [row_inv]. unfold attempt_count. by rewrite Es, Ea.
    + cbn [retired]. by rewrite Es.
  - unfold fail_task.
    apply (runs_bind _ _ (fun r1 => r1 = on_graph (graph_update (with_status Failed) (r_id r)) r)).
    { apply framed_then; [framed|]. intros _. by apply runs_ret. }
    intros r1 ->. apply runs_ret. split_and!; [|done|by eexists].
    apply (finished_update n g0 (with_status Failed) (Ok true) (Ok false) _ Hfin); try done.
    intros t [? _]. by split.
Qed.

(** Any step of a run that is not finished. *)
Lemma step_ok n l g0 r s :
  sh_ledger s = l -> sh_task_ids s = n -> run_ok gen V N n g0 r -> is_finished r = false ->
  let '(s', r') := step r s in
  sh_ledger s' = l /\ run_ok gen V N (sh_task_ids s') g0 r' /\ r_id r' = r_id r /\
  (n <= sh_task_ids s')%nat /\ (steps_left N r' < steps_left N r)%nat.
Proof.
  intros Hl Hn Hok Hf. unfold run_step, steps_left.
  assert (is_open (r_phase r) = true -> exists t, graph_get (r_graph r) (r_id r) = Some t /\
    row_inv N (r_phase r) t) as Hrow.
  { intros Ho. destruct (open_course _ _ _ _ (ro_progress _ _ _ _ _ _ Hok) Ho) as (?&t&_&?&_&_&?). eauto. }
  destruct (r_phase r) as [| |p|o|o|] eqn:Ep; [| | | |by unfold is_finished in Hf; rewrite Ep in Hf|].
  - destruct (prepare_ok n g0 r Hok Ep s) as [[Fl Fi] (?&?&Hp')].
    destruct (prepare r s) as [s' r']. cbn [fst snd] in *. rewrite Fi, Fl, Hp', Hn. split_and!; try done; lia.
  - destruct (select_ok n g0 r Hok Ep s) as [[Fl Fi] (?&[? _]&Hp')].
    destruct (select r s) as [s' r']. cbn [fst snd] in *. rewrite Fi, Fl, Hn.
    destruct Hp' as [->|[-> [p ->]]]; split_and!; try done; lia.
  - pose proof (react_ok n l g0 p r s Hl Hn Hok Ep) as Hr. destruct (react p r s) as [s' r'].
    destruct Hr as (?&?&[? _]&?&Hp'). split_and!; try done.
    destruct (Hrow eq_refl) as (t&Ht&_&_&Hlt&_). unfold attempt_count in Hlt.
    assert (attempts_made r = length (t_attempts t)) as Hm by (unfold attempts_made; by rewrite Ht).
    destruct Hp' as [[o ->]|[-> ->]]; lia.
  - destruct (settle_ok n g0 o r Hok Ep s) as [[Fl Fi] (?&?&o'&Hp')].
    destruct (settle o r s) as [s' r']. cbn [fst snd] in *. rewrite Fi, Fl, Hp', Hn. split_and!; try done; lia.
  - destruct Hok as [_ _ [? t ? ? ? ? Hr|? t ? ? ? ? ? ? ? Hr]]; by rewrite Ep in Hr.
Qed.
End Steps.
