(* ===== verification/Orchestrator.v ===== *)
(** * The orchestrator ([cuma-orchestrator/src/executor.rs])

    Admitting the tasks of a wave, running them side by side under any
    interleaving of their steps, folding their results back into the plan, and
    the session around it. *)

From S2P Require Export Attempt Guard.
From stdpp Require Import pretty.
Open Scope string_scope.
Open Scope Z_scope.

Section Orchestrator.
Context (wall clock : nat -> Z) (attempt_id : nat -> AttemptId) (elapsed : nat -> Z) (rng : nat -> Rng).
Context {C : Type} `{!ContextManager C} {P : Type} `{!Planner P}.
Context (config : Config) (workspace : string) (planner : P) (context_manager : C).
Context (adapters : btree AgentId AgentAdapter) (memory : option MemoryStore).
Context (guidance : option (CapabilitySet -> list SkillGuide)) (git : Git) (session : SessionId).
(** [char::is_alphanumeric] beyond ASCII, and the index of the workspace. *)
Context (alphanumeric : Z -> bool) (index : option WorkspaceIndex).

Local Abbreviation step := (run_step wall clock attempt_id elapsed rng config workspace planner
  context_manager adapters memory guidance git session).

(** ** Admission *)

(** The paths a task is predicted to write. *)
Definition dependency_artifacts (graph : TaskGraph) (task : Task) : list string :=
  concat (map t_artifacts (omap (graph_get graph) (dependencies task))).

Definition writes_of (graph : TaskGraph) (task : Task) : list PathBuf :=
  predict_writes alphanumeric (sp_description (t_spec task)) index (dependency_artifacts graph task).

(** One ready task. *)
Definition admit_one (graph : TaskGraph) (st : OwnershipLedger * list TaskId) (id : TaskId)
  : OwnershipLedger * list TaskId :=
  let '(ledger, admitted) := st in
  match graph_get graph id with
  | None => st
  | Some task =>
      if bool_decide (sp_risk (t_spec task) = ReadOnly) then (ledger, (admitted ++ [id])%list)
      else match claim id (writes_of graph task) ledger with
           | (ledger, Ok _) => (ledger, (admitted ++ [id])%list)
           | (ledger, Err _) => (ledger, admitted)
           end
  end.

(** [Orchestrator::admit_concurrently]. *)
Definition admit_concurrently (graph : TaskGraph) (ready : list TaskId) (ledger : OwnershipLedger)
  : OwnershipLedger * list TaskId :=
  fold_left (admit_one graph) ready (ledger, []).

(** ** Running a wave *)

Definition start_run (graph : TaskGraph) (id : TaskId) : Run :=
  {| r_id := id; r_graph := graph; r_workspace := workspace; r_worktree := None; r_handoff := None;
     r_delivered := true; r_on_target := 0; r_recalled := ""; r_abandoned := []; r_phase := Preparing |}.

(** [join_all] polls the futures of a wave until all are done.  Which of the
    unfinished ones advances next depends on what each waits for: [pick] is any
    such choice, from the numbers of steps made and of tasks unfinished. *)
Definition unfinished (runs : list Run) : list nat :=
  map fst (List.filter (fun e => negb (is_finished e.2)) (enumerate 0 runs)).

Fixpoint run_wave (fuel : nat) (pick : nat -> nat) (runs : list Run) : M (option (list Run)) :=
  match unfinished runs with
  | [] => ret (Some runs)
  | live =>
      match fuel with
      | O => ret None
      | S fuel =>
          let i := List.nth (pick fuel mod length live)%nat live O in
          match runs !! i with
          | None => ret None
          | Some r => let! r := step r in run_wave fuel pick (<[i := r]> runs)
          end
      end
  end.

(** ** Folding results back *)

Definition announce_skipped (blocked_by : TaskId) (skipped : list TaskId) : M unit :=
  for_all (fun id => publish wall session id (TaskSkipped blocked_by)) skipped.

(** A task that did not complete: failed, and its dependents skipped; [None]
    would be a cascade that does not end. *)
Definition fail_in_graph (id : TaskId) (graph : TaskGraph) : M (option TaskGraph) :=
  let graph := graph_update (with_status Failed) id graph in
  match cascade_skip graph id with
  | None => ret None
  | Some (graph, skipped) => do! announce_skipped id skipped in ret (Some graph)
  end.

(** Only the executing task's row is taken. *)
Definition fold_row (r : Run) (graph : TaskGraph) : TaskGraph :=
  match graph_get (r_graph r) (r_id r) with
  | Some executed => graph_update (fun _ => executed) (r_id r) graph
  | None => graph
  end.

Definition fold_result (ran_alone : bool) (r : Run) (graph : TaskGraph) : M (option TaskGraph) :=
  do! modify (fun s => put_ledger (release (r_id r) (sh_ledger s)) s) in
  let graph := fold_row r graph in
  if negb (graph_len (r_graph r) =? graph_len graph) && ran_alone
  then ret (Some (r_graph r))
  else match r_phase r with
       | Finished (Ok true) => ret (Some graph)
       | _ => fail_in_graph (r_id r) graph
       end.

Fixpoint fold_results (ran_alone : bool) (runs : list Run) (graph : TaskGraph) : M (option TaskGraph) :=
  match runs with
  | [] => ret (Some graph)
  | r :: runs' =>
      let! graph := fold_result ran_alone r graph in
      match graph with
      | None => ret None
      | Some graph => fold_results ran_alone runs' graph
      end
  end.

(** ** The loop over waves *)

(** Steps one task can take: at most two per attempt and one to prepare, one to
    notice the exhausted budget, one to settle. *)
Definition run_fuel : nat := 2 * Z.to_nat (max_attempts (retry_policy config)) + 3.

(** [ClaimsGuard::drop]. *)
Definition drop_claims (ids : list TaskId) : M unit :=
  for_all (fun id => modify (fun s => put_ledger (release id (sh_ledger s)) s)) ids.

Definition next_wave (graph : TaskGraph) : list TaskId :=
  map t_id (take (Z.to_nat (max_parallel_tasks (limits config))) (ready_tasks graph)).

(** The body of the loop, when some task is ready. *)
Definition wave (pick : nat -> nat) (graph : TaskGraph) (ready : list TaskId) : M (option TaskGraph) :=
  let! ledger := gets sh_ledger in
  let '(ledger, admitted) := admit_concurrently graph ready ledger in
  do! modify (put_ledger ledger) in
  let! runs := run_wave (length admitted * run_fuel) pick (map (start_run graph) admitted) in
  match runs with
  | None => ret None
  | Some runs =>
      let! graph := fold_results (Nat.eqb (length runs) 1) runs graph in
      do! drop_claims admitted in ret graph
  end.

Fixpoint waves (passes : nat) (pick : nat -> nat -> nat) (graph : TaskGraph) : M (option TaskGraph) :=
  match passes with
  | O => ret (Some graph)
  | S passes =>
      if graph_complete graph then ret (Some graph)
      else match next_wave graph with
           | [] => ret (Some graph)
           | ready =>
               let! graph := wave (pick passes) graph ready in
               match graph with
               | None => ret None
               | Some graph => waves passes pick graph
               end
           end
  end.

(** [Orchestrator::execute_graph]. *)
Definition max_passes (graph : TaskGraph) : nat :=
  Z.to_nat (wrap64 (sat64 (graph_len graph * 2) + 4)).

Definition execute_graph (pick : nat -> nat -> nat) (graph : TaskGraph) : M (option TaskGraph) :=
  waves (max_passes graph) pick graph.

(** ** The session *)

Definition is_completed (t : Task) : bool := bool_decide (t_status t = Completed).

Definition count_status (st : TaskStatus) (g : TaskGraph) : nat :=
  length (List.filter (fun t => bool_decide (t_status t = st)) (graph_iter g)).

(** [SessionResult::completed_tasks], [failed_tasks] and [skipped_tasks]. *)
Definition completed_tasks (r : SessionResult) : nat := count_status Completed (sr_graph r).
Definition failed_tasks (r : SessionResult) : nat := count_status Failed (sr_graph r).
Definition skipped_tasks (r : SessionResult) : nat := count_status Skipped (sr_graph r).

(** [Orchestrator::summarize]. *)
Definition summarize (g : TaskGraph) (t : UsageTotals) : string :=
  let failed := count_status Failed g in
  let skipped := count_status Skipped g in
  pretty (count_status Completed g) +:+ "/" +:+ pretty (graph_len g) +:+ " tasks completed"
  +:+ (if Nat.ltb 0 failed then ", " +:+ pretty failed +:+ " failed" else "")
  +:+ (if Nat.ltb 0 skipped then ", " +:+ pretty skipped +:+ " skipped" else "")
  +:+ " — " +:+ pretty (totals_total_tokens t) +:+ " tokens, " +:+ render_cost t.

(** [Orchestrator::plan].  The outer [None] would be a planner that does not
    answer. *)
Definition plan_goal (goal : string) : M (option (Result TaskGraph)) :=
  let! memories :=
    match memory with
    | None => ret []
    | Some store =>
        let! n := gets sh_recalls in
        do! modify (put_recalls (S n)) in
        ret (if ms_available store n
             then match ms_recall store n goal (recall_limit (Config.memory config)) with
                  | Ok entries => entries
                  | Err _ => []
                  end
             else [])
    end in
  fun s =>
  let context := {| pc_workspace := workspace;
                    pc_available := available_capabilities (Registry.registry_snapshot (sh_agents s));
                    pc_memories := memories; pc_hints := [] |} in
  let '(n, answer) := plan planner goal context (sh_task_ids s) in
  let s := put_task_ids n s in
  match answer with
  | None => (s, None)
  | Some (Err e) => (s, Some (Err e))
  | Some (Ok graph) => (s, checked graph)
  end.

(** [Orchestrator::plan_only] and [Orchestrator::explain_routing]. *)
Definition plan_only (goal : string) : M (option (Result TaskGraph)) := plan_goal goal.

Definition explain_routing (task : Task) : M (Result RoutingDecision) := route_task clock config task [].

(** [Orchestrator::run_session], after [prepare_workspace], which only touches
    git. *)
Definition run_session (pick : nat -> nat -> nat) (goal : string)
  : M (option (Result SessionResult)) :=
  do! tell (RecSessionStarted goal) in
  do! publish_session wall session (SessionStarted goal) in
  let! planned := plan_goal goal in
  match planned with
  | None => ret None
  | Some (Err e) => ret (Some (Err e))
  | Some (Ok graph) =>
      do! publish_session wall session (TaskPlanned (graph_len graph)) in
      let! executed := execute_graph pick graph in
      match executed with
      | None => ret None
      | Some graph =>
          let! usage := gets sh_usage in
          let success := forallb is_completed (graph_iter graph) in
          do! publish_session wall session (SessionCompleted success) in
          let result := {| sr_session_id := session; sr_graph := graph; sr_success := success;
                           sr_usage := totals usage; sr_spent_usd := spent_usd usage;
                           sr_summary := summarize graph (totals usage) |} in
          do! tell (RecSessionFinished result) in
          ret (Some (Ok result))
      end
  end.
End Orchestrator.

(** [Orchestrator::new]: empty registries, nothing spent, nothing claimed. *)
Definition orchestrator_new : SessionState :=
  {| sh_agents := []; sh_models := [];
     sh_breakers := {| br_registry := registry_new breaker_config_default; br_ticks := 0 |};
     sh_usage := tracker_new; sh_history := []; sh_ledger := ledger_new; sh_events := [];
     sh_recorded := []; sh_remembered := []; sh_handoffs := []; sh_attempts := 0; sh_task_ids := 0;
     sh_reads := 0; sh_recalls := 0 |}.

(** [Orchestrator::add_agent]. *)
Definition add_agent (adapter : AgentAdapter) (adapters : btree AgentId AgentAdapter) (s : SessionState)
  : SessionState * btree AgentId AgentAdapter * Result unit :=
  match ad_describe adapter with
  | Err e => (s, adapters, Err e)
  | Ok descriptor =>
      (put_agents (register descriptor (sh_agents s))
         (put_models (register_agent_models descriptor (sh_models s)) s),
       bt_insert (ad_agent_id adapter) adapter adapters, Ok tt)
  end.

(** [Orchestrator::prepare_command]; the wrappers of RTK and of the sandbox are
    arguments. *)
Definition prepare_command (guard : CommandGuard) (rtk_wrap sandbox_wrap : string -> string)
    (command : string) : result string string :=
  match screen guard command with
  | Deny reason => Err reason
  | Allow => Ok (sandbox_wrap (rtk_wrap command))
  end.
