(* ===== verification/WaveFacts.v ===== *)
(** * Waves: admission is exclusive, every interleaving ends, results fold back
      into a sound plan *)

From S2P Require Export Orchestrator AttemptFacts.
Open Scope string_scope.
Open Scope Z_scope.

(** ** Lists updated by index *)

Lemma elem_of_enumerate {A} k (l : list A) i x :
  (i, x) ∈ enumerate k l <-> (k <= i)%nat /\ l !! (i - k)%nat = Some x.
Proof.
  revert k. induction l as [|y l IH]; intros k; simpl.
  { rewrite lookup_nil. set_solver. }
  rewrite elem_of_cons, IH. split.
  - intros [[= -> ->]|[Hk Hl]]; [by rewrite Nat.sub_diag|]. split; [lia|].
    by replace (i - k)%nat with (S (i - S k)) by lia.
  - intros [Hk Hl]. destruct (decide (i = k)) as [->|Hne].
    + rewrite Nat.sub_diag in Hl. left. by injection Hl as ->.
    + right. split; [lia|]. by replace (i - k)%nat with (S (i - S k)) in Hl by lia.
Qed.

Lemma elem_of_unfinished runs i :
  i ∈ unfinished runs <-> exists r, runs !! i = Some r /\ is_finished r = false.
Proof.
  unfold unfinished. rewrite list_elem_of_In, in_map_iff. split.
  - intros ([j r]&<-&[Hin Hf%negb_true_iff]%filter_In). exists r. split; [|done].
    apply list_elem_of_In, elem_of_enumerate in Hin as [_ Hin]. by rewrite Nat.sub_0_r in Hin.
  - intros (r&Hr&Hf). exists (i, r). split; [done|]. apply filter_In. cbn [snd]. rewrite Hf. split; [|done].
    apply list_elem_of_In, elem_of_enumerate. rewrite Nat.sub_0_r. split; [lia|done].
Qed.

Lemma all_finished runs : unfinished runs = [] -> Forall (fun r => is_finished r = true) runs.
Proof.
  intros H. apply list.Forall_forall. intros r Hr. destruct (is_finished r) eqn:E; [done|].
  apply list_elem_of_lookup in Hr as [i Hi].
  assert (i ∈ unfinished runs) as Hin by (apply elem_of_unfinished; eauto). rewrite H in Hin. by apply not_elem_of_nil in Hin.
Qed.

Lemma picked_unfinished (live : list nat) k :
  live <> [] -> List.nth (k mod length live)%nat live O ∈ live.
Proof.
  intros Hl. apply list_elem_of_In, nth_In. apply Nat.mod_upper_bound.
  destruct live; [done|]. simpl. lia.
Qed.

(** Sums over the runs of a wave. *)
Definition total_of (f : Run -> nat) (runs : list Run) : nat := foldr (fun r n => f r + n)%nat 0%nat runs.

Lemma total_insert f runs i r r' :
  runs !! i = Some r -> (f r' < f r)%nat -> (total_of f (<[i := r']> runs) < total_of f runs)%nat.
Proof.
  revert i. induction runs as [|x runs IH]; intros [|i] Hl Hf; simpl in *; [done..| |].
  - injection Hl as ->. lia.
  - specialize (IH i Hl Hf). lia.
Qed.

Lemma total_bound f runs b : Forall (fun r => (f r <= b)%nat) runs -> (total_of f runs <= length runs * b)%nat.
Proof. induction 1; simpl; lia. Qed.

Lemma total_elem f runs i r : runs !! i = Some r -> (f r <= total_of f runs)%nat.
Proof.
  revert i. induction runs as [|x runs IH]; intros [|i] Hl; simpl in *; [done..| |].
  - injection Hl as ->. lia.
  - specialize (IH i Hl). lia.
Qed.

Section Waves.
Context (wall clock : nat -> Z) (attempt_id : nat -> AttemptId) (elapsed : nat -> Z) (rng : nat -> Rng).
Context {C : Type} `{!ContextManager C} {P : Type} `{!Planner P}.
Context (config : Config) (workspace : string) (planner : P) (context_manager : C).
Context (adapters : btree AgentId AgentAdapter) (memory : option MemoryStore).
Context (guidance : option (CapabilitySet -> list SkillGuide)) (git : Git) (session : SessionId).
Context (alphanumeric : Z -> bool) (index : option WorkspaceIndex).
Context (gen : nat -> TaskId) `{!PlannerLaws gen planner}.

Local Abbreviation V := (revises_plans planner).

Local Abbreviation N := (max_attempts (retry_policy config)).
Local Abbreviation step := (run_step wall clock attempt_id elapsed rng config workspace planner
  context_manager adapters memory guidance git session).
Local Abbreviation run_wave := (run_wave wall clock attempt_id elapsed rng config workspace planner
  context_manager adapters memory guidance git session).
Local Abbreviation writes_of := (writes_of alphanumeric index).
Local Abbreviation admit_one := (admit_one alphanumeric index).
Local Abbreviation admit_concurrently := (admit_concurrently alphanumeric index).

(** ** Every interleaving of a wave ends *)

Lemma run_ok_mono n n' g0 r : (n <= n')%nat -> run_ok gen V N n g0 r -> run_ok gen V N n' g0 r.
Proof. intros Hn [? ? ?]. split; [done|by eapply fresh_mono|done]. Qed.

Lemma run_wave_ok g0 fuel pick runs s :
  Forall (run_ok gen V N (sh_task_ids s) g0) runs -> (total_of (steps_left N) runs <= fuel)%nat ->
  exists s' runs', run_wave fuel pick runs s = (s', Some runs') /\
    sh_ledger s' = sh_ledger s /\ (sh_task_ids s <= sh_task_ids s')%nat /\
    Forall (run_ok gen V N (sh_task_ids s') g0) runs' /\ Forall (fun r => is_finished r = true) runs' /\
    map r_id runs' = map r_id runs.
Proof.
  revert runs s. induction fuel as [|fuel IH]; intros runs s Hok Hfuel; cbn [Orchestrator.run_wave];
    destruct (unfinished runs) as [|i0 live] eqn:El;
    try (exists s, runs; split_and!; try done; by apply all_finished).
  - exfalso. assert (i0 ∈ unfinished runs) as Hi by (rewrite El; left).
    apply elem_of_unfinished in Hi as (r&Hr&Hf).
    pose proof (total_elem (steps_left N) _ _ _ Hr).
    pose proof (step_ok wall clock attempt_id elapsed rng config workspace planner context_manager
      adapters memory guidance git session gen _ _ g0 r s eq_refl eq_refl) as Hs.
    destruct (step r s) as [s' r']. destruct Hs as (_&_&_&_&Hlt); [|done|lia].
    by eapply Forall_lookup_1.
  - cbv zeta. set (i := List.nth _ _ _).
    assert (i ∈ unfinished runs) as Hi by (rewrite El; by apply picked_unfinished).
    apply elem_of_unfinished in Hi as (r&Hr&Hf). rewrite Hr.
    pose proof (step_ok wall clock attempt_id elapsed rng config workspace planner context_manager
      adapters memory guidance git session gen _ _ g0 r s eq_refl eq_refl) as Hs.
    unfold bind. destruct (step r s) as [s1 r1].
    destruct Hs as (Hl&Hok1&Hid&Hn&Hlt); [by eapply Forall_lookup_1|done|].
    destruct (IH (<[i := r1]> runs) s1) as (s'&runs'&->&Hl'&Hn'&Hok'&Hf'&Hids').
    + apply Forall_insert; [|done]. eapply list.Forall_impl; [exact Hok|]. intros x. by apply run_ok_mono.
    + pose proof (total_insert (steps_left N) runs i r r1 Hr Hlt). lia.
    + exists s', runs'. split_and!; [done|congruence|lia|done|done|]. rewrite Hids'.
      change (r_id <$> <[i := r1]> runs = r_id <$> runs). rewrite list_fmap_insert.
      apply list_insert_id. by rewrite list_lookup_fmap, Hr, Hid.
Qed.

(** ** Admission *)

Lemma claim_none id paths : (claim id paths None).1 = None.
Proof. done. Qed.

(** What a claim does to the holdings. *)
Lemma claim_holds id paths claims :
  claims_ok claims ->
  let '(l, r) := claim id paths (Some claims) in
  exists claims', l = Some claims' /\ claims_ok claims' /\
    (forall t q, holds claims t q -> holds claims' t q) /\
    match r with
    | Ok _ => (forall t q, holds claims' t q -> holds claims t q \/ t = id) /\
              (forall p, p ∈ paths -> exists q, holds claims' id q /\ components q = components (normalize p))
    | Err _ => claims' = claims /\ exists t q, holds claims t q
    end.
Proof.
  intros Hok. unfold claim. pose proof (first_conflict_spec id claims (map normalize paths) Hok) as Hf.
  destruct (first_conflict _ _ _) as [c|].
  - destruct Hf as (_&_&Hne&q&Hq&_). exists claims. split_and!; try done. eauto.
  - destruct (insert_claims_ok id _ claims Hok Hf) as (?&Hp&Hk&Ho&_). eexists. split_and!; [done|done|..].
    + intros t q Hq. destruct (decide (t = id)) as [->|]; [by apply Hk|by apply Ho].
    + intros t q Hq. destruct (decide (t = id)) as [->|]; [by right|left; by apply Ho].
    + intros p Hin. apply Hp. by apply (list_elem_of_fmap_2 normalize).
Qed.

(** An admitted task that writes holds everything it is predicted to write. *)
Definition secured (graph : TaskGraph) (claims : Claims) (id : TaskId) : Prop :=
  forall tk p, graph_get graph id = Some tk -> sp_risk (t_spec tk) <> ReadOnly -> p ∈ writes_of graph tk ->
    exists q, holds claims id q /\ components q = components (normalize p).

Lemma secured_mono graph claims claims' id :
  (forall t q, holds claims t q -> holds claims' t q) -> secured graph claims id -> secured graph claims' id.
Proof. intros Hm Hs tk p Hg Hr Hp. destruct (Hs tk p Hg Hr Hp) as (q&?&?). eauto. Qed.

Lemma admit_ok graph ready claims admitted :
  claims_ok claims -> Forall (secured graph claims) admitted ->
  exists claims' more,
    fold_left (admit_one graph) ready (Some claims, admitted) = (Some claims', (admitted ++ more)%list) /\
    claims_ok claims' /\ more `sublist_of` ready /\
    (forall t q, holds claims t q -> holds claims' t q) /\
    (forall t q, holds claims' t q -> holds claims t q \/ t ∈ more) /\
    Forall (secured graph claims') (admitted ++ more).
Proof.
  revert claims admitted. induction ready as [|id ready IH]; intros claims admitted Hok Hsec; cbn [fold_left].
  { exists claims, []. rewrite app_nil_r. split_and!; try done; auto. }
  assert (forall claims1 new, claims_ok claims1 -> new `sublist_of` [id] ->
    (forall t q, holds claims t q -> holds claims1 t q) ->
    (forall t q, holds claims1 t q -> holds claims t q \/ t ∈ new) ->
    Forall (secured graph claims1) new ->
    exists claims' more, fold_left (admit_one graph) ready (Some claims1, (admitted ++ new)%list)
        = (Some claims', (admitted ++ more)%list) /\
      claims_ok claims' /\ more `sublist_of` id :: ready /\
      (forall t q, holds claims t q -> holds claims' t q) /\
      (forall t q, holds claims' t q -> holds claims t q \/ t ∈ more) /\
      Forall (secured graph claims') (admitted ++ more)) as Hstep.
  { intros claims1 new Hok1 Hnew Hm Hb Hs1.
    destruct (IH claims1 (admitted ++ new)%list Hok1) as (c'&more&He&Hok'&Hsub&Hm'&Hb'&Hs').
    { apply Forall_app. split; [|done]. eapply list.Forall_impl; [exact Hsec|]. intros x. by apply secured_mono. }
    exists c', (new ++ more)%list. rewrite app_assoc. split_and!; try done.
    - change (id :: ready) with ([id] ++ ready)%list. by apply sublist_app.
    - auto.
    - intros t q Hq. rewrite elem_of_app. destruct (Hb' t q Hq) as [Hq'|]; [|by auto].
      destruct (Hb t q Hq'); auto. }
  pose proof (Hstep claims []) as Hskip. rewrite app_nil_r in Hskip.
  unfold Orchestrator.admit_one at 2. destruct (graph_get graph id) as [tk|] eqn:Eg.
  2: { apply Hskip; try done; auto. apply sublist_nil_l. }
  case_bool_decide as Hr.
  - apply Hstep; try done; auto. constructor; [|done]. intros tk' p Hg Hr'. congruence.
  - pose proof (claim_holds id (writes_of graph tk) claims Hok) as Hc.
    destruct (claim id _ _) as [l' [u|c]]; destruct Hc as (c'&->&Hok'&Hm&Hc).
    + destruct Hc as [Hb Hp]. apply Hstep; try done.
      * intros t q Hq. destruct (Hb t q Hq) as [?| ->]; [by left|right; by left].
      * constructor; [|done]. intros tk' p Hg _ Hin. apply Hp. congruence.
    + destruct Hc as [-> _]. apply Hskip; try done; auto. apply sublist_nil_l.
Qed.
End Waves.

(** ** Folding a wave's results back into the plan

    [plan_ok] is the invariant of the plan between waves; [fold_result] keeps
    it, and with a planner that never revises also the closure under failures
    that makes every plan run to its end. *)

From stdpp Require Import relations.
Open Scope string_scope.
Open Scope Z_scope.

(** ** Graphs with the same tasks and dependencies *)

Definition same_deps (g g' : TaskGraph) : Prop :=
  forall x, dependencies <$> graph_get g' x = dependencies <$> graph_get g x.

Lemma same_deps_get g g' x t : same_deps g g' -> graph_get g x = Some t ->
  exists t', graph_get g' x = Some t' /\ dependencies t' = dependencies t.
Proof.
  intros H Hg. specialize (H x). rewrite Hg in H. destruct (graph_get g' x) as [t'|]; [|done].
  injection H as H. by exists t'.
Qed.

Lemma same_deps_sym g g' : same_deps g g' -> same_deps g' g.
Proof. intros H x. by rewrite H. Qed.

Lemma same_deps_depends g g' x d : same_deps g g' -> depends g x d -> depends g' x d.
Proof.
  intros H (t&Hg&Hd). destruct (same_deps_get g g' x t H Hg) as (t'&?&He). exists t'. by rewrite He.
Qed.

Lemma same_deps_sound g g' : same_deps g g' -> wf_graph g' -> sound_plan g -> sound_plan g'.
Proof.
  intros H W' [W Hd Hr Ha]. pose proof (same_deps_sym _ _ H) as H'. split; [done|..].
  - intros x d [t Ht]%(same_deps_depends _ _ _ _ H')%Hd.
    destruct (same_deps_get _ _ _ _ H Ht) as (?&?&_). by eexists.
  - intros x t Ht. destruct (same_deps_get _ _ _ _ H' Ht) as (?&Ht'&<-). by eapply Hr.
  - intros x Htc. apply (Ha x). revert Htc. generalize x at 1 3. intros y Htc.
    induction Htc as [y z Hs|y z w Hs _ IH].
    + constructor. by eapply same_deps_depends.
    + eapply tc_l; [by eapply same_deps_depends|done].
Qed.

Lemma same_deps_len g g' : wf_graph g -> wf_graph g' -> same_deps g g' -> graph_len g' = graph_len g.
Proof.
  intros W W' H. unfold graph_len. rewrite <- !keys_length. f_equal. apply Permutation_length.
  apply NoDup_Permutation; [apply bt_wf_NoDup; apply W'|apply bt_wf_NoDup; apply W|].
  intros x. rewrite <- !bt_get_Some_keys. change (is_Some (graph_get g' x) <-> is_Some (graph_get g x)).
  specialize (H x). by destruct (graph_get g x), (graph_get g' x).
Qed.

(** ** Writing one row *)

Definition row_set (g g' : TaskGraph) (id : TaskId) (t' : Task) : Prop :=
  forall x, graph_get g' x = if bool_decide (x = id) then Some t' else graph_get g x.

Lemma row_set_deps g g' id t t' :
  row_set g g' id t' -> graph_get g id = Some t -> t_spec t' = t_spec t -> same_deps g g'.
Proof.
  intros H Hg Hs x. rewrite H. case_bool_decide as Hx; [|done]. subst x. rewrite Hg. simpl.
  unfold dependencies. by rewrite Hs.
Qed.

(** The rows of a plan that replaced a task by a copy that ran. *)
Lemma row_set_wf g id t t' :
  wf_graph g -> graph_get g id = Some t -> t_id t' = id -> t_spec t' = t_spec t ->
  wf_graph (graph_update (fun _ => t') id g) /\ row_set g (graph_update (fun _ => t') id g) id t'.
Proof.
  intros W Hg Hid Hs.
  assert (graph_update (fun _ => t') id g =
    graph_update (fun t0 => {| t_id := t_id t0; t_parent_id := t_parent_id t'; t_spec := t_spec t0;
      t_status := t_status t'; t_assigned_agent := t_assigned_agent t';
      t_assigned_model := t_assigned_model t'; t_attempts := t_attempts t';
      t_artifacts := t_artifacts t' |}) id g) as ->.
  { unfold graph_update, bt_alter. unfold graph_get in Hg. rewrite Hg.
    rewrite (wf_ids g W id t Hg), <- Hs, <- Hid. by destruct t'. }
  split; [by apply wf_graph_update|]. intros x. rewrite graph_get_update.
  case_bool_decide as Hx; [|done]. subst x. rewrite Hg. simpl. f_equal.
  rewrite (wf_ids g W id t Hg), <- Hs, <- Hid. by destruct t'.
Qed.

(** ** The invariant of the plan *)

(** A task between waves: nothing runs, a waiting task has not been tried, a
    completed one ended in a success. *)
Definition settled (N : Z) (t : Task) : Prop :=
  attempt_count t <= N /\ t_status t <> Running /\
  (is_waiting (t_status t) = true -> t_attempts t = []) /\
  (t_status t = Completed -> exists os o, t_attempts t = (os ++ [o])%list /\
     Forall (fun o => oc_success o = false) os /\ oc_success o = true).

Definition deps_done (g : TaskGraph) (t : Task) : Prop :=
  forall d, d ∈ dependencies t -> exists dt, graph_get g d = Some dt /\ t_status dt = Completed.

(** A task is tried only once all it depends on completed. *)
Record plan_ok (gen : nat -> TaskId) (N : Z) (n : nat) (g : TaskGraph) : Prop := {
  pl_sound : sound_plan g;
  pl_fresh : fresh_from gen n g;
  pl_settled : forall id t, graph_get g id = Some t -> settled N t;
  pl_ordered : forall id t, graph_get g id = Some t -> t_attempts t <> [] -> deps_done g t;
}.

(** How the plan has moved since the wave began: same tasks, and no task that
    had ended changed. *)
Record evolves (g0 g : TaskGraph) : Prop := {
  ev_rows : forall id t0, graph_get g0 id = Some t0 -> exists t, graph_get g id = Some t /\
    t_spec t = t_spec t0 /\ (is_terminal (t_status t0) = true -> t = t0);
  ev_none : forall id, graph_get g0 id = None -> graph_get g id = None;
}.

Lemma evolves_refl g : evolves g g.
Proof. split; [|done]. eauto. Qed.

Lemma evolves_trans g1 g2 g3 : evolves g1 g2 -> evolves g2 g3 -> evolves g1 g3.
Proof.
  intros [R1 N1] [R2 N2]. split; [|auto]. intros id t1 H1.
  destruct (R1 _ _ H1) as (t2&H2&E2&T2). destruct (R2 _ _ H2) as (t3&H3&E3&T3).
  exists t3. split_and!; [done|congruence|]. intros Ht. specialize (T2 Ht). subst t2. by apply T3.
Qed.

Lemma evolves_deps g0 g : evolves g0 g -> same_deps g0 g.
Proof.
  intros [R Hn] x. destruct (graph_get g0 x) as [t0|] eqn:E; [|by rewrite (Hn x E)].
  destruct (R x t0 E) as (t&->&Hs&_). simpl. unfold dependencies. by rewrite Hs.
Qed.

Lemma deps_done_evolves g0 g t0 t :
  evolves g0 g -> t_spec t = t_spec t0 -> deps_done g0 t0 -> deps_done g t.
Proof.
  intros [R _] Hs Hd d. unfold dependencies. rewrite Hs. intros Hin.
  destruct (Hd d Hin) as (dt&Hg&Hc). destruct (R d dt Hg) as (dt'&Hg'&_&Ht).
  rewrite Ht in Hg'; [|by rewrite Hc]. by exists dt.
Qed.

Lemma evolves_row g g' id t t' :
  row_set g g' id t' -> graph_get g id = Some t -> t_spec t' = t_spec t ->
  is_terminal (t_status t) = false -> evolves g g'.
Proof.
  intros H Hg Hs Ht. split.
  - intros x t0 H0. rewrite H. case_bool_decide as Hx; [|by eauto]. subst x.
    rewrite Hg in H0. injection H0 as <-. exists t'. split_and!; [done|done|congruence].
  - intros x Hx. rewrite H. case_bool_decide; [congruence|done].
Qed.

Lemma evolves_cascade g failed g' F S : cascade_inv g failed g' F S -> evolves g g'.
Proof.
  intros [_ _ _ HB HG]. split.
  - intros x t Hx. rewrite HG, Hx. case_bool_decide as Hin; [|by eauto]. simpl.
    eexists. split_and!; [done|done|]. intros Ht. exfalso.
    destruct (HB x Hin) as [? tk ? ? ?|? tk ? ? ? ? ?]; simplify_eq; congruence.
  - intros x Hx. rewrite HG, Hx. by case_bool_decide.
Qed.

Section Plan.
Context (gen : nat -> TaskId) (N : Z).
Local Abbreviation plan_ok := (plan_ok gen N).

Lemma plan_ok_mono n n' g : (n <= n')%nat -> plan_ok n g -> plan_ok n' g.
Proof. intros Hn [? ? ? ?]. split; try done. by apply fresh_mono with n. Qed.

(** Writing the row of a task that had not ended. *)
Lemma plan_ok_row n g g' id t t' :
  plan_ok n g -> wf_graph g' -> row_set g g' id t' -> graph_get g id = Some t ->
  t_spec t' = t_spec t -> is_terminal (t_status t) = false -> settled N t' ->
  (t_attempts t' <> [] -> deps_done g t') -> plan_ok n g'.
Proof.
  intros [Hs Hf Hset Hord] W' H Hg Hsp Ht Hst' Hd'.
  pose proof (evolves_row _ _ _ _ _ H Hg Hsp Ht) as Hev. split.
  - apply (same_deps_sound g g'); [by apply evolves_deps|done|done].
  - intros k Hk. by apply (ev_none _ _ Hev), Hf.
  - intros x tx. rewrite H. case_bool_decide; [by intros [= <-]|apply Hset].
  - intros x tx. rewrite H. intros Hx Ha. apply (deps_done_evolves g g' tx tx Hev eq_refl).
    case_bool_decide; [|by eapply Hord]. injection Hx as <-. by apply Hd'.
Qed.

Lemma settled_skipped t : settled N t -> settled N (with_status Skipped t).
Proof. by intros (?&_&_&_). Qed.

Lemma plan_ok_cascade n g failed g' F S : plan_ok n g -> cascade_inv g failed g' F S -> plan_ok n g'.
Proof.
  intros [Hs Hf Hset Hord] Hca. pose proof (evolves_cascade _ _ _ _ _ Hca) as Hev.
  pose proof Hca as [W' _ _ _ HG]. split.
  - apply (same_deps_sound g g'); [by apply evolves_deps|done|done].
  - intros k Hk. by apply (ev_none _ _ Hev), Hf.
  - intros x tx. rewrite HG. case_bool_decide; [|apply Hset].
    destruct (graph_get g x) as [t|] eqn:E; [|done]. intros [= <-]. apply settled_skipped. by eapply Hset.
  - intros x tx. rewrite HG. destruct (graph_get g x) as [t|] eqn:E; [|by case_bool_decide].
    intros Hx Ha. assert (t_spec tx = t_spec t /\ t_attempts tx = t_attempts t) as [Es Ea].
    { case_bool_decide; by injection Hx as <-. }
    apply (deps_done_evolves g g' t tx Hev Es). apply (Hord x t E). congruence.
Qed.
End Plan.

(** ** Closure under failures *)

Lemma closed_completed g g' id t t' :
  failure_closed g -> row_set g g' id t' -> graph_get g id = Some t -> t_spec t' = t_spec t ->
  t_status t' = Completed -> failure_closed g'.
Proof.
  intros Hc H Hg Hs Ht x tx d dt. rewrite !H. case_bool_decide as Hx.
  - intros [= <-]. by rewrite Ht.
  - intros Hgx Hnt Hdep. case_bool_decide; [by intros [= <-]|]. intros ? ? _. by apply (Hc x tx d dt).
Qed.

Lemma closed_failed g g' id t' :
  failure_closed g -> row_set g g' id t' -> is_terminal (t_status t') = true ->
  failure_closed_but (Some id) g'.
Proof.
  intros Hc H Ht x tx d dt. rewrite !H. case_bool_decide as Hx.
  - intros [= <-]. by rewrite Ht.
  - intros Hgx Hnt Hdep. case_bool_decide as Hd; [congruence|]. intros ? ? _. by apply (Hc x tx d dt).
Qed.

(** ** One result *)

(** A task of the wave whose result is not folded back yet. *)
Definition ready_row (g0 g : TaskGraph) (id : TaskId) : Prop :=
  exists t0, graph_get g0 id = Some t0 /\ graph_get g id = Some t0 /\
    is_waiting (t_status t0) = true /\ deps_done g0 t0.

Lemma waiting_not_terminal st : is_waiting st = true -> is_terminal st = false.
Proof. by destruct st. Qed.

(** Tasks whose dependencies completed are not blocked. *)
Lemma done_not_blocked g failed x t tf :
  graph_get g x = Some t -> deps_done g t -> graph_get g failed = Some tf -> t_status tf = Failed ->
  ~ blocked g failed x.
Proof.
  intros Hx Hd Hf Hs Hb.
  assert (exists d, d ∈ dependencies t /\ (d = failed \/ blocked g failed d)) as (d&Hin&Hbd).
  { destruct Hb; simplify_eq; eauto. }
  destruct (Hd d Hin) as (dt&Hg&Hc). destruct Hbd as [->|Hbd]; [congruence|].
  destruct Hbd as [? tk Hk Ht _|? tk ? Hk Ht _ _]; simplify_eq; by rewrite Hc in Ht.
Qed.

Section Fold.
Context (wall clock : nat -> Z) (attempt_id : nat -> AttemptId) (elapsed : nat -> Z) (rng : nat -> Rng).
Context {P : Type} `{!Planner P} (config : Config) (planner : P) (session : SessionId).
Context (gen : nat -> TaskId) `{!PlannerLaws gen planner}.

Local Abbreviation N := (max_attempts (retry_policy config)).
Local Abbreviation V := (revises_plans planner).
Local Abbreviation plan_ok := (plan_ok gen N).

Lemma untouched_settled t : untouched t -> settled N t.
Proof.
  intros [Hs Ha]. unfold settled, attempt_count. rewrite Hs, Ha. pose proof (budget_bounds config).
  split_and!; [simpl; lia|done..].
Qed.

(** The row a finished run hands back. *)
Lemma executed_row n g0 r t0 :
  run_ok gen V N n g0 r -> is_finished r = true -> graph_get g0 (r_id r) = Some t0 ->
  exists t', graph_get (r_graph r) (r_id r) = Some t' /\ t_id t' = r_id r /\ t_spec t' = t_spec t0 /\
    attempt_count t' <= N /\
    (r_phase r = Finished (Ok true) ->
       settled N t' /\ is_terminal (t_status t') = true /\ (~ V -> t_status t' = Completed)).
Proof.
  intros [Hs _ Hp] Hf H0. unfold is_finished in Hf. destruct (r_phase r) as [| | | |o|] eqn:Ep; try done.
  destruct Hp as [t1 t H1 Ht Hsp _ Hrow|t1 t HV H1 Ht Hsp _ Hfa Hn Hret]; rewrite Ep in *;
    assert (t1 = t0) as -> by congruence; exists t;
    (split_and!; [done|by apply (wf_ids _ (sp_wf _ Hs))|done| |intros [= ->]]).
  - apply Hrow.
  - destruct Hrow as (Hn&Hc&Ho). unfold settled. rewrite Hc. by split_and!.
  - done.
  - simpl in Hret. unfold settled. rewrite Hret. by split_and!.
Qed.

(** A plan that replaced the one the wave began with. *)
Lemma adopted_ok n g0 r t0 :
  run_ok gen V N n g0 r -> is_finished r = true -> plan_ok n g0 ->
  graph_get g0 (r_id r) = Some t0 -> is_waiting (t_status t0) = true -> deps_done g0 t0 ->
  graph_len (r_graph r) <> graph_len g0 ->
  V /\ plan_ok n (r_graph r) /\
  exists t, graph_get (r_graph r) (r_id r) = Some t /\ is_terminal (t_status t) = true.
Proof.
  intros [Hs Hf Hp] Hfin [Hs0 Hf0 Hset Hord] H0 Hw Hd Hlen.
  destruct Hp as [t1 t H1 Ht Hsp Hk _|t1 t HV H1 Ht Hsp Hk Hfa Hn Hret];
    assert (t1 = t0) as -> by congruence.
  { exfalso. apply Hlen. apply same_deps_len; [apply Hs0|apply Hs|].
    intros x. destruct (decide (x = r_id r)) as [->|Hx]; [|by rewrite Hk].
    rewrite H0, Ht. simpl. unfold dependencies. by rewrite Hsp. }
  assert (t_status t = Skipped \/ t_status t = Failed) as Hst.
  { unfold is_finished in Hfin. destruct (r_phase r) as [| | | |[[]|]|]; simpl in Hret; auto; done. }
  assert (forall x tx, x <> r_id r -> graph_get (r_graph r) x = Some tx ->
    graph_get g0 x = Some tx \/ untouched tx) as Hrows.
  { intros x tx Hx Hgx. destruct (Hk x Hx) as [He|(_&tx'&He&?)]; [left|right]; congruence. }
  assert (forall tx tx', t_spec tx' = t_spec tx -> deps_done g0 tx -> deps_done (r_graph r) tx') as Hdone.
  { intros tx tx' Es Hdx d. unfold dependencies. rewrite Es. intros Hin.
    destruct (Hdx d Hin) as (dt&Hgd&Hc). exists dt. split; [|done].
    destruct (Hk d) as [->|[Hnone _]]; [|done|congruence]. intros ->.
    assert (dt = t0) as -> by congruence. by rewrite Hc in Hw. }
  split_and!; [done| |exists t; split; [done|by destruct Hst as [-> | ->]]].
  split; [done|done|..].
  - intros x tx Hgx. destruct (decide (x = r_id r)) as [->|Hx].
    + assert (tx = t) as -> by congruence. unfold settled. destruct Hst as [-> | ->]; by split_and!.
    + destruct (Hrows x tx Hx Hgx); [by eapply Hset|by apply untouched_settled].
  - intros x tx Hgx Ha. destruct (decide (x = r_id r)) as [->|Hx].
    + assert (tx = t) as -> by congruence. by apply (Hdone t0).
    + destruct (Hrows x tx Hx Hgx) as [Hg0|[_ ?]]; [|done]. apply (Hdone tx); [done|]. by eapply Hord.
Qed.

(** Other tasks of the wave are not concerned by what happens to one. *)
Lemma ready_row_set g0 g g' id t' x :
  row_set g g' id t' -> x <> id -> ready_row g0 g x -> ready_row g0 g' x.
Proof.
  intros H Hx (t0&?&?&?&?). exists t0. split_and!; try done. by rewrite H, bool_decide_eq_false_2.
Qed.

Lemma ready_row_cascade g0 g failed tf g' F S x :
  evolves g0 g -> graph_get g failed = Some tf -> t_status tf = Failed ->
  cascade_inv g failed g' F S -> ready_row g0 g x -> ready_row g0 g' x.
Proof.
  intros Hev Hf Hs Hca (t0&H0&Hg&Hw&Hd). exists t0. split_and!; try done.
  rewrite (ca_get _ _ _ _ _ Hca), bool_decide_eq_false_2; [done|].
  intros Hin%(ca_blocked _ _ _ _ _ Hca). revert Hin. eapply done_not_blocked; try done.
  by eapply deps_done_evolves.
Qed.

(** What folding the result of the task [id] into [g] gives. *)
Record folded (n : nat) (g0 g g' : TaskGraph) (alone : bool) (id : TaskId) : Prop := {
  fo_plan : plan_ok n g';
  fo_ended : exists t, graph_get g' id = Some t /\ is_terminal (t_status t) = true;
  fo_evolves : alone = false \/ ~ V -> evolves g g' /\
    forall x, x <> id -> ready_row g0 g x -> ready_row g0 g' x;
  fo_closed : ~ V -> failure_closed g -> failure_closed g';
}.

Lemma fail_in_graph_ok n g0 g g1 id t t' alone s :
  plan_ok n g -> evolves g0 g -> wf_graph g1 -> row_set g g1 id t' -> graph_get g id = Some t ->
  is_terminal (t_status t) = false -> t_id t' = id -> t_spec t' = t_spec t -> attempt_count t' <= N ->
  deps_done g t ->
  exists s' g', fail_in_graph wall session id g1 s = (s', Some g') /\ frame s s' /\
    folded n g0 g g' alone id.
Proof.
  intros Hok Hev W1 H1 Hg Ht Hid Hsp Hn Hd. unfold fail_in_graph. set (g2 := graph_update _ _ _).
  assert (wf_graph g2) as W2 by (by apply (wf_graph_update (with_status Failed))).
  assert (row_set g g2 id (with_status Failed t')) as H2.
  { intros x. unfold g2. rewrite graph_get_update, !H1. by case_bool_decide. }
  pose proof (evolves_row g g2 id t _ H2 Hg Hsp Ht) as Hev2.
  assert (plan_ok n g2) as Hok2.
  { apply (plan_ok_row gen N n g g2 id t (with_status Failed t')); try done.
    intros _. by apply (deps_done_evolves g g t _ (evolves_refl g)). }
  destruct (cascade_skip_runs g2 id W2) as (g'&F&S&->&Hca&Hdone).
  assert (framed (announce_skipped wall session id S)) as Hfr by (unfold announce_skipped; framed).
  destruct (Hfr s) as [Hs _]. unfold bind. destruct (announce_skipped _ _ _ _ s) as [s' u].
  exists s', g'. split_and!; [done|done|].
  assert (graph_get g2 id = Some (with_status Failed t')) as Hg2 by (by rewrite H2, bool_decide_eq_true_2).
  split.
  - by apply (plan_ok_cascade gen N n g2 id g' F S).
  - destruct (ev_rows _ _ (evolves_cascade _ _ _ _ _ Hca) id _ Hg2) as (tx&Hx&_&He).
    exists tx. split; [done|]. by rewrite (He eq_refl).
  - intros _. split; [eapply evolves_trans; [exact Hev2|by eapply evolves_cascade]|].
    intros x Hx Hr. apply (ready_row_cascade g0 g2 id (with_status Failed t') g' F S); try done.
    + by eapply evolves_trans.
    + by apply (ready_row_set g0 g g2 id (with_status Failed t')).
  - intros _ Hc. apply (cascade_inv_closed g2 id g' F S Hca Hdone). by eapply closed_failed.
Qed.

Lemma fold_result_ok n g0 g r alone s :
  run_ok gen V N n g0 r -> is_finished r = true -> plan_ok n g -> evolves g0 g ->
  ready_row g0 g (r_id r) -> (alone = true -> g = g0) ->
  exists s' g', fold_result wall session alone r g s = (s', Some g') /\
    sh_task_ids s' = sh_task_ids s /\ sh_ledger s' = release (r_id r) (sh_ledger s) /\
    folded n g0 g g' alone (r_id r).
Proof.
  intros Hrun Hf Hok Hev (t0&H0&Hg&Hw&Hd) Halone. pose proof (waiting_not_terminal _ Hw) as Hnt.
  destruct (executed_row n g0 r t0 Hrun Hf H0) as (t'&Ht'&Hid&Hsp&Hn&Hdone).
  destruct (row_set_wf g (r_id r) t0 t' (sp_wf _ (pl_sound _ _ _ _ Hok)) Hg Hid Hsp) as [W1 H1].
  unfold fold_result, bind, modify, fold_row. rewrite Ht'. set (g1 := graph_update _ _ _) in *.
  set (s1 := put_ledger _ s).
  assert (graph_len g1 = graph_len g) as ->.
  { apply same_deps_len; [apply (sp_wf _ (pl_sound _ _ _ _ Hok))|done|].
    by apply (row_set_deps g g1 (r_id r) t0 t'). }
  assert (deps_done g t0) as Hdg by (by apply (deps_done_evolves g0 g t0 t0)).
  destruct (negb (graph_len (r_graph r) =? graph_len g) && alone) eqn:Ead.
  { apply andb_true_iff in Ead as [Hlen%negb_true_iff%Z.eqb_neq Ha]. specialize (Halone Ha). subst g.
    destruct (adopted_ok n g0 r t0 Hrun Hf Hok H0 Hw Hd Hlen) as (HV&Hok'&He).
    exists s1, (r_graph r). split_and!; [done..|]. split; [done|done| |done].
    intros [?|?]; [congruence|done]. }
  assert (forall sg, sg = fail_in_graph wall session (r_id r) g1 s1 -> exists s' g', sg = (s', Some g') /\
    sh_task_ids s' = sh_task_ids s /\ sh_ledger s' = release (r_id r) (sh_ledger s) /\
    folded n g0 g g' alone (r_id r)) as Hfail.
  { intros sg ->. destruct (fail_in_graph_ok n g0 g g1 (r_id r) t0 t' alone s1) as (s'&g'&->&[Hl Hi]&Hfo);
      try done. exists s', g'. by split_and!. }
  destruct (r_phase r) as [| | | |[[]|]|] eqn:Ep; try by apply Hfail.
  destruct (Hdone eq_refl) as (Hst&Hterm&Hcomp). exists s1, g1. split_and!; [done..|].
  pose proof (evolves_row g g1 (r_id r) t0 t' H1 Hg Hsp Hnt) as Hev1. split.
  - apply (plan_ok_row gen N n g g1 (r_id r) t0 t'); try done.
    intros _. by apply (deps_done_evolves g g t0 t' (evolves_refl g)).
  - exists t'. by rewrite H1, bool_decide_eq_true_2.
  - intros _. split; [done|]. intros x Hx. by apply (ready_row_set g0 g g1 (r_id r) t').
  - intros HV Hc. apply (closed_completed g g1 (r_id r) t0 t' Hc H1 Hg Hsp). by apply Hcomp.
Qed.
End Fold.
