(* ===== verification/OrchestratorFacts.v ===== *)
(** * The orchestrator: waves end, claims are given back, plans run to their end

    The steps of a wave, the folding of its results and the claims around it
    come together in [wave_ok]; the loop over waves in [waves_ok]. *)

From S2P Require Export WaveFacts.
Open Scope string_scope.
Open Scope Z_scope.

(** ** Claims given back *)

Definition release_all (ids : list TaskId) (l : OwnershipLedger) : OwnershipLedger :=
  fold_left (fun l id => release id l) ids l.

Lemma release_all_ok ids claims :
  claims_ok claims -> exists claims', release_all ids (Some claims) = Some claims' /\ claims_ok claims' /\
    forall t q, holds claims' t q <-> holds claims t q /\ t ∉ ids.
Proof.
  unfold release_all. revert claims. induction ids as [|id ids IH]; intros claims Hok; cbn [fold_left].
  { exists claims. split_and!; [done|done|]. intros t q. pose proof (not_elem_of_nil t). tauto. }
  destruct (IH _ (release_ok id claims Hok)) as (c'&He&Hok'&Hh). exists c'. split_and!; [done|done|].
  intros t q. rewrite Hh, release_holds by apply Hok. rewrite not_elem_of_cons. tauto.
Qed.

(** Nothing is held, so nothing is claimed. *)
Lemma claims_empty claims : claims_ok claims -> (forall t q, ~ holds claims t q) -> claims = [].
Proof.
  intros Hok Hn. destruct claims as [|e claims]; [done|]. exfalso.
  destruct (claims_entry _ e Hok ltac:(left)) as [_ Hh]. by apply Hn in Hh.
Qed.

Lemma drop_claims_ok ids s :
  sh_ledger (drop_claims ids s).1 = release_all ids (sh_ledger s) /\
  sh_task_ids (drop_claims ids s).1 = sh_task_ids s.
Proof.
  unfold release_all. revert s. induction ids as [|id ids IH]; intros s; [done|].
  cbn [drop_claims for_all bind modify]. unfold drop_claims in IH. by rewrite !(proj1 (IH _)), !(proj2 (IH _)).
Qed.

(** ** Open tasks *)

Definition open_ids (g : TaskGraph) : list TaskId :=
  List.filter (fun id => match graph_get g id with Some t => negb (is_terminal (t_status t)) | None => false end)
    (bt_keys (g_tasks g)).

Lemma elem_of_open g id :
  id ∈ open_ids g <-> exists t, graph_get g id = Some t /\ is_terminal (t_status t) = false.
Proof.
  unfold open_ids. rewrite list_elem_of_In, filter_In, <- list_elem_of_In, <- bt_get_Some_keys.
  change (bt_get id (g_tasks g)) with (graph_get g id).
  destruct (graph_get g id) as [t|]; [|naive_solver]. rewrite negb_true_iff. split.
  - intros [_ ?]. by exists t.
  - intros (?&[= <-]&?). split; [by eexists|done].
Qed.

Lemma open_complete g : wf_graph g -> open_ids g = [] -> graph_complete g = true.
Proof.
  intros W He. apply (graph_complete_spec g W). intros id t Hg.
  destruct (is_terminal (t_status t)) eqn:E; [done|]. exfalso.
  assert (id ∈ open_ids g) as Hin by (apply elem_of_open; eauto). rewrite He in Hin.
  by apply not_elem_of_nil in Hin.
Qed.

(** The open tasks shrink as the plan moves on. *)
Lemma open_evolves g g' id t t' :
  wf_graph g' -> evolves g g' -> graph_get g id = Some t -> is_terminal (t_status t) = false ->
  graph_get g' id = Some t' -> is_terminal (t_status t') = true ->
  (length (open_ids g') < length (open_ids g))%nat.
Proof.
  intros W' [R Hn] Hg Ht Hg' Ht'. change (length (id :: open_ids g') <= length (open_ids g))%nat.
  apply nodup_incl_length.
  - constructor.
    + intros (?&?&?)%elem_of_open. congruence.
    + eapply sublist_NoDup; [apply (bt_wf_NoDup (g_tasks g')), W'|apply filter_sublist].
  - intros x [->|(tx&Hx&Htx)%elem_of_open]%elem_of_cons; [by apply elem_of_open; eauto|].
    destruct (graph_get g x) as [t0|] eqn:E; [|by rewrite (Hn x E) in Hx].
    apply elem_of_open. exists t0. split; [done|]. destruct (R x t0 E) as (tx'&Hx'&_&He).
    destruct (is_terminal (t_status t0)) eqn:Et; [|done]. rewrite (He eq_refl) in Hx'. congruence.
Qed.

(** ** The tasks of a wave *)

Lemma next_wave_ready config g id :
  wf_graph g -> id ∈ next_wave config g ->
  exists t, graph_get g id = Some t /\ is_waiting (t_status t) = true /\ deps_done g t.
Proof.
  intros W Hin. unfold next_wave in Hin. apply list_elem_of_fmap in Hin as (t&->&Hin).
  assert (t ∈ ready_tasks g) as (?&?&?)%(elem_of_ready_tasks g t W).
  { by eapply sublist_subseteq; [apply sublist_take|]. }
  by exists t.
Qed.

Lemma next_wave_nodup config g : wf_graph g -> NoDup (next_wave config g).
Proof.
  intros W. unfold next_wave.
  eapply sublist_NoDup; [|apply map_sublist, sublist_take].
  unfold ready_tasks. rewrite stable_sort_perm.
  eapply sublist_NoDup; [apply (graph_iter_nodup g W)|]. apply map_sublist.
  etrans; apply filter_sublist.
Qed.

Section Loop.
Context (wall clock : nat -> Z) (attempt_id : nat -> AttemptId) (elapsed : nat -> Z) (rng : nat -> Rng).
Context {C : Type} `{!ContextManager C} {P : Type} `{!Planner P}.
Context (config : Config) (workspace : string) (planner : P) (context_manager : C).
Context (adapters : btree AgentId AgentAdapter) (memory : option MemoryStore).
Context (guidance : option (CapabilitySet -> list SkillGuide)) (git : Git) (session : SessionId).
Context (alphanumeric : Z -> bool) (index : option WorkspaceIndex).
Context (gen : nat -> TaskId) `{!PlannerLaws gen planner}.

Local Abbreviation N := (max_attempts (retry_policy config)).
Local Abbreviation V := (revises_plans planner).
Local Abbreviation plan_ok := (plan_ok gen N).
Local Abbreviation run_wave := (run_wave wall clock attempt_id elapsed rng config workspace planner
  context_manager adapters memory guidance git session).
Local Abbreviation wave := (wave wall clock attempt_id elapsed rng config workspace planner
  context_manager adapters memory guidance git session alphanumeric index).
Local Abbreviation waves := (waves wall clock attempt_id elapsed rng config workspace planner
  context_manager adapters memory guidance git session alphanumeric index).
Local Abbreviation admit_one := (admit_one alphanumeric index).
Local Abbreviation admit_concurrently := (admit_concurrently alphanumeric index).

(** ** Folding all the results *)

Lemma fold_results_ok g0 alone runs : forall g s,
  Forall (run_ok gen V N (sh_task_ids s) g0) runs -> Forall (fun r => is_finished r = true) runs ->
  NoDup (map r_id runs) -> plan_ok (sh_task_ids s) g -> evolves g0 g ->
  Forall (fun r => ready_row g0 g (r_id r)) runs ->
  (alone = true -> g = g0 /\ (length runs <= 1)%nat) ->
  exists s' g', fold_results wall session alone runs g s = (s', Some g') /\
    sh_task_ids s' = sh_task_ids s /\ sh_ledger s' = release_all (map r_id runs) (sh_ledger s) /\
    plan_ok (sh_task_ids s) g' /\
    (~ V -> failure_closed g -> evolves g g' /\ failure_closed g' /\
       Forall (fun r => exists t, graph_get g' (r_id r) = Some t /\ is_terminal (t_status t) = true) runs).
Proof.
  induction runs as [|r runs IH]; intros g s Hruns Hfin Hnd Hok Hev Hready Halone; cbn [fold_results].
  { exists s, g. split_and!; try done. intros _ Hc. split_and!; [apply evolves_refl|done|constructor]. }
  apply list.Forall_cons in Hruns as [Hrun Hruns]. apply list.Forall_cons in Hfin as [Hf Hfin].
  apply list.Forall_cons in Hready as [Hr Hready]. cbn [map] in Hnd. apply list.NoDup_cons in Hnd as [Hni Hnd].
  unfold bind. destruct (fold_result_ok wall config planner session gen (sh_task_ids s) g0 g r alone s)
    as (s1&g1&->&Hi&Hl&[Hok1 He1 Hev1 Hc1]); try done; [by intros Ha; apply Halone|].
  assert (runs = [] \/ alone = false) as Hcase.
  { destruct alone; [|by right]. destruct (Halone eq_refl) as [_ Hlen]. left.
    destruct runs; [done|]. simpl in Hlen. lia. }
  rewrite <- Hi in Hruns, Hok1 |- *.
  destruct Hcase as [->| ->].
  { exists s1, g1. cbn [fold_results ret map]. split_and!; try done.
    intros HV Hc. destruct (Hev1 (or_intror HV)) as [? _]. split_and!; [done|by apply Hc1|by repeat constructor]. }
  destruct (Hev1 (or_introl eq_refl)) as [Hev2 Hrows].
  destruct (IH g1 s1) as (s'&g'&->&Hi'&Hl'&Hok'&Hlive); try done.
  - by eapply evolves_trans.
  - apply list.Forall_forall. intros r' Hin. apply Hrows.
    + intros Heq. apply Hni. rewrite <- Heq. by apply (list_elem_of_fmap_2 r_id).
    + rewrite list.Forall_forall in Hready. by apply Hready.
  - exists s', g'. split_and!; [done|done| |done|].
    + rewrite Hl', Hl. done.
    + intros HV Hc. destruct (Hlive HV (Hc1 HV Hc)) as (Hev3&Hc3&Hall).
      split_and!; [by eapply evolves_trans|done|constructor; [|done]].
      destruct He1 as (t&Hg&Ht). destruct (ev_rows _ _ Hev3 _ _ Hg) as (t'&Hg'&_&He).
      exists t'. split; [done|]. by rewrite (He Ht).
Qed.

(** ** A wave *)

Lemma start_run_ok n g id t :
  plan_ok n g -> graph_get g id = Some t -> is_waiting (t_status t) = true ->
  run_ok gen V N n g (start_run workspace g id).
Proof.
  intros [Hs Hf Hset _] Hg Hw. split; [done|done|]. apply (on_course _ _ _ _ t t); try done.
  split; [done|]. by apply (Hset _ _ Hg).
Qed.

(** The first task of a wave is admitted when nothing is claimed. *)
Lemma first_admitted g id ready t :
  graph_get g id = Some t ->
  exists claims more, admit_concurrently g (id :: ready) (Some []) = (Some claims, (id :: more)%list).
Proof.
  intros Hg. unfold Orchestrator.admit_concurrently. cbn [fold_left].
  assert (exists c, admit_one g (Some [], []) id = (Some c, [id]) /\ claims_ok c /\
    Forall (secured alphanumeric index g c) [id]) as (c&Ec&Hok&Hs).
  { unfold Orchestrator.admit_one. rewrite Hg. case_bool_decide as Hr.
    { exists []. split_and!; [done|apply claims_ok_nil|]. constructor; [|done]. intros tk p. congruence. }
    pose proof (claim_holds id (writes_of alphanumeric index g t) [] claims_ok_nil) as Hc.
    destruct (claim _ _ _) as [l [u|e]]; destruct Hc as (c&->&Hok&_&Hc).
    - exists c. split_and!; [done|done|]. constructor; [|done]. intros tk p Hg' _ Hin. apply Hc. congruence.
    - destruct Hc as (_&?&?&Hh). discriminate Hh. }
  destruct (admit_ok alphanumeric index g ready c [id] Hok Hs) as (c'&more&E&_).
  exists c', more. etransitivity; [|exact E]. exact (f_equal (fold_left (admit_one g) ready) Ec).
Qed.

Record ready_list (g : TaskGraph) (ready : list TaskId) : Prop := {
  rl_rows : forall id, id ∈ ready -> exists t, graph_get g id = Some t /\
    is_waiting (t_status t) = true /\ deps_done g t;
  rl_nodup : NoDup ready;
}.

Lemma wave_ok pick g ready claims s :
  plan_ok (sh_task_ids s) g -> ready_list g ready -> sh_ledger s = Some claims -> claims_ok claims ->
  exists s' g' claims', wave pick g ready s = (s', Some g') /\
    plan_ok (sh_task_ids s') g' /\ sh_ledger s' = Some claims' /\ claims_ok claims' /\
    (forall t q, holds claims' t q -> holds claims t q) /\
    (~ V -> failure_closed g -> evolves g g' /\ failure_closed g' /\
       (claims = [] -> ready <> [] -> (length (open_ids g') < length (open_ids g))%nat)).
Proof.
  intros Hok [Hrows Hnd] Hl Hcok. unfold Orchestrator.wave. unfold bind at 1. unfold gets at 1.
  destruct (admit_concurrently g ready (sh_ledger s)) as [l1 admitted] eqn:Ead.
  rewrite Hl in Ead.
  destruct (admit_ok alphanumeric index g ready claims [] Hcok) as (c1&more&He&Hok1&Hsub&_&Hb&_); [done|].
  assert ((l1, admitted) = (Some c1, more)) as [= -> ->] by exact (eq_trans (eq_sym Ead) He).
  unfold bind at 1. unfold modify at 1. set (s1 := put_ledger _ s).
  assert (forall id, id ∈ more -> exists t, graph_get g id = Some t /\
    is_waiting (t_status t) = true /\ deps_done g t) as Hmore.
  { intros id Hin. apply Hrows. by eapply sublist_subseteq. }
  destruct (run_wave_ok wall clock attempt_id elapsed rng config workspace planner context_manager
    adapters memory guidance git session gen g (length more * run_fuel config)%nat pick
    (map (start_run workspace g) more) s1) as (s2&runs&Hrun&Hl2&Hn2&Hruns&Hfin&Hids).
  { apply list.Forall_forall. intros r (id&->&Hin)%list_elem_of_fmap.
    destruct (Hmore id Hin) as (t&?&?&_). by apply (start_run_ok _ _ _ t). }
  { rewrite <- (length_map (start_run workspace g) more). apply total_bound, list.Forall_forall.
    intros r (id&->&_)%list_elem_of_fmap. unfold run_fuel, steps_left. cbn [start_run r_phase]. lia. }
  unfold bind at 1. rewrite Hrun.
  assert (map r_id runs = more) as Hids'.
  { rewrite Hids, map_map. simpl. apply map_id. }
  destruct (fold_results_ok g (Nat.eqb (length runs) 1) runs g s2) as (s3&g'&Hfold&Hi3&Hl3&Hok3&Hlive);
    try done.
  - rewrite Hids'. by eapply sublist_NoDup.
  - by eapply plan_ok_mono.
  - apply evolves_refl.
  - apply list.Forall_forall. intros r Hr. destruct (Hmore (r_id r)) as (t&?&?&?); [|by exists t].
    rewrite <- Hids'. by apply (list_elem_of_fmap_2 r_id).
  - intros ->%Nat.eqb_eq. by split; [|lia].
  - unfold bind. rewrite Hfold. destruct (drop_claims_ok more s3) as [Hl4 Hi4].
    destruct (drop_claims more s3) as [s4 u]. cbn [fst] in *.
    rewrite Hl3, Hids', Hl2 in Hl4. change (sh_ledger s1) with (Some c1) in Hl4.
    destruct (release_all_ok more c1 Hok1) as (c2&E2&Hok2&Hh2). rewrite E2 in Hl4.
    destruct (release_all_ok more c2 Hok2) as (c3&E3&Hok3'&Hh3). rewrite E3 in Hl4.
    exists s4, g', c3. split_and!; [done| |done|done| |].
    + by rewrite Hi4, Hi3.
    + intros t q [[Hq Hni]%Hh2 _]%Hh3. by destruct (Hb t q Hq).
    + intros HV Hc. destruct (Hlive HV Hc) as (Hev&Hc'&Hall). split_and!; [done|done|].
      intros -> Hne. destruct ready as [|id ready]; [done|].
      destruct (Hrows id ltac:(left)) as (t&Hg&Hw&_).
      destruct (first_admitted g id ready t Hg) as (c&more'&Ef). pose proof (eq_trans (eq_sym Ead) Ef) as [= _ Hm].
      assert (exists r, r ∈ runs /\ r_id r = id) as (r&Hr&<-).
      { assert (id ∈ map r_id runs) as (r&->&Hr)%list_elem_of_fmap; [|by exists r].
        rewrite Hids', Hm. left. }
      rewrite list.Forall_forall in Hall. destruct (Hall r Hr) as (t'&Hg'&Ht').
      apply (open_evolves g g' (r_id r) t t'); try done; [apply (sp_wf _ (pl_sound _ _ _ _ Hok3))|].
      by apply waiting_not_terminal.
Qed.

(** ** The loop *)

Lemma next_wave_list n g : plan_ok n g -> ready_list g (next_wave config g).
Proof.
  intros Hok. pose proof (sp_wf _ (pl_sound _ _ _ _ Hok)) as W.
  split; [intros id; by apply next_wave_ready|by apply next_wave_nodup].
Qed.

(** Something is ready as long as a closed plan is unfinished. *)
Lemma next_wave_some n g :
  plan_ok n g -> failure_closed g -> graph_complete g = false -> 1 <= max_parallel_tasks (limits config) ->
  next_wave config g <> [].
Proof.
  intros [[W Hd Hr Ha] _ Hset _] Hc Hcomp Hpar.
  assert (ready_tasks g <> []) as Hne.
  { assert (nothing_running g) as Hrun by (intros id t Hg; by apply (Hset id t Hg)).
    destruct (progresses g W Hd Ha Hc Hrun Hcomp) as [t Ht]. intros He. rewrite He in Ht.
    by apply not_elem_of_nil in Ht. }
  unfold next_wave. destruct (ready_tasks g) as [|t l]; [done|].
  destruct (Z.to_nat (max_parallel_tasks (limits config))) eqn:E; [lia|]. done.
Qed.

Lemma waves_ok passes pick : forall g claims s,
  plan_ok (sh_task_ids s) g -> sh_ledger s = Some claims -> claims_ok claims ->
  exists s' g' claims', waves passes pick g s = (s', Some g') /\
    plan_ok (sh_task_ids s') g' /\ sh_ledger s' = Some claims' /\ claims_ok claims' /\
    (forall t q, holds claims' t q -> holds claims t q) /\
    (~ V -> failure_closed g -> claims = [] -> 1 <= max_parallel_tasks (limits config) ->
     (length (open_ids g) <= passes)%nat -> evolves g g' /\ graph_complete g' = true).
Proof.
  induction passes as [|passes IH]; intros g claims s Hok Hl Hcok; cbn [Orchestrator.waves].
  { exists s, g, claims. split_and!; try done. intros _ _ _ _ Hle. split; [apply evolves_refl|].
    apply open_complete; [apply (sp_wf _ (pl_sound _ _ _ _ Hok))|]. by destruct (open_ids g); [|simpl in Hle; lia]. }
  destruct (graph_complete g) eqn:Ec.
  { exists s, g, claims. split_and!; try done. intros. split; [apply evolves_refl|done]. }
  pose proof (next_wave_some _ g Hok) as Hsome. pose proof (next_wave_list _ g Hok) as Hlist.
  destruct (next_wave config g) as [|id ready] eqn:En.
  { exists s, g, claims. split_and!; try done. intros _ Hc _ Hpar _. by destruct Hsome. }
  destruct (wave_ok (pick passes) g (id :: ready) claims s Hok Hlist Hl Hcok)
    as (s1&g1&c1&Hw&Hok1&Hl1&Hcok1&Hh1&Hlive1). unfold bind. rewrite Hw.
  destruct (IH g1 c1 s1 Hok1 Hl1 Hcok1) as (s'&g'&c'&->&Hok'&Hl'&Hcok'&Hh'&Hlive').
  exists s', g', c'. split_and!; try done; [by auto|].
  intros HV Hc -> Hpar Hle. destruct (Hlive1 HV Hc) as (Hev&Hc1&Hlt).
  destruct Hlive' as [Hev' Hdone]; try done.
  - apply claims_empty; [done|]. intros t q Hh%Hh1. discriminate Hh.
  - specialize (Hlt eq_refl ltac:(done)). lia.
  - split; [by eapply evolves_trans|done].
Qed.
End Loop.
