(* ===== verification/SessionFacts.v ===== *)
(** * Sessions: what holds of every session the orchestrator runs *)

From S2P Require Export OrchestratorFacts.
Open Scope string_scope.
Open Scope Z_scope.

Section Sessions.
Context (wall clock : nat -> Z) (attempt_id : nat -> AttemptId) (elapsed : nat -> Z) (rng : nat -> Rng).
Context {C : Type} `{!ContextManager C} {P : Type} `{!Planner P}.
Context (config : Config) (workspace : string) (planner : P) (context_manager : C).
Context (adapters : btree AgentId AgentAdapter) (memory : option MemoryStore).
Context (guidance : option (CapabilitySet -> list SkillGuide)) (git : Git) (session : SessionId).
Context (alphanumeric : Z -> bool) (index : option WorkspaceIndex).
Context (gen : nat -> TaskId) `{!PlannerLaws gen planner}.

Local Abbreviation N := (max_attempts (retry_policy config)).
Local Abbreviation V := (revises_plans planner).
Local Abbreviation execute_graph := (execute_graph wall clock attempt_id elapsed rng config workspace planner
  context_manager adapters memory guidance git session alphanumeric index).
Local Abbreviation run_session := (run_session wall clock attempt_id elapsed rng config workspace planner
  context_manager adapters memory guidance git session alphanumeric index).
Local Abbreviation plan_goal := (plan_goal config workspace planner memory).

(** A plan nothing has happened to. *)
Lemma planned_row n n' g id t : planned gen n n' g -> graph_get g id = Some t -> untouched t.
Proof.
  intros [Hs _ _ Hu] Hg. rewrite list.Forall_forall in Hu. apply Hu.
  apply (elem_of_graph_iter g (sp_wf _ Hs)). by rewrite (wf_ids _ (sp_wf _ Hs) _ _ Hg).
Qed.

Lemma planned_ok n n' g : planned gen n n' g -> plan_ok gen N n' g.
Proof.
  intros Hp. split; [apply Hp|apply Hp|..].
  - intros id t Hg. eapply untouched_settled, planned_row; eauto.
  - intros id t Hg Ha. by destruct (planned_row _ _ _ _ _ Hp Hg).
Qed.

Lemma planned_closed n n' g : planned gen n n' g -> failure_closed g.
Proof.
  intros Hp id t d dt _ _ _ Hd Ht. destruct (planned_row _ _ _ _ _ Hp Hd) as [Hs _]. by rewrite Hs in Ht.
Qed.

(** The loop makes enough passes for a plan of a realistic size. *)
Lemma enough_passes g : graph_len g < 2 ^ 62 -> (length (open_ids g) <= max_passes g)%nat.
Proof.
  intros Hlen.
  assert (length (open_ids g) <= length (g_tasks g))%nat as Hopen.
  { rewrite <- keys_length. apply sublist_length, filter_sublist. }
  unfold max_passes, graph_len in *. unfold wrap64, sat64, U64_MAX. rewrite Z.mod_small; lia.
Qed.

(** Planning only draws identifiers. *)
Lemma plan_goal_ok goal s :
  exists s' r, plan_goal goal s = (s', Some r) /\ sh_ledger s' = sh_ledger s /\
    match r with
    | Ok g => exists n, planned gen n (sh_task_ids s') g
    | Err _ => True
    end.
Proof.
  unfold Orchestrator.plan_goal.
  set (recall := match memory with None => _ | Some _ => _ end).
  assert (framed recall) as Hfr by (unfold recall; framed). unfold bind at 1.
  destruct (Hfr s) as [[Hl Hi] _]. destruct (recall s) as [s1 memories]. cbn [fst] in *.
  cbv zeta. set (ctx := {| pc_workspace := workspace |}).
  pose proof (plan_answers (gen := gen) (p := planner) goal ctx (sh_task_ids s1)) as Hans.
  pose proof (plan_sound (gen := gen) (p := planner) goal ctx (sh_task_ids s1)) as Hsound.
  destruct (plan planner goal ctx (sh_task_ids s1)) as [n [[g|e]|]]; cbn [fst snd] in *; [| |done].
  - specialize (Hsound g eq_refl). rewrite checked_sound by apply Hsound.
    eexists _, _. split_and!; [done|done|]. by exists (sh_task_ids s1).
  - by eexists _, _.
Qed.

(** ** Properties *)

(** C5: two tasks that are to run side by side and may change files are
    predicted to write disjoint paths: none of the one's paths, once normalized,
    overlaps one of the other's.  Only ready tasks are admitted, none twice, and
    when no path is claimed the first ready task always is. *)
Theorem admitted_disjoint g ready claims (Hok : claims_ok claims) (Hnd : NoDup ready) :
  let '(ledger, admitted) := admit_concurrently alphanumeric index g ready (Some claims) in
  admitted `sublist_of` ready /\
  (forall a b ta tb p q, a ∈ admitted -> b ∈ admitted -> a <> b ->
     graph_get g a = Some ta -> graph_get g b = Some tb ->
     sp_risk (t_spec ta) <> ReadOnly -> sp_risk (t_spec tb) <> ReadOnly ->
     p ∈ writes_of alphanumeric index g ta -> q ∈ writes_of alphanumeric index g tb ->
     overlaps (normalize p) (normalize q) = false) /\
  (claims = [] -> forall id rest, ready = id :: rest -> is_Some (graph_get g id) -> id ∈ admitted).
Proof.
  destruct (admit_concurrently alphanumeric index g ready (Some claims)) as [ledger admitted] eqn:E.
  destruct (admit_ok alphanumeric index g ready claims []) as (c&more&He&Hc&Hsub&_&_&Hsec); [done|done|].
  pose proof (eq_trans (eq_sym E) He) as [= -> ->]. split_and!; [done|..].
  - intros a b ta tb p q Ha Hb Hab Hga Hgb Hra Hrb Hp Hq. rewrite list.Forall_forall in Hsec.
    destruct (Hsec a Ha ta p Hga Hra Hp) as (p'&Hhp&Hcp). destruct (Hsec b Hb tb q Hgb Hrb Hq) as (q'&Hhq&Hcq).
    rewrite (overlaps_components _ _ p' q') by done. by apply (co_exclusive _ Hc a b).
  - intros -> id rest -> [t Hg]. destruct (first_admitted alphanumeric index g id rest t Hg) as (c'&more'&Ef).
    pose proof (eq_trans (eq_sym E) Ef) as [= _ ->]. left.
Qed.

(** C4: executing a plan always ends, whatever agents answer, whatever order
    the tasks of a wave advance in and whether or not plans are revised on the
    way.  The final plan is sound; no task is left running; every task was
    attempted at most [max_retries + 1] times (at least twice allowed), and only
    once everything it depends on had completed; a completed task ends in its
    one successful attempt; and every path claimed on the way is given back. *)
Theorem execute_graph_ends pick g n claims s
    (Hp : planned gen n (sh_task_ids s) g) (Hl : sh_ledger s = Some claims) (Hok : claims_ok claims) :
  exists s' g' claims', execute_graph pick g s = (s', Some g') /\ sound_plan g' /\
    sh_ledger s' = Some claims' /\ (forall t q, holds claims' t q -> holds claims t q) /\
    forall id t, graph_get g' id = Some t ->
      settled N t /\ (t_attempts t <> [] -> deps_done g' t).
Proof.
  destruct (waves_ok wall clock attempt_id elapsed rng config workspace planner context_manager adapters
    memory guidance git session alphanumeric index gen (max_passes g) pick g claims s) as (s'&g'&c'&He&Hg&Hl'&_&Hh&_);
    [by eapply planned_ok|done|done|].
  exists s', g', c'. split_and!; [done|apply Hg|done|done|]. intros id t Ht.
  split; [by apply (pl_settled _ _ _ _ Hg id)|by apply (pl_ordered _ _ _ _ Hg id)].
Qed.

(** C3: with a planner that does not revise plans, as by default, nothing
    claimed, and room for one task at a time, executing a plan leaves every task
    completed, failed or skipped: the loop neither stalls nor runs out of
    passes.  The tasks are those of the plan. *)
Theorem execute_graph_completes pick g n s
    (Hp : planned gen n (sh_task_ids s) g) (Hl : sh_ledger s = Some []) (HV : ~ V)
    (Hpar : 1 <= max_parallel_tasks (limits config)) (Hlen : graph_len g < 2 ^ 62) :
  exists s' g', execute_graph pick g s = (s', Some g') /\ sh_ledger s' = Some [] /\
    graph_complete g' = true /\ evolves g g'.
Proof.
  destruct (waves_ok wall clock attempt_id elapsed rng config workspace planner context_manager adapters
    memory guidance git session alphanumeric index gen (max_passes g) pick g [] s) as (s'&g'&c'&He&Hg&Hl'&Hc&Hh&Hlive);
    [by eapply planned_ok|done|apply claims_ok_nil|].
  destruct Hlive as [Hev Hdone]; [done|by eapply planned_closed|done|done|by apply enough_passes|].
  exists s', g'. split_and!; try done. rewrite Hl'. f_equal. apply claims_empty; [done|].
  intros t q Hq%Hh. discriminate Hq.
Qed.

(** C2: a session always ends with a result or an error.  A result's graph
    satisfies what [execute_graph_ends] says, it is a success exactly when every
    task completed, and its paths are given back. *)
Theorem run_session_reports pick goal claims s
    (Hl : sh_ledger s = Some claims) (Hok : claims_ok claims) :
  exists s' r claims', run_session pick goal s = (s', Some r) /\
    sh_ledger s' = Some claims' /\ (forall t q, holds claims' t q -> holds claims t q) /\
    forall result, r = Ok result ->
      sound_plan (sr_graph result) /\
      (forall id t, graph_get (sr_graph result) id = Some t ->
         settled N t /\ (t_attempts t <> [] -> deps_done (sr_graph result) t)) /\
      (sr_success result = true <->
         forall id t, graph_get (sr_graph result) id = Some t -> t_status t = Completed).
Proof.
  unfold Orchestrator.run_session.
  assert (forall m : M unit, framed m -> forall s0, exists s1 u, m s0 = (s1, u) /\ sh_ledger s1 = sh_ledger s0 /\
    sh_task_ids s1 = sh_task_ids s0) as Hstep.
  { intros m Hm s0. destruct (Hm s0) as [[? ?] _]. exists (m s0).1, (m s0).2. by destruct (m s0). }
  assert (forall k, framed (publish_session wall session k)) as Hpub.
  { intros k. unfold publish_session, publish_event. framed. }
  unfold bind at 1. destruct (Hstep _ (framed_tell (RecSessionStarted goal)) s) as (s1&u1&->&Hl1&_).
  unfold bind at 1. destruct (Hstep _ (Hpub (SessionStarted goal)) s1) as (s2&u2&->&Hl2&_).
  unfold bind at 1. destruct (plan_goal_ok goal s2) as (s3&r&->&Hl3&Hr).
  destruct r as [g|e]; [|exists s3, (Err e), claims; split_and!; [done|congruence|done|done]].
  destruct Hr as [n Hp]. unfold bind at 1.
  destruct (Hstep _ (Hpub (TaskPlanned (graph_len g))) s3) as (s4&u4&->&Hl4&Hi4). rewrite <- Hi4 in Hp.
  unfold bind at 1. destruct (waves_ok wall clock attempt_id elapsed rng config workspace planner
    context_manager adapters memory guidance git session alphanumeric index gen (max_passes g) pick g claims s4)
    as (s5&g'&c'&He&Hg&Hl5&_&Hh&_); [by eapply planned_ok|congruence|done|].
  unfold Orchestrator.execute_graph. rewrite He. unfold bind, gets.
  destruct (Hstep _ (Hpub (SessionCompleted (forallb is_completed (graph_iter g')))) s5) as (s6&u6&->&Hl6&_).
  cbv zeta. set (report := {| sr_session_id := session |}).
  destruct (Hstep _ (framed_tell (RecSessionFinished report)) s6) as (s7&u7&->&Hl7&_).
  eexists s7, _, c'. split_and!; [done|congruence|done|]. intros result [= <-]. cbn [sr_graph sr_success].
  pose proof (sp_wf _ (pl_sound _ _ _ _ Hg)) as W. split_and!; [apply Hg|..].
  - intros id t Ht. split; [by apply (pl_settled _ _ _ _ Hg id)|by apply (pl_ordered _ _ _ _ Hg id)].
  - unfold report. cbn [sr_graph sr_success]. rewrite forallb_forall. split.
    + intros H id t Ht. specialize (H t). rewrite <- list_elem_of_In, (elem_of_graph_iter g' W) in H.
      rewrite (wf_ids _ W _ _ Ht) in H. specialize (H Ht). by apply bool_decide_eq_true in H.
    + intros H t Ht%list_elem_of_In%(elem_of_graph_iter g' W). apply bool_decide_eq_true. by eapply H.
Qed.
End Sessions.

(** ** Who gets a task, and what a failed agent or a split task

      leads to *)

Section Dispatch.
Context (wall clock : nat -> Z) (attempt_id : nat -> AttemptId) (elapsed : nat -> Z).
Context {C : Type} `{!ContextManager C}.
Context (config : Config) (context_manager : C).
Context (adapters : btree AgentId AgentAdapter) (memory : option MemoryStore).
Context (guidance : option (CapabilitySet -> list SkillGuide)) (session : SessionId).

Local Abbreviation N := (max_attempts (retry_policy config)).
Local Abbreviation select := (select wall clock attempt_id elapsed config context_manager adapters
  memory guidance session).
Local Abbreviation start_attempt := (start_attempt wall attempt_id elapsed config context_manager adapters
  memory guidance session).

(** Announcing and sending an attempt leaves the breakers alone. *)
Lemma start_attempt_shape task d r s :
  let '(s', r') := start_attempt task d r s in
  sh_breakers s' = sh_breakers s /\ r_id r' = r_id r /\
  r_graph r' = graph_update (fun t => with_assignment (c_agent_id (selected d)) (c_model_id (selected d))
                                        (with_status Running t)) (r_id r) (r_graph r) /\
  exists p, r_phase r' = Waiting p /\ p_task p = task /\ p_agent p = c_agent_id (selected d) /\
    p_model p = c_model_id (selected d).
Proof.
  unfold Attempt.start_attempt, deliver_handoff, bind, ret, modify, gets, tell, now, publish_attempt,
    emit, publish, publish_event. cbn.
  destruct (r_delivered r), (r_handoff r) as [h|]; [| |destruct memory|]; cbn;
    destruct (adapter_answer _ _ _ _ _) as [result chunks]; cbn; (split_and!; [done..|]); by eexists.
Qed.

(** The health an agent is left with by a failure that counts. *)
Lemma note_failure_health p class reason r s :
  counts_against_health class = true -> cr_breakers (br_registry (sh_breakers s)) <> None ->
  let s' := (note_failure wall clock session p class reason r s).1 in
  exists at_, sh_agents s' =
    set_health at_ (p_agent p)
      (to_health (cb_state (breaker_at (br_registry (sh_breakers s')) (KAgent (p_agent p)))))
      (Some reason) (sh_agents s).
Proof.
  intros Hc Hb. unfold note_failure, bind, ret, modify, gets, tell, now, publish_attempt, emit, publish,
    publish_event, on_breakers. cbn. rewrite Hc.
  pose proof (registry_failure_alive (clock (br_ticks (sh_breakers s))) (p_agent p) (p_model p) class reason
    (br_registry (sh_breakers s)) Hb) as Ha.
  destruct (registry_record_failure _ _ _ _ _ _) as [b1 st1]. cbn in *. unfold registry_health.
  set (f := fun b => let '(b', s0) := state_at _ b in (b', to_health s0)).
  pose proof (with_breaker_at (KAgent (p_agent p)) (KAgent (p_agent p)) f b1 Ha) as Hat.
  pose proof (with_breaker_value (KAgent (p_agent p)) f b1 Ha) as Hv.
  destruct (with_breaker (KAgent (p_agent p)) f b1) as [b2 h]. cbn in *. rewrite Hv.
  rewrite bool_decide_eq_true_2 in Hat by done. unfold f in *. cbn in *.
  destruct (p_model p); cbn; rewrite Hat; by eexists.
Qed.
End Dispatch.

(** The agents of a registry are stored under their own identifiers. *)
Definition own_ids (r : AgentRegistry) : Prop :=
  bt_wf r /\ forall id a, bt_get id r = Some a -> a_id a = id.

Lemma snapshot_row r a : own_ids r -> a ∈ Registry.registry_snapshot r -> bt_get (a_id a) r = Some a.
Proof.
  intros [W Hid] Ha. unfold Registry.registry_snapshot, bt_values in Ha.
  apply list_elem_of_fmap in Ha as ([id a']&->&Hin). apply bt_elem_of_get in Hin; [|by apply bt_wf_NoDup].
  cbn [snd]. by rewrite (Hid _ _ Hin).
Qed.

(** ** Properties *)

(** C7: a task is handed only to a target that may run it.  When selecting ends
    with an attempt under way, the budget of attempts was not exhausted, the
    target satisfies every hard constraint of routing for that task, among them
    that this task has not abandoned it and that the session's budget is not
    spent, and its breakers are not open; the task's row says it is running
    there. *)
Theorem dispatch_safe wall clock attempt_id elapsed {C : Type} `{!ContextManager C} config
    (context_manager : C) adapters memory guidance session r s p
    (Hr : r_phase r = Selecting) :
  let '(s', r') := select wall clock attempt_id elapsed config context_manager adapters memory guidance
                     session r s in
  r_phase r' = Waiting p ->
  exists task d, graph_get (r_graph r) (r_id r) = Some task /\
    wrap32 (attempt_count task) < max_attempts (retry_policy config) /\
    sound_candidate (router config) (sh_history s) (route_request config task (r_abandoned r) s)
      (br_registry (sh_breakers s')) d /\
    p_agent p = c_agent_id d /\ p_model p = c_model_id d /\
    graph_get (r_graph r') (r_id r) = Some (with_assignment (p_agent p) (p_model p) (with_status Running task)).
Proof.
  unfold Attempt.select. destruct (graph_get (r_graph r) (r_id r)) as [task|] eqn:Eg; [|done].
  destruct (Z.leb_spec (max_attempts (retry_policy config)) (wrap32 (attempt_count task))) as [|Hn]; [done|].
  unfold bind at 1, route_task.
  destruct (route clock (router config) (sh_history s) (route_request config task (r_abandoned r) s)
    (sh_breakers s)) as [b' [d|e]] eqn:Er; [|done].
  pose proof (route_sound _ _ _ _ _ _ _ Er) as Hs. apply list.Forall_cons in Hs as [Hs _].
  pose proof (start_attempt_shape wall attempt_id elapsed config context_manager adapters memory
    guidance session task d r (put_breakers b' s)) as Hst.
  destruct (start_attempt _ _ _ _ _ _ _ _ _ _ _ _ _) as [s' r'].
  destruct Hst as (Hb&_&Hg&p'&Hp'&_&Ha&Hm). rewrite Hp'. intros [= <-].
  exists task, (selected d). rewrite Hb. split_and!; try done. rewrite Hg, Ha, Hm. exact (get_own _ _ _ _ Eg).
Qed.

(** An agent whose breaker is open after a failure is not probed once the
    cooldown has passed.  The failure makes its health [Unavailable]; from that
    registry no later routing, at any time and with any state of the breakers,
    selects the agent or ranks it. *)
Theorem tripped_agent_shut_out wall clock session p class reason r s s'
    (Hown : own_ids (sh_agents s)) (Hc : counts_against_health class = true)
    (Hb : cr_breakers (br_registry (sh_breakers s)) <> None)
    (Hs : note_failure wall clock session p class reason r s = (s', tt))
    (Hopen : cb_state (breaker_at (br_registry (sh_breakers s')) (KAgent (p_agent p))) = Open)
    config later history task abandoned b b' d :
  route later (router config) history (route_request config task abandoned s') b = (b', Ok d) ->
  Forall (fun c => c_agent_id c <> p_agent p) (selected d :: alternatives d).
Proof.
  intros Hr%route_sound. pose proof (note_failure_health wall clock session p class reason r s Hc Hb) as Hh.
  rewrite Hs in Hh. cbn [fst] in Hh. destruct Hh as [at_ Hag]. rewrite Hopen in Hag.
  eapply list.Forall_impl; [exact Hr|]. intros c (a&m&[[Ha _] Hok _ _ _]&->&_) Heq.
  assert (a_id a = p_agent p) as Hid.
  { rewrite <- Heq. unfold score_target. destruct (score_all _ _ _), (blend _ _ _ _ _ _ _). done. }
  cbn [rq_snapshot route_request with_budget excluding request_new] in Ha.
  assert (own_ids (sh_agents s')) as Hown'.
  { rewrite Hag. destruct Hown as [W Hi]. split; [by apply bt_wf_alter|].
    intros id x. unfold set_health. rewrite bt_get_alter. case_bool_decide as Hx; [|apply Hi].
    destruct (bt_get id (sh_agents s)) as [x0|] eqn:E; [|done]. intros [= <-]. exact (Hi _ _ E). }
  apply (snapshot_row _ _ Hown') in Ha. rewrite Hag, Hid in Ha. unfold set_health in Ha.
  rewrite bt_get_alter, bool_decide_eq_true_2 in Ha by done.
  destruct (bt_get (p_agent p) (sh_agents s)) as [x|]; [|done]. injection Ha as <-.
  by destruct Hok as [_ _ _ Hh].
Qed.

(** Re-planning strands what depends on the split task.  However execution
    goes on from the revised plan, a task that depends on the one that was split
    never becomes ready, whatever becomes of the halves. *)
Theorem split_strands_dependents gen (gen_inj : forall i j, gen i = gen j -> i = j) lower
    g failed reason n g' g'' t tk
    (Hs : sound_plan g) (Hf : fresh_from gen n g) (Hg : graph_get g (t_id failed) = Some failed)
    (Hr : (heuristic_replan gen lower g failed reason n).2 = Some (Ok (Some g')))
    (Hev : evolves g' g'') (W : wf_graph g'') (Hd : depends g t (t_id failed))
    (Hne : t <> t_id failed) :
  depends g'' t (t_id failed) /\ (tk ∈ ready_tasks g'' -> t_id tk <> t).
Proof.
  destruct (heuristic_replan_laws gen gen_inj lower g failed reason n Hs Hf Hg) as (_&_&Hl).
  destruct (Hl g' Hr) as (_&_&[Hrows Hkeeps]).
  assert (depends g' t (t_id failed)) as Hd'.
  { destruct Hd as (t0&Ht&Hin). destruct (Hkeeps t ltac:(by eexists)) as [t1 Ht1]. exists t1. split; [done|].
    destruct (Hrows _ _ Ht1) as [[_ ?]|[[? _]|[? _]]]; congruence. }
  assert (depends g'' t (t_id failed)) as Hd''.
  { eapply same_deps_depends; [by apply evolves_deps|done]. }
  split; [done|]. intros (Hget&_&Hdone)%(elem_of_ready_tasks g'' tk W) Hid.
  destruct Hd'' as (t2&Ht2&Hin). rewrite Hid in Hget. assert (t2 = tk) as -> by congruence.
  destruct (Hdone _ Hin) as (dt&Hdt&Hcomp).
  destruct (Hkeeps (t_id failed) ltac:(by eexists)) as [f Hfk].
  assert (t_status f = Skipped) as Hsk.
  { destruct (Hrows _ _ Hfk) as [[? _]|[[_ ->]|[? _]]]; [done|done|congruence]. }
  destruct (ev_rows _ _ Hev _ _ Hfk) as (f'&Hf'&_&He). rewrite He in Hf' by (by rewrite Hsk). congruence.
Qed.
