(* ===== verification/Demo.v ===== *)
(** * Sessions on concrete inputs

    One agent that can do everything, the default configuration, the heuristic
    planner: whole sessions evaluated from goal to report, among them the two
    that show what re-planning does to a plan. *)

From S2P Require Export SessionFacts ConfigLoad.
From stdpp Require Import pretty.
Open Scope string_scope.
Open Scope Z_scope.

(** ** A small world *)

Definition demo_agent : AgentDescriptor :=
  with_capabilities
    (fold_left (fun s c => caps_insert c s)
       (concat (map baseline_capabilities
          [Inspection; Implementation; TTesting; Validation; TDocumentation; Review])) [])
    (agent_new "a" "A" Acp).

Definition done_by_a : ExecutionOutcome :=
  {| oc_attempt_id := "x"; oc_agent_id := "a"; oc_model_id := None; oc_success := true;
     oc_output := "done"; oc_changed_files := []; oc_tokens := tokens_estimated 0 0;
     oc_latency_ms := 5; oc_failure_class := None; oc_failure_reason := None;
     oc_reported_cost_usd := None |}.

(** What the agent answers to its [n]-th request. *)
Definition Answers : Type := nat -> ExecutionRequest -> Result ExecutionOutcome.

Definition demo_adapter (answers : Answers) : AgentAdapter :=
  {| ad_agent_id := "a"; ad_describe := Ok demo_agent;
     ad_execute n request := {| rp_result := Some (answers n request); rp_chunks := [] |} |}.

Definition overflow : Result ExecutionOutcome :=
  Err (EAgent "a" "context length exceeded" ContextOverflow).

Definition always_done : Answers := fun _ _ => Ok done_by_a.
Definition overflow_at (k : nat) : Answers := fun n _ => if Nat.eqb n k then overflow else Ok done_by_a.
(** Only halves of split tasks fit. *)
Definition only_halves : Answers := fun _ request =>
  match t_parent_id (er_task request) with None => overflow | Some _ => Ok done_by_a end.

Definition demo_git : Git :=
  {| git_is_repository := false; git_isolate _ := Ok ""; git_apply _ _ := Ok [] |}.

Section Demo.
Context {P : Type} `{!Planner P}.

Definition demo_world (answers : Answers) : SessionState * btree AgentId AgentAdapter :=
  (add_agent (demo_adapter answers) [] orchestrator_new).1.

Definition demo_session (config : Config) (planner : P) (answers : Answers) (goal : string)
  : SessionState * option (Result SessionResult) :=
  let '(s, adapters) := demo_world answers in
  run_session (fun _ => 0) (fun n => Z.of_nat n) (fun n => "attempt-" +:+ pretty n) (fun _ => 5)
    (fun _ lo hi => lo) config "/w" planner context_new adapters None None demo_git "s" no_unicode None
    (fun passes fuel => (3 * passes + fuel)%nat) goal s.
End Demo.

#[local] Instance demo_heuristic : Planner HeuristicPlanner :=
  HeuristicPlanner_Planner sample_gen ascii_lower_only.
#[local] Instance demo_llm : Planner LlmPlanner :=
  LlmPlanner_Planner sample_gen ascii_lower_only no_unicode.

(** What is looked at in a report. *)
Definition report (r : SessionState * option (Result SessionResult))
  : option (bool * string * list (TaskId * TaskStatus * nat)) :=
  match r.2 with
  | Some (Ok x) => Some (sr_success x, sr_summary x,
      map (fun t => (t_id t, t_status t, length (t_attempts t))) (graph_iter (sr_graph x)))
  | _ => None
  end.

(** A session that goes well. *)
Example session_succeeds :
  report (demo_session config_default heuristic_new always_done "Fix the parser bug and add tests") =
  Some (true, "5/5 tasks completed — 0 tokens, unknown",
        [("t0", Completed, 1%nat); ("t1", Completed, 1%nat); ("t2", Completed, 1%nat);
         ("t3", Completed, 1%nat); ("t4", Completed, 1%nat)]).
Proof. vm_compute. reflexivity. Qed.

(** The second task overflows: its halves complete, everything after it waits
    for ever. *)
Example split_session_stalls :
  report (demo_session config_default heuristic_new (overflow_at 1) "Fix the parser bug and add tests") =
  Some (false, "3/7 tasks completed, 1 skipped — 0 tokens, unknown",
        [("t0", Completed, 1%nat); ("t1", Skipped, 1%nat); ("t2", Pending, 0%nat); ("t3", Pending, 0%nat);
         ("t4", Pending, 0%nat); ("t5", Completed, 1%nat); ("t6", Completed, 1%nat)]).
Proof. vm_compute. reflexivity. Qed.

(** Five independent inspections, as a provider plans them. *)
Definition five_looks : LlmPlanner :=
  {| complete _ _ := Ok (str_join NL (repeat "inspection | - | Look around" 5)) |}.

(** The passes of the execution loop are counted on the first plan, so a
    plan that grows can run out of them.  Here five independent tasks are split
    one after another, every half the agent is handed completes, one task at a
    time, and the session ends with the last half never tried. *)
Theorem passes_run_out :
  report (demo_session (set_max_parallel 1 config_default) five_looks only_halves "look") =
  Some (false, "9/15 tasks completed, 5 skipped — 0 tokens, unknown",
        (map (fun id => (id, Skipped, 1%nat)) ["t0"; "t1"; "t2"; "t3"; "t4"] ++
         map (fun id => (id, Completed, 1%nat)) ["t5"; "t6"; "t7"; "t8"; "t9"; "t10"; "t11"; "t12"; "t13"] ++
         [("t14", Pending, 0%nat)])%list).
Proof. vm_compute. reflexivity. Qed.

(** ** Witnesses *)

(** A planner with one plan, which it never revises. *)
Record FixedPlan := { fixed : TaskGraph }.

#[local] Instance demo_fixed : Planner FixedPlan :=
  {| plan p _ _ n := (n, Some (Ok (fixed p))); replan _ := default_replan |}.

Lemma lone_planned n : planned sample_gen n n lone_graph.
Proof.
  split; [apply lone_graph_sound| |done|].
  - intros k _. unfold lone_graph. rewrite graph_get_add, bool_decide_eq_false_2; [reflexivity|].
    intros Hk. discriminate Hk.
  - repeat constructor.
Qed.

#[local] Instance demo_fixed_laws : PlannerLaws sample_gen {| fixed := lone_graph |}.
Proof.
  split; cbn [plan replan demo_fixed fst snd fixed]; try done.
  intros goal ctx n g [= <-]. apply lone_planned.
Qed.

#[local] Instance demo_heuristic_laws self : PlannerLaws sample_gen (H := demo_heuristic) self :=
  HeuristicPlanner_laws sample_gen sample_gen_inj ascii_lower_only self.

Lemma demo_never_revises : ~ revises_plans {| fixed := lone_graph |}.
Proof. by intros (g&t&reason&n&g'&?). Qed.

Definition demo_pick (passes fuel : nat) : nat := passes + fuel.

Lemma run_session_reports_witness :
  exists r, (demo_session config_default heuristic_new (overflow_at 1) "Fix the parser bug and add tests").2
    = Some r.
Proof.
  unfold demo_session, demo_world. destruct (run_session_reports (fun _ => 0) (fun n => Z.of_nat n)
    (fun n => "attempt-" +:+ pretty n) (fun _ => 5) (fun _ lo hi => lo) config_default "/w" heuristic_new
    context_new (add_agent (demo_adapter (overflow_at 1)) [] orchestrator_new).1.2 None None demo_git "s"
    no_unicode None sample_gen (fun passes fuel => (3 * passes + fuel)%nat) "Fix the parser bug and add tests" []
    (add_agent (demo_adapter (overflow_at 1)) [] orchestrator_new).1.1 eq_refl claims_ok_nil)
    as (s'&r&_&H&_).
  exists r. exact (f_equal snd H).
Defined.

Lemma execute_graph_ends_witness :
  exists s' g', execute_graph (fun _ => 0) (fun n => Z.of_nat n) (fun n => "attempt-" +:+ pretty n) (fun _ => 5)
    (fun _ lo hi => lo) config_default "/w" heuristic_new context_new [] None None demo_git "s" no_unicode None
    demo_pick lone_graph orchestrator_new = (s', Some g') /\ sound_plan g'.
Proof.
  destruct (execute_graph_ends (fun _ => 0) (fun n => Z.of_nat n) (fun n => "attempt-" +:+ pretty n) (fun _ => 5)
    (fun _ lo hi => lo) config_default "/w" heuristic_new context_new [] None None demo_git "s" no_unicode None
    sample_gen demo_pick lone_graph 0 [] orchestrator_new (lone_planned 0) eq_refl claims_ok_nil)
    as (s'&g'&_&H&Hs&_).
  exists s', g'. split; [exact H|exact Hs].
Defined.

Lemma execute_graph_completes_witness :
  exists s' g', execute_graph (fun _ => 0) (fun n => Z.of_nat n) (fun n => "attempt-" +:+ pretty n) (fun _ => 5)
    (fun _ lo hi => lo) config_default "/w" {| fixed := lone_graph |} context_new [] None None demo_git "s"
    no_unicode None demo_pick lone_graph orchestrator_new = (s', Some g') /\ graph_complete g' = true.
Proof.
  destruct (execute_graph_completes (fun _ => 0) (fun n => Z.of_nat n) (fun n => "attempt-" +:+ pretty n)
    (fun _ => 5) (fun _ lo hi => lo) config_default "/w" {| fixed := lone_graph |} context_new [] None None
    demo_git "s" no_unicode None sample_gen demo_pick lone_graph 0 orchestrator_new (lone_planned 0) eq_refl
    demo_never_revises ltac:(vm_compute; discriminate) eq_refl) as (s'&g'&H&_&Hc&_).
  exists s', g'. split; [exact H|exact Hc].
Defined.

(** Prove a decidable proposition by evaluating its decision. *)
Ltac deciding :=
  match goal with |- ?Q => refine (proj1 (bool_decide_eq_true Q) _); vm_compute; reflexivity end.

(** Two tasks that name the same file, and one that names another. *)
Definition writer (id : TaskId) (description : string) : Task :=
  task_with_id id (with_risk Low (spec_new description Implementation)).

Definition writers : TaskGraph :=
  fold_left (fun g t => (graph_add g t).1)
    [writer "w1" "Edit src/a.rs"; writer "w2" "Rewrite src/a.rs"; writer "w3" "Edit src/b.rs"] graph_new.

Lemma admitted_disjoint_witness :
  (admit_concurrently no_unicode None writers ["w1"; "w2"; "w3"] (Some [])).2 = ["w1"; "w3"] /\
  overlaps (normalize "src/a.rs") (normalize "src/b.rs") = false.
Proof.
  assert ((admit_concurrently no_unicode None writers ["w1"; "w2"; "w3"] (Some [])).2 = ["w1"; "w3"]) as Ha
    by (vm_compute; reflexivity).
  split; [exact Ha|].
  assert (NoDup ["w1"; "w2"; "w3"]) as Hnd by deciding.
  pose proof (admitted_disjoint no_unicode None writers ["w1"; "w2"; "w3"] [] claims_ok_nil Hnd) as H.
  match type of H with context [let '(_, _) := ?x in _] => destruct x as [l admitted] eqn:E end.
  pose proof (eq_trans (eq_sym (f_equal snd E)) Ha) as Hb. cbn [snd] in Hb. subst admitted.
  destruct H as (_&Hd&_).
  apply (Hd "w1" "w3" (writer "w1" "Edit src/a.rs") (writer "w3" "Edit src/b.rs") "src/a.rs" "src/b.rs").
  - deciding.
  - deciding.
  - discriminate.
  - vm_compute. reflexivity.
  - vm_compute. reflexivity.
  - discriminate.
  - discriminate.
  - deciding.
  - deciding.
Defined.

(** The lone task, ready to be handed out. *)
Definition lone_run : Run := at_phase Selecting (start_run "/w" lone_graph "lone").

Local Abbreviation lone_select :=
  (select (fun _ => 0) (fun n => Z.of_nat n) (fun n => "attempt-" +:+ pretty n) (fun _ => 5) config_default
    context_new (demo_world always_done).2 None None "s" lone_run (demo_world always_done).1).

Lemma dispatch_safe_witness :
  match r_phase lone_select.2 with
  | Waiting p => p_agent p = "a" /\ exists task, graph_get lone_graph "lone" = Some task /\
      wrap32 (attempt_count task) < max_attempts (retry_policy config_default)
  | _ => False
  end.
Proof.
  pose proof (fun p => dispatch_safe (fun _ => 0) (fun n => Z.of_nat n) (fun n => "attempt-" +:+ pretty n)
    (fun _ => 5) config_default context_new (demo_world always_done).2 None None "s" lone_run
    (demo_world always_done).1 p eq_refl) as H.
  assert (match r_phase lone_select.2 with Waiting p => p_agent p = "a" | _ => False end) as Hw
    by (vm_compute; reflexivity).
  match type of Hw with context [(?x).2] => destruct x as [s' r'] end. cbn [snd] in Hw |- *.
  destruct (r_phase r') as [| |p| | |]; [exact Hw|exact Hw| |exact Hw|exact Hw|exact Hw].
  split; [exact Hw|]. destruct (H p eq_refl) as (task&_&Hg&Hn&_). exists task. split; [exact Hg|exact Hn].
Defined.

(** The third counted failure in a row opens the breaker. *)
Definition demo_pending : Attempt.Pending :=
  {| p_task := lone_task; p_agent := "a"; p_model := None; p_attempt_id := "attempt-0"; p_started_at := 0;
     p_latency_ms := 5; p_result := overflow; p_chunks := []; p_number := 0 |}.

Definition fail_once (s : SessionState) : SessionState :=
  (note_failure (fun _ => 0) (fun n => Z.of_nat n) "s" demo_pending Timeout "no answer" lone_run s).1.

Definition fail_times (n : nat) : SessionState := Nat.iter n fail_once (demo_world always_done).1.

Lemma fail_step n :
  note_failure (fun _ => 0) (fun n => Z.of_nat n) "s" demo_pending Timeout "no answer" lone_run (fail_times n)
  = (fail_times (S n), tt).
Proof.
  apply injective_projections; [reflexivity|]. cbn [snd].
  generalize (note_failure (fun _ => 0) (fun n => Z.of_nat n) "s" demo_pending Timeout "no answer" lone_run
    (fail_times n)).2. by intros [].
Qed.

Lemma tripped_agent_shut_out_witness :
  is_ok (route (fun _ => 2 ^ 60) (router config_default) [] (route_request config_default lone_task []
    (fail_times 2)) (sh_breakers (fail_times 2))).2 = true /\
  match (route (fun _ => 2 ^ 60) (router config_default) [] (route_request config_default lone_task []
    (fail_times 3)) (sh_breakers (fail_times 3))).2 with
  | Ok d => c_agent_id (selected d) <> "a"
  | Err _ => True
  end.
Proof.
  split; [vm_compute; reflexivity|].
  destruct (route _ _ _ (route_request config_default lone_task [] (fail_times 3)) _) as [b' [d|e]] eqn:E;
    [|exact I]. cbn [snd].
  assert (own_ids (sh_agents (fail_times 2))) as Hown.
  { assert (exists x, sh_agents (fail_times 2) = [("a", x)] /\ a_id x = "a") as (x&Hx&Hi).
    { eexists. split; [vm_compute; reflexivity|reflexivity]. }
    rewrite Hx. split; [repeat constructor|]. intros id a Hg.
    apply bt_get_elem_of, list_elem_of_singleton in Hg. injection Hg as -> ->. exact Hi. }
  pose proof (tripped_agent_shut_out (fun _ => 0) (fun n => Z.of_nat n) "s" demo_pending Timeout "no answer"
    lone_run (fail_times 2) (fail_times 3) Hown eq_refl ltac:(vm_compute; discriminate)
    (fail_step 2) ltac:(vm_compute; reflexivity) config_default _ _ _ _ _ _ _ E) as H.
  by apply list.Forall_cons in H as [H _].
Defined.

(** The session of [split_session_stalls], seen from its second task. *)
Definition pair_graph : TaskGraph :=
  (graph_add lone_graph (task_with_id "after" (depends_on "lone" (spec_new "Check" TTesting)))).1.

Lemma pair_graph_sound : sound_plan pair_graph.
Proof.
  apply validates_sound_plan; [|vm_compute; reflexivity]. apply wf_graphb_sound. vm_compute. reflexivity.
Qed.

Lemma split_strands_dependents_witness :
  exists g', (heuristic_replan sample_gen ascii_lower_only pair_graph lone_task "Context" 0).2 = Some (Ok (Some g')) /\
    depends g' "after" "lone".
Proof.
  assert (fresh_from sample_gen 0 pair_graph) as Hf.
  { intros k _. unfold pair_graph, lone_graph. rewrite !graph_get_add, !bool_decide_eq_false_2;
      [reflexivity|intros Hk; discriminate Hk..]. }
  destruct (heuristic_replan sample_gen ascii_lower_only pair_graph lone_task "Context" 0) as [n' r] eqn:E.
  assert (exists g', r = Some (Ok (Some g')) /\ wf_graphb g' = true) as (g'&Hr&Hw).
  { pose proof (f_equal snd E) as Er. cbn [snd] in Er. rewrite <- Er. eexists. split; [vm_compute; reflexivity|vm_compute; reflexivity]. }
  exists g'. cbn [snd]. split; [exact Hr|].
  apply (split_strands_dependents sample_gen sample_gen_inj ascii_lower_only pair_graph lone_task "Context" 0 g' g'
    "after" lone_task pair_graph_sound Hf eq_refl).
  - rewrite E. exact Hr.
  - apply evolves_refl.
  - by apply wf_graphb_sound.
  - eexists. split; [vm_compute; reflexivity|]. deciding.
  - discriminate.
Defined.
