(* ===== verification/Skill.v ===== *)
(** * Skills: packages, evidence and validation ([cuma-skills])

    package.rs, integrity.rs, validation.rs and what they share of lib.rs.
    Reading TOML, base64 and Ed25519 are arguments; a directory is a tree of
    named nodes in the order the file system lists them. *)

From S2P Require Export Ports Path Config.
Open Scope string_scope.
Open Scope Z_scope.

#[export] Instance TrustLevel_eq_dec : EqDecision TrustLevel.
Proof. solve_decision. Defined.

(** [cmp] is not [Greater]: the order the sorts below use. *)
Definition at_most {K} `{OrdKey K} (a b : K) : bool :=
  match key_cmp a b with Gt => false | _ => true end.

Lemma at_most_total {K} `{OrdKey K} (a b : K) : at_most a b = true \/ at_most b a = true.
Proof. unfold at_most. rewrite (key_cmp_antisym a b). destruct (key_cmp a b); auto. Qed.

Lemma at_most_spec {K} `{OrdKey K} (a b : K) : at_most a b = true <-> a = b \/ key_cmp a b = Lt.
Proof.
  unfold at_most. pose proof (key_cmp_eq a b). destruct (key_cmp a b); naive_solver.
Qed.

Lemma at_most_trans {K} `{OrdKey K} (a b c : K) :
  at_most a b = true -> at_most b c = true -> at_most a c = true.
Proof.
  rewrite !at_most_spec. intros [->|Hab] [->|Hbc]; auto. right. by eapply key_cmp_trans.
Qed.

(** ** Manifests ([cuma-core/src/ports.rs]) *)

Definition SkillId : Type := string.

Record SkillManifest := {
  sm_id : SkillId;
  sm_name : string;
  sm_description : string;
  sm_version : string;
  sm_source : string;
  sm_capabilities : CapabilitySet;
  sm_permissions : list string;
  sm_checksum : option string;
  sm_signature : option string;
  sm_trust : TrustLevel;
}.

Definition trusted_as (t : TrustLevel) (m : SkillManifest) : SkillManifest :=
  {| sm_id := sm_id m; sm_name := sm_name m; sm_description := sm_description m;
     sm_version := sm_version m; sm_source := sm_source m; sm_capabilities := sm_capabilities m;
     sm_permissions := sm_permissions m; sm_checksum := sm_checksum m; sm_signature := sm_signature m;
     sm_trust := t |}.

Definition from_source (source : string) (m : SkillManifest) : SkillManifest :=
  {| sm_id := sm_id m; sm_name := sm_name m; sm_description := sm_description m;
     sm_version := sm_version m; sm_source := source; sm_capabilities := sm_capabilities m;
     sm_permissions := sm_permissions m; sm_checksum := sm_checksum m; sm_signature := sm_signature m;
     sm_trust := sm_trust m |}.

(** [FetchedSkill]. *)
Record FetchedSkill := {
  fs_manifest : SkillManifest;
  fs_published_digest : option string;
  fs_has_files : bool;
}.

(** [derive(Ord)] on [TrustLevel]: most trusted first. *)
Definition trust_rank (t : TrustLevel) : Z :=
  match t with Trusted => 0 | TVerified => 1 | Community => 2 | Untrusted => 3 end.

Definition trust_max (a b : TrustLevel) : TrustLevel := if trust_rank b <? trust_rank a then a else b.

(** [matches_query]. *)
Definition matches_query (skill : SkillManifest) (query : string) : bool :=
  str_contains (to_ascii_lowercase (sm_id skill)) query
  || str_contains (to_ascii_lowercase (sm_name skill)) query
  || str_contains (to_ascii_lowercase (sm_description skill)) query
  || existsb (fun c => str_contains (capability_display c) query) (sm_capabilities skill).

(** ** Packages ([package.rs]) *)

(** What a directory holds.  A link carries what reading through it gives, when
    it leads to a file; nothing here follows a link to a directory. *)
Inductive Node : Type :=
  | File (content : string)
  | Folder (entries : list (string * Node))
  | Link (target : option string).

Definition Entries : Type := list (string * Node).

Definition entry (name : string) (dir : Entries) : option Node :=
  snd <$> List.find (fun e => bool_decide (e.1 = name)) dir.

(** [std::fs::read_to_string] on a file of a directory, and [Path::is_file]. *)
Definition read_text (name : string) (dir : Entries) : option string :=
  match entry name dir with
  | Some (File s) | Some (Link (Some s)) => if utf8_valid s then Some s else None
  | _ => None
  end.

Definition is_file (name : string) (dir : Entries) : bool :=
  match entry name dir with Some (File _) | Some (Link (Some _)) => true | _ => false end.

Definition MANIFEST_FILE : string := "skill.toml".
Definition INSTRUCTIONS_FILE : string := "SKILL.md".
Definition SIGNATURE_FILE : string := "skill.sig".

(** [check_id]. *)
Definition is_id_char (c : Z) : bool :=
  is_ascii_alphanumeric c || (c =? 45) || (c =? 95) || (c =? 46).

Definition check_id (id : string) : Result unit :=
  let plain := negb (bool_decide (id = "")) && (Z.of_nat (String.length id) <=? 64)
               && negb (starts_with id ".") && forallb is_id_char (chars id) in
  if plain && negb (str_contains id "..") then Ok tt
  else Err (ESecurity ("skill id " +:+ debug_str id +:+ " is not a plain identifier")).

(** The fields of a [skill.toml]. *)
Record RawManifest := {
  rw_id : string;
  rw_name : string;
  rw_description : string;
  rw_version : string;
  rw_capabilities : list string;
  rw_permissions : list string;
  rw_checksum : option string;
  rw_signature : option string;
}.

(** [parse_manifest]; [toml] reads the fields. *)
Definition parse_manifest (toml : string -> result RawManifest string) (text : string)
  : Result SkillManifest :=
  match toml text with
  | Err e => Err (ESkill ("invalid skill manifest: " +:+ e))
  | Ok raw =>
      let? _ := check_id (rw_id raw) in
      Ok {| sm_id := rw_id raw; sm_name := rw_name raw; sm_description := rw_description raw;
            sm_version := rw_version raw; sm_source := "";
            sm_capabilities := caps_of (map capability_parse (rw_capabilities raw));
            sm_permissions := rw_permissions raw; sm_checksum := rw_checksum raw;
            sm_signature := rw_signature raw; sm_trust := Community |}
  end.

(** [str::split_once]. *)
Fixpoint split_once (c : ascii) (s : string) : option (string * string) :=
  match s with
  | EmptyString => None
  | String a s' =>
      if bool_decide (a = c) then Some (EmptyString, s')
      else match split_once c s' with
           | Some (k, v) => Some (String a k, v)
           | None => None
           end
  end.

Definition COLON : ascii := of_byte 58.

(** [front_matter]. *)
Fixpoint front_lines (lines : list string) (name description : option string)
  : option string * option string :=
  match lines with
  | [] => (name, description)
  | line :: lines' =>
      let line := trim line in
      if bool_decide (line = "---") then (name, description)
      else match split_once COLON line with
           | None => front_lines lines' name description
           | Some (key, value) =>
               let value := trim_matches (fun c => (c =? 34) || (c =? 39)) (trim value) in
               if bool_decide (trim key = "name") then front_lines lines' (Some value) description
               else if bool_decide (trim key = "description") then front_lines lines' name (Some value)
               else front_lines lines' name description
           end
  end.

Definition front_matter (text : string) : option (string * string) :=
  match lines text with
  | [] => None
  | first :: rest =>
      if bool_decide (trim first = "---") then
        match front_lines rest None None with
        | (Some name, description) => Some (name, match description with Some d => d | None => "" end)
        | (None, _) => None
        end
      else None
  end.

(** [read_package]; [display] is the path of the directory. *)
Definition read_package (toml : string -> result RawManifest string) (display : string) (dir : Entries)
  : Result SkillManifest :=
  if is_file MANIFEST_FILE dir then
    match read_text MANIFEST_FILE dir with
    | None => Err (ESkill ("cannot read " +:+ display +:+ "/" +:+ MANIFEST_FILE))
    | Some text => parse_manifest toml text
    end
  else match read_text INSTRUCTIONS_FILE dir with
       | None => Err (ESkill (display +:+ " has neither " +:+ MANIFEST_FILE +:+ " nor " +:+ INSTRUCTIONS_FILE))
       | Some instructions =>
           match front_matter instructions with
           | None => Err (ESkill (INSTRUCTIONS_FILE +:+ " in " +:+ display
                                  +:+ " has no front matter naming it"))
           | Some (name, description) =>
               let? _ := check_id name in
               Ok {| sm_id := name; sm_name := name; sm_description := description; sm_version := "";
                     sm_source := ""; sm_capabilities := []; sm_permissions := [];
                     sm_checksum := None; sm_signature := None; sm_trust := Community |}
           end
       end.

(** [read_instructions]. *)
Definition read_instructions (dir : Entries) : option string := read_text INSTRUCTIONS_FILE dir.

(** [Path::join] of a directory and what [display] shows for it, for a path
    given by its names below the root. *)
Definition show_path (rel : list string) : string := str_join "/" rel.

(** The packages [scan] finds, with the names leading to each from the root. *)
Definition sub_dirs (rel : list string) (dir : Entries) : list (list string * Entries) :=
  omap (fun e => match e.2 with
                 | Folder sub => if starts_with e.1 "." then None else Some ((rel ++ [e.1])%list, sub)
                 | _ => None
                 end) dir.

Definition is_package (dir : Entries) : bool := is_file MANIFEST_FILE dir || is_file INSTRUCTIONS_FILE dir.

(** One round of [scan] on the directory it takes from the end of [pending]. *)
Definition scan_dir (toml : string -> result RawManifest string) (depth : nat)
    (rel : list string) (dir : Entries) (level : nat)
  : list (list string * Entries * SkillManifest) * list (list string * Entries * nat) :=
  if is_package dir then
    (match read_package toml (show_path rel) dir with
     | Ok m => [(rel, dir, m)]
     | Err _ => []
     end, [])
  else if (depth <=? level)%nat then ([], [])
  else ([], map (fun e => (e, S level)) (sub_dirs rel dir)).

Fixpoint scan_loop (toml : string -> result RawManifest string) (depth fuel : nat)
    (pending : list (list string * Entries * nat)) (found : list (list string * Entries * SkillManifest))
  : option (list (list string * Entries * SkillManifest)) :=
  match pending with
  | [] => Some found
  | (rel, dir, level) :: pending' =>
      match fuel with
      | O => None
      | S fuel' =>
          let r := scan_dir toml depth rel dir level in
          scan_loop toml depth fuel' (rev r.2 ++ pending')%list (found ++ r.1)%list
      end
  end.

Definition id_leb (a b : SkillManifest) : bool :=
  at_most (sm_id a) (sm_id b).

(** The number of directories below a node, itself included. *)
Fixpoint dirs (n : Node) : nat :=
  match n with
  | Folder entries => S (list_sum (map (fun e => dirs e.2) entries))
  | _ => 0
  end.

Definition scan (toml : string -> result RawManifest string) (depth : nat) (root : Entries)
  : option (list (list string * Entries * SkillManifest)) :=
  option_map (stable_sort (fun a b => id_leb a.2 b.2))
    (scan_loop toml depth (dirs (Folder root)) [([], root, O)] []).

(** [toml_manifest] of manager.rs and the text of [materialize_builtin]. *)
Definition quoted (items : list string) : string := str_join ", " (map debug_str items).

Definition toml_manifest (m : SkillManifest) : string :=
  "id = " +:+ debug_str (sm_id m) +:+ NL +:+ "name = " +:+ debug_str (sm_name m) +:+ NL
  +:+ "description = " +:+ debug_str (sm_description m) +:+ NL
  +:+ "version = " +:+ debug_str (sm_version m) +:+ NL
  +:+ "capabilities = [" +:+ quoted (map capability_display (sm_capabilities m)) +:+ "]" +:+ NL
  +:+ "permissions = [" +:+ quoted (sm_permissions m) +:+ "]" +:+ NL.
