(* ===== verification/SkillTrust.v ===== *)
(** * Skills: what the files prove ([integrity.rs], [validation.rs])

    The digest of a package, its signature, and the trust both establish.
    SHA-256, base64 and Ed25519 are arguments. *)

From S2P Require Export Skill.
Open Scope string_scope.
Open Scope Z_scope.

(** ** Files of a package *)

Definition MAX_FILES : Z := 1000.
Definition MAX_BYTES : Z := 10 * 1024 * 1024.

Definition Files : Type := list (list string * string).

(** The entries of one directory, in listing order: directories to visit are
    pushed on [pending] (its head is the end of the code's vector). *)
Fixpoint list_entries (rel : list string) (entries : Entries)
    (pending : list (list string * Entries)) (files : Files) (total : Z)
  : Result (list (list string * Entries) * Files * Z) :=
  match entries with
  | [] => Ok (pending, files, total)
  | (name, node) :: entries' =>
      let path := (rel ++ [name])%list in
      match node with
      | Link _ => Err (ESecurity ("skill contains a symbolic link at " +:+ show_path path))
      | Folder sub =>
          list_entries rel entries'
            (if bool_decide (name = ".git") then pending else (path, sub) :: pending) files total
      | File content =>
          if bool_decide (path = [SIGNATURE_FILE]) then list_entries rel entries' pending files total
          else
            let total := sat64 (total + Z.of_nat (String.length content)) in
            let files := ((path, content) :: files)%list in
            if (MAX_FILES <? Z.of_nat (length files)) || (MAX_BYTES <? total) then
              Err (ESecurity ("skill exceeds " +:+ pretty MAX_FILES +:+ " files or "
                              +:+ pretty MAX_BYTES +:+ " bytes"))
            else list_entries rel entries' pending files total
      end
  end.

(** The loop over [pending]; [None] when the fuel runs out.  [files] is the
    code's vector, last first. *)
Fixpoint list_files (fuel : nat) (pending : list (list string * Entries)) (files : Files) (total : Z)
  : option (Result Files) :=
  match pending with
  | [] => Some (Ok (rev files))
  | (rel, entries) :: pending' =>
      match fuel with
      | O => None
      | S fuel' =>
          match list_entries rel entries pending' files total with
          | Ok (pending, files, total) => list_files fuel' pending files total
          | Err e => Some (Err e)
          end
      end
  end.

Definition path_leb (a b : list string * string) : bool :=
  at_most a.1 b.1.

(** [skill_files], with what each file holds. *)
Definition skill_files (root : Entries) : option (Result Files) :=
  option_map (fun r => let? files := r in Ok (stable_sort path_leb files))
    (list_files (dirs (Folder root)) [([], root)] [] 0).

(** ** The digest *)

(** [u64::to_le_bytes]. *)
Fixpoint le_bytes (n : nat) (z : Z) : list Z :=
  match n with O => [] | S n' => z mod 256 :: le_bytes n' (z / 256) end.

(** What one file contributes to the hash: name, NUL, length, bytes. *)
Definition file_bytes (f : list string * string) : list Z :=
  (bytes (str_join "/" (map from_utf8_lossy f.1)) ++ [0]
   ++ le_bytes 8 (Z.of_nat (String.length f.2)) ++ bytes f.2)%list.

Definition files_bytes (files : Files) : list Z := concat (map file_bytes files).

(** [to_hex]. *)
Definition hex_digit (d : Z) : ascii := of_byte (if d <? 10 then 48 + d else 87 + d).
Definition to_hex (bs : list Z) : string :=
  fold_right (fun b s => String (hex_digit (b / 16)) (String (hex_digit (b mod 16)) s)) EmptyString bs.

Section Evidence.
(** SHA-256; base64; public keys, signing keys and strict verification. *)
Context (sha256 : list Z -> list Z).
Context (b64_decode : string -> result (list Z) string) (b64_encode : list Z -> string).
Context {Key SigningKey : Type} (parse_key : list Z -> result Key string)
  (verify : Key -> list Z -> list Z -> bool)
  (ed_sign : SigningKey -> list Z -> list Z) (key_bytes : SigningKey -> list Z).

(** [content_digest]; reading the files of the directory succeeds. *)
Definition content_digest (root : Entries) : option (Result string) :=
  option_map (fun r => let? files := r in Ok ("sha256:" +:+ to_hex (sha256 (files_bytes files))))
    (skill_files root).

(** [TrustedKeys] and [from_config]. *)
Definition TrustedKeys : Type := btree string Key.

Definition trusted_key (name encoded : string) : Result Key :=
  match b64_decode (trim encoded) with
  | Err e => Err (EConfiguration ("skills.trusted_keys." +:+ name +:+ ": not base64: " +:+ e))
  | Ok bs =>
      if bool_decide (length bs = 32%nat) then
        match parse_key bs with
        | Err e => Err (EConfiguration ("skills.trusted_keys." +:+ name +:+ ": " +:+ e))
        | Ok key => Ok key
        end
      else Err (EConfiguration ("skills.trusted_keys." +:+ name +:+ ": an Ed25519 public key is 32 bytes"))
  end.

Fixpoint keys_from_config (configured : btree string string) (keys : TrustedKeys) : Result TrustedKeys :=
  match configured with
  | [] => Ok keys
  | (name, encoded) :: configured' =>
      let? key := trusted_key name encoded in
      keys_from_config configured' (bt_insert name key keys)
  end.

Inductive SignatureCheck : Type :=
  | Absent
  | Valid (key : string)
  | UnknownKey (key : string)
  | Invalid (reason : string).

(** [check_signature]. *)
Definition check_signature (digest signature_line : string) (keys : TrustedKeys) : SignatureCheck :=
  let line := trim signature_line in
  if bool_decide (line = "") then Absent
  else match splitn_char 3 COLON line with
       | [algorithm; key_id; encoded] =>
           if bool_decide (algorithm = "ed25519") then
             match bt_get key_id keys with
             | None => UnknownKey key_id
             | Some key =>
                 match b64_decode (trim encoded) with
                 | Err _ => Invalid "the signature is not base64"
                 | Ok bs =>
                     if bool_decide (length bs = 64%nat) then
                       if verify key (bytes digest) bs then Valid key_id
                       else Invalid ("the signature by " +:+ debug_str key_id
                                     +:+ " does not match the skill's contents")
                     else Invalid "an Ed25519 signature is 64 bytes"
                 end
             end
           else Invalid "skill.sig is not `ed25519:<key-id>:<base64>`"
       | _ => Invalid "skill.sig is not `ed25519:<key-id>:<base64>`"
       end.

(** [sign]: the publisher's side. *)
Definition sign (digest key_id : string) (key : SigningKey) : string :=
  "ed25519:" +:+ key_id +:+ ":" +:+ b64_encode (ed_sign key (bytes digest)).

(** [public_key]. *)
Definition public_key (key : SigningKey) : string := b64_encode (key_bytes key).

(** [Evidence]. *)
Record Evidence := {
  e_digest : option string;
  e_published_digest : option string;
  e_signature : option SignatureCheck;
}.

Definition evidence_default : Evidence :=
  {| e_digest := None; e_published_digest := None; e_signature := None |}.

(** [Evidence::gather]. *)
Definition gather (root : Entries) (published : option string) (keys : TrustedKeys)
  : option (Result Evidence) :=
  option_map (fun r =>
    let? digest := r in
    let line := match read_text SIGNATURE_FILE root with Some s => s | None => "" end in
    Ok {| e_digest := Some digest; e_published_digest := published;
          e_signature := Some (check_signature digest line keys) |})
    (content_digest root).
End Evidence.

(** [digest_matches]. *)
Definition digest_matches (e : Evidence) : option bool :=
  match e_digest e, e_published_digest e with
  | Some a, Some b => Some (bool_decide (a = b))
  | _, _ => None
  end.

(** ** Validation *)

Definition DANGEROUS_PERMISSIONS : list string :=
  ["shell:unrestricted"; "filesystem:write:/"; "filesystem:write:~"; "network:unrestricted";
   "env:read:*"; "process:spawn:*"; "credentials"; "keychain"].

Definition ESCAPE_PATTERNS : list string :=
  [".."; "$("; "`"; NL; String CR EmptyString; String (of_byte 0) EmptyString].

Record ValidationReport := {
  v_permitted : bool;
  v_trust : TrustLevel;
  v_blockers : list string;
  v_warnings : list string;
}.

Definition trust_debug (t : TrustLevel) : string :=
  match t with
  | Trusted => "Trusted" | TVerified => "Verified" | Community => "Community" | Untrusted => "Untrusted"
  end.

Definition bullets (title : string) (items : list string) : string :=
  match items with
  | [] => ""
  | _ => title +:+ NL +:+ fold_right (fun i s => "  - " +:+ i +:+ NL +:+ s) "" items
  end.

(** [ValidationReport::render]. *)
Definition report_render (r : ValidationReport) : string :=
  "Verdict: " +:+ (if v_permitted r then "may install" else "REFUSED")
  +:+ " (trust: " +:+ trust_debug (v_trust r) +:+ ")" +:+ NL
  +:+ bullets "Blockers:" (v_blockers r) +:+ bullets "Warnings:" (v_warnings r).

(** The blockers of one permission. *)
Definition dangerous (permission : string) : bool :=
  existsb (starts_with (to_ascii_lowercase (trim permission))) DANGEROUS_PERMISSIONS.
Definition escapes (permission : string) : bool := existsb (str_contains permission) ESCAPE_PATTERNS.

Definition permission_blockers (permission : string) : list string :=
  ((if dangerous permission then ["requests the unrestricted permission " +:+ debug_str permission] else [])
   ++ (if escapes permission
       then ["permission " +:+ debug_str permission +:+ " contains a scope-escape pattern"] else []))%list.

Definition or_unknown (o : option string) : string := match o with Some s => s | None => "?" end.

Definition origin (m : SkillManifest) : string := to_ascii_lowercase (trim (sm_source m)).
Definition origin_is_generated (m : SkillManifest) : bool := starts_with (origin m) "generated:".
Definition origin_is_local (m : SkillManifest) : bool :=
  starts_with (origin m) "builtin:" || starts_with (origin m) "file:" || origin_is_generated m.
Definition origin_is_secure (m : SkillManifest) : bool :=
  origin_is_local m || starts_with (origin m) "https://" || starts_with (origin m) "git+https://".

Definition signed_by_trusted_key (e : Evidence) : bool :=
  match e_signature e with Some (Valid _) => true | _ => false end.

Definition blockers (m : SkillManifest) (e : Evidence) : list string :=
  ((if bool_decide (trim (sm_name m) = "") then ["the manifest has no name"] else [])
   ++ (if bool_decide (trim (sm_source m) = "") then ["the manifest declares no source"] else [])
   ++ concat (map permission_blockers (sm_permissions m))
   ++ (if bool_decide (digest_matches e = Some false)
       then ["its contents (" +:+ or_unknown (e_digest e)
             +:+ ") do not match the digest the registry published ("
             +:+ or_unknown (e_published_digest e) +:+ ")"] else [])
   ++ (match e_signature e with
       | Some (Invalid reason) => ["its signature is invalid: " +:+ reason]
       | _ => []
       end)
   ++ (if origin_is_secure m then []
       else ["source " +:+ debug_str (sm_source m) +:+ " is neither local nor fetched over TLS"]))%list.

Definition warnings (m : SkillManifest) (e : Evidence) : list string :=
  ((if bool_decide (trim (sm_version m) = "") then ["the manifest declares no version"] else [])
   ++ (if 12 <? Z.of_nat (length (sm_permissions m))
       then ["requests " +:+ pretty (Z.of_nat (length (sm_permissions m)))
             +:+ " permissions, which is a lot for one skill"] else [])
   ++ (match e_signature e with
       | Some (UnknownKey key) =>
           ["signed by " +:+ debug_str key
            +:+ ", which is not in skills.trusted_keys, so the signature proves nothing"]
       | Some Absent | None => ["no signature, so its origin cannot be verified"]
       | _ => []
       end)
   ++ (match e_published_digest e with
       | None => ["no digest is published for it, so its integrity cannot be verified"]
       | Some _ => []
       end))%list.

Definition derived_trust (m : SkillManifest) (e : Evidence) : TrustLevel :=
  if origin_is_generated m then Untrusted
  else if starts_with (origin m) "builtin:" || signed_by_trusted_key e then Trusted
  else if bool_decide (digest_matches e = Some true) && negb (origin_is_local m) then TVerified
  else if origin_is_secure m then Community
  else Untrusted.

(** [validate_with], [validate] and [assess_fetched]. *)
Definition validate_with (m : SkillManifest) (e : Evidence) : ValidationReport :=
  {| v_permitted := bool_decide (blockers m e = []);
     v_trust := trust_max (derived_trust m e) (sm_trust m);
     v_blockers := blockers m e;
     v_warnings := warnings m e |}.

Definition validate (m : SkillManifest) : ValidationReport := validate_with m evidence_default.

Definition assess_fetched (m : SkillManifest) (e : Evidence) : ValidationReport :=
  validate_with (trusted_as Trusted m) e.

(** [may_auto_install]. *)
Definition may_auto_install (t : TrustLevel) (policy : SkillAutoInstall) : bool :=
  match policy with
  | InstallNever => false
  | TrustedOnly => bool_decide (t = Trusted)
  | Verified => match t with Trusted | TVerified => true | _ => false end
  end.
