(* ===== verification/SkillManager.v ===== *)
(** * Skills: the manager ([manager.rs])

    Searching, staging, verifying, installing, updating and removing skills,
    and the guidance the enabled ones give.  The state is what the manager and
    its install directory hold; what the registries answer during an operation
    and which file operations fail are arguments of the operation. *)

From S2P Require Export SkillSources.
Open Scope string_scope.
Open Scope Z_scope.

Definition LOCKFILE : string := "installed.json".
Definition MAX_INSTRUCTIONS : Z := 8000.

(** [SkillOutcome]. *)
Inductive SkillOutcome : Type :=
  | Installed (manifest : SkillManifest)
  | NeedsApproval (manifest : SkillManifest) (report : ValidationReport)
  | Refused (manifest : SkillManifest) (report : ValidationReport)
  | NotFound (capability : Capability).

(** [InstalledSkill]. *)
Record InstalledSkill := {
  is_manifest : SkillManifest;
  is_digest : option string;
  is_signed_by : option string;
  is_registry : string;
  is_enabled : bool;
  is_installed_at : string;
}.

Definition is_id (s : InstalledSkill) : SkillId := sm_id (is_manifest s).

(** [UpdateOutcome]. *)
Inductive UpdateOutcome : Type :=
  | Unchanged
  | Updated (from to : option string) (disabled : bool)
  | UpdateRefused (blockers : list string)
  | Unavailable (reason : string).

(** [Staged]: [st_tree] is the staging directory, when it is kept. *)
Record Staged := {
  st_manifest : SkillManifest;
  st_report : ValidationReport;
  st_evidence : Evidence;
  st_registry : string;
  st_tree : option Entries;
}.

(** The file operations of one installation that fail, with the text of the
    error.  A directory whose removal fails is left as [ft_clear] says. *)
Record Faults := {
  ft_stage : option string;
  ft_manifest : option string;
  ft_clear : option (string * option Node);
  ft_parent : option string;
  ft_rename : option string;
  ft_create : option string;
  ft_write : option string;
}.

Definition no_faults : Faults :=
  {| ft_stage := None; ft_manifest := None; ft_clear := None; ft_parent := None;
     ft_rename := None; ft_create := None; ft_write := None |}.

Definition fails (f : option string) (e : string -> MetaAgentError) : Result unit :=
  match f with Some m => Err (e m) | None => Ok tt end.

Section Manager.
Context (sha256 : list Z -> list Z) (b64_decode : string -> result (list Z) string).
Context {Key : Type} (verify : Key -> list Z -> list Z -> bool).
(** The lockfile: [serde_json]. *)
Context (to_json : list InstalledSkill -> string)
  (from_json : string -> result (list InstalledSkill) string).

(** [SkillManager]; [mg_disk] is what the install directory holds, its
    [.staging] directory apart. *)
Record Manager := {
  mg_config : SkillsConfig;
  mg_keys : TrustedKeys (Key := Key);
  mg_install_dir : option string;
  mg_installed : list InstalledSkill;
  mg_guides : list (CapabilitySet * SkillGuide);
  mg_disk : Entries;
}.

Definition with_installed (l : list InstalledSkill) (m : Manager) : Manager :=
  {| mg_config := mg_config m; mg_keys := mg_keys m; mg_install_dir := mg_install_dir m;
     mg_installed := l; mg_guides := mg_guides m; mg_disk := mg_disk m |}.

Definition with_guides (g : list (CapabilitySet * SkillGuide)) (m : Manager) : Manager :=
  {| mg_config := mg_config m; mg_keys := mg_keys m; mg_install_dir := mg_install_dir m;
     mg_installed := mg_installed m; mg_guides := g; mg_disk := mg_disk m |}.

Definition with_disk (d : Entries) (m : Manager) : Manager :=
  {| mg_config := mg_config m; mg_keys := mg_keys m; mg_install_dir := mg_install_dir m;
     mg_installed := mg_installed m; mg_guides := mg_guides m; mg_disk := d |}.

(** ** The record and the guides *)

Definition take_chars (n : nat) (s : string) : string := of_chars (take n (chars s)).

(** One guide of [rebuild_guides]. *)
Definition guide_of (dir : option string) (disk : Entries) (s : InstalledSkill)
  : option (CapabilitySet * SkillGuide) :=
  if is_enabled s then
    match dir, entry (is_id s) disk with
    | Some _, Some (Folder package) =>
        match read_instructions package with
        | Some text =>
            Some (sm_capabilities (is_manifest s),
                  {| sg_id := is_id s; sg_name := sm_name (is_manifest s);
                     sg_trust := sm_trust (is_manifest s);
                     sg_instructions := take_chars (Z.to_nat MAX_INSTRUCTIONS) text |})
        | None => None
        end
    | _, _ => None
    end
  else None.

Definition rebuild_guides (installed : list InstalledSkill) (m : Manager) : Manager :=
  with_guides (omap (guide_of (mg_install_dir m) (mg_disk m)) installed) m.

Definition remove_entry (name : string) (disk : Entries) : Entries :=
  List.filter (fun e => negb (bool_decide (e.1 = name))) disk.

Definition is_folder (name : string) (disk : Entries) : bool :=
  match entry name disk with Some (Folder _) => true | _ => false end.

(** Writing [installed.json.tmp] and renaming it. *)
Definition write_lock (f : Faults) (installed : list InstalledSkill) (disk : Entries)
  : Entries * Result unit :=
  let cannot e := Err (ESkill ("cannot write " +:+ LOCKFILE +:+ ": " +:+ e)) in
  let tmp := LOCKFILE +:+ ".tmp" in
  match ft_write f with
  | Some e => (disk, cannot e)
  | None =>
      if is_folder tmp disk then (disk, cannot "is a directory")
      else
        let content := File (to_json installed) in
        if is_folder LOCKFILE disk then (set_entry tmp content disk, cannot "is a directory")
        else (set_entry LOCKFILE content (remove_entry tmp disk), Ok tt)
  end.

(** [save]. *)
Definition save (f : Faults) (installed : list InstalledSkill) (m : Manager) : Manager * Result unit :=
  let m := rebuild_guides installed m in
  match mg_install_dir m with
  | None => (m, Ok tt)
  | Some _ =>
      match ft_create f with
      | Some e => (m, Err (ESkill e))
      | None => let '(disk, r) := write_lock f installed (mg_disk m) in (with_disk disk m, r)
      end
  end.

(** [new], [with_install_dir], [with_trusted_keys]. *)
Definition manager_new (config : SkillsConfig) : Manager :=
  {| mg_config := config; mg_keys := []; mg_install_dir := None; mg_installed := [];
     mg_guides := []; mg_disk := [] |}.

Definition with_install_dir (directory : string) (disk : Entries) (m : Manager) : Result Manager :=
  let? installed :=
    match read_text LOCKFILE disk with
    | Some text =>
        match from_json text with
        | Ok l => Ok l
        | Err e => Err (ESkill (path_join directory LOCKFILE +:+ " is corrupt: " +:+ e))
        end
    | None => Ok []
    end in
  Ok (rebuild_guides installed
        {| mg_config := mg_config m; mg_keys := mg_keys m; mg_install_dir := Some directory;
           mg_installed := installed; mg_guides := mg_guides m; mg_disk := disk |}).

Definition with_trusted_keys (keys : TrustedKeys) (m : Manager) : Manager :=
  {| mg_config := mg_config m; mg_keys := keys; mg_install_dir := mg_install_dir m;
     mg_installed := mg_installed m; mg_guides := mg_guides m; mg_disk := mg_disk m |}.

(** [installed_capabilities]. *)
Definition installed_capabilities (m : Manager) : CapabilitySet :=
  fold_left (fun set s => fold_left (fun set c => caps_insert c set) (sm_capabilities (is_manifest s)) set)
    (List.filter is_enabled (mg_installed m)) [].

(** ** Finding *)

(** [search]: a registry that fails is skipped. *)
Definition search (rs : list SkillRegistry) (query : string) : list SkillManifest :=
  concat (map (fun r => match sr_search r query with Ok l => l | Err _ => [] end) rs).

(** [locate]. *)
Definition preferred (prefer : option string) (rs : list SkillRegistry) : list SkillRegistry :=
  match prefer with
  | None => rs
  | Some p => (List.filter (fun r => bool_decide (sr_name r = p)) rs
               ++ List.filter (fun r => negb (bool_decide (sr_name r = p))) rs)%list
  end.

Definition locate (rs : list SkillRegistry) (id : SkillId) (prefer : option string) : option SkillRegistry :=
  List.find (fun r => is_ok (sr_inspect r id)) (preferred prefer rs).

(** What [stage] examined: the files, when there are any. *)
Definition examine (m : Manager) (fetched : FetchedSkill) (tree : Entries) : Result Evidence :=
  if fs_has_files fetched then
    finished (Err (ESkill "")) (gather sha256 b64_decode verify tree (fs_published_digest fetched) (mg_keys m))
  else Ok {| e_digest := None; e_published_digest := fs_published_digest fetched; e_signature := None |}.

(** [stage]. *)
Definition stage (rs : list SkillRegistry) (f : Faults) (m : Manager) (id : SkillId) (prefer : option string)
  : Result Staged :=
  let? _ := check_id id in
  match locate rs id prefer with
  | None => Err (ESkill ("no registry provides a skill named " +:+ id))
  | Some registry =>
      let? _ := fails (ft_stage f) (fun e => ESkill ("cannot stage in " +:+ e)) in
      let? fetch := sr_fetch registry id in
      let '(fetched, tree) := fetch in
      if negb (bool_decide (sm_id (fs_manifest fetched) = id)) then
        Err (ESecurity ("asked for " +:+ id +:+ ", the registry delivered "
                        +:+ sm_id (fs_manifest fetched)))
      else
        let? evidence := examine m fetched tree in
        let report := assess_fetched (fs_manifest fetched) evidence in
        Ok {| st_manifest := trusted_as (v_trust report) (fs_manifest fetched);
              st_report := report; st_evidence := evidence; st_registry := sr_name registry;
              st_tree := if fs_has_files fetched then Some tree else None |}
  end.

(** ** Installing *)

(** Removing what is at [target], and moving the staging directory there. *)
Definition clear_target (verb : string) (f : Faults) (name : string) (disk : Entries)
  : Entries * Result unit :=
  let cannot e := Err (ESkill ("cannot " +:+ verb +:+ " " +:+ name +:+ ": " +:+ e)) in
  match entry name disk with
  | None => (disk, Ok tt)
  | Some (File _) => (disk, cannot "not a directory")
  | Some _ =>
      match ft_clear f with
      | Some (e, Some rest) => (set_entry name rest disk, cannot e)
      | Some (e, None) => (remove_entry name disk, cannot e)
      | None => (remove_entry name disk, Ok tt)
      end
  end.

Definition persist (f : Faults) (name : string) (tree : Entries) (disk : Entries) : Entries * Result unit :=
  match ft_parent f, ft_rename f with
  | Some e, _ => (disk, Err (ESkill e))
  | None, Some e => (disk, Err (ESkill ("cannot install into " +:+ name +:+ ": " +:+ e)))
  | None, None => (set_entry name (Folder tree) disk, Ok tt)
  end.

Definition place (f : Faults) (s : Staged) (m : Manager) : Manager * Result unit :=
  match mg_install_dir m, st_tree s with
  | Some _, Some tree =>
      let '(disk, r) := clear_target "replace" f (sm_id (st_manifest s)) (mg_disk m) in
      match r with
      | Err e => (with_disk disk m, Err e)
      | Ok _ => let '(disk, r) := persist f (sm_id (st_manifest s)) tree disk in (with_disk disk m, r)
      end
  | _, _ => (m, Ok tt)
  end.

Definition signer (e : Evidence) : option string :=
  match e_signature e with Some (Valid key) => Some key | _ => None end.

Definition record_of (now : string) (s : Staged) (enabled : bool) : InstalledSkill :=
  {| is_manifest := st_manifest s; is_digest := e_digest (st_evidence s);
     is_signed_by := signer (st_evidence s); is_registry := st_registry s;
     is_enabled := enabled; is_installed_at := now |}.

Definition skill_leb (a b : InstalledSkill) : bool :=
  at_most (is_id a) (is_id b).

(** Recording: the old record of the id goes, the list stays sorted by id. *)
Definition record (r : InstalledSkill) (installed : list InstalledSkill) : list InstalledSkill :=
  stable_sort skill_leb
    (List.filter (fun s => negb (bool_decide (is_id s = is_id r))) installed ++ [r])%list.

(** [commit]. *)
Definition commit (f : Faults) (now : string) (s : Staged) (enabled : bool) (m : Manager)
  : Manager * Result InstalledSkill :=
  if negb (v_permitted (st_report s)) then
    (m, Err (ESecurity ("refusing to install " +:+ sm_id (st_manifest s) +:+ ": "
                        +:+ str_join "; " (v_blockers (st_report s)))))
  else
    let '(m, r) := place f s m in
    match r with
    | Err e => (m, Err e)
    | Ok _ =>
        let r := record_of now s enabled in
        let snapshot := record r (mg_installed m) in
        let '(m, saved) := save f snapshot (with_installed snapshot m) in
        (m, let? _ := saved in Ok r)
    end.

(** [preview] and [install]. *)
Definition preview (rs : list SkillRegistry) (f : Faults) (m : Manager) (id : SkillId)
  : Result (SkillManifest * ValidationReport) :=
  let? s := stage rs f m id None in Ok (st_manifest s, st_report s).

Definition install (rs : list SkillRegistry) (f : Faults) (now : string) (id : SkillId) (m : Manager)
  : Manager * Result InstalledSkill :=
  match stage rs f m id None with
  | Err e => (m, Err e)
  | Ok s => commit f now s (negb (bool_decide (sm_trust (st_manifest s) = Untrusted))) m
  end.

Definition failed_report (e : MetaAgentError) : ValidationReport :=
  {| v_permitted := false; v_trust := Untrusted; v_blockers := [error_display e]; v_warnings := [] |}.

(** [satisfy]. *)
Definition satisfy (rs : list SkillRegistry) (f : Faults) (now : string) (capability : Capability) (m : Manager)
  : Manager * SkillOutcome :=
  if negb (sk_enabled (mg_config m)) then (m, NotFound capability)
  else match List.find (fun s => contains (sm_capabilities s) capability)
                  (search rs (capability_display capability)) with
       | None => (m, NotFound capability)
       | Some candidate =>
           match stage rs f m (sm_id candidate) None with
           | Err e => (m, Refused candidate (failed_report e))
           | Ok s =>
               if negb (v_permitted (st_report s)) then (m, Refused (st_manifest s) (st_report s))
               else if negb (may_auto_install (v_trust (st_report s)) (sk_auto_install (mg_config m)))
               then (m, NeedsApproval (st_manifest s) (st_report s))
               else match commit f now s true m with
                    | (m, Ok r) => (m, Installed (is_manifest r))
                    | (m, Err _) => (m, Refused (st_manifest s) (st_report s))
                    end
           end
       end.

(** [remove]. *)
Definition remove_package (f : Faults) (id : SkillId) (m : Manager) : Manager * Result unit :=
  match mg_install_dir m with
  | None => (m, Ok tt)
  | Some _ =>
      match check_id id with
      | Err e => (m, Err e)
      | Ok _ => let '(disk, r) := clear_target "remove" f id (mg_disk m) in (with_disk disk m, r)
      end
  end.

Definition remove (f : Faults) (id : SkillId) (m : Manager) : Manager * Result bool :=
  let kept := List.filter (fun s => negb (bool_decide (is_id s = id))) (mg_installed m) in
  if bool_decide (length kept = length (mg_installed m)) then (m, Ok false)
  else
    let '(m, r) := remove_package f id (with_installed kept m) in
    match r with
    | Err e => (m, Err e)
    | Ok _ => let '(m, saved) := save f kept m in (m, let? _ := saved in Ok true)
    end.

(** [set_enabled]. *)
Definition enabled_as (enabled : bool) (s : InstalledSkill) : InstalledSkill :=
  {| is_manifest := is_manifest s; is_digest := is_digest s; is_signed_by := is_signed_by s;
     is_registry := is_registry s; is_enabled := enabled; is_installed_at := is_installed_at s |}.

Fixpoint switch (id : SkillId) (enabled : bool) (l : list InstalledSkill)
  : option (Result (list InstalledSkill)) :=
  match l with
  | [] => None
  | s :: l' =>
      if bool_decide (is_id s = id) then
        Some (if enabled && bool_decide (sm_trust (is_manifest s) = Untrusted)
              then Err (ESecurity (id +:+ " is untrusted and cannot be enabled; review it and publish it signed"))
              else Ok (enabled_as enabled s :: l'))
      else option_map (fun r => let? l' := r in Ok (s :: l')) (switch id enabled l')
  end.

Definition set_enabled (f : Faults) (id : SkillId) (enabled : bool) (m : Manager) : Manager * Result bool :=
  match switch id enabled (mg_installed m) with
  | None => (m, Ok false)
  | Some (Err e) => (m, Err e)
  | Some (Ok snapshot) =>
      let '(m, saved) := save f snapshot (with_installed snapshot m) in (m, let? _ := saved in Ok true)
  end.

(** ** Updating *)

Definition update_targets (only : option SkillId) (m : Manager) : list InstalledSkill :=
  List.filter (fun s => match only with Some id => bool_decide (is_id s = id) | None => true end
                        && negb (starts_with (sm_source (is_manifest s)) "generated:"))
    (mg_installed m).

(** Whether trust fell: [>] on [TrustLevel]. *)
Definition fell (s : Staged) (current : InstalledSkill) : bool :=
  trust_rank (sm_trust (is_manifest current)) <? trust_rank (sm_trust (st_manifest s)).

Definition same_digest (s : Staged) (current : InstalledSkill) : bool :=
  match e_digest (st_evidence s) with
  | Some d => bool_decide (is_digest current = Some d)
  | None => false
  end.

Definition update_one (rs : list SkillRegistry) (f : Faults) (now : string) (current : InstalledSkill)
    (m : Manager) : Manager * UpdateOutcome :=
  match stage rs f m (is_id current) (Some (is_registry current)) with
  | Err e => (m, Unavailable (error_display e))
  | Ok s =>
      if negb (v_permitted (st_report s)) then (m, UpdateRefused (v_blockers (st_report s)))
      else if same_digest s current then (m, Unchanged)
      else match commit f now s (is_enabled current && negb (fell s current)) m with
           | (m, Ok _) => (m, Updated (is_digest current) (e_digest (st_evidence s))
                                (fell s current && is_enabled current))
           | (m, Err e) => (m, UpdateRefused [error_display e])
           end
  end.

Fixpoint update_all (rs : list SkillRegistry) (f : SkillId -> Faults) (now : string)
    (targets : list InstalledSkill) (m : Manager) : Manager * list (SkillId * UpdateOutcome) :=
  match targets with
  | [] => (m, [])
  | current :: targets' =>
      let '(m, outcome) := update_one rs (f (is_id current)) now current m in
      let '(m, outcomes) := update_all rs f now targets' m in
      (m, (is_id current, outcome) :: outcomes)
  end.

(** [update]. *)
Definition update (rs : list SkillRegistry) (f : SkillId -> Faults) (now : string) (only : option SkillId)
    (m : Manager) : Manager * list (SkillId * UpdateOutcome) :=
  update_all rs f now (update_targets only m) m.

(** [install_generated]. *)
Definition install_generated (f : Faults) (now : string) (g : GeneratedSkill) (m : Manager)
  : Manager * Result InstalledSkill :=
  let manifest := trusted_as Untrusted (gs_manifest g) in
  let tree := [(MANIFEST_FILE, File (toml_manifest manifest))] in
  let staged :=
    let? _ := check_id (sm_id (gs_manifest g)) in
    let? _ := fails (ft_stage f) (fun e => ESkill ("cannot stage in " +:+ e)) in
    let? _ := fails (ft_manifest f) ESkill in
    let? evidence := finished (Err (ESkill "")) (gather sha256 b64_decode verify tree None []) in
    Ok {| st_manifest := manifest; st_report := validate manifest; st_evidence := evidence;
          st_registry := "generated:" +:+ gs_generated_by g; st_tree := Some tree |} in
  match staged with
  | Err e => (m, Err e)
  | Ok s => commit f now s false m
  end.

(** ** Capabilities and guidance *)

(** [gaps]. *)
Definition gaps (required available : CapabilitySet) (m : Manager) : list Capability :=
  List.filter (fun c => negb (contains available c) && negb (contains (installed_capabilities m) c)) required.

(** [guidance_for]: sorted by trust, stably. *)
Definition relevant (capabilities : CapabilitySet) (provides : CapabilitySet) : bool :=
  bool_decide (provides = []) || existsb (contains capabilities) provides.

Definition guide_leb (a b : SkillGuide) : bool := trust_rank (sg_trust a) <=? trust_rank (sg_trust b).

Definition guidance_for (capabilities : CapabilitySet) (m : Manager) : list SkillGuide :=
  stable_sort guide_leb
    (map snd (List.filter (fun g => relevant capabilities g.1) (mg_guides m))).

(** ** Sessions of operations *)

(** One operation, with what the world answers meanwhile. *)
Inductive Operation : Type :=
  | OInstall (rs : list SkillRegistry) (f : Faults) (now : string) (id : SkillId)
  | OSatisfy (rs : list SkillRegistry) (f : Faults) (now : string) (capability : Capability)
  | ORemove (f : Faults) (id : SkillId)
  | OSetEnabled (f : Faults) (id : SkillId) (enabled : bool)
  | OUpdate (rs : list SkillRegistry) (f : SkillId -> Faults) (now : string) (only : option SkillId)
  | OGenerated (f : Faults) (now : string) (g : GeneratedSkill).

Definition operate (m : Manager) (o : Operation) : Manager :=
  match o with
  | OInstall rs f now id => (install rs f now id m).1
  | OSatisfy rs f now c => (satisfy rs f now c m).1
  | ORemove f id => (remove f id m).1
  | OSetEnabled f id e => (set_enabled f id e m).1
  | OUpdate rs f now only => (update rs f now only m).1
  | OGenerated f now g => (install_generated f now g m).1
  end.
End Manager.
