(* ===== verification/SkillFacts.v ===== *)
(** * Skills: theorems

    What a digest binds, what a signature shows, where trust comes from, and
    what every sequence of operations of the manager keeps. *)

From S2P Require Export SkillManager.
Open Scope string_scope.
Open Scope Z_scope.

(** ** Plain text *)

(** A string of ASCII characters is its characters. *)
Lemma ascii_bytes s : Forall (fun c => 0 <= c < 128) (chars s) -> bytes s = chars s.
Proof.
  intros H. rewrite <- (of_chars_chars s) at 1. unfold of_chars. induction H as [|c l Hc H IH]; [done|].
  simpl. unfold utf8_encode at 1. rewrite (proj2 (Z.leb_gt _ _)) by (unfold INVALID; lia).
  rewrite (proj2 (Z.ltb_lt _ 0x80)) by lia. simpl. by rewrite byte_of_of_byte, IH by lia.
Qed.

(** ** Identifiers *)

Lemma is_id_char_range c : is_id_char c = true -> 0 <= c < 128 /\ c <> 47.
Proof.
  unfold is_id_char, is_ascii_alphanumeric, is_ascii_digit, is_ascii_upper, is_ascii_lower.
  intros. destruct_bools; lia.
Qed.

Lemma check_id_chars id : check_id id = Ok tt ->
  id <> "" /\ (String.length id <= 64)%nat /\ starts_with id "." = false /\
  forallb is_id_char (chars id) = true /\ str_contains id ".." = false.
Proof.
  unfold check_id. intros H. destruct_bools. repeat (case_match; try done).
  destruct_bools. split_and!; try done. lia.
Qed.

(** An accepted skill id is exactly one ordinary component of a path, so
    joining it to the install directory can name nothing outside of it. *)
Theorem check_id_component id :
  check_id id = Ok tt -> components id = [Normal id] /\ (String.length id <= 64)%nat.
Proof.
  intros (Hne & Hl & Hd & Hc & _)%check_id_chars. split; [|done]. unfold components.
  assert (Forall (fun c => 0 <= c < 128 /\ c <> 47) (chars id)) as Hall.
  { apply list.Forall_forall. intros c Hin. apply is_id_char_range.
    rewrite forallb_forall in Hc. apply Hc. by apply list_elem_of_In. }
  assert (bytes id = chars id) as Hb.
  { apply ascii_bytes. eapply list.Forall_impl; [done|]. naive_solver. }
  rewrite split_char_plain.
  - destruct id as [|a id]; [done|]. assert (byte_of a <> 46 /\ byte_of a <> 47) as [H46 H47].
    { split; intros E.
      - assert (a = of_byte 46) as -> by (rewrite <- E; symmetry; apply of_byte_of).
        vm_compute in Hd. done.
      - rewrite <- Hb in Hall. simpl in Hall. apply list.Forall_cons in Hall as [[_ ?] _]. congruence. }
    assert (forall s, String a id <> String (of_byte 46) s) as Hdot.
    { intros s [= -> _]. by apply H46. }
    replace (starts_with (String a id) "/") with false.
    + simpl. unfold piece_component. rewrite (bool_decide_eq_false_2 (_ = ".")) by apply Hdot.
      rewrite (bool_decide_eq_false_2 (_ = "")) by done.
      by rewrite (bool_decide_eq_false_2 (_ = "..")) by apply Hdot.
    + simpl. rewrite bool_decide_eq_false_2; [done|]. intros <-. by apply H47.
  - rewrite Hb. change (byte_of SLASH) with 47. intros Hin.
    rewrite list.Forall_forall in Hall. by destruct (Hall _ Hin).
Qed.

(** ** The files of a package *)

(** The reference walk: every file, [.git] directories and the signature
    apart; whether a link is met; whether a package is over the limits. *)
Definition skipped (e : string * Node) : bool :=
  match e.2 with Folder _ => bool_decide (e.1 = ".git") | _ => false end.

Fixpoint package_files (rel : list string) (n : Node) : Files :=
  match n with
  | Link _ => []
  | File content => if bool_decide (rel = [SIGNATURE_FILE]) then [] else [(rel, content)]
  | Folder entries =>
      concat (map (fun e => if skipped e then [] else package_files (rel ++ [e.1])%list e.2) entries)
  end.

Fixpoint linked (n : Node) : bool :=
  match n with
  | Link _ => true
  | File _ => false
  | Folder entries => existsb (fun e => negb (skipped e) && linked e.2) entries
  end.

Definition size (fs : Files) : Z := fold_right (fun f z => Z.of_nat (String.length f.2) + z) 0 fs.

Definition too_large (fs : Files) : bool :=
  (MAX_FILES <? Z.of_nat (length fs)) || (MAX_BYTES <? size fs).

Lemma size_nonneg fs : 0 <= size fs.
Proof. induction fs; simpl; lia. Qed.

Lemma size_app (a b : Files) : size (a ++ b)%list = size a + size b.
Proof. induction a as [|f a IH]; simpl; lia. Qed.

#[export] Instance size_proper : Proper ((≡ₚ) ==> (=)) size.
Proof. intros a b H. induction H; simpl; lia. Qed.

#[export] Instance too_large_proper : Proper ((≡ₚ) ==> (=)) too_large.
Proof. intros a b H. unfold too_large. by rewrite H. Qed.

Lemma too_large_app (a b : Files) : too_large a = true -> too_large (a ++ b)%list = true.
Proof.
  unfold too_large. rewrite size_app, length_app. pose proof (size_nonneg b).
  rewrite !orb_true_iff, !Z.ltb_lt. lia.
Qed.

(** What is still to visit. *)
Definition pending_files (p : list (list string * Entries)) : Files :=
  concat (map (fun q => package_files q.1 (Folder q.2)) p).
Definition pending_linked (p : list (list string * Entries)) : bool :=
  existsb (fun q => linked (Folder q.2)) p.
Definition pending_dirs (p : list (list string * Entries)) : nat :=
  list_sum (map (fun q => dirs (Folder q.2)) p).

Lemma package_files_cons rel e es :
  package_files rel (Folder (e :: es)) =
  ((if skipped e then [] else package_files (rel ++ [e.1])%list e.2) ++ package_files rel (Folder es))%list.
Proof. done. Qed.

Lemma linked_cons e es : linked (Folder (e :: es)) = negb (skipped e) && linked e.2 || linked (Folder es).
Proof. done. Qed.

Lemma pending_files_cons rel es p :
  pending_files ((rel, es) :: p) = (package_files rel (Folder es) ++ pending_files p)%list.
Proof. done. Qed.

Lemma pending_linked_cons rel es p :
  pending_linked ((rel, es) :: p) = linked (Folder es) || pending_linked p.
Proof. done. Qed.

Lemma pending_dirs_cons rel es p :
  pending_dirs ((rel, es) :: p) = (S (list_sum (map (fun e => dirs e.2) es)) + pending_dirs p)%nat.
Proof. done. Qed.

Lemma list_entries_spec rel es p f t :
  t = size f -> too_large f = false ->
  match list_entries rel es p f t with
  | Ok (p', f', t') =>
      ((f' ++ pending_files p') ≡ₚ (f ++ pending_files p ++ package_files rel (Folder es)))%list
      /\ pending_linked p' = pending_linked p || linked (Folder es)
      /\ t' = size f' /\ too_large f' = false
      /\ (pending_dirs p' <= pending_dirs p + list_sum (map (fun e => dirs e.2) es))%nat
  | Err _ => linked (Folder es) = true \/ too_large (f ++ package_files rel (Folder es))%list = true
  end.
Proof.
  revert p f t. induction es as [|[name node] es IH]; intros p f t Ht Hs.
  { simpl. rewrite app_nil_r, orb_false_r. split_and!; try done. lia. }
  rewrite package_files_cons, linked_cons. destruct node as [content|sub|target]; cbn [list_entries skipped snd fst].
  - cbn [negb andb linked orb package_files]. case_bool_decide as Hsig; [by apply IH|].
    set (file := ((rel ++ [name])%list, content)) in *.
    assert (size (file :: f) = Z.of_nat (String.length content) + size f) as Hsize by done.
    pose proof (size_nonneg f) as Hn.
    destruct (_ || _) eqn:El.
    + right. assert (too_large (file :: f) = true) as Hbig.
      { revert El. unfold too_large. rewrite Hsize, !orb_true_iff, !Z.ltb_lt, Ht.
        unfold sat64, U64_MAX, MAX_BYTES. intros [?|?]; [by left|right; lia]. }
      apply (too_large_app _ (package_files rel (Folder es))) in Hbig.
      rewrite <- Hbig. apply too_large_proper. symmetry. apply Permutation_middle.
    + assert (sat64 (t + Z.of_nat (String.length content)) = size (file :: f)) as ->.
      { rewrite Hsize, Ht. apply orb_false_iff in El as [_ El]. rewrite Z.ltb_ge, Ht in El.
        revert El. unfold sat64, U64_MAX, MAX_BYTES. lia. }
      assert (too_large (file :: f) = false) as Hsmall.
      { revert El. unfold too_large. rewrite Hsize, !orb_false_iff, !Z.ltb_ge, Ht.
        unfold sat64, U64_MAX, MAX_BYTES. lia. }
      specialize (IH p (file :: f)%list _ eq_refl Hsmall).
      destruct (list_entries rel es p (file :: f)%list _) as [[[p' f'] t']|e].
      * destruct IH as (Hf & Hl & Hrest). split_and!; try apply Hrest; [|done].
        rewrite Hf. simpl. solve_Permutation.
      * destruct IH as [?|IH]; [by left|right]. rewrite <- IH. apply too_large_proper. simpl.
        symmetry. apply Permutation_middle.
  - case_bool_decide as Hgit.
    + specialize (IH p f t Ht Hs). cbn [negb andb orb app].
      destruct (list_entries rel es p f t) as [[[p' f'] t']|e]; [|done].
      destruct IH as (?&?&?&?&?). split_and!; try done. simpl. lia.
    + specialize (IH (((rel ++ [name])%list, sub) :: p) f t Ht Hs). cbn [negb andb].
      destruct (list_entries rel es _ f t) as [[[p' f'] t']|e].
      * destruct IH as (Hf & Hl & Hw & Hsm & Hd). split_and!; try done.
        -- rewrite Hf, pending_files_cons. solve_Permutation.
        -- rewrite Hl, pending_linked_cons. destruct (linked (Folder sub)), (pending_linked p); done.
        -- unfold pending_dirs in *. simpl in *. lia.
      * destruct IH as [->|IH]; [left; by rewrite orb_true_r|right].
        rewrite (Permutation_app_comm (package_files _ _)), (assoc_L (++)%list).
        by apply too_large_app.
  - by left.
Qed.

Lemma list_files_spec fuel p f t :
  t = size f -> too_large f = false -> (pending_dirs p <= fuel)%nat ->
  exists r, list_files fuel p f t = Some r /\
    match r with
    | Ok fs => (fs ≡ₚ (f ++ pending_files p))%list /\ pending_linked p = false /\ too_large fs = false
    | Err _ => pending_linked p = true \/ too_large (f ++ pending_files p)%list = true
    end.
Proof.
  revert p f t. induction fuel as [|fuel IH]; intros p f t Ht Hs Hp.
  all: destruct p as [|[rel es] p]; cbn [list_files].
  1, 3: eexists; split; [done|]; simpl; rewrite app_nil_r, <- Permutation_rev; done.
  { unfold pending_dirs in Hp. simpl in Hp. lia. }
  pose proof (list_entries_spec rel es p f t Ht Hs) as Hspec.
  rewrite pending_files_cons, pending_linked_cons.
  destruct (list_entries rel es p f t) as [[[p' f'] t']|e].
  - destruct Hspec as (Hf & Hl & Ht' & Hs' & Hd).
    destruct (IH p' f' t' Ht' Hs') as (r & -> & Hr).
    { rewrite pending_dirs_cons in Hp. lia. }
    exists r. split; [done|]. rewrite orb_comm, <- Hl.
    assert ((f' ++ pending_files p')%list ≡ₚ (f ++ package_files rel (Folder es) ++ pending_files p)%list) as Hperm.
    { rewrite Hf. solve_Permutation. }
    destruct r as [fs|e]; [by rewrite <- Hperm|]. by rewrite <- Hperm.
  - eexists. split; [done|]. destruct Hspec as [->|Hspec]; [by left|right].
    rewrite (assoc_L (++)%list). by apply too_large_app.
Qed.


Lemma skill_files_spec root :
  exists r, skill_files root = Some r /\
    match r with
    | Ok fs => fs ≡ₚ package_files [] (Folder root)
               /\ StronglySorted (fun a b => path_leb a b = true) fs
               /\ linked (Folder root) = false /\ too_large fs = false
    | Err _ => linked (Folder root) = true \/ too_large (package_files [] (Folder root)) = true
    end.
Proof.
  destruct (list_files_spec (dirs (Folder root)) [([], root)] [] 0) as (r & Hr & Hspec); try done.
  { unfold pending_dirs. simpl. lia. }
  rewrite pending_files_cons, pending_linked_cons in Hspec.
  change (pending_files []) with (@nil (list string * string)) in Hspec.
  change (pending_linked []) with false in Hspec. rewrite app_nil_r, orb_false_r in Hspec.
  unfold skill_files. rewrite Hr. eexists. split; [done|]. destruct r as [fs|e]; [|done]. simpl.
  destruct Hspec as (Hf & Hl & Hs). split_and!; try done.
  - by rewrite stable_sort_perm.
  - apply (stable_sort_sorted _ (fun _ => True)).
    + intros a b _ _. apply at_most_total.
    + intros a b c _ _ _. apply at_most_trans.
    + by apply list.Forall_forall.
  - by rewrite stable_sort_perm.
Qed.

(** The walk over a package always ends; it refuses exactly a package with
    a link or over the limits on files and bytes, and otherwise lists every
    file once, in order, whatever the order the file system lists them in. *)
Theorem skill_files_exact root :
  exists r, skill_files root = Some r /\
    match r with
    | Ok fs => fs ≡ₚ package_files [] (Folder root)
               /\ StronglySorted (fun a b => path_leb a b = true) fs
               /\ linked (Folder root) = false
               /\ too_large (package_files [] (Folder root)) = false
    | Err _ => linked (Folder root) = true \/ too_large (package_files [] (Folder root)) = true
    end.
Proof.
  destruct (skill_files_spec root) as (r & Hr & Hspec). exists r. split; [done|].
  destruct r as [fs|e]; [|done]. destruct Hspec as (Hp & Hs & Hl & Ht). split_and!; try done.
  by rewrite <- Hp.
Qed.

(** ** What the digest binds *)

Lemma str_join_nonempty l : Forall plain_name l -> str_join "/" l = "" -> l = [].
Proof.
  intros H E. destruct H as [|n l (_ & Hn & _) H]; [done|]. destruct l as [|n' l]; simpl in E; [done|].
  by destruct n.
Qed.

Lemma str_join_inj l k :
  Forall plain_name l -> Forall plain_name k -> str_join "/" l = str_join "/" k -> l = k.
Proof.
  intros Hl Hk E. destruct (decide (l = [])) as [->|Nl].
  { symmetry. by apply str_join_nonempty. }
  destruct (decide (k = [])) as [->|Nk]; [by apply str_join_nonempty|].
  rewrite <- (split_str_join l), <- (split_str_join k); try done; [by rewrite E|..].
  all: eapply list.Forall_impl; [done|]; by intros ? (_&_&?&_).
Qed.

Lemma bytes_str_join_nul l : Forall plain_name l -> 0 ∉ bytes (str_join "/" l).
Proof.
  induction 1 as [|n l (_&_&_&Hn) H IH]; [set_solver|]. destruct l as [|n' l]; [done|].
  change (str_join "/" (n :: n' :: l)) with (n +:+ "/" +:+ str_join "/" (n' :: l)).
  rewrite !bytes_app, !elem_of_app. change (bytes "/") with [47]. set_solver.
Qed.

Lemma le_bytes_inj n a b :
  0 <= a < 256 ^ Z.of_nat n -> 0 <= b < 256 ^ Z.of_nat n -> le_bytes n a = le_bytes n b -> a = b.
Proof.
  revert a b. induction n as [|n IH]; intros a b Ha Hb; simpl; [simpl in *; lia|].
  rewrite Nat2Z.inj_succ, Z.pow_succ_r in Ha, Hb by lia.
  intros [= Hm Hd]. apply IH in Hd; [|split; [apply Z.div_pos|apply Z.div_lt_upper_bound]; lia..].
  rewrite (Z.div_mod a 256), (Z.div_mod b 256) by lia. congruence.
Qed.

Lemma length_le_bytes n z : length (le_bytes n z) = n.
Proof. revert z. induction n as [|n IH]; intros z; simpl; [done|]. by rewrite IH. Qed.

Lemma app_cons_inj {A} (x : A) l1 l2 k1 k2 :
  x ∉ l1 -> x ∉ l2 -> (l1 ++ x :: k1 = l2 ++ x :: k2)%list -> l1 = l2 /\ k1 = k2.
Proof.
  revert l2. induction l1 as [|a l1 IH]; intros [|b l2] H1 H2 E; simpl in E.
  - by injection E as ->.
  - injection E as -> _. set_solver.
  - injection E as -> _. set_solver.
  - injection E as -> E. apply IH in E as [-> ->]; set_solver.
Qed.

(** One file is read back from the bytes it contributes. *)
Definition encodable (f : list string * string) : Prop :=
  Forall plain_name f.1 /\ Z.of_nat (String.length f.2) < 2 ^ 64.

Lemma file_bytes_inj f g x y :
  encodable f -> encodable g -> (file_bytes f ++ x = file_bytes g ++ y)%list -> f = g /\ x = y.
Proof.
  intros [Hf Lf] [Hg Lg]. destruct f as [p c], g as [q d]. simpl in *. unfold file_bytes. simpl fst. simpl snd.
  assert (forall l, Forall plain_name l -> map from_utf8_lossy l = l) as Hmap.
  { intros l. induction 1 as [|n l (?&_) H IH]; simpl; [done|]. by rewrite IH, from_utf8_lossy_valid. }
  rewrite !Hmap by done. rewrite <- !(assoc_L (++)%list). cbn [app]. intros E.
  apply app_cons_inj in E as [En E]; [|by apply bytes_str_join_nul..].
  apply bytes_inj, str_join_inj in En as ->; [|done..].
  apply app_inj_1 in E as [El E]; [|by rewrite !length_le_bytes].
  apply le_bytes_inj in El; [|simpl; lia..]. apply app_inj_1 in E as [Ec ->]; [|rewrite !bytes_length; lia].
  by apply bytes_inj in Ec as ->.
Qed.

Lemma files_bytes_inj fs gs :
  Forall encodable fs -> Forall encodable gs -> files_bytes fs = files_bytes gs -> fs = gs.
Proof.
  intros Hf. revert gs. induction Hf as [|f fs Hf Hfs IH]; intros [|g gs] Hg E.
  - done.
  - apply (f_equal length) in E. unfold files_bytes, file_bytes in E. simpl in E.
    rewrite !length_app in E. simpl in E. lia.
  - apply (f_equal length) in E. unfold files_bytes, file_bytes in E. simpl in E.
    rewrite !length_app in E. simpl in E. lia.
  - apply list.Forall_cons in Hg as [Hg Hgs]. apply file_bytes_inj in E as [-> E]; [|done..].
    by rewrite (IH gs).
Qed.

Definition is_byte (b : Z) : Prop := 0 <= b < 256.

Lemma hex_digit_inj a b : 0 <= a < 16 -> 0 <= b < 16 -> hex_digit a = hex_digit b -> a = b.
Proof.
  intros Ha Hb E. apply (f_equal byte_of) in E. revert E. unfold hex_digit.
  rewrite !byte_of_of_byte by (case_match; lia). repeat case_match; lia.
Qed.

Lemma to_hex_inj a b : Forall is_byte a -> Forall is_byte b -> to_hex a = to_hex b -> a = b.
Proof.
  unfold is_byte. intros Ha. revert b.
  induction Ha as [|x a Hx Ha IH]; intros [|y b] Hb E; try done. simpl in E.
  apply list.Forall_cons in Hb as [Hy Hb]. injection E as E1 E2 E3.
  apply hex_digit_inj in E1; [|split; [apply Z.div_pos|apply Z.div_lt_upper_bound]; lia..].
  apply hex_digit_inj in E2; [|apply Z.mod_pos_bound; lia..].
  rewrite (IH b) by done. f_equal.
  rewrite (Z.div_mod x 16), (Z.div_mod y 16) by lia. by rewrite E1, E2.
Qed.

Lemma size_elem f (fs : Files) : f ∈ fs -> Z.of_nat (String.length f.2) <= size fs.
Proof.
  induction fs as [|g fs IH]; [set_solver|]. intros [->|Hf]%elem_of_cons; simpl.
  - pose proof (size_nonneg fs). lia.
  - apply IH in Hf. lia.
Qed.

Lemma encodable_files fs :
  too_large fs = false -> Forall (fun f => Forall plain_name f.1) fs -> Forall encodable fs.
Proof.
  intros Hl H. rewrite list.Forall_forall in H |- *. intros f Hf. split; [by apply H|].
  apply size_elem in Hf. unfold too_large in Hl. destruct_bools.
  rewrite Z.ltb_ge in *. unfold MAX_BYTES in *. lia.
Qed.

(** Two different byte strings with the same hash. *)
Definition collision (sha256 : list Z -> list Z) : Prop := exists a b, a <> b /\ sha256 a = sha256 b.

(** C35: Packages whose file names are UTF-8 and that have the same digest hold
    the same digested files under the same names, byte for byte, unless the hash
    itself collides: renaming, moving bytes between files or adding an empty file
    all change what is hashed.  The digested files are all but those below a
    directory named .git, at any depth, and the skill.sig of the package itself,
    which may change without changing the digest. *)
Theorem digest_binds (sha256 : list Z -> list Z) (a b : Entries) d :
  (forall l, Forall is_byte (sha256 l)) ->
  Forall (fun f => Forall plain_name f.1) (package_files [] (Folder a)) ->
  Forall (fun f => Forall plain_name f.1) (package_files [] (Folder b)) ->
  content_digest sha256 a = Some (Ok d) -> content_digest sha256 b = Some (Ok d) ->
  package_files [] (Folder a) ≡ₚ package_files [] (Folder b) \/ collision sha256.
Proof.
  intros Hbytes Ha Hb Da Db. unfold content_digest in Da, Db.
  destruct (skill_files_spec a) as (ra & Ea & Hra), (skill_files_spec b) as (rb & Eb & Hrb).
  rewrite Ea in Da. rewrite Eb in Db. destruct ra as [fa|]; [|done]. destruct rb as [fb|]; [|done].
  simpl in Da, Db. destruct Hra as (Pa & _ & _ & La), Hrb as (Pb & _ & _ & Lb).
  destruct (decide (files_bytes fa = files_bytes fb)) as [E|N]; [left|right].
  - rewrite <- Pa, <- Pb. rewrite <- Pa in Ha. rewrite <- Pb in Hb.
    assert (fa = fb) as ->; [|done].
    apply files_bytes_inj; [by apply encodable_files|by apply encodable_files|done].
  - exists (files_bytes fa), (files_bytes fb). split; [done|].
    assert (sha256 (files_bytes fa) = sha256 (files_bytes fb)); [|done].
    apply to_hex_inj; [done|done|].
    rewrite <- Db in Da. by injection Da.
Qed.

(** ** Scanning *)

Definition scan_dirs (p : list (list string * Entries * nat)) : nat :=
  list_sum (map (fun q => dirs (Folder q.1.2)) p).

Lemma sub_dirs_cons rel name node dir :
  sub_dirs rel ((name, node) :: dir) =
  (match node with
   | Folder sub => if starts_with name "." then [] else [((rel ++ [name])%list, sub)]
   | _ => []
   end ++ sub_dirs rel dir)%list.
Proof.
  unfold sub_dirs. destruct node as [c|sub|l]; [done| |done]. cbn -[starts_with].
  by destruct (starts_with name ".").
Qed.

Lemma sub_dirs_weight rel dir :
  (list_sum (map (fun q => dirs (Folder q.2)) (sub_dirs rel dir)) <= list_sum (map (fun e => dirs e.2) dir))%nat.
Proof.
  induction dir as [|[name node] dir IH]; [done|]. rewrite sub_dirs_cons, map_app, list_sum_app.
  change (list_sum (map (fun e => dirs e.2) ((name, node) :: dir)))
    with (dirs node + list_sum (map (fun e => dirs e.2) dir))%nat.
  apply Nat.add_le_mono; [|exact IH]. destruct node as [c|sub|l]; [apply Nat.le_0_l| |apply Nat.le_0_l].
  destruct (starts_with name "."); [apply Nat.le_0_l|]. simpl. lia.
Qed.

Lemma scan_dirs_app a b : scan_dirs (a ++ b)%list = (scan_dirs a + scan_dirs b)%nat.
Proof. unfold scan_dirs. by rewrite map_app, list_sum_app. Qed.

Lemma scan_dirs_rev a : scan_dirs (rev a) = scan_dirs a.
Proof.
  induction a as [|x a IH]; [done|]. cbn [rev]. rewrite scan_dirs_app, IH. unfold scan_dirs. simpl. lia.
Qed.

(** The fuel of [scan], one round per directory, is enough: a scan ends. *)
Lemma scan_total toml depth root : exists l, scan toml depth root = Some l.
Proof.
  assert (forall fuel p found, (scan_dirs p <= fuel)%nat -> exists l, scan_loop toml depth fuel p found = Some l) as H.
  { induction fuel as [|fuel IH]; intros [|[[rel dir] level] p] found Hp; cbn [scan_loop]; eauto.
    - unfold scan_dirs in Hp. simpl in Hp. lia.
    - apply IH. rewrite scan_dirs_app, scan_dirs_rev.
      change (scan_dirs ((rel, dir, level) :: p)) with (S (list_sum (map (fun e => dirs e.2) dir)) + scan_dirs p)%nat in Hp.
      assert (scan_dirs (scan_dir toml depth rel dir level).2 <= list_sum (map (fun e => dirs e.2) dir))%nat; [|lia].
      unfold scan_dir. destruct (is_package dir); [unfold scan_dirs; simpl; lia|].
      destruct (depth <=? level)%nat; [unfold scan_dirs; simpl; lia|]. unfold scan_dirs. cbn [snd]. rewrite map_map.
      apply sub_dirs_weight. }
  unfold scan. destruct (H (dirs (Folder root)) [([], root, O)] []) as [l ->]; [|eauto].
  unfold scan_dirs. simpl. lia.
Qed.
