(* ===== verification/TrustFacts.v ===== *)
(** * Skills: where trust comes from

    The publisher's signature line is read back, validation is a declarative
    predicate, the registries of a configuration keep the laws of their port,
    and a staged skill is trusted only on evidence. *)

From S2P Require Export SkillFacts.
Open Scope string_scope.
Open Scope Z_scope.

(** ** Trimming and prefixes *)

Lemma chars_ascii_cons a s : byte_of a < 128 -> chars (String a s) = byte_of a :: chars s.
Proof.
  intros Ha. unfold chars. cbn [String.length bytes utf8_decode]. pose proof (byte_of_range a) as Hr.
  assert (utf8_step (byte_of a :: bytes s) = Some (byte_of a, 1%nat)) as ->; [|done].
  unfold utf8_step, utf8_candidate. rewrite (proj2 (Z.ltb_lt _ 0x80)) by lia.
  rewrite bool_decide_eq_true_2; [|unfold utf8_encode; rewrite (proj2 (Z.leb_gt _ _)) by (unfold INVALID; lia);
    by rewrite (proj2 (Z.ltb_lt _ 0x80)) by lia].
  by rewrite (proj2 (Z.ltb_lt _ _)) by (unfold INVALID; lia).
Qed.

(** Visible ASCII text. *)
Definition visible (p : string) : Prop := Forall (fun b => b < 128 /\ is_whitespace b = false) (bytes p).

Lemma chars_ascii_app p s : Forall (fun b => b < 128) (bytes p) -> chars (p +:+ s) = (bytes p ++ chars s)%list.
Proof.
  induction p as [|a p IH]; cbn [String.append bytes app]; [done|]. intros [Ha H]%list.Forall_cons.
  change (String a p +:+ s) with (String a (p +:+ s)). by rewrite chars_ascii_cons, IH.
Qed.

Lemma of_chars_bytes p : Forall (fun b => b < 128) (bytes p) -> of_chars (bytes p) = p.
Proof.
  intros H. rewrite <- (of_chars_chars p) at 2. f_equal.
  rewrite <- (str_app_nil_r p) at 2. rewrite chars_ascii_app by done. by rewrite app_nil_r.
Qed.

Lemma drop_while_app p l c k : p c = false -> drop_while p (l ++ c :: k)%list = (drop_while p l ++ c :: k)%list.
Proof. intros Hc. induction l as [|x l IH]; simpl; [by rewrite Hc|]. by destruct (p x). Qed.

(** Trimming keeps a visible prefix. *)
Lemma trim_visible p s : p <> "" -> visible p -> exists s', trim (p +:+ s) = p +:+ s'.
Proof.
  intros Hne Hp. assert (Forall (fun b => b < 128) (bytes p)) as Ha.
  { eapply list.Forall_impl; [apply Hp|]. naive_solver. }
  unfold trim, trim_matches. rewrite chars_ascii_app by done.
  assert (exists c k, bytes p = c :: k /\ is_whitespace c = false) as (c & k & Ec & Hc).
  { destruct p as [|a p]; [done|]. apply list.Forall_cons in Hp as [[_ Hw] _]. by eexists _, _. }
  assert (exists d j, rev (bytes p) = d :: j /\ is_whitespace d = false) as (d & j & Ed & Hd).
  { destruct (rev (bytes p)) as [|d j] eqn:E.
    - apply (f_equal (@rev Z)) in E. rewrite rev_involutive, Ec in E. done.
    - exists d, j. split; [done|]. assert (d ∈ bytes p) as Hin.
      { apply list_elem_of_In, in_rev. rewrite E. by left. }
      unfold visible in Hp. rewrite list.Forall_forall in Hp. by destruct (Hp d Hin). }
  assert (drop_while is_whitespace (bytes p ++ chars s) = bytes p ++ chars s)%list as ->
    by (rewrite Ec; simpl; by rewrite Hc).
  rewrite rev_app_distr, Ed, drop_while_app by done. rewrite rev_app_distr, <- Ed, rev_involutive.
  rewrite of_chars_app, of_chars_bytes by done. eauto.
Qed.

Lemma trim_visible_id p : p <> "" -> visible p -> trim p = p.
Proof.
  intros Hne Hp. destruct (trim_visible p "" Hne Hp) as [s' E]. rewrite str_app_nil_r in E.
  pose proof (length_trim p) as Hl. rewrite E, length_append in Hl. rewrite E.
  destruct s'; [apply str_app_nil_r|simpl in Hl; lia].
Qed.

Lemma to_ascii_lowercase_app a b :
  to_ascii_lowercase (a +:+ b) = to_ascii_lowercase a +:+ to_ascii_lowercase b.
Proof. induction a as [|c a IH]; simpl; [done|]. by rewrite IH. Qed.

Lemma starts_with_app p s : starts_with (p +:+ s) p = true.
Proof. apply starts_with_spec. eauto. Qed.

(** ** Signatures *)

Lemma splitn_char_app n c p s :
  byte_of c ∉ bytes p -> splitn_char (S (S n)) c (p +:+ String c s) = p :: splitn_char (S n) c s.
Proof.
  intros Hp. cbn [splitn_char].
  assert (forall acc, (fix go (acc : string) (rest : string) : list string :=
         match rest with
         | EmptyString => [acc]
         | String a rest' =>
             if bool_decide (a = c) then acc :: splitn_char (S n) c rest'
             else go (acc +:+ String a EmptyString) rest'
         end) acc (p +:+ String c s) = (acc +:+ p) :: splitn_char (S n) c s) as H; [|by rewrite H].
  induction p as [|a p IH]; intros acc; simpl.
  - rewrite bool_decide_eq_true_2 by done. by rewrite str_app_nil_r.
  - rewrite bool_decide_eq_false_2 by (intros ->; simpl in Hp; set_solver).
    rewrite IH by (simpl in Hp; set_solver). by rewrite str_app_assoc.
Qed.

(** Key names and base64 as the file format needs them. *)
Definition key_name (k : string) : Prop := visible k /\ byte_of COLON ∉ bytes k.

Section Signatures.
Context {Key SigningKey : Type} (b64_decode : string -> result (list Z) string)
  (b64_encode : list Z -> string) (verify : Key -> list Z -> list Z -> bool)
  (ed_sign : SigningKey -> list Z -> list Z).

(** Base64 of bytes is visible ASCII and decodes to what was encoded; an
    Ed25519 signature is 64 bytes. *)
Record signing_laws : Prop := {
  law_decode : forall bs, Forall is_byte bs -> b64_decode (b64_encode bs) = Ok bs;
  law_visible : forall bs, Forall is_byte bs -> visible (b64_encode bs);
  law_nonempty : forall bs, bs <> [] -> b64_encode bs <> "";
  law_length : forall k m, length (ed_sign k m) = 64%nat /\ Forall is_byte (ed_sign k m);
}.

Lemma check_signed_line digest signed key_id key (keys : TrustedKeys (Key := Key)) :
  signing_laws -> key_name key_id ->
  check_signature b64_decode verify digest (sign b64_encode ed_sign signed key_id key) keys =
  match bt_get key_id keys with
  | None => UnknownKey key_id
  | Some k => if verify k (bytes digest) (ed_sign key (bytes signed)) then Valid key_id
              else Invalid ("the signature by " +:+ debug_str key_id +:+ " does not match the skill's contents")
  end.
Proof.
  intros L [Hv Hc]. unfold check_signature, sign. set (enc := b64_encode _).
  assert (visible enc /\ enc <> "") as [Venc Nenc].
  { destruct (law_length L key (bytes signed)) as [H Hb].
    split; [by apply (law_visible L)|]. apply (law_nonempty L). intros E. by rewrite E in H. }
  assert (visible ("ed25519:" +:+ key_id +:+ ":" +:+ enc)) as Hline.
  { unfold visible in *. rewrite !bytes_app, !list.Forall_app. split_and!; try done.
    all: repeat constructor. }
  rewrite trim_visible_id by done. rewrite bool_decide_eq_false_2 by done.
  change (":" +:+ enc) with (String COLON enc).
  change ("ed25519:" +:+ key_id +:+ String COLON enc) with ("ed25519" +:+ String COLON (key_id +:+ String COLON enc)).
  rewrite splitn_char_app by (vm_compute; set_solver). rewrite splitn_char_app by done. cbn [splitn_char].
  rewrite bool_decide_eq_true_2 by done. destruct (bt_get key_id keys) as [k|]; [|done].
  rewrite trim_visible_id by done. unfold enc.
  destruct (law_length L key (bytes signed)). rewrite (law_decode L) by done.
  by rewrite bool_decide_eq_true_2.
Qed.

(** The line a publisher writes for a digest is read back: it is valid for
    the key configured under its name exactly when that key verifies the
    signature, so always for the signer's own key; a name that is not
    configured proves nothing. *)
Theorem signature_roundtrip (public : SigningKey -> Key) digest key_id key (keys : TrustedKeys (Key := Key)) :
  signing_laws -> key_name key_id ->
  (forall k m, verify (public k) m (ed_sign k m) = true) ->
  (bt_get key_id keys = Some (public key) ->
   check_signature b64_decode verify digest (sign b64_encode ed_sign digest key_id key) keys = Valid key_id)
  /\ (bt_get key_id keys = None ->
      check_signature b64_decode verify digest (sign b64_encode ed_sign digest key_id key) keys = UnknownKey key_id)
  /\ (forall k signed, bt_get key_id keys = Some k ->
      (check_signature b64_decode verify digest (sign b64_encode ed_sign signed key_id key) keys = Valid key_id
       <-> verify k (bytes digest) (ed_sign key (bytes signed)) = true)).
Proof.
  intros L Hk Hsign. split_and!.
  - intros E. rewrite check_signed_line, E by done. by rewrite Hsign.
  - intros E. by rewrite check_signed_line, E by done.
  - intros k signed E. rewrite check_signed_line, E by done. by case_match.
Qed.
End Signatures.

(** ** Validation *)

(** What a permission may not be. *)
Definition harmless (permission : string) : Prop :=
  (forall d, d ∈ DANGEROUS_PERMISSIONS -> starts_with (to_ascii_lowercase (trim permission)) d = false)
  /\ (forall p, p ∈ ESCAPE_PATTERNS -> str_contains permission p = false).

Record acceptable (m : SkillManifest) (e : Evidence) : Prop := {
  acc_name : trim (sm_name m) <> "";
  acc_source : trim (sm_source m) <> "";
  acc_permissions : forall p, p ∈ sm_permissions m -> harmless p;
  acc_digest : forall d p, e_digest e = Some d -> e_published_digest e = Some p -> d = p;
  acc_signature : forall r, e_signature e <> Some (Invalid r);
  acc_origin : exists p, p ∈ ["builtin:"; "file:"; "generated:"; "https://"; "git+https://"]
                         /\ starts_with (origin m) p = true;
}.

Lemma existsb_false_all {A} (f : A -> bool) l : existsb f l = false <-> forall x, x ∈ l -> f x = false.
Proof.
  induction l as [|a l IH]; simpl; [set_solver|]. rewrite orb_false_iff, IH. set_solver.
Qed.

Lemma permission_blockers_nil p : permission_blockers p = [] <-> harmless p.
Proof.
  unfold permission_blockers, harmless, dangerous, escapes. rewrite app_nil.
  rewrite <- (existsb_false_all (starts_with _)), <- (existsb_false_all (str_contains p)).
  destruct (existsb _ _), (existsb _ _); naive_solver.
Qed.

Lemma concat_map_nil {A B} (f : A -> list B) l : concat (map f l) = [] <-> forall x, x ∈ l -> f x = [].
Proof.
  induction l as [|a l IH]; simpl; [set_solver|]. rewrite app_nil, IH. set_solver.
Qed.

Lemma origin_secure_spec m :
  origin_is_secure m = true <->
  exists p, p ∈ ["builtin:"; "file:"; "generated:"; "https://"; "git+https://"]
            /\ starts_with (origin m) p = true.
Proof.
  unfold origin_is_secure, origin_is_local, origin_is_generated. rewrite !orb_true_iff.
  split; [|intros (p & Hp & E); repeat (apply elem_of_cons in Hp as [->|Hp]; [by auto|]); by apply elem_of_nil in Hp].
  intros [[[[?|?]|?]|?]|?]; eexists; (split; [|eassumption]); repeat constructor.
Qed.

Lemma blockers_nil m e : blockers m e = [] <-> acceptable m e.
Proof.
  unfold blockers. rewrite !app_nil, concat_map_nil. setoid_rewrite permission_blockers_nil.
  assert ((if origin_is_secure m then [] else
    ["source " +:+ debug_str (sm_source m) +:+ " is neither local nor fetched over TLS"]) = []
    <-> exists p, p ∈ ["builtin:"; "file:"; "generated:"; "https://"; "git+https://"]
            /\ starts_with (origin m) p = true) as ->.
  { rewrite <- origin_secure_spec. by case_match. }
  assert (forall b : bool, forall s : string, (if b then [s] else []) = [] <-> b = false) as Hif by (by intros []).
  rewrite !Hif, !bool_decide_eq_false. clear Hif.
  split.
  - intros (?&?&?&Hd&Hs&?). split; try done.
    + intros d p Ed Ep. unfold digest_matches in Hd. rewrite Ed, Ep in Hd.
      destruct (decide (d = p)); [done|]. by rewrite bool_decide_eq_false_2 in Hd.
    + intros r E. by rewrite E in Hs.
  - intros [? ? ? Hd Hs ?]. split_and!; try done.
    + unfold digest_matches. repeat case_match; try done. rewrite bool_decide_eq_true_2; [done|eauto].
    + repeat case_match; simplify_eq; try done. by destruct (Hs reason).
Qed.

(** A skill may be installed exactly when it has a name and a secure source,
    every permission is harmless, its contents match what was published and its
    signature is not invalid; its trust is never above the trust it claims, and
    a generated skill is untrusted whatever its evidence. *)
Theorem validate_exact m e :
  (v_permitted (validate_with m e) = true <-> acceptable m e)
  /\ trust_rank (sm_trust m) <= trust_rank (v_trust (validate_with m e))
  /\ (origin_is_generated m = true -> v_trust (validate_with m e) = Untrusted).
Proof.
  split_and!.
  - simpl. by rewrite bool_decide_eq_true, blockers_nil.
  - simpl. unfold trust_max. case_match; [|lia]. by apply Z.lt_le_incl, Z.ltb_lt.
  - simpl. unfold derived_trust. intros ->. by destruct (sm_trust m).
Qed.

(** ** Registries *)

(** What the manager may rely on: only the binary's own skills say they are
    built in, none says it was generated, and a digest is vouched for only by a
    source fetched over TLS. *)
Class RegistryLaws (r : SkillRegistry) : Prop := {
  fetch_builtin : forall id f tree, sr_fetch r id = Ok (f, tree) ->
    starts_with (origin (fs_manifest f)) "builtin:" = true -> fs_manifest f ∈ map fst builtin_skills;
  fetch_generated : forall id f tree, sr_fetch r id = Ok (f, tree) ->
    origin_is_generated (fs_manifest f) = false;
  fetch_published : forall id f tree d, sr_fetch r id = Ok (f, tree) ->
    fs_published_digest f = Some d -> starts_with (origin (fs_manifest f)) "https://" = true;
}.

Lemma origin_prefix p s m :
  p <> "" -> visible p -> to_ascii_lowercase p = p -> sm_source m = p +:+ s ->
  exists s', origin m = p +:+ s'.
Proof.
  intros Hne Hv Hl E. unfold origin. rewrite E. destruct (trim_visible p s Hne Hv) as [s' ->].
  rewrite to_ascii_lowercase_app, Hl. eauto.
Qed.

(** A source that starts with a letter other than b or g is neither built in
    nor generated. *)
Lemma origin_first a s m :
  sm_source m = String a s -> visible (String a "") -> ascii_lower a = a ->
  a <> "b"%char -> a <> "g"%char ->
  starts_with (origin m) "builtin:" = false /\ origin_is_generated m = false.
Proof.
  intros E Hv Hl Nb Ng. destruct (origin_prefix (String a "") s m) as [s' Ho]; try done.
  { simpl. by rewrite Hl. }
  unfold origin_is_generated. rewrite Ho. cbn [String.append starts_with].
  change (String a "" +:+ s') with (String a s'). cbn [starts_with].
  by rewrite !bool_decide_eq_false_2.
Qed.

Lemma elem_of_find {A} (p : A -> bool) l x : List.find p l = Some x -> x ∈ l /\ p x = true.
Proof. intros H. apply List.find_some in H as [Hin Hp]. by rewrite list_elem_of_In. Qed.

Lemma elem_of_map {A B} (f : A -> B) l y : y ∈ map f l <-> exists x, y = f x /\ x ∈ l.
Proof. exact (list_elem_of_fmap f l y). Qed.

(** Every skill read from a directory says so. *)
Lemma read_directory_source toml directory m o :
  (m, o) ∈ read_directory toml directory -> exists s, sm_source m = "file:" +:+ s.
Proof.
  unfold read_directory. destruct directory as [[path [entries|]]|]; [|set_solver..].
  rewrite elem_of_app. unfold loose_manifests, package_manifests. rewrite !list_elem_of_omap.
  intros [(e & _ & H)|([[rel dir] m'] & _ & H)]; repeat case_match; simplify_eq; simpl; eauto.
Qed.

#[export] Instance local_registry_laws toml builtin directory :
  builtin ⊆ builtin_skills -> RegistryLaws (local_registry toml builtin directory).
Proof.
  intros Hb.
  assert (forall id f tree, local_fetch toml builtin directory id = Ok (f, tree) ->
    fs_published_digest f = None /\
    (fs_manifest f ∈ map fst builtin_skills \/ exists s, sm_source (fs_manifest f) = "file:" +:+ s)) as H.
  { intros id f tree. unfold local_fetch.
    destruct (List.find _ builtin) as [[m ins]|] eqn:E1.
    { intros [= <- <-]. split; [done|left]. apply elem_of_find in E1 as [E1 _]. cbn [fs_manifest].
      apply elem_of_map. exists (m, ins). split; [done|]. by apply Hb. }
    destruct (List.find _ (read_directory _ _)) as [[m o]|] eqn:E2; [|done].
    apply elem_of_find in E2 as [E2 _]. apply read_directory_source in E2.
    destruct o as [dir|]; [|intros [= <- <-]; auto].
    destruct (finished _ _) as [t|]; [|done]. intros [= <- <-]. auto. }
  assert (forall m, m ∈ map fst builtin_skills -> origin_is_generated m = false) as Hgen.
  { intros m Hm. apply elem_of_map in Hm. destruct Hm as (p & -> & Hp).
    repeat (apply elem_of_cons in Hp as [->|Hp]; [vm_compute; reflexivity|]). by apply elem_of_nil in Hp. }
  assert (forall s m, sm_source m = "file:" +:+ s ->
    starts_with (origin m) "builtin:" = false /\ origin_is_generated m = false) as Hfile.
  { intros s m E. eapply origin_first; [exact E|by repeat constructor|done..]. }
  split; intros id f tree; [intros Hf Ho|intros Hf|intros d Hf Hp];
    destruct (H id f tree Hf) as [Hpub [Hin|[s Hs]]]; simplify_eq; auto.
  - destruct (Hfile _ _ Hs). congruence.
  - by destruct (Hfile _ _ Hs).
Qed.

Lemma git_packages_source toml r checkout ps dir m :
  git_packages toml r checkout = Ok ps -> (dir, m) ∈ ps -> exists s, sm_source m = "git+" +:+ s.
Proof.
  unfold git_packages. destruct checkout as [root|]; [|done]. simpl. intros [= <-].
  rewrite elem_of_map. intros ([[rel d] m'] & E & _). simplify_eq. simpl. eauto.
Qed.

#[export] Instance git_registry_laws toml r checkout : RegistryLaws (git_registry toml r checkout).
Proof.
  assert (forall id f tree, git_fetch toml r checkout id = Ok (f, tree) ->
    fs_published_digest f = None /\ exists s, origin (fs_manifest f) = "git+" +:+ s) as H.
  { intros id f tree. unfold git_fetch. destruct (git_packages toml r checkout) as [ps|] eqn:E; [|done].
    simpl. destruct (List.find _ ps) as [[dir m]|] eqn:Ef; [|done].
    apply elem_of_find in Ef as [Ef _]. destruct (git_packages_source _ _ _ _ _ _ E Ef) as [s Hs].
    destruct (finished _ _) as [t|]; [|done]. intros [= <- <-]. split; [done|].
    eapply origin_prefix; [..|exact Hs]; [done|by repeat constructor|done]. }
  split; intros id f tree; [intros Hf Ho|intros Hf|intros d Hf Hp];
    destruct (H id f tree Hf) as [Hpub [s Hs]]; [|unfold origin_is_generated; by rewrite Hs|congruence].
  by rewrite Hs in Ho.
Qed.

#[export] Instance index_registry_laws http parse_index url cell :
  index_new url = Ok url -> RegistryLaws (index_registry http parse_index url cell).
Proof.
  unfold index_new. destruct (starts_with url "https://") eqn:Hu; [|done]. intros _.
  apply starts_with_spec in Hu as [t Ht].
  assert (forall id f tree, index_fetch http parse_index url cell id = Ok (f, tree) ->
    exists s, origin (fs_manifest f) = "https://" +:+ s) as H.
  { intros id f tree. unfold index_fetch. destruct (index_entry _ _ _ _ _) as [e|]; [|done]. simpl.
    destruct (check_id _) as [[]|]; [|done]. simpl. repeat (case_match; [done|]).
    destruct (fetch_files _ _ _ _ _) as [tr|]; [|done]. intros [= <- <-].
    eapply (origin_prefix "https://" (t +:+ "#" +:+ x_id e)); [done|by repeat constructor|done|].
    cbn [fs_manifest sm_source index_manifest]. by rewrite Ht, str_app_assoc. }
  split; intros id f tree; [intros Hf Ho|intros Hf|intros d Hf Hp]; destruct (H id f tree Hf) as [s Hs].
  - by rewrite Hs in Ho.
  - unfold origin_is_generated. by rewrite Hs.
  - rewrite Hs. apply starts_with_app.
Qed.

(** ** Staging *)

Section Staging.
Context (sha256 : list Z -> list Z) (b64_decode : string -> result (list Z) string).
Context {Key : Type} (verify : Key -> list Z -> list Z -> bool).

(** The files of a package, their digest, and a signature of it by a key. *)
Definition digest_of (tree : Entries) (d : string) : Prop := content_digest sha256 tree = Some (Ok d).

Definition signed_by (keys : TrustedKeys (Key := Key)) (tree : Entries) (name : string) : Prop :=
  exists d key signature, digest_of tree d /\ bt_get name keys = Some key
    /\ length signature = 64%nat /\ verify key (bytes d) signature = true.

Lemma check_signature_valid digest line keys name :
  check_signature b64_decode verify digest line keys = Valid name ->
  exists key signature, bt_get name keys = Some key /\ length signature = 64%nat
    /\ verify key (bytes digest) signature = true.
Proof.
  unfold check_signature. case_bool_decide; [done|].
  destruct (splitn_char _ _ _) as [|a [|k [|e [|]]]]; try done. case_bool_decide; [|done].
  destruct (bt_get k keys) as [key|] eqn:Hk; [|done]. destruct (b64_decode (trim e)) as [bs|]; [|done].
  case_bool_decide; [|done]. destruct (verify key (bytes digest) bs) eqn:Hv; [|done].
  intros [= <-]. eauto.
Qed.

Lemma gather_spec tree published keys e :
  gather sha256 b64_decode verify tree published keys = Some (Ok e) ->
  exists d, digest_of tree d /\ e_digest e = Some d /\ e_published_digest e = published
    /\ forall name, e_signature e = Some (Valid name) -> signed_by keys tree name.
Proof.
  unfold gather, signed_by, digest_of. destruct (content_digest sha256 tree) as [[d|]|] eqn:E; try done.
  simpl. intros [= <-]. exists d. split_and!; try done. intros name [= H].
  apply check_signature_valid in H as (key & s & ?&?&?). by exists d, key, s.
Qed.

Context (rs : list SkillRegistry) (Hlaws : Forall RegistryLaws rs).

Lemma locate_elem id prefer r : locate rs id prefer = Some r -> r ∈ rs.
Proof.
  unfold locate, preferred. intros [H _]%elem_of_find. destruct prefer; [|done].
  apply elem_of_app in H as [H|H]; by apply list_elem_of_In, filter_In in H as [H%list_elem_of_In _].
Qed.

(** What a successful staging went through. *)
Lemma stage_spec f (m : Manager (Key := Key)) id prefer s :
  stage sha256 b64_decode verify rs f m id prefer = Ok s ->
  exists r fetched tree e,
    r ∈ rs /\ sr_fetch r id = Ok (fetched, tree) /\ check_id id = Ok tt /\ sm_id (st_manifest s) = id
    /\ examine sha256 b64_decode verify m fetched tree = Ok e
    /\ st_evidence s = e /\ st_report s = assess_fetched (fs_manifest fetched) e
    /\ st_manifest s = trusted_as (v_trust (st_report s)) (fs_manifest fetched)
    /\ st_tree s = (if fs_has_files fetched then Some tree else None).
Proof.
  unfold stage. destruct (check_id id) as [[]|] eqn:Hid; [|done]. simpl.
  destruct (locate rs id prefer) as [r|] eqn:Hl; [|done]. destruct (fails _ _); [|done]. simpl.
  destruct (sr_fetch r id) as [[fetched tree]|] eqn:Hf; [|done]. simpl.
  case_bool_decide as Hi; [|done]. simpl. destruct (examine _ _ _ _ _ _) as [e|] eqn:He; [|done].
  simpl. intros [= <-]. exists r, fetched, tree, e. apply locate_elem in Hl. by split_and!.
Qed.

Lemma assessed_trust man e : v_trust (assess_fetched man e) = derived_trust man e.
Proof.
  unfold assess_fetched, validate_with, trust_max. cbn [v_trust sm_trust trusted_as trust_rank].
  change (derived_trust (trusted_as Trusted man) e) with (derived_trust man e).
  by destruct (derived_trust man e).
Qed.

(** What was examined of a package with files. *)
Lemma examine_spec (m : Manager (Key := Key)) fetched tree e :
  examine sha256 b64_decode verify m fetched tree = Ok e ->
  e_published_digest e = fs_published_digest fetched /\
  if fs_has_files fetched then
    exists d, digest_of tree d /\ e_digest e = Some d
      /\ forall name, e_signature e = Some (Valid name) -> signed_by (mg_keys m) tree name
  else e_digest e = None /\ e_signature e = None.
Proof.
  unfold examine. destruct (fs_has_files fetched); [|by intros [= <-]].
  destruct (gather _ _ _ _ _ _) as [r|] eqn:E; [|done]. cbn [finished]. intros ->.
  apply gather_spec in E as (d & ? & ? & ? & ?). eauto 6.
Qed.

Lemma digest_of_sound tree d :
  digest_of tree d -> linked (Folder tree) = false /\ too_large (package_files [] (Folder tree)) = false.
Proof.
  unfold digest_of, content_digest. destruct (skill_files_spec tree) as (r & -> & H).
  destruct r as [fs|]; [|done]. intros _. destruct H as (Hp & _ & Hl & Ht). by rewrite <- Hp.
Qed.

(** C13: Trust is earned by what was checked, never claimed: a skill staged as
    Trusted is one of the binary's own or carries a signature of the digest of
    the very files staged by a key the operator configured; one staged as
    Verified came over TLS with files that hash to the published digest; and
    no staged package holds a link or exceeds the limits. *)
Theorem stage_trust f (m : Manager (Key := Key)) id prefer s :
  stage sha256 b64_decode verify rs f m id prefer = Ok s ->
  (sm_trust (st_manifest s) = Trusted ->
     (exists b, b ∈ map fst builtin_skills /\ st_manifest s = trusted_as Trusted b)
     \/ exists tree name, st_tree s = Some tree /\ signed_by (mg_keys m) tree name)
  /\ (sm_trust (st_manifest s) = TVerified ->
      starts_with (origin (st_manifest s)) "https://" = true
      /\ exists tree d, st_tree s = Some tree /\ digest_of tree d
                        /\ e_published_digest (st_evidence s) = Some d)
  /\ (forall tree, st_tree s = Some tree ->
      linked (Folder tree) = false /\ too_large (package_files [] (Folder tree)) = false).
Proof.
  intros H. apply stage_spec in H as (r & fetched & tree & e & Hr & Hf & _ & _ & He & Es & Er & Em & Et).
  rewrite list.Forall_forall in Hlaws. pose proof (Hlaws r Hr) as L.
  apply examine_spec in He as [Hpub He]. rewrite Em, Et, Es, Er, assessed_trust. cbn [sm_trust trusted_as].
  split_and!.
  - unfold derived_trust. destruct (origin_is_generated _); [done|].
    destruct (starts_with (origin (fs_manifest fetched)) "builtin:") eqn:Eb; cbn [orb].
    { intros _. left. exists (fs_manifest fetched). split; [by eapply fetch_builtin|done]. }
    destruct (signed_by_trusted_key e) eqn:Esig; [|repeat case_match; done]. intros _. right.
    unfold signed_by_trusted_key in Esig. destruct (e_signature e) as [[| name | |]|]; try done.
    destruct (fs_has_files fetched); [|by destruct He]. destruct He as (d & _ & _ & Hv). eauto.
  - unfold derived_trust. destruct (origin_is_generated _); [done|]. destruct (_ || signed_by_trusted_key _); [done|].
    destruct (bool_decide _ && _) eqn:Hd; [|by destruct (origin_is_secure _)]. intros _.
    apply andb_true_iff in Hd as [Hd _]. apply bool_decide_eq_true in Hd. unfold digest_matches in Hd.
    rewrite Hpub in Hd |- *. destruct (e_digest e) as [d|] eqn:Ed; [|done].
    destruct (fs_published_digest fetched) as [p|] eqn:Ep; [|done].
    assert (d = p) as -> by (by destruct (decide (d = p)); [|rewrite bool_decide_eq_false_2 in Hd]).
    split; [by eapply fetch_published|].
    destruct (fs_has_files fetched); [|by destruct He]. destruct He as (d' & ? & ? & _). simplify_eq. eauto.
  - intros tree' E. destruct (fs_has_files fetched); [|done]. simplify_eq.
    destruct He as (d & Hd & _). by eapply digest_of_sound.
Qed.
End Staging.
