(* ===== verification/ManagerFacts.v ===== *)
(** * Skills: what the manager keeps

    The invariant of every sequence of operations, restarts from the lockfile,
    updates that leave what is installed alone, and generated skills. *)

From S2P Require Export TrustFacts.
Open Scope string_scope.
Open Scope Z_scope.

(** ** Directories *)

Lemma entry_cons k v name dir :
  entry name ((k, v) :: dir) = if bool_decide (k = name) then Some v else entry name dir.
Proof. unfold entry. simpl. by case_bool_decide. Qed.

Lemma entry_set k name n dir :
  entry k (set_entry name n dir) = if bool_decide (name = k) then Some n else entry k dir.
Proof.
  induction dir as [|[k' v] dir IH]; cbn [set_entry]; [by rewrite entry_cons|].
  destruct (decide (k' = name)) as [->|N].
  - rewrite (bool_decide_eq_true_2 (name = name)) by done. rewrite !entry_cons. by case_bool_decide.
  - rewrite (bool_decide_eq_false_2 (k' = name)) by done. rewrite !entry_cons, IH.
    repeat case_bool_decide; congruence.
Qed.

Lemma entry_remove k name dir :
  entry k (remove_entry name dir) = if bool_decide (name = k) then None else entry k dir.
Proof.
  unfold remove_entry. induction dir as [|[k' v] dir IH]; cbn [List.filter fst]; [by case_bool_decide|].
  destruct (decide (k' = name)) as [->|N].
  - rewrite (bool_decide_eq_true_2 (name = name)) by done. cbn [negb]. rewrite entry_cons, IH.
    by case_bool_decide.
  - rewrite (bool_decide_eq_false_2 (k' = name)) by done. cbn [negb]. rewrite !entry_cons, IH.
    repeat case_bool_decide; congruence.
Qed.

(** ** Lists sorted by id *)

Definition by_key (a b : InstalledSkill) : Prop := key_cmp (is_id a) (is_id b) = Lt.

Lemma sorted_nodup l : StronglySorted by_key l -> NoDup (map is_id l).
Proof.
  induction 1 as [|s l Hs IH Hall]; simpl; constructor; [|done].
  intros (t & E & Ht)%elem_of_map. rewrite list.Forall_forall in Hall. specialize (Hall t Ht).
  unfold by_key in Hall. by rewrite E, key_cmp_refl in Hall.
Qed.

Lemma at_most_sorted l :
  StronglySorted (fun a b => skill_leb a b = true) l -> NoDup (map is_id l) -> StronglySorted by_key l.
Proof.
  induction 1 as [|s l Hs IH Hall]; simpl; intros Hn; constructor.
  - apply IH. by inversion Hn.
  - rewrite list.Forall_forall in Hall |- *. intros t Ht. specialize (Hall t Ht).
    apply at_most_spec in Hall as [E|?]; [|done]. inversion Hn as [|? ? Hnot _]. destruct Hnot.
    rewrite E. apply elem_of_map. eauto.
Qed.

Lemma record_perm r l :
  record r l ≡ₚ r :: List.filter (fun s => negb (bool_decide (is_id s = is_id r))) l.
Proof. unfold record. rewrite stable_sort_perm. symmetry. apply Permutation_cons_append. Qed.

Lemma record_sorted r l : NoDup (map is_id l) -> StronglySorted by_key (record r l).
Proof.
  intros Hl. apply at_most_sorted.
  - apply (stable_sort_sorted _ (fun _ => True)).
    + intros a b _ _. apply at_most_total.
    + intros a b c _ _ _. apply at_most_trans.
    + by apply list.Forall_forall.
  - rewrite (Permutation_map is_id (record_perm r l)). simpl. constructor.
    + intros (s & E & Hs)%elem_of_map. apply list_elem_of_In, filter_In in Hs as [_ Hs].
      rewrite bool_decide_eq_true_2 in Hs by done. done.
    + by apply nodup_map_filter.
Qed.

Lemma sorted_filter (p : InstalledSkill -> bool) l :
  StronglySorted by_key l -> StronglySorted by_key (List.filter p l).
Proof.
  induction 1 as [|s l Hs IH Hall]; simpl; [constructor|]. case_match; [|done]. constructor; [done|].
  rewrite list.Forall_forall in Hall |- *. intros t [Ht _]%list_elem_of_In%filter_In.
  apply Hall. by apply list_elem_of_In.
Qed.

(** ** The invariant *)

(** A record that may be kept: its id names a directory of its own, and nothing
    untrusted is enabled, what was generated least of all. *)
Record skill_ok (s : InstalledSkill) : Prop := {
  ok_id : check_id (is_id s) = Ok tt;
  ok_enabled : is_enabled s = true -> sm_trust (is_manifest s) <> Untrusted;
  ok_generated : origin_is_generated (is_manifest s) = true -> sm_trust (is_manifest s) = Untrusted;
}.

Definition guide_ok (g : CapabilitySet * SkillGuide) : Prop := sg_trust g.2 <> Untrusted.

Section Invariant.
Context (sha256 : list Z -> list Z) (b64_decode : string -> result (list Z) string).
Context {Key : Type} (verify : Key -> list Z -> list Z -> bool).
Context (to_json : list InstalledSkill -> string)
  (from_json : string -> result (list InstalledSkill) string).
#[local] Abbreviation Mgr := (Manager (Key := Key)).

Record sound (m : Mgr) : Prop := {
  so_sorted : StronglySorted by_key (mg_installed m);
  so_skills : Forall skill_ok (mg_installed m);
  so_guides : Forall guide_ok (mg_guides m);
}.

Lemma guides_ok dir disk l : Forall skill_ok l -> Forall guide_ok (omap (guide_of dir disk) l).
Proof.
  intros H. apply list.Forall_forall. intros g (s & Hs & Hg)%list_elem_of_omap.
  rewrite list.Forall_forall in H. specialize (H s Hs). unfold guide_of in Hg.
  repeat case_match; simplify_eq. unfold guide_ok. simpl. by apply (ok_enabled s H).
Qed.

(** What [save] changes. *)
Lemma save_frame f l (m : Mgr) :
  mg_installed (save to_json f l m).1 = mg_installed m
  /\ mg_guides (save to_json f l m).1 = omap (guide_of (mg_install_dir m) (mg_disk m)) l
  /\ mg_install_dir (save to_json f l m).1 = mg_install_dir m.
Proof. unfold save, write_lock. by repeat (case_match; simpl). Qed.

Lemma save_sound f l (m : Mgr) :
  StronglySorted by_key l -> Forall skill_ok l -> sound (save to_json f l (with_installed l m)).1.
Proof.
  intros Hs Hl. destruct (save_frame f l (with_installed l m)) as (Ei & Eg & _).
  split; rewrite ?Ei, ?Eg; try done. by apply guides_ok.
Qed.

Lemma place_frame f s (m : Mgr) :
  mg_installed (place f s m).1 = mg_installed m /\ mg_guides (place f s m).1 = mg_guides m
  /\ mg_install_dir (place f s m).1 = mg_install_dir m.
Proof. unfold place. by repeat (case_match; simpl). Qed.

Lemma place_sound f s (m : Mgr) : sound m -> sound (place f s m).1.
Proof. intros [? ? ?]. destruct (place_frame f s m) as (Ei & Eg & _). by split; rewrite ?Ei, ?Eg. Qed.

Lemma record_ok r l : skill_ok r -> Forall skill_ok l -> Forall skill_ok (record r l).
Proof.
  intros Hr Hl. rewrite record_perm. constructor; [done|]. rewrite list.Forall_forall in Hl |- *.
  intros s [Hs _]%list_elem_of_In%filter_In. by apply Hl, list_elem_of_In.
Qed.

Lemma commit_sound f now s enabled (m : Mgr) :
  sound m -> skill_ok (record_of now s enabled) -> sound (commit to_json f now s enabled m).1.
Proof.
  intros Hm Hr. unfold commit. case_match; [done|]. pose proof (place_sound f s m Hm) as Hp.
  destruct (place f s m) as [m' [r|e]]; [|done]. simpl in Hp.
  destruct (save _ _ _ _) as [m'' r'] eqn:E. simpl.
  apply (f_equal fst) in E. simpl in E. rewrite <- E. apply save_sound.
  - apply record_sorted, sorted_nodup, (so_sorted m' Hp).
  - apply record_ok; [done|]. apply (so_skills m' Hp).
Qed.

Lemma commit_records f now s enabled (m m' : Mgr) r :
  commit to_json f now s enabled m = (m', Ok r) ->
  r = record_of now s enabled /\ mg_installed m' = record r (mg_installed m).
Proof.
  unfold commit. case_match; [done|]. destruct (place_frame f s m) as (Ei & _ & _).
  destruct (place f s m) as [m1 [u|e]]; [|done]. simpl in Ei. rewrite <- Ei.
  pose proof (save_frame f (record (record_of now s enabled) (mg_installed m1))
    (with_installed (record (record_of now s enabled) (mg_installed m1)) m1)) as (Fi & _ & _).
  destruct (save _ _ _ _) as [m2 [v|e]]; [|done]. intros [= <- <-]. split; [done|exact Fi].
Qed.

(** Every skill [stage] hands over may be recorded, enabled unless untrusted. *)
Lemma staged_ok rs f (m : Mgr) id prefer s now enabled :
  stage sha256 b64_decode verify rs f m id prefer = Ok s ->
  (enabled = true -> sm_trust (st_manifest s) <> Untrusted) -> skill_ok (record_of now s enabled).
Proof.
  intros H He. apply stage_spec in H as (r & fetched & tree & e & _ & _ & Hid & Hsid & _ & _ & Er & Em & _).
  split; unfold is_id; cbn [is_manifest is_enabled record_of].
  - by rewrite Hsid.
  - done.
  - rewrite Em, Er. intros Hg. change (origin_is_generated (fs_manifest fetched) = true) in Hg.
    cbn [sm_trust trusted_as]. rewrite assessed_trust. unfold derived_trust. by rewrite Hg.
Qed.

Lemma install_sound rs f now id (m : Mgr) :
  sound m -> sound (install sha256 b64_decode verify to_json rs f now id m).1.
Proof.
  intros Hm. unfold install. destruct (stage _ _ _ _ _ _ _ _) as [s|] eqn:E; [|done].
  apply commit_sound; [done|]. eapply staged_ok; [done|]. intros H. by destruct_bools.
Qed.

Lemma satisfy_sound rs f now c (m : Mgr) :
  sound m -> sound (satisfy sha256 b64_decode verify to_json rs f now c m).1.
Proof.
  intros Hm. unfold satisfy. case_match; [done|]. destruct (List.find _ _) as [cand|]; [|done].
  destruct (stage _ _ _ _ _ _ _ _) as [s|] eqn:E; [|done]. case_match; [done|].
  destruct (may_auto_install _ _) eqn:Ha; [|done]. cbn [negb].
  assert (sound (commit to_json f now s true m).1) as Hc.
  { apply commit_sound; [done|]. eapply staged_ok; [done|]. intros _ Hu.
    apply stage_spec in E as (r & fetched & tree & e & _ & _ & _ & _ & _ & _ & _ & Em & _).
    rewrite Em in Hu. simpl in Hu. rewrite Hu in Ha. by destruct (sk_auto_install _). }
  by destruct (commit _ _ _ _ _ _) as [m' [r|e]].
Qed.

Lemma remove_sound f id (m : Mgr) : sound m -> sound (remove to_json f id m).1.
Proof.
  intros [Hs Hk Hg]. unfold remove. case_bool_decide; [done|].
  set (kept := List.filter _ _).
  assert (StronglySorted by_key kept) as Hks by by apply sorted_filter.
  assert (Forall skill_ok kept) as Hkk.
  { rewrite list.Forall_forall in Hk |- *. intros s [Hin _]%list_elem_of_In%filter_In.
    by apply Hk, list_elem_of_In. }
  assert (forall r : Mgr * Result unit, mg_installed r.1 = kept -> mg_guides r.1 = mg_guides m ->
    sound (let '(m1, r0) := r in match r0 with
      | Ok _ => let '(m2, saved) := save to_json f kept m1 in (m2, let? _ := saved in Ok true)
      | Err e => (m1, Err e) end).1) as Hrest.
  { intros [m1 [u|e]] Ei Eg; simpl in *; [|by split; rewrite ?Ei, ?Eg].
    destruct (save_frame f kept m1) as (Fi & Fg & _).
    destruct (save to_json f kept m1) as [m2 r2]. simpl in *.
    split; rewrite ?Fi, ?Fg, ?Ei; try done. by apply guides_ok. }
  apply Hrest; unfold remove_package; by repeat (case_match; simpl).
Qed.

Lemma switch_spec id enabled l l' :
  switch id enabled l = Some (Ok l') ->
  exists a s b, l = (a ++ s :: b)%list /\ l' = (a ++ enabled_as enabled s :: b)%list /\ is_id s = id
    /\ (enabled = true -> sm_trust (is_manifest s) <> Untrusted).
Proof.
  revert l'. induction l as [|s l IH]; simpl; intros l'; [done|]. case_bool_decide as E.
  - destruct enabled; simpl; [case_bool_decide as T; [done|]|]; intros [= <-]; exists [], s, l; done.
  - destruct (switch id enabled l) as [[k|]|]; try done. intros [= <-].
    destruct (IH _ eq_refl) as (a & t & b & -> & -> & ?). exists (s :: a), t, b. done.
Qed.

Lemma set_enabled_sound f id enabled (m : Mgr) : sound m -> sound (set_enabled to_json f id enabled m).1.
Proof.
  intros [Hs Hk Hg]. unfold set_enabled. destruct (switch _ _ _) as [[l'|e]|] eqn:E; [|done|done].
  apply switch_spec in E as (a & s & b & El & -> & _ & Ht). rewrite El in Hs, Hk.
  assert (sound (save to_json f (a ++ enabled_as enabled s :: b)%list
            (with_installed (a ++ enabled_as enabled s :: b)%list m)).1) as H.
  { apply save_sound.
    - clear -Hs. induction a as [|x a IH]; simpl in *; apply StronglySorted_inv in Hs as [Hs Hx]; constructor; auto.
      rewrite list.Forall_app, list.Forall_cons in Hx |- *. done.
    - rewrite list.Forall_app, list.Forall_cons in Hk |- *. destruct Hk as (? & [? ? ?] & ?). by split_and!. }
  destruct (save _ _ _ _) as [m' r]. done.
Qed.

Lemma update_one_sound rs f now current (m : Mgr) :
  sound m -> skill_ok current -> sound (update_one sha256 b64_decode verify to_json rs f now current m).1.
Proof.
  intros Hm Hc. unfold update_one. destruct (stage _ _ _ _ _ _ _ _) as [s|] eqn:E; [|done].
  repeat (case_match; [done|]).
  assert (sound (commit to_json f now s (is_enabled current && negb (fell s current)) m).1) as H'.
  { apply commit_sound; [done|]. eapply staged_ok; [done|]. intros He Hu. destruct_bools.
    apply (ok_enabled current Hc); [done|]. unfold fell in *. rewrite Hu in *.
    destruct (sm_trust (is_manifest current)); done. }
  by destruct (commit _ _ _ _ _ _) as [m' [r|e]].
Qed.

Lemma update_all_sound rs f now targets (m : Mgr) :
  sound m -> Forall skill_ok targets ->
  sound (update_all sha256 b64_decode verify to_json rs f now targets m).1.
Proof.
  intros Hm Ht. revert m Hm. induction Ht as [|c targets Hc Ht IH]; intros m Hm; simpl; [done|].
  pose proof (update_one_sound rs (f (is_id c)) now c m Hm Hc) as H.
  destruct (update_one _ _ _ _ _ _ _ _ _) as [m1 o]. specialize (IH m1 H).
  by destruct (update_all _ _ _ _ _ _ _ _ _) as [m2 os].
Qed.

Lemma install_generated_sound f now g (m : Mgr) :
  sound m -> sound (install_generated sha256 b64_decode verify to_json f now g m).1.
Proof.
  intros Hm. unfold install_generated. destruct (check_id _) as [[]|] eqn:Hid; [|done]. cbn [result_bind].
  destruct (fails (ft_stage f) _); [|done]. cbn [result_bind].
  destruct (fails (ft_manifest f) _); [|done]. cbn [result_bind].
  destruct (finished _ _) as [e|]; [|done]. cbn [result_bind]. apply commit_sound; [done|]. split; done.
Qed.

Lemma operate_sound o (m : Mgr) : sound m -> sound (operate sha256 b64_decode verify to_json m o).
Proof.
  intros Hm. destruct o; simpl.
  - by apply install_sound.
  - by apply satisfy_sound.
  - by apply remove_sound.
  - by apply set_enabled_sound.
  - apply update_all_sound; [done|]. destruct Hm as [_ Hk _]. rewrite list.Forall_forall in Hk |- *.
    intros s [Hs _]%list_elem_of_In%filter_In. by apply Hk, list_elem_of_In.
  - by apply install_generated_sound.
Qed.

(** C12: Whatever sequence of installs, automatic installs, updates, removals,
    switches and generated skills runs, whatever registries answer and whatever
    file operations fail: the record stays sorted with one entry per id, each
    id a directory name, nothing untrusted or generated is ever enabled, and no
    guidance an agent is given comes from such a skill. *)
Theorem manager_sound ops (m : Mgr) :
  sound m ->
  let m' := fold_left (operate sha256 b64_decode verify to_json) ops m in
  sound m' /\ forall capabilities g, g ∈ guidance_for capabilities m' -> sg_trust g <> Untrusted.
Proof.
  intros Hm m'. assert (sound m') as H.
  { apply fold_left_inv; [|done]. intros a o Ha. by apply operate_sound. }
  split; [done|]. intros caps g. unfold guidance_for. rewrite elem_of_stable_sort, elem_of_map.
  intros (x & -> & [Hx _]%list_elem_of_In%filter_In). destruct H as [_ _ Hg].
  rewrite list.Forall_forall in Hg. by apply Hg, list_elem_of_In.
Qed.

(** ** Restarting *)

(** A manager started again on the directory holds the same record and gives
    the same guides. *)
Definition reloads (m : Mgr) : Prop :=
  forall d, mg_install_dir m = Some d -> forall m0 : Mgr, exists m1,
    with_install_dir from_json d (mg_disk m) m0 = Ok m1
    /\ mg_installed m1 = mg_installed m /\ mg_guides m1 = mg_guides m.

(** What [serde_json] wrote of a record is UTF-8 and reads back as it. *)
Definition json_law (l : list InstalledSkill) : Prop :=
  from_json (to_json l) = Ok l /\ utf8_valid (to_json l) = true.

Lemma guide_of_lock dir disk l s :
  is_folder LOCKFILE disk = false -> is_folder (LOCKFILE +:+ ".tmp") disk = false ->
  guide_of dir (set_entry LOCKFILE (File (to_json l)) (remove_entry (LOCKFILE +:+ ".tmp") disk)) s
  = guide_of dir disk s.
Proof.
  unfold guide_of, is_folder. intros H1 H2. destruct (is_enabled s); [|done]. destruct dir; [|done].
  rewrite entry_set, entry_remove. case_bool_decide as E1.
  { rewrite <- E1. destruct (entry LOCKFILE disk) as [[]|]; done. }
  case_bool_decide as E2; [|done]. rewrite <- E2. by destruct (entry (LOCKFILE +:+ ".tmp") disk) as [[]|].
Qed.

Lemma omap_ext_all {A B} (f g : A -> option B) (l : list A) : (forall x, f x = g x) -> omap f l = omap g l.
Proof. intros H. induction l as [|x l IH]; csimpl; [done|]. by rewrite H, IH. Qed.

Lemma save_reloads f l (m m' : Mgr) :
  json_law l -> mg_installed m = l -> save to_json f l m = (m', Ok tt) -> reloads m'.
Proof.
  intros [Lj Lu] <-. unfold save. destruct (mg_install_dir (rebuild_guides (mg_installed m) m)) as [d|] eqn:Ed;
    simpl in Ed; [|intros [= <-] d Hd; simpl in Hd; congruence].
  destruct (ft_create f); [done|]. unfold write_lock. destruct (ft_write f); [done|].
  destruct (is_folder (LOCKFILE +:+ ".tmp") _) eqn:Htmp; [done|].
  destruct (is_folder LOCKFILE _) eqn:Hlock; [done|]. intros [= <-] d' Hd' m0. simpl in Hd'.
  unfold with_install_dir, read_text. cbn [mg_disk with_disk rebuild_guides with_guides].
  rewrite entry_set, bool_decide_eq_true_2 by done. rewrite Lu, Lj. cbn [result_bind].
  rewrite Ed in Hd'. injection Hd' as ->. eexists. split; [done|]. split; [done|]. simpl. rewrite Ed.
  apply omap_ext_all. intros s. by apply guide_of_lock.
Qed.

Lemma save_success f l (m m' : Mgr) :
  json_law (mg_installed m') -> save to_json f l (with_installed l m) = (m', Ok tt) -> reloads m'.
Proof.
  intros L E. apply (save_reloads f l (with_installed l m)); [|done|done].
  destruct (save_frame f l (with_installed l m)) as (Fi & _ & _). rewrite E in Fi. simpl in Fi. by rewrite <- Fi.
Qed.

Lemma commit_reloads f now s enabled (m m' : Mgr) r :
  json_law (mg_installed m') -> commit to_json f now s enabled m = (m', Ok r) -> reloads m'.
Proof.
  unfold commit. intros L. case_match; [done|]. destruct (place f s m) as [m1 [u|e]]; [|done].
  destruct (save _ _ _ _) as [m2 [[]|e]] eqn:E; [|done]. intros [= -> _]. by eapply save_success.
Qed.

(** C39: After an installation, a removal or a switch that reports success, the
    directory is up to date: a manager started on it later has the same record
    and gives agents the same guidance. *)
Theorem restart_roundtrip f now (m m' : Mgr) :
  json_law (mg_installed m') ->
  (exists rs id r, install sha256 b64_decode verify to_json rs f now id m = (m', Ok r))
  \/ (exists rs c s, satisfy sha256 b64_decode verify to_json rs f now c m = (m', Installed s))
  \/ (exists g r, install_generated sha256 b64_decode verify to_json f now g m = (m', Ok r))
  \/ (exists id, remove to_json f id m = (m', Ok true))
  \/ (exists id b, set_enabled to_json f id b m = (m', Ok true)) ->
  reloads m'.
Proof.
  intros L [(rs & id & r & H)|[(rs & c & man & H)|[(g & r & H)|[(id & H)|(id & b & H)]]]].
  - unfold install in H. destruct (stage _ _ _ _ _ _ _ _); [|done]. by eapply commit_reloads.
  - unfold satisfy in H. destruct (negb (sk_enabled _)); [done|]. destruct (List.find _ _); [|done].
    destruct (stage _ _ _ _ _ _ _ _) as [st|]; [|done]. destruct (negb (v_permitted _)); [done|].
    destruct (negb (may_auto_install _ _)); [done|].
    destruct (commit _ _ _ _ _ _) as [m1 [r|e]] eqn:E; [|done]. simplify_eq. by eapply commit_reloads.
  - unfold install_generated in H. repeat case_match; simplify_eq; by eapply commit_reloads.
  - unfold remove in H. case_bool_decide; [done|].
    set (kept := List.filter _ _) in H. destruct (remove_package f id (with_installed kept m)) as [m1 [u|e]] eqn:E; [|done].
    destruct (save _ _ _ _) as [m2 [[]|e]] eqn:Es; [|done]. simplify_eq.
    assert (mg_installed m1 = kept) as Ek.
    2: { assert (m1 = with_installed kept m1) as E1 by (rewrite <- Ek; by destruct m1).
         rewrite E1 in Es. by eapply save_success. }
    unfold remove_package in E. by repeat (case_match; simplify_eq/=).
  - unfold set_enabled in H. destruct (switch _ _ _) as [[l|]|]; [|done..].
    destruct (save _ _ _ _) as [m2 [[]|e]] eqn:Es; [|done]. simplify_eq.
    by eapply save_success.
Qed.

(** ** Updates *)

Lemma place_no_faults s (m m' : Mgr) r : place no_faults s m = (m', r) ->
  match r with
  | Err _ => m' = m
  | Ok _ => forall tree, mg_install_dir m <> None -> st_tree s = Some tree ->
              entry (sm_id (st_manifest s)) (mg_disk m') = Some (Folder tree)
  end.
Proof.
  unfold place, clear_target, persist. cbn [ft_clear ft_parent ft_rename no_faults].
  destruct (mg_install_dir m); [|intros [= <- <-]; done].
  destruct (st_tree s) as [tree|]; [|intros [= <- <-]; done].
  destruct (entry _ (mg_disk m)) as [[|es|tg]|]; intros [= <- <-]; [by destruct m|..].
  all: intros tree' _ [= <-]; cbn [mg_disk with_disk]; by rewrite entry_set, bool_decide_eq_true_2.
Qed.

(** A successful save keeps every directory. *)
Lemma save_keeps f l (m m' : Mgr) name tree :
  save to_json f l m = (m', Ok tt) -> entry name (mg_disk m) = Some (Folder tree) ->
  entry name (mg_disk m') = Some (Folder tree).
Proof.
  unfold save, write_lock. cbn [mg_disk mg_install_dir rebuild_guides with_guides].
  destruct (mg_install_dir m); [|intros [= <-]; done]. destruct (ft_create f); [done|].
  destruct (ft_write f); [done|]. destruct (is_folder (LOCKFILE +:+ ".tmp") _) eqn:H1; [done|].
  destruct (is_folder LOCKFILE _) eqn:H2; [done|]. intros [= <-] He. cbn [mg_disk with_disk].
  unfold is_folder in *. rewrite entry_set, entry_remove.
  repeat case_bool_decide; subst; [by rewrite He in H2|by rewrite He in H1|done].
Qed.

(** A failed replacement leaves the record of a version that is gone. *)
Lemma place_lost f s (m : Mgr) tree d es e :
  mg_install_dir m = Some d -> st_tree s = Some tree ->
  entry (sm_id (st_manifest s)) (mg_disk m) = Some (Folder es) ->
  ft_clear f = None -> ft_parent f = None -> ft_rename f = Some e ->
  exists e', place f s m = (with_disk (remove_entry (sm_id (st_manifest s)) (mg_disk m)) m, Err e').
Proof.
  intros Hd Ht He Hc Hp Hr. unfold place, clear_target, persist. rewrite Hd, Ht, He, Hc, Hp, Hr. eauto.
Qed.

(** An update that reports anything but a new version has changed nothing
    when no file operation fails and nothing sits where the lockfile goes; one
    that reports a new version has staged it, recorded it under the id, switched
    off exactly when trust fell, and put its files in the id's directory. *)
Theorem update_keeps rs now current (m m' : Mgr) o :
  update_one sha256 b64_decode verify to_json rs no_faults now current m = (m', o) ->
  match o with
  | Updated from to disabled =>
      exists s r, stage sha256 b64_decode verify rs no_faults m (is_id current) (Some (is_registry current)) = Ok s
        /\ r ∈ mg_installed m' /\ is_id r = is_id current /\ is_manifest r = st_manifest s
        /\ from = is_digest current /\ to = is_digest r
        /\ is_enabled r = is_enabled current && negb (fell s current)
        /\ disabled = is_enabled current && fell s current
        /\ forall tree, mg_install_dir m <> None -> st_tree s = Some tree ->
             entry (is_id current) (mg_disk m') = Some (Folder tree)
  | UpdateRefused _ =>
      m' = m \/ is_folder LOCKFILE (mg_disk m') = true \/ is_folder (LOCKFILE +:+ ".tmp") (mg_disk m') = true
  | _ => m' = m
  end.
Proof.
  unfold update_one. destruct (stage _ _ _ _ _ _ _ _) as [s|] eqn:E; [|by intros [= <- <-]].
  destruct (v_permitted (st_report s)) eqn:Hp; cbn [negb]; [|intros [= <- <-]; by left].
  destruct (same_digest s current); [by intros [= <- <-]|].
  assert (sm_id (st_manifest s) = is_id current) as Hid.
  { by apply stage_spec in E as (r & fetched & tree & e & _ & _ & _ & Hsid & _). }
  unfold commit. rewrite Hp. cbn [negb].
  destruct (place no_faults s m) as [m1 [u|e]] eqn:Epl; apply place_no_faults in Epl.
  2: { subst m1. intros [= <- <-]. by left. }
  set (rec := record_of now s _). set (snap := record rec (mg_installed m1)).
  pose proof (save_frame no_faults snap (with_installed snap m1)) as (Fi & _ & _).
  destruct (save to_json no_faults snap (with_installed snap m1)) as [m2 [[]|e]] eqn:Es;
    simpl in Fi; intros [= <- <-].
  - exists s, rec. split_and!; try done.
    + rewrite Fi. unfold snap. rewrite record_perm. by left.
    + by destruct (fell s current), (is_enabled current).
    + intros tree Hd Ht. rewrite <- Hid. eapply save_keeps; [exact Es|]. exact (Epl tree Hd Ht).
  - right. revert Es. unfold save, write_lock. cbn [ft_create ft_write no_faults].
    destruct (mg_install_dir (rebuild_guides _ _)); [|intros [=]].
    destruct (is_folder (LOCKFILE +:+ ".tmp") _) eqn:H1; [intros [= <- _]; right; exact H1|].
    destruct (is_folder LOCKFILE _) eqn:H2; [|done]. intros [= <- _]. left.
    unfold is_folder in H2 |- *. cbn [mg_disk with_disk] in *. rewrite entry_set, bool_decide_eq_false_2; done.
Qed.

(** When the old files were removed and moving the new ones into place
    fails, the update is reported as refused, although the installed version is
    gone from the directory while its record and its guidance remain. *)
Theorem failed_update_loses rs f now current (m : Mgr) s tree d es e :
  stage sha256 b64_decode verify rs f m (is_id current) (Some (is_registry current)) = Ok s ->
  v_permitted (st_report s) = true -> same_digest s current = false ->
  mg_install_dir m = Some d -> st_tree s = Some tree ->
  entry (is_id current) (mg_disk m) = Some (Folder es) ->
  ft_clear f = None -> ft_parent f = None -> ft_rename f = Some e ->
  exists m' b, update_one sha256 b64_decode verify to_json rs f now current m = (m', UpdateRefused b)
    /\ entry (is_id current) (mg_disk m') = None
    /\ mg_installed m' = mg_installed m /\ mg_guides m' = mg_guides m.
Proof.
  intros E Hp Hs Hd Ht He Hc Hpa Hr. unfold update_one. rewrite E, Hp, Hs. cbn [negb].
  assert (sm_id (st_manifest s) = is_id current) as Hid.
  { by apply stage_spec in E as (r & fetched & tr & ev & _ & _ & _ & Hsid & _). }
  rewrite <- Hid in He. destruct (place_lost f s m tree d es e Hd Ht He Hc Hpa Hr) as [e' Hpl].
  unfold commit. rewrite Hp, Hpl. cbn [negb]. eexists _, _. split; [done|].
  cbn [mg_disk with_disk mg_installed mg_guides]. by rewrite entry_remove, Hid, bool_decide_eq_true_2.
Qed.
End Invariant.

(** ** Generated skills *)

Lemma caps_of_one c : contains (caps_of [c]) c = true.
Proof. apply contains_true, elem_of_caps_of. set_solver. Qed.

Lemma is_kebab_id c : is_kebab c = true -> is_id_char c = true /\ c <> 46 /\ 0 <= c < 128.
Proof.
  unfold is_kebab, is_id_char, is_ascii_alphanumeric, is_ascii_digit, is_ascii_upper, is_ascii_lower.
  intros H. split; [|rewrite !orb_true_iff, !andb_true_iff in H; lia].
  rewrite !orb_true_iff, !andb_true_iff in *. lia.
Qed.

Lemma no_dot_contains s pat : 46 ∉ bytes s -> starts_with pat "." = true -> str_contains s pat = false.
Proof.
  intros Hs Hp. apply not_true_is_false. intros (a & b & ->)%str_contains_spec.
  apply starts_with_spec in Hp as [t ->]. rewrite !bytes_app in Hs. change (bytes ".") with [46] in Hs. set_solver.
Qed.

Lemma parse_generated_ok date reply c m :
  parse_generated date reply c = Ok m ->
  check_id (sm_id m) = Ok tt /\ sm_capabilities m = caps_of [c] /\ sm_trust m = Untrusted.
Proof.
  unfold parse_generated. destruct (d_id _) as [id|]; [|done]. destruct (d_name _) as [name|]; [|done].
  destruct (_ || _) eqn:H; [done|]. destruct_bools. intros [= <-]. split_and!; [|done|done].
  cbn [sm_id].
  assert (Forall (fun ch => is_id_char ch = true /\ ch <> 46 /\ 0 <= ch < 128) (chars id)) as Hall.
  { apply list.Forall_forall. intros ch Hch. apply is_kebab_id.
    match goal with H : forallb is_kebab _ = true |- _ => rewrite forallb_forall in H; apply H end.
    by apply list_elem_of_In. }
  assert (bytes id = chars id) as Hb by (apply ascii_bytes; eapply list.Forall_impl; [done|naive_solver]).
  assert (46 ∉ bytes id) as Hdot.
  { rewrite Hb. intros Hin. rewrite list.Forall_forall in Hall. by destruct (Hall _ Hin) as (_&?&_). }
  unfold check_id. rewrite (no_dot_contains id "..") by done.
  assert (starts_with id "." = false) as ->.
  { apply not_true_is_false. intros [t ->]%starts_with_spec. rewrite bytes_app in Hdot.
    change (bytes ".") with [46] in Hdot. set_solver. }
  assert (forallb is_id_char (chars id) = true) as ->.
  { apply forallb_forall. intros ch Hch. rewrite list.Forall_forall in Hall.
    apply list_elem_of_In in Hch. by destruct (Hall _ Hch). }
  rewrite bool_decide_eq_false_2 by done. by rewrite (proj2 (Z.leb_le _ _)) by lia.
Qed.

Lemma switch_refused r l :
  r ∈ l -> NoDup (map is_id l) -> sm_trust (is_manifest r) = Untrusted ->
  exists e, switch (is_id r) true l = Some (Err e).
Proof.
  intros Hr Hn Ht. induction l as [|s l IH]; [by apply elem_of_nil in Hr|]. simpl in Hn |- *.
  apply list.NoDup_cons in Hn as [Hs Hn]. apply elem_of_cons in Hr as [<-|Hr].
  - rewrite !bool_decide_eq_true_2 by done. simpl. eauto.
  - rewrite bool_decide_eq_false_2.
    + destruct (IH Hr Hn) as [e ->]. simpl. eauto.
    + intros E. apply Hs. apply elem_of_map. eauto.
Qed.

(** A skill a model writes comes into being only when creation is allowed,
    provides the capability asked for, has an id that names one directory, asks
    only for harmless permissions, and is untrusted and marked as generated;
    installing it never enables it, and switching it on is refused. *)
Theorem created_stays_off (sha256 : list Z -> list Z) (b64_decode : string -> result (list Z) string)
    (Key : Type) (verify : Key -> list Z -> list Z -> bool) (to_json : list InstalledSkill -> string)
    date now factory c g f at_ (m m' : Manager (Key := Key)) r :
  create date now factory c = Ok (Ok g) ->
  (sf_allowed factory = true /\ c ∈ sm_capabilities (gs_manifest g) /\ check_id (sm_id (gs_manifest g)) = Ok tt
   /\ sm_trust (gs_manifest g) = Untrusted /\ origin_is_generated (gs_manifest g) = true
   /\ forall p, p ∈ sm_permissions (gs_manifest g) -> harmless p)
  /\ (install_generated sha256 b64_decode verify to_json f at_ g m = (m', Ok r) ->
      NoDup (map is_id (mg_installed m)) ->
      is_enabled r = false /\ sm_trust (is_manifest r) = Untrusted /\ r ∈ mg_installed m'
      /\ exists e, (set_enabled to_json f (is_id r) true m').2 = Err e).
Proof.
  intros H. split.
  - unfold create in H. destruct (sf_allowed factory); [|done]. cbn [negb] in H.
    destruct (sf_provider factory) as [p|]; [|done]. destruct (lp_complete p _ _) as [reply|]; [|done].
    cbn [result_bind] in H. destruct (parse_generated date reply c) as [m0|] eqn:Ep; [|done].
    apply parse_generated_ok in Ep as (Hid & Hc & _).
    set (gm := from_source _ _) in H. cbv zeta in H.
    destruct (contains (sm_capabilities gm) c) eqn:Hcap; [|done]. cbn [negb] in H.
    destruct (v_permitted (validate gm)) eqn:Hperm; [|done]. injection H as <-. cbn [gs_manifest].
    split_and!; try done.
    + by apply contains_true.
    + unfold gm. destruct (origin_prefix "generated:" (lp_name p)
        (from_source ("generated:" +:+ lp_name p) (trusted_as Untrusted m0))) as [s' Ho];
        [done|by repeat constructor|done|done|].
      unfold origin_is_generated. rewrite Ho. apply starts_with_app.
    + intros q Hq. cbn [v_permitted validate validate_with] in Hperm.
      apply bool_decide_eq_true, blockers_nil in Hperm. by apply (acc_permissions gm _ Hperm).
  - unfold install_generated. destruct (check_id _) as [[]|]; [|done]. cbn [result_bind].
    destruct (fails (ft_stage f) _); [|done]. cbn [result_bind].
    destruct (fails (ft_manifest f) _); [|done]. cbn [result_bind].
    destruct (finished _ _) as [ev|]; [|done]. cbn [result_bind]. intros Hc Hn.
    apply commit_records in Hc as [Er Fi].
    assert (r ∈ mg_installed m') as Hin by (rewrite Fi, record_perm; by left).
    assert (sm_trust (is_manifest r) = Untrusted) as Ht by (by rewrite Er).
    split_and!; [by rewrite Er|done|done|]. unfold set_enabled.
    destruct (switch_refused r (mg_installed m') Hin) as [e ->]; [|done|eauto].
    rewrite Fi. by apply sorted_nodup, record_sorted.
Qed.
