(* ===== verification/SkillDemo.v ===== *)
(** * Skills on concrete inputs

    A repository with one skill, toy hashes and signatures, and the theorems of
    the skill files applied to them. *)

From S2P Require Export ManagerFacts.
Open Scope string_scope.
Open Scope Z_scope.

(** ** Arguments made concrete *)

Definition demo_sha (l : list Z) : list Z :=
  [Z.of_nat (length l) mod 256; fold_left (fun a b => (3 * a + b) mod 256) l 0].

Lemma demo_sha_bytes l : Forall is_byte (demo_sha l).
Proof.
  unfold is_byte. constructor; [by apply Z.mod_pos_bound|]. constructor; [|constructor].
  destruct l as [|x l] using rev_ind; [vm_compute; split; [discriminate|reflexivity]|].
  rewrite fold_left_app. simpl. by apply Z.mod_pos_bound.
Qed.

(** Hexadecimal in the place of base64; a signature is the message's hash,
    padded, tied to the key. *)
Definition hex_value (a : ascii) : option Z :=
  let c := byte_of a in
  if (48 <=? c) && (c <=? 57) then Some (c - 48) else if (97 <=? c) && (c <=? 102) then Some (c - 87) else None.

Fixpoint demo_decode (s : string) : result (list Z) string :=
  match s with
  | EmptyString => Ok []
  | String a (String b s') =>
      match hex_value a, hex_value b, demo_decode s' with
      | Some x, Some y, Ok l => Ok ((16 * x + y) :: l)
      | _, _, _ => Err "not hexadecimal"
      end
  | _ => Err "odd length"
  end.

Definition demo_sign (key : Z) (m : list Z) : list Z :=
  (key mod 256 :: fold_left (fun a b => (3 * a + b) mod 256) m 0 :: repeat 0 62)%list.
Definition demo_verify (key : Z) (m s : list Z) : bool := bool_decide (s = demo_sign key m).

Lemma hex_value_digit d : 0 <= d < 16 -> hex_value (hex_digit d) = Some d.
Proof.
  intros H. assert (d ∈ seqZ 0 16) as Hd by (apply elem_of_seqZ; lia).
  repeat (apply elem_of_cons in Hd as [->|Hd]; [reflexivity|]). by apply elem_of_nil in Hd.
Qed.

Lemma demo_decode_hex l : Forall is_byte l -> demo_decode (to_hex l) = Ok l.
Proof.
  unfold is_byte. induction 1 as [|x l Hx H IH]; [done|].
  change (to_hex (x :: l)) with (String (hex_digit (x / 16)) (String (hex_digit (x mod 16)) (to_hex l))).
  cbn [demo_decode]. rewrite IH. rewrite !hex_value_digit.
  - f_equal. f_equal. symmetry. apply Z.div_mod. lia.
  - apply Z.mod_pos_bound. lia.
  - split; [apply Z.div_pos|apply Z.div_lt_upper_bound]; lia.
Qed.

Lemma to_hex_visible l : Forall is_byte l -> visible (to_hex l).
Proof.
  unfold is_byte, visible. induction 1 as [|x l Hx H IH]; simpl; [constructor|].
  assert (forall d, 0 <= d < 16 -> byte_of (hex_digit d) < 128 /\ is_whitespace (byte_of (hex_digit d)) = false) as Hd.
  { intros d Hr. assert (d ∈ seqZ 0 16) as Hin by (apply elem_of_seqZ; lia).
    repeat (apply elem_of_cons in Hin as [->|Hin]; [done|]). by apply elem_of_nil in Hin. }
  constructor; [|constructor; [|done]]; apply Hd.
  - split; [apply Z.div_pos|apply Z.div_lt_upper_bound]; lia.
  - apply Z.mod_pos_bound. lia.
Qed.

Lemma demo_signing : signing_laws demo_decode to_hex demo_sign.
Proof.
  split; [apply demo_decode_hex|apply to_hex_visible|by intros []|]. intros k m. split; [done|].
  unfold demo_sign, is_byte. constructor; [by apply Z.mod_pos_bound|]. constructor.
  - destruct m as [|x m] using rev_ind; [done|]. rewrite fold_left_app. simpl. by apply Z.mod_pos_bound.
  - apply list.Forall_forall. intros x Hx. apply list_elem_of_In, repeat_spec in Hx. lia.
Qed.

(** ** A repository *)

Definition demo_raw : RawManifest :=
  {| rw_id := "lint"; rw_name := "Lint"; rw_description := "Lints Rust"; rw_version := "1.0.0";
     rw_capabilities := ["debugging"]; rw_permissions := ["shell:run:cargo"];
     rw_checksum := None; rw_signature := None |}.

Definition demo_toml (text : string) : result RawManifest string :=
  if str_contains text "lint" then Ok demo_raw else Err "missing field `id`".

Definition demo_git : GitSkillRegistry :=
  {| g_label := "git+https://example.com/skills"; g_url := "https://example.com/skills";
     g_checkout := "cache/https___example_com_skills" |}.

Definition demo_package (text : string) : Entries :=
  [("SKILL.md", File text); ("skill.toml", File "id = lint"); (".git", Folder [("HEAD", File "ref")])].

Definition demo_repository (text : string) : SkillRegistry :=
  git_registry demo_toml demo_git (Ok [("README.md", File "Skills"); ("lint", Folder (demo_package text))]).

Example demo_git_new : git_new "git+https://example.com/skills" "cache" = Ok demo_git.
Proof. vm_compute. reflexivity. Qed.

Definition demo_config : SkillsConfig :=
  {| sk_enabled := true; sk_auto_install := Verified; sk_registries := []; sk_install_dir := None;
     sk_allow_creation := true; sk_trusted_keys := [] |}.

Definition demo_json (l : list InstalledSkill) : string := str_join "," (map is_id l).

(** A manager on an empty directory, then with the skill of the repository. *)
Definition demo_manager : Manager (Key := Z) :=
  {| mg_config := demo_config; mg_keys := []; mg_install_dir := Some "skills"; mg_installed := [];
     mg_guides := []; mg_disk := [] |}.

Definition demo_install (text : string) (m : Manager (Key := Z)) : Manager * Result InstalledSkill :=
  install demo_sha demo_decode demo_verify demo_json [demo_repository text] no_faults "t0" "lint" m.

Definition demo_installed : Manager := (demo_install "Lint often." demo_manager).1.

Example demo_guides : map (fun g => (sg_id g.2, sg_instructions g.2)) (mg_guides demo_installed) = [("lint", "Lint often.")].
Proof. vm_compute. reflexivity. Qed.

Definition demo_skill : InstalledSkill :=
  {| is_manifest :=
       {| sm_id := "lint"; sm_name := "Lint"; sm_description := "Lints Rust"; sm_version := "1.0.0";
          sm_source := "git+https://example.com/skills#lint"; sm_capabilities := [Debugging];
          sm_permissions := ["shell:run:cargo"]; sm_checksum := None; sm_signature := None;
          sm_trust := Community |};
     is_digest := Some "sha256:384b"; is_signed_by := None;
     is_registry := "git+https://example.com/skills"; is_enabled := true; is_installed_at := "t0" |}.

Example demo_record : mg_installed demo_installed = [demo_skill].
Proof. vm_compute. reflexivity. Qed.

(** ** The theorems applied *)

Lemma check_id_component_witness : components "rust-debug" = [Normal "rust-debug"] /\ (10 <= 64)%nat.
Proof. apply (check_id_component "rust-debug"). vm_compute. reflexivity. Defined.

(** The same files listed in another order. *)
Definition demo_reordered : Entries :=
  [("skill.toml", File "id = lint"); ("SKILL.md", File "Lint often.")].

Lemma demo_plain text : Forall (fun f => Forall plain_name f.1) (package_files [] (Folder (demo_package text))).
Proof. repeat constructor; vm_compute; (reflexivity || discriminate || set_solver). Qed.

Lemma digest_binds_witness :
  package_files [] (Folder (demo_package "Lint often.")) ≡ₚ package_files [] (Folder demo_reordered)
  \/ collision demo_sha.
Proof.
  apply (digest_binds demo_sha (demo_package "Lint often.") demo_reordered "sha256:384b").
  - apply demo_sha_bytes.
  - apply demo_plain.
  - repeat constructor; vm_compute; (reflexivity || discriminate || set_solver).
  - vm_compute. reflexivity.
  - vm_compute. reflexivity.
Defined.

Lemma signature_roundtrip_witness :
  check_signature demo_decode demo_verify "sha256:384b" (sign to_hex demo_sign "sha256:384b" "acme" 7) [("acme", 7)]
  = Valid "acme".
Proof.
  apply (signature_roundtrip demo_decode to_hex demo_verify demo_sign (fun k => k) "sha256:384b" "acme" 7
           [("acme", 7)]).
  - apply demo_signing.
  - split; [repeat constructor|vm_compute; set_solver].
  - intros k m. unfold demo_verify. by apply bool_decide_eq_true_2.
  - vm_compute. reflexivity.
Defined.

Definition demo_generated : SkillManifest :=
  {| sm_id := "lint"; sm_name := "Lint"; sm_description := ""; sm_version := "";
     sm_source := " Generated:model"; sm_capabilities := []; sm_permissions := []; sm_checksum := None;
     sm_signature := None; sm_trust := Trusted |}.

Lemma validate_exact_witness : v_trust (validate demo_generated) = Untrusted.
Proof. apply (validate_exact demo_generated evidence_default). vm_compute. reflexivity. Defined.

(** A signed package, staged with its key configured. *)
Definition demo_signed : Entries :=
  (demo_package "Lint often." ++ [("skill.sig", File (sign to_hex demo_sign "sha256:384b" "acme" 7))])%list.

Definition demo_trusting : Manager (Key := Z) := with_trusted_keys [("acme", 7)] demo_manager.

Definition demo_sources : list SkillRegistry :=
  [local_registry demo_toml builtin_skills None;
   git_registry demo_toml demo_git (Ok [("lint", Folder demo_signed)])].

Definition demo_stage (id : SkillId) : Result Staged :=
  stage demo_sha demo_decode demo_verify demo_sources no_faults demo_trusting id None.

Lemma demo_laws : Forall RegistryLaws demo_sources.
Proof. constructor; [by apply local_registry_laws|]. constructor; [apply git_registry_laws|constructor]. Qed.

Lemma stage_trust_witness :
  match demo_stage "lint" with
  | Ok s => (exists b, b ∈ map fst builtin_skills /\ st_manifest s = trusted_as Trusted b)
            \/ exists tree name, st_tree s = Some tree /\ signed_by demo_sha demo_verify [("acme", 7)] tree name
  | Err _ => False
  end.
Proof.
  destruct (demo_stage "lint") as [s|] eqn:E; [|vm_compute in E; discriminate].
  apply (stage_trust demo_sha demo_decode demo_verify demo_sources demo_laws no_faults demo_trusting "lint" None s E).
  revert E. vm_compute. intros [= <-]. reflexivity.
Defined.

Lemma sound_demo : sound demo_manager.
Proof. repeat constructor. Qed.

(** Installing, enabling, a fault while updating, removing. *)
Definition demo_faulty : Faults :=
  {| ft_stage := None; ft_manifest := None; ft_clear := None; ft_parent := None;
     ft_rename := Some "no space left"; ft_create := None; ft_write := None |}.

Definition demo_operations : list Operation :=
  [OInstall [demo_repository "Lint often."] no_faults "t0" "lint";
   OSetEnabled no_faults "lint" true;
   OUpdate [demo_repository "Lint always."] (fun _ => demo_faulty) "t1" None].

Lemma manager_sound_witness :
  sound (fold_left (operate demo_sha demo_decode demo_verify demo_json) demo_operations demo_manager).
Proof.
  apply (manager_sound demo_sha demo_decode demo_verify demo_json demo_operations demo_manager). apply sound_demo.
Defined.

Definition demo_parse (_ : string) : result (list InstalledSkill) string := Ok [demo_skill].

Lemma restart_roundtrip_witness : reloads demo_parse demo_installed.
Proof.
  apply (restart_roundtrip demo_sha demo_decode demo_verify demo_json demo_parse no_faults "t0"
           demo_manager demo_installed).
  - vm_compute. split; reflexivity.
  - left. exists [demo_repository "Lint often."], "lint", demo_skill. vm_compute. reflexivity.
Defined.

Definition demo_update (f : Faults) : Manager * UpdateOutcome :=
  update_one demo_sha demo_decode demo_verify demo_json [demo_repository "Lint always."] f "t1" demo_skill
    demo_installed.

Example demo_updated : (demo_update no_faults).2 = Updated (Some "sha256:384b") (Some "sha256:39c1") false.
Proof. vm_compute. reflexivity. Qed.

Lemma update_keeps_witness :
  exists r, r ∈ mg_installed (demo_update no_faults).1 /\ is_id r = "lint" /\ is_enabled r = true.
Proof.
  destruct (update_keeps demo_sha demo_decode demo_verify demo_json [demo_repository "Lint always."] "t1"
    demo_skill demo_installed (demo_update no_faults).1 (Updated (Some "sha256:384b") (Some "sha256:39c1") false))
    as (s & r & _ & H1 & H2 & _ & _ & _ & H3 & H4 & _).
  - vm_compute. reflexivity.
  - exists r. split; [exact H1|]. split; [exact H2|]. rewrite H3. revert H4. simpl. by intros <-.
Defined.

Lemma failed_update_loses_witness :
  exists m' b, demo_update demo_faulty = (m', UpdateRefused b)
    /\ entry "lint" (mg_disk m') = None
    /\ mg_installed m' = mg_installed demo_installed /\ mg_guides m' = mg_guides demo_installed.
Proof.
  destruct (stage demo_sha demo_decode demo_verify [demo_repository "Lint always."] demo_faulty
              demo_installed "lint" (Some (is_registry demo_skill))) as [s|] eqn:E; [|vm_compute in E; discriminate].
  assert (v_permitted (st_report s) = true /\ same_digest s demo_skill = false /\ is_Some (st_tree s)) as (H1 & H2 & tree & H3).
  { revert E. vm_compute. intros [= <-]. split_and!; eauto. }
  apply (failed_update_loses demo_sha demo_decode demo_verify demo_json [demo_repository "Lint always."]
           demo_faulty "t1" demo_skill demo_installed s tree "skills"
           [("SKILL.md", File "Lint often."); ("skill.toml", File "id = lint")] "no space left");
    try done; vm_compute; reflexivity.
Defined.

(** A model writes a skill. *)
Definition demo_provider : LlmProvider :=
  {| lp_name := "model"; lp_complete := fun _ _ =>
       Ok (str_join NL ["id: fmt"; "- name: Formatter"; "description: Formats"; "permissions: shell:run:fmt, none"]) |}.

Definition demo_created : GeneratedSkill :=
  match create "20250101" 0 (factory_new demo_provider true) Debugging with
  | Ok (Ok g) => g
  | _ => {| gs_manifest := demo_generated; gs_capability := Testing; gs_generated_by := ""; gs_generated_at := 0 |}
  end.

Lemma created_stays_off_witness :
  sf_allowed (factory_new demo_provider true) = true /\ Debugging ∈ sm_capabilities (gs_manifest demo_created).
Proof.
  destruct (created_stays_off demo_sha demo_decode Z demo_verify demo_json "20250101" 0
              (factory_new demo_provider true) Debugging demo_created no_faults "t0" demo_manager
              demo_manager demo_skill) as [(H1 & H2 & _) _].
  - vm_compute. reflexivity.
  - done.
Defined.

(** ** Corners *)

(** A removal that cannot delete the directory forgets the record, while its
    guide goes on being given. *)
Example remove_fault_keeps_guide :
  let f := {| ft_stage := None; ft_manifest := None; ft_clear := Some ("busy", Some (Folder [])); ft_parent := None;
              ft_rename := None; ft_create := None; ft_write := None |} in
  let '(m, r) := remove demo_json f "lint" demo_installed in
  is_ok r = false /\ mg_installed m = [] /\ length (guidance_for [Debugging] m) = 1%nat.
Proof. vm_compute. done. Qed.

(** An installation whose lockfile cannot be written reports an error, while
    the skill is enabled and guides agents until the process ends. *)
Example save_fault_keeps_skill :
  let f := {| ft_stage := None; ft_manifest := None; ft_clear := None; ft_parent := None;
              ft_rename := None; ft_create := None; ft_write := Some "read-only" |} in
  let '(m, r) := install demo_sha demo_decode demo_verify demo_json [demo_repository "Lint often."] f "t0" "lint" demo_manager in
  is_ok r = false /\ length (mg_installed m) = 1%nat /\ length (guidance_for [Debugging] m) = 1%nat.
Proof. vm_compute. done. Qed.

(** The lockfile's own name is an accepted id. *)
Example lockfile_is_an_id : check_id LOCKFILE = Ok tt.
Proof. vm_compute. reflexivity. Qed.

(** Two repositories share a checkout. *)
Example git_slug_collision : git_slug "https://example.com/a-b" = git_slug "https://example.com/a_b".
Proof. vm_compute. reflexivity. Qed.

(** Files below a [.git] directory are fetched but not part of the digest. *)
Example git_directory_not_digested :
  is_contained ".git/config" = true
  /\ content_digest demo_sha (demo_package "Lint often.") = content_digest demo_sha demo_reordered.
Proof. vm_compute. done. Qed.

(** A manifest at the top of the local directory hides the packages below. *)
Example root_manifest_hides :
  map (fun p => sm_id p.1)
    (read_directory demo_toml (Some ("skills", Some [("skill.toml", File "id = lint"); ("fmt", Folder demo_reordered)])))
  = ["lint"].
Proof. vm_compute. reflexivity. Qed.
