(* ===== verification/Host.v ===== *)
(** * The machine the harness runs on

    What the workspace crate asks the operating system, as functions, and the
    operations of [std::path] beyond comparison.  A path is its text. *)

From S2P Require Export Path.
Open Scope string_scope.
Open Scope Z_scope.

(** ** Paths *)

(** [Path::is_absolute], [Path::join]. *)
Definition is_absolute (p : PathBuf) : bool := starts_with p "/".

Definition join_path (base rel : PathBuf) : PathBuf :=
  if is_absolute rel then rel
  else if bool_decide (base = "") || ends_with base "/" then base +:+ rel
  else base +:+ "/" +:+ rel.

(** A path from its components. *)
Definition component_text (c : Component) : string :=
  match c with RootDir => "/" | CurDir => "." | ParentDir => ".." | Normal name => name end.

Definition of_components (cs : list Component) : PathBuf :=
  match cs with
  | RootDir :: cs' => "/" +:+ str_join "/" (map component_text cs')
  | _ => str_join "/" (map component_text cs)
  end.

(** [Path::parent], in normal form: the root and the empty path have none. *)
Definition parent (p : PathBuf) : option PathBuf :=
  match rev (components p) with
  | [] => None
  | [RootDir] => None
  | _ :: cs => Some (of_components (rev cs))
  end.

(** [Path::with_extension]. *)
Fixpoint stem_of (l : list Z) : list Z :=
  match l with
  | [] => []
  | c :: l' => if c =? 46 then l' else stem_of l'
  end.

Definition with_extension (path : PathBuf) (extension : string) : PathBuf :=
  match file_name path with
  | None => path
  | Some name =>
      let rest := stem_of (rev (bytes name)) in
      let stem := if bool_decide (rest = []) then name else bytes_of_list (rev rest) in
      let name' := if bool_decide (extension = "") then stem else stem +:+ "." +:+ extension in
      match parent path with Some up => join_path up name' | None => name' end
  end.

(** [Path::strip_prefix], as components. *)
Fixpoint strip_components (base p : list Component) : option (list Component) :=
  match base, p with
  | [], _ => Some p
  | a :: base', b :: p' => if bool_decide (a = b) then strip_components base' p' else None
  | _, [] => None
  end.

(** [str::to_ascii_uppercase], [str::replace] of a character by a string. *)
Definition ascii_upper (a : ascii) : ascii :=
  if is_ascii_lower (byte_of a) then of_byte (byte_of a - 32) else a.

Fixpoint to_ascii_uppercase (s : string) : string :=
  match s with EmptyString => EmptyString | String a s' => String (ascii_upper a) (to_ascii_uppercase s') end.

Fixpoint replace_with (a : ascii) (by_ : string) (s : string) : string :=
  match s with
  | EmptyString => EmptyString
  | String c s' => (if bool_decide (c = a) then by_ else String c EmptyString) +:+ replace_with a by_ s'
  end.

(** An entry of a directory: a plain name that is not [.] or [..]. *)
Definition entry_name (n : string) : Prop := plain_name n /\ n <> "." /\ n <> "..".

(** ** The file system and the process *)

Record Host := {
  h_exists : PathBuf -> bool;
  h_is_dir : PathBuf -> bool;
  h_is_file : PathBuf -> bool;
  h_is_symlink : PathBuf -> bool;
  h_special : PathBuf -> bool;
  h_canonicalize : PathBuf -> option PathBuf;
  h_read : PathBuf -> option string;
  h_entries : PathBuf -> option (list string);
  h_home : option PathBuf;
  h_current_exe : option PathBuf;
  h_current_dir : option PathBuf;
  h_which : string -> bool;
  h_env : list string;
}.

(** Resolved when it can be. *)
Definition canonical (h : Host) (p : PathBuf) : PathBuf :=
  match h_canonicalize h p with Some q => q | None => p end.

(** [cuma_config::expand_home]. *)
Definition expand_home (h : Host) (path : string) : PathBuf :=
  match Text.strip_prefix path "~", h_home h with
  | Some rest, Some home =>
      if bool_decide (rest = "") then home
      else if starts_with rest "/" then join_path home (trim_start_matches (fun c => c =? 47) rest)
      else path
  | _, _ => path
  end.

(** ** Lemmas *)

Lemma ascii_upper_upper a : is_ascii_lower (byte_of (ascii_upper a)) = false.
Proof.
  unfold ascii_upper. destruct (is_ascii_lower (byte_of a)) eqn:E; [|done].
  unfold is_ascii_lower in *. destruct_bools. pose proof (byte_of_range a). rewrite byte_of_of_byte by lia. lia.
Qed.

Lemma strip_components_spec base p r : strip_components base p = Some r <-> p = (base ++ r)%list.
Proof.
  revert p. induction base as [|a base IH]; intros p; simpl; [naive_solver|].
  destruct p as [|b p]; [done|]. case_bool_decide as E; [subst|split; [done|congruence]].
  rewrite IH. naive_solver.
Qed.

(** [Iterator::find]: the first that passes, and nothing before it does. *)
Lemma find_first {A} (f : A -> bool) l x : find f l = Some x ->
  f x = true /\ exists a b, l = (a ++ x :: b)%list /\ Forall (fun y => f y = false) a.
Proof.
  induction l as [|y l IH]; simpl; [done|]. destruct (f y) eqn:E.
  - intros [= ->]. split; [done|]. by exists [], l.
  - intros H. destruct (IH H) as (Hx&a&b&->&Ha). split; [done|]. exists (y :: a), b. split; [done|]. by constructor.
Qed.

(** ** Joined names *)

Lemma entry_split n : entry_name n -> split_char SLASH n = [n].
Proof. intros ((_&_&H&_)&_). by apply split_char_plain. Qed.

Lemma entry_component n : entry_name n -> piece_component n = [Normal n].
Proof.
  intros ((_&H&_)&H1&H2). unfold piece_component. by rewrite !bool_decide_eq_false_2.
Qed.

Lemma entry_relative n : entry_name n -> is_absolute n = false.
Proof.
  intros ((_&_&H&_)&_). destruct n as [|a n]; [done|]. unfold is_absolute. simpl.
  rewrite bool_decide_eq_false_2; [done|]. intros <-. apply H. simpl. set_solver.
Qed.

(** How a path starts is settled by its first piece. *)
Lemma components_start a s rest : a <> "" ->
  (if starts_with (a +:+ s) "/" then [RootDir]
   else match (split_char SLASH a ++ rest)%list with
        | p :: _ => if bool_decide (p = ".") then [CurDir] else []
        | [] => []
        end)
  = (if starts_with a "/" then [RootDir]
     else match split_char SLASH a with
          | p :: _ => if bool_decide (p = ".") then [CurDir] else []
          | [] => []
          end).
Proof.
  intros Ha. pose proof (split_char_nonempty SLASH a). destruct a as [|x a]; [done|].
  destruct (split_char SLASH (String x a)); [done|]. done.
Qed.

Lemma components_join home n : entry_name n ->
  components (join_path home n) = (components home ++ [Normal n])%list.
Proof.
  intros Hn. unfold join_path. rewrite entry_relative by done.
  assert (components n = [Normal n]) as En.
  { unfold components. rewrite (entry_split n) by done. pose proof (entry_relative n Hn) as Ha.
    unfold is_absolute in Ha. rewrite Ha. simpl. rewrite (entry_component n) by done.
    rewrite bool_decide_eq_false_2; [done|]. by destruct Hn as (_&?&_). }
  assert (forall a, a <> "" -> components (a +:+ String SLASH n) = (components a ++ [Normal n])%list) as Hcat.
  { intros a Ha. unfold components. rewrite split_char_cat, (entry_split n) by done.
    rewrite map_app, concat_app. simpl. rewrite (entry_component n) by done. rewrite <- (assoc_L (++)%list).
    f_equal. by apply components_start. }
  destruct (decide (home = "")) as [->|Hne]; [done|].
  rewrite bool_decide_eq_false_2 by done. simpl. destruct (ends_with home "/") eqn:E.
  - apply ends_with_spec in E as [b ->]. rewrite str_app_assoc. change ("/" +:+ n) with (String SLASH n).
    destruct (decide (b = "")) as [->|Hb].
    + simpl. change (String "/" n) with (EmptyString +:+ String SLASH n). unfold components.
      rewrite split_char_cat, (entry_split n) by done. simpl. by rewrite entry_component.
    + rewrite Hcat by done. f_equal. change "/" with (String SLASH EmptyString).
      unfold components. rewrite split_char_cat, map_app, concat_app. simpl. rewrite app_nil_r.
      symmetry. f_equal. by apply components_start.
  - by apply Hcat.
Qed.

(** ** Paths from their components *)

(** What [components] gives after its start: names and [..]. *)
Definition plain_component (c : Component) : Prop :=
  match c with
  | ParentDir => True
  | Normal n => (47 ∉ bytes n) /\ n <> "" /\ n <> "." /\ n <> ".."
  | _ => False
  end.

Definition well_formed (cs : list Component) : Prop :=
  exists start rest, cs = (start ++ rest)%list /\ Forall plain_component rest
    /\ (start = [] \/ start = [RootDir] \/ start = [CurDir]).

Lemma split_char_no_sep c s p : p ∈ split_char c s -> byte_of c ∉ bytes p.
Proof.
  revert p. induction s as [|a s IH]; intros p; simpl.
  - intros ->%list_elem_of_singleton. simpl. set_solver.
  - case_bool_decide as E.
    + intros [->|Hp]%elem_of_cons; [simpl; set_solver|by apply IH].
    + destruct (split_char c s) as [|q qs] eqn:Es.
      * intros ->%list_elem_of_singleton. simpl. intros [Hc|Hc]%elem_of_cons; [|set_solver].
        apply E. rewrite <- (of_byte_of a), <- (of_byte_of c). by rewrite Hc.
      * intros [->|Hp]%elem_of_cons; [|apply IH; by right].
        simpl. intros [Hc|Hc]%elem_of_cons.
        -- apply E. rewrite <- (of_byte_of a), <- (of_byte_of c). by rewrite Hc.
        -- by apply (IH q); [left|].
Qed.

Lemma components_well_formed p : well_formed (components p).
Proof.
  unfold components. do 2 eexists. split; [done|]. split.
  - apply list.Forall_forall. intros c Hc. apply list_elem_of_In, in_concat in Hc as (l&Hl&Hc).
    apply in_map_iff in Hl as (q&<-&Hq). apply list_elem_of_In in Hq, Hc.
    apply split_char_no_sep in Hq. unfold piece_component in Hc.
    destruct (bool_decide (q = "") || bool_decide (q = ".")) eqn:E; [set_solver|].
    apply orb_false_iff in E as [E1%bool_decide_eq_false E2%bool_decide_eq_false].
    case_bool_decide; apply list_elem_of_singleton in Hc; subst; [done|].
    split_and!; done.
  - destruct (starts_with p "/"); [auto|]. destruct (split_char SLASH p); [auto|]. case_bool_decide; auto.
Qed.

Lemma well_formed_prefix cs c : well_formed (cs ++ [c])%list -> well_formed cs.
Proof.
  intros (start&rest&E&Hr&Hs). destruct rest as [|x rest _] using rev_ind.
  - rewrite app_nil_r in E. exists [], []. split; [|auto].
    destruct Hs as [-> | [-> | ->]]; [by destruct cs|..]; destruct cs as [|? [|? ?]]; done.
  - rewrite app_assoc in E. apply app_inj_tail in E as [-> ->].
    apply Forall_app in Hr as [Hr _]. by exists start, rest.
Qed.

Lemma plain_component_text c : plain_component c ->
  (47 ∉ bytes (component_text c)) /\ piece_component (component_text c) = [c] /\ component_text c <> ""
  /\ component_text c <> ".".
Proof.
  destruct c; simpl; try done.
  - intros _. split_and!; try done. rewrite !elem_of_cons. intros [?|[?|?%elem_of_nil]]; done.
  - intros (H1&H2&H3&H4). split_and!; try done. unfold piece_component. by rewrite !bool_decide_eq_false_2.
Qed.

Lemma plain_pieces rest : Forall plain_component rest ->
  concat (map piece_component (map component_text rest)) = rest
  /\ Forall (fun n => 47 ∉ bytes n) (map component_text rest).
Proof.
  induction 1 as [|c rest Hc H [IH1 IH2]]; [done|]. destruct (plain_component_text c Hc) as (H1&H2&_).
  simpl. rewrite H2, IH1. split; [done|]. by constructor.
Qed.

Lemma components_plain_join rest : Forall plain_component rest ->
  components (str_join "/" (map component_text rest)) = rest.
Proof.
  intros H. destruct rest as [|c rest]; [done|]. pose proof (plain_pieces _ H) as [H1 H2].
  unfold components. rewrite split_str_join by done. rewrite H1.
  inversion H as [|? ? Hc _]; subst. destruct (plain_component_text c Hc) as (Hs&_&Hn&Hd).
  replace (starts_with (str_join "/" (map component_text (c :: rest))) "/") with false.
  - cbn [map]. by rewrite bool_decide_eq_false_2.
  - symmetry. apply not_true_is_false. rewrite starts_with_spec. intros [t Ht].
    assert (exists u, str_join "/" (map component_text (c :: rest)) = component_text c +:+ u) as [u Hu].
    { destruct rest; [exists ""; by rewrite str_app_nil_r|]. by eexists. }
    rewrite Hu in Ht. destruct (component_text c) as [|a s] eqn:Ec; [done|].
    injection Ht as -> _. apply Hs. left.
Qed.

Lemma components_of_components cs : well_formed cs -> components (of_components cs) = cs.
Proof.
  intros (start&rest&->&Hr&Hs). pose proof (components_plain_join rest Hr) as Hj.
  destruct Hs as [-> | [-> | ->]]; simpl.
  - destruct rest as [|c rest]; [done|]. inversion Hr; subst. by destruct c.
  - match goal with |- components ?p = _ =>
      change p with (EmptyString +:+ String SLASH (str_join "/" (map component_text rest))) end.
    destruct rest as [|c rest]; [done|]. unfold components.
    rewrite split_char_cat, split_str_join by (done || by apply plain_pieces).
    rewrite map_app, concat_app. change (starts_with _ "/") with true. cbn [split_char map concat app].
    f_equal. exact (proj1 (plain_pieces _ Hr)).
  - destruct rest as [|c rest]; [done|].
    match goal with |- components ?p = _ =>
      change p with ("." +:+ String SLASH (str_join "/" (map component_text (c :: rest)))) end.
    unfold components. rewrite split_char_cat, split_str_join by (done || by apply plain_pieces).
    rewrite map_app, concat_app. change (starts_with _ "/") with false. cbn [split_char map concat app].
    f_equal. exact (proj1 (plain_pieces _ Hr)).
Qed.

Lemma components_parent p up : parent p = Some up ->
  exists c, components p = (components up ++ [c])%list.
Proof.
  unfold parent. destruct (rev (components p)) as [|c cs] eqn:E; [done|]. intros H.
  assert (components p = rev cs ++ [c])%list as Ep by (rewrite <- (rev_involutive (components p)), E; done).
  assert (up = of_components (rev cs)) as ->.
  { destruct c, cs; try done; by injection H as <-. }
  exists c. rewrite components_of_components; [done|].
  apply well_formed_prefix with c. rewrite <- Ep. apply components_well_formed.
Qed.

Example parent_ex : parent "/repo/.git/worktrees/x" = Some "/repo/.git/worktrees" /\ parent "/" = None /\ parent "a" = Some "".
Proof. by vm_compute. Qed.

(** ** Entries *)

Lemma bytes_forall_app (P : Z -> Prop) a b : Forall P (bytes a) -> Forall P (bytes b) -> Forall P (bytes (a +:+ b)).
Proof. rewrite bytes_app. intros. by apply Forall_app. Qed.

(** Printable names without a separator are entries of a directory. *)
Lemma ascii_entry n :
  Forall (fun b => 1 <= b < 128 /\ b <> 47) (bytes n) -> (3 <= String.length n)%nat -> entry_name n.
Proof.
  intros H Hl. assert (Forall (fun c => 0 <= c < 128) (bytes n)) as Ha
    by (eapply list.Forall_impl; [exact H|]; cbn; lia).
  assert (of_chars (bytes n) = n) as En.
  { apply bytes_inj. by apply bytes_of_ascii. }
  split_and!; try (intros ->; cbn in Hl; lia). split_and!.
  - unfold utf8_valid. rewrite <- En, chars_of_ascii by done. apply forallb_forall.
    intros c Hc%list_elem_of_In. rewrite list.Forall_forall in Ha. apply Ha in Hc. unfold INVALID. lia.
  - intros ->. cbn in Hl. lia.
  - rewrite list.Forall_forall in H. intros Hc%H. lia.
  - rewrite list.Forall_forall in H. intros Hc%H. lia.
Qed.

(** What a file is called with an extension it did not have. *)
Lemma with_extension_beside p cs name ext :
  components p = (cs ++ [Normal name])%list -> (46 ∉ bytes name) -> ext <> "" -> entry_name (name +:+ "." +:+ ext) ->
  components (with_extension p ext) = (cs ++ [Normal (name +:+ "." +:+ ext)])%list.
Proof.
  intros Ep Hn He Hentry. unfold with_extension, file_name. rewrite Ep, rev_app_distr. cbn [rev app].
  assert (stem_of (rev (bytes name)) = []) as ->.
  { assert (46 ∉ rev (bytes name)) as Hr by (rewrite list_elem_of_In, <- in_rev, <- list_elem_of_In; exact Hn).
    induction (rev (bytes name)) as [|c l IH]; [done|]. cbn [stem_of].
    apply not_elem_of_cons in Hr as [Hc Hr]. assert ((c =? 46) = false) as -> by lia. by apply IH. }
  rewrite (bool_decide_eq_false_2 (ext = "")) by done. rewrite bool_decide_eq_true_2 by done.
  destruct (parent p) as [up|] eqn:Eu.
  - apply components_parent in Eu as [c Ec]. rewrite Ep in Ec. apply app_inj_tail in Ec as [-> _]. by apply components_join.
  - exfalso. unfold parent in Eu. rewrite Ep, rev_app_distr in Eu. cbn in Eu. by destruct (rev cs).
Qed.
