(* ===== verification/Confine.v ===== *)
(** * Confining coding agents ([cuma-workspace/src/confine.rs])

    The runtimes, what detection finds, and the launch prefix of each: what an
    agent started behind it may see, write and inherit. *)

From S2P Require Export Host Config.
Open Scope string_scope.
Open Scope Z_scope.

(** ** What is hidden, writable and kept *)

Definition HIDDEN_IN_HOME : list string :=
  [".gnupg"; ".aws"; ".ssh"; ".mozilla"; ".thunderbird"; ".basilisk-dev"; ".sparrow"; ".docker";
   ".kube"; ".azure"; ".password-store"; ".netrc"; ".pgpass"; ".git-credentials"].

Definition WRITABLE_IN_HOME : list string :=
  [".gemini"; ".claude"; ".claude.json"; ".jcode"; ".crush"; ".codex"; ".aider"; ".kiro"; ".grok";
   ".agents"; ".config"; ".cargo"; ".cache"; ".bundle"; ".gem"; ".rustup"; ".npm"; ".bun"; ".deno";
   ".yarn"; ".pnpm"; ".m2"; ".gradle"; ".dotnet"; ".nuget"; ".pub-cache"; ".mix"; ".hex"].

Definition KEPT_ENV : list string :=
  ["PATH"; "HOME"; "USER"; "LOGNAME"; "SHELL"; "TERM"; "COLORTERM"; "LANG"; "LANGUAGE"; "TZ";
   "TMPDIR"; "HTTP_PROXY"; "HTTPS_PROXY"; "NO_PROXY"; "ALL_PROXY"; "http_proxy"; "https_proxy";
   "no_proxy"; "all_proxy"; "SSL_CERT_FILE"; "SSL_CERT_DIR"; "NODE_EXTRA_CA_CERTS";
   "REQUESTS_CA_BUNDLE"; "CURL_CA_BUNDLE"; "CARGO_HOME"; "RUSTUP_HOME"; "GOPATH"; "GOROOT";
   "GOMODCACHE"; "JAVA_HOME"; "NVM_DIR"; "VOLTA_HOME"; "PNPM_HOME"; "BUN_INSTALL"; "DENO_DIR";
   "PYENV_ROOT"; "GOOGLE_API_KEY"; "OPENROUTER_API_KEY"].

Definition KEPT_ENV_PREFIXES : list string :=
  ["LC_"; "XDG_"; "ANTHROPIC_"; "CLAUDE_"; "OPENAI_"; "CODEX_"; "GEMINI_"; "GOOGLE_GENAI_"].

Definition one_of (s : string) (l : list string) : bool := bool_decide (s ∈ l).

Definition is_network_setup (name : string) : bool :=
  let upper := to_ascii_uppercase name in
  ends_with upper "PROXY"
  || existsb (str_contains upper)
       ["CA_BUNDLE"; "CAINFO"; "CACERT"; "CA_CERTS"; "CA_STORE"; "SSL_CERT"; "SSL_ROOTS"]
  || ends_with upper "_CERT"
  || one_of name ["NODE_OPTIONS"; "JAVA_TOOL_OPTIONS"; "LD_LIBRARY_PATH"].

Definition is_kept (name : string) (extra : list string) : bool :=
  one_of name KEPT_ENV
  || existsb (starts_with name) KEPT_ENV_PREFIXES
  || is_network_setup name
  || existsb (fun e => bool_decide (e = name)) extra.

(** What a container or a microVM is given by default. *)
Definition is_portable_agent_env (name : string) : bool :=
  existsb (starts_with name) (List.filter (fun p => negb (one_of p ["LC_"; "XDG_"])) KEPT_ENV_PREFIXES)
  || one_of name ["GOOGLE_API_KEY"; "OPENROUTER_API_KEY"]
  || ends_with (to_ascii_uppercase name) "PROXY".

(** ** Runtimes *)

Inductive AgentRuntime : Type := AiJail | Bubblewrap | SandboxExec | Firejail.

#[export] Instance AgentRuntime_eq_dec : EqDecision AgentRuntime.
Proof. solve_decision. Defined.

(** In order of preference. *)
Definition ALL_RUNTIMES : list AgentRuntime := [AiJail; Bubblewrap; SandboxExec; Firejail].

Definition from_config_name (name : string) : option AgentRuntime :=
  if bool_decide (name = "ai-jail") then Some AiJail
  else if bool_decide (name = "bubblewrap") then Some Bubblewrap
  else if bool_decide (name = "sandbox-exec") then Some SandboxExec
  else if bool_decide (name = "firejail") then Some Firejail
  else None.

Definition program (r : AgentRuntime) : string :=
  match r with
  | AiJail => "ai-jail" | Bubblewrap => "bwrap"
  | SandboxExec => "sandbox-exec" | Firejail => "firejail"
  end.

Definition runtime_name (r : AgentRuntime) : string :=
  match r with
  | AiJail => "ai-jail" | Bubblewrap => "bubblewrap"
  | SandboxExec => "macOS sandbox-exec" | Firejail => "firejail"
  end.

(** Running a program: whether it could be started and exited with success. *)
Section Probing.
Context (h : Host) (succeeds : string -> list string -> bool).

Definition probe_args (r : AgentRuntime) (truth : string) : list string :=
  match r with
  | AiJail => ["--exec"; "--clean"; "--no-save-config"; "--"; truth]
  | Bubblewrap =>
      ["--ro-bind"; "/"; "/"; "--dev"; "/dev"; "--proc"; "/proc"; "--unshare-pid";
       "--die-with-parent"; "--"; truth]
  | SandboxExec => ["-p"; "(version 1)(allow default)"; truth]
  | Firejail => ["--quiet"; "--noprofile"; "--"; truth]
  end.

Definition probe (r : AgentRuntime) : bool :=
  if negb (h_which h (program r)) then false
  else
    let truth := match find (h_exists h) ["/usr/bin/true"; "/bin/true"] with Some p => p | None => "true" end in
    succeeds (program r) (probe_args r truth).

Definition works (r : AgentRuntime) : bool := bool_decide (r ∈ List.filter probe ALL_RUNTIMES).

End Probing.

(** ** How agents are confined *)

Record AgentSandbox := {
  ag_runtime : option AgentRuntime;
  ag_enabled : bool;
  allowed_hosts : list string;
  forwarded_env : list string;
  ag_writable : list PathBuf;
  ag_required : bool;
}.

Inductive AgentConfinementLevel : Type :=
  | Confined (runtime : string)
  | NetworkUnfiltered (runtime : string)
  | ConfinementDisabled
  | ConfinementUnavailable.

Definition is_shortfall (l : AgentConfinementLevel) : bool :=
  match l with NetworkUnfiltered _ | ConfinementUnavailable => true | _ => false end.

Definition with_runtime (h : Host) (config : SecurityConfig) (runtime : option AgentRuntime) : AgentSandbox :=
  {| ag_runtime := if sec_sandbox config then runtime else None;
     ag_enabled := sec_sandbox config;
     allowed_hosts := network_allowlist config;
     forwarded_env := agent_env config;
     ag_writable := map (expand_home h) (agent_writable_paths config);
     ag_required := require_agent_sandbox config |}.

Section Detecting.
Context (h : Host) (succeeds : string -> list string -> bool).

Definition detect (config : SecurityConfig) : AgentSandbox :=
  with_runtime h config
    (if sec_sandbox config then find (works h succeeds) ALL_RUNTIMES else None).

Definition detect_only (config : SecurityConfig) (r : AgentRuntime) : AgentSandbox :=
  with_runtime h config (if sec_sandbox config && works h succeeds r then Some r else None).

(** The sandbox of a native provider whose settings name [runtime]. *)
Definition native_sandbox (config : SecurityConfig) (runtime : string) : AgentSandbox :=
  match from_config_name runtime with
  | Some r => detect_only config r
  | None => detect config
  end.

End Detecting.

Definition with_state (paths : list PathBuf) (s : AgentSandbox) : AgentSandbox :=
  {| ag_runtime := ag_runtime s; ag_enabled := ag_enabled s; allowed_hosts := allowed_hosts s;
     forwarded_env := forwarded_env s; ag_writable := (ag_writable s ++ paths)%list;
     ag_required := ag_required s |}.

Definition filters_network (s : AgentSandbox) : bool := bool_decide (ag_runtime s = Some AiJail).

Definition level (s : AgentSandbox) : AgentConfinementLevel :=
  match ag_runtime s with
  | None => if negb (ag_enabled s) then ConfinementDisabled else ConfinementUnavailable
  | Some r =>
      if negb (bool_decide (r = AiJail)) && negb (bool_decide (allowed_hosts s = []))
      then NetworkUnfiltered (runtime_name r)
      else Confined (runtime_name r)
  end.

Definition refuses_agents (s : AgentSandbox) : bool := ag_required s && is_shortfall (level s).

Definition describe (s : AgentSandbox) : string :=
  match level s with
  | Confined runtime => "agents: confined by " +:+ runtime
  | NetworkUnfiltered runtime =>
      "agents: filesystem confined by " +:+ runtime +:+ ", but security.network_allowlist is "
      +:+ "NOT enforced — only ai-jail filters by host; the network is open"
  | ConfinementDisabled => "agents: unconfined (sandbox disabled)"
  | ConfinementUnavailable =>
      "agents: UNCONFINED —"
      +:+ " none of ai-jail, bubblewrap, sandbox-exec or firejail works here"
  end.

(** ** A profile *)

Record Profile := {
  pf_workspace : PathBuf;
  pf_git_common_dir : option PathBuf;
  pf_home : option PathBuf;
  home_writable : list PathBuf;
  home_readable : list PathBuf;
  home_hidden : list PathBuf;
  extra_writable : list PathBuf;
  cuma_executable : option PathBuf;
  command_paths : list PathBuf;
  pf_network : bool;
  strip_env : list string;
  forward_env : list string;
}.

Definition name_le (a b : string) : bool := match key_cmp a b with Gt => false | _ => true end.

(** The repository git directory of a worktree, which lives outside it. *)
Definition git_common_dir (h : Host) (workspace : PathBuf) : option PathBuf :=
  let marker := join_path workspace ".git" in
  if negb (h_is_file h marker) then None
  else
    match h_read h marker with
    | None => None
    | Some text =>
        if negb (utf8_valid text) then None
        else
          match Text.strip_prefix (trim text) "gitdir:" with
          | None => None
          | Some rest =>
              let gitdir := trim rest in
              let gitdir := if is_absolute gitdir then gitdir else join_path workspace gitdir in
              match parent gitdir with
              | Some up =>
                  if bool_decide (file_name up = Some "worktrees")
                  then match parent up with Some common => h_canonicalize h common | None => None end
                  else h_canonicalize h gitdir
              | None => h_canonicalize h gitdir
              end
          end
    end.

(** The home's entries whose names start with a dot, in order. *)
Definition dot_names (h : Host) (home : PathBuf) : list string :=
  match h_entries h home with
  | None => []
  | Some names => stable_sort name_le (List.filter (fun n => starts_with n ".") (map from_utf8_lossy names))
  end.

Definition is_hidden_name (n : string) : bool := one_of n HIDDEN_IN_HOME.
Definition is_writable_name (n : string) : bool := negb (is_hidden_name n) && one_of n WRITABLE_IN_HOME.
Definition is_readable_name (h : Host) (home : PathBuf) (n : string) : bool :=
  negb (is_hidden_name n) && negb (one_of n WRITABLE_IN_HOME) && negb (h_special h (join_path home n)).

(** Hidden only when it lives under the home outside a dot directory. *)
Definition exe_hidden (home : option PathBuf) (workspace exe : PathBuf) : bool :=
  match home with
  | None => false
  | Some home =>
      match strip_components (components home) (components exe) with
      | None => false
      | Some rest =>
          negb (match rest with c :: _ => starts_with (component_text c) "." | [] => false end)
      end
  end && negb (path_starts_with exe workspace).

Definition for_workspace (h : Host) (sandbox : AgentSandbox) (workspace : PathBuf)
    (keep_env : list string) (environment : list string) : Profile :=
  let workspace := canonical h workspace in
  let home := option_map (canonical h) (h_home h) in
  let names := match home with Some home => dot_names h home | None => [] end in
  let at_home := fun keep =>
    match home with Some home => map (join_path home) (List.filter (keep home) names) | None => [] end in
  let keep := (forwarded_env sandbox ++ keep_env)%list in
  {| pf_workspace := workspace;
     pf_git_common_dir := git_common_dir h workspace;
     pf_home := home;
     home_writable := at_home (fun _ => is_writable_name);
     home_readable := at_home (is_readable_name h);
     home_hidden := at_home (fun _ => is_hidden_name);
     extra_writable := map (canonical h) (List.filter (h_exists h) (ag_writable sandbox));
     cuma_executable :=
       match h_current_exe h with
       | Some p => if exe_hidden home workspace (canonical h p) then Some (canonical h p) else None
       | None => None
       end;
     command_paths := [];
     pf_network := true;
     strip_env := List.filter (fun n => negb (is_kept n keep)) environment;
     forward_env := keep |}.

Definition with_command_paths (paths : list PathBuf) (p : Profile) : Profile :=
  {| pf_workspace := pf_workspace p; pf_git_common_dir := pf_git_common_dir p; pf_home := pf_home p;
     home_writable := home_writable p; home_readable := home_readable p; home_hidden := home_hidden p;
     extra_writable := extra_writable p; cuma_executable := cuma_executable p; command_paths := paths;
     pf_network := pf_network p; strip_env := strip_env p; forward_env := forward_env p |}.

(** ** Rendering it *)

(** [Path::display] *)
Definition display (p : PathBuf) : string := from_utf8_lossy p.

Definition writable (p : Profile) : list PathBuf :=
  (pf_workspace p :: option_list (pf_git_common_dir p) ++ home_writable p ++ extra_writable p)%list.

Definition ai_jail (h : Host) (hosts : list string) (p : Profile) : list string :=
  (["ai-jail"; "--exec"; "--clean"; "--no-save-config"; "--agent-state"]
   ++ (if bool_decide (hosts = []) then ["--network"]
       else concat (map (fun host => ["--allow-host"; host]) hosts))
   ++ concat (map (fun name => ["--env"; name]) (forward_env p))
   ++ concat (map (fun path => ["--rw-map"; display path])
        (List.filter
           (fun path => negb (match h_current_dir h with Some here => path_eqb here path | None => false end))
           (pf_workspace p :: option_list (pf_git_common_dir p) ++ extra_writable p)))
   ++ concat (map (fun path => ["--map"; display path]) (command_paths p))
   ++ ["--"])%list.

Definition SYSTEM : list string :=
  ["/usr"; "/bin"; "/sbin"; "/lib"; "/lib32"; "/lib64"; "/etc"; "/opt"; "/nix"; "/sys"].

(** Whether a mount made before the command's paths already shows one. *)
Definition bwrap_shows (p : Profile) (path : PathBuf) : bool :=
  existsb (path_starts_with path) SYSTEM
  || existsb (path_starts_with path) (home_readable p ++ writable p)%list.

Definition system_args (h : Host) : list string :=
  (["--ro-bind"; "/usr"; "/usr"]
   ++ concat (map (fun '(dir, target) =>
        if h_is_symlink h dir then ["--symlink"; target; dir]
        else if h_is_dir h dir then ["--ro-bind"; dir; dir] else [])
        [("/bin", "usr/bin"); ("/sbin", "usr/sbin"); ("/lib", "usr/lib"); ("/lib32", "usr/lib32");
         ("/lib64", "usr/lib64")])
   ++ concat (map (fun dir => ["--ro-bind-try"; dir; dir]) ["/etc"; "/opt"; "/nix"; "/sys"])
   ++ ["--dev"; "/dev"; "--proc"; "/proc"; "--tmpfs"; "/tmp"; "--tmpfs"; "/run"]
   ++ match h_canonicalize h "/etc/resolv.conf" with
      | Some resolv =>
          if path_starts_with resolv "/run" || path_starts_with resolv "/tmp"
          then ["--ro-bind"; display resolv; display resolv] else []
      | None => []
      end)%list.

Definition bind (flag : string) (path : PathBuf) : list string := [flag; display path; display path].

Definition home_args (h : Host) (p : Profile) : list string :=
  (match pf_home p with
   | Some home => if path_eqb home "/" then [] else ["--tmpfs"; display home]
   | None => []
   end
   ++ concat (map (bind "--ro-bind-try") (home_readable p))
   ++ concat (map (bind "--bind-try")
        (home_writable p ++ extra_writable p ++ option_list (pf_git_common_dir p)))
   ++ match cuma_executable p with Some exe => bind "--ro-bind-try" exe | None => [] end
   ++ concat (map (fun path => ["--ro-bind-try"; display (canonical h path); display path])
        (List.filter (fun path => negb (bwrap_shows p path)) (command_paths p))))%list.

(** Credentials inside the workspace are hidden again after it. *)
Definition rehide (h : Host) (hidden : PathBuf) : list string :=
  if h_is_dir h hidden then ["--tmpfs"; display hidden]
  else ["--ro-bind"; "/dev/null"; display hidden].

Definition bubblewrap (h : Host) (p : Profile) : list string :=
  (["bwrap"; "--die-with-parent"; "--new-session"; "--unshare-pid"; "--unshare-uts"; "--unshare-ipc"]
   ++ (if pf_network p then [] else ["--unshare-net"])
   ++ system_args h
   ++ home_args h p
   ++ bind "--bind" (pf_workspace p)
   ++ concat (map (rehide h)
        (List.filter (fun hidden => path_starts_with hidden (pf_workspace p)) (home_hidden p)))
   ++ ["--chdir"; display (pf_workspace p)]
   ++ concat (map (fun name => ["--unsetenv"; name]) (strip_env p))
   ++ ["--"])%list.

Definition firejail (h : Host) (p : Profile) : list string :=
  (["firejail"; "--quiet"; "--noprofile"; "--nonewprivs"; "--caps.drop=all"; "--read-only=/"]
   ++ (if pf_network p then [] else ["--net=none"])
   ++ map (fun tmp => "--read-write=" +:+ tmp) (List.filter (h_exists h) ["/tmp"; "/var/tmp"; "/dev/shm"])
   ++ map (fun path => "--read-write=" +:+ display path) (List.filter (h_exists h) (writable p))
   ++ map (fun hidden => "--blacklist=" +:+ display hidden) (home_hidden p)
   ++ map (fun name => "--rmenv=" +:+ name) (strip_env p)
   ++ ["--"])%list.

Definition BACKSLASH : string := String (of_byte 92) EmptyString.

(** A path as a string literal of the Seatbelt language. *)
Definition quote (p : PathBuf) : string :=
  DQ +:+ replace_with (of_byte 34) (BACKSLASH +:+ DQ)
           (replace_with (of_byte 92) (BACKSLASH +:+ BACKSLASH) (display p)) +:+ DQ.

Definition seatbelt_rule (kind literal : string) : string := "  (" +:+ kind +:+ " " +:+ literal +:+ ")" +:+ NL.

Definition seatbelt_profile (h : Host) (p : Profile) : string :=
  "(version 1)" +:+ NL +:+ "(allow default)" +:+ NL +:+ "(deny file-write*)" +:+ NL
  +:+ "(allow file-write*" +:+ NL
  +:+ str_join "" (map (fun path => seatbelt_rule (if h_is_file h path then "literal" else "subpath") (quote path))
        (writable p))
  +:+ str_join "" (map (fun tmp => seatbelt_rule "subpath" (DQ +:+ tmp +:+ DQ))
        ["/private/tmp"; "/private/var/folders"; "/dev/fd"])
  +:+ str_join "" (map (fun device => seatbelt_rule "literal" (DQ +:+ device +:+ DQ))
        ["/dev/null"; "/dev/zero"; "/dev/tty"; "/dev/ptmx"; "/dev/dtracehelper"])
  +:+ "  (regex #" +:+ DQ +:+ "^/dev/ttys[0-9]+$" +:+ DQ +:+ "))" +:+ NL
  +:+ (if bool_decide (home_hidden p = []) then EmptyString
       else "(deny file-read* file-write*" +:+ NL
            +:+ str_join "" (map (fun hidden => seatbelt_rule "subpath" (quote hidden)) (home_hidden p))
            +:+ ")" +:+ NL)
  +:+ (if pf_network p then EmptyString else "(deny network*)" +:+ NL).

Definition sandbox_exec (h : Host) (p : Profile) : list string :=
  (["sandbox-exec"; "-p"; seatbelt_profile h p; "/usr/bin/env"]
   ++ concat (map (fun name => ["-u"; name]) (strip_env p)))%list.

(** [std::env::vars_os], less the names that are not text. *)
Definition variable_names (h : Host) : list string := List.filter utf8_valid (h_env h).

Definition agent_profile (h : Host) (s : AgentSandbox) (workspace : PathBuf) (keep_env : list string)
    (readable : list PathBuf) : Profile :=
  with_command_paths readable (for_workspace h s workspace keep_env (variable_names h)).

Definition launch_prefix (h : Host) (s : AgentSandbox) (workspace : PathBuf) (keep_env : list string)
    (readable : list PathBuf) : option (list string) :=
  match ag_runtime s with
  | None => None
  | Some r =>
      let p := agent_profile h s workspace keep_env readable in
      Some match r with
           | AiJail => ai_jail h (allowed_hosts s) p
           | Bubblewrap => bubblewrap h p
           | SandboxExec => sandbox_exec h p
           | Firejail => firejail h p
           end
  end.
