(* ===== verification/ConfineFacts.v ===== *)
(** * Confinement: theorems

    What bubblewrap is told, as it reads it; what an agent then sees and may
    write; which variables it inherits; and what requiring confinement means. *)

From S2P Require Export Confine.
Open Scope string_scope.
Open Scope Z_scope.

(** ** How bubblewrap reads its arguments *)

Inductive BwrapOp : Type :=
  | Flag (name : string)
  | Bind (ro try : bool) (src dst : string)
  | Symlink (target dst : string)
  | DevFs (dst : string)
  | ProcFs (dst : string)
  | Tmpfs (dst : string)
  | Chdir (dir : string)
  | Unsetenv (name : string).

Definition BWRAP_FLAGS : list string :=
  ["--die-with-parent"; "--new-session"; "--unshare-pid"; "--unshare-uts"; "--unshare-ipc"; "--unshare-net"].

Definition one_word (o : string) : option (string -> BwrapOp) :=
  if bool_decide (o = "--dev") then Some DevFs
  else if bool_decide (o = "--proc") then Some ProcFs
  else if bool_decide (o = "--tmpfs") then Some Tmpfs
  else if bool_decide (o = "--chdir") then Some Chdir
  else if bool_decide (o = "--unsetenv") then Some Unsetenv
  else None.

Definition two_words (o : string) : option (string -> string -> BwrapOp) :=
  if bool_decide (o = "--ro-bind") then Some (Bind true false)
  else if bool_decide (o = "--ro-bind-try") then Some (Bind true true)
  else if bool_decide (o = "--bind") then Some (Bind false false)
  else if bool_decide (o = "--bind-try") then Some (Bind false true)
  else if bool_decide (o = "--symlink") then Some Symlink
  else None.

Definition reading (op : BwrapOp) (r : option (list BwrapOp * list string)) :=
  option_map (fun '(ops, command) => (op :: ops, command)) r.

(** Options are taken from the left, each with the words it takes, whatever
    those words are, until [--]; the rest is the command. *)
Fixpoint read_args (args : list string) : option (list BwrapOp * list string) :=
  match args with
  | [] => None
  | o :: args1 =>
      if bool_decide (o = "--") then Some ([], args1)
      else if bool_decide (o ∈ BWRAP_FLAGS) then reading (Flag o) (read_args args1)
      else
        match args1 with
        | [] => None
        | a :: args2 =>
            match one_word o with
            | Some op => reading (op a) (read_args args2)
            | None =>
                match two_words o, args2 with
                | Some op, b :: args3 => reading (op a b) (read_args args3)
                | _, _ => None
                end
            end
        end
  end.

Definition words (op : BwrapOp) : list string :=
  match op with
  | Flag name => [name]
  | Bind ro try src dst =>
      [match ro, try with
       | true, false => "--ro-bind" | true, true => "--ro-bind-try"
       | false, false => "--bind" | false, true => "--bind-try" end; src; dst]
  | Symlink target dst => ["--symlink"; target; dst]
  | DevFs dst => ["--dev"; dst]
  | ProcFs dst => ["--proc"; dst]
  | Tmpfs dst => ["--tmpfs"; dst]
  | Chdir dir => ["--chdir"; dir]
  | Unsetenv name => ["--unsetenv"; name]
  end.

Definition known (op : BwrapOp) : Prop := match op with Flag name => name ∈ BWRAP_FLAGS | _ => True end.

Lemma read_words op rest : known op -> read_args (words op ++ rest)%list = reading op (read_args rest).
Proof.
  destruct op as [name|[] [] src dst|target dst|dst|dst|dst|dir|name]; try (intros _; reflexivity).
  intros H. simpl. rewrite bool_decide_eq_false_2; [by rewrite bool_decide_eq_true_2|].
  intros ->. by apply (bool_decide_eq_true_2 ("--" ∈ BWRAP_FLAGS)) in H.
Qed.

Lemma read_plan ops command : Forall known ops ->
  read_args (concat (map words ops) ++ "--" :: command)%list = Some (ops, command).
Proof.
  induction 1 as [|op ops Hop _ IH]; [done|]. cbn [map concat]. rewrite <- (assoc_L (++)%list).
  by rewrite read_words, IH by done.
Qed.

(** ** The mounts a profile asks for *)

Section Plan.
Context (h : Host) (p : Profile).

Definition same_place (ro try : bool) (path : PathBuf) : BwrapOp := Bind ro try (display path) (display path).

Definition flags_plan : list BwrapOp :=
  (map Flag ["--die-with-parent"; "--new-session"; "--unshare-pid"; "--unshare-uts"; "--unshare-ipc"]
   ++ if pf_network p then [] else [Flag "--unshare-net"])%list.

Definition system_plan : list BwrapOp :=
  ([Bind true false "/usr" "/usr"]
   ++ concat (map (fun '(dir, target) =>
        if h_is_symlink h dir then [Symlink target dir]
        else if h_is_dir h dir then [Bind true false dir dir] else [])
        [("/bin", "usr/bin"); ("/sbin", "usr/sbin"); ("/lib", "usr/lib"); ("/lib32", "usr/lib32");
         ("/lib64", "usr/lib64")])
   ++ map (fun dir => Bind true true dir dir) ["/etc"; "/opt"; "/nix"; "/sys"]
   ++ [DevFs "/dev"; ProcFs "/proc"; Tmpfs "/tmp"; Tmpfs "/run"]
   ++ match h_canonicalize h "/etc/resolv.conf" with
      | Some resolv =>
          if path_starts_with resolv "/run" || path_starts_with resolv "/tmp"
          then [same_place true false resolv] else []
      | None => []
      end)%list.

Definition home_plan : list BwrapOp :=
  match pf_home p with
  | Some home => if path_eqb home "/" then [] else [Tmpfs (display home)]
  | None => []
  end.

Definition shown_plan : list BwrapOp :=
  (map (same_place true true) (home_readable p)
   ++ map (same_place false true) (home_writable p ++ extra_writable p ++ option_list (pf_git_common_dir p))
   ++ map (same_place true true) (option_list (cuma_executable p))
   ++ map (fun path => Bind true true (display (canonical h path)) (display path))
        (List.filter (fun path => negb (bwrap_shows p path)) (command_paths p)))%list.

Definition hide (hidden : PathBuf) : BwrapOp :=
  if h_is_dir h hidden then Tmpfs (display hidden) else Bind true false "/dev/null" (display hidden).

Definition rehidden : list PathBuf :=
  List.filter (fun hidden => path_starts_with hidden (pf_workspace p)) (home_hidden p).

Definition plan : list BwrapOp :=
  (flags_plan ++ system_plan ++ home_plan ++ shown_plan ++ [same_place false false (pf_workspace p)]
   ++ map hide rehidden ++ [Chdir (display (pf_workspace p))] ++ map Unsetenv (strip_env p))%list.

Lemma concat_map_words {A} (f : A -> BwrapOp) (g : A -> list string) l :
  (forall x, words (f x) = g x) -> concat (map words (map f l)) = concat (map g l).
Proof. intros H. rewrite map_map. by rewrite (map_ext _ g H). Qed.

Lemma system_words : concat (map words system_plan) = system_args h.
Proof.
  unfold system_plan, system_args. rewrite !map_app, !concat_app. f_equal. f_equal.
  - cbn [map concat]. repeat case_match; reflexivity.
  - f_equal. f_equal. destruct (h_canonicalize h _) as [q|]; [|done]. by destruct (_ || _).
Qed.

Lemma bubblewrap_words : bubblewrap h p = "bwrap" :: (concat (map words plan) ++ ["--"])%list.
Proof.
  unfold bubblewrap, plan, flags_plan, home_plan, shown_plan, home_args. rewrite !map_app, !concat_app.
  rewrite system_words.
  rewrite (concat_map_words (same_place true true) (Confine.bind "--ro-bind-try") (home_readable p)) by done.
  rewrite !(concat_map_words (same_place false true) (Confine.bind "--bind-try")) by done.
  rewrite (concat_map_words (fun path => Bind true true (display (canonical h path)) (display path))
             (fun path => ["--ro-bind-try"; display (canonical h path); display path])) by done.
  rewrite (concat_map_words hide (rehide h))
    by (intros x; unfold hide, rehide; by destruct (h_is_dir h x)).
  rewrite (concat_map_words Unsetenv (fun name => ["--unsetenv"; name])) by done.
  rewrite ?map_app, ?concat_app, <- ?(assoc_L (++)%list).
  destruct (pf_network p), (pf_home p) as [home|], (cuma_executable p); try destruct (path_eqb home "/"); reflexivity.
Qed.

Lemma plan_known : Forall known plan.
Proof.
  assert (forall A (f : A -> BwrapOp) l, (forall x, known (f x)) -> Forall known (map f l)) as Hm.
  { intros A f l H. induction l; simpl; by constructor. }
  unfold plan, flags_plan, system_plan, home_plan, shown_plan.
  assert (forall n, bool_decide (n ∈ BWRAP_FLAGS) = true -> known (Flag n)) as Hf
    by (intros n H; by apply bool_decide_eq_true in H).
  repeat (apply Forall_app; split); try (apply Hm; intros x; done);
    repeat case_match; try (solve [repeat constructor; by apply Hf]).
  apply Hm. intros x. unfold hide. by destruct (h_is_dir h x).
Qed.

End Plan.

(** Whatever the paths, variable names and command are called, bubblewrap
    reads the prefix as the mounts and removals the profile means, and the
    command as the command. *)
Lemma bubblewrap_reads_back h p command :
  exists args, bubblewrap h p = "bwrap" :: args /\
    read_args (args ++ command)%list = Some (plan h p, command).
Proof.
  exists (concat (map words (plan h p)) ++ ["--"])%list. split; [apply bubblewrap_words|].
  rewrite <- (assoc_L (++)%list). apply read_plan, plan_known.
Qed.

(** ** What the mounts show

    A later mount covers an earlier one; a bind that may fail is skipped when
    its source does not exist. *)

Section View.
Context (h : Host).

Definition mounted_at (op : BwrapOp) : option string :=
  match op with
  | Bind _ _ _ dst | Symlink _ dst | DevFs dst | ProcFs dst | Tmpfs dst => Some dst
  | _ => None
  end.

Definition effective (op : BwrapOp) : bool :=
  match op with Bind _ true src _ => h_exists h src | _ => true end.

Definition covers (path : PathBuf) (op : BwrapOp) : bool :=
  match mounted_at op with Some dst => path_starts_with path dst && effective op | None => false end.

Definition shown (path : PathBuf) (ops : list BwrapOp) : option BwrapOp := list.last (List.filter (covers path) ops).

(** Whether a mount shows files of the machine, and whether it lets them be written. *)
Definition exposes (op : BwrapOp) : bool :=
  match op with
  | Bind _ _ src _ => negb (bool_decide (src = "/dev/null"))
  | Symlink _ _ | DevFs _ | ProcFs _ => true
  | _ => false
  end.

Definition lets_write (op : BwrapOp) : bool := match op with Bind false _ _ _ => true | _ => false end.

Lemma shown_app path a b :
  shown path (a ++ b)%list = match shown path b with Some op => Some op | None => shown path a end.
Proof. unfold shown. rewrite List.filter_app, last_app. by destruct (list.last (List.filter (covers path) b)). Qed.

Lemma shown_in path ops op : shown path ops = Some op -> op ∈ ops /\ covers path op = true.
Proof.
  intros H%last_Some_elem_of. apply list_elem_of_In, filter_In in H. by rewrite list_elem_of_In.
Qed.

Lemma shown_none path ops : (forall op, op ∈ ops -> covers path op = false) -> shown path ops = None.
Proof.
  intros H. destruct (shown path ops) as [op|] eqn:E; [|done].
  apply shown_in in E as [Ho Hc]. by rewrite H in Hc.
Qed.

Lemma shown_some path ops op : op ∈ ops -> covers path op = true -> exists op', shown path ops = Some op'.
Proof.
  intros Ho Hc. unfold shown. destruct (list.last _) as [op'|] eqn:E; [by exists op'|].
  apply last_None in E. assert (op ∈ List.filter (covers path) ops) as Hin.
  { apply list_elem_of_In, filter_In. by rewrite <- list_elem_of_In. }
  rewrite E in Hin. set_solver.
Qed.

(** A path under a joined name fixes the name. *)
Lemma under_entry path home n m : entry_name n -> entry_name m ->
  path_starts_with path (join_path home n) = true -> path_starts_with path (join_path home m) = true -> n = m.
Proof.
  unfold path_starts_with. intros Hn Hm. rewrite !components_join, !prefix_of_spec by done.
  intros [x Ex] [y Ey]. rewrite Ex, <- !(assoc_L (++)%list) in Ey. by simplify_list_eq.
Qed.

Lemma under_base path base n : entry_name n -> path_starts_with path (join_path base n) = true ->
  path_starts_with path base = true.
Proof.
  unfold path_starts_with. intros Hn. rewrite components_join, !prefix_of_spec by done.
  intros [x ->]. exists (Normal n :: x). by rewrite <- (assoc_L (++)%list).
Qed.

End View.

(** ** A confined agent *)

(** What a directory lists. *)
Definition lists_entries (h : Host) : Prop :=
  forall home names, h_entries h home = Some names -> Forall entry_name names.

(** Every path the profile names is text. *)
Definition all_text (h : Host) (p : Profile) : Prop :=
  Forall (fun q => display q = q)
    (option_list (h_canonicalize h "/etc/resolv.conf") ++ option_list (pf_home p) ++ home_hidden p ++ home_readable p ++ writable p
     ++ option_list (cuma_executable p) ++ command_paths p).

(** What was asked to be shown, whatever it is. *)
Definition granted (p : Profile) (path : PathBuf) : bool :=
  existsb (path_starts_with path)
    (extra_writable p ++ option_list (pf_git_common_dir p) ++ option_list (cuma_executable p)
     ++ command_paths p).

Section Confined.
Context (h : Host) (s : AgentSandbox) (ws : PathBuf) (keep : list string) (readable : list PathBuf).
Context (Hlist : lists_entries h).

Let p := agent_profile h s ws keep readable.

Lemma dot_names_entries home : Forall entry_name (dot_names h home).
Proof.
  unfold dot_names. destruct (h_entries h home) as [names|] eqn:E; [|constructor].
  apply Hlist in E. apply list.Forall_forall. intros n. rewrite elem_of_stable_sort, list_elem_of_In, filter_In.
  intros [Hin _]. apply in_map_iff in Hin as (m&<-&Hm). rewrite <- list_elem_of_In in Hm.
  rewrite list.Forall_forall in E. pose proof (E m Hm) as Hme. rewrite from_utf8_lossy_valid; [done|].
  by destruct Hme as ((?&_)&_).
Qed.

(** Where the home's entries come from. *)
Lemma home_entry q keeps :
  q ∈ match pf_home p with
      | Some home => map (join_path home) (List.filter (keeps home) (dot_names h home)) | None => [] end ->
  exists home n, pf_home p = Some home /\ q = join_path home n /\ entry_name n /\ keeps home n = true
    /\ starts_with n "." = true.
Proof.
  destruct (pf_home p) as [home|]; [|set_solver]. rewrite list_elem_of_In, in_map_iff.
  intros (n&<-&[Hin Hk]%filter_In). exists home, n. split_and!; try done.
  - pose proof (dot_names_entries home) as F. rewrite list.Forall_forall in F. apply F. by apply list_elem_of_In.
  - unfold dot_names in Hin. destruct (h_entries h home); [|done].
    by apply list_elem_of_In, elem_of_stable_sort, list_elem_of_In, filter_In in Hin as [_ ?].
Qed.

Lemma hidden_entry q : q ∈ home_hidden p ->
  exists home n, pf_home p = Some home /\ q = join_path home n /\ entry_name n /\ is_hidden_name n = true
    /\ starts_with n "." = true.
Proof.
  intros H. apply (home_entry q (fun _ => is_hidden_name)).
  unfold p, agent_profile, for_workspace in *. simpl in *. by destruct (h_home h).
Qed.

Lemma shown_entry q : q ∈ (home_readable p ++ home_writable p)%list ->
  exists home n, pf_home p = Some home /\ q = join_path home n /\ entry_name n /\ is_hidden_name n = false.
Proof.
  rewrite elem_of_app. intros [H|H].
  - destruct (home_entry q (is_readable_name h)) as (home&n&?&?&?&Hk&_).
    + unfold p, agent_profile, for_workspace in *. simpl in *. by destruct (h_home h).
    + exists home, n. split_and!; try done. unfold is_readable_name in Hk. by destruct_bools.
  - destruct (home_entry q (fun _ => is_writable_name)) as (home&n&?&?&?&Hk&_).
    + unfold p, agent_profile, for_workspace in *. simpl in *. by destruct (h_home h).
    + exists home, n. split_and!; try done. unfold is_writable_name in Hk. by destruct_bools.
Qed.
Context (Htext : all_text h p).

Lemma text_of q :
  q ∈ (option_list (h_canonicalize h "/etc/resolv.conf") ++ option_list (pf_home p)
       ++ home_hidden p ++ home_readable p ++ writable p ++ option_list (cuma_executable p)
       ++ command_paths p)%list -> display q = q.
Proof. unfold all_text in Htext. rewrite list.Forall_forall in Htext. apply Htext. Qed.

(** No system mount covers a dot entry of the root. *)
Lemma system_clear path n x op :
  components path = RootDir :: Normal n :: x -> starts_with n "." = true ->
  op ∈ system_plan h -> covers h path op = false.
Proof.
  intros Hp Hn Hop. unfold covers. destruct (mounted_at op) as [d|] eqn:Ed; [|done].
  assert (exists m y, components d = RootDir :: Normal m :: y /\ starts_with m "." = false) as (m&y&Hd&Hm).
  - unfold system_plan in Hop. rewrite !elem_of_app in Hop.
    destruct Hop as [Hop|[Hop|[Hop|[Hop|Hop]]]].
    + apply list_elem_of_singleton in Hop as ->. injection Ed as <-. do 2 eexists; split; reflexivity.
    + apply list_elem_of_In, in_concat in Hop as (ops&Hops&Hop). apply in_map_iff in Hops as ([dir t]&<-&Hdir).
      assert (d = dir) as -> by (repeat case_match; simpl in Hop; destruct Hop as [<-|[]] || destruct Hop; by injection Ed).
      simpl in Hdir. destruct_or? Hdir; try done; simplify_eq; do 2 eexists; split; reflexivity.
    + apply list_elem_of_In, in_map_iff in Hop as (dir&<-&Hdir). injection Ed as <-.
      simpl in Hdir. destruct_or? Hdir; try done; subst dir; do 2 eexists; split; reflexivity.
    + apply list_elem_of_In in Hop. simpl in Hop.
      destruct_or? Hop; try done; subst op; simpl in Ed; simplify_eq; do 2 eexists; split; reflexivity.
    + destruct (h_canonicalize h "/etc/resolv.conf") as [q|] eqn:Eq; [|set_solver].
      assert (display q = q) as Eqq by (apply text_of; rewrite Eq; set_solver).
      destruct (_ || _) eqn:Es; [|set_solver]. apply list_elem_of_singleton in Hop as ->.
      injection Ed as <-. rewrite Eqq. unfold path_starts_with in Es. apply orb_true_iff in Es as [Es|Es];
        apply prefix_of_spec in Es as [z Hz]; rewrite Hz; do 2 eexists; split; reflexivity.
  - apply andb_false_iff. left. unfold path_starts_with. rewrite Hp, Hd. simpl.
    rewrite (bool_decide_eq_false_2 (Normal m = Normal n)); [done|]. intros [= ->]. congruence.
Qed.

Lemma plain_ops_show path ops : (forall op, op ∈ ops -> mounted_at op = None) -> shown h path ops = None.
Proof. intros H. apply shown_none. intros op Hop. unfold covers. by rewrite (H op Hop). Qed.

Lemma shown_plan_covers path op : op ∈ shown_plan h p -> covers h path op = true ->
  granted p path = true \/
  exists q, q ∈ (home_readable p ++ home_writable p)%list /\ path_starts_with path q = true.
Proof.
  intros Hop Hc. unfold granted.
  assert (forall q, display q = q -> mounted_at op = Some (display q) -> path_starts_with path q = true) as Hq.
  { intros q Eq Em. unfold covers in Hc. rewrite Em, Eq in Hc. by apply andb_true_iff in Hc as [? _]. }
  assert (forall q, q ∈ (extra_writable p ++ option_list (pf_git_common_dir p)
            ++ option_list (cuma_executable p) ++ command_paths p)%list ->
          path_starts_with path q = true -> existsb (path_starts_with path)
            (extra_writable p ++ option_list (pf_git_common_dir p) ++ option_list (cuma_executable p)
             ++ command_paths p) = true) as Hg.
  { intros q Hin Hs. apply existsb_exists. exists q. by rewrite <- list_elem_of_In. }
  unfold shown_plan in Hop. rewrite !elem_of_app in Hop. unfold writable in *.
  destruct Hop as [Hop|[Hop|[Hop|Hop]]]; apply list_elem_of_In, in_map_iff in Hop as (q&<-&Hin).
  - apply list_elem_of_In in Hin. right. exists q. split; [set_solver|].
    apply Hq; [apply text_of; set_solver|done].
  - apply list_elem_of_In in Hin. rewrite !elem_of_app in Hin.
    assert (path_starts_with path q = true) as Hs by (apply Hq; [apply text_of; unfold writable; set_solver|done]).
    destruct Hin as [Hin|[Hin|Hin]]; [right; exists q; set_solver|left; apply (Hg q); set_solver..].
  - apply list_elem_of_In in Hin. left. apply (Hg q); [set_solver|].
    apply Hq; [apply text_of; set_solver|done].
  - apply filter_In in Hin as [Hin _]. apply list_elem_of_In in Hin. left. apply (Hg q); [set_solver|].
    apply Hq; [apply text_of; set_solver|done].
Qed.

Lemma shown_plan_hidden path hidden : hidden ∈ home_hidden p -> path_starts_with path hidden = true ->
  granted p path = false -> shown h path (shown_plan h p) = None.
Proof.
  intros Hh Hp Hg. apply shown_none. intros op Hop. apply not_true_iff_false. intros Hc.
  destruct (shown_plan_covers path op Hop Hc) as [?|(q&Hq&Hpq)]; [congruence|].
  destruct (hidden_entry hidden Hh) as (home&n&Eh&->&Hn&Hin&_).
  destruct (shown_entry q Hq) as (home'&m&Eh'&->&Hm&Hout).
  assert (home' = home) as -> by congruence.
  rewrite (under_entry path home n m Hn Hm Hp Hpq) in Hin. congruence.
Qed.

(** Before anything is put back, nothing of a hidden entry shows. *)
Lemma base_hidden path hidden op : hidden ∈ home_hidden p -> path_starts_with path hidden = true ->
  shown h path (flags_plan p ++ system_plan h ++ home_plan p)%list = Some op -> exposes op = false.
Proof.
  intros Hh Hp. destruct (hidden_entry hidden Hh) as (home&n&Eh&->&Hn&_&Hdot).
  assert (display home = home) as Et by (apply text_of; rewrite Eh; set_solver).
  assert (shown h path (flags_plan p) = None) as Ef.
  { apply plain_ops_show. unfold flags_plan. intros o. rewrite elem_of_app.
    intros [Ho|Ho]; [|destruct (pf_network p); [set_solver|by apply list_elem_of_singleton in Ho as ->]].
    by apply list_elem_of_In, in_map_iff in Ho as (?&<-&_). }
  unfold home_plan. rewrite Eh, !shown_app, Ef. destruct (path_eqb home "/") eqn:Er.
  - apply bool_decide_eq_true in Er. unfold path_starts_with in Hp. rewrite components_join, Er in Hp by done.
    apply prefix_of_spec in Hp as [x Hx]. cbn [shown].
    rewrite (shown_none h path (system_plan h)); [by intros|].
    intros o Ho. apply (system_clear path n x o); done.
  - pose proof (under_base path home n Hn Hp) as Hb. unfold shown at 1. cbn [List.filter].
    unfold covers at 1. simpl. rewrite Et, Hb. simpl. by intros [= <-].
Qed.

Lemma tail_plain path :
  shown h path ([Chdir (display (pf_workspace p))] ++ map Unsetenv (strip_env p))%list = None.
Proof.
  apply plain_ops_show. intros o. rewrite elem_of_app, list_elem_of_singleton.
  intros [->|Ho]; [done|]. by apply list_elem_of_In, in_map_iff in Ho as (?&<-&_).
Qed.

Lemma rehidden_hides path op : shown h path (map (hide h) (rehidden p)) = Some op ->
  exposes op = false /\ lets_write op = false.
Proof.
  intros [Ho _]%shown_in. apply list_elem_of_In, in_map_iff in Ho as (q&<-&_).
  unfold hide. by destruct (h_is_dir h q).
Qed.

Lemma rehidden_covers path q : q ∈ rehidden p -> path_starts_with path q = true ->
  exists op, shown h path (map (hide h) (rehidden p)) = Some op.
Proof.
  intros Hq Hp. apply (shown_some h path _ (hide h q)).
  - apply list_elem_of_In, in_map. by apply list_elem_of_In.
  - assert (display q = q) as Et.
    { apply text_of. unfold rehidden in Hq. apply list_elem_of_In, filter_In in Hq as [Hq _].
      apply list_elem_of_In in Hq. set_solver. }
    unfold covers, hide. destruct (h_is_dir h q); simpl; by rewrite Et, Hp.
Qed.

(** The whole plan, latest mounts first. *)
Lemma places_shown path :
  shown h path (plan h p) =
  match shown h path (map (hide h) (rehidden p)) with
  | Some op => Some op
  | None =>
      if path_starts_with path (pf_workspace p) then Some (same_place false false (pf_workspace p))
      else match shown h path (shown_plan h p) with
           | Some op => Some op
           | None => shown h path (flags_plan p ++ system_plan h ++ home_plan p)%list
           end
  end.
Proof.
  assert (display (pf_workspace p) = pf_workspace p) as Et by (apply text_of; unfold writable; set_solver).
  assert (shown h path [same_place false false (pf_workspace p)]
    = if path_starts_with path (pf_workspace p) then Some (same_place false false (pf_workspace p)) else None) as Ew.
  { unfold shown, covers, same_place. cbn [List.filter mounted_at effective]. rewrite Et, andb_true_r.
    by destruct (path_starts_with path (pf_workspace p)). }
  pose proof (tail_plain path) as Etail. unfold plan. rewrite shown_app in Etail.
  rewrite !shown_app, Ew. destruct (shown h path (map Unsetenv (strip_env p))); [done|]. rewrite Etail.
  destruct (shown h path (map (hide h) (rehidden p))) as [op|]; [done|].
  destruct (path_starts_with path (pf_workspace p)); [done|].
  destruct (shown h path (shown_plan h p)); [done|]. by destruct (shown h path (home_plan p)).
Qed.

Lemma base_readonly path op :
  shown h path (flags_plan p ++ system_plan h ++ home_plan p)%list = Some op -> lets_write op = false.
Proof.
  intros [Ho _]%shown_in. rewrite !elem_of_app in Ho. unfold flags_plan, system_plan, home_plan in Ho.
  rewrite !elem_of_app in Ho.
  assert (forall (A : Type) (f : A -> BwrapOp) l, (forall x, lets_write (f x) = false) -> op ∈ map f l -> lets_write op = false) as Hm.
  { intros A f l Hf Hin. apply list_elem_of_In, in_map_iff in Hin as (?&<-&_). apply Hf. }
  destruct Ho as [[Ho|Ho]|[[Ho|[Ho|[Ho|[Ho|Ho]]]]|Ho]].
  - by apply (Hm _ Flag) in Ho.
  - destruct (pf_network p); [set_solver|]. by apply list_elem_of_singleton in Ho as ->.
  - by apply list_elem_of_singleton in Ho as ->.
  - apply list_elem_of_In, in_concat in Ho as (ops&Hops&Ho). apply in_map_iff in Hops as ([dir t]&<-&_).
    repeat case_match; simpl in Ho; destruct Ho as [<-|[]] || destruct Ho; done.
  - by apply (Hm _ (fun dir => Bind true true dir dir)) in Ho.
  - apply list_elem_of_In in Ho. simpl in Ho. by destruct_or? Ho; subst op.
  - repeat case_match; try set_solver; by apply list_elem_of_singleton in Ho as ->.
  - repeat case_match; try set_solver; by apply list_elem_of_singleton in Ho as ->.
Qed.

Lemma shown_plan_writable path op : shown h path (shown_plan h p) = Some op -> lets_write op = true ->
  exists w, w ∈ writable p /\ path_starts_with path w = true.
Proof.
  intros [Ho Hc]%shown_in Hw. unfold shown_plan in Ho. rewrite !elem_of_app in Ho.
  destruct Ho as [Ho|[Ho|[Ho|Ho]]]; apply list_elem_of_In, in_map_iff in Ho as (q&<-&Hq); try done.
  apply list_elem_of_In in Hq. exists q.
  assert (q ∈ writable p) as Hin by (unfold writable; set_solver). split; [done|].
  assert (display q = q) as Et by (apply text_of; set_solver).
  unfold covers in Hc. simpl in Hc. rewrite Et in Hc. by apply andb_true_iff in Hc as [? _].
Qed.

Lemma view_hidden path hidden op : hidden ∈ home_hidden p -> path_starts_with path hidden = true ->
  path_starts_with hidden (pf_workspace p) = true
  \/ path_starts_with path (pf_workspace p) = false /\ granted p path = false ->
  shown h path (plan h p) = Some op -> exposes op = false.
Proof.
  intros Hh Hp Hor. rewrite places_shown.
  destruct (shown h path (map (hide h) (rehidden p))) as [o|] eqn:Er.
  { intros [= <-]. by apply rehidden_hides in Er as [? _]. }
  destruct Hor as [Hw|[Hw Hg]].
  - destruct (rehidden_covers path hidden) as [o Ho]; [|done|congruence].
    apply list_elem_of_In, filter_In. by rewrite <- list_elem_of_In.
  - rewrite Hw, (shown_plan_hidden path hidden Hh Hp Hg). by apply (base_hidden path hidden).
Qed.

Lemma view_write path op : shown h path (plan h p) = Some op -> lets_write op = true ->
  exists w, w ∈ writable p /\ path_starts_with path w = true.
Proof.
  rewrite places_shown. destruct (shown h path (map (hide h) (rehidden p))) as [o|] eqn:Er.
  { intros [= <-]. apply rehidden_hides in Er as [_ ?]. congruence. }
  destruct (path_starts_with path (pf_workspace p)) eqn:Ew.
  { intros _ _. exists (pf_workspace p). split; [unfold writable; set_solver|done]. }
  destruct (shown h path (shown_plan h p)) as [o|] eqn:Es.
  - intros [= <-]. by apply shown_plan_writable.
  - intros Hb Hlw. apply base_readonly in Hb. congruence.
Qed.

Lemma view_workspace path : path_starts_with path (pf_workspace p) = true ->
  existsb (path_starts_with path) (rehidden p) = false ->
  shown h path (plan h p) = Some (Bind false false (pf_workspace p) (pf_workspace p)).
Proof.
  intros Hw Hr. rewrite places_shown, Hw, shown_none.
  - unfold same_place. by rewrite (text_of (pf_workspace p)) by (unfold writable; set_solver).
  - intros o Ho. apply list_elem_of_In, in_map_iff in Ho as (q&<-&Hq).
    assert (display q = q) as Et.
    { apply text_of. apply filter_In in Hq as [Hq _]. apply list_elem_of_In in Hq. set_solver. }
    assert (path_starts_with path q = false) as Hf.
    { apply not_true_iff_false. intros Hpq. apply not_true_iff_false in Hr. apply Hr.
      apply existsb_exists. by exists q. }
    unfold covers, hide. destruct (h_is_dir h q); cbn [mounted_at]; by rewrite Et, Hf.
Qed.

End Confined.

(** C17: Whatever paths, variables and the command are called, bubblewrap reads
    the prefix as mounts under which credentials in the home stay out of sight
    unless the agent works inside them or was given them; credentials inside
    the workspace are hidden whatever was given; only the places an agent may
    write can be written; and the rest of the workspace is the workspace. *)
Theorem confined_view h s ws keep readable command :
  let p := agent_profile h s ws keep readable in
  lists_entries h -> all_text h p ->
  exists mounts, read_args (tail (bubblewrap h p ++ command)%list) = Some (mounts, command) /\
  forall path,
    (forall hidden op, hidden ∈ home_hidden p -> path_starts_with path hidden = true ->
       path_starts_with hidden (pf_workspace p) = true
       \/ path_starts_with path (pf_workspace p) = false /\ granted p path = false ->
       shown h path mounts = Some op -> exposes op = false)
    /\ (forall op, shown h path mounts = Some op -> lets_write op = true ->
          exists w, w ∈ writable p /\ path_starts_with path w = true)
    /\ (path_starts_with path (pf_workspace p) = true ->
          existsb (path_starts_with path) (rehidden p) = false ->
          shown h path mounts = Some (Bind false false (pf_workspace p) (pf_workspace p))).
Proof.
  intros p Hl Ht. exists (plan h p). split.
  { destruct (bubblewrap_reads_back h p command) as (args& -> &E). exact E. }
  intros path. split_and!.
  - intros hidden op. by apply view_hidden.
  - intros op. by apply view_write.
  - by apply view_workspace.
Qed.

(** ** The environment *)

(** The variables each runtime is told to drop: [--unsetenv], [--rmenv=] and
    the [-u] of [env]. *)
Fixpoint env_removed (args : list string) : list string :=
  match args with
  | o :: name :: rest => if bool_decide (o = "-u") then name :: env_removed rest else []
  | _ => []
  end.

Fixpoint rmenv_removed (args : list string) : list string :=
  match args with
  | [] => []
  | o :: rest =>
      if bool_decide (o = "--") then []
      else match Text.strip_prefix o "--rmenv=" with
           | Some name => name :: rmenv_removed rest
           | None => rmenv_removed rest
           end
  end.

Definition unset_name (op : BwrapOp) : option string := match op with Unsetenv name => Some name | _ => None end.

Definition removed (r : AgentRuntime) (command_line : list string) : list string :=
  match r with
  | AiJail => []
  | Bubblewrap =>
      match read_args (tail command_line) with Some (ops, _) => omap unset_name ops | None => [] end
  | SandboxExec => env_removed (drop 4 command_line)
  | Firejail => rmenv_removed (tail command_line)
  end.

Lemma env_removed_pairs names rest : hd "" rest <> "-u" ->
  env_removed (concat (map (fun name => ["-u"; name]) names) ++ rest)%list = names.
Proof.
  intros Hr. induction names as [|n names IH]; simpl; [|by rewrite IH].
  destruct rest as [|o [|a rest]]; [done|done|]. simpl in *. by rewrite bool_decide_eq_false_2.
Qed.

Lemma rmenv_skip args rest :
  Forall (fun o => o <> "--" /\ starts_with o "--rmenv=" = false) args ->
  rmenv_removed (args ++ rest)%list = rmenv_removed rest.
Proof.
  induction 1 as [|o args [Ho Hs] _ IH]; [done|]. simpl. rewrite bool_decide_eq_false_2 by done.
  unfold Text.strip_prefix. by rewrite Hs.
Qed.

Lemma rmenv_names names rest :
  rmenv_removed (map (fun name => "--rmenv=" +:+ name) names ++ "--" :: rest)%list = names.
Proof.
  induction names as [|n names IH]; [done|]. cbn [map app rmenv_removed].
  rewrite bool_decide_eq_false_2 by done. by rewrite (proj2 (strip_prefix_spec _ _ n) eq_refl), IH.
Qed.

Lemma omap_none (ops : list BwrapOp) : (forall op, op ∈ ops -> unset_name op = None) -> omap unset_name ops = [].
Proof.
  induction ops as [|op ops IH]; intros H; [done|]. simpl. rewrite (H op) by set_solver. apply IH. set_solver.
Qed.

Lemma plan_unsets h p : omap unset_name (plan h p) = strip_env p.
Proof.
  unfold plan. rewrite !omap_app.
  assert (forall (A : Type) (f : A -> BwrapOp) l, (forall x, unset_name (f x) = None) -> omap unset_name (map f l) = []) as Hm.
  { intros A f l H. induction l as [|a l IH]; [done|]. simpl. by rewrite H. }
  assert (omap unset_name (map Unsetenv (strip_env p)) = strip_env p) as ->.
  { induction (strip_env p) as [|n l IH]; [done|]. simpl. by f_equal. }
  unfold flags_plan, system_plan, home_plan, shown_plan. rewrite !omap_app.
  rewrite (Hm _ Flag), !(Hm _ (same_place true true)), !(Hm _ (same_place false true)), (Hm _ (hide h)) by
    (try done; intros x; unfold hide; by destruct (h_is_dir h x)).
  rewrite (Hm _ (fun path => Bind true true (display (canonical h path)) (display path))) by done.
  rewrite (omap_none (concat _)).
  - destruct (pf_network p); repeat case_match; reflexivity.
  - intros op. rewrite list_elem_of_In, in_concat. intros (ops&Hops&Ho).
    apply in_map_iff in Hops as ([dir t]&<-&_).
    repeat case_match; simpl in Ho; destruct Ho as [<-|[]] || destruct Ho; done.
Qed.

Lemma firejail_unsets h p command : rmenv_removed (tail (firejail h p ++ command)%list) = strip_env p.
Proof.
  unfold firejail. cbn [app tail]. rewrite <- !(assoc_L (++)%list). cbn [app].
  assert (forall (A : Type) (f : A -> string) l x rest, x <> "-" -> 
    (forall a, f a <> "--" /\ starts_with (f a) "--rmenv=" = false) ->
    rmenv_removed (map f l ++ rest)%list = rmenv_removed rest) as Hm.
  { intros A f l _ rest _ Hf. apply rmenv_skip. apply list.Forall_forall. intros o Ho.
    apply list_elem_of_In, in_map_iff in Ho as (a&<-&_). apply Hf. }
  pose proof (rmenv_skip ["--quiet"; "--noprofile"; "--nonewprivs"; "--caps.drop=all"; "--read-only=/"]) as H5.
  cbn [app] in H5. rewrite H5 by (repeat constructor; done).
  rewrite (rmenv_skip (if pf_network p then [] else ["--net=none"])) by
    (destruct (pf_network p); repeat constructor; done).
  rewrite !(Hm PathBuf _ _ "") by (try done; intros a; by split).
  apply rmenv_names.
Qed.

(** C18: Under every runtime that starts from the caller's environment, the
    variables removed are exactly those that are text and not kept, whatever
    the names and the command are. *)
Theorem agent_environment h s ws keep readable r prefix command :
  ag_runtime s = Some r -> r <> AiJail -> hd "" command <> "-u" ->
  launch_prefix h s ws keep readable = Some prefix ->
  forall name, name ∈ removed r (prefix ++ command)%list <->
    name ∈ h_env h /\ utf8_valid name = true /\ is_kept name (forwarded_env s ++ keep)%list = false.
Proof.
  intros Hr Hj Hc. unfold launch_prefix. rewrite Hr. intros [= <-] name.
  set (p := agent_profile h s ws keep readable).
  assert (name ∈ strip_env p <-> name ∈ h_env h /\ utf8_valid name = true
            /\ is_kept name (forwarded_env s ++ keep)%list = false) as <-.
  { unfold p, agent_profile, with_command_paths, for_workspace, variable_names. cbn [strip_env].
    rewrite list_elem_of_In, !filter_In, list_elem_of_In, negb_true_iff. tauto. }
  destruct r; [done| | |]; cbn [removed].
  - destruct (bubblewrap_reads_back h p command) as (args&->&E). cbn [app tail]. by rewrite E, plan_unsets.
  - unfold sandbox_exec. cbn [app drop]. unfold drop. by rewrite env_removed_pairs.
  - by rewrite firejail_unsets.
Qed.

(** ** Requiring confinement *)

Lemma works_spec h succeeds r :
  works h succeeds r = true <-> h_which h (program r) = true
    /\ succeeds (program r) (probe_args r
         match find (h_exists h) ["/usr/bin/true"; "/bin/true"] with Some p => p | None => "true" end) = true.
Proof.
  unfold works. rewrite bool_decide_eq_true, list_elem_of_In, filter_In. unfold probe.
  assert (In r ALL_RUNTIMES) as Hin by (destruct r; simpl; tauto).
  destruct (h_which h (program r)); simpl; naive_solver.
Qed.

Lemma allow_hosts hosts host rest : host ∈ hosts ->
  exists a b, (concat (map (fun host => ["--allow-host"; host]) hosts) ++ rest)%list
              = (a ++ "--allow-host" :: host :: b)%list.
Proof.
  intros (l1&l2&->)%list_elem_of_split. rewrite map_app, concat_app. cbn [map concat].
  eexists (concat (map _ l1)), (concat (map _ l2) ++ rest)%list. by rewrite <- !(assoc_L (++)%list).
Qed.

(** The runtimes a provider may use: the one its settings name, or any. *)
Definition candidates (runtime : string) : list AgentRuntime :=
  match from_config_name runtime with Some r => [r] | None => ALL_RUNTIMES end.

Lemma native_runtime h succeeds config runtime :
  sec_sandbox config = true ->
  native_sandbox h succeeds config runtime = with_runtime h config (find (works h succeeds) (candidates runtime)).
Proof.
  intros Hs. unfold native_sandbox, candidates, detect_only, detect. rewrite Hs.
  destruct (from_config_name runtime) as [r|]; [|done]. simpl. by destruct (works h succeeds r).
Qed.

(** What falls short, given the runtime chosen. *)
Lemma refuses_choice h config state o :
  sec_sandbox config = true -> require_agent_sandbox config = true ->
  refuses_agents (with_state state (with_runtime h config o)) = true <->
  forall r, o = Some r -> r <> AiJail /\ network_allowlist config <> [].
Proof.
  intros Hs Hr. unfold refuses_agents, level, with_state, with_runtime. simpl. rewrite Hs, Hr.
  destruct o as [r|]; simpl; [|naive_solver].
  repeat case_bool_decide; simpl; naive_solver.
Qed.

(** C25: Where agents must be confined, a provider refuses them exactly when no
    runtime it may use (the one its settings name, or any) works here, or hosts
    are restricted and the first that works is not ai-jail; otherwise it starts
    them behind the first that works, and tells ai-jail each host allowed.  All
    this while sandboxing is on: turned off, agents are neither refused nor
    confined. *)
Theorem required_confines h succeeds config runtime state ws keep readable :
  require_agent_sandbox config = true ->
  let s := with_state state (native_sandbox h succeeds config runtime) in
  if sec_sandbox config then
    (refuses_agents s = true <->
     forall r, find (works h succeeds) (candidates runtime) = Some r -> r <> AiJail /\ network_allowlist config <> [])
    /\ (refuses_agents s = false ->
        exists r prefix, launch_prefix h s ws keep readable = Some prefix
          /\ h_which h (program r) = true
          /\ (exists truth, succeeds (program r) (probe_args r truth) = true)
          /\ (exists a b, candidates runtime = (a ++ r :: b)%list /\ Forall (fun r' => works h succeeds r' = false) a)
          /\ forall host, host ∈ network_allowlist config ->
               r = AiJail /\ exists a b, prefix = (a ++ "--allow-host" :: host :: b)%list)
  else refuses_agents s = false /\ launch_prefix h s ws keep readable = None.
Proof.
  intros Hr s. subst s. destruct (sec_sandbox config) eqn:Hs.
  - rewrite native_runtime by done. split; [by apply refuses_choice|]. intros Hno.
    pose proof (refuses_choice h config state (find (works h succeeds) (candidates runtime)) Hs Hr) as Hch.
    destruct (find (works h succeeds) (candidates runtime)) as [r|] eqn:Er; [|naive_solver congruence].
    apply find_first in Er as (Hw&a&b&Hall&Ha). apply works_spec in Hw as [Hwh Hsu].
    eexists r, _. split; [unfold launch_prefix, with_state, with_runtime; cbn [ag_runtime]; rewrite Hs; reflexivity|].
    split_and!; [done|by eexists|by exists a, b|]. intros host Hin.
    assert (network_allowlist config <> []) as Hne by (intros E; rewrite E in Hin; set_solver).
    destruct (decide (r = AiJail)) as [->|Hj]; [|naive_solver congruence].
    split; [done|]. unfold ai_jail. cbn [allowed_hosts]. rewrite bool_decide_eq_false_2 by done.
    match goal with |- exists a b, (_ ++ _ ++ ?rest)%list = _ => destruct (allow_hosts (network_allowlist config) host rest Hin) as (x&y&->) end.
    eexists (["ai-jail"; "--exec"; "--clean"; "--no-save-config"; "--agent-state"] ++ x)%list, y. done.
  - unfold native_sandbox, detect_only, detect. rewrite Hs. simpl.
    destruct (from_config_name runtime); unfold refuses_agents, level, launch_prefix; simpl; rewrite Hs; simpl;
      by rewrite andb_false_r.
Qed.
