(* ===== verification/Git.v ===== *)
(** * Git-backed workspace safety ([cuma-workspace/src/git.rs])

    Checkpoints, worktrees and applying what was done in one.  Git itself is an
    argument: what running it with some arguments does to a repository and what
    it answers. *)

From S2P Require Export Errors Host.
Open Scope string_scope.
Open Scope Z_scope.

(** [GIT_TIMEOUT]: sixty seconds, in milliseconds. *)
Definition GIT_TIMEOUT_MS : Z := 60000.

Record Checkpoint := {
  ck_commit : string;
  ck_label : string;
  ck_had_changes : bool;
  ck_created_at : Z;
}.

Definition restore_hint (c : Checkpoint) : string :=
  if negb (ck_had_changes c) then "nothing was uncommitted, so there is nothing to restore"
  else "git restore --source=" +:+ ck_commit c +:+ " --worktree --overlay -- .".

Record Worktree := { wt_path : PathBuf; wt_branch : string; wt_repository : PathBuf }.

Record GitWorkspace := { gw_root : PathBuf; gw_is_repository : bool }.

Definition CUMA_STATE : list string := [".cuma/runtime.db*"; ".cuma/acp-sessions"; ".cuma/cache"].

Definition CUMA_STATE_GITIGNORE : string :=
  "# Written by CUMA: its own machine state, which does not belong in version" +:+ NL
  +:+ "# control. config.toml and skills/ are yours to commit or not." +:+ NL
  +:+ "runtime.db*" +:+ NL +:+ "acp-sessions/" +:+ NL +:+ "cache/" +:+ NL.

(** What [ensure_state_ignored] writes, if anything. *)
Definition ensure_state_ignored (h : Host) (workspace : PathBuf) : option (PathBuf * string) :=
  let directory := join_path workspace ".cuma" in
  let path := join_path directory ".gitignore" in
  if h_exists h path || negb (h_is_dir h directory) then None else Some (path, CUMA_STATE_GITIGNORE).

Definition ref_char (c : Z) : Z :=
  if is_ascii_alphanumeric c || (c =? 45) || (c =? 95) then c else 45.

Definition sanitize_ref (raw : string) : string :=
  let cleaned := map ref_char (chars raw) in
  let trimmed := rev (drop_while (fun c => c =? 45) (rev (drop_while (fun c => c =? 45) cleaned))) in
  let bounded := take 60 trimmed in
  if bool_decide (bounded = []) then "unnamed" else of_chars bounded.

(** ** Running git *)

Record GitCall := {
  gc_directory : PathBuf;
  gc_args : list string;
  gc_index_file : option PathBuf;
  gc_input : option string;
}.

Inductive GitOutcome : Type :=
  | GitExited (success : bool) (stdout stderr : string)
  | GitTimedOut
  | GitSpawnFailed (err : string).

(** [run_git] and [run_git_env]: what is made of an outcome. *)
Definition git_answer (args : list string) (o : GitOutcome) : Result string :=
  match o with
  | GitTimedOut => Err (ETimeout ("git " +:+ str_join " " args) GIT_TIMEOUT_MS)
  | GitSpawnFailed err => Err (EOther ("cannot run git: " +:+ err))
  | GitExited false _ stderr =>
      Err (EOther ("git " +:+ str_join " " args +:+ " failed: " +:+ trim (from_utf8_lossy stderr)))
  | GitExited true stdout _ => Ok (from_utf8_lossy stdout)
  end.

(** What git and the file system do: a call may change the repositories. *)
Record GitWorld (R : Type) := {
  gw_git : GitCall -> R -> R * GitOutcome;
  gw_exists : PathBuf -> R -> bool;
  gw_create_dirs : PathBuf -> R -> R * option string;
  gw_remove_file : PathBuf -> R -> R;
}.
Arguments gw_git {R}. Arguments gw_exists {R}. Arguments gw_create_dirs {R}. Arguments gw_remove_file {R}.

Section Operations.
Context {R : Type} (gitw : GitWorld R).

(** Operations change the world and give an answer or an error. *)
Definition GitM (A : Type) : Type := R -> R * Result A.

Definition g_ret {A} (a : A) : GitM A := fun r => (r, Ok a).
Definition g_err {A} (e : MetaAgentError) : GitM A := fun r => (r, Err e).
Definition g_bind {A B} (m : GitM A) (f : A -> GitM B) : GitM B :=
  fun r => match m r with (r', Ok a) => f a r' | (r', Err e) => (r', Err e) end.
Definition g_map_err {A} (f : MetaAgentError -> MetaAgentError) (m : GitM A) : GitM A :=
  fun r => match m r with (r', Err e) => (r', Err (f e)) | ok => ok end.
(** Keeping the answer instead of returning its error. *)
Definition g_try {A} (m : GitM A) : GitM (Result A) := fun r => let '(r', a) := m r in (r', Ok a).

Notation "'git!' x := m 'in' k" := (g_bind m (fun x => k)) (at level 200, x pattern, k at level 200).
Notation "'git?' x := m 'in' k" := (g_bind (g_try m) (fun x => k)) (at level 200, x pattern, k at level 200).

Definition run_git_env (directory : PathBuf) (args : list string) (index : option PathBuf)
    (input : option string) : GitM string :=
  fun r =>
    let '(r', o) := gw_git gitw {| gc_directory := directory; gc_args := args; gc_index_file := index;
                                   gc_input := input |} r in
    (r', git_answer args o).

Definition run_git (directory : PathBuf) (args : list string) : GitM string :=
  run_git_env directory args None None.

Definition git_detect (root : PathBuf) : GitM GitWorkspace :=
  git? answer := run_git root ["rev-parse"; "--git-dir"] in
  g_ret {| gw_root := root; gw_is_repository := match answer with Ok _ => true | Err _ => false end |}.

Context (g : GitWorkspace).

Definition has_uncommitted_changes : GitM bool :=
  if negb (gw_is_repository g) then g_ret false
  else
    git! output := run_git (gw_root g) ["status"; "--porcelain"] in
    g_ret (negb (bool_decide (trim output = ""))).

(** [line.get(3..)]: nothing when the line is shorter or the cut would fall
    inside a character. *)
Definition after_status (line : string) : option string :=
  if Nat.leb 3 (String.length line) && utf8_valid (String.substring 3 (String.length line - 3) line)
  then Some (String.substring 3 (String.length line - 3) line) else None.

Definition dirty_files : GitM (list string) :=
  if negb (gw_is_repository g) then g_ret []
  else
    git! output := run_git (gw_root g) ["status"; "--porcelain"] in
    g_ret (List.filter (fun path => negb (bool_decide (path = "")))
             (omap (fun line => option_map trim (after_status line)) (lines output))).

(** Committing the working tree through an index of its own. *)
Definition snapshot_tree (has_head : bool) (index : PathBuf) : GitM string :=
  git! _ := if has_head then run_git_env (gw_root g) ["read-tree"; "HEAD"] (Some index) None else g_ret "" in
  git! _ := run_git_env (gw_root g) ["add"; "-A"] (Some index) None in
  git! _ := run_git_env (gw_root g)
              (["rm"; "--cached"; "-r"; "-q"; "--ignore-unmatch"; "--"] ++ CUMA_STATE)%list (Some index) None in
  git! tree := run_git_env (gw_root g) ["write-tree"] (Some index) None in
  git! commit := run_git (gw_root g)
                   (["commit-tree"; trim tree; "-m"; "cuma: workspace snapshot"]
                    ++ if has_head then ["-p"; "HEAD"] else [])%list in
  g_ret (trim commit).

Definition snapshot (uuid_suffix : string) : GitM string :=
  if negb (gw_is_repository g) then g_err (EConfiguration "cannot snapshot outside a git repository")
  else
    git! index := run_git (gw_root g) ["rev-parse"; "--git-path"; "cuma-snapshot-index"] in
    let index := with_extension (join_path (gw_root g) (trim index)) uuid_suffix in
    git? head := run_git (gw_root g) ["rev-parse"; "--verify"; "--quiet"; "HEAD"] in
    fun r =>
      let '(r1, result) := snapshot_tree (match head with Ok _ => true | Err _ => false end) index r in
      (gw_remove_file gitw index r1, result).

Definition checkpoint_ref (label : string) : string := "refs/cuma/checkpoints/" +:+ sanitize_ref label.

Definition checkpoint (uuid_suffix label : string) (now : Z) : GitM Checkpoint :=
  if negb (gw_is_repository g) then g_err (EConfiguration "cannot checkpoint outside a git repository")
  else
    git! had_changes := has_uncommitted_changes in
    if negb had_changes then
      git? head := run_git (gw_root g) ["rev-parse"; "HEAD"] in
      g_ret {| ck_commit := trim (match head with Ok h => h | Err _ => "" end); ck_label := label;
               ck_had_changes := false; ck_created_at := now |}
    else
      git! commit := snapshot uuid_suffix in
      if bool_decide (commit = "")
      then g_err (EOther "git reported changes but produced no checkpoint commit")
      else
        git! _ := run_git (gw_root g) ["update-ref"; checkpoint_ref label; commit] in
        g_ret {| ck_commit := commit; ck_label := label; ck_had_changes := true; ck_created_at := now |}.

Definition already_exists (path : PathBuf) : MetaAgentError :=
  EOther ("worktree path " +:+ from_utf8_lossy path +:+ " already exists").

Definition create_worktree (task_id : string) (base : PathBuf) : GitM Worktree :=
  if negb (gw_is_repository g)
  then g_err (EConfiguration "cannot create a worktree outside a git repository")
  else
    let slug := sanitize_ref task_id in
    let branch := "cuma/" +:+ slug in
    let path := join_path base slug in
    fun r =>
      if gw_exists gitw path r then (r, Err (already_exists path))
      else (git! _ := run_git (gw_root g) ["worktree"; "add"; "-b"; branch; from_utf8_lossy path; "HEAD"] in
            g_ret {| wt_path := path; wt_branch := branch; wt_repository := gw_root g |}) r.

Definition remove_worktree (w : Worktree) : GitM unit :=
  git? removed := run_git (gw_root g) ["worktree"; "remove"; "--force"; from_utf8_lossy (wt_path w)] in
  match removed with
  | Err _ => g_ret tt
  | Ok _ => git? _ := run_git (gw_root g) ["branch"; "-D"; wt_branch w] in g_ret tt
  end.

Definition merge_worktree (w : Worktree) : GitM string :=
  git? _ := run_git (wt_path w) ["add"; "-A"] in
  git? _ := run_git (wt_path w) ["commit"; "-m"; "cuma: " +:+ wt_branch w] in
  git? merged := run_git (gw_root g) ["merge"; "--no-ff"; wt_branch w] in
  match merged with
  | Ok output => g_ret output
  | Err err =>
      git? _ := run_git (gw_root g) ["merge"; "--abort"] in
      g_err (EOther ("merging " +:+ wt_branch w +:+ " needs a human: " +:+ error_display err))
  end.

Definition create_detached_worktree (label : string) (base : PathBuf) (commit : string) : GitM Worktree :=
  if negb (gw_is_repository g)
  then g_err (EConfiguration "cannot create a worktree outside a git repository")
  else
    let path := join_path base (sanitize_ref label) in
    fun r =>
      if gw_exists gitw path r then (r, Err (already_exists path))
      else
        let '(r1, made) :=
          match parent path with
          | None => (r, Ok tt)
          | Some up =>
              match gw_create_dirs gitw up r with
              | (r1, None) => (r1, Ok tt)
              | (r1, Some err) => (r1, Err (EOther ("cannot create " +:+ from_utf8_lossy up +:+ ": " +:+ err)))
              end
          end in
        match made with
        | Err e => (r1, Err e)
        | Ok _ =>
            (git! _ := run_git (gw_root g) ["worktree"; "add"; "--detach"; from_utf8_lossy path; commit] in
             g_ret {| wt_path := path; wt_branch := ""; wt_repository := gw_root g |}) r1
        end.

Definition no_longer_applies (w : Worktree) (err : MetaAgentError) : MetaAgentError :=
  EOther ("the changes in " +:+ from_utf8_lossy (wt_path w) +:+ " no longer apply to the workspace: " +:+ error_display err).

Definition apply_worktree (w : Worktree) (base : string) : GitM (list string) :=
  git! _ := run_git (wt_path w) ["add"; "-A"] in
  git! changed := run_git (wt_path w) ["diff"; "--cached"; "--name-only"; base] in
  let changed := List.filter (fun l => negb (bool_decide (l = ""))) (lines changed) in
  if bool_decide (changed = []) then g_ret changed
  else
    git! patch := run_git (wt_path w) ["diff"; "--cached"; "--binary"; base] in
    git! _ := g_map_err (no_longer_applies w)
                (run_git_env (gw_root g) ["apply"; "--check"; "--binary"; "-"] None (Some patch)) in
    git! _ := run_git_env (gw_root g) ["apply"; "--binary"; "-"] None (Some patch) in
    g_ret changed.

Definition checkpoints : GitM (list string) :=
  if negb (gw_is_repository g) then g_ret []
  else
    git! output := run_git (gw_root g) ["for-each-ref"; "--format=%(refname)"; "refs/cuma/checkpoints"] in
    g_ret (lines output).

End Operations.

(** ** Theorems

    What a snapshot, a checkpoint and applying a worktree leave as it was, for
    any git that keeps what its documentation says of a few commands. *)

(** ** Names of refs *)

Definition slug_char (c : Z) : bool := is_ascii_alphanumeric c || (c =? 45) || (c =? 95).

Lemma ref_char_slug c : slug_char (ref_char c) = true.
Proof. unfold ref_char, slug_char. destruct (is_ascii_alphanumeric c || _ || _) eqn:E; [exact E|reflexivity]. Qed.

Lemma ref_char_id c : slug_char c = true -> ref_char c = c.
Proof. unfold ref_char, slug_char. by intros ->. Qed.

Lemma drop_while_head p l : match drop_while p l with c :: _ => p c = false | [] => True end.
Proof. induction l as [|c l IH]; simpl; [done|]. destruct (p c) eqn:E; [exact IH|exact E]. Qed.

Lemma slug_char_ascii c : slug_char c = true -> 0 <= c < 128.
Proof.
  unfold slug_char, is_ascii_alphanumeric, is_ascii_digit, is_ascii_upper, is_ascii_lower.
  intros. destruct_bools; lia.
Qed.

Lemma sanitized_chars raw :
  exists l, sanitize_ref raw = of_chars l /\ l <> [] /\ (length l <= 60)%nat /\ Forall (fun c => slug_char c = true) l
    /\ hd 0 l <> 45 /\ (l = chars "unnamed" \/ exists k, l = take 60 k /\ hd 0 (rev k) <> 45).
Proof.
  unfold sanitize_ref. set (cleaned := map ref_char (chars raw)).
  set (front := drop_while (fun c => c =? 45) cleaned).
  set (trimmed := rev (drop_while (fun c => c =? 45) (rev front))).
  assert (Forall (fun c => slug_char c = true) cleaned) as Hc.
  { unfold cleaned. clear. induction (chars raw); constructor; [apply ref_char_slug|done]. }
  assert (Forall (fun c => slug_char c = true) trimmed /\ exists k, front = (trimmed ++ k)%list) as [Ht [k Hk]].
  { unfold trimmed. destruct (drop_while_suffix (fun c => c =? 45) cleaned) as [k1 E1]. fold front in E1.
    destruct (drop_while_suffix (fun c => c =? 45) (rev front)) as [k2 E2].
    apply (f_equal (@rev Z)) in E2. rewrite rev_involutive, rev_app_distr in E2. split; [|by eexists].
    rewrite E1, E2 in Hc. rewrite !Forall_app in Hc. tauto. }
  assert (hd 0 (rev trimmed) <> 45) as Hlast.
  { unfold trimmed. rewrite rev_involutive. pose proof (drop_while_head (fun c => c =? 45) (rev front)) as Hh.
    destruct (drop_while _ (rev front)); simpl; lia. }
  case_bool_decide as E.
  - exists (chars "unnamed"). split_and!; try done; [vm_compute; lia|by repeat constructor|by left].
  - exists (take 60 trimmed). split_and!; try done.
    + rewrite length_take. lia.
    + by apply Forall_take.
    + pose proof (drop_while_head (fun c => c =? 45) cleaned) as Hh. fold front in Hh.
      destruct trimmed as [|c t]; [done|]. rewrite Hk in Hh. simpl in *. lia.
    + right. by exists trimmed.
Qed.

(** What a label is turned into is always acceptable in a ref and as a
    directory's name: one to sixty letters, digits, dashes and underscores, not
    starting with a dash; sanitizing it again changes at most a dash at its end. *)
Theorem sanitize_ref_safe raw :
  let slug := sanitize_ref raw in
  Forall (fun c => slug_char c = true) (bytes slug)
  /\ (1 <= String.length slug <= 60)%nat /\ starts_with slug "-" = false
  /\ components slug = [Normal slug]
  /\ (ends_with slug "-" = false -> sanitize_ref slug = slug).
Proof.
  destruct (sanitized_chars raw) as (l&E&Hne&Hl&Hs&Hh&_). intros slug. subst slug. rewrite E.
  assert (Forall (fun c => 0 <= c < 128) l) as Ha.
  { eapply list.Forall_impl; [exact Hs|]. intros c. apply slug_char_ascii. }
  pose proof (bytes_of_ascii l Ha) as Hb.
  assert (String.length (of_chars l) = length l) as Hlen by (by rewrite <- bytes_length, Hb).
  assert (starts_with (of_chars l) "-" = false) as Hd.
  { apply not_true_iff_false. intros [t Ht]%starts_with_spec. apply Hh. rewrite <- Hb, Ht. reflexivity. }
  assert (byte_of SLASH ∉ bytes (of_chars l)) as Hsl.
  { rewrite Hb. intros Hin. rewrite list.Forall_forall in Hs. by apply Hs in Hin. }
  assert (forall c, c ∈ bytes (of_chars l) -> c <> 46) as Hdot.
  { rewrite Hb. intros c Hin ->. rewrite list.Forall_forall in Hs. by apply Hs in Hin. }
  assert (of_chars l <> "") as Hnil by (intros Hn; rewrite Hn in Hlen; by destruct l).
  split_and!; [by rewrite Hb|rewrite Hlen; destruct l; [done|simpl in *; lia]|rewrite Hlen; lia|done| |].
  - unfold components. rewrite split_char_plain by done.
    assert (starts_with (of_chars l) "/" = false) as ->.
    { apply not_true_iff_false. intros [t Ht]%starts_with_spec. apply Hsl. rewrite Ht. simpl. set_solver. }
    assert (forall q, q = "." \/ q = ".." -> of_chars l <> q) as Hq.
    { intros q [->| ->] Eq; apply (Hdot 46); try done; rewrite Eq; simpl; set_solver. }
    cbn [map concat]. unfold piece_component. by rewrite !bool_decide_eq_false_2 by auto.
  - intros He. unfold sanitize_ref. rewrite chars_of_ascii by done.
    assert (map ref_char l = l) as ->.
    { clear -Hs. induction Hs as [|c l Hc _ IH]; simpl; [done|]. by rewrite ref_char_id, IH. }
    assert (forall k, hd 0 k <> 45 -> drop_while (fun c => c =? 45) k = k) as Hdw.
    { intros [|c k] Hk; simpl in *; [done|]. by assert ((c =? 45) = false) as -> by lia. }
    rewrite (Hdw l Hh), Hdw, rev_involutive.
    + rewrite take_ge, bool_decide_eq_false_2 by (done || lia). done.
    + intros Hr. destruct (rev l) as [|c t] eqn:Er; [done|]. simpl in Hr. subst c.
      apply (f_equal (@rev Z)) in Er. rewrite rev_involutive in Er. simpl in Er.
      apply not_true_iff_false in He. apply He, ends_with_spec. exists (of_chars (rev t)).
      rewrite Er. apply of_chars_app.
Qed.

(** ** Git, as documented *)

(** What there is to see of a repository: for the directory of each working tree,
    its files [W]; the index files, by their path, [I]; the refs, what HEAD
    would put into an index, and the tree of a commit.  And what git makes of
    these: staging a working tree into an index, dropping paths from one, the
    id of an index's tree, the difference to a commit, a tree with a patch
    applied. *)
Record GitView (R W I : Type) := {
  v_git_dir : PathBuf -> PathBuf;
  v_work : PathBuf -> R -> W;
  v_index : list Component -> R -> option I;
  v_refs : R -> string -> option string;
  v_head : PathBuf -> R -> option I;
  v_commit : R -> string -> option string;
  v_staged : PathBuf -> W -> option I -> I;
  v_without : PathBuf -> list string -> option I -> option I;
  v_tree : option I -> string;
  v_diff : PathBuf -> string -> option I -> string;
  v_patched : PathBuf -> string -> W -> option W;
}.
Arguments v_git_dir {R W I}. Arguments v_work {R W I}. Arguments v_index {R W I}. Arguments v_refs {R W I}.
Arguments v_head {R W I}. Arguments v_commit {R W I}. Arguments v_staged {R W I}. Arguments v_without {R W I}.
Arguments v_tree {R W I}. Arguments v_diff {R W I}. Arguments v_patched {R W I}.

Definition first_arg (args : list string) : string := hd "" args.

(** Commands that only look, or write objects nothing refers to. *)
Definition looks (args : list string) : bool :=
  bool_decide (first_arg args ∈ ["rev-parse"; "status"; "for-each-ref"; "diff"; "write-tree"; "commit-tree"])
  || bool_decide (take 2 args = ["apply"; "--check"]).

(** Commands that write an index, and nothing else. *)
Definition stages (args : list string) : bool :=
  bool_decide (args = ["read-tree"; "HEAD"]) || bool_decide (args = ["add"; "-A"])
  || bool_decide (take 2 args = ["rm"; "--cached"]).

Section Laws.
Context {R W I : Type} (gitw : GitWorld R) (v : GitView R W I).

(** The index git uses in a directory, a snapshot's own, and that of a call. *)
Definition own_index (d : PathBuf) : list Component := components (v_git_dir v d) ++ [Normal "index"].
Definition snapshot_index (d : PathBuf) (suffix : string) : list Component :=
  components (v_git_dir v d) ++ [Normal ("cuma-snapshot-index." +:+ suffix)].
Definition index_of (c : GitCall) : list Component :=
  match gc_index_file c with Some p => components p | None => own_index (gc_directory c) end.
Definition an_index (p : list Component) : Prop :=
  exists d, p = own_index d \/ exists suffix, p = snapshot_index d suffix.

(** All but one index and one ref are as they were. *)
Record frame (index : option (list Component)) (ref : option string) (r r' : R) : Prop := {
  fr_work d : v_work v d r' = v_work v d r;
  fr_index p : index <> Some p -> v_index v p r' = v_index v p r;
  fr_refs name : ref <> Some name -> v_refs v r' name = v_refs v r name;
  fr_head d : ref = None -> v_head v d r' = v_head v d r;
  fr_commit c t : v_commit v r c = Some t -> v_commit v r' c = Some t;
}.

(** Git's documentation, hooks and filters of the user's own left aside: what
    each command changes, however it ends, and what it did when it succeeded. *)
Class GitLaws : Prop := {
  look_frame c r : looks (gc_args c) = true -> frame None None r (fst (gw_git gitw c r));
  stage_frame c r : stages (gc_args c) = true -> an_index (index_of c) ->
    frame (Some (index_of c)) None r (fst (gw_git gitw c r));
  remove_frame p d suffix r : components p = snapshot_index d suffix ->
    frame (Some (components p)) None r (gw_remove_file gitw p r);
  update_ref_frame c r name commit : gc_args c = ["update-ref"; name; commit] ->
    frame None (Some name) r (fst (gw_git gitw c r));
  update_ref_sets c r name commit r' out err : gc_args c = ["update-ref"; name; commit] ->
    gw_git gitw c r = (r', GitExited true out err) -> v_refs v r' name = Some commit;
  git_path_names c r r' out err : gc_args c = ["rev-parse"; "--git-path"; "cuma-snapshot-index"] ->
    utf8_valid (v_git_dir v (gc_directory c)) = true -> gw_git gitw c r = (r', GitExited true out err) ->
    components (join_path (gc_directory c) (trim (from_utf8_lossy out)))
    = (components (v_git_dir v (gc_directory c)) ++ [Normal "cuma-snapshot-index"])%list;
  verify_head c r r' b out err : gc_args c = ["rev-parse"; "--verify"; "--quiet"; "HEAD"] ->
    gw_git gitw c r = (r', GitExited b out err) -> (b = false <-> v_head v (gc_directory c) r = None);
  read_tree_reads c r r' out err : gc_args c = ["read-tree"; "HEAD"] -> an_index (index_of c) ->
    gw_git gitw c r = (r', GitExited true out err) -> v_index v (index_of c) r' = v_head v (gc_directory c) r;
  add_stages c r r' out err : gc_args c = ["add"; "-A"] -> an_index (index_of c) ->
    gw_git gitw c r = (r', GitExited true out err) ->
    v_index v (index_of c) r'
    = Some (v_staged v (gc_directory c) (v_work v (gc_directory c) r) (v_index v (index_of c) r));
  rm_drops c r paths r' out err :
    gc_args c = (["rm"; "--cached"; "-r"; "-q"; "--ignore-unmatch"; "--"] ++ paths)%list -> an_index (index_of c) ->
    gw_git gitw c r = (r', GitExited true out err) ->
    v_index v (index_of c) r' = v_without v (gc_directory c) paths (v_index v (index_of c) r);
  write_tree_names c r r' out err : gc_args c = ["write-tree"] ->
    gw_git gitw c r = (r', GitExited true out err) -> trim (from_utf8_lossy out) = v_tree v (v_index v (index_of c) r);
  commit_tree_commits c r t rest r' out err : gc_args c = "commit-tree" :: t :: rest ->
    gw_git gitw c r = (r', GitExited true out err) -> v_commit v r' (trim (from_utf8_lossy out)) = Some t;
  diff_shows c r base r' out err : gc_args c = ["diff"; "--cached"; "--binary"; base] ->
    gw_git gitw c r = (r', GitExited true out err) -> out = v_diff v (gc_directory c) base (v_index v (index_of c) r);
  check_applies c r patch r' out err : gc_args c = ["apply"; "--check"; "--binary"; "-"] -> gc_input c = Some patch ->
    gw_git gitw c r = (r', GitExited true out err) ->
    v_patched v (gc_directory c) patch (v_work v (gc_directory c) r) <> None;
  apply_frame c r : gc_args c = ["apply"; "--binary"; "-"] ->
    let r' := fst (gw_git gitw c r) in
    (forall p, v_index v p r' = v_index v p r) /\ (forall name, v_refs v r' name = v_refs v r name);
  apply_applies c r patch r' out err : gc_args c = ["apply"; "--binary"; "-"] -> gc_input c = Some patch ->
    gw_git gitw c r = (r', GitExited true out err) ->
    v_patched v (gc_directory c) patch (v_work v (gc_directory c) r) = Some (v_work v (gc_directory c) r');
}.

#[export] Instance frame_preorder index ref : PreOrder (frame index ref).
Proof.
  split; [by split|]. intros a b c [H1 H2 H3 H4 H5] [G1 G2 G3 G4 G5].
  split; intros; [by rewrite G1|by rewrite G2, H2|by rewrite G3, H3|by rewrite G4, H4|auto].
Qed.

Lemma frame_wider index ref r r' : frame None None r r' -> frame index ref r r'.
Proof. intros [H1 H2 H3 H4 H5]. by split; auto. Qed.

Lemma frame_index index ref r r' : frame index None r r' -> frame index (Some ref) r r'.
Proof. intros [H1 H2 H3 H4 H5]. by split; auto. Qed.

Lemma frame_ref index ref r r' : frame None (Some ref) r r' -> frame index (Some ref) r r'.
Proof. intros [H1 H2 H3 H4 H5]. by split; auto. Qed.

(** Operations that write one index at most, whatever they answer. *)
Definition keeps {A} (index : list Component) (m : GitM A) : Prop := forall r, frame (Some index) None r (fst (m r)).

Lemma keeps_ret {A} index (a : A) : keeps index (g_ret a).
Proof. intros r. cbn. reflexivity. Qed.

Lemma keeps_bind {A B} index (m : GitM A) (f : A -> GitM B) :
  keeps index m -> (forall a, keeps index (f a)) -> keeps index (g_bind m f).
Proof.
  intros Hm Hf r. unfold g_bind. pose proof (Hm r) as H. destruct (m r) as [r1 [a|e]]; [|exact H].
  etransitivity; [exact H|]. apply Hf.
Qed.

Context {laws : GitLaws}.

Lemma keeps_look index d args file input : looks args = true -> keeps index (run_git_env gitw d args file input).
Proof.
  intros Hq r. unfold run_git_env.
  pose proof (look_frame {| gc_directory := d; gc_args := args; gc_index_file := file; gc_input := input |} r Hq) as H.
  destruct (gw_git gitw _ r). by apply frame_wider.
Qed.

Lemma keeps_stage d args file input :
  stages args = true -> an_index (components file) -> keeps (components file) (run_git_env gitw d args (Some file) input).
Proof.
  intros Hq Ha r. unfold run_git_env.
  pose proof (stage_frame {| gc_directory := d; gc_args := args; gc_index_file := Some file; gc_input := input |} r Hq Ha) as H.
  by destruct (gw_git gitw _ r).
Qed.

Lemma look_step d args file input r r' a :
  run_git_env gitw d args file input r = (r', a) -> looks args = true -> frame None None r r'.
Proof.
  unfold run_git_env. intros E Hq.
  pose proof (look_frame {| gc_directory := d; gc_args := args; gc_index_file := file; gc_input := input |} r Hq) as H.
  destruct (gw_git gitw _ r). by injection E as <- _.
Qed.

(** ** Snapshots *)

Lemma g_bind_ok {A B} (m : GitM A) (f : A -> GitM B) (r r' : R) b :
  g_bind m f r = (r', Ok b) -> exists r1 a, m r = (r1, Ok a) /\ f a r1 = (r', Ok b).
Proof. unfold g_bind. destruct (m r) as [r1 [a|e]]; [eauto|done]. Qed.

Lemma run_git_ok d args file input r r' a :
  run_git_env gitw d args file input r = (r', Ok a) ->
  exists out err, a = from_utf8_lossy out /\
    gw_git gitw {| gc_directory := d; gc_args := args; gc_index_file := file; gc_input := input |} r
    = (r', GitExited true out err).
Proof.
  unfold run_git_env. destruct (gw_git gitw _ r) as [r1 o]. intros [= <- H].
  destruct o as [[] out err| |err]; try done. injection H as <-. eauto.
Qed.

Context (g : GitWorkspace).

Lemma keeps_snapshot_tree has_head file :
  an_index (components file) -> keeps (components file) (snapshot_tree gitw g has_head file).
Proof.
  intros Ha. unfold snapshot_tree, run_git.
  repeat (apply keeps_bind; [|intros ?]); try apply keeps_ret; try (by apply keeps_look);
    [destruct has_head; [|apply keeps_ret]|..]; by apply keeps_stage.
Qed.

(** The commit of a snapshot has the tree of what is staged of the working tree,
    starting from HEAD, less CUMA's state. *)
Lemma snapshot_tree_commits has_head file r r' commit :
  an_index (components file) -> snapshot_tree gitw g has_head file r = (r', Ok commit) ->
  let start := if has_head then v_head v (gw_root g) r else v_index v (components file) r in
  v_commit v r' commit
  = Some (v_tree v (v_without v (gw_root g) CUMA_STATE (Some (v_staged v (gw_root g) (v_work v (gw_root g) r) start)))).
Proof.
  intros Ha H. unfold snapshot_tree, run_git in H.
  apply g_bind_ok in H as (r1&u&H1&H). apply g_bind_ok in H as (r2&o2&H2&H). apply g_bind_ok in H as (r3&o3&H3&H).
  apply g_bind_ok in H as (r4&tree&H4&H). apply g_bind_ok in H as (r5&id&H5&H). injection H as <- <-.
  apply run_git_ok in H2 as (out2&err2&->&H2), H3 as (out3&err3&->&H3), H4 as (out4&err4&->&H4), H5 as (out5&err5&->&H5).
  assert (v_work v (gw_root g) r1 = v_work v (gw_root g) r /\
    v_index v (components file) r1 = if has_head then v_head v (gw_root g) r else v_index v (components file) r) as [Hw Hi].
  { destruct has_head; [|by injection H1 as <- <-]. apply run_git_ok in H1 as (out1&err1&->&H1). split.
    - pose proof (stage_frame {| gc_directory := gw_root g; gc_args := ["read-tree"; "HEAD"]; gc_index_file := Some file;
        gc_input := None |} r eq_refl Ha) as F. rewrite H1 in F. apply F.
    - by eapply read_tree_reads in H1. }
  eapply commit_tree_commits in H5; [|reflexivity]. eapply write_tree_names in H4; [|reflexivity].
  eapply rm_drops in H3; [|reflexivity|exact Ha]. eapply add_stages in H2; [|reflexivity|exact Ha].
  cbn [index_of gc_index_file gc_directory] in *. by rewrite H5, H4, H3, H2, Hw, Hi.
Qed.

(** The suffix of a temporary index: digits of the process and of the moment. *)
Definition index_suffix (suffix : string) : Prop :=
  suffix <> "" /\ Forall (fun b => is_ascii_digit b = true \/ b = 45) (bytes suffix).

Lemma index_entry suffix : index_suffix suffix -> entry_name ("cuma-snapshot-index" +:+ "." +:+ suffix).
Proof.
  intros [_ H]. apply ascii_entry; [|rewrite length_append; cbn; lia].
  apply (bytes_forall_app _ "cuma-snapshot-index." suffix).
  - vm_compute. repeat constructor; done.
  - eapply list.Forall_impl; [exact H|]. unfold is_ascii_digit. intros b. cbn. lia.
Qed.

Lemma snapshot_file suffix p :
  index_suffix suffix ->
  components p = (components (v_git_dir v (gw_root g)) ++ [Normal "cuma-snapshot-index"])%list ->
  components (with_extension p suffix) = snapshot_index (gw_root g) suffix.
Proof.
  intros Hs Hp. apply (with_extension_beside p _ "cuma-snapshot-index"); [done| |apply Hs|by apply index_entry].
  apply (bool_decide_unpack _). vm_compute. exact Logic.I.
Qed.

Hypothesis git_dir_text : utf8_valid (v_git_dir v (gw_root g)) = true.

Lemma git_path_file r r' a :
  run_git gitw (gw_root g) ["rev-parse"; "--git-path"; "cuma-snapshot-index"] r = (r', Ok a) ->
  components (join_path (gw_root g) (trim a))
  = (components (v_git_dir v (gw_root g)) ++ [Normal "cuma-snapshot-index"])%list.
Proof.
  intros (out&err&->&H)%run_git_ok. by eapply git_path_names in H.
Qed.

Lemma snapshot_index_is suffix : an_index (snapshot_index (gw_root g) suffix).
Proof. exists (gw_root g). right. by exists suffix. Qed.

Lemma keeps_snapshot suffix :
  index_suffix suffix -> keeps (snapshot_index (gw_root g) suffix) (snapshot gitw g suffix).
Proof.
  intros Hs r. unfold snapshot. destruct (negb _); [reflexivity|]. unfold g_bind at 1.
  pose proof (keeps_look (snapshot_index (gw_root g) suffix) (gw_root g)
    ["rev-parse"; "--git-path"; "cuma-snapshot-index"] None None eq_refl r) as H1.
  destruct (run_git gitw (gw_root g) _ r) as [r1 [a|e]] eqn:E1; unfold run_git in E1; rewrite E1 in H1; [|exact H1].
  apply git_path_file, (snapshot_file suffix _ Hs) in E1. set (file := with_extension _ suffix) in *. rewrite <- E1 in *.
  etransitivity; [exact H1|]. apply (keeps_bind (components file)).
  { intros r2. unfold g_try. pose proof (keeps_look (components file) (gw_root g)
      ["rev-parse"; "--verify"; "--quiet"; "HEAD"] None None eq_refl r2) as H. unfold run_git. by destruct (run_git_env _ _ _ _ _ r2). }
  intros head r2. assert (an_index (components file)) as Ha by (rewrite E1; apply snapshot_index_is).
  pose proof (keeps_snapshot_tree (match head with Ok _ => true | Err _ => false end) file Ha r2) as H3.
  destruct (snapshot_tree gitw g _ file r2) as [r3 res]. etransitivity; [exact H3|]. by eapply remove_frame.
Qed.

(** No process of git's answered, or none was there in time. *)
Definition unanswered (c : GitCall) (r : R) : Prop := forall b out err, snd (gw_git gitw c r) <> GitExited b out err.

Definition verify_call : GitCall :=
  {| gc_directory := gw_root g; gc_args := ["rev-parse"; "--verify"; "--quiet"; "HEAD"]; gc_index_file := None;
     gc_input := None |}.

(** The tree of what is staged of the working tree, starting from an index, less
    CUMA's state. *)
Definition snapshot_of (start : option I) (r : R) : string :=
  v_tree v (v_without v (gw_root g) CUMA_STATE (Some (v_staged v (gw_root g) (v_work v (gw_root g) r) start))).

Lemma snapshot_commits suffix r r' commit :
  index_suffix suffix -> v_index v (snapshot_index (gw_root g) suffix) r = None ->
  snapshot gitw g suffix r = (r', Ok commit) ->
  v_commit v r' commit = Some (snapshot_of (v_head v (gw_root g) r) r)
  \/ (exists r0, unanswered verify_call r0) /\ v_commit v r' commit = Some (snapshot_of None r).
Proof.
  intros Hs Hnew. unfold snapshot. destruct (negb _); [done|]. intros (r1&a&E1&H)%g_bind_ok.
  pose proof (look_step _ _ _ _ _ _ _ E1 eq_refl) as F1.
  apply git_path_file, (snapshot_file suffix _ Hs) in E1. set (file := with_extension _ suffix) in *.
  apply g_bind_ok in H as (r2&head&E2&H).
  unfold g_try, run_git, run_git_env in E2. fold verify_call in E2.
  pose proof (look_frame verify_call r1 eq_refl) as F2.
  destruct (gw_git gitw verify_call r1) as [r2' o] eqn:E3. cbn [fst] in F2. injection E2 as <- Eh.
  destruct (snapshot_tree gitw g _ file r2') as [r3 res] eqn:E4. injection H as <- ->.
  apply snapshot_tree_commits in E4; [|rewrite E1; apply snapshot_index_is]. cbv zeta in E4.
  pose proof (remove_frame file (gw_root g) suffix r3 E1) as F3. apply (fr_commit _ _ _ _ F3) in E4.
  rewrite (fr_work _ _ _ _ F2), (fr_work _ _ _ _ F1) in E4.
  rewrite E1 in E4.
  assert (v_head v (gw_root g) r2' = v_head v (gw_root g) r) as Hh
    by (by rewrite (fr_head _ _ _ _ F2), (fr_head _ _ _ _ F1)).
  assert (v_index v (snapshot_index (gw_root g) suffix) r2' = None) as Hi
    by (by rewrite (fr_index _ _ _ _ F2), (fr_index _ _ _ _ F1)).
  rewrite Hh, Hi in E4. unfold snapshot_of. destruct o as [b out err| |err]; cbn [git_answer] in Eh.
  - left. eapply verify_head in E3; [|reflexivity]. cbn [gc_directory verify_call] in E3.
    rewrite (fr_head _ _ _ _ F1) in E3 by done. destruct b; subst head; [exact E4|]. by rewrite (proj1 E3).
  - right. split; [|by subst head]. exists r1. intros b out err. by rewrite E3.
  - right. split; [|by subst head]. exists r1. intros b out err'. by rewrite E3.
Qed.
End Laws.

Arguments GitLaws {R W I} gitw v.
Arguments frame {R W I} v index ref r r'.

(** What a checkpoint leaves behind, with and without changes to save. *)
Lemma has_changes_look {R W I} (gitw : GitWorld R) (v : GitView R W I) g r r' a :
  GitLaws gitw v -> has_uncommitted_changes gitw g r = (r', a) -> frame v None None r r'.
Proof.
  intros L. unfold has_uncommitted_changes. destruct (negb _); [intros [= <- _]; reflexivity|]. unfold g_bind.
  destruct (run_git gitw _ _ r) as [r1 o] eqn:E. eapply look_step in E; [|exact L|reflexivity].
  destruct o; by intros [= <- _].
Qed.

Lemma update_ref_step {R W I} (gitw : GitWorld R) (v : GitView R W I) d name commit r r' a :
  GitLaws gitw v -> run_git gitw d ["update-ref"; name; commit] r = (r', a) ->
  frame v None (Some name) r r' /\ (is_ok a = true -> v_refs v r' name = Some commit).
Proof.
  intros L. unfold run_git, run_git_env.
  match goal with |- context [gw_git gitw ?c r] => pose proof (update_ref_frame gitw v c r name commit eq_refl) as F;
    pose proof (update_ref_sets gitw v c r name commit) as U; destruct (gw_git gitw c r) as [r1 o] eqn:E end.
  intros [= <- <-]. split; [exact F|]. destruct o as [[] out err| |err]; try done. intros _. by eapply U.
Qed.

(** C28: Taking a checkpoint changes no working tree, no index of the user's and
    no other ref than the checkpoint's own, whatever git answers.  On success
    with changes that ref names a commit whose tree is what staging the working
    tree onto HEAD comes to, less CUMA's state (onto nothing when git did not
    answer whether there is a HEAD); on success without changes no ref moves. *)
Theorem checkpoint_keeps {R W I} (gitw : GitWorld R) (v : GitView R W I) g suffix label now r :
  GitLaws gitw v -> utf8_valid (v_git_dir v (gw_root g)) = true -> index_suffix suffix ->
  v_index v (snapshot_index v (gw_root g) suffix) r = None ->
  let '(r', answer) := checkpoint gitw g suffix label now r in
  (forall d, v_work v d r' = v_work v d r)
  /\ (forall p, p <> snapshot_index v (gw_root g) suffix -> v_index v p r' = v_index v p r)
  /\ (forall d, own_index v d <> snapshot_index v (gw_root g) suffix)
  /\ (forall name, name <> checkpoint_ref label -> v_refs v r' name = v_refs v r name)
  /\ match answer with
     | Ok c => gw_is_repository g = true /\ ck_label c = label /\
         if ck_had_changes c then
           v_refs v r' (checkpoint_ref label) = Some (ck_commit c) /\
           (v_commit v r' (ck_commit c) = Some (snapshot_of v g (v_head v (gw_root g) r) r)
            \/ (exists r0, unanswered gitw (verify_call g) r0)
               /\ v_commit v r' (ck_commit c) = Some (snapshot_of v g None r))
         else forall name, v_refs v r' name = v_refs v r name
     | Err _ => True
     end.
Proof.
  intros L Ht Hs Hnew. set (ix := snapshot_index v (gw_root g) suffix) in *. set (ref := checkpoint_ref label).
  assert (forall d, own_index v d <> ix) as Hown by (intros d [_ [= H]]%app_inj_tail).
  assert (forall r' (P : Prop), frame v (Some ix) (Some ref) r r' -> P ->
    (forall d, v_work v d r' = v_work v d r) /\ (forall p, p <> ix -> v_index v p r' = v_index v p r) /\
    (forall d, own_index v d <> ix) /\ (forall name, name <> ref -> v_refs v r' name = v_refs v r name) /\ P)
    as Hf by (intros r' P [F1 F2 F3 _ _] HP; split_and!; try done; intros; [apply F2|apply F3]; congruence).
  unfold checkpoint. destruct (gw_is_repository g) eqn:Eg; cbn [negb]; [|by apply Hf; [apply frame_wider|]].
  unfold g_bind at 1. destruct (has_uncommitted_changes gitw g r) as [r1 a] eqn:E1.
  apply (has_changes_look _ _ _ _ _ _ L) in E1. destruct a as [[]|e]; cbn [negb]; [| |by apply Hf; [apply frame_wider|]].
  - pose proof (keeps_snapshot gitw v g Ht suffix Hs r1) as F2. unfold g_bind at 1.
    destruct (snapshot gitw g suffix r1) as [r2 [commit|e]] eqn:E2; cbn [fst] in F2;
      (assert (frame v (Some ix) (Some ref) r r2) as F by (etransitivity; [by apply frame_wider|by apply frame_index]));
      [|by apply Hf].
    case_bool_decide; [by apply Hf|].
    apply (snapshot_commits gitw v g Ht suffix _ _ _ Hs) in E2; [|by rewrite (fr_index _ _ _ _ _ E1)].
    unfold snapshot_of in E2. rewrite (fr_head _ _ _ _ _ E1), (fr_work _ _ _ _ _ E1) in E2 by done.
    unfold g_bind. destruct (run_git gitw _ _ r2) as [r3 o] eqn:E3. apply (update_ref_step _ _ _ _ _ _ _ _ L) in E3 as [F3 U].
    assert (frame v (Some ix) (Some ref) r r3) as F' by (etransitivity; [exact F|by apply frame_ref]).
    destruct o as [o|e]; apply Hf; try done. cbn [ck_had_changes ck_commit ck_label]. split; [done|]. split; [done|].
    split; [by apply U|]. destruct E2 as [E2|[X E2]]; [left|right; split; [exact X|]]; by apply (fr_commit _ _ _ _ _ F3).
  - unfold g_bind, g_try, run_git. destruct (run_git_env _ _ _ _ _ r1) as [r2 h] eqn:E2.
    eapply look_step in E2; [|exact L|reflexivity].
    assert (frame v None None r r2) as F by (etransitivity; [exact E1|exact E2]). apply Hf; [by apply frame_wider|].
    cbn [ck_had_changes ck_label]. split_and!; [done|done|]. intros name. by apply (fr_refs _ _ _ _ _ F).
Qed.

(** ** Applying a worktree *)

Definition apply_call (g : GitWorkspace) (check : bool) (patch : string) : GitCall :=
  {| gc_directory := gw_root g;
     gc_args := (["apply"] ++ (if check then ["--check"] else []) ++ ["--binary"; "-"])%list;
     gc_index_file := None; gc_input := Some patch |}.

(** What has changed in a worktree since a commit, as git shows it. *)
Definition worktree_diff {R W I} (v : GitView R W I) (d : PathBuf) (base : string) (r : R) : string :=
  v_diff v d base (Some (v_staged v d (v_work v d r) (v_index v (own_index v d) r))).

Section Applying.
Context {R W I : Type} (gitw : GitWorld R) (v : GitView R W I) (g : GitWorkspace) {L : GitLaws gitw v}.

Lemma own_add_step d r r' a :
  run_git gitw d ["add"; "-A"] r = (r', a) ->
  frame v (Some (own_index v d)) None r r' /\
  (is_ok a = true -> v_index v (own_index v d) r' = Some (v_staged v d (v_work v d r) (v_index v (own_index v d) r))).
Proof.
  assert (an_index v (own_index v d)) as Ha by (exists d; by left).
  unfold run_git, run_git_env. intros E.
  set (c := {| gc_directory := d; gc_args := _; gc_index_file := _; gc_input := _ |}) in *.
  pose proof (stage_frame gitw v c r eq_refl Ha) as F. destruct (gw_git gitw c r) as [r1 o] eqn:Eg. injection E as <- <-.
  split; [exact F|]. destruct o as [[] out err| |err]; try done. intros _. by apply (add_stages gitw v c r _ _ _ eq_refl Ha Eg).
Qed.

Lemma diff_step d base r r' a :
  run_git gitw d ["diff"; "--cached"; "--binary"; base] r = (r', Ok a) ->
  frame v None None r r' /\ a = from_utf8_lossy (v_diff v d base (v_index v (own_index v d) r)).
Proof.
  intros E. split; [by eapply look_step in E|]. apply run_git_ok in E as (out&err&->&E).
  by eapply diff_shows in E as ->.
Qed.

Lemma check_step patch r r' a :
  run_git_env gitw (gw_root g) ["apply"; "--check"; "--binary"; "-"] None (Some patch) r = (r', a) ->
  frame v None None r r' /\ (is_ok a = true -> v_patched v (gw_root g) patch (v_work v (gw_root g) r) <> None).
Proof.
  intros E. split; [by eapply look_step in E|]. destruct a as [o|e]; [|done]. intros _.
  apply run_git_ok in E as (out&err&->&E). by eapply check_applies in E.
Qed.

Lemma apply_step patch r r' a :
  run_git_env gitw (gw_root g) ["apply"; "--binary"; "-"] None (Some patch) r = (r', a) ->
  (forall p, v_index v p r' = v_index v p r) /\ (forall name, v_refs v r' name = v_refs v r name) /\
  match a with
  | Ok _ => v_patched v (gw_root g) patch (v_work v (gw_root g) r) = Some (v_work v (gw_root g) r')
  | Err _ => fst (gw_git gitw (apply_call g false patch) r) = r' /\
             forall out err, snd (gw_git gitw (apply_call g false patch) r) <> GitExited true out err
  end.
Proof.
  unfold run_git_env. change {| gc_directory := _; gc_args := _; gc_index_file := _; gc_input := _ |} with (apply_call g false patch).
  destruct (apply_frame gitw v (apply_call g false patch) r eq_refl) as [H1 H2].
  pose proof (apply_applies gitw v (apply_call g false patch) r patch) as H3.
  destruct (gw_git gitw _ r) as [r1 o]. cbn [fst snd] in *. intros [= <- <-]. split; [done|]. split; [done|].
  destruct o as [[] out err| |err]; cbn [git_answer]; try (split; [done|congruence]). by eapply H3.
Qed.

(** C26: Changes made in a worktree reach the workspace all or not at all, and no
    ref and no index but the worktree's own changes.  When there are changes,
    success means that the workspace's files are what they were with one patch
    applied: what git shows of the worktree's files since the base, as it is
    when it is UTF-8 and otherwise with replacement characters.  An error leaves
    every file as it was, unless git said that this patch applies and applying
    it did not succeed even so. *)
Theorem apply_all_or_nothing w base r :
  let '(r', answer) := apply_worktree gitw g w base r in
  let diff := worktree_diff v (wt_path w) base r in
  let patch := from_utf8_lossy diff in
  let ours := v_work v (gw_root g) in
  (utf8_valid diff = true -> patch = diff) /\
  (forall p, p <> own_index v (wt_path w) -> v_index v p r' = v_index v p r) /\
  (forall name, v_refs v r' name = v_refs v r name) /\
  match answer with
  | Ok [] => forall d, v_work v d r' = v_work v d r
  | Ok _ => v_patched v (gw_root g) patch (ours r) = Some (ours r')
  | Err _ =>
      (forall d, v_work v d r' = v_work v d r) \/
      (v_patched v (gw_root g) patch (ours r) <> None /\
       exists r0, (forall d, v_work v d r0 = v_work v d r) /\
         fst (gw_git gitw (apply_call g false patch) r0) = r' /\
         forall out err, snd (gw_git gitw (apply_call g false patch) r0) <> GitExited true out err)
  end.
Proof.
  set (ix := own_index v (wt_path w)).
  assert (utf8_valid (worktree_diff v (wt_path w) base r) = true ->
    from_utf8_lossy (worktree_diff v (wt_path w) base r) = worktree_diff v (wt_path w) base r) as U
    by apply from_utf8_lossy_valid.
  assert (forall r' (P : Prop), frame v (Some ix) None r r' -> ((forall d, v_work v d r' = v_work v d r) -> P) ->
    (utf8_valid (worktree_diff v (wt_path w) base r) = true ->
     from_utf8_lossy (worktree_diff v (wt_path w) base r) = worktree_diff v (wt_path w) base r) /\ (forall p, p <> ix -> v_index v p r' = v_index v p r) /\ (forall name, v_refs v r' name = v_refs v r name) /\ P)
    as Hf by (intros r' P [F1 F2 F3 _ _] HP; split_and!; [exact U|intros p N; apply F2; congruence|intros; by apply F3|by apply HP]).
  assert (forall r1 r2, frame v (Some ix) None r r1 -> frame v None None r1 r2 -> frame v (Some ix) None r r2) as Ht
    by (intros r1 r2 F G; etransitivity; [exact F|by apply frame_wider]).
  unfold apply_worktree. unfold g_bind at 1. destruct (run_git gitw (wt_path w) ["add"; "-A"] r) as [r1 a1] eqn:E1.
  apply own_add_step in E1 as [F1 S1]. fold ix in F1, S1.
  destruct a1 as [o1|e1]; [|apply Hf; auto]. specialize (S1 eq_refl).
  unfold g_bind at 1. destruct (run_git gitw (wt_path w) _ r1) as [r2 a2] eqn:E2. eapply look_step in E2; [|exact L|reflexivity].
  pose proof (Ht _ _ F1 E2) as F2. destruct a2 as [names|e2]; [|apply Hf; auto].
  cbv zeta. case_bool_decide as Ec; [rewrite Ec; apply Hf; auto|].
  unfold g_bind at 1. destruct (run_git gitw (wt_path w) ["diff"; "--cached"; "--binary"; base] r2) as [r3 a3] eqn:E3.
  destruct a3 as [patch|e3].
  2: { eapply look_step in E3; [|exact L|reflexivity]. apply Hf; [by apply (Ht r2)|auto]. }
  apply diff_step in E3 as [E3 Ep]. fold ix in Ep. rewrite (fr_index _ _ _ _ _ E2), S1 in Ep by done.
  change (patch = from_utf8_lossy (worktree_diff v (wt_path w) base r)) in Ep. subst patch. pose proof (Ht _ _ F2 E3) as F3.
  unfold g_bind at 1, g_map_err. destruct (run_git_env gitw (gw_root g) _ _ _ r3) as [r4 a4] eqn:E4.
  apply check_step in E4 as [E4 Hc]. pose proof (Ht _ _ F3 E4) as F4. rewrite (fr_work _ _ _ _ _ F3) in Hc.
  destruct a4 as [o4|e4]; [|apply Hf; auto]. specialize (Hc eq_refl).
  unfold g_bind. destruct (run_git_env gitw (gw_root g) _ _ _ r4) as [r5 a5] eqn:E5.
  apply apply_step in E5 as (I5&R5&H5). destruct F4 as [W4 I4 R4 _ _].
  assert (forall p, p <> ix -> v_index v p r5 = v_index v p r) as HI by (intros p N; rewrite I5; apply I4; congruence).
  assert (forall name, v_refs v r5 name = v_refs v r name) as HR by (intros; rewrite R5; by apply R4).
  rewrite W4 in H5. destruct a5 as [o5|e5]; (split; [exact U|split; [exact HI|split; [exact HR|]]]); [by case_match|].
  right. split; [exact Hc|]. exists r4. split; [exact W4|exact H5].
Qed.
End Applying.
