(* ===== verification/Json.v ===== *)
(** * JSON values ([serde_json])

    A value as the code reads and builds it: objects by key, arrays by
    position.  Text is read and written by [serde_json] itself, an argument
    where it is used. *)

From S2P Require Export BTree.
Open Scope string_scope.
Open Scope Z_scope.

Inductive Value : Type :=
  | JNull
  | JBool (b : bool)
  | JInt (z : Z)
  | JFloat (text : string)
  | JString (s : string)
  | JArray (l : list Value)
  | JObject (fields : list (string * Value)).

(** [Value::get] with a key, [as_str], [as_array], [as_bool], [as_u64]. *)
Definition jget (key : string) (v : Value) : option Value :=
  match v with JObject fields => bt_get key fields | _ => None end.
Definition as_str (v : Value) : option string := match v with JString s => Some s | _ => None end.
Definition as_array (v : Value) : option (list Value) := match v with JArray l => Some l | _ => None end.
Definition as_bool (v : Value) : option bool := match v with JBool b => Some b | _ => None end.
Definition as_u64 (v : Value) : option Z :=
  match v with JInt z => if (0 <=? z) && (z <=? U64_MAX) then Some z else None | _ => None end.

(** [Value::pointer] through objects, for keys that are no array positions. *)
Fixpoint pointer (keys : list string) (v : Value) : option Value :=
  match keys with
  | [] => Some v
  | k :: keys' => match jget k v with Some v' => pointer keys' v' | None => None end
  end.

(** Assigning a key of an object: [value[key] = new]. *)
Fixpoint set_field (key : string) (new : Value) (fields : list (string * Value)) : list (string * Value) :=
  match fields with
  | [] => [(key, new)]
  | (k, v) :: fields' => if bool_decide (k = key) then (k, new) :: fields' else (k, v) :: set_field key new fields'
  end.

Definition jset (key : string) (new : Value) (v : Value) : Value :=
  match v with JObject fields => JObject (set_field key new fields) | _ => v end.

(** An optional string field. *)
Definition str_field (key : string) (v : Value) : option string :=
  match jget key v with Some f => as_str f | None => None end.

Lemma bt_get_set_field key new fields k :
  bt_get k (set_field key new fields) = if bool_decide (key = k) then Some new else bt_get k fields.
Proof.
  induction fields as [|[k' v] fields IH]; simpl.
  - repeat case_bool_decide; congruence.
  - destruct (decide (k' = key)) as [->|N].
    + rewrite (bool_decide_eq_true_2 (key = key)) by done. simpl. repeat case_bool_decide; congruence.
    + rewrite (bool_decide_eq_false_2 (k' = key)) by done. simpl. rewrite IH.
      repeat case_bool_decide; congruence.
Qed.

Lemma jget_jset key new k fields :
  jget k (jset key new (JObject fields)) = if bool_decide (key = k) then Some new else jget k (JObject fields).
Proof. apply bt_get_set_field. Qed.
