(* ===== verification/Commands.v ===== *)
(** * Commands CUMA runs itself ([cuma-workspace/src/sandbox.rs], [rtk.rs])

    Wrapping a shell command with RTK and with a sandbox, what is found of
    either on this machine, and what RTK reports to have saved. *)

From S2P Require Export Host Config FloatBounds Json.
Open Scope string_scope.
Open Scope Z_scope.

(** ** The sandbox of a command *)

Definition KNOWN_RUNTIMES : list (string * string) :=
  [("ai-jail", "ai-jail"); ("bwrap", "bubblewrap"); ("firejail", "firejail");
   ("sandbox-exec", "macOS sandbox-exec")].

Inductive SandboxStatus : Type :=
  | SandboxDisabled
  | SandboxActive (runtime : string)
  | SandboxUnavailable (looked_for : list string).

Definition sandbox_is_active (s : SandboxStatus) : bool := match s with SandboxActive _ => true | _ => false end.

Definition sandbox_describe (s : SandboxStatus) : string :=
  match s with
  | SandboxDisabled => "sandbox: disabled by configuration"
  | SandboxActive runtime => "sandbox: active via " +:+ runtime
  | SandboxUnavailable looked_for =>
      "sandbox: REQUESTED BUT UNAVAILABLE (looked for " +:+ str_join ", " looked_for
      +:+ "); commands CUMA runs itself are unconfined"
  end.

(** [split_whitespace().next()] *)
Definition first_word (s : string) : option string := head (split_whitespace s).

Definition sandbox_detect (h : Host) (config : SecurityConfig) : SandboxStatus :=
  if negb (sec_sandbox config) then SandboxDisabled
  else
    let known :=
      match find (fun '(binary, _) => h_which h binary) KNOWN_RUNTIMES with
      | Some (_, name) => SandboxActive name
      | None => SandboxUnavailable (map fst KNOWN_RUNTIMES)
      end in
    match sec_sandbox_command config with
    | None => known
    | Some configured =>
        let binary := match first_word configured with Some w => w | None => configured end in
        if h_which h binary then SandboxActive configured else known
    end.

Definition bwrap_wrap (workspace command : string) : string :=
  "bwrap --ro-bind /usr /usr --ro-bind /lib /lib --ro-bind /lib64 /lib64 "
  +:+ "--ro-bind /bin /bin --ro-bind /etc /etc "
  +:+ "--bind " +:+ workspace +:+ " " +:+ workspace +:+ " --chdir " +:+ workspace +:+ " "
  +:+ "--proc /proc --dev /dev --unshare-net --unshare-pid "
  +:+ "--die-with-parent -- " +:+ command.

Definition sandbox_wrap (s : SandboxStatus) (command : string) (workspace : PathBuf) : string :=
  match s with
  | SandboxActive runtime =>
      let workspace := from_utf8_lossy workspace in
      if bool_decide (runtime = "ai-jail") then "ai-jail --exec -- " +:+ command
      else if bool_decide (runtime = "bubblewrap") then bwrap_wrap workspace command
      else if bool_decide (runtime = "firejail")
      then "firejail --quiet --private=" +:+ workspace
           +:+ " --net=none --nosound --no3d --nodvd --notv -- " +:+ command
      else if bool_decide (runtime = "macOS sandbox-exec")
      then "sandbox-exec -p '(version 1)(allow default)(deny network*)' " +:+ command
      else runtime +:+ " " +:+ command
  | _ => command
  end.

(** ** RTK *)

Definition WRAPPED_COMMANDS : list string :=
  ["cargo"; "go"; "npm"; "pnpm"; "yarn"; "make"; "pytest"; "jest"; "gradle"; "mvn"; "git"; "grep";
   "rg"; "find"; "ls"; "tree"; "docker"; "kubectl"].

Inductive RtkStatus : Type :=
  | RtkDisabled
  | RtkActive (binary : string)
  | RtkMissing (binary : string) (required : bool)
  | RtkUnverified (binary reason : string).

Definition rtk_is_active (s : RtkStatus) : bool := match s with RtkActive _ => true | _ => false end.
Definition rtk_is_fatal (s : RtkStatus) : bool := match s with RtkMissing _ true => true | _ => false end.

Definition rtk_describe (s : RtkStatus) : string :=
  match s with
  | RtkDisabled => "RTK: disabled"
  | RtkActive binary => "RTK: detected (" +:+ binary +:+ "); token optimization enabled"
  | RtkMissing binary false =>
      "RTK: not found (" +:+ binary +:+ "); running without token optimization"
  | RtkMissing binary true => "RTK: REQUIRED but " +:+ binary +:+ " is not on PATH"
  | RtkUnverified binary reason =>
      "RTK: " +:+ binary +:+ " is on PATH but is not rtk-ai/rtk (" +:+ reason +:+ "); not using it"
  end.

Record RtkGain := {
  total_commands : Z;
  total_input : Z;
  total_output : Z;
  total_saved : Z;
  avg_savings_pct : f64;
}.

(** What running a program gives. *)
Inductive Run : Type :=
  | CannotRun (err : string)
  | Exited (success : bool) (status : string) (stdout : string).

Section Rtk.
Context (h : Host) (parse_json : string -> option Value) (float_of : string -> f64).
Context (run : string -> list string -> option PathBuf -> Run).

Definition as_number (v : Value) : option f64 :=
  match v with JInt z => Some (f64_of_Z z) | JFloat text => Some (float_of text) | _ => None end.

(** [serde_json::from_value]: an object by field names, or the fields in order. *)
Definition gain_of_value (v : Value) : option RtkGain :=
  let fields :=
    match v with
    | JObject _ =>
        (jget "total_commands" v, jget "total_input" v, jget "total_output" v, jget "total_saved" v,
         jget "avg_savings_pct" v)
    | JArray [a; b; c; d; e] => (Some a, Some b, Some c, Some d, Some e)
    | _ => (None, None, None, None, None)
    end in
  match fields with
  | (Some a, Some b, Some c, Some d, Some e) =>
      match as_u64 a, as_u64 b, as_u64 c, as_u64 d, as_number e with
      | Some a, Some b, Some c, Some d, Some e =>
          Some {| total_commands := a; total_input := b; total_output := c; total_saved := d;
                  avg_savings_pct := e |}
      | _, _, _, _, _ => None
      end
  | _ => None
  end.

Definition parse_gain (json : string) : option RtkGain :=
  match parse_json json with
  | None => None
  | Some value => match jget "summary" value with Some v => gain_of_value v | None => None end
  end.

Definition gain_json (binary : string) (project : option PathBuf) : result string string :=
  let args := (["gain"; "--format"; "json"] ++ if project then ["--project"] else [])%list in
  match run binary args project with
  | CannotRun err => Err ("cannot run it: " +:+ err)
  | Exited false status _ => Err ("`" +:+ binary +:+ " gain` exited with " +:+ status)
  | Exited true _ stdout =>
      let stdout := from_utf8_lossy stdout in
      match parse_gain stdout with
      | None => Err ("`" +:+ binary +:+ " gain --format json` did not print RTK's summary")
      | Some _ => Ok stdout
      end
  end.

Definition rtk_detect (config : RtkConfig) : RtkStatus :=
  let binary := match rtk_binary config with Some b => b | None => "rtk" end in
  match rtk_enabled config with
  | RtkNever => RtkDisabled
  | _ =>
      if h_which h binary then
        match gain_json binary None with
        | Ok _ => RtkActive binary
        | Err reason => RtkUnverified binary reason
        end
      else RtkMissing binary (bool_decide (rtk_enabled config = RtkAlways))
  end.

Definition measured_gain (s : RtkStatus) (workspace : option PathBuf) : option RtkGain :=
  match s with
  | RtkActive binary =>
      match gain_json binary workspace with Ok text => parse_gain text | Err _ => None end
  | _ => None
  end.

End Rtk.

(** What follows the last [/] or [\]. *)
Definition base_name (binary : string) : string :=
  let last_piece := fun c s => List.last (split_char c s) "" in
  last_piece (of_byte 92) (last_piece SLASH binary).

Definition should_wrap (command : string) : bool :=
  match first_word command with
  | None => false
  | Some binary => bool_decide (base_name binary ∈ WRAPPED_COMMANDS)
  end.

Definition rtk_wrap (s : RtkStatus) (command : string) : string :=
  match s with
  | RtkActive binary => if should_wrap command then binary +:+ " " +:+ command else command
  | _ => command
  end.

(** Four bytes a token. *)
Definition rtk_estimate_tokens (text : string) : Z := Z.of_nat (String.length text) / 4.

Record Saving := { raw_tokens : Z; filtered_tokens : Z }.

Definition saving_between (raw filtered : string) : Saving :=
  {| raw_tokens := rtk_estimate_tokens raw; filtered_tokens := rtk_estimate_tokens filtered |}.

Definition tokens_saved (s : Saving) : Z := Z.max 0 (raw_tokens s - filtered_tokens s).

Definition ratio (s : Saving) : option f64 :=
  if raw_tokens s =? 0 then None else Some (f64_div (f64_of_Z (tokens_saved s)) (f64_of_Z (raw_tokens s))).

(** ** Theorems

    What is found is what is there, and a saving is a fraction. *)


(** The known runtimes, in order. *)
Definition known_runtime (h : Host) : SandboxStatus :=
  match find (fun '(binary, _) => h_which h binary) KNOWN_RUNTIMES with
  | Some (_, name) => SandboxActive name
  | None => SandboxUnavailable (map fst KNOWN_RUNTIMES)
  end.

Definition configured_there (h : Host) (config : SecurityConfig) : Prop :=
  exists c, sec_sandbox_command config = Some c
    /\ h_which h (match first_word c with Some w => w | None => c end) = true.

Lemma sandbox_detect_cases h config : sec_sandbox config = true ->
  (exists c, sec_sandbox_command config = Some c /\ configured_there h config
             /\ sandbox_detect h config = SandboxActive c)
  \/ (~ configured_there h config /\ sandbox_detect h config = known_runtime h).
Proof.
  intros Hs. unfold sandbox_detect, configured_there. rewrite Hs. cbn [negb].
  destruct (sec_sandbox_command config) as [c|]; [|right; naive_solver].
  destruct (h_which h _) eqn:Ew; [left; exists c; naive_solver|]. right. split; [|done].
  intros (c'&[= <-]&Hw). congruence.
Qed.

(** The sandbox says what it does: it is active exactly when sandboxing is
    on and the configured command or a known runtime is on the path, the
    configured one first and the others in order; otherwise it says what was
    looked for in vain. *)
Theorem sandbox_detect_exact h config :
  match sandbox_detect h config with
  | SandboxDisabled => sec_sandbox config = false
  | SandboxActive runtime =>
      sec_sandbox config = true
      /\ ((sec_sandbox_command config = Some runtime /\ configured_there h config)
          \/ (~ configured_there h config /\ exists a binary b,
                KNOWN_RUNTIMES = (a ++ (binary, runtime) :: b)%list /\ h_which h binary = true
                /\ Forall (fun e => h_which h e.1 = false) a))
  | SandboxUnavailable looked_for =>
      sec_sandbox config = true /\ ~ configured_there h config /\ looked_for = map fst KNOWN_RUNTIMES
      /\ Forall (fun binary => h_which h binary = false) looked_for
  end.
Proof.
  destruct (sec_sandbox config) eqn:Es; [|unfold sandbox_detect; by rewrite Es].
  destruct (sandbox_detect_cases h config Es) as [(c&Ec&Hc& ->)|[Hc ->]]; [by auto|].
  unfold known_runtime. destruct (find _ KNOWN_RUNTIMES) as [[binary name]|] eqn:Ef.
  - apply find_first in Ef as (Hw&a&b&Ea&Ha). split; [done|]. right. split; [done|].
    exists a, binary, b. split_and!; [done..|]. eapply list.Forall_impl; [exact Ha|]. by intros [].
  - split_and!; try done. apply list.Forall_forall. intros n Hn.
    apply list_elem_of_In, in_map_iff in Hn as ([n' m]&<-&Hin). exact (find_none _ _ Ef _ Hin).
Qed.

(** The saved fraction of a command's output is a number between zero and
    one, whatever the two outputs are. *)
Theorem saving_ratio raw filtered x :
  Z.of_nat (String.length raw) < 2 ^ 53 ->
  ratio (saving_between raw filtered) = Some x -> score x.
Proof.
  intros Hl. unfold ratio, saving_between, tokens_saved, rtk_estimate_tokens. simpl.
  set (a := Z.of_nat (String.length raw) / 4). set (b := Z.of_nat (String.length filtered) / 4).
  assert (0 <= a /\ 0 <= b) as [Ha Hb] by (split; apply Z.div_pos; lia).
  assert (a < 2 ^ 53) by (apply Z.div_lt_upper_bound; lia).
  destruct (a =? 0) eqn:E; [done|]. intros [= <-]. apply ratio_score; lia.
Qed.
