(* ===== verification/WorkspaceDemo.v ===== *)
(** * The workspace crate at work

    A small machine and a small repository on which the theorems about
    confinement, git and commands apply, and the corner cases they leave out. *)

From S2P Require Import ConfineFacts Git Commands.
Open Scope string_scope.
Open Scope Z_scope.

(** ** A machine *)

Definition demo_host : Host :=
  {| h_exists := fun p => negb (bool_decide (p = "/nowhere"));
     h_is_dir := fun p => negb (bool_decide (p = "/home/u/.netrc"));
     h_is_file := fun _ => false;
     h_is_symlink := fun p => bool_decide (p = "/bin");
     h_special := fun _ => false;
     h_canonicalize := fun p => if bool_decide (p = "/etc/resolv.conf") then Some "/run/resolv" else Some p;
     h_read := fun _ => None;
     h_entries := fun p => if bool_decide (p = "/home/u") then Some [".ssh"; "src"; ".claude"; ".gitconfig"; ".netrc"] else None;
     h_home := Some "/home/u";
     h_current_exe := Some "/usr/bin/cuma";
     h_current_dir := Some "/home/u/src/app";
     h_which := fun p => bool_decide (p = "bwrap");
     h_env := ["PATH"; "AWS_SECRET_ACCESS_KEY"; "ANTHROPIC_API_KEY"; "DATABASE_URL"; "GIT_SSL_CAINFO"] |}.

Definition demo_security (writable : list string) : SecurityConfig :=
  {| sec_sandbox := true; sec_sandbox_command := None; allow_destructive_operations := false;
     checkpoint_before_write := true; command_allowlist := []; network_allowlist := [];
     agent_env := ["DATABASE_URL"]; agent_writable_paths := writable; require_agent_sandbox := true;
     agent_sandbox := "auto"; trusted_workspaces := []; a2a_server_token_refs := [] |}.

Definition demo_succeeds (p : string) (_ : list string) : bool := bool_decide (p = "bwrap").

Definition demo_sandbox (writable : list string) : AgentSandbox :=
  detect demo_host demo_succeeds (demo_security writable).

Definition demo_profile (writable : list string) (workspace : PathBuf) : Profile :=
  agent_profile demo_host (demo_sandbox writable) workspace [] [].

Lemma demo_lists : lists_entries demo_host.
Proof.
  intros home names. simpl. case_bool_decide as E0; [|done]. intros [= <-].
  assert (forall n, (utf8_valid n && negb (bool_decide (n = "")) && negb (bool_decide (n = "."))
            && negb (bool_decide (n = "..")) && bool_decide (47 ∉ bytes n) && bool_decide (0 ∉ bytes n))%bool = true ->
          entry_name n) as H.
  { intros n Hn. unfold entry_name, plain_name. by destruct_bools. }
  repeat (apply list.Forall_cons; split; [apply H; vm_compute; reflexivity|]). constructor.
Defined.

Lemma demo_text workspace writable :
  forallb (fun q => bool_decide (display q = q))
    (option_list (h_canonicalize demo_host "/etc/resolv.conf") ++ option_list (pf_home (demo_profile writable workspace))
     ++ home_hidden (demo_profile writable workspace) ++ home_readable (demo_profile writable workspace)
     ++ Confine.writable (demo_profile writable workspace)
     ++ option_list (cuma_executable (demo_profile writable workspace))
     ++ command_paths (demo_profile writable workspace))%list = true ->
  all_text demo_host (demo_profile writable workspace).
Proof.
  intros H. apply list.Forall_forall. intros q Hq. rewrite forallb_forall in H.
  specialize (H q). rewrite bool_decide_eq_true in H. by apply H, list_elem_of_In.
Defined.

Definition demo_mounts (writable : list string) (workspace : PathBuf) : list BwrapOp :=
  plan demo_host (demo_profile writable workspace).

Definition demo_command : list string := ["claude"; "--ro-bind"; "/"; "/"].

(** The home's own [.ssh] cannot be read, and the workspace can be written. *)
Lemma confined_view_witness :
  exists mounts,
    read_args (tail (bubblewrap demo_host (demo_profile [] "/home/u/src/app") ++ demo_command)%list)
    = Some (mounts, demo_command)
    /\ (forall op, shown demo_host "/home/u/.ssh/id_rsa" mounts = Some op -> exposes op = false)
    /\ shown demo_host "/home/u/src/app/a.rs" mounts
       = Some (Bind false false "/home/u/src/app" "/home/u/src/app").
Proof.
  destruct (confined_view demo_host (demo_sandbox []) "/home/u/src/app" [] [] demo_command
              demo_lists (demo_text "/home/u/src/app" [] (eq_refl _))) as (mounts&E&V).
  exists mounts. split; [exact E|]. split.
  - intros op. apply (proj1 (V "/home/u/.ssh/id_rsa") "/home/u/.ssh").
    + apply (bool_decide_eq_true_1 ("/home/u/.ssh" ∈ home_hidden (demo_profile [] "/home/u/src/app"))).
      vm_compute. reflexivity.
    + vm_compute. reflexivity.
    + right. split; vm_compute; reflexivity.
  - apply (proj2 (proj2 (V "/home/u/src/app/a.rs"))); vm_compute; reflexivity.
Defined.

(** An extra writable path above the credentials puts them back in sight,
    unless the workspace is above them too. *)
Example granted_home_exposes :
  option_map exposes (shown demo_host "/home/u/.ssh/id_rsa" (demo_mounts ["~"] "/home/u/src/app")) = Some true
  /\ option_map exposes (shown demo_host "/home/u/.ssh/id_rsa" (demo_mounts ["~"] "/home/u")) = Some false.
Proof. vm_compute. by split. Qed.

(** firejail starts from the whole machine: a private file of the home that is
    on no list can be read. *)
Example firejail_shows_home :
  str_join " " (firejail demo_host (demo_profile [] "/srv/app"))
  = "firejail --quiet --noprofile --nonewprivs --caps.drop=all --read-only=/ --read-write=/tmp "
    +:+ "--read-write=/var/tmp --read-write=/dev/shm --read-write=/srv/app --read-write=/home/u/.claude "
    +:+ "--blacklist=/home/u/.netrc --blacklist=/home/u/.ssh --rmenv=AWS_SECRET_ACCESS_KEY --".
Proof. by vm_compute. Qed.

Lemma agent_environment_witness :
  "AWS_SECRET_ACCESS_KEY" ∈ removed Bubblewrap
    (bubblewrap demo_host (demo_profile [] "/home/u/src/app") ++ ["claude"; "--unsetenv"; "PATH"])%list.
Proof.
  apply (agent_environment demo_host (demo_sandbox []) "/home/u/src/app" [] [] Bubblewrap
           (bubblewrap demo_host (demo_profile [] "/home/u/src/app")) ["claude"; "--unsetenv"; "PATH"]).
  - vm_compute. reflexivity.
  - discriminate.
  - discriminate.
  - unfold launch_prefix. assert (ag_runtime (demo_sandbox []) = Some Bubblewrap) as -> by (vm_compute; reflexivity). reflexivity.
  - split; [|split]; [apply (bool_decide_eq_true_1 ("AWS_SECRET_ACCESS_KEY" ∈ h_env demo_host))|..]; vm_compute; reflexivity.
Defined.

Lemma required_confines_witness :
  exists r prefix,
    launch_prefix demo_host (with_state [] (native_sandbox demo_host demo_succeeds (demo_security []) "auto"))
      "/home/u/src/app" [] [] = Some prefix
    /\ h_which demo_host (program r) = true.
Proof.
  assert (require_agent_sandbox (demo_security []) = true) as Hr by reflexivity.
  destruct (required_confines demo_host demo_succeeds (demo_security []) "auto" [] "/home/u/src/app" [] [] Hr)
    as [_ (r&prefix&Hl&Hw&_)]; [vm_compute; reflexivity|].
  exists r, prefix. split; [exact Hl|exact Hw].
Defined.

(** ** A repository *)

(** Files are one text per directory; the index is that text, the tree it and the
    commit the tree; a patch is added at the end. *)
Record Toy := {
  ty_work : PathBuf -> string;
  ty_index : list Component -> option string;
  ty_refs : string -> option string;
}.

Definition toy_view : GitView Toy string string :=
  {| v_git_dir := fun d => join_path d ".git"; v_work := fun d r => ty_work r d; v_index := fun p r => ty_index r p;
     v_refs := ty_refs; v_head := fun _ _ => Some "head"; v_commit := fun _ c => Some c;
     v_staged := fun _ w _ => w; v_without := fun _ _ i => i;
     v_tree := fun i => trim (from_utf8_lossy (match i with Some t => t | None => "empty" end));
     v_diff := fun _ _ i => match i with Some t => t | None => "" end; v_patched := fun _ patch w => Some (w +:+ patch) |}.

Definition set_index (p : list Component) (i : string) (r : Toy) : Toy :=
  {| ty_work := ty_work r; ty_index := fun q => if bool_decide (q = p) then Some i else ty_index r q; ty_refs := ty_refs r |}.

Definition toy_state (c : GitCall) (r : Toy) : Toy :=
  let args := gc_args c in
  if bool_decide (args = ["read-tree"; "HEAD"]) then set_index (index_of toy_view c) "head" r
  else if bool_decide (args = ["add"; "-A"]) then set_index (index_of toy_view c) (ty_work r (gc_directory c)) r
  else if bool_decide (first_arg args = "update-ref") then
    {| ty_work := ty_work r; ty_index := ty_index r;
       ty_refs := fun n => if bool_decide (n = nth 1 args "") then Some (nth 2 args "") else ty_refs r n |}
  else if bool_decide (args = ["apply"; "--binary"; "-"]) then
    {| ty_work := fun d => if bool_decide (d = gc_directory c)
                           then ty_work r d +:+ match gc_input c with Some p => p | None => "" end else ty_work r d;
       ty_index := ty_index r; ty_refs := ty_refs r |}
  else r.

Definition toy_answer (c : GitCall) (r : Toy) : GitOutcome :=
  let args := gc_args c in
  let held := ty_index r (index_of toy_view c) in
  if bool_decide (args = ["rev-parse"; "--git-path"; "cuma-snapshot-index"]) then
    GitExited (bool_decide (gc_directory c = "/repo")) (".git/cuma-snapshot-index" +:+ NL) ""
  else if bool_decide (first_arg args = "status") then GitExited true ("?? a.txt" +:+ NL) ""
  else if bool_decide (args = ["write-tree"]) then GitExited true (match held with Some t => t | None => "empty" end) ""
  else if bool_decide (first_arg args = "commit-tree") then
    GitExited (bool_decide (trim (from_utf8_lossy (nth 1 args "")) = nth 1 args "")) (nth 1 args "") ""
  else if bool_decide (take 3 args = ["diff"; "--cached"; "--name-only"]) then GitExited true ("a.txt" +:+ NL) ""
  else if bool_decide (first_arg args = "diff") then
    GitExited true (match held with Some t => t | None => "" end) ""
  else GitExited true "" "".

Definition toy_world : GitWorld Toy :=
  {| gw_git := fun c r => (toy_state c r, toy_answer c r); gw_exists := fun _ _ => false;
     gw_create_dirs := fun _ r => (r, None); gw_remove_file := fun _ r => r |}.

Definition toy_repository : GitWorkspace := {| gw_root := "/repo"; gw_is_repository := true |}.

Lemma toy_looks c r : looks (gc_args c) = true -> toy_state c r = r.
Proof.
  intros H. unfold toy_state.
  rewrite (bool_decide_eq_false_2 (gc_args c = ["read-tree"; "HEAD"])) by (intros E; by rewrite E in H).
  rewrite (bool_decide_eq_false_2 (gc_args c = ["add"; "-A"])) by (intros E; by rewrite E in H).
  rewrite (bool_decide_eq_false_2 (gc_args c = ["apply"; "--binary"; "-"])) by (intros E; by rewrite E in H).
  rewrite bool_decide_eq_false_2; [done|]. intros E. unfold looks in H. rewrite E in H. cbn [orb] in H.
  destruct (gc_args c) as [|a [|b l]]; simpl in E, H; try subst a; done.
Qed.

Lemma set_index_frame p i r : frame toy_view (Some p) None r (set_index p i r).
Proof. split; try done. intros q Hq. cbn. rewrite bool_decide_eq_false_2; [done|]. intros ->. done. Qed.

Lemma toy_stages c r : stages (gc_args c) = true -> frame toy_view (Some (index_of toy_view c)) None r (toy_state c r).
Proof.
  intros H. unfold toy_state. case_bool_decide as H0; [apply set_index_frame|]. case_bool_decide as H1; [apply set_index_frame|].
  rewrite (bool_decide_eq_false_2 (gc_args c = ["apply"; "--binary"; "-"])) by (intros E; by rewrite E in H).
  rewrite bool_decide_eq_false_2; [reflexivity|]. intros E. unfold stages in H.
  rewrite (bool_decide_eq_false_2 _ H0), (bool_decide_eq_false_2 _ H1) in H.
  destruct (gc_args c) as [|a [|b l]]; simpl in E, H; try subst a; done.
Qed.

Lemma toy_update c r name commit : gc_args c = ["update-ref"; name; commit] ->
  toy_state c r = {| ty_work := ty_work r; ty_index := ty_index r;
                     ty_refs := fun n => if bool_decide (n = name) then Some commit else ty_refs r n |}.
Proof.
  intros E. unfold toy_state. rewrite E. rewrite 2 bool_decide_eq_false_2 by done. by rewrite bool_decide_eq_true_2.
Qed.

Lemma toy_apply c r : gc_args c = ["apply"; "--binary"; "-"] ->
  toy_state c r = {| ty_work := fun d => if bool_decide (d = gc_directory c)
                                         then ty_work r d +:+ match gc_input c with Some p => p | None => "" end else ty_work r d;
                     ty_index := ty_index r; ty_refs := ty_refs r |}.
Proof.
  intros E. unfold toy_state. rewrite E. rewrite 3 bool_decide_eq_false_2 by done. by rewrite bool_decide_eq_true_2.
Qed.

Lemma toy_index_at p i r : ty_index (set_index p i r) p = Some i.
Proof. cbn. by rewrite bool_decide_eq_true_2. Qed.

Lemma toy_laws : GitLaws toy_world toy_view.
Proof.
  split; cbn [toy_world gw_git gw_remove_file fst].
  - intros c r H. rewrite toy_looks by done. reflexivity.
  - intros c r H _. by apply toy_stages.
  - intros p d suffix r _. reflexivity.
  - intros c r name commit E. rewrite (toy_update _ _ _ _ E). split; try done.
    intros n Hn. cbn. rewrite bool_decide_eq_false_2; [done|]. intros ->. done.
  - intros c r name commit r' out err E [= <- _]. rewrite (toy_update _ _ _ _ E). cbn. by rewrite bool_decide_eq_true_2.
  - intros c r r' out err E _ [= _ Ho]. unfold toy_answer in Ho. rewrite E, bool_decide_eq_true_2 in Ho by done.
    injection Ho as Hd <- _. apply bool_decide_eq_true in Hd. rewrite Hd. vm_compute. reflexivity.
  - intros c r r' b out err E [= _ Ho]. unfold toy_answer in Ho. rewrite E in Ho. cbn in Ho. injection Ho as <- _ _. done.
  - intros c r r' out err E _ [= <- _]. unfold toy_state. rewrite E, bool_decide_eq_true_2 by done. apply toy_index_at.
  - intros c r r' out err E _ [= <- _]. unfold toy_state. rewrite E, bool_decide_eq_false_2, bool_decide_eq_true_2 by done.
    apply toy_index_at.
  - intros c r paths r' out err E _ [= <- _]. unfold toy_state. rewrite E.
    rewrite 4 bool_decide_eq_false_2 by done. done.
  - intros c r r' out err E [= _ Ho]. unfold toy_answer in Ho. rewrite E in Ho.
    rewrite 2 bool_decide_eq_false_2, bool_decide_eq_true_2 in Ho by done. by injection Ho as <- _.
  - intros c r t rest r' out err E [= _ Ho]. unfold toy_answer in Ho. rewrite E in Ho.
    rewrite 3 bool_decide_eq_false_2, bool_decide_eq_true_2 in Ho by done. cbn [nth] in Ho. injection Ho as Hd <- _.
    apply bool_decide_eq_true in Hd. cbn [toy_view v_commit]. by rewrite Hd.
  - intros c r base r' out err E [= _ Ho]. unfold toy_answer in Ho. rewrite E in Ho.
    rewrite 5 bool_decide_eq_false_2, bool_decide_eq_true_2 in Ho by done. by injection Ho as <- _.
  - done.
  - intros c r E. rewrite (toy_apply _ _ E). done.
  - intros c r patch r' out err E Hi [= <- _]. rewrite (toy_apply _ _ E), Hi. cbn. by rewrite bool_decide_eq_true_2.
Qed.
Definition toy_start : Toy :=
  {| ty_work := fun d => if bool_decide (d = "/repo") then "mine" else "theirs";
     ty_index := fun _ => None; ty_refs := fun _ => None |}.

Lemma checkpoint_keeps_witness :
  let '(r', answer) := checkpoint toy_world toy_repository "7-1" "before t1" 5 toy_start in
  ty_work r' "/repo" = "mine" /\ ty_refs r' "refs/cuma/checkpoints/before-t1" = Some "mine" /\
  ty_index r' (own_index toy_view "/repo") = None.
Proof.
  pose proof (checkpoint_keeps toy_world toy_view toy_repository "7-1" "before t1" 5 toy_start toy_laws
    ltac:(vm_compute; reflexivity)) as H.
  assert (index_suffix "7-1") as Hs by (split; [done|]; vm_compute; repeat constructor; auto).
  specialize (H Hs eq_refl).
  destruct (checkpoint toy_world toy_repository "7-1" "before t1" 5 toy_start) as [r' answer] eqn:E.
  assert (ty_refs r' "refs/cuma/checkpoints/before-t1" = Some "mine") as Hr
    by (apply (f_equal fst) in E; cbn [fst] in E; rewrite <- E; vm_compute; reflexivity).
  destruct H as (Hw&Hi&Ho&_&_). split_and!; [exact (Hw "/repo")|exact Hr|].
  exact (Hi (own_index toy_view "/repo") (Ho "/repo")).
Defined.

Definition toy_worktree : Git.Worktree := {| wt_path := "/tmp/wt"; wt_branch := ""; wt_repository := "/repo" |}.

Lemma apply_all_or_nothing_witness :
  exists r', apply_worktree toy_world toy_repository toy_worktree "c1" toy_start = (r', Ok ["a.txt"]) /\
    Some ("mine" +:+ "theirs") = Some (ty_work r' "/repo") /\ ty_index r' (own_index toy_view "/repo") = None.
Proof.
  pose proof (@apply_all_or_nothing _ _ _ toy_world toy_view toy_repository toy_laws toy_worktree "c1" toy_start) as H.
  assert (snd (apply_worktree toy_world toy_repository toy_worktree "c1" toy_start) = Ok ["a.txt"]) as E
    by (vm_compute; reflexivity).
  destruct (apply_worktree toy_world toy_repository toy_worktree "c1" toy_start) as [r' answer].
  cbn [snd] in E. subst answer. destruct H as (_&Hi&_&Hw). exists r'. split; [done|]. split.
  - etransitivity; [|exact Hw]. vm_compute. reflexivity.
  - apply (Hi (own_index toy_view "/repo")). vm_compute. discriminate.
Defined.

(** Labels that differ only in what a ref cannot hold share a slug. *)
Example slugs_collide : sanitize_ref "fix a.b" = sanitize_ref "fix a/b" /\ sanitize_ref "../.." = "unnamed".
Proof. vm_compute. by split. Qed.

(** A rename is reported as one path that is none, and a quoted path as quoted. *)
Example dirty_renames :
  omap (fun line => option_map trim (after_status line)) ["R  old.rs -> new.rs"; " M " +:+ DQ +:+ "a b" +:+ DQ]
  = ["old.rs -> new.rs"; DQ +:+ "a b" +:+ DQ].
Proof. by vm_compute. Qed.

(** ** Commands *)

Lemma saving_ratio_witness : Z.of_nat (String.length "0123456789012345") < 2 ^ 53 /\ score (f64_div (f64_of_Z 3) (f64_of_Z 4)).
Proof.
  split; [reflexivity|]. apply (saving_ratio "0123456789012345" "0123456"); [reflexivity|]. vm_compute. reflexivity.
Defined.

(** Only what precedes the first separator of the shell is confined. *)
Example pipeline_escapes :
  sandbox_wrap (SandboxActive "bubblewrap") "cargo test ; curl x" "/w"
  = sandbox_wrap (SandboxActive "bubblewrap") "cargo test " "/w" +:+ "; curl x".
Proof. by vm_compute. Qed.
