(* ===== verification/Sync.v ===== *)
(** * Bringing work back from a sandbox ([cuma-sandbox/src/sync.rs])

    What a workspace held when it was handed over, and merging the sandbox's
    final copy with what it holds since.  A relative path is its components,
    which is how [PathBuf] compares; the sandbox's copy is a tree nobody else
    changes; the workspace is a state with the operations the merge uses. *)

From S2P Require Export Errors Host.
From stdpp Require Import pretty.
Open Scope string_scope.
Open Scope Z_scope.

Definition Rel : Type := list Component.

Inductive Entry : Type :=
  | EFile (digest : string) (executable : bool)
  | ELink (points_to : PathBuf).

#[export] Instance Entry_eq_dec : EqDecision Entry.
Proof. solve_decision. Defined.

(** A copy on disk.  What is neither a file, a link nor a directory is other. *)
Inductive Node : Type :=
  | NFile (contents : string) (executable : bool)
  | NDenied (err : string)
  | NLink (points_to : PathBuf)
  | NOther
  | NDir (entries : list (string * Node)).

Record MergeReport := { mr_written : nat; mr_deleted : nat }.

Definition report_display (r : MergeReport) : string :=
  pretty (mr_written r) +:+ " written, " +:+ pretty (mr_deleted r) +:+ " deleted".

Definition sync_io (what err : string) : MetaAgentError := EOther (what +:+ ": " +:+ err).

(** CUMA's state and git's directory never take part in a merge. *)
Definition excluded (relative : Rel) : bool :=
  match relative with
  | Normal first :: _ => bool_decide (first = ".cuma") || bool_decide (first = ".git")
  | _ => false
  end.

Section Reading.
(** SHA-256 *)
Context (sha256 : string -> string).

Definition entry_of (n : option Node) : Result (option Entry) :=
  match n with
  | None | Some NOther | Some (NDir _) => Ok None
  | Some (NLink points_to) => Ok (Some (ELink points_to))
  | Some (NDenied err) => Err (sync_io "reading a file" err)
  | Some (NFile contents executable) => Ok (Some (EFile (sha256 contents) executable))
  end.

(** Every file and link under a directory, without following links. *)
Fixpoint walk (relative : Rel) (n : Node) {struct n} : list (Rel * Node) :=
  match n with
  | NDir entries =>
      (fix go (l : list (string * Node)) : list (Rel * Node) :=
         match l with
         | [] => []
         | (name, m) :: l' =>
             let path := (relative ++ [Normal name])%list in
             ((if excluded path then []
               else match m with
                    | NDir _ => walk path m
                    | NOther => []
                    | _ => [(path, m)]
                    end) ++ go l')%list
         end) entries
  | _ => []
  end.

Fixpoint node_at (relative : Rel) (n : Node) : option Node :=
  match relative with
  | [] => Some n
  | Normal name :: relative' =>
      match n with
      | NDir entries =>
          match find (fun e => bool_decide (e.1 = name)) entries with
          | Some (_, m) => node_at relative' m
          | None => None
          end
      | _ => None
      end
  | CurDir :: relative' => node_at relative' n
  | _ => None
  end.

(** Entries of the walked paths, in order of path; the first error ends it. *)
Fixpoint entries_of (found : list (Rel * Node)) (m : btree Rel Entry) : Result (btree Rel Entry) :=
  match found with
  | [] => Ok m
  | (path, n) :: found' =>
      match entry_of (Some n) with
      | Err e => Err e
      | Ok None => entries_of found' m
      | Ok (Some e) => entries_of found' (bt_insert path e m)
      end
  end.

(** ** Recording a workspace *)

(** What git tracks or would track: names between NULs that exist. *)
Definition rel_le (a b : Rel) : bool := match key_cmp a b with Gt => false | _ => true end.

Fixpoint dedup (l : list Rel) : list Rel :=
  match l with
  | [] => []
  | x :: l' => match dedup l' with
               | y :: _ as r => if bool_decide (x = y) then r else x :: r
               | [] => [x]
               end
  end.

Definition nul_names (stdout : string) : list PathBuf :=
  map from_utf8_lossy (List.filter (fun n => negb (bool_decide (n = ""))) (split_char (of_byte 0) stdout)).

Definition git_listed (workspace : Node) (stdout : string) : list Rel :=
  dedup (stable_sort rel_le
    (List.filter (fun r => match node_at r workspace with Some _ => true | None => false end)
       (map components (nul_names stdout)))).

(** What [record] looks at for one candidate: a directory is a submodule,
    listed by git as one path. *)
Definition candidate_nodes (workspace : Node) (relative : Rel) : list (Rel * Node) :=
  if excluded relative then []
  else
    match node_at relative workspace with
    | Some (NDir entries) => walk relative (NDir entries)
    | Some n => [(relative, n)]
    | None => []
    end.

Record Snapshot := {
  sn_files : btree Rel Entry;
  sn_archive : option PathBuf;
  sn_git : bool;
}.

(** [Snapshot::record]; in a git work tree, what [git ls-files] printed. *)
Definition record (workspace : Node) (git : option (Result string)) : Result Snapshot :=
  let? candidates :=
    match git with
    | Some listing => let? stdout := listing in Ok (map (candidate_nodes workspace) (git_listed workspace stdout))
    | None => Ok [List.filter (fun c => negb (excluded c.1)) (walk [] workspace)]
    end in
  let? files := entries_of (concat candidates) [] in
  Ok {| sn_files := files; sn_archive := None; sn_git := match git with Some _ => true | None => false end |}.

(** The list [tar] is given: the recorded names, then [.git]. *)
Definition archive_list (s : Snapshot) (has_git : bool) : string :=
  str_join "" (map (fun r => of_components r +:+ String (of_byte 0) EmptyString) (bt_keys (sn_files s)))
  +:+ (if has_git then ".git" +:+ String (of_byte 0) EmptyString else EmptyString).

(** [Snapshot::take]: what became of writing the list and of running [tar]. *)
Definition take_snapshot (workspace : Node) (git : option (Result string)) (shown dir : PathBuf)
    (written : result unit string) (tar : result (bool * string) string) : Result Snapshot :=
  let? s := record workspace git in
  match written with
  | Err e => Err (sync_io "writing the archive list" e)
  | Ok _ =>
      match tar with
      | Err e => Err (sync_io "running tar" e)
      | Ok (false, stderr) =>
          Err (EOther ("archiving " +:+ from_utf8_lossy shown +:+ " failed: " +:+ trim (from_utf8_lossy stderr)))
      | Ok (true, _) =>
          Ok {| sn_files := sn_files s; sn_archive := Some (join_path dir "workspace.tar"); sn_git := sn_git s |}
      end
  end.

(** ** Comparing *)

(** What the sandbox's copy holds. *)
Definition theirs_of (result : Node) : Result (btree Rel Entry) :=
  entries_of (List.filter (fun c => negb (excluded c.1)) (walk [] result)) [].

Definition contains_rel (l : list Rel) (p : Rel) : bool := bool_decide (p ∈ l).

End Reading.

(** ** The workspace as the merge changes it *)

Record Space (F : Type) := {
  sp_entry : Rel -> F -> Result (option Entry);
  sp_exists : Rel -> F -> bool;
  sp_present : Rel -> F -> bool;
  sp_resolves_inside : Rel -> F -> result bool string;
  sp_create_dirs : Rel -> F -> F * result unit string;
  sp_remove_file : Rel -> F -> F * result unit string;
  sp_write : Rel -> Entry -> F -> F * result unit MetaAgentError;
}.
Arguments sp_entry {F}. Arguments sp_exists {F}. Arguments sp_present {F}. Arguments sp_resolves_inside {F}.
Arguments sp_create_dirs {F}. Arguments sp_remove_file {F}. Arguments sp_write {F}.

(** What to do with one path. *)
Inductive Verdict : Type := Nothing | Write (e : Entry) | Delete | Conflict.

Definition their_change (base : option Entry) (ignored : bool) (entry : Entry) (ours : option Entry) : Verdict :=
  if bool_decide (base = Some entry) || (bool_decide (base = None) && ignored) then Nothing
  else if bool_decide (ours = Some entry) then Nothing
  else if bool_decide (ours = base) then Write entry
  else Conflict.

Definition their_deletion (base : Entry) (ours : option Entry) : Verdict :=
  match ours with
  | None => Nothing
  | Some o => if bool_decide (o = base) then Delete else Conflict
  end.

Record Plan := { pl_writes : list (Rel * Entry); pl_deletes : list Rel; pl_conflicts : list Rel }.

Definition add_verdict (path : Rel) (v : Verdict) (p : Plan) : Plan :=
  match v with
  | Nothing => p
  | Write e => {| pl_writes := pl_writes p ++ [(path, e)]; pl_deletes := pl_deletes p; pl_conflicts := pl_conflicts p |}
  | Delete => {| pl_writes := pl_writes p; pl_deletes := pl_deletes p ++ [path]; pl_conflicts := pl_conflicts p |}
  | Conflict => {| pl_writes := pl_writes p; pl_deletes := pl_deletes p; pl_conflicts := pl_conflicts p ++ [path] |}
  end.

Section Merging.
Context {F : Type} (space : Space F) (snapshot : Snapshot).

(** Unchanged paths are not looked at here. *)
Fixpoint plan_theirs (ignored : list Rel) (theirs : list (Rel * Entry)) (f : F) (p : Plan) : Result Plan :=
  match theirs with
  | [] => Ok p
  | (path, entry) :: rest =>
      let base := bt_get path (sn_files snapshot) in
      if bool_decide (base = Some entry) || (bool_decide (base = None) && contains_rel ignored path)
      then plan_theirs ignored rest f p
      else
        match sp_entry space path f with
        | Err e => Err e
        | Ok ours =>
            plan_theirs ignored rest f (add_verdict path (their_change base (contains_rel ignored path) entry ours) p)
        end
  end.

Fixpoint plan_deletions (theirs : btree Rel Entry) (files : list (Rel * Entry)) (f : F) (p : Plan) : Result Plan :=
  match files with
  | [] => Ok p
  | (path, base) :: rest =>
      if bt_contains_key path theirs then plan_deletions theirs rest f p
      else
        match sp_entry space path f with
        | Err e => Err e
        | Ok ours => plan_deletions theirs rest f (add_verdict path (their_deletion base ours) p)
        end
  end.

Definition is_normal (c : Component) : bool := match c with Normal _ => true | _ => false end.

Definition check_inside (directory : Rel) (f : F) : Result unit :=
  match sp_resolves_inside space directory f with
  | Err e => Err (sync_io "resolving a directory" e)
  | Ok true => Ok tt
  | Ok false => Err (ESecurity (of_components directory +:+ " resolves outside the workspace"))
  end.

(** The nearest directory above a path that exists, the workspace at the latest. *)
Fixpoint nearest (up : list Component) (f : F) : Rel :=
  match up with
  | [] => []
  | _ :: up' => if sp_exists space (rev up) f then rev up else nearest up' f
  end.

Definition inside (relative : Rel) (f : F) : Result unit :=
  if negb (forallb is_normal relative)
  then Err (ESecurity ("the sandbox's copy names " +:+ of_components relative +:+ ", outside the workspace"))
  else check_inside (nearest (tail (rev relative)) f) f.

Fixpoint all_inside (paths : list Rel) (f : F) : Result unit :=
  match paths with
  | [] => Ok tt
  | p :: rest => let? _ := inside p f in all_inside rest f
  end.

(** One file written, one file deleted. *)
Definition write_one (path : Rel) (e : Entry) (f : F) : F * Result unit :=
  match inside path f with
  | Err err => (f, Err err)
  | Ok _ =>
      let up := removelast path in
      match sp_create_dirs space up f with
      | (f, Err err) => (f, Err (sync_io "creating a directory" err))
      | (f, Ok _) =>
          match check_inside up f with
          | Err err => (f, Err err)
          | Ok _ =>
              let '(f, cleared) :=
                if sp_present space path f
                then match sp_remove_file space path f with
                     | (f, Err err) => (f, Err (sync_io "replacing a file" err))
                     | (f, Ok _) => (f, Ok tt)
                     end
                else (f, Ok tt) in
              match cleared with
              | Err err => (f, Err err)
              | Ok _ => sp_write space path e f
              end
          end
      end
  end.

Definition delete_one (path : Rel) (f : F) : F * Result unit :=
  match inside path f with
  | Err err => (f, Err err)
  | Ok _ =>
      match sp_remove_file space path f with
      | (f, Err err) => (f, Err (sync_io "deleting a file" err))
      | (f, Ok _) => (f, Ok tt)
      end
  end.

Fixpoint write_all (writes : list (Rel * Entry)) (f : F) : F * Result unit :=
  match writes with
  | [] => (f, Ok tt)
  | (path, e) :: rest =>
      match write_one path e f with
      | (f, Ok _) => write_all rest f
      | (f, Err err) => (f, Err err)
      end
  end.

Fixpoint delete_all (deletes : list Rel) (f : F) : F * Result unit :=
  match deletes with
  | [] => (f, Ok tt)
  | path :: rest =>
      match delete_one path f with
      | (f, Ok _) => delete_all rest f
      | (f, Err err) => (f, Err err)
      end
  end.

Definition conflict_error (conflicts : list Rel) (keep : PathBuf) : MetaAgentError :=
  let shown := map of_components (take 10 conflicts) in
  EOther (pretty (length conflicts) +:+ " file(s) changed both in the sandbox and in the workspace ("
    +:+ str_join ", " shown +:+ (if Nat.ltb (length shown) (length conflicts) then ", …" else "")
    +:+ "); nothing was applied, and the sandbox's copy is kept in " +:+ from_utf8_lossy keep
    +:+ " for a manual merge").

(** [keep_copy]: making room, moving, or copying. *)
Definition keep_copy (keep : PathBuf) (made : result unit string) (renamed : bool) (copied : result bool string)
  : Result unit :=
  match made with
  | Err e => Err (sync_io "keeping the sandbox's copy" e)
  | Ok _ =>
      if renamed then Ok tt
      else match copied with
           | Err e => Err (sync_io "keeping the sandbox's copy" e)
           | Ok true => Ok tt
           | Ok false => Err (EOther ("could not keep the sandbox's copy in " +:+ from_utf8_lossy keep))
           end
  end.

(** Which of the paths git ignores. *)
Definition git_ignored (check_ignore : list Rel -> result string string) (paths : list Rel) : Result (list Rel) :=
  if bool_decide (paths = []) then Ok []
  else match check_ignore paths with
       | Err e => Err (sync_io "running git" e)
       | Ok stdout => Ok (map components (nul_names stdout))
       end.

Definition plan_merge (check_ignore : list Rel -> result string string) (theirs : btree Rel Entry) (f : F) : Result Plan :=
  let created := List.filter (fun p => negb (bt_contains_key p (sn_files snapshot))) (bt_keys theirs) in
  let? ignored := (if sn_git snapshot then git_ignored check_ignore created else Ok []) in
  let? p := plan_theirs ignored theirs f {| pl_writes := []; pl_deletes := []; pl_conflicts := [] |} in
  plan_deletions theirs (sn_files snapshot) f p.

(** What is done about a plan. *)
Definition carry_out (kept : Result unit) (keep : PathBuf) (p : Plan) (f : F) : F * Result MergeReport :=
  if negb (bool_decide (pl_conflicts p = [])) then
    match kept with
    | Err e => (f, Err e)
    | Ok _ => (f, Err (conflict_error (pl_conflicts p) keep))
    end
  else
    match all_inside (map fst (pl_writes p) ++ pl_deletes p)%list f with
    | Err e => (f, Err e)
    | Ok _ =>
        match write_all (pl_writes p) f with
        | (f, Err e) => (f, Err e)
        | (f, Ok _) =>
            match delete_all (pl_deletes p) f with
            | (f, Err e) => (f, Err e)
            | (f, Ok _) => (f, Ok {| mr_written := length (pl_writes p); mr_deleted := length (pl_deletes p) |})
            end
        end
    end.

(** [Snapshot::merge] of the sandbox's final copy. *)
Definition merge (sha256 : string -> string) (check_ignore : list Rel -> result string string)
    (kept : Result unit) (keep : PathBuf) (result : Node) (f : F) : F * Result MergeReport :=
  match theirs_of sha256 result with
  | Err e => (f, Err e)
  | Ok theirs =>
      match plan_merge check_ignore theirs f with
      | Err e => (f, Err e)
      | Ok p => carry_out kept keep p f
      end
  end.

(** [Snapshot::merge_archive]: unpacking first. *)
Definition merge_archive (sha256 : string -> string) (check_ignore : list Rel -> result string string)
    (kept : Result unit) (keep : PathBuf) (made : result unit string) (unpacked : result (bool * string) string)
    (result : Node) (f : F) : F * Result MergeReport :=
  match made with
  | Err e => (f, Err (sync_io "creating the unpack directory" e))
  | Ok _ =>
      match unpacked with
      | Err e => (f, Err (sync_io "running tar" e))
      | Ok (false, stderr) =>
          (f, Err (EOther ("unpacking the sandbox's copy failed: " +:+ trim (from_utf8_lossy stderr))))
      | Ok (true, _) => merge sha256 check_ignore kept keep result f
      end
  end.

End Merging.

(** ** Theorems

    The merge is the three-way merge of what the workspace held, what the
    sandbox holds and what the workspace holds now, applied whole or not at all. *)

(** ** The specification *)

(** What a path should hold, from what it held, what the sandbox left there and
    what is there now; nothing when both sides changed it differently.  A new
    file that git ignores is not brought back. *)
Definition three_way (base theirs ours : option Entry) (ignored : bool) : option (option Entry) :=
  if bool_decide (theirs = base) || (bool_decide (base = None) && ignored) then Some ours
  else if bool_decide (theirs = ours) then Some ours
  else if bool_decide (ours = base) then Some theirs
  else None.

Definition outcome (v : Verdict) (ours : option Entry) : option (option Entry) :=
  match v with Nothing => Some ours | Write e => Some (Some e) | Delete => Some None | Conflict => None end.

Lemma their_change_spec base ignored e ours :
  outcome (their_change base ignored e ours) ours = three_way base (Some e) ours ignored.
Proof.
  unfold their_change, three_way. rewrite (bool_decide_ext (Some e = base) (base = Some e)) by (split; congruence).
  destruct (_ || _); [done|]. rewrite (bool_decide_ext (Some e = ours) (ours = Some e)) by (split; congruence).
  repeat case_bool_decide; done.
Qed.

Lemma their_deletion_spec base ignored ours :
  outcome (their_deletion base ours) ours = three_way (Some base) None ours ignored.
Proof.
  unfold their_deletion, three_way. rewrite !(bool_decide_eq_false_2 (_ = None)) by done.
  destruct ours as [o|]; simpl; repeat case_bool_decide; simplify_eq; done.
Qed.

Lemma their_change_not_delete base ignored e ours : their_change base ignored e ours <> Delete.
Proof. unfold their_change. by repeat case_match. Qed.

Lemma their_deletion_not_write base ours e : their_deletion base ours <> Write e.
Proof. unfold their_deletion. by repeat case_match. Qed.

(** ** Plans as lists of verdicts *)

Definition writes_of (vs : list (Rel * Verdict)) : list (Rel * Entry) :=
  omap (fun c => match c.2 with Write e => Some (c.1, e) | _ => None end) vs.
Definition deletes_of (vs : list (Rel * Verdict)) : list Rel :=
  omap (fun c => match c.2 with Delete => Some c.1 | _ => None end) vs.
Definition conflicts_of (vs : list (Rel * Verdict)) : list Rel :=
  omap (fun c => match c.2 with Conflict => Some c.1 | _ => None end) vs.

Definition plan_of_verdicts (vs : list (Rel * Verdict)) (p : Plan) : Plan :=
  {| pl_writes := (pl_writes p ++ writes_of vs)%list; pl_deletes := (pl_deletes p ++ deletes_of vs)%list;
     pl_conflicts := (pl_conflicts p ++ conflicts_of vs)%list |}.

Lemma plan_of_verdicts_cons path v vs p :
  plan_of_verdicts ((path, v) :: vs) p = plan_of_verdicts vs (add_verdict path v p).
Proof.
  unfold plan_of_verdicts, writes_of, deletes_of, conflicts_of. destruct v; cbn; by rewrite <- ?(assoc_L (++)%list).
Qed.

Lemma plan_of_verdicts_nil p : plan_of_verdicts [] p = p.
Proof. unfold plan_of_verdicts. cbn. rewrite !app_nil_r. by destruct p. Qed.

Lemma plan_of_verdicts_app a b p : plan_of_verdicts (a ++ b) p = plan_of_verdicts b (plan_of_verdicts a p).
Proof.
  revert p. induction a as [|[path v] a IH]; intros p; [by rewrite plan_of_verdicts_nil|].
  cbn [app]. by rewrite !plan_of_verdicts_cons, IH.
Qed.

Lemma elem_of_writes path e vs : (path, e) ∈ writes_of vs <-> (path, Write e) ∈ vs.
Proof.
  unfold writes_of. rewrite list_elem_of_omap. split.
  - intros ([q v]&Hin&Hv). destruct v; simpl in Hv; naive_solver.
  - intros H. by exists (path, Write e).
Qed.

Lemma elem_of_deletes path vs : path ∈ deletes_of vs <-> (path, Delete) ∈ vs.
Proof.
  unfold deletes_of. rewrite list_elem_of_omap. split.
  - intros ([q v]&Hin&Hv). destruct v; simpl in Hv; naive_solver.
  - intros H. by exists (path, Delete).
Qed.

Lemma elem_of_conflicts path vs : path ∈ conflicts_of vs <-> (path, Conflict) ∈ vs.
Proof.
  unfold conflicts_of. rewrite list_elem_of_omap. split.
  - intros ([q v]&Hin&Hv). destruct v; simpl in Hv; naive_solver.
  - intros H. by exists (path, Conflict).
Qed.

(** ** What a copy holds *)

(** One path runs below another. *)
Definition below (p q : Rel) : Prop := exists t, t <> [] /\ q = (p ++ t)%list.

(** No path of a list runs below another. *)
Definition antichain (l : list Rel) : Prop := forall p q, p ∈ l -> q ∈ l -> ~ below p q.

(** The names in a directory are distinct. *)
Fixpoint tidy (n : Node) : bool :=
  match n with
  | NDir entries =>
      bool_decide (NoDup (map fst entries)) &&
      (fix go (l : list (string * Node)) : bool := match l with [] => true | (_, m) :: l' => tidy m && go l' end) entries
  | _ => true
  end.

(** What one entry of a directory adds to the walk. *)
Definition walk_entry (relative : Rel) (e : string * Node) : list (Rel * Node) :=
  let path := (relative ++ [Normal e.1])%list in
  if excluded path then []
  else match e.2 with NDir _ => walk path e.2 | NOther => [] | _ => [(path, e.2)] end.

Lemma walk_dir relative entries : walk relative (NDir entries) = concat (map (walk_entry relative) entries).
Proof. cbn [walk]. induction entries as [|[name m] entries IH]; [done|]. cbn [map concat]. by rewrite IH. Qed.

Lemma tidy_dir entries :
  tidy (NDir entries) = true -> NoDup (map fst entries) /\ Forall (fun e => tidy e.2 = true) entries.
Proof.
  cbn [tidy]. intros [Hn%bool_decide_eq_true H]%andb_true_iff. split; [done|]. clear Hn.
  induction entries as [|[name m] entries IH]; [constructor|]. apply andb_true_iff in H as [H1 H2].
  constructor; [done|by apply IH].
Qed.

(** Induction over a copy. *)
Lemma node_dir_ind (P : Node -> Prop) :
  (forall entries, Forall (fun e => P e.2) entries -> P (NDir entries)) ->
  (forall n, (forall entries, n <> NDir entries) -> P n) -> forall n, P n.
Proof.
  intros Hd Hl. fix IH 1. intros [c x|err|t| |entries]; try (by apply Hl). apply Hd.
  induction entries as [|e entries IHe]; constructor; [apply IH|exact IHe].
Qed.

Lemma walked_entry relative entries (c : Rel * Node) :
  c ∈ concat (map (walk_entry relative) entries) -> exists e, e ∈ entries /\ c ∈ walk_entry relative e.
Proof.
  rewrite list_elem_of_In, in_concat. intros (l&(e&<-&He)%in_map_iff&Hc). exists e. by rewrite !list_elem_of_In.
Qed.

Lemma walk_entry_path relative e (c : Rel * Node) : c ∈ walk_entry relative e ->
  match e.2 with
  | NDir _ => c ∈ walk (relative ++ [Normal e.1])%list e.2
  | _ => c.1 = (relative ++ [Normal e.1])%list
  end.
Proof.
  unfold walk_entry. destruct (excluded _); [by intros ?%not_elem_of_nil|].
  destruct e.2; try (by intros ->%list_elem_of_singleton); [by intros ?%not_elem_of_nil|done].
Qed.

Lemma one_entry (entries : list (string * Node)) e e' :
  NoDup (map fst entries) -> e ∈ entries -> e' ∈ entries -> e'.1 = e.1 -> e' = e.
Proof.
  induction entries as [|x entries IH]; [by intros _ ?%not_elem_of_nil|]. cbn [map]. intros [Hn Hd]%list.NoDup_cons.
  assert (forall y, y ∈ entries -> y.1 <> x.1) as Hno.
  { intros y Hy E. apply Hn. rewrite <- E. apply list_elem_of_In, in_map. by apply list_elem_of_In. }
  intros [->|He]%elem_of_cons [->|He']%elem_of_cons E; [done|by destruct (Hno e')|by destruct (Hno e)|by apply IH].
Qed.

Lemma walk_below n relative c : c ∈ walk relative n -> below relative c.1.
Proof.
  revert relative. induction n as [entries IH|n Hn] using node_dir_ind; intros relative.
  - rewrite walk_dir. intros (e&He&Hc)%walked_entry.
    rewrite list.Forall_forall in IH. specialize (IH e He). apply walk_entry_path in Hc.
    destruct e.2; try (rewrite Hc; exists [Normal e.1]; split; [discriminate|reflexivity]).
    apply IH in Hc as (t&Ht&Ec). rewrite Ec. exists (Normal e.1 :: t). split; [done|]. by rewrite <- app_assoc.
  - intros Hc. destruct n; try (by apply not_elem_of_nil in Hc). by destruct (Hn entries).
Qed.

Lemma below_irrefl p : ~ below p p.
Proof. intros (t&Ht&E). apply (f_equal length) in E. rewrite length_app in E. destruct t; [done|cbn in E; lia]. Qed.

(** A walk names files and links, so no path of it runs below another. *)
Lemma walk_antichain n relative : tidy n = true -> antichain (map fst (walk relative n)).
Proof.
  revert relative. induction n as [entries IH|n Hn] using node_dir_ind; intros relative Ht.
  2: { destruct n; try (by intros p q Hp%not_elem_of_nil). by destruct (Hn entries). }
  apply tidy_dir in Ht as [Hd Ht]. rewrite list.Forall_forall in IH, Ht. rewrite walk_dir.
  intros p q Hp Hq. apply list_elem_of_In, in_map_iff in Hp as (cp&<-&Hp), Hq as (cq&<-&Hq).
  apply list_elem_of_In, walked_entry in Hp as (e&He&Hp), Hq as (e'&He'&Hq).
  assert (forall (c : Rel * Node) x, c ∈ walk_entry relative x -> exists t, c.1 = (relative ++ Normal x.1 :: t)%list) as Hpath.
  { intros c x H%walk_entry_path. destruct x.2; try (by exists []).
    apply walk_below in H as (t&_&->). exists t. by rewrite <- app_assoc. }
  intros B. pose proof B as (t&Hne&E). destruct (Hpath _ _ Hp) as [tp Ep], (Hpath _ _ Hq) as [tq Eq].
  rewrite Ep, Eq, <- app_assoc in E. apply app_inv_head in E. injection E as Ename _.
  apply (one_entry entries e e') in Ename; try done. subst e'. clear Hpath Ep Eq.
  apply walk_entry_path in Hp, Hq. specialize (IH e He). specialize (Ht e He).
  destruct e.2; try (rewrite Hp, Hq in B; by apply below_irrefl in B).
  apply (IH (relative ++ [Normal e.1])%list Ht cp.1 cq.1); [apply list_elem_of_In, in_map; by apply list_elem_of_In..|exact B].
Qed.

(** ** The workspace, as a file system behaves *)

Section Laws.
Context {F : Type} (space : Space F) (snapshot : Snapshot).
(** The file or link a directory entry is, no link followed on the way. *)
Context (content : F -> Rel -> option Entry).

(** No part of the way to [q] is a link. *)
Definition straight (f : F) (q : Rel) : Prop := forall p t, content f p = Some (ELink t) -> ~ below p q.

(** Nothing is known of what is done through a link.  On a straight path, where
    names differ when their bytes do: what is read is what is there, if it can
    be read; making directories touches no file and no link; removing takes a
    file or a link away, never a directory with something in it; and what is
    written is what is there then. *)
Class SpaceLaws : Prop := {
  entry_reads p f e : straight f p -> sp_entry space p f = Ok e -> e = content f p;
  present_sees p f : straight f p -> content f p <> None \/ (exists q, below p q /\ content f q <> None) ->
    sp_present space p f = true;
  dirs_keep p f q : content (fst (sp_create_dirs space p f)) q = content f q;
  remove_changes p f f' : straight f p -> sp_remove_file space p f = (f', Ok tt) ->
    content f' p = None /\ (forall q, q <> p -> content f' q = content f q) /\ (forall q, below p q -> content f q = None);
  write_changes p e f f' : straight f p -> sp_write space p e f = (f', Ok tt) ->
    content f' p = Some e /\ forall q, q <> p -> content f' q = content f q;
}.

Context {laws : SpaceLaws}.

Definition verdict_theirs (ignored : list Rel) (f : F) (c : Rel * Entry) : Rel * Verdict :=
  (c.1, their_change (bt_get c.1 (sn_files snapshot)) (contains_rel ignored c.1) c.2 (content f c.1)).

Definition verdict_deletion (f : F) (c : Rel * Entry) : Rel * Verdict :=
  (c.1, their_deletion c.2 (content f c.1)).

Lemma plan_theirs_spec ignored theirs f p p' :
  (forall q, q ∈ map fst theirs -> straight f q) -> plan_theirs space snapshot ignored theirs f p = Ok p' ->
  p' = plan_of_verdicts (map (verdict_theirs ignored f) theirs) p.
Proof.
  revert p. induction theirs as [|[path e] theirs IH]; intros p Hs; cbn [plan_theirs map].
  { intros [= <-]. by rewrite plan_of_verdicts_nil. }
  assert (forall q, q ∈ map fst theirs -> straight f q) as Hs' by (intros q Hq; apply Hs; by right).
  unfold verdict_theirs at 1. cbn [fst snd]. rewrite plan_of_verdicts_cons.
  destruct (_ || _) eqn:E.
  - intros H%IH; [|done]. rewrite H. unfold their_change. by rewrite E.
  - destruct (sp_entry space path f) as [ours|] eqn:Er; [|done]. apply entry_reads in Er as ->; [|apply Hs; by left].
    by apply IH.
Qed.

Definition gone (theirs : btree Rel Entry) (c : Rel * Entry) : bool := negb (bt_contains_key c.1 theirs).

Lemma plan_deletions_spec theirs files f p p' :
  (forall q, q ∈ map fst files -> straight f q) -> plan_deletions space theirs files f p = Ok p' ->
  p' = plan_of_verdicts (map (verdict_deletion f) (List.filter (gone theirs) files)) p.
Proof.
  revert p. induction files as [|[path b] files IH]; intros p Hs; cbn [plan_deletions List.filter].
  { intros [= <-]. by rewrite plan_of_verdicts_nil. }
  assert (forall q, q ∈ map fst files -> straight f q) as Hs' by (intros q Hq; apply Hs; by right).
  unfold gone at 1. cbn [fst]. destruct (bt_contains_key path theirs); [by apply IH|]. cbn [negb map].
  unfold verdict_deletion at 1. cbn [fst snd]. rewrite plan_of_verdicts_cons.
  destruct (sp_entry space path f) as [ours|] eqn:Er; [|done]. apply entry_reads in Er as ->; [|apply Hs; by left].
  by apply IH.
Qed.

Definition verdicts (ignored : list Rel) (theirs : btree Rel Entry) (f : F) : list (Rel * Verdict) :=
  (map (verdict_theirs ignored f) theirs
   ++ map (verdict_deletion f) (List.filter (gone theirs) (sn_files snapshot)))%list.

(** The verdict on a path is what the specification says of it. *)
Lemma verdicts_spec ignored theirs f path v :
  bt_wf theirs -> bt_wf (sn_files snapshot) -> (path, v) ∈ verdicts ignored theirs f ->
  outcome v (content f path)
  = three_way (bt_get path (sn_files snapshot)) (bt_get path theirs) (content f path) (contains_rel ignored path).
Proof.
  intros Ht Hs. unfold verdicts. rewrite elem_of_app, !list_elem_of_In, !in_map_iff.
  intros [([q e]&[= -> <-]&Hin)|([q b]&[= -> <-]&[Hin Hg]%filter_In)]; apply list_elem_of_In in Hin; cbn [fst snd].
  - rewrite (bt_elem_of_get path e theirs) by (done || by apply bt_wf_NoDup). apply their_change_spec.
  - rewrite (bt_elem_of_get path b (sn_files snapshot)) by (done || by apply bt_wf_NoDup).
    unfold gone in Hg. cbn [fst] in Hg. unfold bt_contains_key in Hg.
    destruct (bt_get path theirs); [done|]. apply their_deletion_spec.
Qed.

(** A path without a verdict is unchanged in the sandbox. *)
Lemma verdicts_cover ignored theirs f path :
  (forall v, (path, v) ∉ verdicts ignored theirs f) ->
  bt_get path theirs = None /\ bt_get path (sn_files snapshot) = None.
Proof.
  intros H. assert (bt_get path theirs = None) as Et.
  { destruct (bt_get path theirs) as [e|] eqn:E; [|done]. exfalso.
    apply (H (their_change (bt_get path (sn_files snapshot)) (contains_rel ignored path) e (content f path))).
    apply elem_of_app. left. apply list_elem_of_In, in_map_iff. exists (path, e). split; [done|].
    by apply list_elem_of_In, bt_get_elem_of. }
  split; [done|]. destruct (bt_get path (sn_files snapshot)) as [b|] eqn:E; [|done]. exfalso.
  apply (H (their_deletion b (content f path))). apply elem_of_app. right.
  apply list_elem_of_In, in_map_iff. exists (path, b). split; [done|]. apply filter_In.
  split; [by apply list_elem_of_In, bt_get_elem_of|]. unfold gone, bt_contains_key. cbn. by rewrite Et.
Qed.

Lemma verdicts_nodup ignored theirs f :
  bt_wf theirs -> bt_wf (sn_files snapshot) -> NoDup (map fst (verdicts ignored theirs f)).
Proof.
  intros Ht Hs. unfold verdicts. rewrite map_app, !map_map. cbn [fst verdict_theirs verdict_deletion].
  apply NoDup_app. split_and!.
  - by apply bt_wf_NoDup in Ht.
  - intros q Hq Hq'. apply list_elem_of_In, in_map_iff in Hq' as ([q' b]&<-&[_ Hg]%filter_In).
    unfold gone in Hg. apply negb_true_iff in Hg. cbn in Hg. apply not_true_iff_false in Hg. apply Hg.
    by apply bt_contains_key_spec.
  - apply (bt_wf_NoDup (bt_retain (fun k _ => negb (bt_contains_key k theirs)) (sn_files snapshot))).
    by apply bt_wf_retain.
Qed.

(** ** Applying *)

Lemma straight_same f f' q : (forall p, content f' p = content f p) -> straight f q -> straight f' q.
Proof. intros H Hs p t Hp. apply (Hs p t). by rewrite <- H. Qed.

Lemma write_one_ok path e f f' : straight f path -> write_one space path e f = (f', Ok tt) ->
  content f' path = Some e /\ (forall q, q <> path -> content f' q = content f q)
  /\ (forall q, below path q -> content f q = None).
Proof.
  intros Hs. unfold write_one. destruct (inside space path f) as [[]|]; [|done].
  pose proof (dirs_keep (removelast path) f) as Hd.
  destruct (sp_create_dirs space (removelast path) f) as [f1 [[]|]]; [|done]. cbn [fst] in Hd.
  apply (straight_same f f1) in Hs; [|done].
  destruct (check_inside space _ f1) as [[]|]; [|done].
  pose proof (present_sees path f1 Hs) as Hp. destruct (sp_present space path f1).
  - destruct (sp_remove_file space path f1) as [f2 [[]|]] eqn:Er; [|done].
    apply remove_changes in Er as (Hn&Hr&Hb); [|done].
    assert (straight f2 path) as Hs2.
    { intros p t Ht. destruct (decide (p = path)) as [->|Hne]; [congruence|]. apply (Hs p t). by rewrite <- Hr. }
    intros [Hw Ho]%write_changes; [|done]. split; [done|]. split; intros q Hq; [by rewrite Ho, Hr, Hd|by rewrite <- Hd, Hb].
  - intros [Hw Ho]%write_changes; [|done]. split; [done|]. split; intros q Hq; [by rewrite Ho, Hd|].
    rewrite <- Hd. destruct (content f1 q) eqn:E; [|done]. exfalso.
    assert (false = true) as [=]. apply Hp. right. exists q. split; [done|by rewrite E].
Qed.

Lemma write_all_ok writes f f' : write_all space writes f = (f', Ok tt) -> NoDup (map fst writes) ->
  antichain (map fst writes) -> (forall q, q ∈ map fst writes -> straight f q) ->
  (forall q e, (q, e) ∈ writes -> content f' q = Some e)
  /\ (forall q, q ∉ map fst writes -> content f' q = content f q)
  /\ (forall p q, p ∈ map fst writes -> below p q -> content f q = None).
Proof.
  revert f. induction writes as [|[path e] writes IH]; intros f; cbn [write_all map fst].
  { intros [= <-] _ _ _. split_and!; [set_solver|done|set_solver]. }
  destruct (write_one space path e f) as [f1 [[]|]] eqn:E; [|done]. intros H [Hn Hd]%list.NoDup_cons Ha Hs.
  apply write_one_ok in E as (Hp&Ho&Hb); [|apply Hs; by left].
  assert (antichain (map fst writes)) as Ha' by (intros p q Hp' Hq; apply Ha; by right).
  assert (forall q, q ∈ map fst writes -> straight f1 q) as Hs1.
  { intros q Hq p t Ht. destruct (decide (p = path)) as [->|Hne]; [apply Ha; [by left|by right]|].
    apply (Hs q ltac:(by right) p t). by rewrite <- Ho. }
  destruct (IH f1 H Hd Ha' Hs1) as (Hi&Hx&Hbx). split_and!.
  - intros q e' [[= -> ->]|Hin]%elem_of_cons; [by rewrite Hx|by apply Hi].
  - intros q Hq. rewrite Hx by set_solver. apply Ho. set_solver.
  - intros p q [->|Hin]%elem_of_cons Hq; [by apply Hb|]. rewrite <- Ho; [by apply (Hbx p)|].
    intros ->. apply (Ha p path); [by right|by left|done].
Qed.

Lemma delete_all_ok deletes f f' : delete_all space deletes f = (f', Ok tt) -> NoDup deletes ->
  (forall q, q ∈ deletes -> straight f q) ->
  forall q, content f' q = if bool_decide (q ∈ deletes) then None else content f q.
Proof.
  revert f. induction deletes as [|path deletes IH]; intros f; cbn [delete_all].
  { intros [= <-] _ _ q. by rewrite bool_decide_eq_false_2 by set_solver. }
  unfold delete_one. destruct (inside space path f) as [[]|]; [|done].
  destruct (sp_remove_file space path f) as [f1 [[]|]] eqn:E; [|done]. intros H [Hn Hd]%list.NoDup_cons Hs q.
  apply remove_changes in E as (Hp&Ho&_); [|apply Hs; by left].
  rewrite (IH f1 H Hd).
  - destruct (decide (q = path)) as [->|Hq].
    + rewrite (bool_decide_eq_true_2 (path ∈ path :: deletes)) by set_solver. by case_bool_decide.
    + rewrite (bool_decide_ext (q ∈ path :: deletes) (q ∈ deletes)) by set_solver. case_bool_decide; [done|by apply Ho].
  - intros r Hr p t Ht. destruct (decide (p = path)) as [->|Hne]; [congruence|].
    apply (Hs r ltac:(by right) p t). by rewrite <- Ho.
Qed.

Lemma nodup_omap (g : Rel * Verdict -> option Rel) vs :
  (forall c x, g c = Some x -> x = c.1) -> NoDup (map fst vs) -> NoDup (omap g vs).
Proof.
  intros Hg. induction vs as [|c vs IH]; [constructor|]. cbn [map]. intros [Hn Hd]%list.NoDup_cons. cbn.
  destruct (g c) as [x|] eqn:E; [|by apply IH]. apply Hg in E as ->. constructor; [|by apply IH].
  intros (d&Hin&Hd')%list_elem_of_omap. apply Hg in Hd'. apply Hn. rewrite Hd'. apply list_elem_of_In.
  apply in_map. by apply list_elem_of_In.
Qed.

Lemma writes_keys vs : map fst (writes_of vs) = omap (fun c => match c.2 with Write e => Some c.1 | _ => None end) vs.
Proof. induction vs as [|[q v] vs IH]; [done|]. unfold writes_of in *. cbn. destruct v; cbn; by rewrite ?IH. Qed.

(** A path has one verdict. *)
Lemma one_verdict (vs : list (Rel * Verdict)) q v w :
  NoDup (map fst vs) -> (q, v) ∈ vs -> (q, w) ∈ vs -> v = w.
Proof.
  induction vs as [|[r u] vs IH]; [set_solver|]. cbn [map fst]. intros [Hn Hd]%list.NoDup_cons.
  assert (forall x, (r, x) ∈ vs -> False) as Hno.
  { intros x Hx. apply Hn. apply list_elem_of_In. change r with ((r, x).1). apply in_map. by apply list_elem_of_In. }
  intros Hv Hw. apply elem_of_cons in Hv as [Hv|Hv]; apply elem_of_cons in Hw as [Hw|Hw].
  - congruence.
  - injection Hv as <- <-. by exfalso; eapply Hno.
  - injection Hw as <- <-. by exfalso; eapply Hno.
  - by apply IH.
Qed.

Definition ignored_of (check_ignore : list Rel -> result string string) (theirs : btree Rel Entry) : Result (list Rel) :=
  if sn_git snapshot
  then git_ignored check_ignore (List.filter (fun p => negb (bt_contains_key p (sn_files snapshot))) (bt_keys theirs))
  else Ok [].

Definition wanted (ignored : list Rel) (theirs : btree Rel Entry) (f : F) (path : Rel) : option (option Entry) :=
  three_way (bt_get path (sn_files snapshot)) (bt_get path theirs) (content f path) (contains_rel ignored path).

Lemma wanted_verdict ignored theirs f path v :
  bt_wf theirs -> bt_wf (sn_files snapshot) -> (path, v) ∈ verdicts ignored theirs f ->
  wanted ignored theirs f path = outcome v (content f path).
Proof. intros Ht Hs Hv. symmetry. exact (verdicts_spec ignored theirs f path v Ht Hs Hv). Qed.

Lemma wanted_silent ignored theirs f path :
  (forall v, (path, v) ∉ verdicts ignored theirs f) ->
  wanted ignored theirs f path = Some (content f path).
Proof.
  intros H. apply verdicts_cover in H as [Et Es]. unfold wanted, three_way. by rewrite Et, Es.
Qed.

(** Every path the merge is about is straight, and none of the sandbox's runs
    below another. *)
Definition plain_paths (theirs : btree Rel Entry) (f : F) : Prop :=
  antichain (bt_keys theirs) /\ forall p, p ∈ bt_keys theirs \/ p ∈ bt_keys (sn_files snapshot) -> straight f p.

Lemma verdict_path ignored theirs f p v :
  (p, v) ∈ verdicts ignored theirs f ->
  p ∈ bt_keys theirs /\ v <> Delete \/
  p ∈ bt_keys (sn_files snapshot) /\ (forall e, v <> Write e) /\ (v = Delete -> content f p <> None).
Proof.
  unfold verdicts. rewrite elem_of_app, !list_elem_of_In, !in_map_iff.
  intros [([q e]&[= -> <-]&Hin)|([q b]&[= -> <-]&[Hin _]%filter_In)]; cbn [fst snd].
  - left. split; [|apply their_change_not_delete]. unfold bt_keys. apply in_map_iff. by exists (p, e).
  - right. split; [unfold bt_keys; apply in_map_iff; by exists (p, b)|]. split; [intros e; apply their_deletion_not_write|].
    unfold their_deletion. by destruct (content f p).
Qed.

(** Writing and then deleting what the verdicts say finds every path straight. *)
Lemma applied_content ignored theirs f f1 f2 :
  bt_wf theirs -> bt_wf (sn_files snapshot) -> plain_paths theirs f ->
  let vs := verdicts ignored theirs f in
  write_all space (writes_of vs) f = (f1, Ok tt) -> delete_all space (deletes_of vs) f1 = (f2, Ok tt) ->
  (forall q e, (q, e) ∈ writes_of vs -> content f1 q = Some e)
  /\ (forall q, q ∉ map fst (writes_of vs) -> content f1 q = content f q)
  /\ forall q, content f2 q = if bool_decide (q ∈ deletes_of vs) then None else content f1 q.
Proof.
  intros Ht Hs [Ha Hp] vs Hw Hd. pose proof (verdicts_nodup ignored theirs f Ht Hs) as Hn. fold vs in Hn.
  assert (forall q, q ∈ map fst (writes_of vs) -> q ∈ bt_keys theirs) as Hkeys.
  { intros q Hq. apply list_elem_of_In, in_map_iff in Hq as ([q' e]&<-&Hq).
    apply list_elem_of_In, elem_of_writes, verdict_path in Hq as [[Hq _]|(_&Hq&_)]; [exact Hq|by destruct (Hq e)]. }
  apply write_all_ok in Hw as (Hwi&Hwx&Hwb).
  - split; [done|]. split; [done|]. apply (delete_all_ok _ _ _ Hd).
    + apply nodup_omap; [|done]. intros [q []] x; cbn; congruence.
    + intros q Hq%elem_of_deletes%verdict_path. destruct Hq as [[_ Hq]|(Hq&_&Hc)]; [done|]. specialize (Hc eq_refl).
      intros p t Hpt B. destruct (decide (p ∈ map fst (writes_of vs))) as [Hin|Hout]; [by apply Hc, (Hwb p)|].
      apply (Hp q ltac:(by right) p t); [by rewrite <- Hwx|done].
  - rewrite writes_keys. apply nodup_omap; [|done]. intros [q []] x; cbn; congruence.
  - intros p q Hpk Hqk. apply Ha; by apply Hkeys.
  - intros q Hq. apply Hp. left. by apply Hkeys.
Qed.

(** What was applied is what was wanted. *)
Lemma applied_wanted ignored theirs f f1 f2 path :
  bt_wf theirs -> bt_wf (sn_files snapshot) -> plain_paths theirs f ->
  let vs := verdicts ignored theirs f in
  conflicts_of vs = [] -> write_all space (writes_of vs) f = (f1, Ok tt) ->
  delete_all space (deletes_of vs) f1 = (f2, Ok tt) ->
  wanted ignored theirs f path = Some (content f2 path).
Proof.
  intros Ht Hs Hpl vs Hc Hw Hd. pose proof (verdicts_nodup ignored theirs f Ht Hs) as Hn. fold vs in Hn.
  destruct (applied_content ignored theirs f f1 f2 Ht Hs Hpl Hw Hd) as (Hwi&Hwx&Hdx). fold vs in Hwi, Hwx, Hdx.
  rewrite Hdx. clear Hdx.
  assert ((exists v, (path, v) ∈ vs) \/ forall v, (path, v) ∉ vs) as [[v Hv]|Hno].
  { destruct (decide (path ∈ map fst vs)) as [Hin|Hin].
    - left. apply list_elem_of_In, in_map_iff in Hin as ([q v]&<-&Hin). exists v. by apply list_elem_of_In.
    - right. intros v Hv. apply Hin. apply list_elem_of_In. change path with ((path, v).1). apply in_map.
      by apply list_elem_of_In. }
  - rewrite (wanted_verdict ignored theirs f path v Ht Hs Hv).
    assert (forall w, (path, w) ∈ vs -> w = v) as Hone by (intros w Hin; by apply (one_verdict vs path)).
    assert ((forall e, v <> Write e) -> path ∉ map fst (writes_of vs)) as Hnw.
    { intros Hne Hin. apply list_elem_of_In, in_map_iff in Hin as ([q e]&Eq&Hin). cbn in Eq. subst q.
      apply list_elem_of_In, elem_of_writes, Hone in Hin. by apply (Hne e). }
    assert (path ∈ deletes_of vs <-> v = Delete) as Hdel.
    { rewrite elem_of_deletes. split; [intros H; symmetry; by apply Hone|by intros <-]. }
    destruct v; cbn [outcome].
    + rewrite bool_decide_eq_false_2 by (by rewrite Hdel). by rewrite Hwx by (by apply Hnw).
    + rewrite bool_decide_eq_false_2 by (by rewrite Hdel). rewrite (Hwi path e); [done|]. by apply elem_of_writes.
    + by rewrite bool_decide_eq_true_2 by (by rewrite Hdel).
    + exfalso. assert (path ∈ conflicts_of vs) as Hin by (by apply elem_of_conflicts). rewrite Hc in Hin. set_solver.
  - rewrite (wanted_silent ignored theirs f path Hno). rewrite bool_decide_eq_false_2.
    + rewrite Hwx; [done|]. intros Hin. apply list_elem_of_In, in_map_iff in Hin as ([q e]&Eq&Hin). cbn in Eq. subst q.
      apply list_elem_of_In, elem_of_writes in Hin. by apply (Hno (Write e)).
    + rewrite elem_of_deletes. apply Hno.
Qed.

End Laws.

(** Only paths that would change are written or deleted. *)
Lemma write_changes_content {F} snapshot (content : F -> Rel -> option Entry) ignored theirs f p e :
  (p, Write e) ∈ verdicts snapshot content ignored theirs f -> Some e <> content f p.
Proof.
  unfold verdicts. rewrite elem_of_app, !list_elem_of_In, !in_map_iff.
  intros [([q e']&[= -> Hv]&_)|([q b]&[= -> Hv]&_)]; cbn [fst snd] in Hv.
  - unfold their_change in Hv. repeat case_match; simplify_eq. destruct_bools. congruence.
  - by apply their_deletion_not_write in Hv.
Qed.

Lemma delete_changes_content {F} snapshot (content : F -> Rel -> option Entry) ignored theirs f p :
  (p, Delete) ∈ verdicts snapshot content ignored theirs f -> None <> content f p.
Proof.
  unfold verdicts. rewrite elem_of_app, !list_elem_of_In, !in_map_iff.
  intros [([q e']&[= -> Hv]&_)|([q b]&[= -> Hv]&_)]; cbn [fst snd] in Hv.
  - by apply their_change_not_delete in Hv.
  - unfold their_deletion in Hv. by destruct (content f p).
Qed.

Lemma all_inside_exists {F} (space : Space F) paths f :
  all_inside space paths f = Ok tt -> Exists (fun p => inside space p f <> Ok tt) paths -> False.
Proof.
  induction paths as [|p paths IH]; cbn [all_inside]; intros H Hx; [by apply Exists_nil in Hx|].
  destruct (inside space p f) as [[]|] eqn:E; [|done]. cbn [result_bind] in H.
  apply Exists_cons in Hx as [Hx|Hx]; [congruence|by apply IH].
Qed.

Lemma entries_of_wf sha256 found m m' : bt_wf m -> entries_of sha256 found m = Ok m' -> bt_wf m'.
Proof.
  revert m. induction found as [|[path n] found IH]; intros m Hm; cbn [entries_of]; [by intros [= <-]|].
  destruct (entry_of sha256 (Some n)) as [[e|]|]; [|by apply IH|done]. apply IH. by apply bt_wf_insert.
Qed.

Lemma entries_of_keys sha256 found m m' k :
  entries_of sha256 found m = Ok m' -> k ∈ bt_keys m' -> k ∈ map fst found \/ k ∈ bt_keys m.
Proof.
  revert m. induction found as [|[path n] found IH]; intros m; cbn [entries_of map fst]; [intros [= <-]; by right|].
  destruct (entry_of sha256 (Some n)) as [[e|]|]; [|intros H Hk; destruct (IH _ H Hk); [left; by right|by right]|done].
  intros H Hk. destruct (IH _ H Hk) as [Hf|Hf]; [left; by right|].
  apply bt_insert_keys in Hf as [->|Hf]; [left; by left|by right].
Qed.

(** What a tidy copy holds are leaves. *)
Lemma theirs_antichain sha256 result theirs :
  tidy result = true -> theirs_of sha256 result = Ok theirs -> antichain (bt_keys theirs).
Proof.
  intros Ht He p q Hp Hq. unfold theirs_of in He.
  assert (forall k, k ∈ bt_keys theirs -> k ∈ map fst (walk [] result)) as Hk.
  { intros k Hk. apply (entries_of_keys _ _ _ _ _ He) in Hk as [Hk|Hk]; [|by apply not_elem_of_nil in Hk].
    apply list_elem_of_In, in_map_iff in Hk as (c&<-&[Hk _]%filter_In). apply list_elem_of_In, in_map. exact Hk. }
  apply (walk_antichain result []); [done|by apply Hk|by apply Hk].
Qed.

(** What a plan is when every path it looks at is straight. *)
Lemma plan_merge_spec {F} (space : Space F) snapshot content {L : SpaceLaws space content} check_ignore theirs ignored f p :
  plain_paths snapshot content theirs f -> ignored_of snapshot check_ignore theirs = Ok ignored ->
  plan_merge space snapshot check_ignore theirs f = Ok p ->
  p = plan_of_verdicts (verdicts snapshot content ignored theirs f) {| pl_writes := []; pl_deletes := []; pl_conflicts := [] |}.
Proof.
  intros [_ Hp] Ei. unfold plan_merge. unfold ignored_of in Ei. rewrite Ei. cbn [result_bind].
  destruct (plan_theirs space snapshot ignored theirs f _) as [p1|] eqn:E1; [|done]. cbn [result_bind].
  apply (plan_theirs_spec space snapshot content) in E1 as ->; [|intros q Hq; apply Hp; by left].
  intros ->%(plan_deletions_spec space content); [|intros q Hq; apply Hp; by right].
  unfold verdicts. by rewrite plan_of_verdicts_app.
Qed.

(** The entries of all paths can be read, so there is a plan. *)
Lemma plan_merge_reads {F} (space : Space F) snapshot check_ignore theirs ignored f :
  ignored_of snapshot check_ignore theirs = Ok ignored ->
  (forall q, q ∈ bt_keys theirs \/ q ∈ bt_keys (sn_files snapshot) -> is_ok (sp_entry space q f) = true) ->
  exists p, plan_merge space snapshot check_ignore theirs f = Ok p.
Proof.
  intros Ei Hr. unfold plan_merge. unfold ignored_of in Ei. rewrite Ei. cbn [result_bind].
  assert (forall l p, (forall q, q ∈ bt_keys l -> is_ok (sp_entry space q f) = true) ->
    exists p', plan_theirs space snapshot ignored l f p = Ok p') as H1.
  { induction l as [|[q e] l IH]; intros p H; cbn [plan_theirs]; [eauto|].
    assert (is_ok (sp_entry space q f) = true) as Hq by (apply H; by left).
    destruct (_ || _); [|destruct (sp_entry space q f); [|done]]; apply IH; intros r Hr'; apply H; by right. }
  assert (forall l p, (forall q, q ∈ bt_keys l -> is_ok (sp_entry space q f) = true) ->
    exists p', plan_deletions space theirs l f p = Ok p') as H2.
  { induction l as [|[q e] l IH]; intros p H; cbn [plan_deletions]; [eauto|].
    assert (is_ok (sp_entry space q f) = true) as Hq by (apply H; by left).
    destruct (bt_contains_key _ _); [|destruct (sp_entry space q f); [|done]]; apply IH; intros r Hr'; apply H; by right. }
  destruct (H1 theirs {| pl_writes := []; pl_deletes := []; pl_conflicts := [] |}) as [p1 ->]; [intros q Hq; apply Hr; by left|].
  apply H2. intros q Hq. apply Hr. by right.
Qed.

(** C27: Merging is the three-way merge of what each path held, what the sandbox
    left there and what is there now, when no path the merge is about runs
    through a link of the workspace: if any path was changed differently on both
    sides nothing is applied, and the error names exactly those paths, unless a
    path cannot be read; if any path to change leads outside the workspace
    nothing is applied; and when it succeeds every path of the workspace holds
    what the specification wants. *)
Theorem merge_three_way {F} (space : Space F) snapshot content sha256 check_ignore kept keep result theirs ignored f :
  SpaceLaws space content -> bt_wf (sn_files snapshot) -> tidy result = true ->
  theirs_of sha256 result = Ok theirs -> ignored_of snapshot check_ignore theirs = Ok ignored ->
  (forall p, p ∈ bt_keys theirs \/ p ∈ bt_keys (sn_files snapshot) -> straight content f p) ->
  let want := wanted snapshot content ignored theirs f in
  exists conflicts changed,
    (forall p, p ∈ conflicts <-> want p = None)
    /\ (forall p, p ∈ changed <-> exists e, want p = Some e /\ e <> content f p)
    /\ let '(f', answer) := merge space snapshot sha256 check_ignore kept keep result f in
       (conflicts <> [] -> f' = f /\ is_ok answer = false
          /\ ((forall q, q ∈ bt_keys theirs \/ q ∈ bt_keys (sn_files snapshot) -> is_ok (sp_entry space q f) = true) ->
              kept = Ok tt -> answer = Err (conflict_error conflicts keep)))
       /\ (Exists (fun p => inside space p f <> Ok tt) changed -> f' = f /\ is_ok answer = false)
       /\ (is_ok answer = true -> conflicts = [] /\ forall p, want p = Some (content f' p)).
Proof.
  intros L Hs Htidy Et Ei Hst want. set (vs := verdicts snapshot content ignored theirs f).
  assert (bt_wf theirs) as Ht by (eapply entries_of_wf; [exact bt_wf_nil|exact Et]).
  assert (plain_paths snapshot content theirs f) as Hpl by (split; [by eapply theirs_antichain|exact Hst]).
  assert (forall p v, (p, v) ∈ vs -> want p = outcome v (content f p)) as Hv
    by (intros p v; by apply wanted_verdict).
  assert (forall p, want p = Some (content f p) \/ exists v, (p, v) ∈ vs) as Hcases.
  { intros p. destruct (decide (p ∈ map fst vs)) as [Hin|Hin].
    - right. apply list_elem_of_In, in_map_iff in Hin as ([q v]&<-&Hin). exists v. by apply list_elem_of_In.
    - left. apply wanted_silent. intros v Hin'. apply Hin. apply list_elem_of_In.
      change p with ((p, v).1). apply in_map. by apply list_elem_of_In. }
  exists (conflicts_of vs), (map fst (writes_of vs) ++ deletes_of vs)%list. split; [|split].
  - intros p. rewrite elem_of_conflicts. split; [by intros H%Hv|].
    intros Hp. destruct (Hcases p) as [Hc|[v Hin]]; [congruence|]. pose proof (Hv p v Hin) as Ho. rewrite Hp in Ho.
    by destruct v.
  - intros p. rewrite elem_of_app, elem_of_deletes. split.
    + intros [Hin|Hin].
      * apply list_elem_of_In, in_map_iff in Hin as ([q e]&Eq&Hin). cbn in Eq. subst q.
        apply list_elem_of_In, elem_of_writes in Hin. exists (Some e). split; [by apply Hv in Hin|].
        by eapply write_changes_content.
      * exists None. split; [by apply Hv in Hin|]. by eapply delete_changes_content.
    + intros (e&He&Hne). destruct (Hcases p) as [Hc|[v Hin]]; [congruence|].
      pose proof (Hv p v Hin) as Ho. rewrite He in Ho. destruct v as [|e'| |]; cbn in Ho; simplify_eq.
      * left. apply list_elem_of_In. change p with ((p, e').1). apply in_map. by apply list_elem_of_In, elem_of_writes.
      * by right.
  - unfold merge. rewrite Et. destruct (plan_merge space snapshot check_ignore theirs f) as [pl|err] eqn:Ep.
    2: { split; [intros _|done]. split; [done|]. split; [done|]. intros Hr.
         destruct (plan_merge_reads space snapshot check_ignore theirs ignored f Ei Hr) as [p E]. congruence. }
    apply (plan_merge_spec space snapshot content check_ignore theirs ignored f pl Hpl Ei) in Ep as ->. fold vs.
    unfold carry_out. cbn [plan_of_verdicts pl_writes pl_deletes pl_conflicts app].
    case_bool_decide as Ec; cbn [negb].
    + destruct (all_inside space (map fst (writes_of vs) ++ deletes_of vs)%list f) as [[]|err] eqn:Ein; [|done].
      destruct (write_all space (writes_of vs) f) as [f1 [[]|e1]] eqn:Ew;
        [destruct (delete_all space (deletes_of vs) f1) as [f2 [[]|e2]] eqn:Ed|];
        (split; [done|]; split; [by intros Hx%(all_inside_exists space _ _ Ein)|]); try done.
      intros _. split; [done|]. intros p. by apply (applied_wanted space snapshot content ignored theirs f f1 f2 p).
    + destruct kept as [[]|ek]; done.
Qed.

(** ** Merging on a small workspace *)

(** The files and links of a workspace, sorted; a link at the top is followed
    when a path runs through it. *)
Definition Flat : Type := btree Rel Entry.

Definition via (f : Flat) (p : Rel) : Rel :=
  match p with
  | n :: (_ :: _) as rest =>
      match bt_get [n] f with Some (ELink t) => (components t ++ rest)%list | _ => p end
  | _ => p
  end.

Definition runs_below (p q : Rel) : bool := negb (bool_decide (p = q)) && bool_decide (take (length p) q = p).

Definition occupied (f : Flat) (p : Rel) : bool := existsb (fun q => runs_below p q) (bt_keys f).

Definition linked_space : Space Flat :=
  {| sp_entry p f := Ok (bt_get (via f p) f);
     sp_exists p f := bool_decide (p = []) || bt_contains_key (via f p) f || occupied f (via f p);
     sp_present p f := bt_contains_key (via f p) f || occupied f (via f p);
     sp_resolves_inside p f := Ok true; sp_create_dirs p f := (f, Ok tt);
     sp_remove_file p f := if occupied f (via f p) then (f, Err "Is a directory")
                           else if bt_contains_key (via f p) f then (bt_remove (via f p) f, Ok tt)
                           else (f, Err "No such file or directory");
     sp_write p e f := (bt_insert (via f p) e f, Ok tt) |}.

Lemma via_straight f p : straight (fun f q => bt_get q f) f p -> via f p = p.
Proof.
  intros H. destruct p as [|n [|m rest]]; [done|done|]. cbn [via]. destruct (bt_get [n] f) as [[|t]|] eqn:E; try done.
  exfalso. apply (H [n] t E). by exists (m :: rest).
Qed.

Lemma occupied_spec f p : occupied f p = true <-> exists q, below p q /\ bt_get q f <> None.
Proof.
  unfold occupied. rewrite existsb_exists. unfold runs_below. split.
  - intros (q&Hq&[Hne Ht]%andb_true_iff). apply negb_true_iff, bool_decide_eq_false in Hne. apply bool_decide_eq_true in Ht.
    exists q. split.
    + exists (drop (length p) q). rewrite <- Ht at 2. rewrite take_drop. split; [|done]. intros E. apply Hne.
      by rewrite <- (take_drop (length p) q), Ht, E, app_nil_r.
    + apply list_elem_of_In, bt_get_Some_keys in Hq as [e ->]. done.
  - intros (q&(t&Ht&->)&Hq). exists (p ++ t)%list. split.
    + apply list_elem_of_In, bt_get_Some_keys. by apply not_eq_None_Some.
    + apply andb_true_iff. split; [|apply bool_decide_eq_true, take_app_length].
      apply negb_true_iff, bool_decide_eq_false. intros E. apply (below_irrefl p). exists t. by split.
Qed.

Lemma get_removed (f : Flat) p q : bt_get q (bt_remove p f) = if bool_decide (q = p) then None else bt_get q f.
Proof.
  unfold bt_remove. induction f as [|[k e] f IH]; cbn [List.filter bt_get fst]; [by case_bool_decide|].
  destruct (decide (p = k)) as [->|Hne].
  - rewrite bool_decide_eq_true_2 by done. cbn [negb]. rewrite IH. by case_bool_decide.
  - rewrite bool_decide_eq_false_2 by done. cbn [negb bt_get]. rewrite IH. repeat case_bool_decide; congruence.
Qed.

Lemma linked_laws : SpaceLaws linked_space (fun f q => bt_get q f).
Proof.
  split; cbn [linked_space sp_entry sp_present sp_create_dirs sp_remove_file sp_write fst].
  - intros p f e H [= <-]. by rewrite via_straight.
  - intros p f H [Hp|Hp]; rewrite via_straight by done; apply orb_true_iff.
    + left. apply bt_contains_key_spec, bt_get_Some_keys. by apply not_eq_None_Some.
    + right. by apply occupied_spec.
  - done.
  - intros p f f' H. rewrite via_straight by done. destruct (occupied f p) eqn:E; [done|].
    destruct (bt_contains_key p f); [|done]. intros [= <-]. split_and!.
    + by rewrite get_removed, bool_decide_eq_true_2.
    + intros q Hq. by rewrite get_removed, bool_decide_eq_false_2.
    + intros q Hq. destruct (bt_get q f) eqn:Eq; [|done]. exfalso. assert (occupied f p = true); [|congruence].
      apply occupied_spec. exists q. split; [done|congruence].
  - intros p e f f' H. rewrite via_straight by done. intros [= <-]. split; [apply bt_get_insert_eq|].
    intros q Hq. by apply bt_get_insert_ne.
Qed.

(** Digests that are the contents. *)
Definition demo_sha (contents : string) : string := contents.

Definition demo_workspace : Node :=
  NDir [("a.txt", NFile "one" false); ("b.txt", NFile "two" true); ("sub", NDir [("link", NLink "../a.txt")])].

(** What the sandbox left: one file changed, one gone, one new, git's own ignored. *)
Definition demo_result : Node :=
  NDir [("a.txt", NFile "uno" false); ("sub", NDir [("link", NLink "../a.txt"); ("c.txt", NFile "three" false)]);
        (".git", NDir [("HEAD", NFile "x" false)])].

Definition demo_snapshot : Snapshot :=
  match record demo_sha demo_workspace None with Ok s => s | Err _ => {| sn_files := []; sn_archive := None; sn_git := false |} end.

Definition demo_theirs : btree Rel Entry := match theirs_of demo_sha demo_result with Ok t => t | Err _ => [] end.

Definition demo_now : Flat := sn_files demo_snapshot.

Definition demo_merge (f : Flat) : Flat * Result MergeReport :=
  merge linked_space demo_snapshot demo_sha (fun _ => Ok "") (Ok tt) "/keep" demo_result f.

Example merge_applies :
  let '(f', answer) := demo_merge demo_now in
  answer = Ok {| mr_written := 2; mr_deleted := 1 |}
  /\ bt_get [Normal "a.txt"] f' = Some (EFile "uno" false) /\ bt_get [Normal "b.txt"] f' = None
  /\ bt_get [Normal "sub"; Normal "c.txt"] f' = Some (EFile "three" false).
Proof. vm_compute. by split_and!. Qed.

(** The same work against a workspace that changed since. *)
Lemma merge_three_way_witness :
  let f := bt_insert [Normal "a.txt"] (EFile "eins" false) demo_now in
  bt_get [Normal "b.txt"] (fst (demo_merge f)) = Some (EFile "two" true) /\ is_ok (snd (demo_merge f)) = false.
Proof.
  intros f.
  destruct (merge_three_way linked_space demo_snapshot (fun f q => bt_get q f) demo_sha (fun _ => Ok "") (Ok tt) "/keep"
              demo_result demo_theirs [] f linked_laws) as (conflicts&changed&Hc&_&H).
  - exact (entries_of_wf demo_sha _ [] _ bt_wf_nil
             (eq_refl : entries_of demo_sha (concat [List.filter (fun c => negb (excluded c.1)) (walk [] demo_workspace)]) []
                        = Ok (sn_files demo_snapshot))).
  - vm_compute. reflexivity.
  - vm_compute. reflexivity.
  - vm_compute. reflexivity.
  - assert (forall q, q ∈ bt_keys f -> match bt_get q f with Some (ELink _) => q = [Normal "sub"; Normal "link"] | _ => True end)
      as Hl by (apply list.Forall_forall; repeat constructor).
    intros p Hp q t Ht (u&Hu&->). assert (q = [Normal "sub"; Normal "link"]) as ->.
    { assert (q ∈ bt_keys f) as Hq by (apply bt_get_Some_keys; by eexists). specialize (Hl q Hq). cbv beta in Ht, Hl.
      unfold Rel in *. by rewrite Ht in Hl. }
    assert (Forall (fun p => take 2 p = [Normal "sub"; Normal "link"] -> length p = 2%nat)
      (bt_keys demo_theirs ++ bt_keys (sn_files demo_snapshot))) as Hall by (vm_compute; repeat constructor; done).
    rewrite list.Forall_forall in Hall. specialize (Hall ([Normal "sub"; Normal "link"] ++ u)%list).
    rewrite elem_of_app in Hall. specialize (Hall Hp eq_refl). by destruct u.
  - change (merge linked_space demo_snapshot demo_sha (fun _ => Ok "") (Ok tt) "/keep" demo_result f) with (demo_merge f) in H.
    assert (conflicts <> []) as Hne.
    { intros E. assert ([Normal "a.txt"] ∈ conflicts) as Hin by (apply Hc; vm_compute; reflexivity).
      rewrite E in Hin. by apply not_elem_of_nil in Hin. }
    destruct (demo_merge f) as [f' answer]. destruct H as [H _]. destruct (H Hne) as (Hf&Ha&_).
    cbn [fst snd]. rewrite Hf. split; [vm_compute; reflexivity|exact Ha].
Defined.

(** A link to a directory that the sandbox replaced by a directory: what is in
    it is written through the link, and the merge succeeds without the file. *)
Example written_through_a_link :
  let workspace := NDir [("d", NLink "e"); ("e", NDir [("y", NFile "1" false)])] in
  let result := NDir [("d", NDir [("x", NFile "2" false)]); ("e", NDir [("y", NFile "1" false)])] in
  match record demo_sha workspace None with
  | Ok snapshot =>
      let '(f', answer) := merge linked_space snapshot demo_sha (fun _ => Ok "") (Ok tt) "/keep" result (sn_files snapshot) in
      answer = Ok {| mr_written := 1; mr_deleted := 1 |}
      /\ bt_get [Normal "d"; Normal "x"] f' = None /\ bt_get [Normal "e"; Normal "x"] f' = Some (EFile "2" false)
  | Err _ => False
  end.
Proof. vm_compute. by split_and!. Qed.

(** A directory the sandbox replaced by a file: the file is to be written while
    the directory, whose files are deleted only afterwards, is still there. *)
Example deletions_come_last :
  let snapshot := {| sn_files := [([Normal "x"; Normal "y"], EFile "1" false)]; sn_archive := None; sn_git := false |} in
  is_ok (snd (merge linked_space snapshot demo_sha (fun _ => Ok "") (Ok tt) "/keep" (NDir [("x", NFile "2" false)])
                (sn_files snapshot))) = false.
Proof. by vm_compute. Qed.
