(* ===== verification/AcpSessions.v ===== *)
(** * Sessions of CUMA as an ACP agent ([cuma-server-acp])

    What a client's conversation keeps (session.rs), with the files it outlives
    the process in, and the translation between the protocol and the domain
    (translate.rs).  Reading and printing JSON text and dates are arguments, as
    are the failures of file operations; a handle on a run is its number, and
    whether a run has ended is asked of the caller. *)

From S2P Require Export Json Session Host.
From stdpp Require Import gmap.
Open Scope string_scope.
Open Scope Z_scope.

Definition MAX_HISTORY : nat := 50.
Definition MAX_TURN_CHARS : Z := 16000.

Record Turn := { tn_prompt : string; tn_response : string }.

(** [tokio::task::AbortHandle]: the run it aborts. *)
Definition RunId : Type := nat.

Record SessionState := {
  ss_workspace : PathBuf;
  ss_turns : list Turn;
  ss_created_at : string;
  ss_running : option RunId;
}.

Definition session_new (workspace : PathBuf) (now : string) : SessionState :=
  {| ss_workspace := workspace; ss_turns := []; ss_created_at := now; ss_running := None |}.

Definition TRUNCATED : string := NL +:+ "[… truncated]".

Definition clip (text : string) : string :=
  if Z.of_nat (length (chars text)) <=? MAX_TURN_CHARS then text
  else of_chars (take (Z.to_nat MAX_TURN_CHARS) (chars text)) +:+ TRUNCATED.

Definition with_turns (turns : list Turn) (s : SessionState) : SessionState :=
  {| ss_workspace := ss_workspace s; ss_turns := turns; ss_created_at := ss_created_at s;
     ss_running := ss_running s |}.
Definition with_running (r : option RunId) (s : SessionState) : SessionState :=
  {| ss_workspace := ss_workspace s; ss_turns := ss_turns s; ss_created_at := ss_created_at s;
     ss_running := r |}.
Definition with_workspace (path : PathBuf) (s : SessionState) : SessionState :=
  {| ss_workspace := path; ss_turns := ss_turns s; ss_created_at := ss_created_at s;
     ss_running := ss_running s |}.

(** [SessionState::record]. *)
Definition record_turn (prompt response : string) (s : SessionState) : SessionState :=
  let turns := (ss_turns s ++ [{| tn_prompt := clip prompt; tn_response := clip response |}])%list in
  with_turns (drop (length turns - MAX_HISTORY) turns) s.

Definition history (s : SessionState) : list string := map tn_response (ss_turns s).

(** ** As JSON

    The derived form: a structure is an object, or an array of its fields in
    order when it is read; the running prompt is skipped. *)

Definition turn_json (t : Turn) : Value :=
  JObject [("prompt", JString (tn_prompt t)); ("response", JString (tn_response t))].

(** A path that is not UTF-8 cannot be written. *)
Definition session_json (s : SessionState) : result Value string :=
  if utf8_valid (ss_workspace s) then
    Ok (JObject [("workspace", JString (ss_workspace s)); ("turns", JArray (map turn_json (ss_turns s)));
                 ("created_at", JString (ss_created_at s))])
  else Err "path contains invalid UTF-8 characters".

Definition fields_of (names : list string) (v : Value) : option (list Value) :=
  match v with
  | JObject _ => mapM (fun name => jget name v) names
  | JArray l => if bool_decide (length l = length names) then Some l else None
  | _ => None
  end.

Definition parse_turn (v : Value) : option Turn :=
  match fields_of ["prompt"; "response"] v with
  | Some [JString p; JString r] => Some {| tn_prompt := p; tn_response := r |}
  | _ => None
  end.

(** [date] reads and normalises a date. *)
Definition parse_session (date : string -> option string) (v : Value) : option SessionState :=
  match fields_of ["workspace"; "turns"; "created_at"] v with
  | Some [JString w; JArray ts; JString c] =>
      match mapM parse_turn ts, date c with
      | Some turns, Some created =>
          Some {| ss_workspace := w; ss_turns := turns; ss_created_at := created; ss_running := None |}
      | _, _ => None
      end
  | _ => None
  end.

(** ** The registry and its files *)

Abbreviation Files := (gmap PathBuf string).

Record SessionRegistry := {
  rg_sessions : btree string SessionState;
  rg_directory : option PathBuf;
  rg_files : Files;
}.

Definition registry_new : SessionRegistry := {| rg_sessions := []; rg_directory := None; rg_files := ∅ |}.

(** [SessionRegistry::persistent], on a directory that may hold files. *)
Definition persistent (directory : PathBuf) (files : Files) : SessionRegistry :=
  {| rg_sessions := []; rg_directory := Some directory; rg_files := files |}.

Definition is_persistent (r : SessionRegistry) : bool :=
  match rg_directory r with Some _ => true | None => false end.

Definition with_sessions (m : btree string SessionState) (r : SessionRegistry) : SessionRegistry :=
  {| rg_sessions := m; rg_directory := rg_directory r; rg_files := rg_files r |}.
Definition with_files (files : Files) (r : SessionRegistry) : SessionRegistry :=
  {| rg_sessions := rg_sessions r; rg_directory := rg_directory r; rg_files := files |}.

Definition is_plausible_id (id : string) : bool :=
  starts_with id "cuma-" && (Z.of_nat (String.length id) <=? 64)
  && forallb (fun c => is_ascii_alphanumeric c || (c =? 45) || (c =? 95)) (chars id).

Definition path_for (key : string) (r : SessionRegistry) : option PathBuf :=
  match rg_directory r with
  | Some directory => if is_plausible_id key then Some (join_path directory (key +:+ ".json")) else None
  | None => None
  end.

(** What may go wrong while a session is written: making the directory, writing
    the temporary file (which may be left with part of the text), renaming. *)
Record WriteFaults := {
  wf_mkdir : bool;
  wf_write : option (option string);
  wf_rename : bool;
}.

Definition no_faults : WriteFaults := {| wf_mkdir := false; wf_write := None; wf_rename := false |}.

Section Persisting.
Context (to_vec_pretty : Value -> string) (from_str : string -> option Value)
        (date : string -> option string).

Definition write_atomically (faults : WriteFaults) (path : PathBuf) (s : SessionState) (files : Files)
    : Files * bool :=
  if wf_mkdir faults then (files, false) else
  match session_json s with
  | Err _ => (files, false)
  | Ok json =>
      let temporary := with_extension path "json.tmp" in
      match wf_write faults with
      | Some (Some partial) => (<[temporary := partial]> files, false)
      | Some None => (files, false)
      | None =>
          let files := <[temporary := to_vec_pretty json]> files in
          if wf_rename faults then (files, false)
          else (<[path := to_vec_pretty json]> (delete temporary files), true)
      end
  end.

Definition persist (faults : WriteFaults) (key : string) (s : SessionState) (r : SessionRegistry)
    : SessionRegistry :=
  match path_for key r with
  | Some path => with_files (write_atomically faults path s (rg_files r)).1 r
  | None => r
  end.

Definition insert_session (id : string) (s : SessionState) (r : SessionRegistry) : SessionRegistry :=
  with_sessions (bt_insert id s (rg_sessions r)) r.

(** [uuid_like], from a generated session id. *)
Definition uuid_like (generated : string) : string :=
  trim_start_str (String.length generated) "session_" generated.

Definition create (generated now : string) (faults : WriteFaults) (workspace : PathBuf) (r : SessionRegistry)
    : SessionRegistry * string :=
  let id := "cuma-" +:+ uuid_like generated in
  let state := session_new workspace now in
  let r := persist faults id state r in
  (insert_session id state r, id).

(** The session its file holds, in the directory the client now works in. *)
Definition load_file (id : string) (workspace : PathBuf) (r : SessionRegistry) : option SessionState :=
  match path_for id r with
  | None => None
  | Some path =>
      match rg_files r !! path with
      | None => None
      | Some raw =>
          match from_str raw with
          | None => None
          | Some v => with_workspace workspace <$> parse_session date v
          end
      end
  end.

Definition load (id : string) (workspace : PathBuf) (r : SessionRegistry)
    : SessionRegistry * option SessionState :=
  match bt_get id (rg_sessions r) with
  | Some state => (r, Some state)
  | None =>
      match load_file id workspace r with
      | Some state => (insert_session id state r, Some state)
      | None => (r, None)
      end
  end.

Definition workspace_of (id : string) (r : SessionRegistry) : option PathBuf :=
  ss_workspace <$> bt_get id (rg_sessions r).

(** [SessionRegistry::record] under the lock, and the snapshot it then writes. *)
Definition record_memory (id prompt response : string) (r : SessionRegistry)
    : SessionRegistry * option SessionState :=
  match bt_get id (rg_sessions r) with
  | None => (r, None)
  | Some state =>
      let state := record_turn prompt response state in
      (insert_session id state r, Some state)
  end.

Definition record (faults : WriteFaults) (id prompt response : string) (r : SessionRegistry)
    : SessionRegistry :=
  match record_memory id prompt response r with
  | (r, Some snapshot) => persist faults id snapshot r
  | (r, None) => r
  end.

(** [here] is the current directory, empty when there is none. *)
Definition start (finished : RunId -> bool) (here : PathBuf) (now id : string) (handle : RunId)
    (r : SessionRegistry) : SessionRegistry * bool :=
  let state := match bt_get id (rg_sessions r) with Some s => s | None => session_new here now end in
  match ss_running state with
  | Some h =>
      if finished h then (insert_session id (with_running (Some handle) state) r, true)
      else (insert_session id state r, false)
  | None => (insert_session id (with_running (Some handle) state) r, true)
  end.

Definition finish (id : string) (r : SessionRegistry) : SessionRegistry :=
  with_sessions (bt_alter (with_running None) id (rg_sessions r)) r.

(** The run to abort, when one is running. *)
Definition cancel (finished : RunId -> bool) (id : string) (r : SessionRegistry) : option RunId :=
  match bt_get id (rg_sessions r) with
  | Some s =>
      match ss_running s with
      | Some h => if finished h then None else Some h
      | None => None
      end
  | None => None
  end.

Definition get (id : string) (r : SessionRegistry) : option SessionState := bt_get id (rg_sessions r).

(** [deleted] says whether the file could be deleted. *)
Definition remove (deleted : bool) (id : string) (r : SessionRegistry) : SessionRegistry * bool :=
  let r := match path_for id r with
           | Some path => if deleted then with_files (delete path (rg_files r)) r else r
           | None => r
           end in
  (with_sessions (bt_remove id (rg_sessions r)) r, bt_contains_key id (rg_sessions r)).

Definition len (r : SessionRegistry) : nat := length (rg_sessions r).
Definition is_empty (r : SessionRegistry) : bool := Nat.eqb (len r) O.

End Persisting.

(** ** Translation *)

(** [ContentBlock]: text, and the kinds nothing is made of. *)
Inductive ContentBlock : Type := CText (text : string) | COther.

Inductive SessionUpdate : Type :=
  | UserMessageChunk (text : string)
  | AgentMessageChunk (text : string).

Inductive StopReason : Type := EndTurn | MaxTokens | StopCancelled | Refusal.

Record AgentCapabilities := {
  ac_load_session : bool;
  ac_image : bool;
  ac_audio : bool;
  ac_embedded_context : bool;
}.

Definition advertised_capabilities : AgentCapabilities :=
  {| ac_load_session := false; ac_image := false; ac_audio := false; ac_embedded_context := true |}.

Definition with_load_session (loadable : bool) (c : AgentCapabilities) : AgentCapabilities :=
  {| ac_load_session := loadable; ac_image := ac_image c; ac_audio := ac_audio c;
     ac_embedded_context := ac_embedded_context c |}.

Definition prompt_to_goal (prompt : list ContentBlock) : string :=
  str_join NL (List.filter (fun text => negb (bool_decide (text = "")))
    (omap (fun b => match b with CText text => Some (trim text) | COther => None end) prompt)).

Definition event_to_session_update (e : Event) : option SessionUpdate :=
  match ev_kind e with
  | AgentOutputReceived chunk => Some (AgentMessageChunk chunk)
  | TaskPlanned n =>
      Some (AgentMessageChunk ("Planned " +:+ pretty n +:+ " task" +:+ (if n =? 1 then "" else "s") +:+ "." +:+ NL))
  | AgentSelected agent model _ _ =>
      Some (AgentMessageChunk ("→ delegating to " +:+ agent
              +:+ match model with Some m => " / " +:+ m | None => "" end +:+ NL))
  | Event.AgentFailed agent class _ =>
      Some (AgentMessageChunk ("⚠ " +:+ agent +:+ " failed (" +:+ class_debug class +:+ ")" +:+ NL))
  | FallbackSelected from _ reason =>
      Some (AgentMessageChunk ("↻ falling back from " +:+ from +:+ ": " +:+ reason +:+ NL))
  | TaskFailed reason => Some (AgentMessageChunk ("✗ " +:+ reason +:+ NL))
  | TaskSkipped _ => Some (AgentMessageChunk ("⊘ skipped, a dependency failed" +:+ NL))
  | _ => None
  end.

Definition stop_reason_for (outcome : Result SessionResult) : StopReason :=
  match outcome with
  | Ok _ => EndTurn
  | Err err =>
      match error_class err with
      | Cancelled => StopCancelled
      | ContextOverflow => MaxTokens
      | _ => EndTurn
      end
  end.

(** ** Theorems

    Ids that come from a client name files of the session directory and nothing
    else, what a session keeps is bounded, and a restart finds every session as
    its last write left it. *)

(** ** Ids and file names *)

Definition id_byte (b : Z) : Prop := is_ascii_alphanumeric b = true \/ b = 45 \/ b = 95.

Lemma id_byte_range b : id_byte b -> 1 <= b < 128 /\ b <> 46 /\ b <> 47.
Proof.
  unfold id_byte, is_ascii_alphanumeric, is_ascii_digit, is_ascii_upper, is_ascii_lower. intros [H|[-> | ->]]; lia.
Qed.

Lemma plausible_bytes id : is_plausible_id id = true -> Forall id_byte (bytes id).
Proof.
  unfold is_plausible_id. intros H. apply andb_true_iff in H as [_ H].
  assert (Forall id_byte (chars id)) as Hc.
  { apply list.Forall_forall. intros c Hc%list_elem_of_In. rewrite forallb_forall in H. apply H in Hc.
    unfold id_byte. apply orb_true_iff in Hc as [[Hc|Hc]%orb_true_iff|Hc]; [by left|lia..]. }
  rewrite <- (of_chars_chars id), bytes_of_ascii; [done|].
  eapply list.Forall_impl; [exact Hc|]. intros b Hb%id_byte_range. lia.
Qed.

Lemma plausible_entry id ext :
  is_plausible_id id = true -> Forall (fun b => 1 <= b < 128 /\ b <> 47) (bytes ext) -> entry_name (id +:+ ext).
Proof.
  intros H He. apply ascii_entry.
  - apply bytes_forall_app; [|done]. eapply list.Forall_impl; [by apply plausible_bytes|].
    intros b Hb%id_byte_range. lia.
  - rewrite length_append. unfold is_plausible_id in H. apply andb_true_iff in H as [H _].
    apply andb_true_iff in H as [H _]. apply starts_with_spec in H as [t ->]. rewrite length_append. cbn. lia.
Qed.

Lemma json_entry id : is_plausible_id id = true -> entry_name (id +:+ ".json").
Proof. intros H. apply plausible_entry; [done|]. vm_compute. repeat constructor; done. Qed.
Lemma temporary_entry id : is_plausible_id id = true -> entry_name (id +:+ ".json.tmp").
Proof. intros H. apply plausible_entry; [done|]. vm_compute. repeat constructor; done. Qed.

Lemma path_for_some key r p : path_for key r = Some p ->
  exists d, rg_directory r = Some d /\ is_plausible_id key = true /\ p = join_path d (key +:+ ".json").
Proof.
  unfold path_for. destruct (rg_directory r) as [d|]; [|done]. destruct (is_plausible_id key); [|done].
  intros [= <-]. by exists d.
Qed.

Lemma stem_of_json key : stem_of (rev (bytes (key +:+ ".json"))) = rev (bytes key).
Proof. rewrite bytes_app, rev_app_distr. done. Qed.

(** The temporary file of a session is beside it. *)
Lemma temporary_of d key : is_plausible_id key = true ->
  components (with_extension (join_path d (key +:+ ".json")) "json.tmp")
  = (components d ++ [Normal (key +:+ ".json.tmp")])%list.
Proof.
  intros Hk. set (p := join_path d (key +:+ ".json")).
  assert (components p = (components d ++ [Normal (key +:+ ".json")])%list) as Ep
    by (by apply components_join, json_entry).
  unfold with_extension, file_name. rewrite Ep, rev_app_distr. cbn [rev app].
  rewrite stem_of_json, (bool_decide_eq_false_2 ("json.tmp" = "")) by done. rewrite bool_decide_eq_false_2.
  2: { intros E. apply (f_equal (@rev Z)) in E. rewrite rev_involutive in E. cbn in E.
       apply (f_equal bytes_of_list) in E. rewrite bytes_of_list_bytes in E. subst key. by vm_compute in Hk. }
  rewrite rev_involutive, bytes_of_list_bytes.
  destruct (parent p) as [up|] eqn:Eu.
  - apply components_parent in Eu as [c Ec]. rewrite Ep in Ec. apply app_inj_tail in Ec as [-> _].
    change (key +:+ "." +:+ "json.tmp") with (key +:+ ".json.tmp"). by apply components_join, temporary_entry.
  - exfalso. unfold parent in Eu. rewrite Ep, rev_app_distr in Eu. cbn in Eu.
    by destruct (rev (components d)).
Qed.

Lemma name_not_temporary a b : is_plausible_id a = true -> a +:+ ".json" <> b +:+ ".json.tmp".
Proof.
  intros _ E. apply (f_equal (fun s => hd 0 (rev (bytes s)))) in E. by rewrite !bytes_app, !rev_app_distr in E.
Qed.

(** C30: Whatever id a client sends, the files a session is read from, written to
    and deleted at are entries of the session directory itself, different ids
    have different files, and no temporary file is a session's file. *)
Theorem session_paths_safe key key' r p p' :
  path_for key r = Some p -> path_for key' r = Some p' ->
  exists d, rg_directory r = Some d
    /\ components p = (components d ++ [Normal (key +:+ ".json")])%list
    /\ components (with_extension p "json.tmp") = (components d ++ [Normal (key +:+ ".json.tmp")])%list
    /\ (components p = components p' -> key = key')
    /\ components (with_extension p "json.tmp") <> components p'
    /\ entry_name (key +:+ ".json") /\ (46 ∉ bytes key).
Proof.
  intros (d&Hd&Hk&->)%path_for_some (d'&Hd'&Hk'&->)%path_for_some. simplify_eq. exists d.
  rewrite temporary_of by done. rewrite !components_join by (by apply json_entry).
  split_and!; try done.
  - intros [_ [= E]]%app_inj_tail. apply bytes_inj. apply (f_equal bytes) in E. rewrite !bytes_app in E.
    by apply app_inv_tail in E.
  - intros [_ [= E]]%app_inj_tail. by apply (name_not_temporary key' key).
  - by apply json_entry.
  - intros H%(proj1 (list.Forall_forall _ _) (plausible_bytes key Hk)). apply id_byte_range in H. lia.
Qed.

(** ** What a session keeps *)

Lemma record_turn_bounded prompt response s :
  (length (ss_turns (record_turn prompt response s)) <= MAX_HISTORY)%nat.
Proof. unfold record_turn. cbn. rewrite length_drop. lia. Qed.

(** The longest text kept: 16000 characters of four bytes, and the mark. *)
Lemma clip_bounded text :
  Z.of_nat (String.length (clip text)) <= 4 * MAX_TURN_CHARS + Z.of_nat (String.length TRUNCATED).
Proof.
  unfold clip. destruct (Z.leb_spec (Z.of_nat (length (chars text))) MAX_TURN_CHARS) as [H|H].
  - pose proof (length_of_chars (chars text)) as Hl. rewrite of_chars_chars in Hl. lia.
  - rewrite length_append. set (l := take _ _). pose proof (length_of_chars l) as Hl.
    assert (length l <= Z.to_nat MAX_TURN_CHARS)%nat by (subst l; rewrite length_take; lia). unfold MAX_TURN_CHARS in *. lia.
Qed.

(** ** Restarting *)

(** Everything that can fail while a session is written went well. *)
Definition written (f : WriteFaults) : bool :=
  negb (wf_mkdir f) && match wf_write f with None => true | Some _ => false end && negb (wf_rename f).

(** A turn of some session, and how writing it went. *)
Record Recorded := { rc_id : string; rc_prompt : string; rc_response : string; rc_faults : WriteFaults }.

(** The turns of one session in memory, and those its file holds. *)
Definition kept_step (id : string) (kept : list Turn * option (list Turn)) (t : Recorded)
    : list Turn * option (list Turn) :=
  if bool_decide (rc_id t = id) then
    let turns := (kept.1 ++ [{| tn_prompt := clip (rc_prompt t); tn_response := clip (rc_response t) |}])%list in
    let turns := drop (length turns - MAX_HISTORY) turns in
    (turns, if written (rc_faults t) then Some turns else kept.2)
  else kept.

Section Restart.
Context (to_vec_pretty : Value -> string) (from_str : string -> option Value) (date : string -> option string).
Context (reads_back : forall s v, session_json s = Ok v -> from_str (to_vec_pretty v) = Some v).

Definition apply_recorded (r : SessionRegistry) (t : Recorded) : SessionRegistry :=
  record to_vec_pretty (rc_faults t) (rc_id t) (rc_prompt t) (rc_response t) r.

Lemma path_for_directory key r r' : rg_directory r = rg_directory r' -> path_for key r = path_for key r'.
Proof. unfold path_for. by intros ->. Qed.

Lemma temporary_ne key key' r p p' :
  path_for key r = Some p -> path_for key' r = Some p' -> with_extension p "json.tmp" <> p'.
Proof.
  intros (d&Hd&Hk&->)%path_for_some (d'&Hd'&Hk'&->)%path_for_some E. simplify_eq.
  apply (f_equal components) in E. rewrite temporary_of in E by done.
  rewrite components_join in E by (by apply json_entry). apply app_inj_tail in E as [_ [= E]].
  by apply (name_not_temporary key' key).
Qed.

Lemma path_for_inj key key' r p : path_for key r = Some p -> path_for key' r = Some p -> key = key'.
Proof.
  intros (d&Hd&Hk&->)%path_for_some (d'&Hd'&Hk'&E)%path_for_some. simplify_eq.
  apply (f_equal components) in E. rewrite !components_join in E by (by apply json_entry).
  apply app_inj_tail in E as [_ [= E]]. apply (f_equal bytes) in E. rewrite !bytes_app in E.
  apply bytes_inj. by apply app_inv_tail in E.
Qed.

Lemma persist_directory f key s r : rg_directory (persist to_vec_pretty f key s r) = rg_directory r.
Proof. unfold persist. by destruct (path_for key r). Qed.

Lemma persist_sessions f key s r : rg_sessions (persist to_vec_pretty f key s r) = rg_sessions r.
Proof. unfold persist. by destruct (path_for key r). Qed.

(** A write that fails anywhere leaves the session's file as it was. *)
Lemma persist_file f key s r p v :
  path_for key r = Some p -> session_json s = Ok v ->
  rg_files (persist to_vec_pretty f key s r) !! p
  = if written f then Some (to_vec_pretty v) else rg_files r !! p.
Proof.
  intros Hp Hv. unfold persist. rewrite Hp. cbn [rg_files with_files]. unfold write_atomically, written.
  rewrite Hv. pose proof (temporary_ne key key r p p Hp Hp) as Hne.
  destruct (wf_mkdir f); [done|]. cbn [negb andb].
  destruct (wf_write f) as [[partial|]|]; cbn [fst andb].
  - by rewrite lookup_insert_ne.
  - done.
  - destruct (wf_rename f); cbn [negb fst]; [by rewrite lookup_insert_ne|]. by rewrite lookup_insert_eq.
Qed.

Lemma persist_other f key s r p key' :
  path_for key' r = Some p -> key' <> key -> rg_files (persist to_vec_pretty f key s r) !! p = rg_files r !! p.
Proof.
  intros Hp Hne. unfold persist. destruct (path_for key r) as [q|] eqn:Hq; [|done].
  cbn [rg_files with_files]. unfold write_atomically.
  pose proof (temporary_ne key key' r q p Hq Hp) as Ht.
  assert (q <> p) as Hqp by (intros ->; by apply Hne, (path_for_inj key' key r p)).
  destruct (wf_mkdir f); [done|]. destruct (session_json s) as [v|]; [|done].
  destruct (wf_write f) as [[partial|]|]; cbn [fst]; [by rewrite lookup_insert_ne|done|].
  destruct (wf_rename f); cbn [fst]; [by rewrite lookup_insert_ne|].
  rewrite lookup_insert_ne, lookup_delete_ne, lookup_insert_ne by done. done.
Qed.

Definition stored_session (workspace : PathBuf) (now : string) (turns : list Turn) : SessionState :=
  {| ss_workspace := workspace; ss_turns := turns; ss_created_at := now; ss_running := None |}.

Lemma session_json_ok workspace now turns running : utf8_valid workspace = true ->
  exists v, session_json {| ss_workspace := workspace; ss_turns := turns; ss_created_at := now; ss_running := running |} = Ok v
    /\ (date now = Some now -> parse_session date v = Some (stored_session workspace now turns)).
Proof.
  intros Hw. unfold session_json. cbn [ss_workspace ss_turns ss_created_at]. rewrite Hw. eexists. split; [done|]. intros Hd.
  unfold parse_session. change (fields_of _ _) with (Some [JString workspace; JArray (map turn_json turns); JString now]).
  cbn match. rewrite Hd.
  assert (mapM parse_turn (map turn_json turns) = Some turns) as ->.
  { induction turns as [|[p q] turns IH]; [done|]. cbn [map mapM]. rewrite IH. done. }
  done.
Qed.

(** The state of one session and of its file. *)
Definition holds (id : string) (path workspace : PathBuf) (now : string) (kept : list Turn * option (list Turn))
    (r : SessionRegistry) : Prop :=
  path_for id r = Some path
  /\ (exists s, bt_get id (rg_sessions r) = Some s /\ ss_workspace s = workspace /\ ss_created_at s = now
        /\ ss_turns s = kept.1)
  /\ match kept.2 with
     | None => rg_files r !! path = None
     | Some turns => exists v, rg_files r !! path = Some (to_vec_pretty v)
         /\ session_json (stored_session workspace now turns) = Ok v
     end.

Lemma stored_running workspace now turns s v :
  ss_workspace s = workspace -> ss_created_at s = now -> ss_turns s = turns ->
  session_json s = Ok v -> session_json (stored_session workspace now turns) = Ok v.
Proof. intros <- <- <-. done. Qed.

Lemma apply_recorded_holds id path workspace now kept r t :
  utf8_valid workspace = true -> holds id path workspace now kept r ->
  holds id path workspace now (kept_step id kept t) (apply_recorded r t).
Proof.
  intros Hu (Hp&(s&Hs&Hw&Hc&Ht)&Hf). unfold apply_recorded, record, record_memory, kept_step.
  case_bool_decide as E.
  - subst id. rewrite Hs. set (s' := record_turn _ _ s). set (r' := insert_session _ s' r).
    assert (path_for (rc_id t) r' = Some path) as Hp' by done.
    destruct (session_json_ok workspace now (ss_turns s') (ss_running s') Hu) as (v&Hv&_).
    assert (session_json s' = Ok v) as Hv' by (rewrite <- Hv; unfold s', record_turn, with_turns; cbn; by rewrite Hw, Hc).
    split; [by rewrite <- Hp'; apply path_for_directory, persist_directory|]. split.
    + exists s'. rewrite persist_sessions. cbn. rewrite bt_get_insert_eq. split_and!; try done. by rewrite <- Ht.
    + rewrite (persist_file _ _ _ _ path v) by done. cbn [snd].
      destruct (written (rc_faults t)); [|done]. exists v. split; [done|]. rewrite <- Hv. rewrite <- Ht. done.
  - destruct (bt_get (rc_id t) (rg_sessions r)) as [s0|] eqn:E0; [|by split_and!; eauto].
    set (s' := record_turn _ _ s0). set (r' := insert_session _ s' r).
    assert (path_for id r' = Some path) as Hp' by done.
    split; [by rewrite <- Hp'; apply path_for_directory, persist_directory|]. split.
    + exists s. rewrite persist_sessions. cbn. rewrite bt_get_insert_ne by congruence. by split_and!.
    + rewrite (persist_other _ _ _ r' path id) by (done || congruence). done.
Qed.

(** C29: However many turns of whatever sessions are recorded and whichever of
    the writes fail, a restarted registry loads a session with exactly the turns
    it had, the last fifty and each cut to its limit, when it was last written
    without a failure, in the directory the client now asks for; a failed write
    never leaves a mixture. *)
Theorem restart_replays generated now faults workspace r0 r1 id path ts workspace' :
  date now = Some now -> utf8_valid workspace = true ->
  create to_vec_pretty generated now faults workspace r0 = (r1, id) ->
  path_for id r0 = Some path -> rg_files r0 !! path = None ->
  let r := fold_left apply_recorded ts r1 in
  let kept := fold_left (kept_step id) ts ([], if written faults then Some [] else None) in
  (exists s, get id r = Some s /\ ss_turns s = kept.1)
  /\ forall d, rg_directory r0 = Some d ->
     (load from_str date id workspace' (persistent d (rg_files r))).2
     = stored_session workspace' now <$> kept.2.
Proof.
  intros Hd Hu Hc Hp Hn r kept.
  assert (holds id path workspace now ([], if written faults then Some [] else None) r1) as H1.
  { unfold create in Hc. injection Hc as <- <-.
    destruct (session_json_ok workspace now [] None Hu) as (v&Hv&_). split; [|split].
    - rewrite <- Hp. apply path_for_directory. cbn. by rewrite persist_directory.
    - eexists. cbn. rewrite bt_get_insert_eq. by split_and!.
    - cbn [rg_files insert_session with_sessions]. rewrite (persist_file _ _ _ _ path v) by done. cbn [snd].
      destruct (written faults); [|done]. by exists v. }
  assert (holds id path workspace now kept r) as (Hpr&(s&Hs&_&_&Ht)&Hf).
  { subst r kept. revert H1. generalize (([] : list Turn), if written faults then Some ([] : list Turn) else None). generalize r1.
    induction ts as [|t ts IH]; intros r k Hk; [done|]. cbn. apply IH. by apply apply_recorded_holds. }
  split; [by exists s|]. intros d Hdir. unfold load. cbn [rg_sessions persistent bt_get]. unfold load_file.
  assert (path_for id (persistent d (rg_files r)) = Some path) as ->
    by (rewrite <- Hp; apply path_for_directory; by rewrite Hdir).
  cbn [rg_files persistent]. destruct (kept.2) as [turns|]; [|by rewrite Hf].
  destruct Hf as (v&->&Hv). rewrite (reads_back _ _ Hv).
  destruct (session_json_ok workspace now turns None Hu) as (v'&Hv'&Hparse).
  unfold stored_session in Hv. rewrite Hv' in Hv. injection Hv as ->. rewrite (Hparse Hd). done.
Qed.

End Restart.
