(* ===== verification/AcpServer.v ===== *)
(** * CUMA as an ACP agent ([cuma-server-acp])

    Which orchestrator serves which directory (workspaces.rs) and the handlers
    of a connection (lib.rs).  A reference-counted value is a number; how many
    hold it is counted over what the handlers hold.  Requests run side by side,
    so a handler is a place it has reached, and a step is what it does between
    two points where another may run.  Building an orchestrator, what a run
    ends with, identifiers and the clock are arguments. *)

From S2P Require Export AcpSessions.
From stdpp Require Import gmap.
Open Scope string_scope.
Open Scope Z_scope.

(** ** Workspaces *)

Definition MAX_WORKSPACES : nat := 8.

(** An [Arc<Orchestrator>] and an [Arc<OnceCell>], by identity. *)
Definition OrchId : Type := nat.
Definition CellId : Type := nat.

Record Slot := { sl_path : PathBuf; sl_cell : CellId; sl_last_used : Z }.

#[export] Instance Slot_eq_dec : EqDecision Slot.
Proof. solve_decision. Defined.

Record Workspaces := {
  ws_default_path : PathBuf;
  ws_default : OrchId;
  ws_build : bool;
  ws_slots : list Slot;
  ws_clock : Z;
}.

(** [here] is the current directory, empty when there is none. *)
Definition fixed (here : PathBuf) (orchestrator : OrchId) : Workspaces :=
  {| ws_default_path := here; ws_default := orchestrator; ws_build := false; ws_slots := []; ws_clock := 0 |}.

Definition per_directory (canonicalize : PathBuf -> result PathBuf string) (default_path : PathBuf)
    (default : OrchId) (cell : CellId) : Workspaces :=
  let default_path := match canonicalize default_path with Ok p => p | Err _ => default_path end in
  {| ws_default_path := default_path; ws_default := default; ws_build := true;
     ws_slots := [{| sl_path := default_path; sl_cell := cell; sl_last_used := 0 |}]; ws_clock := 1 |}.

Definition is_per_directory (w : Workspaces) : bool := ws_build w.

Definition validate_dir (canonicalize : PathBuf -> result PathBuf string) (is_dir : PathBuf -> bool)
    (requested : PathBuf) (w : Workspaces) : Result PathBuf :=
  if negb (is_per_directory w) then Ok requested
  else if negb (is_absolute requested) then
    Err (EConfiguration ("the session's working directory must be an absolute path, got " +:+ requested))
  else match canonicalize requested with
       | Err err => Err (EConfiguration ("cannot use " +:+ requested +:+ " as a working directory: " +:+ err))
       | Ok canonical =>
           if is_dir canonical then Ok canonical
           else Err (EConfiguration (canonical +:+ " is not a directory"))
       end.

Definition with_slots (slots : list Slot) (w : Workspaces) : Workspaces :=
  {| ws_default_path := ws_default_path w; ws_default := ws_default w; ws_build := ws_build w;
     ws_slots := slots; ws_clock := ws_clock w |}.

(** The first of the least recently used ([min_by_key]). *)
Fixpoint oldest (l : list Slot) : option Slot :=
  match l with
  | [] => None
  | s :: l' => match oldest l' with
               | Some t => if sl_last_used t <? sl_last_used s then Some t else Some s
               | None => Some s
               end
  end.

(** [Vec::remove] at the position of a slot; each path has one. *)
Fixpoint remove_slot (path : PathBuf) (l : list Slot) : list Slot :=
  match l with
  | [] => []
  | s :: l' => if path_eqb (sl_path s) path then l' else s :: remove_slot path l'
  end.

(** [idle] says of a slot that nothing but it holds its cell and its orchestrator. *)
Definition may_go (idle : CellId -> bool) (default_path : PathBuf) (s : Slot) : bool :=
  negb (path_eqb (sl_path s) default_path) && idle (sl_cell s).

Fixpoint evict (fuel : nat) (idle : CellId -> bool) (default_path : PathBuf) (slots : list Slot) : list Slot :=
  match fuel with
  | O => slots
  | S fuel' =>
      if (length slots <=? MAX_WORKSPACES)%nat then slots
      else match oldest (List.filter (may_go idle default_path) slots) with
           | None => slots
           | Some s => evict fuel' idle default_path (remove_slot (sl_path s) slots)
           end
  end.

Fixpoint touch (path : PathBuf) (now : Z) (l : list Slot) : list Slot :=
  match l with
  | [] => []
  | s :: l' => if path_eqb (sl_path s) path
               then {| sl_path := sl_path s; sl_cell := sl_cell s; sl_last_used := now |} :: l'
               else s :: touch path now l'
  end.

Definition find_slot (path : PathBuf) (w : Workspaces) : option Slot :=
  find (fun s => path_eqb (sl_path s) path) (ws_slots w).

(** [Workspaces::slot]; [fresh] is the cell made for a new one. *)
Definition slot (idle : CellId -> bool) (fresh : CellId) (workspace : PathBuf) (w : Workspaces)
    : Workspaces * CellId :=
  let now := ws_clock w in
  let w := {| ws_default_path := ws_default_path w; ws_default := ws_default w; ws_build := ws_build w;
              ws_slots := ws_slots w; ws_clock := wrap64 (now + 1) |} in
  match find_slot workspace w with
  | Some s => (with_slots (touch workspace now (ws_slots w)) w, sl_cell s)
  | None =>
      let slots := (ws_slots w ++ [{| sl_path := workspace; sl_cell := fresh; sl_last_used := now |}])%list in
      (with_slots (evict (length slots) idle (ws_default_path w) slots) w, fresh)
  end.

(** [Workspaces::len], from the contents of the cells. *)
Definition built (cells : gmap CellId OrchId) (w : Workspaces) : nat :=
  length (List.filter (fun s => match cells !! sl_cell s with Some _ => true | None => false end) (ws_slots w)).

(** ** Runs and their pumps *)

(** The task that forwards the events of one run to the client. *)
Record Pump := { pm_run_id : SessionId; pm_transcript : string; pm_over : bool }.

(** One turn of the pump's loop; [None] is a failed receive, lagging included. *)
Definition pump_one (received : option Event) (p : Pump) : Pump * list SessionUpdate :=
  if pm_over p then (p, []) else
  match received with
  | None => ({| pm_run_id := pm_run_id p; pm_transcript := pm_transcript p; pm_over := true |}, [])
  | Some e =>
      if negb (bool_decide (ev_session_id e = pm_run_id p)) then (p, []) else
      ({| pm_run_id := pm_run_id p;
          pm_transcript := match ev_kind e with
                           | AgentOutputReceived chunk => pm_transcript p +:+ chunk
                           | _ => pm_transcript p
                           end;
          pm_over := match ev_kind e with SessionCompleted _ => true | _ => false end |},
       match event_to_session_update e with Some u => [u] | None => [] end)
  end.

Definition stop_pump (p : Pump) : Pump :=
  {| pm_run_id := pm_run_id p; pm_transcript := pm_transcript p; pm_over := true |}.

(** A spawned run: [Some None] is the end of one that was aborted. *)
Record Run := {
  rn_orch : OrchId;
  rn_session : string;
  rn_aborted : bool;
  rn_end : option (option (Result SessionResult));
  rn_pump : Pump;
}.

Definition live (r : Run) : bool := match rn_end r with None => true | Some _ => false end.
Definition abort_run (r : Run) : Run :=
  {| rn_orch := rn_orch r; rn_session := rn_session r; rn_aborted := true; rn_end := rn_end r;
     rn_pump := rn_pump r |}.
Definition end_run (e : option (Result SessionResult)) (r : Run) : Run :=
  {| rn_orch := rn_orch r; rn_session := rn_session r; rn_aborted := rn_aborted r; rn_end := Some e;
     rn_pump := rn_pump r |}.
Definition set_pump (p : Pump) (r : Run) : Run :=
  {| rn_orch := rn_orch r; rn_session := rn_session r; rn_aborted := rn_aborted r; rn_end := rn_end r;
     rn_pump := p |}.

(** ** Handlers *)

Definition INVALID_PARAMS : Z := -32602.
Definition INTERNAL_ERROR : Z := -32603.

Inductive Answer : Type :=
  | AInitialize (version : Z) (capabilities : AgentCapabilities)
  | ANew (id : string)
  | ALoaded
  | AStop (stop : StopReason)
  | AError (code : Z) (message : string)
  | ANotFound (id : string).

Definition client_error (code : Z) (err : MetaAgentError) : Answer := AError code (error_display err).

(** Whom an orchestrator is wanted for. *)
Inductive Want : Type :=
  | WNew (path : PathBuf)
  | WLoad (id : string) (turns : list Turn)
  | WPrompt (id goal : string).

(** The place a handler has reached, and what it holds there. *)
Inductive Pc : Type :=
  | AtInitialize (version : Z)
  | AtNew (cwd : PathBuf)
  | AtLoad (id : string) (cwd : PathBuf)
  | AtRead (id : string) (path : PathBuf)
  | AtInsert (id : string) (path : PathBuf) (state : SessionState)
  | AtPrompt (id : string) (prompt : list ContentBlock)
  | AtDir (id goal : string)
  | AtOrch (want : Want) (workspace : option PathBuf)
  | AtBuild (want : Want) (path : PathBuf) (cell : CellId)
  | AtCreate (path : PathBuf)
  | AtCreated (id : string) (state : SessionState)
  | AtRun (id goal : string) (o : OrchId)
  | AtStart (id goal : string) (o : OrchId) (r : RunId)
  | AtWait (id goal : string) (o : OrchId) (r : RunId)
  | AtFinish (id goal : string) (o : OrchId) (r : RunId) (outcome : option (Result SessionResult))
  | AtDrain (id goal : string) (o : OrchId) (r : RunId) (outcome : Result SessionResult)
  | AtRecord (id goal : string) (o : OrchId) (response : string) (stop : StopReason)
  | AtPersist (id : string) (o : OrchId) (state : SessionState) (stop : StopReason)
  | Answered (a : Answer).

Definition task_orch (pc : Pc) : option OrchId :=
  match pc with
  | AtRun _ _ o | AtStart _ _ o _ | AtWait _ _ o _ | AtFinish _ _ o _ _ | AtDrain _ _ o _ _
  | AtRecord _ _ o _ _ | AtPersist _ o _ _ => Some o
  | _ => None
  end.
Definition task_cell (pc : Pc) : option CellId := match pc with AtBuild _ _ c => Some c | _ => None end.
Definition run_orch (r : Run) : option OrchId := if live r then Some (rn_orch r) else None.

Record World := {
  w_registry : SessionRegistry;
  w_workspaces : Workspaces;
  w_cells : gmap CellId OrchId;
  w_next_cell : CellId;
  w_orchs : gmap OrchId PathBuf;
  w_runs : gmap RunId Run;
  w_tasks : list Pc;
  w_sent : list (string * SessionUpdate);
}.

(** Only the slot holds the cell, and only the cell its orchestrator. *)
Definition idle (w : World) (c : CellId) : bool :=
  forallb (fun pc => negb (bool_decide (task_cell pc = Some c))) (w_tasks w)
  && match w_cells w !! c with
     | None => false
     | Some o =>
         negb (bool_decide (o = ws_default (w_workspaces w)))
         && forallb (fun pc => negb (bool_decide (task_orch pc = Some o))) (w_tasks w)
         && forallb (fun p => negb (bool_decide (run_orch p.2 = Some o))) (map_to_list (w_runs w))
     end.

Definition on_registry (f : SessionRegistry -> SessionRegistry) (w : World) : World :=
  {| w_registry := f (w_registry w); w_workspaces := w_workspaces w; w_cells := w_cells w;
     w_next_cell := w_next_cell w; w_orchs := w_orchs w; w_runs := w_runs w; w_tasks := w_tasks w;
     w_sent := w_sent w |}.
Definition on_runs (f : gmap RunId Run -> gmap RunId Run) (w : World) : World :=
  {| w_registry := w_registry w; w_workspaces := w_workspaces w; w_cells := w_cells w;
     w_next_cell := w_next_cell w; w_orchs := w_orchs w; w_runs := f (w_runs w); w_tasks := w_tasks w;
     w_sent := w_sent w |}.
Definition on_tasks (f : list Pc -> list Pc) (w : World) : World :=
  {| w_registry := w_registry w; w_workspaces := w_workspaces w; w_cells := w_cells w;
     w_next_cell := w_next_cell w; w_orchs := w_orchs w; w_runs := w_runs w; w_tasks := f (w_tasks w);
     w_sent := w_sent w |}.
Definition send (id : string) (updates : list SessionUpdate) (w : World) : World :=
  {| w_registry := w_registry w; w_workspaces := w_workspaces w; w_cells := w_cells w;
     w_next_cell := w_next_cell w; w_orchs := w_orchs w; w_runs := w_runs w; w_tasks := w_tasks w;
     w_sent := (w_sent w ++ map (pair id) updates)%list |}.
Definition goto (i : nat) (pc : Pc) (w : World) : World := on_tasks <[i := pc]> w.

(** The orchestrator built for [path] is put in the cell. *)
Definition fill (c : CellId) (o : OrchId) (path : PathBuf) (w : World) : World :=
  {| w_registry := w_registry w; w_workspaces := w_workspaces w; w_cells := <[c := o]> (w_cells w);
     w_next_cell := w_next_cell w; w_orchs := <[o := path]> (w_orchs w); w_runs := w_runs w;
     w_tasks := w_tasks w; w_sent := w_sent w |}.

Definition set_workspaces (ws : Workspaces) (next : CellId) (w : World) : World :=
  {| w_registry := w_registry w; w_workspaces := ws; w_cells := w_cells w; w_next_cell := next;
     w_orchs := w_orchs w; w_runs := w_runs w; w_tasks := w_tasks w; w_sent := w_sent w |}.

(** What the outside answers a step with. *)
Record Choice := {
  ch_id : string;
  ch_now : string;
  ch_faults : WriteFaults;
  ch_built : Result OrchId;
  ch_run : RunId;
  ch_drained : bool;
}.

Definition finished (w : World) (r : RunId) : bool :=
  match w_runs w !! r with Some rn => negb (live rn) | None => true end.

Definition response_of (outcome : Result SessionResult) (transcript : string) : string :=
  match outcome with
  | Ok result =>
      if bool_decide (trim transcript = "") then sr_summary result
      else trim_end_matches is_whitespace transcript +:+ NL +:+ NL +:+ sr_summary result
  | Err err => error_display err
  end.

Definition ALREADY_RUNNING : string :=
  "A prompt is already running in this session; cancel it first." +:+ NL.
Definition NOT_PREPARED (err : MetaAgentError) : string :=
  "This session's workspace could not be prepared: " +:+ error_display err +:+ NL.

(** The conversation, as it is replayed. *)
Definition replay (turns : list Turn) : list SessionUpdate :=
  concat (map (fun t => [UserMessageChunk (tn_prompt t); AgentMessageChunk (tn_response t)]) turns).

Definition mark (r : RunId) (f : Run -> Run) (w : World) : World := on_runs (alter f r) w.

(** What follows once an orchestrator is there, or could not be built. *)
Definition obtained (i : nat) (want : Want) (got : Result OrchId) (w : World) : World :=
  match want, got with
  | WNew path, Ok _ => goto i (AtCreate path) w
  | WLoad id turns, Ok _ => goto i (Answered ALoaded) (send id (replay turns) w)
  | WPrompt id goal, Ok o => goto i (AtRun id goal o) w
  | WPrompt id _, Err err => goto i (Answered (AStop EndTurn)) (send id [AgentMessageChunk (NOT_PREPARED err)] w)
  | _, Err err => goto i (Answered (client_error INTERNAL_ERROR err)) w
  end.

Section Serving.
Context (to_vec_pretty : Value -> string) (from_str : string -> option Value)
        (date : string -> option string)
        (canonicalize : PathBuf -> result PathBuf string) (is_dir : PathBuf -> bool) (here : PathBuf).

Definition validate (requested : PathBuf) (w : World) : Result PathBuf :=
  validate_dir canonicalize is_dir requested (w_workspaces w).

(** [session/new], [session/load] and [session/prompt] up to where they wait. *)
Definition receive_new (i : nat) (cwd : PathBuf) (w : World) : World :=
  match validate cwd w with
  | Ok path => goto i (AtOrch (WNew path) (Some path)) w
  | Err err => goto i (Answered (client_error INVALID_PARAMS err)) w
  end.

Definition receive_load (i : nat) (id : string) (cwd : PathBuf) (w : World) : World :=
  match validate cwd w with
  | Err err => goto i (Answered (client_error INVALID_PARAMS err)) w
  | Ok path =>
      match get id (w_registry w) with
      | Some state => goto i (AtOrch (WLoad id (ss_turns state)) (Some path)) w
      | None => goto i (AtRead id path) w
      end
  end.

Definition read_session (i : nat) (id : string) (path : PathBuf) (w : World) : World :=
  match load_file from_str date id path (w_registry w) with
  | Some state => goto i (AtInsert id path state) w
  | None => goto i (Answered (ANotFound id)) w
  end.

Definition receive_prompt (i : nat) (id : string) (prompt : list ContentBlock) (w : World) : World :=
  let goal := prompt_to_goal prompt in
  if bool_decide (trim goal = "") then goto i (Answered (AStop EndTurn)) w else goto i (AtDir id goal) w.

(** [Workspaces::orchestrator] up to the cell, and from there. *)
Definition find_orchestrator (i : nat) (want : Want) (workspace : option PathBuf) (w : World) : World :=
  match is_per_directory (w_workspaces w), workspace with
  | true, Some path =>
      let fresh := w_next_cell w in
      let '(ws, cell) := slot (idle w) fresh path (w_workspaces w) in
      goto i (AtBuild want path cell) (set_workspaces ws (S fresh) w)
  | _, _ => obtained i want (Ok (ws_default (w_workspaces w))) w
  end.

(** The cell is full, or one of those who wait for it builds. *)
Definition build_orchestrator (ch : Choice) (i : nat) (want : Want) (path : PathBuf) (cell : CellId) (w : World)
    : option World :=
  match w_cells w !! cell with
  | Some o => Some (obtained i want (Ok o) w)
  | None =>
      match ch_built ch with
      | Err err => Some (obtained i want (Err err) w)
      | Ok o => match w_orchs w !! o with
                | Some _ => None
                | None => Some (obtained i want (Ok o) (fill cell o path w))
                end
      end
  end.

(** [run_prompt] in its parts: spawning, starting, waiting, recording. *)
Definition spawn_run (ch : Choice) (i : nat) (id goal : string) (o : OrchId) (w : World) : option World :=
  match w_runs w !! ch_run ch with
  | Some _ => None
  | None =>
      let run := {| rn_orch := o; rn_session := id; rn_aborted := false; rn_end := None;
                    rn_pump := {| pm_run_id := ch_id ch; pm_transcript := ""; pm_over := false |} |} in
      Some (goto i (AtStart id goal o (ch_run ch)) (on_runs <[ch_run ch := run]> w))
  end.

Definition start_run (ch : Choice) (i : nat) (id goal : string) (o : OrchId) (r : RunId) (w : World) : World :=
  let '(registry, started) := start (finished w) here (ch_now ch) id r (w_registry w) in
  let w := on_registry (fun _ => registry) w in
  if started then goto i (AtWait id goal o r) w
  else goto i (Answered (AStop Refusal)) (send id [AgentMessageChunk ALREADY_RUNNING]
         (mark r (fun rn => set_pump (stop_pump (rn_pump rn)) (abort_run rn)) w)).

Definition await_run (i : nat) (id goal : string) (o : OrchId) (r : RunId) (w : World) : option World :=
  match w_runs w !! r with
  | Some rn => match rn_end rn with
               | Some outcome => Some (goto i (AtFinish id goal o r outcome) w)
               | None => None
               end
  | None => None
  end.

Definition finish_run (i : nat) (id goal : string) (o : OrchId) (r : RunId)
    (outcome : option (Result SessionResult)) (w : World) : World :=
  let w := on_registry (finish id) w in
  match outcome with
  | None => goto i (AtRecord id goal o "(cancelled)" StopCancelled)
              (mark r (fun rn => set_pump (stop_pump (rn_pump rn)) rn) w)
  | Some outcome => goto i (AtDrain id goal o r outcome) w
  end.

(** The transcript of a pump that ended in time; it goes on otherwise. *)
Definition drain (ch : Choice) (i : nat) (id goal : string) (o : OrchId) (r : RunId)
    (outcome : Result SessionResult) (w : World) : option World :=
  match w_runs w !! r with
  | Some rn =>
      if ch_drained ch && negb (pm_over (rn_pump rn)) then None else
      let transcript := if ch_drained ch then pm_transcript (rn_pump rn) else "" in
      Some (goto i (AtRecord id goal o (response_of outcome transcript) (stop_reason_for outcome)) w)
  | None => None
  end.

Definition record_run (i : nat) (id goal : string) (o : OrchId) (response : string) (stop : StopReason)
    (w : World) : World :=
  let '(registry, snapshot) := record_memory id goal response (w_registry w) in
  let w := on_registry (fun _ => registry) w in
  match snapshot with
  | Some state => goto i (AtPersist id o state stop) w
  | None => goto i (Answered (AStop stop)) w
  end.

(** What a handler does next; [None] when it has to wait. *)
Definition advance (ch : Choice) (i : nat) (pc : Pc) (w : World) : option World :=
  match pc with
  | AtInitialize version =>
      Some (goto i (Answered (AInitialize version
              (with_load_session (is_persistent (w_registry w)) advertised_capabilities))) w)
  | AtNew cwd => Some (receive_new i cwd w)
  | AtLoad id cwd => Some (receive_load i id cwd w)
  | AtRead id path => Some (read_session i id path w)
  | AtInsert id path state =>
      Some (goto i (AtOrch (WLoad id (ss_turns state)) (Some path)) (on_registry (insert_session id state) w))
  | AtPrompt id prompt => Some (receive_prompt i id prompt w)
  | AtDir id goal => Some (goto i (AtOrch (WPrompt id goal) (workspace_of id (w_registry w))) w)
  | AtOrch want workspace => Some (find_orchestrator i want workspace w)
  | AtBuild want path cell => build_orchestrator ch i want path cell w
  | AtCreate path =>
      let id := "cuma-" +:+ uuid_like (ch_id ch) in
      let state := session_new path (ch_now ch) in
      Some (goto i (AtCreated id state)
              (on_registry (persist to_vec_pretty (ch_faults ch) id state) w))
  | AtCreated id state => Some (goto i (Answered (ANew id)) (on_registry (insert_session id state) w))
  | AtRun id goal o => spawn_run ch i id goal o w
  | AtStart id goal o r => Some (start_run ch i id goal o r w)
  | AtWait id goal o r => await_run i id goal o r w
  | AtFinish id goal o r outcome => Some (finish_run i id goal o r outcome w)
  | AtDrain id goal o r outcome => drain ch i id goal o r outcome w
  | AtRecord id goal o response stop => Some (record_run i id goal o response stop w)
  | AtPersist id o state stop =>
      Some (goto i (Answered (AStop stop)) (on_registry (persist to_vec_pretty (ch_faults ch) id state) w))
  | Answered _ => None
  end.

(** A request as it comes in. *)
Definition is_request (pc : Pc) : bool :=
  match pc with AtInitialize _ | AtNew _ | AtLoad _ _ | AtPrompt _ _ => true | _ => false end.

(** [session/cancel]. *)
Definition cancel_prompt (id : string) (w : World) : World :=
  match AcpSessions.cancel (finished w) id (w_registry w) with
  | Some r => mark r abort_run w
  | None => w
  end.

Definition pump_run (received : option Event) (r : RunId) (rn : Run) (w : World) : World :=
  let '(p, updates) := pump_one received (rn_pump rn) in
  send (rn_session rn) updates (mark r (set_pump p) w).

(** Requests, handlers, runs and pumps side by side. *)
Inductive step : World -> World -> Prop :=
  | step_request w pc : is_request pc = true -> step w (on_tasks (fun l => (l ++ [pc])%list) w)
  | step_handler w w' ch i pc : w_tasks w !! i = Some pc -> advance ch i pc w = Some w' -> step w w'
  | step_cancel w id : step w (cancel_prompt id w)
  | step_end w r rn outcome :
      w_runs w !! r = Some rn -> live rn = true -> step w (mark r (end_run (Some outcome)) w)
  | step_dropped w r rn :
      w_runs w !! r = Some rn -> live rn = true -> rn_aborted rn = true ->
      step w (mark r (end_run None) w)
  | step_pump w r rn received : w_runs w !! r = Some rn -> step w (pump_run received r rn w).

End Serving.

(** [serve_workspaces], [serve_with] and [serve]: a server as it starts. *)
Definition serve_workspaces (ws : Workspaces) (registry : SessionRegistry) : World :=
  {| w_registry := registry; w_workspaces := ws;
     w_cells := match ws_slots ws with s :: _ => {[sl_cell s := ws_default ws]} | [] => ∅ end;
     w_next_cell := match ws_slots ws with s :: _ => S (sl_cell s) | [] => O end;
     w_orchs := {[ws_default ws := ws_default_path ws]}; w_runs := ∅; w_tasks := []; w_sent := [] |}.

Definition serve_with (here : PathBuf) (orchestrator : OrchId) (registry : SessionRegistry) : World :=
  serve_workspaces (fixed here orchestrator) registry.
Definition serve (here : PathBuf) (orchestrator : OrchId) : World := serve_with here orchestrator registry_new.
