(* ===== verification/AcpFacts.v ===== *)
(** * CUMA as an ACP agent: theorems

    Whatever requests, runs and cancellations interleave, those who work in one
    directory share one orchestrator, eviction takes the idle ones that were
    used longest ago and no more than it must, and no handler is stuck; and how
    a prompt that ends takes the next one's handle with it. *)

From S2P Require Export AcpServer AcpSessions.
From stdpp Require Import gmap.
Open Scope string_scope.
Open Scope Z_scope.

(** ** Slots *)

Definition slot_key (s : Slot) : list Component := components (sl_path s).

Lemma path_eqb_true a b : path_eqb a b = true <-> components a = components b.
Proof. unfold path_eqb. apply bool_decide_eq_true. Qed.

Lemma oldest_spec l : l <> [] ->
  exists s, oldest l = Some s /\ s ∈ l /\ forall t, t ∈ l -> sl_last_used s <= sl_last_used t.
Proof.
  induction l as [|s l IH]; [done|]. intros _. simpl. destruct l as [|t l].
  - exists s. simpl. split_and!; [done|left|]. intros u ->%list_elem_of_singleton. lia.
  - destruct IH as (o&Ho&Hin&Hmin); [done|]. rewrite Ho. case_match eqn:E.
    + exists o. split_and!; [done|by right|]. intros u [->|Hu]%elem_of_cons; [lia|by apply Hmin].
    + exists s. split_and!; [done|left|]. intros u [->|Hu]%elem_of_cons; [lia|]. apply Hmin in Hu. lia.
Qed.

Lemma remove_slot_elem path l s : NoDup (map slot_key l) ->
  s ∈ remove_slot path l <-> s ∈ l /\ slot_key s <> components path.
Proof.
  induction l as [|t l IH]; simpl; [set_solver|]. intros [Hn Hd]%list.NoDup_cons.
  destruct (path_eqb (sl_path t) path) eqn:E.
  - apply path_eqb_true in E. rewrite elem_of_cons. split; [|by intros [[->|?] ?]].
    intros Hs. split; [by right|]. intros Ek. apply Hn. rewrite <- E in Ek. unfold slot_key in *. rewrite <- Ek.
    apply list_elem_of_In. change (components (sl_path s)) with (slot_key s). apply in_map. by apply list_elem_of_In.
  - rewrite !elem_of_cons, IH by done. split.
    + intros [->|[? ?]]; [|by auto]. split; [by left|]. intros Ek. by rewrite (proj2 (path_eqb_true _ _) Ek) in E.
    + intros [[->|?] ?]; auto.
Qed.

Lemma remove_slot_sublist path l : sublist (remove_slot path l) l.
Proof.
  induction l as [|s l IH]; simpl; [done|]. destruct (path_eqb _ _); [by constructor|]. by constructor.
Qed.

Lemma remove_slot_length path l s : s ∈ l -> slot_key s = components path ->
  length l = S (length (remove_slot path l)).
Proof.
  intros Hin Hk. induction l as [|t l IH]; [set_solver|]. simpl.
  destruct (path_eqb (sl_path t) path) eqn:E; [done|]. simpl. f_equal. apply IH.
  apply elem_of_cons in Hin as [->|?]; [|done]. by rewrite (proj2 (path_eqb_true _ _) Hk) in E.
Qed.

Lemma sublist_nodup {A B} (f : A -> B) l k : sublist l k -> NoDup (map f k) -> NoDup (map f l).
Proof.
  intros H. induction H as [|x l k H IH|x l k H IH]; simpl; [done|..].
  - intros [Hn Hd]%list.NoDup_cons. constructor; [|by apply IH]. intros Hin. apply Hn.
    apply list_elem_of_In, in_map_iff in Hin as (y&<-&Hy). apply list_elem_of_In, in_map, list_elem_of_In.
    eapply elem_of_sublist; [|exact H]. by apply list_elem_of_In.
  - intros [_ Hd]%list.NoDup_cons. by apply IH.
Qed.

Lemma nodup_by {A K} (f : A -> K) l s t : NoDup (map f l) -> s ∈ l -> t ∈ l -> f s = f t -> s = t.
Proof.
  intros Hd [i Hi]%list_elem_of_lookup [j Hj]%list_elem_of_lookup E.
  assert (map f l !! i = Some (f s)) as Hi' by (rewrite list_lookup_fmap, Hi; done).
  assert (map f l !! j = Some (f t)) as Hj' by (rewrite list_lookup_fmap, Hj; done).
  rewrite E in Hi'. pose proof (NoDup_lookup _ i j _ Hd Hi' Hj'). congruence.
Qed.

Lemma slot_by_key l s t : NoDup (map slot_key l) -> s ∈ l -> t ∈ l -> slot_key s = slot_key t -> s = t.
Proof. apply nodup_by. Qed.

Section Evicting.
Context (idle : CellId -> bool) (default_path : PathBuf).

Lemma evict_sublist fuel l : sublist (evict fuel idle default_path l) l.
Proof.
  revert l. induction fuel as [|fuel IH]; intros l; simpl; [done|]. destruct (_ <=? _)%nat; [done|].
  destruct (oldest _) as [s|]; [|done]. etransitivity; [apply IH|]. apply remove_slot_sublist.
Qed.

(** What cannot go stays, and what goes was used no later than what could have. *)
Lemma evict_spec fuel l : NoDup (map slot_key l) -> (length l <= fuel)%nat ->
  let kept := evict fuel idle default_path l in
  (forall s, s ∈ l -> may_go idle default_path s = false -> s ∈ kept)
  /\ ((length kept <= MAX_WORKSPACES)%nat \/ forall s, s ∈ kept -> may_go idle default_path s = false)
  /\ (length l <= MAX_WORKSPACES -> kept = l)%nat
  /\ (MAX_WORKSPACES <= length l -> MAX_WORKSPACES <= length kept)%nat
  /\ (forall s t, s ∈ l -> s ∉ kept -> t ∈ kept -> may_go idle default_path t = true ->
        sl_last_used s <= sl_last_used t).
Proof.
  revert l. induction fuel as [|fuel IH]; intros l Hd Hl; simpl.
  { destruct l; [|simpl in Hl; lia]. split_and!; try done; left; cbn; lia. }
  destruct (Nat.leb_spec (length l) MAX_WORKSPACES) as [Hle|Hgt]; [split_and!; auto; set_solver|].
  destruct (decide (List.filter (may_go idle default_path) l = [])) as [Ef|Ef].
  { rewrite Ef. simpl. split_and!; auto; try lia; [|set_solver]. right. intros s Hs.
    apply not_true_is_false. intros Hm.
    assert (In s (List.filter (may_go idle default_path) l)) as Hin by (apply filter_In; by rewrite <- list_elem_of_In).
    by rewrite Ef in Hin. }
  destruct (oldest_spec _ Ef) as (o&Ho&Hin&Hmin). rewrite Ho.
  apply list_elem_of_In, filter_In in Hin as [Hin Hgo]. apply list_elem_of_In in Hin.
  set (l' := remove_slot (sl_path o) l).
  assert (NoDup (map slot_key l')) as Hd' by (eapply sublist_nodup; [apply remove_slot_sublist|done]).
  pose proof (remove_slot_length (sl_path o) l o Hin eq_refl) as Hlen. fold l' in Hlen.
  destruct (IH l' Hd' ltac:(lia)) as (H1&H2&H3&H4&H5). clear IH.
  assert (forall s, s ∈ l -> s ∉ l' -> s = o) as Hgone.
  { intros s Hs Hn. destruct (decide (slot_key s = slot_key o)) as [Ek|Ne]; [by apply (slot_by_key l)|].
    exfalso. apply Hn. by apply remove_slot_elem. }
  split_and!.
  - intros s Hs Hm. apply H1; [|done]. destruct (decide (s ∈ l')) as [|Hn]; [done|].
    rewrite (Hgone s Hs Hn) in Hm. congruence.
  - done.
  - lia.
  - intros _. destruct (Nat.le_gt_cases MAX_WORKSPACES (length l')); [by apply H4|lia].
  - intros s t Hs Hk Ht Hm. destruct (decide (s ∈ l')) as [Hs'|Hs']; [by apply H5|].
    rewrite (Hgone s Hs Hs'). apply Hmin. apply list_elem_of_In, filter_In. split; [|done].
    apply list_elem_of_In. eapply elem_of_sublist; [exact Ht|]. etransitivity; [apply evict_sublist|apply remove_slot_sublist].
Qed.

End Evicting.

Lemma touch_keys path now l : map slot_key (touch path now l) = map slot_key l.
Proof. induction l as [|s l IH]; simpl; [done|]. destruct (path_eqb _ _); simpl; [done|]. by rewrite IH. Qed.
Lemma touch_cells path now l : map sl_cell (touch path now l) = map sl_cell l.
Proof. induction l as [|s l IH]; simpl; [done|]. destruct (path_eqb _ _); simpl; [done|]. by rewrite IH. Qed.

Lemma touch_elem path now l s : s ∈ touch path now l ->
  exists t, t ∈ l /\ sl_path t = sl_path s /\ sl_cell t = sl_cell s.
Proof.
  induction l as [|t l IH]; simpl; [set_solver|]. destruct (path_eqb _ _).
  - intros [->|Hs]%elem_of_cons; [exists t; by split; [left|]|]. exists s. by split; [right|].
  - intros [->|Hs]%elem_of_cons; [exists t; by split; [left|]|]. destruct (IH Hs) as (u&?&?). exists u. by split; [right|].
Qed.

Lemma touch_elem_inv path now l t : t ∈ l ->
  exists s, s ∈ touch path now l /\ sl_path s = sl_path t /\ sl_cell s = sl_cell t.
Proof.
  induction l as [|u l IH]; simpl; [set_solver|]. intros [->|Ht]%elem_of_cons.
  - destruct (path_eqb _ _); eexists; (split; [left|done]).
  - destruct (path_eqb _ _); [exists t; by split; [right|]|].
    destruct (IH Ht) as (s&?&?). exists s. by split; [right|].
Qed.

Lemma find_slot_spec path w :
  match find_slot path w with
  | Some s => s ∈ ws_slots w /\ slot_key s = components path
  | None => components path ∉ map slot_key (ws_slots w)
  end.
Proof.
  unfold find_slot. destruct (find _ _) as [s|] eqn:E.
  - apply find_some in E as [Hin E]. apply path_eqb_true in E. split; [by apply list_elem_of_In|done].
  - intros Hin. apply list_elem_of_In, in_map_iff in Hin as (s&Ek&Hs).
    pose proof (find_none _ _ E s Hs) as Hn. cbn in Hn. by rewrite (proj2 (path_eqb_true _ _) Ek) in Hn.
Qed.

(** Finding or making the slot of a directory. *)
Lemma slot_spec idle fresh path w :
  NoDup (map slot_key (ws_slots w)) -> idle fresh = false ->
  let '(w', cell) := slot idle fresh path w in
  let free := may_go idle (ws_default_path w) in
  (exists s, s ∈ ws_slots w' /\ slot_key s = components path /\ sl_cell s = cell)
  /\ NoDup (map slot_key (ws_slots w'))
  /\ (forall s, s ∈ ws_slots w -> free s = false -> slot_key s <> components path -> s ∈ ws_slots w')
  /\ (components path ∉ map slot_key (ws_slots w) ->
        (length (ws_slots w') <= MAX_WORKSPACES)%nat \/ Forall (fun s => free s = false) (ws_slots w'))
  /\ (length (ws_slots w) < MAX_WORKSPACES -> forall s, s ∈ ws_slots w -> slot_key s <> components path -> s ∈ ws_slots w')%nat
  /\ (forall s, s ∈ ws_slots w -> slot_key s <> components path -> s ∉ ws_slots w' ->
        free s = true /\ (MAX_WORKSPACES <= length (ws_slots w'))%nat
        /\ forall t, t ∈ ws_slots w' -> free t = true -> sl_last_used s <= sl_last_used t).
Proof.
  intros Hd Hf. unfold slot. pose proof (find_slot_spec path w) as Hs. unfold find_slot in *.
  cbn [ws_slots]. destruct (find _ _) as [s|] eqn:E; cbn [ws_slots with_slots ws_default_path].
  - destruct Hs as [Hin Hk].
    assert (forall t, t ∈ ws_slots w -> slot_key t <> components path -> t ∈ touch path (ws_clock w) (ws_slots w)) as Hkeep.
    { clear. induction (ws_slots w) as [|u l IH]; intros t; simpl; [set_solver|].
      intros [->|Ht]%elem_of_cons Hne.
      - destruct (path_eqb (sl_path u) path) eqn:E; [by apply path_eqb_true in E|left].
      - destruct (path_eqb (sl_path u) path); right; auto. }
    split_and!.
    + destruct (touch_elem_inv path (ws_clock w) _ s Hin) as (t&Ht&Hp&Hc). exists t. split_and!; try done.
      unfold slot_key in *. by rewrite Hp.
    + by rewrite touch_keys.
    + auto.
    + intros Hn. exfalso. apply Hn. rewrite <- Hk. apply list_elem_of_In, in_map. by apply list_elem_of_In.
    + auto.
    + intros t Ht Hne Hn. exfalso. auto.
  - set (l := (ws_slots w ++ _)%list).
    assert (NoDup (map slot_key l)) as Hd'.
    { unfold l. rewrite map_app. apply NoDup_app. split_and!; [done| |by apply NoDup_singleton].
      intros k Hk ->%list_elem_of_singleton. by apply Hs. }
    destruct (evict_spec idle (ws_default_path w) (length l) l Hd' ltac:(lia)) as (H1&H2&H3&H4&H5).
    assert (length l = S (length (ws_slots w))) as Hlen by (unfold l; rewrite length_app; cbn; lia).
    split_and!.
    + eexists. split; [apply H1; [unfold l; apply elem_of_app; right; left|]|done].
      unfold may_go. cbn. by rewrite Hf, andb_false_r.
    + eapply sublist_nodup; [apply evict_sublist|done].
    + intros s Hin Hm _. apply H1; [|done]. apply elem_of_app. by left.
    + intros _. destruct H2 as [?|H2]; [by left|right]. apply list.Forall_forall. auto.
    + intros Hlt s Hin _. rewrite H3 by lia. apply elem_of_app. by left.
    + intros s Hin _ Hn. assert (s ∈ l) as Hsl by (apply elem_of_app; by left). split_and!.
      * apply not_false_is_true. intros Hm. by apply Hn, H1.
      * destruct (Nat.le_gt_cases MAX_WORKSPACES (length l)); [by apply H4|]. exfalso. apply Hn. rewrite H3; [done|lia].
      * intros t Ht Hm. by apply (H5 s t).
Qed.

(** ** One orchestrator per directory *)

Definition slots_of (w : World) : list Slot := ws_slots (w_workspaces w).

(** Held by a handler or by a run that goes on. *)
Definition held (w : World) (o : OrchId) : Prop :=
  (exists pc, pc ∈ w_tasks w /\ task_orch pc = Some o)
  \/ exists r rn, w_runs w !! r = Some rn /\ run_orch rn = Some o.

(** Built for a directory, and the one its slot has. *)
Definition placed (w : World) (o : OrchId) : Prop :=
  exists p, w_orchs w !! o = Some p
    /\ (o = ws_default (w_workspaces w)
        \/ exists s, s ∈ slots_of w /\ w_cells w !! sl_cell s = Some o).

Record SlotsSound (w : World) : Prop := {
  so_keys : NoDup (map slot_key (slots_of w));
  so_cells : NoDup (map sl_cell (slots_of w));
  so_old : forall s, s ∈ slots_of w -> (sl_cell s < w_next_cell w)%nat;
  so_filled : forall c o, w_cells w !! c = Some o -> (c < w_next_cell w)%nat /\ is_Some (w_orchs w !! o);
  so_slots : forall s o, s ∈ slots_of w -> w_cells w !! sl_cell s = Some o ->
    exists p, w_orchs w !! o = Some p /\ components p = slot_key s;
  so_building : forall want p c, AtBuild want p c ∈ w_tasks w ->
    exists s, s ∈ slots_of w /\ sl_cell s = c /\ slot_key s = components p;
  so_held : forall o, held w o -> placed w o;
  so_default : w_orchs w !! ws_default (w_workspaces w) = Some (ws_default_path (w_workspaces w));
  so_seeded : if ws_build (w_workspaces w)
    then exists s, s ∈ slots_of w /\ slot_key s = components (ws_default_path (w_workspaces w))
           /\ w_cells w !! sl_cell s = Some (ws_default (w_workspaces w))
    else slots_of w = [];
}.

(** Two that are placed for the same directory are the same. *)
Lemma placed_unique w o o' p p' :
  SlotsSound w -> placed w o -> placed w o' -> w_orchs w !! o = Some p -> w_orchs w !! o' = Some p' ->
  components p = components p' -> o = o'.
Proof.
  intros S (q&Hq&Ho) (q'&Hq'&Ho') Hp Hp' E. simplify_eq.
  assert (forall a b u v, w_orchs w !! a = Some u -> w_orchs w !! b = Some v -> components u = components v ->
    a = ws_default (w_workspaces w) -> (exists s, s ∈ slots_of w /\ w_cells w !! sl_cell s = Some b) -> a = b) as Hdef.
  { intros a b u v Ha Hb Euv -> (s&Hs&Hc). pose proof (so_default w S) as Hd. simplify_eq.
    pose proof (so_seeded w S) as Hw. destruct (ws_build _).
    - destruct Hw as (t&Ht&Hk&Hct). destruct (so_slots w S s b Hs Hc) as (p''&Hp''&Hk''). simplify_eq.
      assert (s = t) as -> by (apply (slot_by_key (slots_of w)); [apply S|done|done|congruence]). congruence.
    - rewrite Hw in Hs. set_solver. }
  destruct Ho as [Ho|Ho], Ho' as [Ho'|Ho']; [congruence|eauto|symmetry; eapply Hdef; eauto|].
  destruct Ho as (s&Hs&Hc), Ho' as (t&Ht&Hct).
  destruct (so_slots w S s o Hs Hc) as (u&Hu&Hku), (so_slots w S t o' Ht Hct) as (v&Hv&Hkv). simplify_eq.
  assert (s = t) as -> by (apply (slot_by_key (slots_of w)); [apply S|done|done|congruence]). congruence.
Qed.

Lemma elem_of_goto i pc w x : x ∈ w_tasks (goto i pc w) -> x = pc \/ x ∈ w_tasks w.
Proof.
  cbn. intros [j Hj]%list_elem_of_lookup. destruct (decide (i = j)) as [->|Hne].
  - destruct (decide (j < length (w_tasks w))%nat).
    + rewrite list_lookup_insert_eq in Hj by done. left. congruence.
    + rewrite list_insert_ge in Hj by lia. right. by eapply list_elem_of_lookup_2.
  - rewrite list_lookup_insert_ne in Hj by done. right. by eapply list_elem_of_lookup_2.
Qed.

(** A step that leaves the directories alone. *)
Lemma slots_frame w w' :
  SlotsSound w -> w_workspaces w' = w_workspaces w -> w_cells w' = w_cells w ->
  w_next_cell w' = w_next_cell w -> w_orchs w' = w_orchs w ->
  (forall pc, pc ∈ w_tasks w' ->
     pc ∈ w_tasks w \/ task_cell pc = None /\ forall o, task_orch pc = Some o -> placed w o) ->
  (forall r rn o, w_runs w' !! r = Some rn -> run_orch rn = Some o -> placed w o) ->
  SlotsSound w'.
Proof.
  intros S Ew Ec En Eo Ht Hr. destruct S. unfold placed, slots_of in *.
  split; unfold placed, held, slots_of; rewrite ?Ew, ?Ec, ?En, ?Eo; try done.
  - intros want p c Hin. destruct (Ht _ Hin) as [Hw|[? _]]; [|done]. exact (so_building0 _ _ _ Hw).
  - intros o [(pc&Hin&Ho)|(r&rn&Hrn&Ho)]; [|exact (Hr r rn o Hrn Ho)].
    destruct (Ht _ Hin) as [Hin'|[_ Hp]]; [|by apply Hp]. apply so_held0. left. by exists pc.
Qed.

Lemma goto_slots w w1 i pc :
  SlotsSound w -> w_workspaces w1 = w_workspaces w -> w_cells w1 = w_cells w ->
  w_next_cell w1 = w_next_cell w -> w_orchs w1 = w_orchs w -> w_tasks w1 = w_tasks w ->
  (forall r rn o, w_runs w1 !! r = Some rn -> run_orch rn = Some o -> placed w o) ->
  task_cell pc = None -> (forall o, task_orch pc = Some o -> placed w o) ->
  SlotsSound (goto i pc w1).
Proof.
  intros S Ew Ec En Eo Et Hr Hc Ho. apply (slots_frame w); try done.
  intros x [->|Hx]%elem_of_goto; [by right|]. left. by rewrite <- Et.
Qed.

(** What changes of a run without handing it an orchestrator. *)
Definition tame (f : Run -> Run) : Prop :=
  forall rn, rn_session (f rn) = rn_session rn /\ rn_orch (f rn) = rn_orch rn
    /\ forall o, run_orch (f rn) = Some o -> run_orch rn = Some o.

Lemma tame_abort : tame abort_run.
Proof. intros rn. by split_and!. Qed.
Lemma tame_end e : tame (end_run e).
Proof. intros rn. by split_and!. Qed.
Lemma tame_pump g : tame (fun rn => set_pump (g rn) rn).
Proof. intros rn. by split_and!. Qed.
Lemma tame_refuse : tame (fun rn => set_pump (stop_pump (rn_pump rn)) (abort_run rn)).
Proof. intros rn. by split_and!. Qed.

Lemma runs_placed w : SlotsSound w ->
  forall r rn o, w_runs w !! r = Some rn -> run_orch rn = Some o -> placed w o.
Proof. intros S r rn o Hr Ho. apply S. right. by exists r, rn. Qed.

Lemma mark_placed w r f : SlotsSound w -> tame f ->
  forall r' rn o, w_runs (mark r f w) !! r' = Some rn -> run_orch rn = Some o -> placed w o.
Proof.
  intros S Hf r' rn o Hr Ho. cbn in Hr. destruct (decide (r = r')) as [->|Hne].
  - rewrite lookup_alter_eq in Hr. destruct (w_runs w !! r') as [rn0|] eqn:E; [|done]. cbn in Hr. injection Hr as <-.
    apply Hf in Ho. by eapply runs_placed.
  - rewrite lookup_alter_ne in Hr by done. by eapply runs_placed.
Qed.

Lemma task_placed w i pc o : SlotsSound w -> w_tasks w !! i = Some pc -> task_orch pc = Some o -> placed w o.
Proof. intros S Hi Ho. apply S. left. exists pc. split; [|done]. by eapply list_elem_of_lookup_2. Qed.

Lemma default_placed w : SlotsSound w -> placed w (ws_default (w_workspaces w)).
Proof. intros S. exists (ws_default_path (w_workspaces w)). split; [apply S|by left]. Qed.

Create HintDb acp.
#[local] Hint Resolve tame_abort tame_end tame_pump tame_refuse runs_placed default_placed : acp.

Lemma obtained_slots w i want got :
  SlotsSound w -> (forall o, got = Ok o -> placed w o) -> SlotsSound (obtained i want got w).
Proof.
  intros S Ho. unfold obtained. destruct want, got; apply (goto_slots w); try done; try exact (runs_placed w S).
  intros o' [= <-]. by apply Ho.
Qed.

Lemma idle_true w c : idle w c = true ->
  (forall pc, pc ∈ w_tasks w -> task_cell pc <> Some c)
  /\ exists o, w_cells w !! c = Some o /\ o <> ws_default (w_workspaces w) /\ ~ held w o.
Proof.
  unfold idle. intros [H1 H2]%andb_true_iff. split.
  - intros pc Hin. rewrite forallb_forall in H1. apply list_elem_of_In in Hin. apply H1 in Hin.
    by apply negb_true_iff, bool_decide_eq_false in Hin.
  - destruct (w_cells w !! c) as [o|]; [|done]. exists o. split; [done|].
    apply andb_true_iff in H2 as [[H2 H3]%andb_true_iff H4]. split; [by apply negb_true_iff, bool_decide_eq_false in H2|].
    intros [(pc&Hin&Ho)|(r&rn&Hr&Ho)].
    + rewrite forallb_forall in H3. apply list_elem_of_In in Hin. apply H3 in Hin.
      by apply negb_true_iff, bool_decide_eq_false in Hin.
    + rewrite forallb_forall in H4. apply elem_of_map_to_list, list_elem_of_In in Hr. apply H4 in Hr.
      by apply negb_true_iff, bool_decide_eq_false in Hr.
Qed.

Lemma idle_fresh w : SlotsSound w -> idle w (w_next_cell w) = false.
Proof.
  intros S. apply not_true_is_false. intros H. apply idle_true in H as [_ (o&Ho&_)].
  apply (so_filled w S) in Ho as [Ho _]. lia.
Qed.

(** The slots after a directory was asked for: those there were, as they were
    placed, and perhaps a new one. *)
Lemma slot_elem idle fresh path w s :
  s ∈ ws_slots (slot idle fresh path w).1 ->
  (exists t, t ∈ ws_slots w /\ sl_path t = sl_path s /\ sl_cell t = sl_cell s)
  \/ (components path ∉ map slot_key (ws_slots w)) /\ sl_path s = path /\ sl_cell s = fresh.
Proof.
  unfold slot. pose proof (find_slot_spec path w) as Hs. unfold find_slot in *. cbn [ws_slots].
  destruct (find _ _) as [s0|] eqn:E; cbn [fst ws_slots with_slots].
  - intros H%touch_elem. by left.
  - intros H. eapply elem_of_sublist in H; [|apply evict_sublist].
    apply elem_of_app in H as [H| ->%list_elem_of_singleton]; [left; by exists s|by right].
Qed.

Lemma slot_cells idle fresh path w :
  NoDup (map sl_cell (ws_slots w)) -> (forall s, s ∈ ws_slots w -> (sl_cell s < fresh)%nat) ->
  NoDup (map sl_cell (ws_slots (slot idle fresh path w).1)).
Proof.
  intros Hd Hf. unfold slot, find_slot. cbn [ws_slots].
  destruct (find _ _) as [s0|] eqn:E; cbn [fst ws_slots with_slots]; [by rewrite touch_cells|].
  eapply sublist_nodup; [apply evict_sublist|]. rewrite map_app. apply NoDup_app.
  split_and!; [done| |by apply NoDup_singleton].
  intros c Hc ->%list_elem_of_singleton. apply list_elem_of_In, in_map_iff in Hc as (s&Es&Hs).
  apply list_elem_of_In, Hf in Hs. cbn in Es. lia.
Qed.

Lemma slot_rest idle fresh path w :
  ws_default (slot idle fresh path w).1 = ws_default w
  /\ ws_default_path (slot idle fresh path w).1 = ws_default_path w
  /\ ws_build (slot idle fresh path w).1 = ws_build w.
Proof. unfold slot, find_slot. cbn [ws_slots]. by destruct (find _ _). Qed.

Lemma slot_found idle fresh path w s :
  NoDup (map slot_key (ws_slots w)) -> s ∈ ws_slots w -> slot_key s = components path ->
  (slot idle fresh path w).2 = sl_cell s.
Proof.
  intros Hd Hs Hk. unfold slot. pose proof (find_slot_spec path w) as Hf. unfold find_slot in *. cbn [ws_slots].
  destruct (find _ _) as [t|]; cbn [snd].
  - destruct Hf as [Ht Hkt]. f_equal. by apply (slot_by_key (ws_slots w)); [..|congruence].
  - exfalso. apply Hf. rewrite <- Hk. apply list_elem_of_In, in_map. by apply list_elem_of_In.
Qed.

(** A slot that may not go is there afterwards. *)
Lemma slot_keeps w path s :
  SlotsSound w -> s ∈ slots_of w -> may_go (idle w) (ws_default_path (w_workspaces w)) s = false ->
  exists s', s' ∈ ws_slots (slot (idle w) (w_next_cell w) path (w_workspaces w)).1
    /\ slot_key s' = slot_key s /\ sl_cell s' = sl_cell s.
Proof.
  intros S Hs Hm. pose proof (slot_spec (idle w) (w_next_cell w) path (w_workspaces w) (so_keys w S) (idle_fresh w S)) as H.
  destruct (decide (slot_key s = components path)) as [Ek|Ne].
  - pose proof (slot_found (idle w) (w_next_cell w) path (w_workspaces w) s (so_keys w S) Hs Ek) as Hc.
    destruct (slot _ _ _ _) as [ws cell]. cbn in *. subst cell.
    destruct H as ((s'&Hs'&Hk'&Hc')&_). exists s'. split_and!; congruence.
  - destruct (slot _ _ _ _) as [ws cell]. cbn in *. destruct H as (_&_&H&_). exists s. split; [by apply H|done].
Qed.

Lemma held_stays w o s : SlotsSound w -> held w o -> w_cells w !! sl_cell s = Some o ->
  may_go (idle w) (ws_default_path (w_workspaces w)) s = false.
Proof.
  intros S Hh Hc. unfold may_go. apply andb_false_iff. right. apply not_true_is_false.
  intros (_&o'&Ho'&_&Hn)%idle_true. congruence.
Qed.

Lemma find_slots i want workspace w : SlotsSound w -> SlotsSound (find_orchestrator i want workspace w).
Proof.
  intros S. unfold find_orchestrator, is_per_directory.
  destruct (ws_build (w_workspaces w)) eqn:Eb; [|apply obtained_slots; [done|]; intros o [= <-]; by apply default_placed].
  destruct workspace as [path|]; [|apply obtained_slots; [done|]; intros o [= <-]; by apply default_placed].
  pose proof (slot_spec (idle w) (w_next_cell w) path (w_workspaces w) (so_keys w S) (idle_fresh w S)) as Hspec.
  pose proof (slot_elem (idle w) (w_next_cell w) path (w_workspaces w)) as Helem.
  pose proof (slot_cells (idle w) (w_next_cell w) path (w_workspaces w) (so_cells w S) (so_old w S)) as Hcells.
  pose proof (slot_rest (idle w) (w_next_cell w) path (w_workspaces w)) as (Hd&Hdp&Hb).
  pose proof (slot_keeps w path) as Hkeep.
  destruct (slot (idle w) (w_next_cell w) path (w_workspaces w)) as [ws cell] eqn:Es. cbn [fst] in *.
  destruct Hspec as (Hmine&Hkeys&_). set (w' := goto _ _ _).
  assert (slots_of w' = ws_slots ws) as Esl by done.
  assert (forall o, placed w o -> held w o -> placed w' o) as Hplaced.
  { intros o (p&Hp&Ho) Hh. exists p. split; [done|]. destruct Ho as [->|(s&Hs&Hc)]; [left; by cbn|right].
    destruct (Hkeep s S Hs) as (s'&Hs'&_&Hc'); [by eapply held_stays|]. exists s'. split; [done|]. cbn. by rewrite Hc'. }
  split; rewrite ?Esl; try done.
  - intros s [(t&Ht&_&<-)|(_&_&->)]%Helem; cbn; [|lia]. apply (so_old w S) in Ht. lia.
  - intros c o Hc. cbn in Hc |- *. apply (so_filled w S) in Hc as [? ?]. split; [lia|done].
  - intros s o Hs Hc. cbn in Hc |- *. apply Helem in Hs as [(t&Ht&Hp&Hct)|(_&_&Hcs)].
    + unfold slot_key. rewrite <- Hp. apply (so_slots w S t); [done|]. by rewrite Hct.
    + rewrite Hcs in Hc. apply (so_filled w S) in Hc as [? _]. lia.
  - intros want' p c [[= -> -> ->]|Hin]%elem_of_goto.
    + destruct Hmine as (s&Hs&Hk&Hc). by exists s.
    + cbn in Hin. destruct (so_building w S want' p c Hin) as (s&Hs&<-&Hk).
      destruct (Hkeep s S Hs) as (s'&Hs'&Hk'&Hc').
      { unfold may_go. apply andb_false_iff. right. apply not_true_is_false. intros [Hi _]%idle_true.
        by apply (Hi _ Hin). }
      exists s'. split_and!; congruence.
  - intros o Hh. assert (held w o) as Hw.
    { destruct Hh as [(pc&Hin&Ho)|Hr]; [left|by right]. apply elem_of_goto in Hin as [->|Hin]; [done|by exists pc]. }
    apply Hplaced; [by apply S|done].
  - cbn. rewrite Hd, Hdp. apply S.
  - change (w_workspaces w') with ws. rewrite Hb, Eb, Hd, Hdp. pose proof (so_seeded w S) as Hseed. rewrite Eb in Hseed.
    destruct Hseed as (s&Hs&Hk&Hc). destruct (Hkeep s S Hs) as (s'&Hs'&Hk'&Hc').
    { unfold may_go. apply andb_false_iff. left. by rewrite (proj2 (path_eqb_true _ _) Hk). }
    exists s'. split; [done|]. split; [congruence|]. change (w_cells w') with (w_cells w). by rewrite Hc'.
Qed.

Lemma build_slots ch i want path cell w w' :
  SlotsSound w -> w_tasks w !! i = Some (AtBuild want path cell) ->
  build_orchestrator ch i want path cell w = Some w' -> SlotsSound w'.
Proof.
  intros S Hi. assert (AtBuild want path cell ∈ w_tasks w) as Hin by (by eapply list_elem_of_lookup_2).
  destruct (so_building w S _ _ _ Hin) as (s&Hs&Ec&Hk). unfold build_orchestrator.
  destruct (w_cells w !! cell) as [o|] eqn:Ecell.
  - intros [= <-]. apply obtained_slots; [done|]. intros o' [= <-].
    destruct (so_slots w S s o Hs) as (p&Hp&_); [by rewrite Ec|]. exists p. split; [done|right].
    exists s. by rewrite Ec.
  - destruct (ch_built ch) as [o|err]; [|intros [= <-]; by apply obtained_slots].
    destruct (w_orchs w !! o) as [|] eqn:Eo; [done|]. intros [= <-].
    assert (forall s' o', s' ∈ slots_of w -> w_cells w !! sl_cell s' = Some o' -> sl_cell s' <> cell) as Hother
      by congruence.
    assert (forall o', placed w o' -> placed (fill cell o path w) o') as Hplaced.
    { intros o' (p&Hp&Ho). exists p. cbn. rewrite lookup_insert_ne by congruence. split; [done|].
      destruct Ho as [?|(s'&Hs'&Hc')]; [by left|right]. exists s'. split; [done|].
      rewrite lookup_insert_ne; [done|]. apply not_eq_sym. by apply (Hother s' o'). }
    apply obtained_slots.
    + destruct S. split; try done.
      * intros c o'. cbn. destruct (decide (cell = c)) as [<-|Hne].
        -- rewrite lookup_insert_eq. intros [= <-]. split; [rewrite <- Ec; by apply so_old0|]. by rewrite lookup_insert_eq.
        -- rewrite lookup_insert_ne by done. intros Hc. apply so_filled0 in Hc as [? [p Hp]].
           split; [done|]. rewrite lookup_insert_ne by congruence. by exists p.
      * intros s' o' Hs'. cbn [fill w_cells w_orchs]. destruct (decide (cell = sl_cell s')) as [E|Hne].
        -- rewrite E, lookup_insert_eq. intros [= <-]. exists path. rewrite lookup_insert_eq. split; [done|].
           rewrite <- Hk. f_equal. apply (nodup_by sl_cell (slots_of w)); [done..|congruence].
        -- rewrite lookup_insert_ne by done. intros Hc. destruct (so_slots0 s' o' Hs' Hc) as (p&Hp&Hk').
           exists p. rewrite lookup_insert_ne by congruence. done.
      * intros o' Hh. apply Hplaced. by apply so_held0.
      * cbn. rewrite lookup_insert_ne by congruence. done.
      * cbn [fill w_cells w_workspaces]. destruct (ws_build _); [|done]. destruct so_seeded0 as (t&Ht&Hkt&Hct). exists t. split_and!; try done.
        rewrite lookup_insert_ne; [done|]. apply not_eq_sym. by apply (Hother t (ws_default (w_workspaces w))).
    + intros o' [= <-]. exists path. cbn. rewrite lookup_insert_eq. split; [done|right]. exists s. split; [done|].
      rewrite Ec. by rewrite lookup_insert_eq.
Qed.

(** ** Handlers, runs and sessions *)

Definition task_run (pc : Pc) : option (string * OrchId * RunId) :=
  match pc with
  | AtStart id _ o r | AtWait id _ o r | AtFinish id _ o r _ | AtDrain id _ o r _ => Some (id, o, r)
  | _ => None
  end.
Definition task_state (pc : Pc) : option SessionState :=
  match pc with AtInsert _ _ s | AtCreated _ s => Some s | _ => None end.

(** The run of a handler, or of a session, is one of that session. *)
Definition run_of (w : World) (id : string) (r : RunId) : Prop :=
  exists rn, w_runs w !! r = Some rn /\ rn_session rn = id.

Record RunsSound (w : World) : Prop := {
  rs_task : forall pc id o r, pc ∈ w_tasks w -> task_run pc = Some (id, o, r) -> run_of w id r;
  rs_running : forall id s r, get id (w_registry w) = Some s -> ss_running s = Some r -> run_of w id r;
  rs_state : forall pc s, pc ∈ w_tasks w -> task_state pc = Some s -> ss_running s = None;
}.

Definition runs_kept (w w' : World) : Prop := forall id r, run_of w id r -> run_of w' id r.

Lemma runs_kept_same w w' : w_runs w' = w_runs w -> runs_kept w w'.
Proof. intros E id r (rn&Hr&?). exists rn. by rewrite E. Qed.

Lemma mark_kept r f w : tame f -> runs_kept w (mark r f w).
Proof.
  intros Hf id q (rn&Hr&Hs). destruct (decide (r = q)) as [->|Hne].
  - exists (f rn). cbn. rewrite lookup_alter_eq, Hr. split; [done|]. rewrite <- Hs. apply Hf.
  - exists rn. cbn. by rewrite lookup_alter_ne.
Qed.

Lemma goto_runs w w1 i pc :
  RunsSound w -> w_tasks w1 = w_tasks w -> runs_kept w w1 ->
  (forall id s r, get id (w_registry w1) = Some s -> ss_running s = Some r -> run_of w1 id r) ->
  (forall id o r, task_run pc = Some (id, o, r) -> run_of w1 id r) ->
  (forall s, task_state pc = Some s -> ss_running s = None) ->
  RunsSound (goto i pc w1).
Proof.
  intros R Et Hk Hr Hp Hs. split.
  - intros x id o r [->|Hx]%elem_of_goto; [by apply Hp|]. rewrite Et in Hx. intros E. by apply Hk, (rs_task w R x id o r).
  - done.
  - intros x s [->|Hx]%elem_of_goto; [by apply Hs|]. rewrite Et in Hx. by apply (rs_state w R).
Qed.

(** Where the registry is as it was. *)
Lemma goto_runs_same w w1 i pc :
  RunsSound w -> w_tasks w1 = w_tasks w -> runs_kept w w1 -> w_registry w1 = w_registry w ->
  (forall id o r, task_run pc = Some (id, o, r) -> run_of w1 id r) -> task_state pc = None ->
  RunsSound (goto i pc w1).
Proof.
  intros R Et Hk Er Hp Hs. apply (goto_runs w); try done; [|congruence].
  intros id s r. rewrite Er. intros Hg Hrun. by apply Hk, (rs_running w R id s).
Qed.

(** Where one session was put in place of what there was. *)
Lemma insert_running w w1 key st :
  RunsSound w -> runs_kept w w1 -> w_registry w1 = insert_session key st (w_registry w) ->
  (forall r, ss_running st = Some r -> run_of w1 key r) ->
  forall id s r, get id (w_registry w1) = Some s -> ss_running s = Some r -> run_of w1 id r.
Proof.
  intros R Hk -> Hst id s r. unfold get. cbn [rg_sessions insert_session with_sessions].
  destruct (decide (key = id)) as [->|Hne].
  - rewrite bt_get_insert_eq. intros [= <-]. apply Hst.
  - rewrite bt_get_insert_ne by congruence. intros Hg Hr. by apply Hk, (rs_running w R id s).
Qed.

Section Steps.
Context (to_vec_pretty : Value -> string) (from_str : string -> option Value) (date : string -> option string)
        (canonicalize : PathBuf -> result PathBuf string) (is_dir : PathBuf -> bool) (here : PathBuf).

#[local] Abbreviation advance := (AcpServer.advance to_vec_pretty from_str date canonicalize is_dir here).
#[local] Abbreviation step := (AcpServer.step to_vec_pretty from_str date canonicalize is_dir here).

(** A handler that goes on with what it has. *)
Ltac same_slots w S Hi :=
  apply (goto_slots w); try done; try exact (runs_placed w S);
  let o := fresh in let E := fresh in intros o E; exact (task_placed w _ _ o S Hi E).

Lemma advance_slots ch i pc w w' :
  SlotsSound w -> w_tasks w !! i = Some pc -> advance ch i pc w = Some w' -> SlotsSound w'.
Proof.
  intros S Hi. destruct pc; cbn [AcpServer.advance]; try (intros [= <-]; same_slots w S Hi; fail).
  - intros [= <-]. unfold receive_new. repeat case_match; same_slots w S Hi.
  - intros [= <-]. unfold receive_load. repeat case_match; same_slots w S Hi.
  - intros [= <-]. unfold read_session. destruct (load_file _ _ _ _ _); same_slots w S Hi.
  - intros [= <-]. unfold receive_prompt. destruct (bool_decide _); same_slots w S Hi.
  - intros [= <-]. by apply find_slots.
  - by apply build_slots.
  - unfold spawn_run. destruct (w_runs w !! ch_run ch) eqn:E; [done|]. intros [= <-].
    apply (goto_slots w); try done.
    + intros r rn o' Hr Ho. cbn in Hr. destruct (decide (ch_run ch = r)) as [<-|Hne].
      * rewrite lookup_insert_eq in Hr. injection Hr as <-. injection Ho as <-. by eapply task_placed.
      * rewrite lookup_insert_ne in Hr by done. by eapply runs_placed.
    + intros o' E'. by apply (task_placed w i (AtRun id goal o)).
  - intros [= <-]. unfold start_run. destruct (start _ _ _ _ _ _) as [registry []].
    + same_slots w S Hi.
    + apply (goto_slots w); try done.
      exact (mark_placed w r (fun rn => set_pump (stop_pump (rn_pump rn)) (abort_run rn)) S tame_refuse).
  - unfold await_run. destruct (w_runs w !! r) as [rn|]; [|done]. destruct (rn_end rn); [|done].
    intros [= <-]. same_slots w S Hi.
  - intros [= <-]. unfold finish_run. destruct outcome as [outcome|]; [same_slots w S Hi|].
    apply (goto_slots w); try done.
    + exact (mark_placed w r (fun rn => set_pump (stop_pump (rn_pump rn)) rn) S (tame_pump _)).
    + intros o' E. by apply (task_placed w i (AtFinish id goal o r None)).
  - unfold drain. destruct (w_runs w !! r) as [rn|]; [|done]. destruct (_ && _); [done|].
    intros [= <-]. same_slots w S Hi.
  - intros [= <-]. unfold record_run. destruct (record_memory _ _ _ _) as [registry [s|]]; same_slots w S Hi.
Qed.

Lemma obtained_runs i want got w :
  RunsSound w -> RunsSound (obtained i want got w).
Proof.
  intros R. unfold obtained.
  destruct want, got; (apply (goto_runs_same w); try done; by apply runs_kept_same).
Qed.

Lemma start_registry finished now id r registry :
  exists st, (start finished here now id r registry).1 = insert_session id st registry
    /\ (if (start finished here now id r registry).2 then ss_running st = Some r
        else forall q, ss_running st = Some q -> exists s, get id registry = Some s /\ ss_running s = Some q).
Proof.
  unfold start, get. destruct (bt_get id (rg_sessions registry)) as [s|] eqn:E.
  - destruct (ss_running s) as [h|] eqn:Eh; [destruct (finished h)|]; eexists; (split; [done|]); try done.
    intros q Hq. by exists s.
  - eexists. by split.
Qed.

(** A handler that goes on, the registry as it was. *)
Ltac same_runs w R :=
  apply (goto_runs_same w); try done; by apply runs_kept_same.

Lemma advance_runs ch i pc w w' :
  RunsSound w -> w_tasks w !! i = Some pc -> advance ch i pc w = Some w' -> RunsSound w'.
Proof.
  intros R Hi. assert (pc ∈ w_tasks w) as Hin by (by eapply list_elem_of_lookup_2).
  destruct pc; cbn [AcpServer.advance]; try (intros [= <-]; same_runs w R; fail).
  - intros [= <-]. unfold receive_new. repeat case_match; same_runs w R.
  - intros [= <-]. unfold receive_load. repeat case_match; same_runs w R.
  - intros [= <-]. unfold read_session. destruct (load_file _ _ _ _ _) as [st|] eqn:E; [|same_runs w R].
    apply (goto_runs w); try done; [by apply runs_kept_same|apply R|]. intros s [= <-].
    unfold load_file in E. repeat case_match; try done.
    destruct (parse_session date _) as [s0|] eqn:Ep; [|done]. injection E as <-. cbn.
    unfold parse_session in Ep. repeat case_match; try done. by injection Ep as <-.
  - intros [= <-]. apply (goto_runs w); try done; [by apply runs_kept_same|].
    apply (insert_running w _ id state R); [by apply runs_kept_same|done|].
    intros q Hq. by rewrite (rs_state w R _ state Hin) in Hq.
  - intros [= <-]. unfold receive_prompt. destruct (bool_decide _); same_runs w R.
  - intros [= <-]. unfold find_orchestrator. destruct (is_per_directory _), workspace as [path|]; try by apply obtained_runs.
    destruct (slot _ _ _ _) as [ws c]. same_runs w R.
  - unfold build_orchestrator. destruct (w_cells w !! cell); [intros [= <-]; by apply obtained_runs|].
    destruct (ch_built ch) as [o|err]; [|intros [= <-]; by apply obtained_runs].
    destruct (w_orchs w !! o); [done|]. intros [= <-]. apply obtained_runs.
    destruct R. by split.
  - intros [= <-]. apply (goto_runs w); try done; [by apply runs_kept_same| |by intros s [= <-]].
    intros id s r. unfold get. cbn. rewrite persist_sessions. apply R.
  - intros [= <-]. apply (goto_runs w); try done; [by apply runs_kept_same|].
    apply (insert_running w _ id state R); [by apply runs_kept_same|done|].
    intros q Hq. by rewrite (rs_state w R _ state Hin) in Hq.
  - unfold spawn_run. destruct (w_runs w !! ch_run ch) eqn:E; [done|]. intros [= <-].
    apply (goto_runs_same w); try done.
    + intros id' q (rn&Hr&Hs). exists rn. cbn. rewrite lookup_insert_ne by congruence. done.
    + intros id' o' q [= -> -> ->]. eexists. cbn. rewrite lookup_insert_eq. done.
  - intros [= <-]. unfold start_run. pose proof (start_registry (finished w) (ch_now ch) id r (w_registry w)) as (st&Est&Hst).
    assert (run_of w id r) as Hr by (by eapply (rs_task w R)).
    destruct (start _ _ _ _ _ _) as [registry started]. cbn in Est, Hst. subst registry. destruct started.
    + apply (goto_runs w); try done; [by apply runs_kept_same| |].
      * apply (insert_running w _ id st R); [by apply runs_kept_same|done|]. intros q Hq. rewrite Hst in Hq. injection Hq as <-. exact Hr.
      * by intros ? ? ? [= <- <- <-].
    + assert (runs_kept w (mark r (fun rn => set_pump (stop_pump (rn_pump rn)) (abort_run rn)) w)) as Hk
        by apply mark_kept, tame_refuse.
      apply (goto_runs w); try done.
      apply (insert_running w _ id st R); [exact Hk|done|]. intros q Hq.
      destruct (Hst q Hq) as (s&Hs&Hsq). by apply Hk, (rs_running w R id s).
  - unfold await_run. destruct (w_runs w !! r) as [rn|]; [|done]. destruct (rn_end rn); [|done].
    intros [= <-]. apply (goto_runs_same w); try done; [by apply runs_kept_same|].
    intros ? ? ? [= <- <- <-]. by eapply (rs_task w R).
  - intros [= <-]. unfold finish_run.
    assert (run_of w id r) as Hr by (by eapply (rs_task w R)).
    assert (forall w1, w_registry w1 = finish id (w_registry w) -> runs_kept w w1 ->
      forall id' s q, get id' (w_registry w1) = Some s -> ss_running s = Some q -> run_of w1 id' q) as Hreg.
    { intros w1 E Hk id' s q. rewrite E. unfold get, finish. cbn. rewrite bt_get_alter.
      case_bool_decide as Eid; [|intros Hg Hq; by apply Hk, (rs_running w R id' s)].
      destruct (bt_get id' _); cbn; [|done]. by intros [= <-]. }
    destruct outcome as [outcome|].
    + apply (goto_runs w); try done; [by apply runs_kept_same|apply Hreg; [done|by apply runs_kept_same]|].
      by intros ? ? ? [= <- <- <-].
    + assert (runs_kept w (mark r (fun rn => set_pump (stop_pump (rn_pump rn)) rn) w)) as Hk
        by apply mark_kept, tame_pump.
      apply (goto_runs w); try done. by apply Hreg.
  - unfold drain. destruct (w_runs w !! r) as [rn|]; [|done]. destruct (_ && _); [done|].
    intros [= <-]. same_runs w R.
  - intros [= <-]. unfold record_run, record_memory. destruct (bt_get id _) as [s|] eqn:E; [|same_runs w R].
    apply (goto_runs w); try done; [by apply runs_kept_same|].
    eapply (insert_running w _ id _ R); [by apply runs_kept_same|done|].
    intros q Hq. cbn in Hq. by apply (rs_running w R id s).
  - intros [= <-]. apply (goto_runs w); try done; [by apply runs_kept_same|].
    intros id' s r. unfold get. cbn. rewrite persist_sessions. apply R.
Qed.

Lemma run_step_slots w r f : SlotsSound w -> tame f -> SlotsSound (mark r f w).
Proof.
  intros S Hf. apply (slots_frame w); try done; [by left|]. by apply mark_placed.
Qed.

Lemma run_step_runs w r f : RunsSound w -> tame f -> RunsSound (mark r f w).
Proof.
  intros R Hf. pose proof (mark_kept r f w Hf) as Hk. split.
  - intros pc id o q Hin E. by apply Hk, (rs_task w R pc id o q).
  - intros id s q Hg Hq. by apply Hk, (rs_running w R id s q).
  - apply R.
Qed.

Definition Sound (w : World) : Prop := SlotsSound w /\ RunsSound w.

Lemma mark_sound w r f : Sound w -> tame f -> Sound (mark r f w).
Proof. intros [S R] Hf. split; [by apply run_step_slots|by apply run_step_runs]. Qed.

Lemma step_sound w w' : step w w' -> Sound w -> Sound w'.
Proof.
  intros Hstep HS. destruct Hstep as [w pc Hreq|w w' ch i pc Hi Ha|w id|w r rn outcome Hr Hl|w r rn Hr Hl Ha|w r rn received Hr].
  - destruct HS as [S R]. split.
    + apply (slots_frame w); try done; [|exact (runs_placed w S)].
      intros x [Hx| ->%list_elem_of_singleton]%elem_of_app; [by left|right]. by destruct pc.
    + split; [|apply R|].
      * intros x id o r [Hx| ->%list_elem_of_singleton]%elem_of_app; [by eapply (rs_task w R)|by destruct pc].
      * intros x s [Hx| ->%list_elem_of_singleton]%elem_of_app; [by eapply (rs_state w R)|by destruct pc].
  - destruct HS as [S R]. split; [by eapply advance_slots|by eapply advance_runs].
  - unfold cancel_prompt. destruct (AcpSessions.cancel _ _ _); [|done]. apply mark_sound; auto with acp.
  - apply mark_sound; auto with acp.
  - apply mark_sound; auto with acp.
  - unfold pump_run. destruct (pump_one _ _) as [p updates].
    destruct (mark_sound w r (set_pump p) HS (tame_pump (fun _ => p))) as [S R]. split.
    + apply (slots_frame (mark r (set_pump p) w)); try done; [by left|exact (runs_placed _ S)].
    + destruct R. by split.
Qed.

(** A server as it starts, on a registry that holds no session yet. *)
Definition starting (ws : Workspaces) (registry : SessionRegistry) : Prop :=
  ((exists dir o, ws = fixed dir o) \/ (exists dir o c, ws = per_directory canonicalize dir o c))
  /\ rg_sessions registry = [].

Lemma starting_sound ws registry : starting ws registry -> Sound (serve_workspaces ws registry).
Proof.
  intros [Hws Hr]. split.
  - destruct Hws as [(dir&o&->)|(dir&o&c&->)].
    + split; cbn; try done; try (intros; set_solver).
      * constructor. * constructor.
      * intros o' [(pc&Hin&_)|(r&rn&Hrn&_)]; [cbn in Hin; set_solver|done].
      * by rewrite lookup_insert_eq.
    + split; cbn; try done; try (intros; set_solver).
      * apply NoDup_singleton. * apply NoDup_singleton.
      * intros c' o'. rewrite lookup_insert_Some, lookup_empty. intros [[<- <-]|[_ ?]]; [|done]. split; [lia|]. by rewrite lookup_insert_eq.
      * intros s o' ->%list_elem_of_singleton. cbn. rewrite lookup_insert_eq. intros [= <-].
        eexists. rewrite lookup_insert_eq. done.
      * intros o' [(pc&Hin&_)|(r&rn&Hrn&_)]; [cbn in Hin; set_solver|done].
      * by rewrite lookup_insert_eq.
      * eexists. split; [left|]. cbn. rewrite lookup_insert_eq. done.
  - split; cbn; try (intros; set_solver). intros id s r. unfold get. by rewrite Hr.
Qed.

Lemma reachable_sound ws registry w :
  starting ws registry -> rtc step (serve_workspaces ws registry) w -> Sound w.
Proof.
  intros Hs H. apply starting_sound in Hs. induction H as [|x y z Hxy _ IH]; [done|]. apply IH. by eapply step_sound.
Qed.

(** What a prompt is handed is built for the directory it asked for. *)
Lemma build_matches ch i id goal path cell w w' o :
  Sound w -> w_tasks w !! i = Some (AtBuild (WPrompt id goal) path cell) ->
  build_orchestrator ch i (WPrompt id goal) path cell w = Some w' ->
  w_tasks w' !! i = Some (AtRun id goal o) ->
  exists p, w_orchs w' !! o = Some p /\ components p = components path.
Proof.
  intros [S _] Hi. assert (AtBuild (WPrompt id goal) path cell ∈ w_tasks w) as Hin by (by eapply list_elem_of_lookup_2).
  pose proof (lookup_lt_Some _ _ _ Hi) as Hlt.
  destruct (so_building w S _ _ _ Hin) as (s&Hs&<-&Hk). unfold build_orchestrator.
  destruct (w_cells w !! sl_cell s) as [o'|] eqn:Ec.
  - intros [= <-]. cbn [obtained goto on_tasks w_tasks w_orchs fill]. rewrite list_lookup_insert_eq by done. intros [= ->].
    destruct (so_slots w S s o Hs Ec) as (p&Hp&Hkp). exists p. split; [done|congruence].
  - destruct (ch_built ch) as [o'|err].
    + destruct (w_orchs w !! o'); [done|]. intros [= <-]. cbn [obtained goto on_tasks w_tasks w_orchs fill]. rewrite list_lookup_insert_eq by done.
      intros [= ->]. exists path. by rewrite lookup_insert_eq.
    + intros [= <-]. cbn [obtained goto on_tasks w_tasks w_orchs fill]. by rewrite list_lookup_insert_eq.
Qed.

(** C15: Whatever requests, handlers, runs, cancellations and pumps interleave,
    all who work in one directory at a time (handlers and runs that go on, even
    aborted ones) hold the same orchestrator, which is the one the next request
    for that directory is given, and a prompt is given one built for the
    directory of its session; on one orchestrator everyone holds it; and the run
    a session is recorded to have running, which a cancellation aborts, is a run
    of that session. *)
Theorem one_orchestrator ws registry w :
  starting ws registry -> rtc step (serve_workspaces ws registry) w ->
  (forall o o' p p', held w o -> held w o' -> w_orchs w !! o = Some p -> w_orchs w !! o' = Some p' ->
     components p = components p' -> o = o')
  /\ (forall o, held w o -> exists p, w_orchs w !! o = Some p
        /\ if is_per_directory (w_workspaces w)
           then w_cells w !! (slot (idle w) (w_next_cell w) p (w_workspaces w)).2 = Some o
           else o = ws_default (w_workspaces w))
  /\ (forall ch i id goal path cell w' o, w_tasks w !! i = Some (AtBuild (WPrompt id goal) path cell) ->
        advance ch i (AtBuild (WPrompt id goal) path cell) w = Some w' -> w_tasks w' !! i = Some (AtRun id goal o) ->
        exists p, w_orchs w' !! o = Some p /\ components p = components path)
  /\ (forall id s r, get id (w_registry w) = Some s -> ss_running s = Some r ->
        exists rn, w_runs w !! r = Some rn /\ rn_session rn = id).
Proof.
  intros Hs H. destruct (reachable_sound ws registry w Hs H) as [S R]. split_and!.
  - intros o o' p p' Ho Ho'. apply (placed_unique w); [done|by apply S..].
  - intros o Ho. destruct (so_held w S o Ho) as (p&Hp&Hat). exists p. split; [done|]. unfold is_per_directory.
    pose proof (so_seeded w S) as Hseed. destruct (ws_build (w_workspaces w)).
    + assert (exists s, s ∈ slots_of w /\ w_cells w !! sl_cell s = Some o) as (s&Hin&Hc).
      { destruct Hat as [->|?]; [|done]. destruct Hseed as (s&?&_&?). by exists s. }
      destruct (so_slots w S s o Hin Hc) as (q&Hq&Hk). simplify_eq.
      rewrite (slot_found _ _ _ _ s); [done|apply S|done|congruence].
    + destruct Hat as [|(s&Hin&_)]; [done|]. rewrite Hseed in Hin. set_solver.
  - intros ch i id goal path cell w' o Hi Ha. by apply (build_matches ch i id goal path cell w).
  - apply R.
Qed.

(** In every reachable world, asking for a directory drops no slot but those
    nobody builds or works in, never the default one, none while there are fewer
    than eight, and of those that may go the ones used longest ago; and unless
    everything else must stay at most eight are left. *)
Theorem eviction_exact ws registry w path :
  starting ws registry -> rtc step (serve_workspaces ws registry) w ->
  let w' := (slot (idle w) (w_next_cell w) path (w_workspaces w)).1 in
  let free := may_go (idle w) (ws_default_path (w_workspaces w)) in
  (forall s, s ∈ slots_of w -> slot_key s <> components path -> s ∉ ws_slots w' ->
     slot_key s <> components (ws_default_path (w_workspaces w))
     /\ (forall want p, AtBuild want p (sl_cell s) ∉ w_tasks w)
     /\ (exists o, w_cells w !! sl_cell s = Some o /\ ~ held w o)
     /\ (MAX_WORKSPACES <= length (slots_of w))%nat /\ (MAX_WORKSPACES <= length (ws_slots w'))%nat
     /\ forall t, t ∈ ws_slots w' -> free t = true -> sl_last_used s <= sl_last_used t)
  /\ (components path ∉ map slot_key (slots_of w) ->
        (length (ws_slots w') <= MAX_WORKSPACES)%nat \/ Forall (fun s => free s = false) (ws_slots w')).
Proof.
  intros Hs H. destruct (reachable_sound ws registry w Hs H) as [S _]. cbn zeta.
  pose proof (slot_spec (idle w) (w_next_cell w) path (w_workspaces w) (so_keys w S) (idle_fresh w S)) as Hspec.
  destruct (slot (idle w) (w_next_cell w) path (w_workspaces w)) as [w' cell]. cbn [fst].
  destruct Hspec as (_&_&_&Hmax&Hmin&Hgone). split; [|done].
  intros s Hin Hne Hn. destruct (Hgone s Hin Hne Hn) as (Hfree&Hlen&Hold).
  apply andb_true_iff in Hfree as [Hd Hi]. apply idle_true in Hi as (Hb&o&Ho&_&Hh).
  split_and!; try done.
  - intros Ek. by rewrite (proj2 (path_eqb_true _ _) Ek) in Hd.
  - intros want p Hp. by apply (Hb _ Hp).
  - by exists o.
  - destruct (Nat.le_gt_cases MAX_WORKSPACES (length (slots_of w))) as [|Hlt]; [done|]. exfalso. by apply Hn, Hmin.
Qed.

(** ** Handlers come to an answer *)

(** How many more of its own steps a handler may take. *)
Definition rank (pc : Pc) : nat :=
  match pc with
  | AtLoad _ _ => 12 | AtRead _ _ => 11 | AtPrompt _ _ => 11 | AtInsert _ _ _ => 10 | AtDir _ _ => 10
  | AtNew _ => 10 | AtOrch _ _ => 9 | AtBuild _ _ _ => 8 | AtRun _ _ _ => 7 | AtStart _ _ _ _ => 6
  | AtWait _ _ _ _ => 5 | AtFinish _ _ _ _ _ => 4 | AtDrain _ _ _ _ _ => 3 | AtRecord _ _ _ _ _ => 2
  | AtCreate _ => 2 | AtCreated _ _ => 1 | AtPersist _ _ _ _ => 1 | AtInitialize _ => 1 | Answered _ => 0
  end.

(** A step of one handler: it comes nearer to its answer, the others stay. *)
Definition lowers (i : nat) (pc : Pc) (w w' : World) : Prop :=
  exists pc', w_tasks w' = <[i := pc']> (w_tasks w) /\ (rank pc' < rank pc)%nat.

Lemma goto_lowers i pc pc' w w1 :
  w_tasks w1 = w_tasks w -> (rank pc' < rank pc)%nat -> lowers i pc w (goto i pc' w1).
Proof. intros E Hr. exists pc'. cbn. by rewrite E. Qed.

Lemma obtained_lowers i pc want got w w1 :
  w_tasks w1 = w_tasks w -> (8 <= rank pc)%nat -> lowers i pc w (obtained i want got w1).
Proof. intros E Hr. unfold obtained. destruct want, got; (apply goto_lowers; [done|cbn; lia]). Qed.

Lemma advance_lowers ch i pc w w' : advance ch i pc w = Some w' -> lowers i pc w w'.
Proof.
  destruct pc; cbn [AcpServer.advance]; try (intros [= <-]; apply goto_lowers; [done|cbn; lia]; fail).
  - intros [= <-]. unfold receive_new. repeat case_match; apply goto_lowers; (done || (cbn; lia)).
  - intros [= <-]. unfold receive_load. repeat case_match; apply goto_lowers; (done || (cbn; lia)).
  - intros [= <-]. unfold read_session. repeat case_match; apply goto_lowers; (done || (cbn; lia)).
  - intros [= <-]. unfold receive_prompt. repeat case_match; apply goto_lowers; (done || (cbn; lia)).
  - intros [= <-]. unfold find_orchestrator.
    destruct (is_per_directory _), workspace; try (apply obtained_lowers; [done|cbn; lia]).
    destruct (slot _ _ _ _). apply goto_lowers; [done|cbn; lia].
  - unfold build_orchestrator. repeat case_match; try done; intros [= <-]; apply obtained_lowers; (done || (cbn; lia)).
  - unfold spawn_run. case_match; [done|]. intros [= <-]. apply goto_lowers; [done|cbn; lia].
  - intros [= <-]. unfold start_run. destruct (start _ _ _ _ _ _) as [registry []]; apply goto_lowers; (done || (cbn; lia)).
  - unfold await_run. repeat case_match; try done. intros [= <-]. apply goto_lowers; [done|cbn; lia].
  - intros [= <-]. unfold finish_run. destruct outcome; apply goto_lowers; (done || (cbn; lia)).
  - unfold drain. repeat case_match; try done; intros [= <-]; apply goto_lowers; (done || (cbn; lia)).
  - intros [= <-]. unfold record_run. destruct (record_memory _ _ _ _) as [registry [s|]]; apply goto_lowers; (done || (cbn; lia)).
  - done.
Qed.

(** Waiting for a run that goes on. *)
Definition waits (w : World) (pc : Pc) : Prop :=
  exists id goal o r rn, pc = AtWait id goal o r /\ w_runs w !! r = Some rn /\ live rn = true.

Lemma advance_enabled w i pc :
  Sound w -> pc ∈ w_tasks w -> (forall a, pc <> Answered a) -> waits w pc \/ exists ch w', advance ch i pc w = Some w'.
Proof.
  intros [S R] Hin Ha.
  set (ch := {| ch_id := ""; ch_now := ""; ch_faults := no_faults; ch_built := Err (EOther "");
                ch_run := fresh (dom (w_runs w)); ch_drained := false |}).
  assert (w_runs w !! ch_run ch = None) as Hfresh by (apply not_elem_of_dom, is_fresh).
  destruct pc; cbn [AcpServer.advance]; try (right; by exists ch; eauto).
  - right. exists ch. unfold build_orchestrator. destruct (w_cells w !! cell); [by eauto|]. cbn. by eauto.
  - right. exists ch. unfold spawn_run. rewrite Hfresh. by eauto.
  - destruct (rs_task w R _ _ _ _ Hin eq_refl) as (rn&Hr&_). unfold await_run. destruct (rn_end rn) as [e|] eqn:E.
    + right. exists ch. rewrite Hr, E. by eauto.
    + left. do 5 eexists. split; [done|]. split; [done|]. unfold live. by rewrite E.
  - destruct (rs_task w R _ _ _ _ Hin eq_refl) as (rn&Hr&_). right. exists ch. unfold drain. rewrite Hr. cbn. by eauto.
  - by destruct (Ha a).
Qed.

Lemma answer_reachable n w i pc :
  Sound w -> w_tasks w !! i = Some pc -> (rank pc <= n)%nat ->
  exists w' a, rtc step w w' /\ w_tasks w' !! i = Some (Answered a).
Proof.
  revert w pc. induction n as [|n IH]; intros w pc HS Hi Hn.
  { destruct pc; cbn in Hn; try lia. by exists w, a. }
  assert (pc ∈ w_tasks w) as Hin by (by eapply list_elem_of_lookup_2).
  assert (forall w1, rtc step w w1 -> Sound w1 -> w_tasks w1 !! i = Some pc ->
    (exists ch w', advance ch i pc w1 = Some w') ->
    exists w' a, rtc step w w' /\ w_tasks w' !! i = Some (Answered a)) as Hgo.
  { intros w1 Hw1 HS1 Hi1 (ch&w'&Hadv). pose proof (advance_lowers _ _ _ _ _ Hadv) as (pc'&Ht&Hr).
    assert (step w1 w') as Hst by (by eapply step_handler).
    destruct (IH w' pc') as (w2&a&Hw2&Hans); [by eapply step_sound|..].
    { rewrite Ht. apply list_lookup_insert_eq. by eapply lookup_lt_Some. } { lia. }
    exists w2, a. split; [|done]. etransitivity; [exact Hw1|]. by eapply rtc_l. }
  assert ((exists a, pc = Answered a) \/ forall a, pc <> Answered a) as [[a ->]|Hna] by (destruct pc; eauto).
  { by exists w, a. }
  destruct (advance_enabled w i pc HS Hin Hna) as [(id&goal&o&r&rn&->&Hr&Hl)|Hen].
  - set (w1 := mark r (end_run (Some (Err (EOther "")))) w).
    assert (step w w1) as Hst by (by eapply step_end).
    apply (Hgo w1); [by apply rtc_once|by eapply step_sound|done|].
    destruct (advance_enabled w1 i (AtWait id goal o r)) as [(id'&goal'&o'&r'&rn'&E&Hr'&Hl')|?]; try done.
    { by eapply step_sound. }
    injection E as <- <- <- <-. cbn in Hr'. rewrite lookup_alter_eq, Hr in Hr'. cbn in Hr'. by injection Hr' as <-.
  - by apply (Hgo w).
Qed.

(** C16: Every step of a handler brings it nearer to its answer, of which it is at
    most twelve of its own steps away, and leaves the other handlers where they
    are; a handler that has not answered can take one, unless it waits for a run
    that goes on; and from every reachable world every handler can come to its
    answer: none is ever stuck. *)
Theorem handlers_answered ws registry w i pc :
  starting ws registry -> rtc step (serve_workspaces ws registry) w -> w_tasks w !! i = Some pc ->
  (rank pc <= 12)%nat
  /\ (forall ch w', advance ch i pc w = Some w' ->
        exists pc', w_tasks w' = <[i := pc']> (w_tasks w) /\ (rank pc' < rank pc)%nat)
  /\ ((forall a, pc <> Answered a) -> ~ waits w pc -> exists ch w', advance ch i pc w = Some w')
  /\ exists w' a, rtc step w w' /\ w_tasks w' !! i = Some (Answered a).
Proof.
  intros Hs H Hi. pose proof (reachable_sound ws registry w Hs H) as HS. split_and!.
  - destruct pc; cbn; lia.
  - intros ch w'. apply advance_lowers.
  - intros Ha Hw. destruct (advance_enabled w i pc HS) as [?|?]; try done. by eapply list_elem_of_lookup_2.
  - by eapply answer_reachable.
Qed.

(** A handler that clears the running prompt of its session after its own
    run ended clears whatever is recorded there: if the next prompt has already
    been started, its run goes on unrecorded, a cancellation finds nothing to
    abort, and a third prompt may start beside it. *)
Theorem late_finish_unlists w i id goal o r outcome s r2 rn2 :
  w_tasks w !! i = Some (AtFinish id goal o r outcome) ->
  get id (w_registry w) = Some s -> ss_running s = Some r2 -> r2 <> r ->
  w_runs w !! r2 = Some rn2 -> live rn2 = true ->
  exists w', step w w' /\ w_runs w' !! r2 = Some rn2
    /\ (exists s', get id (w_registry w') = Some s' /\ ss_running s' = None)
    /\ cancel_prompt id w' = w'
    /\ forall now r3, (start (finished w') here now id r3 (w_registry w')).2 = true.
Proof.
  intros Hi Hg Hs Hne Hr Hl. set (w' := finish_run i id goal o r outcome w).
  assert (get id (w_registry w') = Some (with_running None s)) as Hg'.
  { subst w'. unfold finish_run. destruct outcome; unfold get, finish; cbn;
      rewrite bt_get_alter, bool_decide_eq_true_2 by done; unfold get in Hg; by rewrite Hg. }
  exists w'. split_and!.
  - apply (step_handler _ _ _ _ _ _ w w' {| ch_id := ""; ch_now := ""; ch_faults := no_faults;
      ch_built := Err (EOther ""); ch_run := O; ch_drained := false |} i _ Hi). done.
  - subst w'. unfold finish_run. destruct outcome; cbn; [done|]. by rewrite lookup_alter_ne.
  - by exists (with_running None s).
  - unfold cancel_prompt, AcpSessions.cancel. unfold get in Hg'. by rewrite Hg'.
  - intros now r3. unfold start. unfold get in Hg'. by rewrite Hg'.
Qed.

End Steps.

(** ** What a client is shown *)

(** What a pump sends and keeps of all it receives. *)
Fixpoint pump_all (received : list (option Event)) (p : Pump) : Pump * list SessionUpdate :=
  match received with
  | [] => (p, [])
  | r :: rest => let '(p, sent) := pump_one r p in
                 let '(p, more) := pump_all rest p in (p, (sent ++ more)%list)
  end.

Definition completes (e : Event) : bool := match ev_kind e with SessionCompleted _ => true | _ => false end.
Definition output_of (e : Event) : string := match ev_kind e with AgentOutputReceived chunk => chunk | _ => "" end.

(** The events of one run up to its end, or to the first failed receive. *)
Fixpoint own_events (run : SessionId) (received : list (option Event)) : list Event :=
  match received with
  | [] | None :: _ => []
  | Some e :: rest =>
      if bool_decide (ev_session_id e = run) then e :: (if completes e then [] else own_events run rest)
      else own_events run rest
  end.

Lemma pump_over received p : pm_over p = true -> pump_all received p = (p, []).
Proof. intros H. induction received as [|r rest IH]; [done|]. cbn. unfold pump_one. rewrite H. by rewrite IH. Qed.

(** A client is sent what its own run says, each event as its line and in
    order, up to the end of the run or the first receive that fails, and
    nothing of other runs; the transcript is the output among it. *)
Theorem pump_forwards run received :
  let '(p, sent) := pump_all received {| pm_run_id := run; pm_transcript := ""; pm_over := false |} in
  sent = omap event_to_session_update (own_events run received)
  /\ pm_transcript p = str_join "" (map output_of (own_events run received)).
Proof.
  assert (forall t, let '(p, sent) := pump_all received {| pm_run_id := run; pm_transcript := t; pm_over := false |} in
    sent = omap event_to_session_update (own_events run received)
    /\ pm_transcript p = t +:+ str_join "" (map output_of (own_events run received))) as H; [|apply H].
  induction received as [|[e|] rest IH]; intros t; cbn [pump_all own_events].
  - cbn. by rewrite str_app_nil_r.
  - unfold pump_one. cbn [pm_over pm_run_id pm_transcript]. case_bool_decide as E; cbn [negb].
    + set (t' := match ev_kind e with AgentOutputReceived chunk => t +:+ chunk | _ => t end).
      assert (t' = t +:+ output_of e) as Et.
      { unfold t', output_of. destruct (ev_kind e); try done; by rewrite str_app_nil_r. }
      fold (completes e). destruct (completes e).
      * rewrite pump_over by done. cbn [omap map]. rewrite app_nil_r. split.
        -- cbn. by destruct (event_to_session_update e).
        -- exact Et.
      * specialize (IH t'). destruct (pump_all rest _) as [p more]. destruct IH as [-> ->]. split.
        -- cbn. by destruct (event_to_session_update e).
        -- rewrite Et, str_app_assoc. f_equal. cbn [map]. destruct (own_events run rest); cbn; [by rewrite str_app_nil_r|done].
    + specialize (IH t). destruct (pump_all rest _) as [p more]. exact IH.
  - unfold pump_one. cbn [pm_over pm_run_id pm_transcript]. rewrite pump_over by done. cbn. by rewrite str_app_nil_r.
Qed.
