(* ===== verification/AcpDemo.v ===== *)
(** * CUMA as an ACP agent: concrete runs

    The theorems applied to small conversations, and what the code does with
    directories whose orchestrator cannot be built, with a session that is
    loaded while it is open, and with a prompt that comes too soon. *)

From S2P Require Export AcpFacts.
From stdpp Require Import gmap.
Open Scope string_scope.
Open Scope Z_scope.

(** ** A text for sessions that reads back *)

Fixpoint enc (s : string) : string :=
  match s with EmptyString => "." | String c s' => String "x" (String c (enc s')) end.

Fixpoint dec (s : string) : option (string * string) :=
  match s with
  | String "." r => Some ("", r)
  | String _ (String c r) => match dec r with Some (t, r') => Some (String c t, r') | None => None end
  | _ => None
  end.

Fixpoint dec_all (fuel : nat) (s : string) : list string :=
  match fuel with
  | O => []
  | S fuel' => match dec s with Some (t, r) => t :: dec_all fuel' r | None => [] end
  end.

Lemma dec_enc s r : dec (enc s +:+ r) = Some (s, r).
Proof. induction s as [|c s IH]; [done|]. change (enc (String c s) +:+ r) with (String "x" (String c (enc s +:+ r))). cbn. by rewrite IH. Qed.

Lemma dec_all_enc l fuel : (length l <= fuel)%nat -> dec_all fuel (str_join "" (map enc l)) = l.
Proof.
  revert fuel. induction l as [|s l IH]; intros [|fuel] H; cbn in H; try lia; [done..|].
  assert (str_join "" (map enc (s :: l)) = enc s +:+ str_join "" (map enc l)) as ->.
  { destruct l; [|done]. cbn. by rewrite str_app_nil_r. }
  cbn [dec_all]. rewrite dec_enc. f_equal. apply IH. lia.
Qed.

Definition turn_strings (t : Value) : list string :=
  match t with JObject [(_, JString p); (_, JString r)] => [p; r] | _ => [] end.

Definition demo_strings (v : Value) : list string :=
  match v with
  | JObject [(_, JString w); (_, JArray ts); (_, JString c)] => w :: c :: concat (map turn_strings ts)
  | _ => []
  end.

Fixpoint demo_turns (l : list string) : list Value :=
  match l with
  | p :: r :: l' => JObject [("prompt", JString p); ("response", JString r)] :: demo_turns l'
  | _ => []
  end.

Definition demo_print (v : Value) : string := str_join "" (map enc (demo_strings v)).
Definition demo_parse (s : string) : option Value :=
  match dec_all (String.length s) s with
  | w :: c :: l => Some (JObject [("workspace", JString w); ("turns", JArray (demo_turns l)); ("created_at", JString c)])
  | _ => None
  end.

Lemma length_join_enc l : (length l <= String.length (str_join "" (map enc l)))%nat.
Proof.
  induction l as [|s l IH]; [done|].
  assert (str_join "" (map enc (s :: l)) = enc s +:+ str_join "" (map enc l)) as ->.
  { destruct l; [|done]. cbn. by rewrite str_app_nil_r. }
  rewrite length_append. destruct s; cbn; lia.
Qed.

Lemma demo_turns_strings ts : demo_turns (concat (map turn_strings (map turn_json ts))) = map turn_json ts.
Proof. induction ts as [|[p r] ts IH]; [done|]. cbn. by rewrite IH. Qed.

Lemma demo_reads_back s v : session_json s = Ok v -> demo_parse (demo_print v) = Some v.
Proof.
  unfold session_json. destruct (utf8_valid _); [|done]. intros [= <-]. unfold demo_parse, demo_print.
  rewrite dec_all_enc by apply length_join_enc. cbn [demo_strings]. by rewrite demo_turns_strings.
Qed.

(** ** Sessions *)

Definition demo_directory : SessionRegistry := persistent "/s" ∅.
Definition no_rename : WriteFaults := {| wf_mkdir := false; wf_write := None; wf_rename := true |}.

Lemma session_paths_safe_witness :
  path_for "cuma-1" demo_directory = Some "/s/cuma-1.json" /\ path_for "cuma-2/../x" demo_directory = None
  /\ exists d, rg_directory demo_directory = Some d /\ components "/s/cuma-1.json" = (components d ++ [Normal "cuma-1.json"])%list.
Proof.
  split; [by vm_compute|]. split; [by vm_compute|].
  destruct (session_paths_safe "cuma-1" "cuma-2" demo_directory "/s/cuma-1.json" "/s/cuma-2.json") as (d&Hd&Hc&_);
    [vm_compute; reflexivity|vm_compute; reflexivity|].
  exists d. by split.
Defined.

Definition demo_turn (id prompt response : string) (f : WriteFaults) : Recorded :=
  {| rc_id := id; rc_prompt := prompt; rc_response := response; rc_faults := f |}.

(** Three turns of which the last could not be written. *)
Definition demo_recorded : list Recorded :=
  [demo_turn "cuma-7" "a" "b" no_faults; demo_turn "cuma-8" "x" "y" no_faults; demo_turn "cuma-7" "c" "d" no_faults;
   demo_turn "cuma-7" "e" "f" no_rename].

Lemma restart_replays_witness :
  let r1 := (create demo_print "session_7" "now" no_faults "/w" demo_directory).1 in
  let r := fold_left (apply_recorded demo_print) demo_recorded r1 in
  (load demo_parse Some "cuma-7" "/w2" (persistent "/s" (rg_files r))).2
  = Some (stored_session "/w2" "now" [{| tn_prompt := "a"; tn_response := "b" |}; {| tn_prompt := "c"; tn_response := "d" |}]).
Proof.
  cbn zeta. set (r1 := (create demo_print "session_7" "now" no_faults "/w" demo_directory).1).
  destruct (restart_replays demo_print demo_parse Some demo_reads_back "session_7" "now" no_faults "/w" demo_directory r1
              "cuma-7" "/s/cuma-7.json" demo_recorded "/w2") as [_ H];
    [reflexivity|vm_compute; reflexivity|vm_compute; reflexivity|vm_compute; reflexivity|vm_compute; reflexivity|].
  rewrite (H "/s" eq_refl). vm_compute. reflexivity.
Defined.

(** A session that is open keeps its directory when it is loaded for another. *)
Example load_keeps_workspace :
  let r := (create demo_print "session_7" "now" no_faults "/w" demo_directory).1 in
  workspace_of "cuma-7" (load demo_parse Some "cuma-7" "/elsewhere" r).1 = Some "/w".
Proof. by vm_compute. Qed.

(** ** Worlds *)

(** What happens next. *)
Inductive Act : Type :=
  | Ask (pc : Pc)
  | Go (i : nat) (ch : Choice)
  | Ends (r : RunId) (outcome : Result SessionResult)
  | Cancels (id : string).

Definition demo_canonicalize (p : PathBuf) : result PathBuf string := Ok p.
Definition demo_is_dir (p : PathBuf) : bool := true.
Definition demo_advance := advance demo_print demo_parse Some demo_canonicalize demo_is_dir "/here".
Definition demo_step := step demo_print demo_parse Some demo_canonicalize demo_is_dir "/here".

Definition act_one (a : Act) (w : World) : option World :=
  match a with
  | Ask pc => if is_request pc then Some (on_tasks (fun l => (l ++ [pc])%list) w) else None
  | Go i ch => match w_tasks w !! i with Some pc => demo_advance ch i pc w | None => None end
  | Ends r outcome =>
      match w_runs w !! r with
      | Some rn => if live rn then Some (mark r (end_run (Some outcome)) w) else None
      | None => None
      end
  | Cancels id => Some (cancel_prompt id w)
  end.

Fixpoint act_all (l : list Act) (w : World) : option World :=
  match l with [] => Some w | a :: l' => match act_one a w with Some w' => act_all l' w' | None => None end end.

Lemma act_all_steps l w w' : act_all l w = Some w' -> rtc demo_step w w'.
Proof.
  revert w. induction l as [|a l IH]; intros w; cbn [act_all]; [by intros [= ->]|].
  destruct (act_one a w) as [w1|] eqn:E; [|done]. intros H%IH. eapply rtc_l; [|exact H].
  destruct a; cbn [act_one] in E.
  - destruct (is_request pc) eqn:Er; [|done]. injection E as <-. by constructor.
  - destruct (w_tasks w !! i) as [pc|] eqn:Ei; [|done]. by apply (step_handler _ _ _ _ _ _ w w1 ch i pc).
  - destruct (w_runs w !! r) as [rn|] eqn:Er; [|done]. destruct (live rn) eqn:El; [|done]. injection E as <-.
    by apply (step_end _ _ _ _ _ _ w r rn).
  - injection E as <-. constructor.
Qed.

Definition demo_ws : Workspaces := per_directory demo_canonicalize "/here" 0%nat 0%nat.
Definition demo_start : World := serve_workspaces demo_ws registry_new.

Lemma demo_starting : starting demo_canonicalize demo_ws registry_new.
Proof. split; [right; by exists "/here", 0%nat, 0%nat|done]. Qed.

(** Choices: a new id, an orchestrator that was built, one that could not be,
    a number for a run. *)
Definition built_as (o : OrchId) : Choice :=
  {| ch_id := "session_1"; ch_now := "now"; ch_faults := no_faults; ch_built := Ok o; ch_run := 0%nat; ch_drained := true |}.
Definition not_built : Choice :=
  {| ch_id := "session_1"; ch_now := "now"; ch_faults := no_faults; ch_built := Err (EOther "broken"); ch_run := 0%nat;
     ch_drained := false |}.
Definition runs_as (r : RunId) : Choice :=
  {| ch_id := "run"; ch_now := "now"; ch_faults := no_faults; ch_built := Err (EOther ""); ch_run := r; ch_drained := false |}.

(** A session in [/w], and one prompt in it up to its run. *)
Definition new_session : list Act := [Ask (AtNew "/w"); Go 0 not_built; Go 0 not_built; Go 0 (built_as 5%nat); Go 0 (built_as 5%nat); Go 0 not_built].
Definition prompt_runs (i : nat) (r : RunId) : list Act :=
  [Ask (AtPrompt "cuma-1" [CText "fix it"]); Go i not_built; Go i not_built; Go i not_built; Go i not_built; Go i (runs_as r); Go i not_built].

Definition two_prompts : list Act :=
  (new_session ++ prompt_runs 1%nat 1%nat ++ [Ends 1%nat (Err (EOther "failed")); Go 1%nat not_built] ++ prompt_runs 2%nat 2%nat)%list.

Definition demo_after (l : list Act) : World := match act_all l demo_start with Some w => w | None => demo_start end.

Lemma demo_after_steps l : match act_all l demo_start with Some _ => true | None => false end = true ->
  rtc demo_step demo_start (demo_after l).
Proof. unfold demo_after. destruct (act_all l demo_start) as [w|] eqn:E; [|done]. intros _. by eapply act_all_steps. Qed.

Lemma one_orchestrator_witness :
  held (demo_after two_prompts) 5%nat /\ w_orchs (demo_after two_prompts) !! 5%nat = Some "/w"
  /\ forall o', held (demo_after two_prompts) o' -> w_orchs (demo_after two_prompts) !! o' = Some "/w" -> o' = 5%nat.
Proof.
  assert (held (demo_after two_prompts) 5%nat) as Hh.
  { right. exists 2%nat. eexists. split; vm_compute; reflexivity. }
  assert (w_orchs (demo_after two_prompts) !! 5%nat = Some "/w") as Hp by (vm_compute; reflexivity).
  split; [exact Hh|]. split; [exact Hp|]. intros o' Ho Hp'.
  destruct (one_orchestrator demo_print demo_parse Some demo_canonicalize demo_is_dir "/here" demo_ws registry_new
              (demo_after two_prompts) demo_starting) as [H _].
  - apply (demo_after_steps two_prompts). vm_compute. reflexivity.
  - by apply (H o' 5%nat "/w" "/w").
Defined.

Lemma handlers_answered_witness :
  exists w' a, rtc demo_step (demo_after two_prompts) w' /\ w_tasks w' !! 2%nat = Some (Answered a).
Proof.
  destruct (handlers_answered demo_print demo_parse Some demo_canonicalize demo_is_dir "/here" demo_ws registry_new
              (demo_after two_prompts) 2%nat (AtWait "cuma-1" "fix it" 5%nat 2%nat) demo_starting) as (_&_&_&H).
  - apply (demo_after_steps two_prompts). vm_compute. reflexivity.
  - vm_compute. reflexivity.
  - exact H.
Defined.

(** The first prompt's run has ended, its handler has not cleared it yet, and
    the second prompt has been started. *)
Lemma late_finish_unlists_witness :
  rtc demo_step demo_start (demo_after two_prompts)
  /\ exists w', demo_step (demo_after two_prompts) w' /\ cancel_prompt "cuma-1" w' = w'
       /\ (exists rn, w_runs w' !! 2%nat = Some rn /\ live rn = true)
       /\ forall now r3, (start (finished w') "/here" now "cuma-1" r3 (w_registry w')).2 = true.
Proof.
  split; [apply (demo_after_steps two_prompts); vm_compute; reflexivity|].
  edestruct (late_finish_unlists demo_print demo_parse Some demo_canonicalize demo_is_dir "/here"
    (demo_after two_prompts) 1%nat "cuma-1" "fix it" 5%nat 1%nat (Some (Err (EOther "failed")))) as (w'&Hst&Hr&_&Hc&Hs).
  - vm_compute. reflexivity.
  - vm_compute. reflexivity.
  - vm_compute. reflexivity.
  - discriminate.
  - vm_compute. reflexivity.
  - vm_compute. reflexivity.
  - exists w'. split; [exact Hst|]. split; [exact Hc|]. split; [|exact Hs]. eexists. split; [exact Hr|vm_compute; reflexivity].
Defined.

(** One session per directory, the orchestrator built as the number says. *)
Definition opens (i : nat) (dir : PathBuf) : list Act :=
  [Ask (AtNew dir); Go i not_built; Go i not_built; Go i (built_as (S i)); Go i (built_as 0%nat); Go i not_built].

Definition seven : list Act :=
  concat (imap opens ["/1"; "/2"; "/3"; "/4"; "/5"; "/6"; "/7"]).

Lemma eviction_exact_witness :
  map sl_path (slots_of (demo_after seven)) = ["/here"; "/1"; "/2"; "/3"; "/4"; "/5"; "/6"; "/7"]
  /\ map sl_path (ws_slots (slot (idle (demo_after seven)) (w_next_cell (demo_after seven)) "/8" (w_workspaces (demo_after seven))).1)
     = ["/here"; "/2"; "/3"; "/4"; "/5"; "/6"; "/7"; "/8"]
  /\ exists o, w_cells (demo_after seven) !! 1%nat = Some o /\ ~ held (demo_after seven) o.
Proof.
  split; [vm_compute; reflexivity|]. split; [vm_compute; reflexivity|].
  destruct (eviction_exact demo_print demo_parse Some demo_canonicalize demo_is_dir "/here" demo_ws registry_new
              (demo_after seven) "/8" demo_starting) as [H _].
  { apply (demo_after_steps seven). vm_compute. reflexivity. }
  destruct (H {| sl_path := "/1"; sl_cell := 1%nat; sl_last_used := 1 |}) as (_&_&Ho&_).
  - apply (bool_decide_eq_true_1 (_ ∈ slots_of (demo_after seven))). vm_compute. reflexivity.
  - vm_compute. discriminate.
  - apply (bool_decide_eq_false_1 (_ ∈ ws_slots _)). vm_compute. reflexivity.
  - exact Ho.
Defined.

(** A directory whose orchestrator cannot be built keeps its slot for ever: with
    eight of them, every directory that can be served loses its orchestrator as
    soon as another one is asked for. *)
Definition fails (i : nat) (dir : PathBuf) : list Act :=
  [Ask (AtNew dir); Go i not_built; Go i not_built; Go i not_built].

Definition eight_broken : list Act :=
  concat (imap fails ["/1"; "/2"; "/3"; "/4"; "/5"; "/6"; "/7"; "/8"]).

Example failed_builds_fill :
  let after l := slots_of (demo_after (eight_broken ++ l)) in
  map sl_path (after (opens 8 "/w")) = ["/here"; "/1"; "/2"; "/3"; "/4"; "/5"; "/6"; "/7"; "/8"; "/w"]
  /\ map sl_path (after (opens 8 "/w" ++ opens 9 "/v"))%list = ["/here"; "/1"; "/2"; "/3"; "/4"; "/5"; "/6"; "/7"; "/8"; "/v"].
Proof. split; vm_compute; reflexivity. Qed.

(** A prompt is refused only after its run was started: it may have ended by
    then. *)
Example refused_run_ran :
  let w := demo_after (new_session ++ prompt_runs 1%nat 1%nat
             ++ [Ask (AtPrompt "cuma-1" [CText "again"]); Go 2 not_built; Go 2 not_built; Go 2 not_built; Go 2 not_built;
                 Go 2 (runs_as 2%nat); Ends 2%nat (Err (EOther "worked on it")); Go 2 not_built])%list in
  w_tasks w !! 2%nat = Some (Answered (AStop Refusal))
  /\ rn_end <$> w_runs w !! 2%nat = Some (Some (Some (Err (EOther "worked on it")))).
Proof. split; vm_compute; reflexivity. Qed.

(** A receive that lags ends the pump: what the run says afterwards is not sent. *)
Example lag_silences :
  let e k := Some {| ev_at := 0; ev_session_id := "run"; ev_task_id := None; ev_attempt_id := None; ev_kind := k |} in
  (pump_all [e (AgentOutputReceived "a"); None; e (AgentOutputReceived "b"); e (SessionCompleted true)]
     {| pm_run_id := "run"; pm_transcript := ""; pm_over := false |}).2 = [AgentMessageChunk "a"].
Proof. vm_compute. reflexivity. Qed.
