(* ===== verification/Tui.v ===== *)
(** * The terminal interface ([cuma-tui/src/state.rs], [app.rs])

    The view model, which only events change; the keymap; and the event loop
    as one step for each thing it can be woken by.  What is drawn is not
    modelled, only whether drawing it succeeds. *)

From S2P Require Export Event BTree.
From stdpp Require Import pretty.
Open Scope string_scope.
Open Scope Z_scope.

(** ** Screens *)

Inductive Screen : Type :=
  | SChat | STasks | SAgents | SModels | SSkills | SMemory | SUsage | SLogs | SConfiguration.

#[export] Instance Screen_eq_dec : EqDecision Screen.
Proof. solve_decision. Defined.

Definition ALL_SCREENS : list Screen :=
  [SChat; STasks; SAgents; SModels; SSkills; SMemory; SUsage; SLogs; SConfiguration].

Definition screen_title (s : Screen) : string :=
  match s with
  | SChat => "Chat" | STasks => "Tasks" | SAgents => "Agents" | SModels => "Models"
  | SSkills => "Skills" | SMemory => "Memory" | SUsage => "Usage" | SLogs => "Logs"
  | SConfiguration => "Config"
  end.

(** [iter().position(..).unwrap_or(0)] *)
Fixpoint position (s : Screen) (l : list Screen) : option nat :=
  match l with
  | [] => None
  | x :: l' => if bool_decide (x = s) then Some O else option_map S (position s l')
  end.

Definition screen_index (s : Screen) : nat := match position s ALL_SCREENS with Some i => i | None => O end.

Definition screen_next (s : Screen) : Screen :=
  nth ((screen_index s + 1) mod length ALL_SCREENS)%nat ALL_SCREENS SChat.

Definition screen_previous (s : Screen) : Screen :=
  nth ((screen_index s + length ALL_SCREENS - 1) mod length ALL_SCREENS)%nat ALL_SCREENS SChat.

(** ** The view model *)

Record TaskRow := {
  tr_id : TaskId;
  tr_description : string;
  tr_status : TaskStatus;
  tr_agent : option AgentId;
  tr_model : option ModelId;
}.

Definition marker (r : TaskRow) : string :=
  match tr_status r with
  | Completed => "✓" | Running => "●" | Failed => "✗" | Skipped => "⊘" | TCancelled => "⊗"
  | Pending | Ready => "○"
  end.

Record SkillRow := {
  sw_id : string;
  sw_name : string;
  sw_trust : string;
  sw_enabled : bool;
  sw_capabilities : list string;
  sw_registry : string;
}.

Record MemoryRow := { mw_id : string; mw_kind : string; mw_content : string }.

Inductive InputMode : Type := Navigating | Editing.

#[export] Instance InputMode_eq_dec : EqDecision InputMode.
Proof. solve_decision. Defined.

Definition MAX_LOG_LINES : nat := 500.

(** [AppState], its fields in three groups: what events tell, what keys change,
    and what is read from elsewhere. *)
Record SessionView := {
  v_goal : string;
  v_running : bool;
  v_tasks : list TaskRow;
  v_current_agent : option AgentId;
  v_current_model : option ModelId;
  v_last_explanation : option string;
  v_transcript : string;
  v_tokens : TokenUsage;
  v_spent_usd : f64;
  v_unpriced_attempts : Z;
  v_agent_health : btree AgentId string;
  v_logs : list string;
  v_finished : option bool;
}.

Record Inputs := {
  i_screen : Screen;
  i_mode : InputMode;
  i_input : string;
  i_scroll : Z;
  i_should_quit : bool;
  i_notice : option string;
}.

Record Browse := {
  b_agents : list AgentDescriptor;
  b_skills : option (list SkillRow);
  b_skill_cursor : nat;
  b_memory_attached : bool;
  b_memory_query : option string;
  b_memories : list MemoryRow;
  b_memory_searching : bool;
}.

Record AppState := { a_view : SessionView; a_in : Inputs; a_browse : Browse }.

Definition app_new : AppState :=
  {| a_view := {| v_goal := ""; v_running := false; v_tasks := []; v_current_agent := None;
                  v_current_model := None; v_last_explanation := None; v_transcript := "";
                  v_tokens := tokens_estimated 0 0; v_spent_usd := f64_zero; v_unpriced_attempts := 0;
                  v_agent_health := []; v_logs := []; v_finished := None |};
     a_in := {| i_screen := SChat; i_mode := Navigating; i_input := ""; i_scroll := 0;
                i_should_quit := false; i_notice := None |};
     a_browse := {| b_agents := []; b_skills := None; b_skill_cursor := O; b_memory_attached := false;
                    b_memory_query := None; b_memories := []; b_memory_searching := false |} |}.

Definition on_view (f : SessionView -> SessionView) (s : AppState) : AppState :=
  {| a_view := f (a_view s); a_in := a_in s; a_browse := a_browse s |}.
Definition on_inputs (f : Inputs -> Inputs) (s : AppState) : AppState :=
  {| a_view := a_view s; a_in := f (a_in s); a_browse := a_browse s |}.
Definition on_browse (f : Browse -> Browse) (s : AppState) : AppState :=
  {| a_view := a_view s; a_in := a_in s; a_browse := f (a_browse s) |}.

(** ** Folding events *)

Definition set_tasks (l : list TaskRow) (v : SessionView) : SessionView :=
  {| v_goal := v_goal v; v_running := v_running v; v_tasks := l; v_current_agent := v_current_agent v;
     v_current_model := v_current_model v; v_last_explanation := v_last_explanation v;
     v_transcript := v_transcript v; v_tokens := v_tokens v; v_spent_usd := v_spent_usd v;
     v_unpriced_attempts := v_unpriced_attempts v; v_agent_health := v_agent_health v;
     v_logs := v_logs v; v_finished := v_finished v |}.

(** [log]: the oldest lines go first. *)
Definition log_line (line : string) (v : SessionView) : SessionView :=
  let logs := (v_logs v ++ [line])%list in
  {| v_goal := v_goal v; v_running := v_running v; v_tasks := v_tasks v; v_current_agent := v_current_agent v;
     v_current_model := v_current_model v; v_last_explanation := v_last_explanation v;
     v_transcript := v_transcript v; v_tokens := v_tokens v; v_spent_usd := v_spent_usd v;
     v_unpriced_attempts := v_unpriced_attempts v; v_agent_health := v_agent_health v;
     v_logs := drop (length logs - MAX_LOG_LINES) logs; v_finished := v_finished v |}.

Fixpoint update_first (id : TaskId) (f : TaskRow -> TaskRow) (l : list TaskRow) : list TaskRow :=
  match l with
  | [] => []
  | t :: l' => if bool_decide (tr_id t = id) then f t :: l' else t :: update_first id f l'
  end.

Definition update_task (id : option TaskId) (f : TaskRow -> TaskRow) (v : SessionView) : SessionView :=
  match id with None => v | Some id => set_tasks (update_first id f (v_tasks v)) v end.

Definition row_status (s : TaskStatus) (t : TaskRow) : TaskRow :=
  {| tr_id := tr_id t; tr_description := tr_description t; tr_status := s; tr_agent := tr_agent t;
     tr_model := tr_model t |}.
Definition row_target (agent : AgentId) (model : option ModelId) (t : TaskRow) : TaskRow :=
  {| tr_id := tr_id t; tr_description := tr_description t; tr_status := tr_status t;
     tr_agent := Some agent; tr_model := model |}.

Definition add_tokens (tokens : TokenUsage) (v : SessionView) : SessionView :=
  {| v_goal := v_goal v; v_running := v_running v; v_tasks := v_tasks v; v_current_agent := v_current_agent v;
     v_current_model := v_current_model v; v_last_explanation := v_last_explanation v;
     v_transcript := v_transcript v; v_tokens := tokens_merge (v_tokens v) tokens; v_spent_usd := v_spent_usd v;
     v_unpriced_attempts := v_unpriced_attempts v; v_agent_health := v_agent_health v;
     v_logs := v_logs v; v_finished := v_finished v |}.

Definition view_started (goal : string) (v : SessionView) : SessionView :=
  log_line ("session started: " +:+ goal)
  {| v_goal := goal; v_running := true; v_tasks := []; v_current_agent := v_current_agent v;
     v_current_model := v_current_model v; v_last_explanation := v_last_explanation v;
     v_transcript := ""; v_tokens := v_tokens v; v_spent_usd := v_spent_usd v;
     v_unpriced_attempts := v_unpriced_attempts v; v_agent_health := v_agent_health v;
     v_logs := v_logs v; v_finished := None |}.

Definition view_completed (success : bool) (v : SessionView) : SessionView :=
  log_line ("session " +:+ if success then "completed" else "failed")
  {| v_goal := v_goal v; v_running := false; v_tasks := v_tasks v; v_current_agent := None;
     v_current_model := None; v_last_explanation := v_last_explanation v;
     v_transcript := v_transcript v; v_tokens := v_tokens v; v_spent_usd := v_spent_usd v;
     v_unpriced_attempts := v_unpriced_attempts v; v_agent_health := v_agent_health v;
     v_logs := v_logs v; v_finished := Some success |}.

Definition view_selected (id : option TaskId) (agent : AgentId) (model : option ModelId) (score : f64)
    (explanation : string) (v : SessionView) : SessionView :=
  log_line ("routed to " +:+ agent +:+ " (score " +:+ fmt_fixed 3 score +:+ ")")
    (update_task id (row_target agent model)
      {| v_goal := v_goal v; v_running := v_running v; v_tasks := v_tasks v; v_current_agent := Some agent;
         v_current_model := model; v_last_explanation := Some explanation;
         v_transcript := v_transcript v; v_tokens := v_tokens v; v_spent_usd := v_spent_usd v;
         v_unpriced_attempts := v_unpriced_attempts v; v_agent_health := v_agent_health v;
         v_logs := v_logs v; v_finished := v_finished v |}).

Definition view_output (chunk : string) (v : SessionView) : SessionView :=
  {| v_goal := v_goal v; v_running := v_running v; v_tasks := v_tasks v; v_current_agent := v_current_agent v;
     v_current_model := v_current_model v; v_last_explanation := v_last_explanation v;
     v_transcript := v_transcript v +:+ chunk; v_tokens := v_tokens v; v_spent_usd := v_spent_usd v;
     v_unpriced_attempts := v_unpriced_attempts v; v_agent_health := v_agent_health v;
     v_logs := v_logs v; v_finished := v_finished v |}.

Definition view_breaker (agent : AgentId) (state : string) (v : SessionView) : SessionView :=
  log_line (agent +:+ " circuit breaker is " +:+ state)
  {| v_goal := v_goal v; v_running := v_running v; v_tasks := v_tasks v; v_current_agent := v_current_agent v;
     v_current_model := v_current_model v; v_last_explanation := v_last_explanation v;
     v_transcript := v_transcript v; v_tokens := v_tokens v; v_spent_usd := v_spent_usd v;
     v_unpriced_attempts := v_unpriced_attempts v; v_agent_health := bt_insert agent state (v_agent_health v);
     v_logs := v_logs v; v_finished := v_finished v |}.

Definition view_cost (cost : option f64) (v : SessionView) : SessionView :=
  {| v_goal := v_goal v; v_running := v_running v; v_tasks := v_tasks v; v_current_agent := v_current_agent v;
     v_current_model := v_current_model v; v_last_explanation := v_last_explanation v;
     v_transcript := v_transcript v; v_tokens := v_tokens v;
     v_spent_usd := match cost with Some c => f64_add (v_spent_usd v) c | None => v_spent_usd v end;
     v_unpriced_attempts := match cost with Some _ => v_unpriced_attempts v | None => wrap32 (v_unpriced_attempts v + 1) end;
     v_agent_health := v_agent_health v; v_logs := v_logs v; v_finished := v_finished v |}.

Definition apply_view (e : Event) (v : SessionView) : SessionView :=
  let id := ev_task_id e in
  match ev_kind e with
  | SessionStarted goal => view_started goal v
  | SessionCompleted success => view_completed success v
  | TaskPlanned n => log_line ("planned " +:+ pretty n +:+ " tasks") v
  | TaskCreated description =>
      match id with
      | Some id =>
          set_tasks (v_tasks v ++ [{| tr_id := id; tr_description := description; tr_status := Pending;
                                      tr_agent := None; tr_model := None |}])%list v
      | None => v
      end
  | TaskStatusChanged status => update_task id (row_status status) v
  | TaskCompleted tokens => update_task id (row_status Completed) (add_tokens tokens v)
  | TaskFailed reason => log_line ("task failed: " +:+ reason) (update_task id (row_status Failed) v)
  | TaskSkipped blocked_by =>
      log_line ("task skipped, blocked by " +:+ blocked_by) (update_task id (row_status Skipped) v)
  | AgentSelected agent model score explanation => view_selected id agent model score explanation v
  | RoutingFailed reason => log_line ("routing failed: " +:+ reason) v
  | AgentStarted agent => log_line (agent +:+ " started") (update_task id (row_status Running) v)
  | AgentOutputReceived chunk => view_output chunk v
  | AgentFailed agent class message =>
      log_line (agent +:+ " failed (" +:+ class_debug class +:+ "): " +:+ message) v
  | RetryScheduled attempt delay_ms _ =>
      log_line ("retry " +:+ pretty attempt +:+ " scheduled in " +:+ pretty delay_ms +:+ "ms") v
  | FallbackSelected from _ reason => log_line ("falling back from " +:+ from +:+ ": " +:+ reason) v
  | CircuitBreakerChanged agent state => view_breaker agent state v
  | HandoffPerformed from to => log_line ("handed off from " +:+ from +:+ " to " +:+ to) v
  | SkillInstalled skill trust => log_line ("installed skill " +:+ skill +:+ " (" +:+ trust +:+ ")") v
  | SkillRejected skill reason => log_line ("refused skill " +:+ skill +:+ ": " +:+ reason) v
  | UsageRecorded tokens cost => view_cost cost (add_tokens tokens v)
  end.

Definition app_apply (e : Event) (s : AppState) : AppState := on_view (apply_view e) s.

Definition app_render_cost (s : AppState) : string :=
  let v := a_view s in
  if 0 <? v_unpriced_attempts v
  then "≥$" +:+ fmt_fixed 4 (v_spent_usd v) +:+ " (" +:+ pretty (v_unpriced_attempts v) +:+ " unpriced)"
  else "~$" +:+ fmt_fixed 4 (v_spent_usd v).

Definition completed_count (s : AppState) : nat :=
  length (List.filter (fun t => bool_decide (tr_status t = Completed)) (v_tasks (a_view s))).

(** ** What keys change *)

Definition U16_MAX : Z := 65535.

Definition set_inputs (screen : Screen) (mode : InputMode) (input : string) (scroll : Z) (i : Inputs) : Inputs :=
  {| i_screen := screen; i_mode := mode; i_input := input; i_scroll := scroll;
     i_should_quit := i_should_quit i; i_notice := i_notice i |}.

Definition set_notice (n : option string) (i : Inputs) : Inputs :=
  {| i_screen := i_screen i; i_mode := i_mode i; i_input := i_input i; i_scroll := i_scroll i;
     i_should_quit := i_should_quit i; i_notice := n |}.

Definition go_to (screen : Screen) : AppState -> AppState :=
  on_inputs (fun i => set_inputs screen (i_mode i) (i_input i) 0 i).
Definition next_screen (s : AppState) : AppState := go_to (screen_next (i_screen (a_in s))) s.
Definition previous_screen (s : AppState) : AppState := go_to (screen_previous (i_screen (a_in s))) s.

Definition scroll_to (f : Z -> Z) : AppState -> AppState :=
  on_inputs (fun i => set_inputs (i_screen i) (i_mode i) (i_input i) (f (i_scroll i)) i).
Definition scroll_down (lines : Z) : AppState -> AppState := scroll_to (fun y => Z.min U16_MAX (y + lines)).
Definition scroll_up (lines : Z) : AppState -> AppState := scroll_to (fun y => Z.max 0 (y - lines)).

Definition begin_editing (s : AppState) : AppState :=
  if v_running (a_view s) && negb (bool_decide (i_screen (a_in s) = SMemory))
  then on_inputs (set_notice (Some "a session is already running")) s
  else on_inputs (fun i => set_notice None (set_inputs (i_screen i) Editing (i_input i) (i_scroll i) i)) s.

Definition cancel_editing : AppState -> AppState :=
  on_inputs (fun i => set_inputs (i_screen i) Navigating "" (i_scroll i) i).

Definition submit (s : AppState) : AppState * option string :=
  let goal := trim (i_input (a_in s)) in
  let s := cancel_editing s in
  if bool_decide (goal = "") then (s, None) else (on_inputs (set_notice None) s, Some goal).

Definition push_char (c : Z) : AppState -> AppState :=
  on_inputs (fun i => set_inputs (i_screen i) (i_mode i) (i_input i +:+ of_chars [c]) (i_scroll i) i).
Definition pop_char : AppState -> AppState :=
  on_inputs (fun i => set_inputs (i_screen i) (i_mode i) (of_chars (removelast (chars (i_input i)))) (i_scroll i) i).

Definition app_quit : AppState -> AppState :=
  on_inputs (fun i => {| i_screen := i_screen i; i_mode := i_mode i; i_input := i_input i;
                         i_scroll := i_scroll i; i_should_quit := true; i_notice := i_notice i |}).

(** ** What is read from elsewhere *)

Definition set_cursor (skills : option (list SkillRow)) (cursor : nat) (b : Browse) : Browse :=
  {| b_agents := b_agents b; b_skills := skills; b_skill_cursor := cursor;
     b_memory_attached := b_memory_attached b; b_memory_query := b_memory_query b;
     b_memories := b_memories b; b_memory_searching := b_memory_searching b |}.

Definition set_memory (query : option string) (rows : list MemoryRow) (searching : bool) (b : Browse) : Browse :=
  {| b_agents := b_agents b; b_skills := b_skills b; b_skill_cursor := b_skill_cursor b;
     b_memory_attached := b_memory_attached b; b_memory_query := query; b_memories := rows;
     b_memory_searching := searching |}.

Definition set_skills (rows : list SkillRow) : AppState -> AppState :=
  on_browse (fun b => set_cursor (Some rows) (Nat.min (b_skill_cursor b) (length rows - 1)) b).

Definition move_skill_cursor (delta : Z) : AppState -> AppState :=
  on_browse (fun b =>
    let len := match b_skills b with Some l => length l | None => O end in
    set_cursor (b_skills b)
      (if Nat.eqb len 0 then O
       else Nat.min (Z.to_nat (Z.max 0 (Z.of_nat (b_skill_cursor b) + delta))) (len - 1)) b).

Definition selected_skill (s : AppState) : option SkillRow :=
  match b_skills (a_browse s) with Some l => nth_error l (b_skill_cursor (a_browse s)) | None => None end.

Definition set_memories (query : string) (rows : list MemoryRow) : AppState -> AppState :=
  on_browse (set_memory (Some query) rows false).

Definition searching (b : bool) : AppState -> AppState :=
  on_browse (fun br => set_memory (b_memory_query br) (b_memories br) b br).

Definition set_agents (agents : list AgentDescriptor) : AppState -> AppState :=
  on_browse (fun b => {| b_agents := agents; b_skills := b_skills b; b_skill_cursor := b_skill_cursor b;
     b_memory_attached := b_memory_attached b; b_memory_query := b_memory_query b;
     b_memories := b_memories b; b_memory_searching := b_memory_searching b |}).

Definition notice (text : string) : AppState -> AppState := on_inputs (set_notice (Some text)).

(** ** The keymap *)

Inductive KeyCode : Type :=
  | KChar (c : Z) | KEnter | KEsc | KBackspace | KTab | KBackTab | KLeft | KRight | KUp | KDown
  | KPageUp | KPageDown | KHome | KOther.

Record KeyEvent := { k_released : bool; k_control : bool; k_code : KeyCode }.

Inductive Action : Type :=
  | ANone
  | AQuit
  | ARedraw
  | ASubmit (goal : string)
  | ASearchMemory (query : string)
  | AToggleSkill (id : string) (enabled : bool).

Definition editing_key (code : KeyCode) (s : AppState) : AppState * Action :=
  match code with
  | KEnter =>
      match submit s with
      | (s, Some text) =>
          if bool_decide (i_screen (a_in s) = SMemory)
          then (searching true s, ASearchMemory text) else (s, ASubmit text)
      | (s, None) => (s, ARedraw)
      end
  | KEsc => (cancel_editing s, ARedraw)
  | KBackspace => (pop_char s, ARedraw)
  | KChar c => (push_char c s, ARedraw)
  | _ => (s, ANone)
  end.

(** ['q'], ['i'], ['/'], ['j'], ['k'], [' '], ['e'] *)
Definition is_key (c : Z) (code : KeyCode) : bool := match code with KChar d => d =? c | _ => false end.
Definition is_down (code : KeyCode) : bool := match code with KDown => true | _ => is_key 106 code end.
Definition is_up (code : KeyCode) : bool := match code with KUp => true | _ => is_key 107 code end.

Definition navigating_key (code : KeyCode) (s : AppState) : AppState * Action :=
  let on_skills := bool_decide (i_screen (a_in s) = SSkills) in
  if match code with KEsc => true | _ => is_key 113 code end then (app_quit s, AQuit)
  else if is_key 105 code || is_key 47 code then (begin_editing s, ARedraw)
  else if match code with KTab | KRight => true | _ => false end then (next_screen s, ARedraw)
  else if match code with KBackTab | KLeft => true | _ => false end then (previous_screen s, ARedraw)
  else if is_down code && on_skills then (move_skill_cursor 1 s, ARedraw)
  else if is_up code && on_skills then (move_skill_cursor (-1) s, ARedraw)
  else if (is_key 32 code || is_key 101 code) && on_skills then
    (s, match selected_skill s with Some r => AToggleSkill (sw_id r) (negb (sw_enabled r)) | None => ANone end)
  else if is_down code then (scroll_down 1 s, ARedraw)
  else if is_up code then (scroll_up 1 s, ARedraw)
  else
    match code with
    | KPageDown => (scroll_down 10 s, ARedraw)
    | KPageUp => (scroll_up 10 s, ARedraw)
    | KHome => (scroll_to (fun _ => 0) s, ARedraw)
    | KChar d =>
        if (49 <=? d) && (d <=? 57) then
          (match nth_error ALL_SCREENS (Z.to_nat (d - 49)) with Some screen => go_to screen s | None => s end, ARedraw)
        else (s, ANone)
    | _ => (s, ANone)
    end.

Definition handle_key (k : KeyEvent) (s : AppState) : AppState * Action :=
  if k_released k then (s, ANone)
  else if k_control k && is_key 99 (k_code k) then (app_quit s, AQuit)
  else
    match i_mode (a_in s) with
    | Editing => editing_key (k_code k) s
    | Navigating => navigating_key (k_code k) s
    end.

(** ** The event loop *)

(** [MEMORY_TIMEOUT] and [IDLE_REDRAW], in milliseconds. *)
Definition MEMORY_TIMEOUT_MS : Z := 15000.
Definition IDLE_REDRAW_MS : Z := 250.

Record Sources := { src_skills : bool; src_memory : bool }.

(** What wakes the loop, with what the code then reads. *)
Inductive Wake : Type :=
  | WKey (k : KeyEvent) (toggled : Result unit) (skills : Result (list SkillRow))
  | WResize
  | WTerminal
  | WEvent (e : Event) (agents : list AgentDescriptor)
  | WLagged (missed : Z)
  | WClosed
  | WSessionDone (outcome : result (Result string) string) (agents : list AgentDescriptor)
  | WRecallDone (found : result (string * Result (list MemoryRow)) string)
  | WIdle.

(** What the loop starts and stops; a task whose handle is dropped goes on,
    detached. *)
Inductive Effect : Type :=
  | StartSession (goal : string)
  | AbortSession
  | DetachSession
  | StartRecall (query : string)
  | AbortRecall
  | DetachRecall
  | SetSkill (id : string) (enabled : bool).

(** The loop, and what it returned once it has. *)
Record Loop := {
  l_state : AppState;
  l_session : bool;
  l_recall : bool;
  l_redraw : bool;
  l_ended : option (Result unit);
}.

Definition refresh_skills (sources : Sources) (skills : Result (list SkillRow)) (s : AppState) : AppState :=
  if src_skills sources then
    match skills with
    | Ok rows => set_skills rows s
    | Err err => notice ("cannot list skills: " +:+ error_display err) s
    end
  else s.

Definition loop_start (sources : Sources) (agents : list AgentDescriptor) (skills : Result (list SkillRow)) : Loop :=
  let s := set_agents agents app_new in
  let s := on_browse (fun b => {| b_agents := b_agents b; b_skills := b_skills b; b_skill_cursor := b_skill_cursor b;
             b_memory_attached := src_memory sources; b_memory_query := b_memory_query b;
             b_memories := b_memories b; b_memory_searching := b_memory_searching b |}) s in
  {| l_state := refresh_skills sources skills s; l_session := false; l_recall := false; l_redraw := true; l_ended := None |}.

Definition with_state (s : AppState) (l : Loop) : Loop :=
  {| l_state := s; l_session := l_session l; l_recall := l_recall l; l_redraw := l_redraw l; l_ended := l_ended l |}.
Definition with_redraw (b : bool) (l : Loop) : Loop :=
  {| l_state := l_state l; l_session := l_session l; l_recall := l_recall l; l_redraw := b; l_ended := l_ended l |}.
Definition with_session (b : bool) (l : Loop) : Loop :=
  {| l_state := l_state l; l_session := b; l_recall := l_recall l; l_redraw := l_redraw l; l_ended := l_ended l |}.
Definition with_recall (b : bool) (l : Loop) : Loop :=
  {| l_state := l_state l; l_session := l_session l; l_recall := b; l_redraw := l_redraw l; l_ended := l_ended l |}.

(** A change of the state that is to be drawn. *)
Definition show (s : AppState) (l : Loop) : Loop := with_redraw true (with_state s l).

Definition apply_and_refresh (e : Event) (agents : list AgentDescriptor) (s : AppState) : AppState :=
  let s := app_apply e s in
  match ev_kind e with CircuitBreakerChanged _ _ => set_agents agents s | _ => s end.

Definition when (b : bool) (e : Effect) : list Effect := if b then [e] else [].

(** After the loop, what still runs is aborted. *)
Definition leave (l : Loop) : Loop * list Effect :=
  ({| l_state := l_state l; l_session := false; l_recall := false; l_redraw := l_redraw l; l_ended := Some (Ok tt) |},
   (when (l_session l) AbortSession ++ when (l_recall l) AbortRecall)%list).

(** Drawing failed: the loop is left by [?], before what still runs is aborted. *)
Definition fail_draw (err : string) (l : Loop) : Loop * list Effect :=
  ({| l_state := l_state l; l_session := false; l_recall := false; l_redraw := l_redraw l;
      l_ended := Some (Err (EOther ("cannot draw: " +:+ err))) |},
   (when (l_recall l) DetachRecall ++ when (l_session l) DetachSession)%list).

Definition act (sources : Sources) (toggled : Result unit) (skills : Result (list SkillRow)) (a : Action)
    (l : Loop) : Loop * list Effect :=
  let s := l_state l in
  match a with
  | ANone => (l, [])
  | ARedraw => (with_redraw true l, [])
  | AQuit => leave l
  | ASubmit goal =>
      if l_session l then (show (notice "a session is already running" s) l, [])
      else (with_redraw true (with_session true l), [StartSession goal])
  | ASearchMemory query =>
      if src_memory sources then
        (with_redraw true (with_recall true l), (when (l_recall l) AbortRecall ++ [StartRecall query])%list)
      else (show (notice "no memory backend is configured" (searching false s)) l, [])
  | AToggleSkill id enabled =>
      if src_skills sources then
        let text := match toggled with
                    | Ok _ => (if enabled then "enabled" else "disabled") +:+ " " +:+ id
                    | Err err => error_display err
                    end in
        (show (refresh_skills sources skills (notice text s)) l, [SetSkill id enabled])
      else (with_redraw true l, [])
  end.

(** What is done about what the loop waited for; [None] when it cannot be woken
    that way. *)
Definition wake (sources : Sources) (w : Wake) (l : Loop) : option (Loop * list Effect) :=
  let s := l_state l in
  match w with
  | WKey k toggled skills =>
      let '(s, a) := handle_key k s in Some (act sources toggled skills a (with_state s l))
  | WResize | WIdle => Some (with_redraw true l, [])
  | WTerminal => Some (l, [])
  | WEvent e agents => Some (show (apply_and_refresh e agents s) l, [])
  | WLagged missed => Some (show (notice (pretty missed +:+ " events dropped while redrawing") s) l, [])
  | WClosed => Some (leave l)
  | WSessionDone outcome agents =>
      if l_session l then
        let text := match outcome with
                    | Ok (Ok summary) => summary
                    | Ok (Err err) => "session failed: " +:+ error_display err
                    | Err err => "session task panicked: " +:+ err
                    end in
        Some (with_session false (show (set_agents agents (notice text s)) l), [])
      else None
  | WRecallDone found =>
      if l_recall l then
        let s :=
          match found with
          | Ok (query, Ok rows) => set_memories query rows s
          | Ok (query, Err err) =>
              notice ("memory search failed: " +:+ error_display err) (set_memories query [] s)
          | Err err => notice ("memory search stopped: " +:+ err) (searching false s)
          end in
        Some (with_recall false (show s l), [])
      else None
  end.

(** The ways a turn of the loop can go: what is to be drawn cannot be, the user
    has quit, or something wakes the loop. *)
Inductive Turn : Type :=
  | TDrawFails (err : string)
  | TQuits
  | TWoken (w : Wake).

(** One turn of the loop; [None] when it cannot go that way. *)
Definition turn (sources : Sources) (t : Turn) (l : Loop) : option (Loop * list Effect) :=
  match l_ended l with
  | Some _ => None
  | None =>
      let quit := i_should_quit (a_in (l_state l)) in
      match t with
      | TDrawFails err => if l_redraw l then Some (fail_draw err l) else None
      | TQuits => if quit then Some (leave (with_redraw false l)) else None
      | TWoken w => if quit then None else wake sources w (with_redraw false l)
      end
  end.

(** A whole run of the interface. *)
Fixpoint turns (sources : Sources) (ts : list Turn) (l : Loop) : option (Loop * list Effect) :=
  match ts with
  | [] => Some (l, [])
  | t :: ts' =>
      match turn sources t l with
      | None => None
      | Some (l1, out1) =>
          match turns sources ts' l1 with Some (l2, out2) => Some (l2, (out1 ++ out2)%list) | None => None end
      end
  end.
