(* ===== verification/TuiFacts.v ===== *)
(** * The terminal interface: theorems

    What holds however the loop is woken, what the rows and the totals show of
    the events received, and how many sessions run. *)

From S2P Require Import Demo.
From S2P Require Export Tui.
From stdpp Require Import pretty.
Open Scope string_scope.
Open Scope Z_scope.

(** ** Screens *)

Lemma screen_round s : screen_next (screen_previous s) = s /\ screen_previous (screen_next s) = s.
Proof. by destruct s. Qed.

(** ** What every run of the loop keeps *)

Definition cursor_ok (b : Browse) : Prop :=
  match b_skills b with
  | Some ((_ :: _) as l) => (b_skill_cursor b < length l)%nat
  | _ => b_skill_cursor b = O
  end.

Record tidy (s : AppState) : Prop := {
  tidy_logs : (length (v_logs (a_view s)) <= MAX_LOG_LINES)%nat;
  tidy_scroll : 0 <= i_scroll (a_in s) <= U16_MAX;
  tidy_input : i_mode (a_in s) = Navigating -> i_input (a_in s) = "";
  tidy_cursor : cursor_ok (a_browse s);
}.

Lemma log_line_bounded line v : (length (v_logs (log_line line v)) <= MAX_LOG_LINES)%nat.
Proof. unfold log_line. cbn [v_logs]. rewrite length_drop. lia. Qed.

Lemma update_task_logs id f v : v_logs (update_task id f v) = v_logs v.
Proof. by destruct id. Qed.

Lemma apply_view_bounded e v : (length (v_logs v) <= MAX_LOG_LINES)%nat ->
  (length (v_logs (apply_view e v)) <= MAX_LOG_LINES)%nat.
Proof.
  intros H. unfold apply_view, view_started, view_completed, view_selected, view_breaker.
  destruct (ev_kind e); try apply log_line_bounded; rewrite ?update_task_logs; try exact H.
  by destruct (ev_task_id e).
Qed.

Lemma tidy_new : tidy app_new.
Proof. split; cbn; [unfold MAX_LOG_LINES; lia|unfold U16_MAX; lia|done|done]. Qed.

(** Operations on one group leave the others as they are. *)
Lemma tidy_view f s : (forall v, (length (v_logs v) <= MAX_LOG_LINES)%nat -> (length (v_logs (f v)) <= MAX_LOG_LINES)%nat) ->
  tidy s -> tidy (on_view f s).
Proof. intros Hf [H1 H2 H3 H4]. split; cbn; auto. Qed.

Lemma tidy_inputs f s :
  (forall i, 0 <= i_scroll i <= U16_MAX -> 0 <= i_scroll (f i) <= U16_MAX) ->
  (forall i, (i_mode i = Navigating -> i_input i = "") -> i_mode (f i) = Navigating -> i_input (f i) = "") ->
  tidy s -> tidy (on_inputs f s).
Proof. intros Hf Hg [H1 H2 H3 H4]. split; cbn; auto. Qed.

Lemma tidy_browse f s : (forall b, cursor_ok b -> cursor_ok (f b)) -> tidy s -> tidy (on_browse f s).
Proof. intros Hf [H1 H2 H3 H4]. split; cbn; auto. Qed.

Lemma tidy_apply e s : tidy s -> tidy (app_apply e s).
Proof. apply tidy_view. intros v. apply apply_view_bounded. Qed.

Lemma tidy_notice text s : tidy s -> tidy (notice text s).
Proof. by apply tidy_inputs. Qed.

Lemma tidy_go_to screen s : tidy s -> tidy (go_to screen s).
Proof. apply tidy_inputs; cbn; unfold U16_MAX; [lia|auto]. Qed.

Lemma tidy_scroll_to f s : (forall y, 0 <= y <= U16_MAX -> 0 <= f y <= U16_MAX) -> tidy s -> tidy (scroll_to f s).
Proof. intros Hf. apply tidy_inputs; cbn; auto. Qed.

Lemma tidy_cancel s : tidy s -> tidy (cancel_editing s).
Proof. apply tidy_inputs; cbn; auto. Qed.

Lemma tidy_quit s : tidy s -> tidy (app_quit s).
Proof. apply tidy_inputs; cbn; auto. Qed.

Lemma tidy_agents agents s : tidy s -> tidy (set_agents agents s).
Proof. by apply tidy_browse. Qed.

Lemma tidy_searching b s : tidy s -> tidy (searching b s).
Proof. by apply tidy_browse. Qed.

Lemma tidy_memories q rows s : tidy s -> tidy (set_memories q rows s).
Proof. by apply tidy_browse. Qed.

Lemma tidy_skills rows s : tidy s -> tidy (set_skills rows s).
Proof.
  apply tidy_browse. intros b _. unfold cursor_ok. cbn [set_cursor b_skills b_skill_cursor].
  destruct rows as [|r rows]; cbn [length]; lia.
Qed.

Lemma tidy_cursor_move d s : tidy s -> tidy (move_skill_cursor d s).
Proof.
  apply tidy_browse. intros b Hb. unfold cursor_ok in *. cbn. destruct (b_skills b) as [[|r l]|]; [done| |done].
  cbn [length Nat.eqb]. lia.
Qed.

Lemma tidy_begin s : tidy s -> tidy (begin_editing s).
Proof. intros H. unfold begin_editing. destruct (_ && _); [by apply tidy_notice|]. revert H. by apply tidy_inputs. Qed.

(** Typing keeps the state tidy while a goal is being edited. *)
Lemma tidy_typing f s : i_mode (a_in s) = Editing -> (forall i, i_mode (f i) = i_mode i /\ i_scroll (f i) = i_scroll i) ->
  tidy s -> tidy (on_inputs f s).
Proof.
  intros He Hf [H1 H2 H3 H4]. destruct (Hf (a_in s)) as [Em Es].
  split; cbn; rewrite ?Em, ?Es; try done. congruence.
Qed.

Lemma tidy_submit s : tidy s -> tidy (fst (submit s)).
Proof.
  intros H. unfold submit. apply tidy_cancel in H. case_bool_decide; [done|]. revert H. by apply tidy_inputs.
Qed.

Lemma tidy_key k s : tidy s -> tidy (fst (handle_key k s)).
Proof.
  intros H. unfold handle_key. destruct (k_released k); [done|].
  destruct (k_control k && _); [by apply tidy_quit|]. destruct (i_mode (a_in s)) eqn:Em.
  - unfold navigating_key.
    repeat (match goal with |- tidy (fst (if ?b then _ else _)) => destruct b end; cbn [fst];
      [by (apply tidy_quit || apply tidy_begin || apply tidy_go_to || apply tidy_cursor_move
           || (apply tidy_scroll_to; [unfold U16_MAX; lia|]) || idtac)|]).
    destruct (k_code k); cbn [fst]; try done;
      try (apply tidy_scroll_to; [unfold U16_MAX; lia|done]).
    destruct (_ && _); [|done]. cbn [fst]. case_match; [by apply tidy_go_to|done].
  - unfold editing_key. destruct (k_code k); cbn [fst]; try done; try by apply tidy_cancel.
    + by apply tidy_typing.
    + pose proof (tidy_submit s H) as Hs. destruct (submit s) as [s' [text|]]; [|exact Hs].
      cbn [fst] in *. case_bool_decide; [by apply tidy_searching|exact Hs].
    + by apply tidy_typing.
Qed.

Lemma tidy_refresh sources skills s : tidy s -> tidy (refresh_skills sources skills s).
Proof. unfold refresh_skills. repeat case_match; auto using tidy_skills, tidy_notice. Qed.

(** ** The loop *)

(** What was started and is over: aborted, detached, or done. *)
Definition count {A} (p : A -> bool) (l : list A) : nat := length (List.filter p l).

Lemma count_app {A} (p : A -> bool) a b : count p (a ++ b) = (count p a + count p b)%nat.
Proof. unfold count. by rewrite List.filter_app, length_app. Qed.

(** A kind of task: the effects that start one, abort it and detach it, the turn
    at which it is done, and whether one runs. *)
Record Kind := {
  kd_starts : Effect -> bool;
  kd_aborts : Effect -> bool;
  kd_detaches : Effect -> bool;
  kd_done : Turn -> bool;
  kd_runs : Loop -> bool;
}.

Definition sessions : Kind :=
  {| kd_starts e := match e with StartSession _ => true | _ => false end;
     kd_aborts e := match e with AbortSession => true | _ => false end;
     kd_detaches e := match e with DetachSession => true | _ => false end;
     kd_done t := match t with TWoken (WSessionDone _ _) => true | _ => false end;
     kd_runs := l_session |}.

Definition recalls : Kind :=
  {| kd_starts e := match e with StartRecall _ => true | _ => false end;
     kd_aborts e := match e with AbortRecall => true | _ => false end;
     kd_detaches e := match e with DetachRecall => true | _ => false end;
     kd_done t := match t with TWoken (WRecallDone _) => true | _ => false end;
     kd_runs := l_recall |}.

Definition running (k : Kind) (l : Loop) : nat := if kd_runs k l then 1%nat else 0%nat.
Definition over (k : Kind) (ts : list Turn) (out : list Effect) : nat :=
  (count (kd_aborts k) out + count (kd_detaches k) out + count (kd_done k) ts)%nat.

(** Tasks started are over or running, one at most. *)
Definition balanced (k : Kind) (ts : list Turn) (out : list Effect) (l l' : Loop) : Prop :=
  (count (kd_starts k) out + running k l = running k l' + over k ts out)%nat.

Definition detaches (e : Effect) : bool := kd_detaches sessions e || kd_detaches recalls e.

Record loop_ok (l : Loop) : Prop := {
  ok_tidy : tidy (l_state l);
  ok_closed : l_ended l <> None -> l_session l = false /\ l_recall l = false;
}.

(** What a turn keeps and counts: it detaches something only when it ends the
    loop in an error. *)
Definition turn_ok (t : Turn) (l l' : Loop) (out : list Effect) : Prop :=
  loop_ok l' /\ balanced sessions [t] out l l' /\ balanced recalls [t] out l l' /\
  match l_ended l' with Some (Err _) => True | _ => count detaches out = O end.

Ltac loop_fields :=
  cbn [act leave with_redraw with_session with_recall show with_state l_state l_session l_recall l_redraw l_ended].

Ltac counted := unfold balanced, over, running, count; cbn;
  repeat (match goal with |- context [if ?b then _ else _] => destruct b end; cbn); lia.

Lemma act_ok sources toggled skills a l l' out k r1 r2 :
  tidy (l_state l) -> l_ended l = None -> act sources toggled skills a l = (l', out) ->
  turn_ok (TWoken (WKey k r1 r2)) l l' out.
Proof.
  destruct l as [s se re rd en]. cbn [l_state l_ended]. intros Ht ->.
  assert (forall s', tidy s' -> forall b c d, loop_ok {| l_state := s'; l_session := b; l_recall := c; l_redraw := d; l_ended := None |})
    as Hok by (intros; split; [done|by cbn]).
  destruct a; loop_fields.
  - intros [= <- <-]. split; [by apply Hok|]. split_and!; counted.
  - intros [= <- <-]. split; [split; [done|intros _; by split]|]. destruct se, re; split_and!; done.
  - intros [= <- <-]. split; [by apply Hok|]. split_and!; counted.
  - destruct se; intros [= <- <-]; (split; [apply Hok; loop_fields; auto using tidy_notice|]); split_and!; counted.
  - destruct (src_memory sources); intros [= <- <-]; (split; [apply Hok; loop_fields; auto using tidy_notice, tidy_searching|]);
      destruct re; split_and!; counted.
  - destruct (src_skills sources); intros [= <- <-]; (split; [apply Hok; loop_fields; auto using tidy_notice, tidy_refresh|]);
      split_and!; counted.
Qed.

Lemma tidy_found found s :
  tidy s ->
  tidy (match found with
        | Ok (query, Ok rows) => set_memories query rows s
        | Ok (query, Err err) => notice ("memory search failed: " +:+ error_display err) (set_memories query [] s)
        | Err err => notice ("memory search stopped: " +:+ err) (searching false s)
        end).
Proof. intros H. repeat case_match; auto using tidy_memories, tidy_notice, tidy_searching. Qed.

Lemma wake_ok sources w l l' out :
  tidy (l_state l) -> l_ended l = None -> wake sources w l = Some (l', out) -> turn_ok (TWoken w) l l' out.
Proof.
  intros Ht He. destruct w; unfold wake.
  - pose proof (tidy_key k (l_state l) Ht) as Hk. destruct (handle_key k (l_state l)) as [s a]. cbn [fst] in Hk.
    intros [= E]. exact (act_ok sources _ _ a (with_state s l) l' out k toggled skills Hk He E).
  - intros [= <- <-]. destruct l as [s se re rd en]. cbn in *. subst en. split; [by split|]. split_and!; counted.
  - intros [= <- <-]. destruct l as [s se re rd en]. cbn in *. subst en. split; [by split|]. split_and!; counted.
  - intros [= <- <-]. destruct l as [s se re rd en]. cbn in *. subst en. split; [|split_and!; counted].
    split; [|done]. cbn. unfold apply_and_refresh. pose proof (tidy_apply e s Ht).
    by destruct (ev_kind e); try apply tidy_agents.
  - intros [= <- <-]. destruct l as [s se re rd en]. cbn in *. subst en. split; [|split_and!; counted].
    split; [by apply tidy_notice|done].
  - intros [= <- <-]. destruct l as [s se re rd en]. cbn in *. subst en.
    split; [split; [done|intros _; by split]|]. destruct se, re; split_and!; done.
  - destruct l as [s se re rd en]. cbn in *. subst en. destruct se; [|done]. intros [= <- <-].
    split; [|split_and!; counted]. split; [by apply tidy_agents, tidy_notice|done].
  - destruct l as [s se re rd en]. cbn in *. subst en. destruct re; [|done]. intros [= <- <-].
    split; [|split_and!; counted]. split; [by apply tidy_found|done].
  - intros [= <- <-]. destruct l as [s se re rd en]. cbn in *. subst en. split; [by split|]. split_and!; counted.
Qed.

Lemma turn_kept sources t l l' out : loop_ok l -> turn sources t l = Some (l', out) -> turn_ok t l l' out.
Proof.
  intros [Ht _]. unfold turn. destruct (l_ended l) eqn:He; [done|]. destruct t.
  - destruct (l_redraw l); [|done]. intros [= <- <-]. split; [split; [done|intros _; by split]|].
    destruct l as [s [] [] rd en]; split_and!; done.
  - destruct (i_should_quit _); [|done]. intros [= <- <-]. split; [split; [done|intros _; by split]|].
    destruct l as [s [] [] rd en]; split_and!; done.
  - destruct (i_should_quit _); [done|]. intros H%wake_ok; [|done|done]. by destruct l.
Qed.

Lemma balanced_app k t ts out1 out2 l l1 l2 :
  balanced k [t] out1 l l1 -> balanced k ts out2 l1 l2 -> balanced k (t :: ts) (out1 ++ out2) l l2.
Proof.
  unfold balanced, over. rewrite !count_app. change (t :: ts) with ([t] ++ ts)%list. rewrite (count_app _ [t] ts). lia.
Qed.

Lemma turns_kept sources ts l l' out : loop_ok l -> turns sources ts l = Some (l', out) ->
  loop_ok l' /\ balanced sessions ts out l l' /\ balanced recalls ts out l l' /\
  match l_ended l' with Some (Err _) => True | _ => count detaches out = O end.
Proof.
  revert l l' out. induction ts as [|t ts IH]; intros l l' out Hl; cbn [turns].
  { intros [= <- <-]. split; [done|]. split_and!; [unfold balanced; cbn; lia..|]. by repeat case_match. }
  destruct (turn sources t l) as [[l1 out1]|] eqn:E; [|done].
  destruct (turns sources ts l1) as [[l2 out2]|] eqn:E2; [|done]. intros [= <- <-].
  destruct (turn_kept sources t l l1 out1 Hl E) as (H1&S1&R1&D1).
  destruct (IH l1 l2 out2 H1 E2) as (H2&S2&R2&D2). split; [done|].
  split; [by eapply balanced_app|]. split; [by eapply balanced_app|].
  assert (l_ended l1 <> None -> l2 = l1 /\ out2 = []) as Hend.
  { intros Hne. destruct ts as [|t' ts]; cbn [turns] in E2; [by injection E2 as <- <-|].
    unfold turn in E2. by destruct (l_ended l1). }
  rewrite count_app. destruct (l_ended l1) as [[[]|e]|] eqn:E1.
  - destruct Hend as [-> ->]; [done|]. rewrite E1 in *. cbn. lia.
  - destruct Hend as [-> ->]; [done|]. by rewrite E1.
  - destruct (l_ended l2) as [[]|]; [|done|]; lia.
Qed.

(** Only leaving keys ask to quit, so a loop that goes on has not been asked. *)
Definition asked (s : AppState) : bool := i_should_quit (a_in s).

Lemma key_asks k s : snd (handle_key k s) <> AQuit -> asked (fst (handle_key k s)) = asked s.
Proof.
  unfold handle_key. destruct (k_released k); [done|]. destruct (k_control k && _); [done|].
  destruct (i_mode (a_in s)).
  - unfold navigating_key, begin_editing.
    repeat (match goal with |- context [if ?b then _ else _] => destruct b end; try done).
    destruct (k_code k); try done. destruct (_ && _); [|done]. by case_match.
  - unfold editing_key, submit. destruct (k_code k); try done.
    case_bool_decide; [done|]. by case_bool_decide.
Qed.

Lemma act_asks sources toggled skills a l l' out :
  act sources toggled skills a l = (l', out) -> l_ended l' = None -> a <> AQuit /\ asked (l_state l') = asked (l_state l).
Proof.
  unfold act, refresh_skills. destruct a; cbn; try (by intros [= <- <-]).
  - destruct (l_session l); by intros [= <- <-].
  - destruct (src_memory sources); by intros [= <- <-].
  - destruct (src_skills sources); [destruct skills|]; by intros [= <- <-].
Qed.

Lemma wake_asks sources w l l' out :
  wake sources w l = Some (l', out) -> l_ended l' = None -> asked (l_state l') = asked (l_state l).
Proof.
  unfold wake. destruct w; try (by intros [= <- <-]).
  - pose proof (key_asks k (l_state l)) as K. destruct (handle_key k (l_state l)) as [s a]. intros [= E] He.
    destruct (act_asks _ _ _ _ _ _ _ E He) as [Ha ->]. by apply K.
  - intros [= <- <-] _. unfold apply_and_refresh. by destruct (ev_kind e).
  - destruct (l_session l); [|done]. by intros [= <- <-].
  - destruct (l_recall l); [|done]. intros [= <- <-] _. by repeat case_match.
Qed.

Lemma turn_asks sources t l l' out :
  turn sources t l = Some (l', out) -> l_ended l' = None -> asked (l_state l') = false.
Proof.
  unfold turn. destruct (l_ended l); [done|]. destruct t.
  - destruct (l_redraw l); [|done]. by intros [= <- <-].
  - destruct (i_should_quit _); [|done]. by intros [= <- <-].
  - destruct (i_should_quit _) eqn:Eq; [done|]. intros H He. by rewrite (wake_asks _ _ _ _ _ H He).
Qed.

(** A loop that ends in an error ends at drawing. *)
Lemma turn_error sources t l l' out e :
  turn sources t l = Some (l', out) -> l_ended l' = Some (Err e) ->
  exists err, t = TDrawFails err /\ e = EOther ("cannot draw: " +:+ err).
Proof.
  unfold turn. destruct (l_ended l) eqn:He; [done|]. destruct t.
  - destruct (l_redraw l); [|done]. intros [= <- <-] [= <-]. by exists err.
  - destruct (i_should_quit _); [|done]. by intros [= <- <-].
  - destruct (i_should_quit _); [done|]. unfold wake.
    destruct w; try (intros [= <- <-]; cbn; congruence).
    + destruct (handle_key k _) as [s a]. unfold act. destruct a; cbn; try (intros [= <- <-]; cbn; congruence);
        [destruct (l_session l)|destruct (src_memory sources)|destruct (src_skills sources)];
        intros [= <- <-]; cbn; congruence.
    + cbn. destruct (l_session l); [|done]. intros [= <- <-]. cbn. congruence.
    + cbn. destruct (l_recall l); [|done]. intros [= <- <-]. cbn. congruence.
Qed.

Lemma turns_end sources ts l l' out :
  l_ended l = None -> asked (l_state l) = false -> turns sources ts l = Some (l', out) ->
  match l_ended l' with
  | None => asked (l_state l') = false
  | Some (Ok _) => True
  | Some (Err e) => exists err, e = EOther ("cannot draw: " +:+ err) /\ TDrawFails err ∈ ts
  end.
Proof.
  revert l l' out. induction ts as [|t ts IH]; intros l l' out He Ha; cbn [turns]; [intros [= <- _]; by rewrite He|].
  destruct (turn sources t l) as [[l1 out1]|] eqn:E; [|done].
  destruct (turns sources ts l1) as [[l2 out2]|] eqn:E2; [|done]. intros [= <- _].
  destruct (l_ended l1) as [r|] eqn:E1.
  - assert (l2 = l1) as ->.
    { destruct ts as [|t' ts]; cbn [turns] in E2; [by injection E2 as <- _|]. unfold turn in E2. by rewrite E1 in E2. }
    rewrite E1. destruct r as [[]|e]; [done|]. destruct (turn_error _ _ _ _ _ _ E E1) as (err&->&->).
    exists err. split; [done|by left].
  - specialize (IH l1 l2 out2 E1 (turn_asks _ _ _ _ _ E E1) E2). destruct (l_ended l2) as [[]|]; try done.
    destruct IH as (err&?&?). exists err. split; [done|by right].
Qed.

Lemma loop_start_ok sources agents skills : loop_ok (loop_start sources agents skills).
Proof.
  split; [|done]. unfold loop_start. cbn [l_state]. apply tidy_refresh, tidy_browse; [done|].
  apply tidy_agents, tidy_new.
Qed.

Definition ctrl_c : KeyEvent := {| k_released := false; k_control := true; k_code := KChar 99 |}.

(** Tasks of a kind: those over, and one more at most; only over ones once the
    loop has ended. *)
Definition one_at_most (k : Kind) (ts : list Turn) (out : list Effect) (l : Loop) : Prop :=
  (over k ts out <= count (kd_starts k) out <= S (over k ts out))%nat /\
  (l_ended l <> None -> count (kd_starts k) out = over k ts out).

(** C33: However the turns of the interface go, the log stays bounded, the scroll
    and the cursor in range and the input empty outside editing; at most one
    session and one search of the memory run at a time.  Left by a key, or
    because the events have ended, it has aborted or seen the end of every one it
    started; only drawing that fails, which leaves it with an error, detaches what
    runs.  Control-C leaves it from any state, unless it is drawing that fails
    first, and aborts what runs. *)
Theorem interface_sound sources agents skills ts l out :
  turns sources ts (loop_start sources agents skills) = Some (l, out) ->
  tidy (l_state l) /\ one_at_most sessions ts out l /\ one_at_most recalls ts out l
  /\ match l_ended l with
     | Some (Err e) => exists err, e = EOther ("cannot draw: " +:+ err) /\ TDrawFails err ∈ ts
     | Some (Ok _) => count detaches out = O
     | None =>
         count detaches out = O /\
         forall toggled refreshed, exists l',
           turn sources (TWoken (WKey ctrl_c toggled refreshed)) l
             = Some (l', when (l_session l) AbortSession ++ when (l_recall l) AbortRecall)%list
           /\ l_ended l' = Some (Ok tt) /\ l_session l' = false /\ l_recall l' = false
     end.
Proof.
  intros H. pose proof (turns_kept sources ts _ _ _ (loop_start_ok sources agents skills) H) as ([Ht Hc]&S&R&D).
  assert (asked (l_state (loop_start sources agents skills)) = false) as Ha
    by (unfold loop_start, refresh_skills; cbn; destruct (src_skills sources); [destruct skills|]; done).
  pose proof (turns_end sources ts (loop_start sources agents skills) l out eq_refl Ha H) as He.
  assert (forall k, kd_runs k (loop_start sources agents skills) = false -> (l_ended l <> None -> kd_runs k l = false) ->
    balanced k ts out (loop_start sources agents skills) l -> one_at_most k ts out l) as Hone.
  { intros k H0 Hr B. unfold balanced, running in B. rewrite H0 in B. split; [destruct (kd_runs k l); lia|].
    intros Hne. rewrite (Hr Hne) in B. lia. }
  split; [done|]. split; [apply Hone; [done|by apply Hc|done]|]. split; [apply Hone; [done|by apply Hc|done]|].
  destruct (l_ended l) as [[[]|e]|] eqn:E; [done|done|]. split; [done|]. intros toggled refreshed.
  unfold turn. rewrite E. unfold asked in He. rewrite He. eexists. split; [reflexivity|]. by split_and!.
Qed.

(** ** What the rows show *)

Definition created (e : Event) : option (TaskId * string) :=
  match ev_kind e, ev_task_id e with TaskCreated d, Some id => Some (id, d) | _, _ => None end.

(** The status an event gives its task. *)
Definition status_told (e : Event) : option TaskStatus :=
  match ev_kind e with
  | TaskStatusChanged s => Some s
  | TaskCompleted _ => Some Completed
  | TaskFailed _ => Some Failed
  | TaskSkipped _ => Some Skipped
  | AgentStarted _ => Some Running
  | _ => None
  end.

Definition target_told (e : Event) : option (AgentId * option ModelId) :=
  match ev_kind e with AgentSelected a m _ _ => Some (a, m) | _ => None end.

(** The last thing told of a task, after it was created. *)
Definition last_told {A} (told : Event -> option A) (id : TaskId) (es : list Event) : option A :=
  fold_left (fun acc e => if bool_decide (ev_task_id e = Some id)
                          then match told e with Some a => Some a | None => acc end else acc) es None.

Definition row_of (es : list Event) (c : TaskId * string) : TaskRow :=
  {| tr_id := c.1; tr_description := c.2;
     tr_status := match last_told status_told c.1 es with Some s => s | None => Pending end;
     tr_agent := option_map fst (last_told target_told c.1 es);
     tr_model := match last_told target_told c.1 es with Some (_, m) => m | None => None end |}.

(** The rows of the tasks [es] creates.  Only the first row of a task is told of
    it, so those of tasks in [seen], which have one already, stay as created. *)
Fixpoint plan_from (seen : list TaskId) (es : list Event) : list TaskRow :=
  match es with
  | [] => []
  | e :: es' =>
      match created e with
      | Some (id, description) =>
          row_of (if bool_decide (id ∈ seen) then [] else es') (id, description) :: plan_from (id :: seen) es'
      | None => plan_from seen es'
      end
  end.

Definition starts_session (e : Event) : bool := match ev_kind e with SessionStarted _ => true | _ => false end.

(** The events after the last start of a session. *)
Definition since_start (es : list Event) : list Event :=
  fold_left (fun acc e => if starts_session e then [] else (acc ++ [e])%list) es [].

Lemma last_told_snoc {A} (told : Event -> option A) id es e :
  last_told told id (es ++ [e])%list =
  if bool_decide (ev_task_id e = Some id)
  then match told e with Some a => Some a | None => last_told told id es end else last_told told id es.
Proof. unfold last_told. by rewrite fold_left_app. Qed.

(** Rows of tasks an event says nothing of are as before. *)
Lemma row_of_snoc es e c :
  (ev_task_id e = Some c.1 -> status_told e = None /\ target_told e = None) ->
  row_of (es ++ [e])%list c = row_of es c.
Proof.
  intros H. unfold row_of. rewrite !last_told_snoc. case_bool_decide as E; [|done].
  destruct (H E) as [-> ->]. done.
Qed.

(** What an event that creates nothing does to the row of its task. *)
Definition row_change (e : Event) (t : TaskRow) : TaskRow :=
  match status_told e, target_told e with
  | Some s, _ => row_status s t
  | None, Some (agent, model) => row_target agent model t
  | None, None => t
  end.

Lemma one_told e : status_told e = None \/ target_told e = None.
Proof. unfold status_told, target_told. destruct (ev_kind e); auto. Qed.

Lemma row_change_of es e c :
  ev_task_id e = Some c.1 -> row_change e (row_of es c) = row_of (es ++ [e])%list c.
Proof.
  intros E. unfold row_change, row_of. rewrite !last_told_snoc, E.
  rewrite (bool_decide_eq_true_2 (Some c.1 = Some c.1)) by done.
  pose proof (one_told e) as Ho. destruct (status_told e) as [s|], (target_told e) as [[a m]|]; try done.
  by destruct Ho.
Qed.

(** The rows an event leaves. *)
Definition rows_after (e : Event) (rows : list TaskRow) : list TaskRow :=
  match created e, ev_task_id e with
  | Some c, _ => (rows ++ [row_of [] c])%list
  | None, Some id => update_first id (row_change e) rows
  | None, None => rows
  end.

Lemma update_first_same id f l : (forall t, f t = t) -> update_first id f l = l.
Proof. intros Hf. induction l as [|t l IH]; [done|]. cbn. rewrite Hf, IH. by case_bool_decide. Qed.

Lemma apply_view_tasks e v :
  v_tasks (apply_view e v) = if starts_session e then [] else rows_after e (v_tasks v).
Proof.
  unfold rows_after, starts_session, apply_view, created, view_selected, update_task.
  assert (status_told e = None -> target_told e = None -> forall t, row_change e t = t) as Hq
    by (intros Hs Hx t; unfold row_change; by rewrite Hs, Hx).
  destruct (ev_kind e) eqn:Ek; try done; destruct (ev_task_id e); try done.
  all: try (symmetry; apply update_first_same, Hq; unfold status_told, target_told; by rewrite Ek).
  all: unfold row_change, status_told, target_told; by rewrite Ek.
Qed.

(** What one more event changes in the rows of a plan. *)
Lemma plan_from_snoc seen es e :
  plan_from seen (es ++ [e])%list =
  match created e, ev_task_id e with
  | None, Some id =>
      if bool_decide (id ∈ seen) then plan_from seen es else update_first id (row_change e) (plan_from seen es)
  | _, _ => rows_after e (plan_from seen es)
  end.
Proof.
  unfold rows_after. revert seen. induction es as [|e0 es IH]; intros seen.
  { cbn. destruct (created e) as [[id d]|]; [by case_bool_decide|].
    destruct (ev_task_id e); [by case_bool_decide|done]. }
  cbn [plan_from app]. destruct (created e0) as [[id0 d0]|]; [|apply IH]. rewrite IH.
  destruct (created e) as [c|] eqn:Ec.
  { cbn [app]. f_equal. case_bool_decide; [done|]. apply row_of_snoc. intros _.
    unfold created in Ec. unfold status_told, target_told. by destruct (ev_kind e). }
  destruct (ev_task_id e) as [id|] eqn:Eid.
  - cbn [update_first]. change (tr_id (row_of _ (id0, d0))) with id0.
    destruct (decide (id0 = id)) as [->|Hne].
    + rewrite (bool_decide_eq_true_2 (id = id)), (bool_decide_eq_true_2 (id ∈ id :: seen)) by (done || left; done).
      case_bool_decide; [done|]. f_equal. symmetry. by apply row_change_of.
    + rewrite (bool_decide_eq_false_2 (id0 = id)) by done.
      rewrite (bool_decide_ext (id ∈ id0 :: seen) (id ∈ seen)) by set_solver.
      repeat case_bool_decide; try done; f_equal; apply row_of_snoc; cbn; congruence.
  - f_equal. case_bool_decide; [done|]. apply row_of_snoc. by rewrite Eid.
Qed.

(** C34: After any events, the interface shows a row for each event since the last
    start of a session that created a task, in the order of those events: with the
    last status, and the last agent and model, its task was told of after that
    row was made; a further row of a task that has one stays as it was created.
    Tasks that no event creates have no row, whatever is told of them. *)
Theorem plan_shown es :
  v_tasks (fold_left (fun v e => apply_view e v) es (a_view app_new)) = plan_from [] (since_start es).
Proof.
  unfold since_start. induction es as [|e es IH] using rev_ind; [done|].
  rewrite !fold_left_app. cbn [fold_left]. rewrite apply_view_tasks, IH.
  destruct (starts_session e); [done|]. rewrite plan_from_snoc. unfold rows_after.
  by destruct (created e), (ev_task_id e).
Qed.

(** ** What the totals show *)

Definition tokens_told (e : Event) : list TokenUsage :=
  match ev_kind e with TaskCompleted t | UsageRecorded t _ => [t] | _ => [] end.

(** The tokens shown are those of every attempt recorded together with those
    of every task completed, so the tokens of an attempt that completes its task
    are counted twice; and they are never shown as reported, whatever the agents
    reported. *)
Theorem tokens_shown es :
  let v := fold_left (fun v e => apply_view e v) es (a_view app_new) in
  let told := concat (map tokens_told es) in
  tu_input (v_tokens v) = fold_left (fun n t => sat64 (n + tu_input t)) told 0
  /\ tu_output (v_tokens v) = fold_left (fun n t => sat64 (n + tu_output t)) told 0
  /\ tu_reported (v_tokens v) = false.
Proof.
  intros v told. subst v told.
  assert (forall e v, v_tokens (apply_view e v) = fold_left tokens_merge (tokens_told e) (v_tokens v)) as Happ.
  { intros e v. unfold apply_view, tokens_told, update_task, view_started, view_selected.
    destruct (ev_kind e); try done; by destruct (ev_task_id e). }
  assert (v_tokens (fold_left (fun v e => apply_view e v) es (a_view app_new))
          = fold_left tokens_merge (concat (map tokens_told es)) (tokens_estimated 0 0)) as ->.
  { change (tokens_estimated 0 0) with (v_tokens (a_view app_new)). generalize (a_view app_new).
    induction es as [|e es IH]; intros v; [done|]. cbn [fold_left map concat]. rewrite IH, fold_left_app. by rewrite Happ. }
  assert (forall l a, tu_input (fold_left tokens_merge l a) = fold_left (fun n t => sat64 (n + tu_input t)) l (tu_input a)
          /\ tu_output (fold_left tokens_merge l a) = fold_left (fun n t => sat64 (n + tu_output t)) l (tu_output a)
          /\ (tu_reported a = false -> tu_reported (fold_left tokens_merge l a) = false)) as Hf.
  { induction l as [|t l IH]; intros a; [done|]. cbn [fold_left].
    destruct (IH (tokens_merge a t)) as (H1&H2&H3). rewrite H1, H2. split_and!; try done.
    intros Hr. apply H3. cbn. by rewrite Hr. }
  destruct (Hf (concat (map tokens_told es)) (tokens_estimated 0 0)) as (H1&H2&H3). rewrite H1, H2. by split_and!; auto.
Qed.

(** ** The terminal interface at work

    A whole session of the orchestrator shown by the interface, and what its
    theorems leave out. *)


Definition shown_after (es : list Event) : SessionView := fold_left (fun v e => apply_view e v) es (a_view app_new).

(** Every task done at the first attempt, each reporting 100 tokens in and 50 out. *)
Definition counted : Answers := fun _ _ =>
  Ok {| oc_attempt_id := "x"; oc_agent_id := "a"; oc_model_id := None; oc_success := true;
        oc_output := "done"; oc_changed_files := []; oc_tokens := tokens_reported 100 50;
        oc_latency_ms := 5; oc_failure_class := None; oc_failure_reason := None;
        oc_reported_cost_usd := None |}.

#[local] Instance counted_heuristic : Planner HeuristicPlanner :=
  HeuristicPlanner_Planner sample_gen ascii_lower_only.

Definition counted_session : SessionState * option (Result SessionResult) :=
  demo_session config_default heuristic_new counted "Fix the parser bug and add tests".

(** The interface shows twice the tokens the session's own account has, and
    calls an account of reported numbers an estimate. *)
Example tokens_doubled :
  let s := counted_session.1 in
  let t := totals (sh_usage s) in
  let v := shown_after (sh_events s) in
  (tu_input (v_tokens v), tu_output (v_tokens v), tu_reported (v_tokens v))
  = (1000, 500, false)
  /\ totals_total_tokens t = 750.
Proof. vm_compute. by split. Qed.

(** Nothing publishes [TaskCreated], so the plan of a session is never shown. *)
Example rows_never_shown :
  let s := counted_session.1 in
  v_tasks (shown_after (sh_events s)) = [] /\ Forall (fun e => created e = None) (sh_events s)
  /\ length (List.filter (fun e => match ev_kind e with TaskCompleted _ => true | _ => false end) (sh_events s)) = 5%nat.
Proof. vm_compute. split_and!; [reflexivity|repeat constructor|reflexivity]. Qed.

(** Were it, the plan would be followed. *)
Definition told_events : list Event := (
  map (fun '(id, d) => event_task 0 "s" id (TaskCreated d)) [("t0", "look"); ("t1", "fix"); ("t2", "test"); ("t3", "check"); ("t4", "tell")]
  ++ tail (sh_events counted_session.1))%list.

Example plan_followed :
  map (fun r => (tr_id r, tr_status r, tr_agent r)) (v_tasks (shown_after told_events))
  = map (fun id => (id, Completed, Some "a")) ["t0"; "t1"; "t2"; "t3"; "t4"].
Proof. by vm_compute. Qed.

(** A task created twice has two rows, and only the first is followed. *)
Example second_row_stays :
  map (fun r => (tr_description r, tr_status r))
    (v_tasks (shown_after [event_task 0 "s" "t" (TaskStatusChanged Running); event_task 0 "s" "t" (TaskCreated "one");
                           event_task 0 "s" "t" (TaskCreated "two"); event_task 0 "s" "t" (TaskStatusChanged Ready)]))
  = [("one", Ready); ("two", Pending)].
Proof. by vm_compute. Qed.

(** ** The loop *)

Definition key (c : KeyCode) : Turn :=
  TWoken (WKey {| k_released := false; k_control := false; k_code := c |} (Ok tt) (Ok [])).

Definition demo_sources : Sources := {| src_skills := true; src_memory := true |}.

(** Type a goal, start it, ask for another, quit. *)
Definition demo_turns : list Turn :=
  [key (KChar 105); key (KChar 104); key (KChar 105); key KEnter;
   key (KChar 105); key (KChar 120); key KEnter; key (KChar 113)].

Lemma interface_sound_witness :
  exists l out, turns demo_sources demo_turns (loop_start demo_sources [] (Ok [])) = Some (l, out)
    /\ tidy (l_state l) /\ out = [StartSession "hi"; AbortSession].
Proof.
  eexists _, _. split; [vm_compute; reflexivity|]. split; [|reflexivity].
  refine (proj1 (interface_sound demo_sources [] (Ok []) demo_turns _ [StartSession "hi"; AbortSession] _)).
  vm_compute. reflexivity.
Defined.

(** A session that ends without its last event, because the bus dropped it or
    because the session failed, leaves the interface refusing every other goal. *)
Example lost_end_wedges :
  match turns demo_sources
          [key (KChar 105); key (KChar 104); key KEnter;
           TWoken (WEvent (event_session 0 "s" (SessionStarted "h")) []); TWoken (WLagged 1);
           TWoken (WSessionDone (Ok (Ok "done")) []); key (KChar 105)] (loop_start demo_sources [] (Ok [])) with
  | Some (l, _) => (l_session l, i_mode (a_in (l_state l)), i_notice (a_in (l_state l)))
  | None => (true, Editing, None)
  end = (false, Navigating, Some "a session is already running").
Proof. by vm_compute. Qed.

(** Drawing that fails leaves the session it had started running, with nobody
    watching. *)
Example failed_draw_detaches :
  match turns demo_sources [key (KChar 105); key (KChar 104); key KEnter; TDrawFails "broken pipe"]
          (loop_start demo_sources [] (Ok [])) with
  | Some (l, out) => (l_ended l, out)
  | None => (None, [])
  end = (Some (Err (EOther "cannot draw: broken pipe")), [StartSession "h"; DetachSession]).
Proof. by vm_compute. Qed.
