(* ===== verification/A2aWire.v ===== *)
(** * The A2A wire vocabulary ([cuma-protocol-a2a/src/wire.rs])

    Tasks, messages and stream events in the two dialects, and the parsers that
    accept either.  Message ids are arguments. *)

From S2P Require Export Json Text.
Open Scope string_scope.
Open Scope Z_scope.

(** ** Methods and error codes *)

Definition SEND_MESSAGE : string := "SendMessage".
Definition SEND_STREAMING_MESSAGE : string := "SendStreamingMessage".
Definition GET_TASK : string := "GetTask".
Definition LIST_TASKS : string := "ListTasks".
Definition CANCEL_TASK : string := "CancelTask".
Definition SUBSCRIBE_TO_TASK : string := "SubscribeToTask".
Definition GET_EXTENDED_AGENT_CARD : string := "GetExtendedAgentCard".

Definition legacy_names : list (string * string) :=
  [(SEND_MESSAGE, "message/send"); (SEND_STREAMING_MESSAGE, "message/stream"); (GET_TASK, "tasks/get");
   (CANCEL_TASK, "tasks/cancel"); (SUBSCRIBE_TO_TASK, "tasks/resubscribe")].

(** [legacy_name], [canonical], [is_legacy]. *)
Definition legacy_name (method : string) : option string := bt_get method legacy_names.

Definition canonical (method : string) : string :=
  match List.find (fun p => bool_decide (p.2 = method)) legacy_names with
  | Some p => p.1
  | None => method
  end.

Definition is_legacy (method : string) : bool := str_contains method "/".

Definition PARSE_ERROR : Z := -32700.
Definition INVALID_REQUEST : Z := -32600.
Definition METHOD_NOT_FOUND : Z := -32601.
Definition INVALID_PARAMS : Z := -32602.
Definition INTERNAL_ERROR : Z := -32603.
Definition TASK_NOT_FOUND : Z := -32001.
Definition TASK_NOT_CANCELABLE : Z := -32002.
Definition PUSH_NOTIFICATION_NOT_SUPPORTED : Z := -32003.
Definition UNSUPPORTED_OPERATION : Z := -32004.
Definition EXTENDED_CARD_NOT_CONFIGURED : Z := -32007.

Inductive Dialect : Type := V1 | Legacy.

#[export] Instance Dialect_eq_dec : EqDecision Dialect.
Proof. solve_decision. Defined.

(** ** States *)

Inductive TaskState : Type :=
  | Submitted | Working | Completed | TSFailed | Canceled | InputRequired | Rejected | AuthRequired
  | TSUnknown.

#[export] Instance TaskState_eq_dec : EqDecision TaskState.
Proof. solve_decision. Defined.

(** [TaskState::parse]. *)
Definition state_of_name (name : string) : TaskState :=
  if bool_decide (name = "submitted") then Submitted
  else if bool_decide (name = "working") then Working
  else if bool_decide (name = "completed") then Completed
  else if bool_decide (name = "failed") then TSFailed
  else if bool_decide (name = "canceled") || bool_decide (name = "cancelled") then Canceled
  else if bool_decide (name = "input-required") then InputRequired
  else if bool_decide (name = "rejected") then Rejected
  else if bool_decide (name = "auth-required") then AuthRequired
  else TSUnknown.

Definition UNDERSCORE : ascii := of_byte 95.
Definition DASH : ascii := of_byte 45.

Definition state_parse (raw : string) : TaskState :=
  let t := trim raw in
  state_of_name (replace_char UNDERSCORE DASH
    (to_ascii_lowercase (trim_start_str (String.length t) "TASK_STATE_" t))).

(** [TaskState::render]. *)
Definition state_render (s : TaskState) (d : Dialect) : string :=
  match d, s with
  | V1, Submitted => "TASK_STATE_SUBMITTED"
  | V1, Working => "TASK_STATE_WORKING"
  | V1, Completed => "TASK_STATE_COMPLETED"
  | V1, TSFailed => "TASK_STATE_FAILED"
  | V1, Canceled => "TASK_STATE_CANCELED"
  | V1, InputRequired => "TASK_STATE_INPUT_REQUIRED"
  | V1, Rejected => "TASK_STATE_REJECTED"
  | V1, AuthRequired => "TASK_STATE_AUTH_REQUIRED"
  | V1, TSUnknown => "TASK_STATE_UNSPECIFIED"
  | Legacy, Submitted => "submitted"
  | Legacy, Working => "working"
  | Legacy, Completed => "completed"
  | Legacy, TSFailed => "failed"
  | Legacy, Canceled => "canceled"
  | Legacy, InputRequired => "input-required"
  | Legacy, Rejected => "rejected"
  | Legacy, AuthRequired => "auth-required"
  | Legacy, TSUnknown => "unknown"
  end.

(** [is_terminal], [is_interrupted]; [settled] of server.rs and client.rs. *)
Definition state_is_terminal (s : TaskState) : bool :=
  match s with Completed | TSFailed | Canceled | Rejected => true | _ => false end.
Definition is_interrupted (s : TaskState) : bool :=
  match s with InputRequired | AuthRequired => true | _ => false end.
Definition state_settled (s : TaskState) : bool := state_is_terminal s || is_interrupted s.

(** ** Tasks *)

Record WireTask := {
  w_id : string;
  w_context_id : string;
  w_state : TaskState;
  w_status_text : option string;
  w_timestamp : option string;
  w_artifacts : list (string * string);
}.

(** Texts that say something, trimmed. *)
Definition said (texts : list string) : list string :=
  List.filter (fun t => negb (bool_decide (t = ""))) (map trim texts).

Definition PARAGRAPH : string := NL +:+ NL.

(** [WireTask::text]. *)
Definition task_text (t : WireTask) : string :=
  str_join PARAGRAPH
    (said (map snd (w_artifacts t) ++ match w_status_text t with Some s => [s] | None => [] end)%list).

(** A text part, [message_json], and an artifact of [to_json]. *)
Definition text_part (text : string) (d : Dialect) : Value :=
  match d with
  | V1 => JObject [("text", JString text)]
  | Legacy => JObject [("kind", JString "text"); ("text", JString text)]
  end.

Definition message_json (id text role : string) (d : Dialect) : Value :=
  match d with
  | V1 => JObject [("messageId", JString id);
                   ("role", JString (if bool_decide (role = "user") then "ROLE_USER" else "ROLE_AGENT"));
                   ("parts", JArray [text_part text V1])]
  | Legacy => JObject [("kind", JString "message"); ("messageId", JString id); ("role", JString role);
                       ("parts", JArray [text_part text Legacy])]
  end.

Definition artifact_json (d : Dialect) (artifact : string * string) : Value :=
  JObject [("artifactId", JString artifact.1); ("name", JString "result");
           ("parts", JArray [text_part artifact.2 d])].

(** The status of [to_json]; [id] is the message's. *)
Definition status_json (id : string) (t : WireTask) (d : Dialect) : Value :=
  let status := JObject [("state", JString (state_render (w_state t) d))] in
  let status := match w_status_text t with
                | Some text => jset "message" (message_json id text "agent" d) status
                | None => status
                end in
  match w_timestamp t with
  | Some timestamp => jset "timestamp" (JString timestamp) status
  | None => status
  end.

(** [WireTask::to_json]. *)
Definition task_json (id : string) (t : WireTask) (d : Dialect) : Value :=
  let task := JObject [("id", JString (w_id t)); ("contextId", JString (w_context_id t));
                       ("status", status_json id t d);
                       ("artifacts", JArray (map (artifact_json d) (w_artifacts t)))] in
  match d with Legacy => jset "kind" (JString "task") task | V1 => task end.

(** [parts_text]. *)
Definition parts_text (parts : option Value) : string :=
  match parts with
  | Some v => match as_array v with
              | Some l => str_join NL (said (omap (str_field "text") l))
              | None => ""
              end
  | None => ""
  end.

Definition non_empty (s : string) : option string := if bool_decide (s = "") then None else Some s.

(** The state and the text of a status object. *)
Definition status_state (status : Value) : TaskState :=
  match str_field "state" status with Some s => state_parse s | None => TSUnknown end.
Definition status_text (status : Value) : option string :=
  match jget "message" status with Some m => non_empty (parts_text (jget "parts" m)) | None => None end.

Definition parse_artifact (artifact : Value) : string * string :=
  (match str_field "artifactId" artifact with Some id => id | None => "artifact" end,
   parts_text (jget "parts" artifact)).

(** [parse_task]. *)
Definition parse_task (v : Value) : option WireTask :=
  match str_field "id" v with
  | None => None
  | Some id =>
      let status := jget "status" v in
      Some {| w_id := id;
              w_context_id := match str_field "contextId" v with Some c => c | None => "" end;
              w_state := match status with Some s => status_state s | None => TSUnknown end;
              w_status_text := match status with Some s => status_text s | None => None end;
              w_timestamp := match status with Some s => str_field "timestamp" s | None => None end;
              w_artifacts :=
                match jget "artifacts" v with
                | Some a => match as_array a with
                            | Some l => List.filter (fun p => negb (bool_decide (p.2 = ""))) (map parse_artifact l)
                            | None => []
                            end
                | None => []
                end |}
  end.

(** ** Results and events *)

Inductive SendResult : Type :=
  | SRTask (t : WireTask)
  | SRMessage (text : string).

(** [parse_send_result]. *)
Definition parse_send_result (v : Value) : option SendResult :=
  match jget "task" v with
  | Some task => SRTask <$> parse_task task
  | None =>
      match jget "message" v with
      | Some m => Some (SRMessage (parts_text (jget "parts" m)))
      | None =>
          let kind := str_field "kind" v in
          if bool_decide (kind = Some "message") then Some (SRMessage (parts_text (jget "parts" v)))
          else if bool_decide (kind = Some "task") then SRTask <$> parse_task v
          else match jget "status" v with
               | Some _ => SRTask <$> parse_task v
               | None => match jget "parts" v with
                         | Some _ => Some (SRMessage (parts_text (jget "parts" v)))
                         | None => None
                         end
               end
      end
  end.

Inductive StreamEvent : Type :=
  | SETask (t : WireTask)
  | SEMessage (text : string)
  | SEStatus (state : TaskState) (text : option string)
  | SEArtifact (text : string).

Definition status_event (event : Value) : option StreamEvent :=
  match jget "status" event with
  | Some s => Some (SEStatus (status_state s) (status_text s))
  | None => None
  end.

Definition artifact_event (event : Value) : option StreamEvent :=
  match jget "artifact" event with
  | Some a => Some (SEArtifact (parts_text (jget "parts" a)))
  | None => None
  end.

(** [parse_stream_event]. *)
Definition parse_stream_event (v : Value) : option StreamEvent :=
  match jget "statusUpdate" v with
  | Some event => status_event event
  | None =>
      match jget "artifactUpdate" v with
      | Some event => artifact_event event
      | None =>
          let kind := str_field "kind" v in
          if bool_decide (kind = Some "status-update") then status_event v
          else if bool_decide (kind = Some "artifact-update") then artifact_event v
          else match parse_send_result v with
               | Some (SRTask t) => Some (SETask t)
               | Some (SRMessage text) => Some (SEMessage text)
               | None => None
               end
      end
  end.

(** [status_event_json], [artifact_event_json], [send_result_json],
    [task_event_json]. *)
Definition status_event_json (id : string) (t : WireTask) (d : Dialect) : Value :=
  match d with
  | V1 => JObject [("statusUpdate",
            JObject [("taskId", JString (w_id t)); ("contextId", JString (w_context_id t));
                     ("status", status_json id t V1)])]
  | Legacy => JObject [("kind", JString "status-update"); ("taskId", JString (w_id t));
                       ("contextId", JString (w_context_id t)); ("status", status_json id t Legacy);
                       ("final", JBool (state_settled (w_state t)))]
  end.

Definition artifact_event_json (t : WireTask) (artifact_id text : string) (d : Dialect) : Value :=
  let artifact := JObject [("artifactId", JString artifact_id); ("parts", JArray [text_part text d])] in
  match d with
  | V1 => JObject [("artifactUpdate",
            JObject [("taskId", JString (w_id t)); ("contextId", JString (w_context_id t));
                     ("artifact", artifact); ("append", JBool true)])]
  | Legacy => JObject [("kind", JString "artifact-update"); ("taskId", JString (w_id t));
                       ("contextId", JString (w_context_id t)); ("artifact", artifact);
                       ("append", JBool true)]
  end.

Definition send_result_json (id : string) (t : WireTask) (d : Dialect) : Value :=
  match d with
  | V1 => JObject [("task", task_json id t V1)]
  | Legacy => task_json id t Legacy
  end.

Definition task_event_json (id : string) (t : WireTask) (d : Dialect) : Value := send_result_json id t d.

(** ** Round trips *)

(** The character does not occur. *)
Fixpoint absent (c : ascii) (s : string) : bool :=
  match s with EmptyString => true | String a s' => negb (bool_decide (a = c)) && absent c s' end.

(** A dialect's spelling of a state is read back, whatever the dialect. *)
Lemma state_roundtrip s d : state_parse (state_render s d) = s.
Proof. destruct s, d; vm_compute; reflexivity. Qed.

(** Methods: the old name of a method leads back to it. *)
Lemma canonical_legacy m l : legacy_name m = Some l -> canonical l = m /\ is_legacy l = true.
Proof.
  unfold legacy_name. cbn [bt_get legacy_names].
  repeat (case_bool_decide; [subst; intros [= <-]; split; vm_compute; reflexivity|]). done.
Qed.

(** What survives the wire: texts are trimmed and empty ones dropped. *)
Definition wire_text (text : option string) : option string :=
  match text with Some s => non_empty (trim s) | None => None end.

Definition wire_task (t : WireTask) : WireTask :=
  {| w_id := w_id t; w_context_id := w_context_id t; w_state := w_state t;
     w_status_text := wire_text (w_status_text t); w_timestamp := w_timestamp t;
     w_artifacts := List.filter (fun p => negb (bool_decide (p.2 = "")))
                      (map (fun a => (a.1, trim a.2)) (w_artifacts t)) |}.

Lemma said_one text : str_join NL (said [text]) = trim text.
Proof. unfold said. cbn [map List.filter]. by case_bool_decide as E; [rewrite E|]. Qed.

Lemma parts_text_one text d : parts_text (Some (JArray [text_part text d])) = trim text.
Proof. destruct d; apply said_one. Qed.

Lemma status_state_json id t d : status_state (status_json id t d) = w_state t.
Proof.
  unfold status_json, status_state, str_field.
  destruct (w_status_text t), (w_timestamp t); cbn [jget jset bt_get set_field]; cbn -[state_parse state_render];
    apply state_roundtrip.
Qed.

Lemma message_parts id text role d :
  parts_text (jget "parts" (message_json id text role d)) = trim text.
Proof. destruct d; apply (parts_text_one text). Qed.

Lemma status_text_json id t d : status_text (status_json id t d) = wire_text (w_status_text t).
Proof.
  unfold status_text, wire_text.
  assert (jget "message" (status_json id t d) = (fun s => message_json id s "agent" d) <$> w_status_text t) as ->
    by (unfold status_json; destruct (w_status_text t), (w_timestamp t); reflexivity).
  destruct (w_status_text t) as [s|]; cbn [fmap option_fmap option_map]; [by rewrite message_parts|done].
Qed.

Lemma status_timestamp_json id t d : str_field "timestamp" (status_json id t d) = w_timestamp t.
Proof.
  unfold status_json, str_field. destruct (w_status_text t), (w_timestamp t); reflexivity.
Qed.

Lemma parse_artifact_json d a : parse_artifact (artifact_json d a) = (a.1, trim a.2).
Proof.
  unfold parse_artifact, artifact_json. change (jget "parts" _) with (Some (JArray [text_part a.2 d])).
  by rewrite parts_text_one.
Qed.

Lemma parse_task_json id t d : parse_task (task_json id t d) = Some (wire_task t).
Proof.
  assert (forall v, jget "id" v = Some (JString (w_id t)) ->
    jget "contextId" v = Some (JString (w_context_id t)) -> jget "status" v = Some (status_json id t d) ->
    jget "artifacts" v = Some (JArray (map (artifact_json d) (w_artifacts t))) ->
    parse_task v = Some (wire_task t)) as H.
  { intros v E1 E2 E3 E4. unfold parse_task, str_field. rewrite E1, E2, E3, E4. cbn [as_str as_array].
    rewrite status_state_json, status_text_json. unfold wire_task. do 2 f_equal.
    - exact (status_timestamp_json id t d).
    - rewrite map_map. f_equal. apply map_ext. intros a. apply parse_artifact_json. }
  destruct d; apply H; reflexivity.
Qed.
