(* ===== verification/A2aCard.v ===== *)
(** * Agent Cards ([cuma-protocol-a2a/src/card.rs])

    What a remote agent says about itself: where to reach it, in which dialect,
    and which of its tags are let in.  Reading JSON into the fields is serde's. *)

From S2P Require Export A2aWire Capability.
Open Scope string_scope.
Open Scope Z_scope.

Record AgentSkill := {
  as_id : string;
  as_name : string;
  as_description : string;
  as_tags : list string;
  as_examples : list string;
}.

Record AgentCardCapabilities := {
  cc_streaming : bool;
  cc_push_notifications : bool;
  cc_extended_agent_card : bool;
}.

Record AgentInterface := {
  ai_url : string;
  ai_protocol_binding : string;
  ai_protocol_version : string;
}.

Record LegacyInterface := {
  li_url : string;
  li_transport : string;
}.

Definition BINDING_JSONRPC : string := "JSONRPC".
Definition PROTOCOL_VERSION : string := "1.0".
Definition AGENT_CARD_PATH : string := "/.well-known/agent-card.json".

Record AgentCard := {
  card_name : string;
  card_description : string;
  card_supported_interfaces : list AgentInterface;
  card_version : string;
  card_capabilities : AgentCardCapabilities;
  card_skills : list AgentSkill;
  card_default_input_modes : list string;
  card_default_output_modes : list string;
  card_security_schemes : btree string Value;
  card_security_requirements : list Value;
  card_url : option string;
  card_protocol_version : option string;
  card_preferred_transport : option string;
  card_additional_interfaces : list LegacyInterface;
}.

(** [AgentCard::new]. *)
Definition card_new (name url : string) : AgentCard :=
  {| card_name := name; card_description := "";
     card_supported_interfaces :=
       [{| ai_url := url; ai_protocol_binding := BINDING_JSONRPC; ai_protocol_version := PROTOCOL_VERSION |}];
     card_version := "";
     card_capabilities := {| cc_streaming := false; cc_push_notifications := false; cc_extended_agent_card := false |};
     card_skills := []; card_default_input_modes := []; card_default_output_modes := [];
     card_security_schemes := []; card_security_requirements := []; card_url := None;
     card_protocol_version := None; card_preferred_transport := None; card_additional_interfaces := [] |}.

(** [eq_ignore_ascii_case]. *)
Definition eq_ignore_case (a b : string) : bool := bool_decide (to_ascii_lowercase a = to_ascii_lowercase b).

(** [dialect_of]. *)
Definition dialect_of (version : string) : Dialect := if starts_with (trim version) "0." then Legacy else V1.

Definition jsonrpc_interface (card : AgentCard) : option AgentInterface :=
  List.find (fun i => eq_ignore_case (ai_protocol_binding i) BINDING_JSONRPC) (card_supported_interfaces card).

(** [jsonrpc_endpoint]. *)
Definition jsonrpc_endpoint (card : AgentCard) : option (string * Dialect) :=
  match jsonrpc_interface card with
  | Some i => Some (ai_url i, dialect_of (ai_protocol_version i))
  | None =>
      let dialect := match card_protocol_version card with Some v => dialect_of v | None => Legacy end in
      let primary := match card_preferred_transport card with
                     | Some t => eq_ignore_case t BINDING_JSONRPC
                     | None => true
                     end in
      match (if primary then card_url card else None) with
      | Some url => Some (url, dialect)
      | None =>
          (fun i => (li_url i, dialect)) <$>
            List.find (fun i => eq_ignore_case (li_transport i) BINDING_JSONRPC) (card_additional_interfaces card)
      end
  end.

(** [AgentCard::protocol_version]. *)
Definition protocol_version (card : AgentCard) : option string :=
  match jsonrpc_interface card with
  | Some i => Some (ai_protocol_version i)
  | None => card_protocol_version card
  end.

(** [sanitize_tag]. *)
Definition MAX_TAG_LEN : Z := 64.

Definition is_tag_char (c : Z) : bool := is_ascii_alphanumeric c || (c =? 95) || (c =? 45) || (c =? 46).

Definition sanitize_tag (raw : string) : option string :=
  let t := trim raw in
  if bool_decide (t = "") || (MAX_TAG_LEN <? Z.of_nat (String.length t)) then None
  else if negb (forallb is_tag_char (chars t)) then None
  else if starts_with t "." || str_contains t ".." then None
  else Some t.

(** [capabilities_from_card]. *)
Definition skill_tokens (s : AgentSkill) : list string := (as_tags s ++ [as_id s])%list.

Definition card_tags (card : AgentCard) : list string :=
  omap sanitize_tag (concat (map skill_tokens (card_skills card))).

Definition capabilities_from_card (card : AgentCard) : CapabilitySet :=
  let capabilities := fold_left (fun s t => caps_insert (capability_parse t) s) (card_tags card) [] in
  match capabilities with [] => caps_insert Research capabilities | _ => capabilities end.
