(* ===== verification/A2aServer.v ===== *)
(** * CUMA as an A2A agent ([cuma-protocol-a2a/src/server.rs])

    The task store, the JSON-RPC calls on it, streams of updates, and the runs
    that drive tasks.  A cancellation holds the lock on the store until it has
    saved what it did; a new task is saved once the lock is released, and a run
    changes, reads, saves and tells its progress without it.  The steps are the
    sections nothing interrupts.  Identifiers, message ids and the clock are
    arguments, as are reading and printing JSON. *)

From S2P Require Export A2aCard Session.
Open Scope string_scope.
Open Scope Z_scope.

Definition MAX_RETAINED_TASKS : nat := 512.
Definition MAX_ACTIVE_TASKS : nat := 32.
Definition MAX_PAGE_SIZE : Z := 100.
Definition UPDATES_CAPACITY : nat := 256.

(** ** The card *)

Definition CARGO_VERSION : string := "0.1.0".

Definition engineering_skill (capabilities : CapabilitySet) : AgentSkill :=
  {| as_id := "software-engineering"; as_name := "Software engineering";
     as_description := "Plans a coding goal, routes each task to the best available agent, and recovers from failures";
     as_tags := map capability_display capabilities;
     as_examples := ["implement OAuth authentication and fix the tests"; "why is the build slow"] |}.

(** [agent_card], from the capabilities of the agents available. *)
Definition agent_card (capabilities : CapabilitySet) (base_url : string) : AgentCard :=
  let card := card_new "CUMA" base_url in
  {| card_name := card_name card; card_description := "A universal control plane for coding agents";
     card_supported_interfaces := card_supported_interfaces card; card_version := CARGO_VERSION;
     card_capabilities := {| cc_streaming := true; cc_push_notifications := false;
                             cc_extended_agent_card := false |};
     card_skills := match capabilities with [] => [] | _ => [engineering_skill capabilities] end;
     card_default_input_modes := ["text/plain"]; card_default_output_modes := ["text/plain"];
     card_security_schemes := []; card_security_requirements := []; card_url := None;
     card_protocol_version := None; card_preferred_transport := None; card_additional_interfaces := [] |}.

(** ** Tokens *)

Definition BEARER_SCHEME : string := "bearer".

(** [same_secret]: the bytes are combined without an early exit. *)
Definition same_secret (a b : list Z) : bool :=
  bool_decide (length a = length b)
  && (fold_left (fun diff p => Z.lor diff (Z.lxor p.1 p.2)) (zip a b) 0 =? 0).

(** [bearer_token], on the value of the header when it is visible ASCII. *)
Definition SPACE : ascii := of_byte 32.

Definition bearer_token (authorization : option string) : option string :=
  match authorization with
  | None => None
  | Some value =>
      match splitn_char 2 SPACE value with
      | [scheme; token] => if eq_ignore_case scheme "bearer" then Some (trim token) else None
      | _ => None
      end
  end.

(** [is_authorized]. *)
Definition is_authorized (tokens : list string) (authorization : option string) : bool :=
  match tokens with
  | [] => true
  | _ =>
      match bearer_token authorization with
      | None => false
      | Some presented => fold_left (fun ok token => ok || same_secret (bytes presented) (bytes token)) tokens false
      end
  end.

(** [with_bearer_tokens]: the tokens kept and the card that declares them. *)
Definition with_bearer_tokens (tokens : list string) (card : AgentCard) : list string * AgentCard :=
  let tokens := List.filter (fun t => negb (bool_decide (t = ""))) tokens in
  let scheme := JObject [("httpAuthSecurityScheme",
                  JObject [("scheme", JString "Bearer");
                           ("description", JString "A token issued by whoever runs this CUMA.")])] in
  let '(schemes, requirements) :=
    match tokens with
    | [] => ([], [])
    | _ => (bt_insert BEARER_SCHEME scheme (card_security_schemes card),
            [JObject [("schemes", JObject [(BEARER_SCHEME, JObject [("list", JArray [])])])]])
    end in
  (tokens,
   {| card_name := card_name card; card_description := card_description card;
      card_supported_interfaces := card_supported_interfaces card; card_version := card_version card;
      card_capabilities := card_capabilities card; card_skills := card_skills card;
      card_default_input_modes := card_default_input_modes card;
      card_default_output_modes := card_default_output_modes card;
      card_security_schemes := schemes; card_security_requirements := requirements;
      card_url := card_url card; card_protocol_version := card_protocol_version card;
      card_preferred_transport := card_preferred_transport card;
      card_additional_interfaces := card_additional_interfaces card |}).

(** ** JSON-RPC *)

Record JsonRpcRequest := {
  jrq_id : Value;
  jrq_method : string;
  jrq_params : Value;
}.

Definition rpc_error (id : Value) (code : Z) (message : string) : Value :=
  JObject [("jsonrpc", JString "2.0"); ("id", id);
           ("error", JObject [("code", JInt code); ("message", JString message)])].

Definition rpc_result (id result : Value) : Value :=
  JObject [("jsonrpc", JString "2.0"); ("id", id); ("result", result)].

(** [goal_from_params]. *)
Definition goal_from_params (params : Value) : string := parts_text (pointer ["message"; "parts"] params).

(** [task_id_param]. *)
Definition task_id_param (params : Value) : string :=
  match str_field "id" params with Some id => id | None => "" end.

(** ** The store *)

Inductive TaskUpdate : Type :=
  | UStatus (t : WireTask)
  | UChunk (text : string).

(** What is left of a [set] that changed the task: reading it back, saving what
    was read, telling the subscribers. *)
Inductive Writing : Type :=
  | WRead
  | WSave (t : WireTask)
  | WTell (t : WireTask).

(** Where a run is: its task not saved, saved but not spawned, spawned but not
    polled, polled but not yet marked working, inside a [set] (the last one or
    not), waiting in the session, back from it, ended, or dropped at a point
    where it waits after having been aborted. *)
Inductive Phase : Type :=
  | PNew
  | PSaved
  | PSpawned
  | PEntered
  | PWriting (left : Writing) (last : bool)
  | PDriving
  | PReturned (result : Result SessionResult)
  | PEnded
  | PDropped.

Record TaskRun := {
  r_phase : Phase;
  r_handle : bool;
  r_aborted : bool;
}.

(** [TaskEntry]: the snapshot, everything sent to subscribers, the run. *)
Record TaskEntry := {
  te_snapshot : WireTask;
  te_updates : list TaskUpdate;
  te_run : option TaskRun;
}.

Definition settled_entry (e : TaskEntry) : bool := state_settled (w_state (te_snapshot e)).

(** [TaskMap]. *)
Record TaskMap := {
  tm_entries : btree string TaskEntry;
  tm_order : list string;
}.

Definition map_default : TaskMap := {| tm_entries := []; tm_order := [] |}.

(** [active]. *)
Definition active (m : TaskMap) : nat :=
  length (List.filter (fun e => negb (settled_entry e)) (bt_values (tm_entries m))).

(** The first id of the order that may go. *)
Definition evictable (m : TaskMap) (id : string) : bool :=
  match bt_get id (tm_entries m) with Some e => settled_entry e | None => true end.

Fixpoint take_evictable (m : TaskMap) (order : list string) : option (string * list string) :=
  match order with
  | [] => None
  | id :: order' =>
      if evictable m id then Some (id, order')
      else match take_evictable m order' with
           | Some (id', rest) => Some (id', id :: rest)
           | None => None
           end
  end.

(** [make_room]: each round takes one id off the order. *)
Fixpoint make_room (fuel : nat) (m : TaskMap) : TaskMap * list string :=
  match fuel with
  | O => (m, [])
  | S fuel' =>
      if (MAX_RETAINED_TASKS <=? length (tm_entries m))%nat then
        match take_evictable m (tm_order m) with
        | Some (id, order) =>
            let '(m, evicted) := make_room fuel' {| tm_entries := bt_remove id (tm_entries m); tm_order := order |} in
            (m, id :: evicted)
        | None => (m, [])
        end
      else (m, [])
  end.

Definition add_entry (id : string) (e : TaskEntry) (m : TaskMap) : TaskMap :=
  {| tm_entries := bt_insert id e (tm_entries m); tm_order := (tm_order m ++ [id])%list |}.

(** [insert_settled]. *)
Definition insert_settled (t : WireTask) (m : TaskMap) : TaskMap :=
  add_entry (w_id t) {| te_snapshot := t; te_updates := []; te_run := None |} m.

(** What the server asked of its store. *)
Inductive StoreCall : Type :=
  | StSave (id context_id state : string) (body : Value)
  | StRemove (id : string).

(** [A2aServer]: the tasks, the calls made to the store when there is one. *)
Record Server := {
  sv_card : AgentCard;
  sv_tasks : TaskMap;
  sv_store : option (list StoreCall);
  sv_tokens : list string;
}.

(** [new]. *)
Definition server_new (capabilities : CapabilitySet) (base_url : string) : Server :=
  {| sv_card := agent_card capabilities base_url; sv_tasks := map_default; sv_store := None; sv_tokens := [] |}.

Definition require_tokens (tokens : list string) (s : Server) : Server :=
  let '(tokens, card) := with_bearer_tokens tokens (sv_card s) in
  {| sv_card := card; sv_tasks := sv_tasks s; sv_store := sv_store s; sv_tokens := tokens |}.

Definition with_tasks (m : TaskMap) (s : Server) : Server :=
  {| sv_card := sv_card s; sv_tasks := m; sv_store := sv_store s; sv_tokens := sv_tokens s |}.

Definition stored (calls : list StoreCall) (s : Server) : Server :=
  {| sv_card := sv_card s; sv_tasks := sv_tasks s;
     sv_store := (fun log => log ++ calls)%list <$> sv_store s; sv_tokens := sv_tokens s |}.

(** [persist]: [mid] is the id of the status message. *)
Definition save_call (mid : string) (t : WireTask) : StoreCall :=
  StSave (w_id t) (w_context_id t) (state_render (w_state t) V1) (task_json mid t V1).

(** [with_store], from what the store loads, oldest first. *)
Definition INTERRUPTED_BY_RESTART : string :=
  "CUMA restarted while this task was running, and it was not resumed: part of it may already have been carried out, so running it again unasked could repeat work. Send the message again to retry.".

Definition interrupted (now : string) (t : WireTask) : WireTask :=
  {| w_id := w_id t; w_context_id := w_context_id t; w_state := TSFailed;
     w_status_text := Some INTERRUPTED_BY_RESTART; w_timestamp := Some now; w_artifacts := w_artifacts t |}.

Fixpoint restore (mid now : string) (bodies : list (option Value)) (m : TaskMap) : TaskMap * list StoreCall :=
  match bodies with
  | [] => (m, [])
  | body :: bodies' =>
      match (match body with Some v => parse_task v | None => None end) with
      | None => restore mid now bodies' m
      | Some t =>
          if state_settled (w_state t) then restore mid now bodies' (insert_settled t m)
          else
            let t := interrupted now t in
            let '(m, calls) := restore mid now bodies' (insert_settled t m) in
            (m, save_call mid t :: calls)
      end
  end.

Definition with_store (mid now : string) (loaded : Result (list (option Value))) (s : Server) : Server :=
  let bodies := match loaded with Ok l => l | Err _ => [] end in
  let '(m, calls) := restore mid now bodies (sv_tasks s) in
  {| sv_card := sv_card s; sv_tasks := m; sv_store := Some calls; sv_tokens := sv_tokens s |}.

(** ** Starting *)

(** The context a message asks for, when it is usable. *)
Definition context_of (params : Value) (fresh : string) : string :=
  match pointer ["message"; "contextId"] params with
  | Some (JString c) =>
      if negb (bool_decide (c = "")) && (Z.of_nat (String.length c) <=? 128) then c else fresh
  | _ => fresh
  end.

Definition is_follow_up (params : Value) : bool :=
  match pointer ["message"; "taskId"] params with
  | Some (JString t) => negb (bool_decide (t = ""))
  | _ => false
  end.

Definition initial_task (task_id context_id now : string) : WireTask :=
  {| w_id := task_id; w_context_id := context_id; w_state := Submitted; w_status_text := None;
     w_timestamp := Some now; w_artifacts := [] |}.

Definition new_run : TaskRun := {| r_phase := PNew; r_handle := false; r_aborted := false |}.

(** [start], up to the release of the lock: the task is in the map.  Saving it,
    spawning its run and keeping the run's handle come later. *)
Definition start (params : Value) (task_id fresh_context now : string) (s : Server)
  : Server * (string + Z * string) :=
  if bool_decide (goal_from_params params = "") then
    (s, inr (INVALID_PARAMS, "the message contained no text"))
  else if is_follow_up params then
    (s, inr (UNSUPPORTED_OPERATION,
       "CUMA tasks do not take follow-up messages; send a new message, reusing contextId to group related work"))
  else if (MAX_ACTIVE_TASKS <=? active (sv_tasks s))%nat then
    (s, inr (INTERNAL_ERROR, "CUMA is already running 32 tasks; try again later"))
  else
    let '(m, evicted) := make_room (length (tm_order (sv_tasks s))) (sv_tasks s) in
    let task := initial_task task_id (context_of params fresh_context) now in
    let e := {| te_snapshot := task; te_updates := []; te_run := Some new_run |} in
    (stored (map StRemove evicted) (with_tasks (add_entry task_id e m) s), inl task_id).

(** The first save of a task, as it stands by then. *)
Definition first_save (mid : string) (e : TaskEntry) : Server -> Server := stored [save_call mid (te_snapshot e)].

(** [start], when nothing happens in between. *)
Definition start_saved (params : Value) (task_id fresh_context mid now : string) (s : Server)
  : Server * (string + Z * string) :=
  match start params task_id fresh_context now s with
  | (s, inl tid) =>
      (match bt_get tid (tm_entries (sv_tasks s)) with Some e => first_save mid e s | None => s end, inl tid)
  | refused => refused
  end.

(** ** Reading *)

(** [get_task]. *)
Definition no_task (id : Value) (task_id : string) : Value :=
  rpc_error id TASK_NOT_FOUND ("no task " +:+ debug_str task_id).

Definition get_task (id params : Value) (d : Dialect) (mid : string) (s : Server) : Value :=
  let task_id := task_id_param params in
  match bt_get task_id (tm_entries (sv_tasks s)) with
  | Some e => rpc_result id (task_json mid (te_snapshot e) d)
  | None => no_task id task_id
  end.

(** [list_tasks]: what a page is cut from, newest first. *)
Definition wanted (params : Value) (t : WireTask) : bool :=
  match str_field "contextId" params with
  | Some c => bool_decide (c = "") || bool_decide (w_context_id t = c)
  | None => true
  end
  && match str_field "status" params with
     | Some raw => let s := state_parse raw in bool_decide (s = TSUnknown) || bool_decide (w_state t = s)
     | None => true
     end.

Definition matching (params : Value) (m : TaskMap) : list WireTask :=
  List.filter (wanted params)
    (map te_snapshot (omap (fun id => bt_get id (tm_entries m)) (rev (tm_order m)))).

Definition page_size (params : Value) : nat :=
  Z.to_nat (Z.max 1 (Z.min MAX_PAGE_SIZE
    (match jget "pageSize" params with
     | Some v => match as_u64 v with Some n => n | None => 50 end
     | None => 50
     end))).

Definition page_offset (params : Value) : Z :=
  match str_field "pageToken" params with
  | Some t => match parse_unsigned U64_MAX t with Some n => n | None => 0 end
  | None => 0
  end.

(** [skip] on a list, by a [usize]. *)
Definition skip {A} (n : Z) (l : list A) : list A :=
  if Z.of_nat (length l) <=? n then [] else drop (Z.to_nat n) l.

Definition page (params : Value) (m : TaskMap) : list WireTask :=
  take (page_size params) (skip (page_offset params) (matching params m)).

Definition next_token (params : Value) (m : TaskMap) : string :=
  let next := wrap64 (page_offset params + Z.of_nat (length (page params m))) in
  if next <? Z.of_nat (length (matching params m)) then pretty next else "".

Definition list_tasks (id params : Value) (d : Dialect) (mid : string) (s : Server) : Value :=
  let m := sv_tasks s in
  rpc_result id
    (JObject [("tasks", JArray (map (fun t => task_json mid t d) (page params m)));
              ("nextPageToken", JString (next_token params m));
              ("pageSize", JInt (Z.of_nat (page_size params)));
              ("totalSize", JInt (Z.of_nat (length (matching params m))))]).

(** ** Cancelling *)

(** The first half of [cancel_task]: what was read decides the answer.  The
    second half writes what the first read. *)
Definition cancel_read (id params : Value) (d : Dialect) (s : Server) : Value + (string * WireTask) :=
  let task_id := task_id_param params in
  match bt_get task_id (tm_entries (sv_tasks s)) with
  | None => inl (no_task id task_id)
  | Some e =>
      let current := te_snapshot e in
      if state_settled (w_state current) then
        inl (rpc_error id TASK_NOT_CANCELABLE ("the task is already " +:+ state_render (w_state current) d))
      else inr (task_id, current)
  end.

Definition cancelled (now : string) (t : WireTask) : WireTask :=
  {| w_id := w_id t; w_context_id := w_context_id t; w_state := Canceled;
     w_status_text := Some "cancelled at the caller's request"; w_timestamp := Some now;
     w_artifacts := w_artifacts t |}.

Definition abort (r : TaskRun) : TaskRun :=
  {| r_phase := r_phase r; r_handle := r_handle r; r_aborted := r_aborted r || r_handle r |}.

(** The watched value is replaced; the subscribers are told. *)
Definition replaced (t : WireTask) (e : TaskEntry) : TaskEntry :=
  {| te_snapshot := t; te_updates := te_updates e; te_run := te_run e |}.

Definition told (t : WireTask) (e : TaskEntry) : TaskEntry :=
  {| te_snapshot := te_snapshot e; te_updates := (te_updates e ++ [UStatus t])%list; te_run := te_run e |}.

Definition with_run (r : TaskRun) (e : TaskEntry) : TaskEntry :=
  {| te_snapshot := te_snapshot e; te_updates := te_updates e; te_run := Some r |}.

Definition update_entry (id : string) (f : TaskEntry -> TaskEntry) (s : Server) : Server :=
  with_tasks {| tm_entries := bt_alter f id (tm_entries (sv_tasks s)); tm_order := tm_order (sv_tasks s) |} s.

Definition cancel_abort (task_id : string) (s : Server) : Server :=
  update_entry task_id (fun e => match te_run e with Some r => with_run (abort r) e | None => e end) s.

(** ** Runs ([drive]) *)

Definition in_phase (p : Phase) (r : TaskRun) : TaskRun :=
  {| r_phase := p; r_handle := r_handle r; r_aborted := r_aborted r |}.

(** [set], in sections: change the task and date it; read it back; save what was
    read; tell the subscribers. *)
Definition dated (now : string) (t : WireTask) : WireTask :=
  {| w_id := w_id t; w_context_id := w_context_id t; w_state := w_state t;
     w_status_text := w_status_text t; w_timestamp := Some now; w_artifacts := w_artifacts t |}.

Definition at_phase (p : Phase) (e : TaskEntry) : TaskEntry :=
  match te_run e with Some r => with_run (in_phase p r) e | None => e end.

Definition set_change (now : string) (change : WireTask -> WireTask) (last : bool) (e : TaskEntry) : TaskEntry :=
  at_phase (PWriting WRead last) (replaced (dated now (change (te_snapshot e))) e).
Definition set_read (last : bool) (e : TaskEntry) : TaskEntry :=
  at_phase (PWriting (WSave (te_snapshot e)) last) e.
Definition set_saved (t : WireTask) (last : bool) : TaskEntry -> TaskEntry := at_phase (PWriting (WTell t) last).
Definition set_tell (t : WireTask) (last : bool) (e : TaskEntry) : TaskEntry :=
  at_phase (if last then PEnded else PDriving) (told t e).

Definition working (t : WireTask) : WireTask :=
  {| w_id := w_id t; w_context_id := w_context_id t; w_state := Working; w_status_text := w_status_text t;
     w_timestamp := w_timestamp t; w_artifacts := w_artifacts t |}.

(** What a session that ended is reported as. *)
Definition transcript (g : TaskGraph) : string :=
  str_join PARAGRAPH
    (omap (fun t => (fun o => "## " +:+ sp_description (t_spec t) +:+ NL +:+ oc_output o)
                      <$> successful_outcome t) (graph_iter g)).

Definition concluded (result : Result SessionResult) (t : WireTask) : WireTask :=
  match result with
  | Ok r =>
      {| w_id := w_id t; w_context_id := w_context_id t;
         w_state := if sr_success r then A2aWire.Completed else TSFailed;
         w_status_text := Some (sr_summary r); w_timestamp := w_timestamp t;
         w_artifacts := let text := transcript (sr_graph r) in
                        if bool_decide (text = "") then [] else [("result", text)] |}
  | Err e =>
      {| w_id := w_id t; w_context_id := w_context_id t; w_state := TSFailed;
         w_status_text := Some (error_display e); w_timestamp := w_timestamp t;
         w_artifacts := w_artifacts t |}
  end.

Definition chunk (text : string) (e : TaskEntry) : TaskEntry :=
  {| te_snapshot := te_snapshot e; te_updates := (te_updates e ++ [UChunk text])%list; te_run := te_run e |}.

(** ** Streams *)

(** A subscriber: where it is in the updates, the snapshot it begins with. *)
Record TaskStream := {
  ts_request_id : Value;
  ts_task : string;
  ts_dialect : Dialect;
  ts_first : option WireTask;
  ts_position : nat;
  ts_done : bool;
}.

Inductive Reply : Type :=
  | RJson (v : Value)
  | RStream (t : TaskStream).

(** [subscribe]. *)
Definition subscribe (id : Value) (task_id : string) (d : Dialect) (fresh : bool) (s : Server) : Reply :=
  match bt_get task_id (tm_entries (sv_tasks s)) with
  | None => RJson (no_task id task_id)
  | Some e =>
      let current := te_snapshot e in
      if negb fresh && state_is_terminal (w_state current) then
        RJson (rpc_error id UNSUPPORTED_OPERATION "the task has finished; use GetTask to read its result")
      else RStream {| ts_request_id := id; ts_task := task_id; ts_dialect := d; ts_first := Some current;
                      ts_position := length (te_updates e); ts_done := false |}
  end.

(** [TaskStream::next]: [None] when it has to wait.  A subscriber more than the
    channel's capacity behind has lost updates and is given the snapshot. *)
Definition moved (t : TaskStream) (position : nat) (done : bool) : TaskStream :=
  {| ts_request_id := ts_request_id t; ts_task := ts_task t; ts_dialect := ts_dialect t; ts_first := None;
     ts_position := position; ts_done := done |}.

Definition stream_next (mid : string) (e : TaskEntry) (t : TaskStream) : option (option Value * TaskStream) :=
  let envelope v := Some (rpc_result (ts_request_id t) v) in
  if ts_done t then Some (None, t)
  else match ts_first t with
       | Some task => Some (envelope (task_event_json mid task (ts_dialect t)),
                            moved t (ts_position t) (state_settled (w_state task)))
       | None =>
           let sent := length (te_updates e) in
           if (UPDATES_CAPACITY <? sent - ts_position t)%nat then
             Some (envelope (task_event_json mid (te_snapshot e) (ts_dialect t)),
                   moved t (sent - UPDATES_CAPACITY)%nat (settled_entry e))
           else match te_updates e !! ts_position t with
                | None => None
                | Some (UChunk text) =>
                    Some (envelope (artifact_event_json (te_snapshot e) "stream" text (ts_dialect t)),
                          moved t (S (ts_position t)) false)
                | Some (UStatus task) =>
                    Some (envelope (status_event_json mid task (ts_dialect t)),
                          moved t (S (ts_position t)) (state_settled (w_state task)))
                end
       end.

(** ** Calls *)

(** What a call is answered with: a reply, or the send result of a task once it
    is settled (or at once when asked so). *)
Inductive Answer : Type :=
  | AReply (r : Reply)
  | AWait (id : Value) (task_id : string) (d : Dialect) (immediate : bool).

Definition return_immediately (d : Dialect) (params : Value) : bool :=
  match d with
  | V1 => match pointer ["configuration"; "returnImmediately"] params with
          | Some v => match as_bool v with Some b => b | None => false end
          | None => false
          end
  | Legacy => match pointer ["configuration"; "blocking"] params with
              | Some v => match as_bool v with Some b => negb b | None => false end
              | None => false
              end
  end.

(** The answer of [send_message] on the task's snapshot. *)
Definition send_answer (id : Value) (d : Dialect) (mid : string) (immediate : bool) (e : TaskEntry) : option Value :=
  if immediate || settled_entry e then Some (rpc_result id (send_result_json mid (te_snapshot e) d)) else None.

(** [cancel_task], when no run does anything in between. *)
Definition cancel_task (id params : Value) (d : Dialect) (mid now : string) (s : Server) : Server * Value :=
  match cancel_read id params d s with
  | inl v => (s, v)
  | inr (task_id, current) =>
      let t := cancelled now current in
      let s := update_entry task_id (replaced t) (cancel_abort task_id s) in
      (stored [save_call mid t] (update_entry task_id (told t) s), rpc_result id (task_json mid t d))
  end.

(** [handle].  The request is what [serde_json] made of the body. *)
Definition handle (request : result JsonRpcRequest string) (task_id fresh_context mid now : string) (s : Server)
  : Server * Answer :=
  match request with
  | Err e => (s, AReply (RJson (rpc_error JNull PARSE_ERROR ("parse error: " +:+ e))))
  | Ok rq =>
      let d := if A2aWire.is_legacy (jrq_method rq) then Legacy else V1 in
      let id := jrq_id rq in
      let params := jrq_params rq in
      let method := A2aWire.canonical (jrq_method rq) in
      if bool_decide (method = SEND_MESSAGE) then
        match start_saved params task_id fresh_context mid now s with
        | (s, inl tid) => (s, AWait id tid d (return_immediately d params))
        | (s, inr (code, message)) => (s, AReply (RJson (rpc_error id code message)))
        end
      else if bool_decide (method = SEND_STREAMING_MESSAGE) then
        match start_saved params task_id fresh_context mid now s with
        | (s, inl tid) => (s, AReply (subscribe id tid d true s))
        | (s, inr (code, message)) => (s, AReply (RJson (rpc_error id code message)))
        end
      else if bool_decide (method = GET_TASK) then (s, AReply (RJson (get_task id params d mid s)))
      else if bool_decide (method = LIST_TASKS) then (s, AReply (RJson (list_tasks id params d mid s)))
      else if bool_decide (method = CANCEL_TASK) then
        let '(s, v) := cancel_task id params d mid now s in (s, AReply (RJson v))
      else if bool_decide (method = SUBSCRIBE_TO_TASK) then
        (s, AReply (subscribe id (task_id_param params) d false s))
      else if bool_decide (method = GET_EXTENDED_AGENT_CARD)
              || bool_decide (method = "agent/getAuthenticatedExtendedCard") then
        (s, AReply (RJson (rpc_error id EXTENDED_CARD_NOT_CONFIGURED "CUMA publishes no extended Agent Card")))
      else if str_contains method "PushNotification" || str_contains method "pushNotification" then
        (s, AReply (RJson (rpc_error id PUSH_NOTIFICATION_NOT_SUPPORTED
           "push notifications are not supported; poll GetTask or stream instead")))
      else (s, AReply (RJson (rpc_error id METHOD_NOT_FOUND ("unknown method " +:+ debug_str method))))
  end.

(** [handle_json]: a stream is answered with its first event. *)
Definition first_event (mid : string) (s : Server) (t : TaskStream) : Value :=
  match bt_get (ts_task t) (tm_entries (sv_tasks s)) with
  | Some e => match stream_next mid e t with Some (Some v, _) => v | _ => JNull end
  | None => JNull
  end.

(** The route of [router]: unauthorized calls are not even parsed. *)
Definition route_call (authorization : option string) (request : result JsonRpcRequest string)
    (task_id fresh_context mid now : string) (s : Server) : Server * option Answer :=
  if is_authorized (sv_tokens s) authorization then
    let '(s, a) := handle request task_id fresh_context mid now s in (s, Some a)
  else (s, None).

(** ** Interleavings *)

(** How far a cancellation is: the task read, its run aborted, the task
    replaced, the subscribers told; what is left then is to save it. *)
Inductive CancelStage : Type := CRead | CAborted | CReplaced | CTold.

(** The server; the cancellation under way, which holds the lock, with the task
    as it read it and then as it wrote it; the records that were evicted while
    their runs can still write to them. *)
Record World := {
  wd_server : Server;
  wd_cancel : option (string * WireTask * CancelStage);
  wd_orphans : btree string TaskEntry;
}.

Definition world_new (s : Server) : World := {| wd_server := s; wd_cancel := None; wd_orphans := [] |}.

(** The entry a run writes to. *)
Definition channel_of (id : string) (w : World) : option TaskEntry :=
  match bt_get id (tm_entries (sv_tasks (wd_server w))) with
  | Some e => Some e
  | None => bt_get id (wd_orphans w)
  end.

Definition run_of (id : string) (w : World) : option TaskRun :=
  match channel_of id w with Some e => te_run e | None => None end.

Definition on_channel (id : string) (f : TaskEntry -> TaskEntry) (w : World) : World :=
  {| wd_server := update_entry id f (wd_server w); wd_cancel := wd_cancel w;
     wd_orphans := bt_alter f id (wd_orphans w) |}.

Definition on_run (id : string) (f : TaskRun -> TaskRun) : World -> World :=
  on_channel id (fun e => match te_run e with Some r => with_run (f r) e | None => e end).

Definition on_server (f : Server -> Server) (w : World) : World :=
  {| wd_server := f (wd_server w); wd_cancel := wd_cancel w; wd_orphans := wd_orphans w |}.

Definition with_cancel (c : option (string * WireTask * CancelStage)) (w : World) : World :=
  {| wd_server := wd_server w; wd_cancel := c; wd_orphans := wd_orphans w |}.

(** [persist]. *)
Definition persisted (mid : string) (t : WireTask) : World -> World := on_server (stored [save_call mid t]).

(** The records a call took off the map. *)
Definition taken (m m' : TaskMap) : btree string TaskEntry :=
  List.filter (fun p => negb (bt_contains_key p.1 (tm_entries m'))) (tm_entries m).

Definition given_handle (r : TaskRun) : TaskRun :=
  {| r_phase := r_phase r; r_handle := true; r_aborted := r_aborted r |}.

(** An aborted run goes on until it next waits; one that waits is dropped. *)
Inductive step : World -> World -> Prop :=
  | step_start w params tid fresh now s' :
      wd_cancel w = None -> channel_of tid w = None -> tid ∉ tm_order (sv_tasks (wd_server w)) ->
      start params tid fresh now (wd_server w) = (s', inl tid) ->
      step w {| wd_server := s'; wd_cancel := None;
                wd_orphans := (taken (sv_tasks (wd_server w)) (sv_tasks s') ++ wd_orphans w)%list |}
  | step_first_save w id e r mid :
      channel_of id w = Some e -> te_run e = Some r -> r_phase r = PNew ->
      step w (on_run id (in_phase PSaved) (on_server (first_save mid e) w))
  | step_spawn w id r :
      run_of id w = Some r -> r_phase r = PSaved -> step w (on_run id (in_phase PSpawned) w)
  | step_handle w id e r :
      wd_cancel w = None -> bt_get id (tm_entries (sv_tasks (wd_server w))) = Some e -> te_run e = Some r ->
      r_phase r <> PNew -> r_phase r <> PSaved ->
      step w (on_run id given_handle w)
  | step_poll w id r :
      run_of id w = Some r -> r_phase r = PSpawned -> r_aborted r = false ->
      step w (on_run id (in_phase PEntered) w)
  | step_working w id r now :
      run_of id w = Some r -> r_phase r = PEntered -> step w (on_channel id (set_change now working false) w)
  | step_read w id r last :
      run_of id w = Some r -> r_phase r = PWriting WRead last -> step w (on_channel id (set_read last) w)
  | step_save w id r t last mid :
      run_of id w = Some r -> r_phase r = PWriting (WSave t) last ->
      step w (on_channel id (set_saved t last) (persisted mid t w))
  | step_tell w id r t last :
      run_of id w = Some r -> r_phase r = PWriting (WTell t) last -> step w (on_channel id (set_tell t last) w)
  | step_chunk w id r text :
      run_of id w = Some r -> r_phase r = PDriving \/ (exists result, r_phase r = PReturned result) ->
      step w (on_channel id (chunk text) w)
  | step_return w id r result :
      run_of id w = Some r -> r_phase r = PDriving -> step w (on_run id (in_phase (PReturned result)) w)
  | step_drop w id r :
      run_of id w = Some r -> r_phase r = PSpawned \/ r_phase r = PDriving -> r_aborted r = true ->
      step w (on_run id (in_phase PDropped) w)
  | step_conclude w id r result now :
      run_of id w = Some r -> r_phase r = PReturned result ->
      step w (on_channel id (set_change now (concluded result) true) w)
  | step_cancel_read w rid params d tid current :
      wd_cancel w = None -> cancel_read rid params d (wd_server w) = inr (tid, current) ->
      step w (with_cancel (Some (tid, current, CRead)) w)
  | step_cancel_abort w tid current :
      wd_cancel w = Some (tid, current, CRead) ->
      step w (with_cancel (Some (tid, current, CAborted)) (on_server (cancel_abort tid) w))
  | step_cancel_replace w tid current now :
      wd_cancel w = Some (tid, current, CAborted) ->
      step w (with_cancel (Some (tid, cancelled now current, CReplaced))
                (on_server (update_entry tid (replaced (cancelled now current))) w))
  | step_cancel_tell w tid t :
      wd_cancel w = Some (tid, t, CReplaced) ->
      step w (with_cancel (Some (tid, t, CTold)) (on_server (update_entry tid (told t)) w))
  | step_cancel_save w tid t mid :
      wd_cancel w = Some (tid, t, CTold) -> step w (with_cancel None (persisted mid t w)).
