(* ===== verification/A2aStream.v ===== *)
(** * Event streams from a peer ([cuma-protocol-a2a/src/client.rs])

    How the client cuts a byte stream into event payloads, what it makes of
    each event, and the failure a final state stands for. *)

From S2P Require Export A2aWire Errors.
Open Scope string_scope.
Open Scope Z_scope.

(** ** Decoding *)

(** [String::from_utf8]. *)
Definition from_utf8 (bs : list Z) : option string :=
  if utf8_valid (bytes_of_list bs) then Some (bytes_of_list bs) else None.

(** ** Events *)

(** [replace("\r\n", "\n")], then [replace('\r', "\n")]. *)
Fixpoint crlf_to_lf (s : string) : string :=
  match s with
  | EmptyString => EmptyString
  | String a s' =>
      match s' with
      | String b s'' =>
          if bool_decide (a = CR) && bool_decide (b = LF) then String LF (crlf_to_lf s'')
          else String a (crlf_to_lf s')
      | EmptyString => s
      end
  end.

Definition normalised (s : string) : string := replace_char CR LF (crlf_to_lf s).

(** The text up to and with the first empty line, and the rest. *)
Fixpoint take_block (s : string) : option (string * string) :=
  match s with
  | EmptyString => None
  | String a s' =>
      match s' with
      | String b rest =>
          if bool_decide (a = LF) && bool_decide (b = LF) then Some (NL +:+ NL, rest)
          else match take_block s' with
               | Some (block, rest) => Some (String a block, rest)
               | None => None
               end
      | EmptyString => None
      end
  end.

(** The data lines of a block. *)
Definition data_line (line : string) : option string :=
  (fun d => match Text.strip_prefix d " " with Some d' => d' | None => d end) <$> Text.strip_prefix line "data:".

Definition block_data (block : string) : option string :=
  match omap data_line (lines block) with
  | [] => None
  | data => Some (str_join NL data)
  end.

Fixpoint drain (fuel : nat) (buffer : string) : string * list string :=
  match fuel with
  | O => (buffer, [])
  | S fuel' =>
      match take_block buffer with
      | None => (buffer, [])
      | Some (block, rest) =>
          let '(buffer, events) := drain fuel' rest in
          (buffer, match block_data block with Some d => d :: events | None => events end)
      end
  end.

(** [SseReader::feed]: a block is two bytes at least, so the length of the
    buffer is fuel enough. *)
Definition feed (buffer : string) (chunk : list Z) : string * list string :=
  let buffer := normalised (buffer +:+ from_utf8_lossy (bytes_of_list chunk)) in
  drain (String.length buffer) buffer.

(** ** Following *)

Record StreamFollower := {
  sf_task_id : option string;
  sf_context_id : string;
  sf_state : option TaskState;
  sf_status_text : option string;
  sf_artifact_text : string;
  sf_message : option string;
}.

Definition follower_default : StreamFollower :=
  {| sf_task_id := None; sf_context_id := ""; sf_state := None; sf_status_text := None;
     sf_artifact_text := ""; sf_message := None |}.

(** [first.or(second)] on what an event states. *)
Definition stated (new old : option string) : option string := match new with Some _ => new | None => old end.

(** [StreamFollower::apply]. *)
Definition apply_event (event : StreamEvent) (f : StreamFollower) : StreamFollower * option string :=
  match event with
  | SEMessage text =>
      ({| sf_task_id := sf_task_id f; sf_context_id := sf_context_id f; sf_state := sf_state f;
          sf_status_text := sf_status_text f; sf_artifact_text := sf_artifact_text f;
          sf_message := Some text |}, Some text)
  | SETask t =>
      ({| sf_task_id := Some (w_id t); sf_context_id := w_context_id t; sf_state := Some (w_state t);
          sf_status_text := stated (w_status_text t) (sf_status_text f);
          sf_artifact_text := match map snd (w_artifacts t) with
                              | [] => sf_artifact_text f
                              | texts => str_join PARAGRAPH texts
                              end;
          sf_message := sf_message f |}, None)
  | SEStatus state text =>
      ({| sf_task_id := sf_task_id f; sf_context_id := sf_context_id f; sf_state := Some state;
          sf_status_text := stated text (sf_status_text f);
          sf_artifact_text := sf_artifact_text f; sf_message := sf_message f |}, text)
  | SEArtifact text =>
      let sep := if negb (bool_decide (sf_artifact_text f = "")) && negb (bool_decide (text = ""))
                 then NL else "" in
      ({| sf_task_id := sf_task_id f; sf_context_id := sf_context_id f; sf_state := sf_state f;
          sf_status_text := sf_status_text f;
          sf_artifact_text := sf_artifact_text f +:+ sep +:+ text; sf_message := sf_message f |},
       non_empty text)
  end.

(** [StreamFollower::finished], [into_task]. *)
Definition follower_finished (f : StreamFollower) : bool :=
  match sf_message f with
  | Some _ => true
  | None => match sf_state f with Some s => state_settled s | None => false end
  end.

Definition into_task (f : StreamFollower) : WireTask :=
  {| w_id := match sf_task_id f with Some id => id | None => "" end;
     w_context_id := sf_context_id f;
     w_state := match sf_state f with Some s => s | None => TSUnknown end;
     w_status_text := sf_status_text f; w_timestamp := None;
     w_artifacts := if bool_decide (sf_artifact_text f = "") then [] else [("stream", sf_artifact_text f)] |}.

(** ** Outcomes *)

(** [Settled]. *)
Inductive Settled : Type :=
  | SMessage (text : string)
  | STask (t : WireTask).

(** [{:?}] of a state. *)
Definition state_debug (s : TaskState) : string :=
  match s with
  | Submitted => "Submitted" | Working => "Working" | Completed => "Completed" | TSFailed => "Failed"
  | Canceled => "Canceled" | InputRequired => "InputRequired" | Rejected => "Rejected"
  | AuthRequired => "AuthRequired" | TSUnknown => "Unknown"
  end.

Definition excerpt (output : string) : string :=
  let e := of_chars (take 300 (chars output)) in
  if bool_decide (e = "") then "" else ": " +:+ e.

(** [failure_for]. *)
Definition failure_for (state : TaskState) (output : string) : option (ErrorClass * string) :=
  match state with
  | Completed => None
  | Canceled => Some (Cancelled, "the remote task was cancelled")
  | AuthRequired => Some (AuthenticationFailure, "the remote agent requires authentication" +:+ excerpt output)
  | InputRequired => Some (TaskFailure, "the remote agent stopped to ask for input" +:+ excerpt output)
  | Rejected => Some (TaskFailure, "the remote agent rejected the task" +:+ excerpt output)
  | TSFailed => Some (TaskFailure, "the remote task failed" +:+ excerpt output)
  | Submitted | Working | TSUnknown =>
      Some (InvalidResponse, "the remote task ended without settling (state " +:+ state_debug state +:+ ")")
  end.

(** What comes out of an attempt: the text, and the failure it stands for. *)
Definition settled_output (s : Settled) : string :=
  match s with SMessage text => text | STask t => task_text t end.
Definition settled_failure (s : Settled) : option (ErrorClass * string) :=
  match s with SMessage _ => None | STask t => failure_for (w_state t) (task_text t) end.
