(* ===== verification/A2aClient.v ===== *)
(** * Reaching a remote agent over A2A ([cuma-protocol-a2a/src/client.rs])

    The calls of the adapter, an attempt from the message to the outcome, what
    is cancelled when it is abandoned, and discovery.  The peer is an argument:
    what it answers to each request, how long that takes, and how the answer's
    text reads.  One attempt runs at a time; time is in milliseconds. *)

From S2P Require Export A2aCard A2aStream Ports ConfigLoad.
Open Scope string_scope.
Open Scope Z_scope.

Definition MAX_RESPONSE_BYTES : Z := 8 * 1024 * 1024.
Definition POLL_INITIAL : Z := 250.
Definition POLL_MAX : Z := 5000.
Definition SHORT_CALL : Z := 30000.

(** ** Envelopes *)

Record JsonRpcError := {
  je_code : Z;
  je_message : string;
}.

Record JsonRpcResponse := {
  jp_result : option Value;
  jp_error : option JsonRpcError;
}.

(** [JsonRpcError::class]. *)
Definition rpc_class (e : JsonRpcError) : ErrorClass :=
  let code := je_code e in
  if contains [PARSE_ERROR; INVALID_REQUEST; METHOD_NOT_FOUND; INVALID_PARAMS; UNSUPPORTED_OPERATION] code
  then ProtocolError
  else if contains [INTERNAL_ERROR; TASK_NOT_FOUND] code then TaskFailure
  else if code =? -32006 then InvalidResponse
  else Unknown.

Inductive CallError : Type :=
  | CRpc (e : JsonRpcError)
  | COther (e : MetaAgentError).

(** [parse_envelope], from what serde made of the body. *)
Definition parse_envelope (method : string) (envelope : result JsonRpcResponse string) : result Value CallError :=
  match envelope with
  | Err err => Err (COther (EProtocol "a2a" (method +:+ " returned invalid JSON-RPC: " +:+ err)))
  | Ok r =>
      match jp_error r, jp_result r with
      | Some e, _ => Err (CRpc e)
      | None, Some v => Ok v
      | None, None => Err (COther (EProtocol "a2a" (method +:+ " returned neither result nor error")))
      end
  end.

(** [wire_name], [send_params], [relegacy_params]. *)
Definition wire_name (method : string) (d : Dialect) : string :=
  match d with
  | V1 => method
  | Legacy => match legacy_name method with Some l => l | None => method end
  end.

Definition send_params (mid prompt : string) (d : Dialect) : Value :=
  JObject [("message", message_json mid prompt "user" d);
           ("configuration",
            JObject [("acceptedOutputModes", JArray [JString "text/plain"]);
                     match d with
                     | V1 => ("returnImmediately", JBool false)
                     | Legacy => ("blocking", JBool true)
                     end])].

Definition relegacy_params (mid method : string) (params : Value) : Value :=
  if bool_decide (method = SEND_MESSAGE) || bool_decide (method = SEND_STREAMING_MESSAGE) then
    send_params mid (parts_text (pointer ["message"; "parts"] params)) Legacy
  else params.

(** ** Endpoints *)

Fixpoint before_char (c : ascii) (s : string) : string :=
  match s with
  | EmptyString => EmptyString
  | String a s' => if bool_decide (a = c) then EmptyString else String a (before_char c s')
  end.

(** [is_local_endpoint], [ensure_acceptable_endpoint]. *)
Definition is_local_endpoint (endpoint : string) : bool :=
  match Text.strip_prefix endpoint "http://" with
  | None => false
  | Some rest =>
      let authority := before_char (of_byte 47) rest in
      let host := match Text.strip_prefix authority "[" with
                  | Some bracketed => before_char (of_byte 93) bracketed
                  | None => before_char (of_byte 58) authority
                  end in
      contains ["localhost"; "127.0.0.1"; "::1"] host
  end.

Definition acceptable_endpoint (endpoint : string) : bool :=
  starts_with endpoint "https://" || is_local_endpoint endpoint.

Definition ensure_acceptable_endpoint (id : AgentId) (endpoint : string) : Result unit :=
  if acceptable_endpoint endpoint then Ok tt
  else Err (ESecurity ("agent " +:+ id +:+ ": refusing a non-HTTPS A2A endpoint " +:+ debug_str endpoint)).

(** ** The peer and the wire *)

(** What is sent: a call, or the fetch of a card. *)
Inductive Request : Type :=
  | Post (url method : string) (params : Value) (timeout : option Z) (streaming : bool) (token : option string)
  | Get (url : string) (token : option string).

Definition request_url (r : Request) : string := match r with Post url _ _ _ _ _ => url | Get url _ => url end.

(** What comes back: the status, the headers read, and the body in pieces, each
    with the time it takes to come and the error that ends it early. *)
Record HttpResponse := {
  ht_status : Z;
  ht_retry_after : option string;
  ht_content_type : option string;
  ht_content_length : option Z;
  ht_body : list (Z * result (list Z) string);
}.

Inductive HttpError : Type :=
  | HTimeout (text : string)
  | HConnect (text : string)
  | HFailed (text : string).

Definition http_error_display (e : HttpError) : string :=
  match e with HTimeout t => t | HConnect t => t | HFailed t => t end.

(** [Peer]. *)
Record Peer := {
  pr_url : string;
  pr_dialect : Dialect;
  pr_streaming : bool;
}.

(** [A2aAdapter]: what does not change. *)
Record Adapter := {
  ad_id : AgentId;
  ad_endpoint : string;
  ad_auth_handle : option string;
}.

(** The adapter's peer and descriptor, the other end [S], the clock and the
    attempt's deadline, what was forwarded, the task the guard would cancel, and
    everything sent. *)
Record Client (S : Type) := {
  cl_other : S;
  cl_peer : Peer;
  cl_descriptor : AgentDescriptor;
  cl_now : Z;
  cl_deadline : option Z;
  cl_forwarded : list string;
  cl_guard : option string;
  cl_sent : list Request;
}.
Arguments cl_other {S} _.
Arguments cl_peer {S} _.
Arguments cl_descriptor {S} _.
Arguments cl_now {S} _.
Arguments cl_deadline {S} _.
Arguments cl_forwarded {S} _.
Arguments cl_guard {S} _.
Arguments cl_sent {S} _.

(** How a computation ends: with a value, at the deadline, or out of fuel. *)
Inductive Ended (A : Type) : Type :=
  | Came (a : A)
  | Elapsed
  | NoFuel.
Arguments Came {A} a.
Arguments Elapsed {A}.
Arguments NoFuel {A}.

(** What the adapter relies on: the other end, reading its JSON, the text of a
    status, the card's location at the root of the origin, the environment's
    variables, fresh message ids. *)
Record Remote (S : Type) := {
  rm_send : S -> Request -> S * Z * result HttpResponse HttpError;
  rm_envelope : string -> result JsonRpcResponse string;
  rm_card : string -> result AgentCard string;
  rm_status : Z -> string;
  rm_root : string -> option string;
  rm_env : string -> option string;
  rm_uuid : nat -> string;
}.
Arguments rm_send {S} _ _ _.
Arguments rm_envelope {S} _ _.
Arguments rm_card {S} _ _.
Arguments rm_status {S} _ _.
Arguments rm_root {S} _ _.
Arguments rm_env {S} _ _.
Arguments rm_uuid {S} _ _.

(** ** Computations *)

Section Monad.
  Context {S : Type}.

Definition CM (A : Type) : Type := Client S -> Client S * Ended A.

Definition c_ret {A} (a : A) : CM A := fun c => (c, Came a).

Definition c_bind {A B} (m : CM A) (f : A -> CM B) : CM B :=
  fun c => match m c with
           | (c, Came a) => f a c
           | (c, Elapsed) => (c, Elapsed)
           | (c, NoFuel) => (c, NoFuel)
           end.

(** [?] on a result. *)
Definition c_try {A B E} (m : CM (result A E)) (f : A -> CM (result B E)) : CM (result B E) :=
  c_bind m (fun r => match r with Ok a => f a | Err e => c_ret (Err e) end).

Definition at_time (now : Z) (c : Client S) : Client S :=
  {| cl_other := cl_other c; cl_peer := cl_peer c; cl_descriptor := cl_descriptor c; cl_now := now;
     cl_deadline := cl_deadline c; cl_forwarded := cl_forwarded c; cl_guard := cl_guard c; cl_sent := cl_sent c |}.

(** Waiting, until the deadline at the latest. *)
Definition wait (d : Z) : CM unit :=
  fun c =>
    match cl_deadline c with
    | Some t => if t <? cl_now c + d then (at_time t c, Elapsed) else (at_time (cl_now c + d) c, Came tt)
    | None => (at_time (cl_now c + d) c, Came tt)
    end.

Definition set_peer (f : Peer -> Peer) : CM unit :=
  fun c => ({| cl_other := cl_other c; cl_peer := f (cl_peer c); cl_descriptor := cl_descriptor c;
               cl_now := cl_now c; cl_deadline := cl_deadline c; cl_forwarded := cl_forwarded c;
               cl_guard := cl_guard c; cl_sent := cl_sent c |}, Came tt).

Definition get_peer : CM Peer := fun c => (c, Came (cl_peer c)).

Definition in_dialect (d : Dialect) (p : Peer) : Peer :=
  {| pr_url := pr_url p; pr_dialect := d; pr_streaming := pr_streaming p |}.
Definition set_streaming (b : bool) (p : Peer) : Peer :=
  {| pr_url := pr_url p; pr_dialect := pr_dialect p; pr_streaming := b |}.
Definition set_url (url : string) (p : Peer) : Peer :=
  {| pr_url := url; pr_dialect := pr_dialect p; pr_streaming := pr_streaming p |}.

(** [forward]: the receiver keeps up. *)
Definition forward (text : string) : CM unit :=
  fun c => (if bool_decide (trim text = "") then c
            else {| cl_other := cl_other c; cl_peer := cl_peer c; cl_descriptor := cl_descriptor c;
                    cl_now := cl_now c; cl_deadline := cl_deadline c;
                    cl_forwarded := (cl_forwarded c ++ [text])%list;
                    cl_guard := cl_guard c; cl_sent := cl_sent c |}, Came tt).

(** The guard learns of the task. *)
Definition guard_task (f : option string -> option string) : CM unit :=
  fun c => ({| cl_other := cl_other c; cl_peer := cl_peer c; cl_descriptor := cl_descriptor c;
               cl_now := cl_now c; cl_deadline := cl_deadline c; cl_forwarded := cl_forwarded c;
               cl_guard := f (cl_guard c); cl_sent := cl_sent c |}, Came tt).

End Monad.

Declare Scope a2a_scope.
Delimit Scope a2a_scope with a2a.

Notation "'let!' x := m 'in' k" := (c_bind m (fun x => k))
  (at level 10, x pattern, m at level 100, k at level 200) : a2a_scope.
Notation "'do!' m 'in' k" := (c_bind m (fun _ => k))
  (at level 10, m at level 100, k at level 200) : a2a_scope.
Notation "'try!' x := m 'in' k" := (c_try m (fun x => k))
  (at level 10, x pattern, m at level 100, k at level 200) : a2a_scope.
Open Scope a2a_scope.

(** ** The adapter *)

Section Calls.
  Context {S : Type} (rm : Remote S) (ad : Adapter).

(** [authorize]: the token of the configured handle, when there is one. *)
Definition token : option string :=
  match ad_auth_handle ad with Some handle => rm_env rm handle | None => None end.

Definition agent_error (message : string) (c : ErrorClass) : MetaAgentError := EAgent (ad_id ad) message c.
Definition a2a_error (message : string) : MetaAgentError := EProtocol "a2a" message.

(** Sending, and waiting for the answer. *)
Definition exchange (r : Request) : CM (S := S) (result HttpResponse HttpError) :=
  fun c =>
    let '(other, delay, answer) := rm_send rm (cl_other c) r in
    let c := {| cl_other := other; cl_peer := cl_peer c; cl_descriptor := cl_descriptor c; cl_now := cl_now c;
                cl_deadline := cl_deadline c; cl_forwarded := cl_forwarded c; cl_guard := cl_guard c;
                cl_sent := (cl_sent c ++ [r])%list |} in
    (do! wait delay in c_ret answer) c.

(** [oversized], [read_bounded]. *)
Definition oversized (n : Z) : MetaAgentError :=
  ESecurity ("agent " +:+ ad_id ad +:+ ": response of " +:+ pretty n +:+ " bytes exceeds the "
             +:+ pretty MAX_RESPONSE_BYTES +:+ " byte cap").

Fixpoint read_chunks (body : list (Z * result (list Z) string)) (acc : list Z) : CM (S := S) (Result (list Z)) :=
  match body with
  | [] => c_ret (Ok acc)
  | (delay, item) :: body' =>
      do! wait delay in
      match item with
      | Err err => c_ret (Err (a2a_error ("cannot read the response body: " +:+ err)))
      | Ok chunk =>
          let acc := (acc ++ chunk)%list in
          if MAX_RESPONSE_BYTES <? Z.of_nat (length acc) then c_ret (Err (oversized (Z.of_nat (length acc))))
          else read_chunks body' acc
      end
  end.

Definition read_bounded (r : HttpResponse) : CM (S := S) (Result string) :=
  match ht_content_length r with
  | Some n => if MAX_RESPONSE_BYTES <? n then c_ret (Err (oversized n))
              else try! bs := read_chunks (ht_body r) [] in
                   c_ret (match from_utf8 bs with
                          | Some s => Ok s
                          | None => Err (a2a_error "the response body is not valid UTF-8")
                          end)
  | None => try! bs := read_chunks (ht_body r) [] in
            c_ret (match from_utf8 bs with
                   | Some s => Ok s
                   | None => Err (a2a_error "the response body is not valid UTF-8")
                   end)
  end.

(** The statuses [post] lets through, and what it makes of the others. *)
Definition status_error (method : string) (r : HttpResponse) : option MetaAgentError :=
  let status := ht_status r in
  if status =? 429 then
    Some (ERateLimit (ad_id ad)
      ((fun secs => sat64 (secs * 1000)) <$>
         match ht_retry_after r with Some v => parse_unsigned U64_MAX v | None => None end))
  else if (status =? 401) || (status =? 403) then
    Some (EAuthentication (ad_id ad) (method +:+ " returned " +:+ rm_status rm status))
  else if negb ((200 <=? status) && (status <? 300)) then
    Some (a2a_error (method +:+ " returned HTTP " +:+ rm_status rm status))
  else None.

Definition transport_error (method : string) (e : HttpError) : MetaAgentError :=
  let class := match e with HTimeout _ => "timed out" | HConnect _ => "could not connect" | HFailed _ => "failed" end in
  a2a_error (method +:+ " " +:+ class +:+ ": " +:+ http_error_display e).

(** [post]. *)
Definition post (url method : string) (params : Value) (timeout : option Z) (streaming : bool)
  : CM (S := S) (result HttpResponse CallError) :=
  let! answer := exchange (Post url method params timeout streaming token) in
  c_ret (match answer with
         | Err err => Err (COther (transport_error method err))
         | Ok r => match status_error method r with Some e => Err (COther e) | None => Ok r end
         end).

Definition other {A} (r : Result A) : result A CallError :=
  match r with Ok a => Ok a | Err e => Err (COther e) end.

(** [call_raw]. *)
Definition call_raw (url method : string) (params : Value) (timeout : option Z) : CM (S := S) (result Value CallError) :=
  try! response := post url method params timeout false in
  let! body := read_bounded response in
  c_ret (match body with
         | Err e => Err (COther e)
         | Ok text => parse_envelope method (rm_envelope rm text)
         end).

(** [lift]. *)
Definition lift (method : string) (e : CallError) : MetaAgentError :=
  match e with
  | CRpc error =>
      agent_error (method +:+ ": " +:+ je_message error +:+ " (code " +:+ pretty (je_code error) +:+ ")")
                  (rpc_class error)
  | COther err => err
  end.

Definition lifted {A} (method : string) (r : result A CallError) : Result A :=
  match r with Ok a => Ok a | Err e => Err (lift method e) end.

(** Whether a failed call is tried again in the old dialect. *)
Definition unrecognised (method : string) (d : Dialect) (e : CallError) : bool :=
  match e with
  | CRpc error => (je_code error =? METHOD_NOT_FOUND) && bool_decide (d = V1)
                  && match legacy_name method with Some _ => true | None => false end
  | COther _ => false
  end.

Definition fresh_mid (c : Client S) : string := rm_uuid rm (length (cl_sent c)).
Definition mid : CM (S := S) string := fun c => (c, Came (fresh_mid c)).

(** [call]. *)
Definition call (method : string) (params : Value) (timeout : option Z) : CM (S := S) (Result Value) :=
  let! peer := get_peer in
  let name := wire_name method (pr_dialect peer) in
  let! answer := call_raw (pr_url peer) name params timeout in
  match answer with
  | Ok v => c_ret (Ok v)
  | Err e =>
      if unrecognised method (pr_dialect peer) e then
        do! set_peer (in_dialect Legacy) in
        let legacy := wire_name method Legacy in
        let! m := mid in
        let! answer := call_raw (pr_url peer) legacy (relegacy_params m method params) timeout in
        c_ret (lifted legacy answer)
      else c_ret (Err (lift name e))
  end.

(** ** Cards *)

(** [card_urls]. *)
Definition card_urls : list string :=
  let urls := match rm_root rm (ad_endpoint ad) with Some root => [root] | None => [] end in
  let under_path := trim_end_matches (fun c => c =? 47) (ad_endpoint ad) +:+ AGENT_CARD_PATH in
  if contains urls under_path then urls else (urls ++ [under_path])%list.

(** [fetch_card]: the first location that answers with success decides. *)
Fixpoint fetch_from (urls : list string) (last_error : option string) : CM (S := S) (Result AgentCard) :=
  match urls with
  | [] => c_ret (Err (a2a_error (match last_error with Some e => e | None => "no Agent Card location to try" end)))
  | url :: urls' =>
      let! answer := exchange (Get url token) in
      match answer with
      | Err err => fetch_from urls' (Some ("cannot fetch " +:+ url +:+ ": " +:+ http_error_display err))
      | Ok r =>
          if negb ((200 <=? ht_status r) && (ht_status r <? 300)) then
            fetch_from urls' (Some (url +:+ " returned " +:+ rm_status rm (ht_status r)))
          else
            try! body := read_bounded r in
            c_ret (match rm_card rm body with
                   | Ok card => Ok card
                   | Err err => Err (a2a_error (url +:+ " is not a valid Agent Card: " +:+ err))
                   end)
      end
  end.

Definition fetch_card : CM (S := S) (Result AgentCard) := fetch_from card_urls None.

(** [refresh_from_card]: what the card changes in the peer and the descriptor. *)
Definition peer_from_card (card : AgentCard) (p : Peer) : Peer :=
  let p := set_streaming (cc_streaming (card_capabilities card)) p in
  match jsonrpc_endpoint card with
  | None => p
  | Some (url, dialect) =>
      let p := in_dialect dialect p in
      match ensure_acceptable_endpoint (ad_id ad) url with
      | Ok _ => set_url url p
      | Err _ => p
      end
  end.

Definition with_agent_name (name : string) (a : AgentDescriptor) : AgentDescriptor :=
  {| a_id := a_id a; a_name := name; a_protocol := a_protocol a;
     a_capabilities := a_capabilities a; a_models := a_models a; a_health := a_health a;
     a_limits := a_limits a; a_cost_profile := a_cost_profile a;
     a_performance_profile := a_performance_profile a;
     a_auth := a_auth a; a_enabled := a_enabled a; a_metadata := a_metadata a |}.

Definition descriptor_from_card (card : AgentCard) (a : AgentDescriptor) : AgentDescriptor :=
  let md := bt_insert "endpoint" (ad_endpoint ad) (a_metadata a) in
  let md := match protocol_version card with Some v => bt_insert "a2a_version" v md | None => md end in
  let md := bt_insert "a2a_streaming"
              (if cc_streaming (card_capabilities card) then "true" else "false") md in
  with_metadata md
    (with_capabilities (bs_extend (a_capabilities a) (capabilities_from_card card))
       (with_agent_name (card_name card) a)).

Definition set_descriptor (f : AgentDescriptor -> AgentDescriptor) : CM (S := S) AgentDescriptor :=
  fun c => let d := f (cl_descriptor c) in
           ({| cl_other := cl_other c; cl_peer := cl_peer c; cl_descriptor := d; cl_now := cl_now c;
               cl_deadline := cl_deadline c; cl_forwarded := cl_forwarded c; cl_guard := cl_guard c;
               cl_sent := cl_sent c |}, Came d).

Definition refresh_from_card : CM (S := S) (Result AgentDescriptor) :=
  try! card := fetch_card in
  do! set_peer (peer_from_card card) in
  let! d := set_descriptor (descriptor_from_card card) in
  c_ret (Ok d).

(** ** An attempt *)

(** What a [GetTask] answer is read as: a task, bare or wrapped. *)
Definition polled_task (v : Value) : option WireTask :=
  match parse_task v with
  | Some t => Some t
  | None => match parse_send_result v with Some (SRTask t) => Some t | _ => None end
  end.

(** [poll_until_settled].  Each round waits 250 ms at least, and the deadline
    ends the last of them. *)
Fixpoint poll (fuel : nat) (t : WireTask) (delay : Z) : CM (S := S) (Result WireTask) :=
  if state_settled (w_state t) then c_ret (Ok t)
  else match fuel with
       | O => fun c => (c, NoFuel)
       | Datatypes.S fuel' =>
           do! wait delay in
           try! v := call GET_TASK (JObject [("id", JString (w_id t))]) (Some SHORT_CALL) in
           match polled_task v with
           | Some t' => poll fuel' t' (Z.min (delay * 2) POLL_MAX)
           | None => c_ret (Err (agent_error "GetTask returned something that is not a task" InvalidResponse))
           end
       end.

Definition poll_fuel (c : Client S) : nat :=
  match cl_deadline c with
  | Some t => Datatypes.S (Z.to_nat ((t - cl_now c) / POLL_INITIAL))
  | None => 0%nat
  end.

Definition poll_until_settled (t : WireTask) : CM (S := S) (Result WireTask) :=
  fun c => poll (poll_fuel c) t POLL_INITIAL c.

(** [run_blocking]. *)
Definition run_blocking (prompt : string) : CM (S := S) (Result Settled) :=
  let! peer := get_peer in
  let! m := mid in
  try! v := call SEND_MESSAGE (send_params m prompt (pr_dialect peer)) None in
  match parse_send_result v with
  | Some (SRMessage text) => do! forward text in c_ret (Ok (SMessage text))
  | Some (SRTask t) =>
      do! guard_task (fun _ => Some (w_id t)) in
      try! t := poll_until_settled t in
      do! forward (task_text t) in
      c_ret (Ok (STask t))
  | None => c_ret (Err (agent_error "SendMessage returned neither a task nor a message" InvalidResponse))
  end.

(** The events of one chunk: [true] once the follower has finished. *)
Fixpoint on_events (method : string) (datas : list string) (f : StreamFollower)
  : CM (S := S) (Result (bool * StreamFollower)) :=
  match datas with
  | [] => c_ret (Ok (false, f))
  | data :: datas' =>
      match parse_envelope method (rm_envelope rm data) with
      | Err e => c_ret (Err (lift method e))
      | Ok v =>
          match parse_stream_event v with
          | None => on_events method datas' f
          | Some event =>
              let '(f, text) := apply_event event f in
              do! (match text with Some text => forward text | None => c_ret tt end) in
              do! guard_task (fun known => match known with Some _ => known | None => sf_task_id f end) in
              if follower_finished f then c_ret (Ok (true, f)) else on_events method datas' f
          end
      end
  end.

Fixpoint follow (method : string) (body : list (Z * result (list Z) string)) (buffer : string)
    (f : StreamFollower) (received : Z) : CM (S := S) (Result StreamFollower) :=
  match body with
  | [] => c_ret (Ok f)
  | (delay, item) :: body' =>
      do! wait delay in
      match item with
      | Err err => c_ret (Err (agent_error ("the event stream broke: " +:+ err) ConnectionFailure))
      | Ok chunk =>
          let received := received + Z.of_nat (length chunk) in
          if MAX_RESPONSE_BYTES <? received then c_ret (Err (oversized received))
          else
            let '(buffer, datas) := feed buffer chunk in
            try! step := on_events method datas f in
            let '(finished, f) := step in
            if finished then c_ret (Ok f) else follow method body' buffer f received
      end
  end.

(** What a finished stream comes to. *)
Definition conclude_stream (f : StreamFollower) : CM (S := S) (Result (option Settled)) :=
  match sf_message f with
  | Some text => c_ret (Ok (Some (SMessage text)))
  | None =>
      let t := into_task f in
      if state_settled (w_state t) || bool_decide (w_id t = "") then c_ret (Ok (Some (STask t)))
      else try! t := poll_until_settled t in c_ret (Ok (Some (STask t)))
  end.

Definition is_sse (r : HttpResponse) : bool :=
  match ht_content_type r with Some v => starts_with v "text/event-stream" | None => false end.

(** The plain answer to a streaming call. *)
Definition refuses_streaming (e : CallError) : bool :=
  match e with
  | CRpc error => contains [METHOD_NOT_FOUND; UNSUPPORTED_OPERATION] (je_code error)
  | COther _ => false
  end.

Definition plain_answer (method : string) (r : HttpResponse) : CM (S := S) (Result (option Settled)) :=
  try! body := read_bounded r in
  match parse_envelope method (rm_envelope rm body) with
  | Err e =>
      if refuses_streaming e then do! set_peer (set_streaming false) in c_ret (Ok None)
      else c_ret (Err (lift method e))
  | Ok v =>
      match parse_stream_event v with
      | Some (SEMessage text) => do! forward text in c_ret (Ok (Some (SMessage text)))
      | Some (SETask t) =>
          do! guard_task (fun _ => Some (w_id t)) in
          try! t := poll_until_settled t in
          do! forward (task_text t) in
          c_ret (Ok (Some (STask t)))
      | _ => c_ret (Err (agent_error "a streaming call returned an unrecognised payload" InvalidResponse))
      end
  end.

(** [run_streaming]. *)
Definition run_streaming (prompt : string) : CM (S := S) (Result (option Settled)) :=
  let! peer := get_peer in
  let! m := mid in
  let method := wire_name SEND_STREAMING_MESSAGE (pr_dialect peer) in
  let! answer := post (pr_url peer) method (send_params m prompt (pr_dialect peer)) None true in
  match answer with
  | Err e => c_ret (Err (lift method e))
  | Ok r =>
      if is_sse r then try! f := follow method (ht_body r) "" follower_default 0 in conclude_stream f
      else plain_answer method r
  end.

(** The attempt of [execute]. *)
Definition attempt (streaming : bool) (prompt : string) : CM (S := S) (Result Settled) :=
  if streaming then
    try! settled := run_streaming prompt in
    match settled with
    | Some s => c_ret (Ok s)
    | None => run_blocking prompt
    end
  else run_blocking prompt.

(** [outcome]. *)
Definition outcome (request : ExecutionRequest) (s : Settled) (attempt_id : AttemptId) (latency_ms : Z)
  : ExecutionOutcome :=
  let output := settled_output s in
  let failure := settled_failure s in
  {| oc_attempt_id := attempt_id; oc_agent_id := ad_id ad; oc_model_id := er_model request;
     oc_success := match failure with Some _ => false | None => true end;
     oc_output := output; oc_changed_files := [];
     oc_tokens := estimate_from_text (er_prompt request) output; oc_latency_ms := latency_ms;
     oc_failure_class := fst <$> failure; oc_failure_reason := snd <$> failure;
     oc_reported_cost_usd := None |}.

(** Dropping the guard while it is armed: the request is sent, and nobody waits
    for its answer. *)
Definition cancel_request (task_id : string) (p : Peer) : Request :=
  Post (pr_url p) (wire_name CANCEL_TASK (pr_dialect p)) (JObject [("id", JString task_id)])
       (Some SHORT_CALL) false token.

Definition drop_guard (c : Client S) : Client S :=
  match cl_guard c with
  | None => c
  | Some id =>
      let r := cancel_request id (cl_peer c) in
      {| cl_other := (rm_send rm (cl_other c) r).1.1; cl_peer := cl_peer c; cl_descriptor := cl_descriptor c;
         cl_now := cl_now c; cl_deadline := cl_deadline c; cl_forwarded := cl_forwarded c; cl_guard := None;
         cl_sent := (cl_sent c ++ [r])%list |}
  end.

Definition begun (timeout_ms : Z) (c : Client S) : Client S :=
  {| cl_other := cl_other c; cl_peer := cl_peer c; cl_descriptor := cl_descriptor c; cl_now := cl_now c;
     cl_deadline := Some (cl_now c + Z.max timeout_ms 1); cl_forwarded := cl_forwarded c; cl_guard := None;
     cl_sent := cl_sent c |}.

Definition timed_out (timeout_ms : Z) : MetaAgentError :=
  agent_error ("no result within " +:+ pretty timeout_ms +:+ " ms") Timeout.

(** [execute].  [None] would be a polling that runs out of fuel. *)
Definition execute (request : ExecutionRequest) (attempt_id : AttemptId) (c : Client S)
  : Client S * option (Result ExecutionOutcome) :=
  match attempt (pr_streaming (cl_peer c)) (er_prompt request) (begun (er_timeout_ms request) c) with
  | (c', Came (Ok s)) => (c', Some (Ok (outcome request s attempt_id (cl_now c' - cl_now c))))
  | (c', Came (Err e)) => (drop_guard c', Some (Err e))
  | (c', Elapsed) => (drop_guard c', Some (Err (timed_out (er_timeout_ms request))))
  | (c', NoFuel) => (c', None)
  end.

(** [health_check]. *)
Definition health_check : CM (S := S) (Result unit) := try! _ := fetch_card in c_ret (Ok tt).

End Calls.

(** ** Discovery *)

(** [A2aAdapter::new]: [http] is what building the HTTP client says. *)
Definition adapter_new (http : result unit string) (id : AgentId) (endpoint : string) : Result (Adapter * Peer * AgentDescriptor) :=
  let? _ := ensure_acceptable_endpoint id endpoint in
  match http with
  | Err err => Err (EConfiguration ("cannot build an HTTP client: " +:+ err))
  | Ok _ => Ok ({| ad_id := id; ad_endpoint := endpoint; ad_auth_handle := None |},
                {| pr_url := endpoint; pr_dialect := V1; pr_streaming := false |},
                agent_new id id A2A)
  end.

(** [A2aDiscovery::adapters]. *)
Definition configured_adapter (http : result unit string) (entry : string * AgentConfig)
  : option (Adapter * Peer * AgentDescriptor) :=
  let '(id, cfg) := entry in
  if negb (ac_enabled cfg) || negb (eq_ignore_case (ac_protocol cfg) "a2a") then None
  else match ac_endpoint cfg with
       | None => None
       | Some endpoint =>
           match adapter_new http id endpoint with
           | Ok (ad, peer, d) =>
               Some ({| ad_id := ad_id ad; ad_endpoint := ad_endpoint ad;
                        ad_auth_handle := ac_auth_secret_ref cfg |}, peer, apply_to cfg d)
           | Err _ => None
           end
       end.

Definition adapters (http : result unit string) (c : Config) : list (Adapter * Peer * AgentDescriptor) :=
  omap (configured_adapter http) (agents c).

(** [A2aDiscovery::discover]: an agent whose card cannot be had is registered
    as unavailable. *)
Definition unreachable (err : MetaAgentError) (d : AgentDescriptor) : AgentDescriptor :=
  let h := a_health d in
  with_health {| h_state := Unavailable; h_consecutive_failures := h_consecutive_failures h;
                 h_last_latency_ms := h_last_latency_ms h; h_last_success := h_last_success h;
                 h_last_error := Some (error_display err) |} d.

Definition idle {S} (o : S) (peer : Peer) (d : AgentDescriptor) (now : Z) : Client S :=
  {| cl_other := o; cl_peer := peer; cl_descriptor := d; cl_now := now; cl_deadline := None;
     cl_forwarded := []; cl_guard := None; cl_sent := [] |}.

Fixpoint discover_all {S} (rm : Remote S) (found : list (Adapter * Peer * AgentDescriptor)) (o : S) (now : Z)
  : S * list AgentDescriptor :=
  match found with
  | [] => (o, [])
  | (ad, peer, d) :: found' =>
      let '(c, answer) := refresh_from_card rm ad (idle o peer d now) in
      let described := match answer with
                       | Came (Ok d) => d
                       | Came (Err err) => unreachable err (cl_descriptor c)
                       | _ => cl_descriptor c
                       end in
      let '(o, ds) := discover_all rm found' (cl_other c) (cl_now c) in
      (o, described :: ds)
  end.

Definition discover {S} (rm : Remote S) (http : result unit string) (cfg : Config) (o : S) (now : Z)
  : S * list AgentDescriptor :=
  discover_all rm (adapters http cfg) o now.
