(* ===== verification/A2aServerFacts.v ===== *)
(** * What the A2A server promises

    The store of tasks under every interleaving of calls, runs and
    cancellations, eviction, restarts, pages and tokens. *)

From S2P Require Export A2aServer.
From S2P Require Import TrustFacts.
From stdpp Require Import relations.
Open Scope string_scope.
Open Scope Z_scope.

(** ** The store *)

(** A task's state belongs to where its run is; a cancelled one may be anywhere. *)
Definition run_ok (e : TaskEntry) : Prop :=
  let state := w_state (te_snapshot e) in
  match te_run e with
  | None => state_settled state = true
  | Some r =>
      match r_phase r with
      | PNew | PSaved | PSpawned | PEntered => state = Submitted \/ state = Canceled
      | PWriting _ false | PDriving | PReturned _ => state = Working \/ state = Canceled
      | PWriting _ true | PEnded => state_settled state = true
      | PDropped => r_aborted r = true
      end
  end.

Record store_ok (m : TaskMap) : Prop := {
  so_wf : bt_wf (tm_entries m);
  so_order : NoDup (tm_order m);
  so_keys : forall id, id ∈ tm_order m <-> id ∈ bt_keys (tm_entries m);
  so_ids : forall id e, bt_get id (tm_entries m) = Some e -> w_id (te_snapshot e) = id;
}.

Definition runs_ok (m : TaskMap) : Prop :=
  forall id e, bt_get id (tm_entries m) = Some e -> run_ok e.

Lemma store_ok_default : store_ok map_default.
Proof.
  split; simpl; [constructor|constructor|done|done].
Qed.

(** ** Maps *)

Lemma bt_get_remove {V} k k' (m : btree string V) :
  bt_get k (bt_remove k' m) = if bool_decide (k = k') then None else bt_get k m.
Proof.
  unfold bt_remove. induction m as [|[k0 v] m IH]; simpl; [by case_bool_decide|].
  destruct (decide (k' = k0)) as [->|N].
  - rewrite (bool_decide_eq_true_2 (k0 = k0)) by done. cbn [negb]. rewrite IH.
    destruct (decide (k = k0)) as [->|N']; [by rewrite !(bool_decide_eq_true_2 (k0 = k0))|].
    by rewrite !(bool_decide_eq_false_2 (k = k0)).
  - rewrite (bool_decide_eq_false_2 (k' = k0)) by done. simpl. rewrite IH.
    destruct (decide (k = k0)) as [->|N']; [|by rewrite !(bool_decide_eq_false_2 (k = k0))].
    rewrite (bool_decide_eq_true_2 (k0 = k0)) by done. by rewrite bool_decide_eq_false_2 by congruence.
Qed.

Lemma bt_remove_keys {V} k k' (m : btree string V) :
  k ∈ bt_keys (bt_remove k' m) <-> k <> k' /\ k ∈ bt_keys m.
Proof.
  rewrite <- !bt_get_Some_keys, bt_get_remove. case_bool_decide as E; [|naive_solver].
  split; [by intros [? [=]]|naive_solver].
Qed.

Lemma bt_wf_remove {V} k (m : btree string V) : bt_wf m -> bt_wf (bt_remove k m).
Proof. rewrite bt_remove_retain. apply bt_wf_retain. Qed.
#[export] Hint Resolve bt_wf_remove : cuma.

Lemma filter_all {A} (p : A -> bool) (l : list A) : (forall x, x ∈ l -> p x = true) -> List.filter p l = l.
Proof.
  induction l as [|x l IH]; intros H; simpl; [done|].
  rewrite (H x) by by left. f_equal. apply IH. intros y Hy. apply H. by right.
Qed.

Lemma filter_ext_elem {A} (p q : A -> bool) (l : list A) :
  (forall x, x ∈ l -> p x = q x) -> List.filter p l = List.filter q l.
Proof.
  induction l as [|x l IH]; intros H; simpl; [done|].
  rewrite (H x) by by left. rewrite IH; [done|]. intros y Hy. apply H. by right.
Qed.

Lemma elem_of_lfilter {A} (p : A -> bool) (l : list A) x : x ∈ List.filter p l <-> x ∈ l /\ p x = true.
Proof. by rewrite !list_elem_of_In, filter_In. Qed.

Lemma lfilter_NoDup {A} (p : A -> bool) (l : list A) : NoDup l -> NoDup (List.filter p l).
Proof.
  induction 1 as [|x l N H IH]; simpl; [constructor|].
  destruct (p x); [|done]. constructor; [|done]. by rewrite elem_of_lfilter; intros [? _].
Qed.

Lemma length_bt_remove {V} k (m : btree string V) :
  bt_wf m -> k ∈ bt_keys m -> S (length (bt_remove k m)) = length m.
Proof.
  intros W%bt_wf_NoDup Hk. unfold bt_remove. revert W Hk.
  induction m as [|[k0 v] m IH]; simpl; [by intros _ ?%not_elem_of_nil|].
  intros [N W]%list.NoDup_cons [->|Hk]%elem_of_cons.
  - rewrite bool_decide_eq_true_2 by done. cbn [negb]. f_equal. f_equal. apply filter_all.
    intros [k v'] Hin. simpl. rewrite bool_decide_eq_false_2; [done|].
    intros ->. apply N. rewrite (list_elem_of_In (map fst m)). apply list_elem_of_In in Hin.
    by apply (in_map fst) in Hin.
  - rewrite bool_decide_eq_false_2 by (intros ->; done). cbn [negb length]. f_equal. auto.
Qed.

(** ** Making room *)

(** The first tasks of the order that may go, in order. *)
Definition expendable (m : TaskMap) : list string := List.filter (evictable m) (tm_order m).

Definition without (gone : list string) (order : list string) : list string :=
  List.filter (fun id => negb (contains gone id)) order.

Lemma take_evictable_some m o id rest :
  NoDup o -> take_evictable m o = Some (id, rest) ->
  id ∈ o /\ evictable m id = true /\ List.filter (evictable m) o = id :: List.filter (evictable m) rest /\
  rest = List.filter (fun x => negb (bool_decide (x = id))) o.
Proof.
  intros W. revert id rest. induction W as [|x o N W IH]; intros id rest; simpl; [done|].
  destruct (evictable m x) eqn:E.
  - intros [= <- <-]. split; [by left|]. split; [done|]. split; [done|].
    rewrite bool_decide_eq_true_2 by done. simpl. symmetry. apply filter_all.
    intros y Hy. rewrite bool_decide_eq_false_2; [done|]. by intros ->.
  - destruct (take_evictable m o) as [[id' rest']|]; [|done]. intros [= <- <-].
    destruct (IH id' rest' eq_refl) as (Hi&He&Hf&Hr). split; [by right|]. split; [done|]. split; [by simpl; rewrite E|].
    rewrite bool_decide_eq_false_2 by (intros ->; done). simpl. by f_equal.
Qed.

Lemma take_evictable_none m o : take_evictable m o = None -> List.filter (evictable m) o = [].
Proof.
  induction o as [|x o IH]; simpl; [done|]. destruct (evictable m x); [done|].
  destruct (take_evictable m o) as [[]|]; [done|auto].
Qed.

(** The map once a task has gone. *)
Definition evict (id : string) (order : list string) (m : TaskMap) : TaskMap :=
  {| tm_entries := bt_remove id (tm_entries m); tm_order := order |}.

Lemma store_ok_evict m id :
  store_ok m -> id ∈ tm_order m ->
  let rest := List.filter (fun x => negb (bool_decide (x = id))) (tm_order m) in
  store_ok (evict id rest m) /\ S (length (tm_entries (evict id rest m))) = length (tm_entries m) /\
  S (length rest) = length (tm_order m).
Proof.
  intros [W D K I] Hin rest. split; [split; cbn [evict tm_entries tm_order]|split].
  - auto with cuma.
  - by apply lfilter_NoDup.
  - intros x. unfold rest. rewrite elem_of_lfilter, K, bt_remove_keys, negb_true_iff, bool_decide_eq_false. tauto.
  - intros x e. rewrite bt_get_remove. case_bool_decide; [done|]. apply I.
  - apply length_bt_remove; [done|]. by apply K.
  - unfold rest. clear -D Hin. induction D as [|x o N D IH]; [by apply not_elem_of_nil in Hin|].
    simpl. apply elem_of_cons in Hin as [->|Hin].
    + rewrite bool_decide_eq_true_2 by done. cbn [negb]. f_equal. f_equal. apply filter_all.
      intros y Hy. rewrite bool_decide_eq_false_2; [done|]. by intros ->.
    + rewrite bool_decide_eq_false_2 by (intros ->; done). cbn [negb length]. f_equal. auto.
Qed.

Lemma active_evict m id rest :
  store_ok m -> evictable m id = true -> active (evict id rest m) = active m.
Proof.
  intros O E. unfold active, evict. cbn [tm_entries]. f_equal.
  assert (forall v, (id, v) ∈ tm_entries m -> settled_entry v = true) as H.
  { intros v Hv%bt_elem_of_get; [|eauto using so_wf with cuma]. unfold evictable in E. by rewrite Hv in E. }
  clear E. unfold bt_values, bt_remove. induction (tm_entries m) as [|[k v] l IH]; simpl; [done|].
  destruct (decide (id = k)) as [<-|N].
  - rewrite bool_decide_eq_true_2 by done. cbn [negb]. rewrite (H v) by by left. cbn [negb].
    apply IH. intros w Hw. apply H. by right.
  - rewrite bool_decide_eq_false_2 by done. simpl. rewrite IH; [done|]. intros w Hw. apply H. by right.
Qed.

Lemma expendable_evict m id :
  store_ok m -> List.filter (evictable m) (List.filter (fun x => negb (bool_decide (x = id))) (tm_order m))
    = expendable (evict id (List.filter (fun x => negb (bool_decide (x = id))) (tm_order m)) m).
Proof.
  intros O. unfold expendable. apply filter_ext_elem. intros x [_ N]%elem_of_lfilter.
  unfold evictable, evict. cbn [tm_entries]. rewrite bt_get_remove.
  by destruct (bool_decide (x = id)) eqn:E.
Qed.

Lemma contains_cons {A} `{EqDecision A} (y : A) l x : contains (y :: l) x = bool_decide (x = y) || contains l x.
Proof.
  unfold contains. destruct (decide (x = y)) as [->|N].
  - rewrite (bool_decide_eq_true_2 (y = y)) by done. apply bool_decide_eq_true_2. by left.
  - rewrite (bool_decide_eq_false_2 (x = y)) by done. apply bool_decide_ext. rewrite elem_of_cons. tauto.
Qed.

Lemma without_cons id gone order :
  without (id :: gone) order = without gone (List.filter (fun x => negb (bool_decide (x = id))) order).
Proof.
  unfold without. induction order as [|x order IH]; [done|]. cbn [List.filter].
  rewrite contains_cons. destruct (bool_decide (x = id)); cbn [negb orb List.filter]; [done|].
  by rewrite IH.
Qed.

(** Nothing can go: everything is under way. *)
Lemma stuck_active m :
  store_ok m -> expendable m = [] -> active m = length (tm_entries m).
Proof.
  intros [W D K I] E. unfold active, bt_values. rewrite filter_all; [by rewrite length_map|].
  intros e ([k e']&->&Hin)%elem_of_map. cbn [snd].
  destruct (settled_entry e') eqn:S; [|done].
  assert (k ∈ expendable m) as Hx.
  { unfold expendable. apply elem_of_lfilter. split.
    - apply K. apply bt_elem_of_get in Hin; [|by apply bt_wf_NoDup]. apply bt_get_Some_keys. eauto.
    - unfold evictable. by rewrite (bt_elem_of_get _ _ _ (bt_wf_NoDup _ W) Hin). }
  rewrite E in Hx. by apply not_elem_of_nil in Hx.
Qed.

Lemma make_room_spec fuel m :
  store_ok m -> (length (tm_order m) <= fuel)%nat ->
  let gone := take (S (length (tm_entries m)) - MAX_RETAINED_TASKS) (expendable m) in
  (make_room fuel m).2 = gone /\
  tm_order (make_room fuel m).1 = without gone (tm_order m) /\
  (forall id, bt_get id (tm_entries (make_room fuel m).1) =
     if contains gone id then None else bt_get id (tm_entries m)) /\
  store_ok (make_room fuel m).1 /\
  active (make_room fuel m).1 = active m /\
  ((active m < MAX_RETAINED_TASKS)%nat -> (length (tm_entries (make_room fuel m).1) < MAX_RETAINED_TASKS)%nat).
Proof.
  assert (forall order, without [] order = order) as Hw by (intros; by apply filter_all).
  revert m. induction fuel as [|fuel IH]; intros m O Hf; cbv zeta.
  - assert (tm_order m = []) as E by (destruct (tm_order m); [done|simpl in Hf; lia]).
    unfold expendable. rewrite E. cbn [List.filter make_room fst snd]. rewrite firstn_nil, Hw.
    split_and!; try done. intros Ha.
    rewrite <- (stuck_active m) by (done || unfold expendable; by rewrite E). done.
  - cbn [make_room]. destruct (Nat.leb_spec MAX_RETAINED_TASKS (length (tm_entries m))) as [L|L].
    2: { assert (S (length (tm_entries m)) - MAX_RETAINED_TASKS = 0)%nat as -> by lia.
         cbn [fst snd take]. rewrite Hw. split_and!; done. }
    destruct (take_evictable m (tm_order m)) as [[id rest]|] eqn:T.
    2: { cbn [fst snd]. pose proof (take_evictable_none m _ T) as E. fold (expendable m) in E.
         rewrite E, firstn_nil, Hw. split_and!; try done.
         rewrite (stuck_active m) by done. lia. }
    apply take_evictable_some in T as (Hin&He&Hx&->); [|by apply so_order].
    fold (expendable m) in Hx. rewrite expendable_evict in Hx by done.
    destruct (store_ok_evict m id O Hin) as (O1&L1&L2).
    pose proof (active_evict m id (List.filter (fun x => negb (bool_decide (x = id))) (tm_order m)) O He) as A1.
    set (m1 := evict id _ m) in *.
    change {| tm_entries := _; tm_order := _ |} with m1.
    destruct (IH m1 O1) as (E1&E2&E3&O2&A2&L3); [unfold m1; cbn [evict tm_order]; lia|].
    destruct (make_room fuel m1) as [m2 ev]. cbn [fst snd] in *.
    assert (S (length (tm_entries m)) - MAX_RETAINED_TASKS
            = S (S (length (tm_entries m1)) - MAX_RETAINED_TASKS))%nat as -> by lia.
    rewrite Hx. cbn [take]. split_and!; try congruence.
    + rewrite without_cons, E2. done.
    + intros x. rewrite E3. unfold m1, evict. cbn [tm_entries]. rewrite bt_get_remove.
      rewrite contains_cons. by destruct (bool_decide (x = id)), (contains _ x).
    + intros Ha. apply L3. lia.
Qed.

(** ** Worlds *)

Definition tasks_of (w : World) : TaskMap := sv_tasks (wd_server w).
Definition entry_of (id : string) (w : World) : option TaskEntry := bt_get id (tm_entries (tasks_of w)).

(** What a run is about to save or tell is its own task. *)
Definition run_ids (id : string) (e : TaskEntry) : Prop :=
  w_id (te_snapshot e) = id /\
  forall r t last, te_run e = Some r ->
    r_phase r = PWriting (WSave t) last \/ r_phase r = PWriting (WTell t) last -> w_id t = id.

Record world_ok (w : World) : Prop := {
  wo_store : store_ok (tasks_of w);
  wo_runs : runs_ok (tasks_of w);
  wo_room : (length (tm_entries (tasks_of w)) <= MAX_RETAINED_TASKS)%nat;
  wo_cancel : forall tid t b, wd_cancel w = Some (tid, t, b) -> w_id t = tid /\ is_Some (entry_of tid w);
  wo_ids : forall id e, entry_of id w = Some e -> run_ids id e;
  wo_orphans : forall id e, bt_get id (wd_orphans w) = Some e -> entry_of id w = None /\ run_ids id e;
}.

Lemma length_keys {V} (m : btree string V) : length (bt_keys m) = length m.
Proof. apply length_map. Qed.

Lemma channel_cases id w e : channel_of id w = Some e ->
  entry_of id w = Some e \/ entry_of id w = None /\ bt_get id (wd_orphans w) = Some e.
Proof.
  unfold channel_of, entry_of, tasks_of. destruct (bt_get id (tm_entries _)) as [e'|] eqn:E; [by left|]. auto.
Qed.

Lemma run_channel id w r : run_of id w = Some r <-> exists e, channel_of id w = Some e /\ te_run e = Some r.
Proof.
  unfold run_of. destruct (channel_of id w) as [e|].
  - split; [eauto|by intros (e'&[= ->]&?)].
  - split; [done|by intros (e'&?&_)].
Qed.

Lemma channel_ids id w e : world_ok w -> channel_of id w = Some e -> run_ids id e.
Proof. intros O [H|[_ H]]%channel_cases; [by eapply wo_ids|]. by apply (wo_orphans _ O). Qed.

(** The entry of a task after a record was written. *)
Lemma entry_on_server id id' f s' w c o :
  sv_tasks s' = sv_tasks (update_entry id' f (wd_server w)) ->
  entry_of id {| wd_server := s'; wd_cancel := c; wd_orphans := o |} =
    if bool_decide (id = id') then f <$> entry_of id w else entry_of id w.
Proof. unfold entry_of, tasks_of. cbn [wd_server]. intros ->. apply bt_get_alter. Qed.

(** Writing to one record, its ids kept and its state still where its run is. *)
Lemma world_update w id f s' o :
  world_ok w -> sv_tasks s' = sv_tasks (update_entry id f (wd_server w)) ->
  o = wd_orphans w \/ o = bt_alter f id (wd_orphans w) ->
  (forall e, channel_of id w = Some e -> run_ids id e -> run_ids id (f e) /\ (run_ok e -> run_ok (f e))) ->
  world_ok {| wd_server := s'; wd_cancel := wd_cancel w; wd_orphans := o |}.
Proof.
  intros O E Eo Hf. pose proof (fun k => entry_on_server k id f s' w (wd_cancel w) o E) as G.
  assert (bt_keys (tm_entries (sv_tasks s')) = bt_keys (tm_entries (tasks_of w))) as Hk
    by (rewrite E; apply bt_alter_keys, O).
  assert (forall e, entry_of id w = Some e -> channel_of id w = Some e) as Hrec.
  { unfold channel_of, entry_of, tasks_of. by intros e ->. }
  assert (forall k e, entry_of k {| wd_server := s'; wd_cancel := wd_cancel w; wd_orphans := o |} = Some e ->
    run_ids k e /\ run_ok e) as Hnew.
  { intros k e. rewrite G. case_bool_decide as Ek.
    - subst k. destruct (entry_of id w) as [e0|] eqn:E0; [|done]. intros [= <-].
      destruct (Hf e0) as [? ?]; [auto|by eapply wo_ids|]. split; [done|]. by apply (wo_runs _ O) in E0; auto.
    - intros He. split; [by eapply wo_ids|by eapply wo_runs]. }
  destruct O as [[W D K I] R L C Is Os].
  split; [split|..]; unfold tasks_of; cbn [wd_server wd_cancel wd_orphans].
  - rewrite E. unfold update_entry, with_tasks. cbn [sv_tasks tm_entries]. auto with cuma.
  - by rewrite E.
  - intros k. rewrite Hk, E. apply K.
  - intros k e He. by apply (Hnew k e He).
  - intros k e He. by apply (Hnew k e He).
  - rewrite <- length_keys, Hk, length_keys. done.
  - intros tid t b Hc. destruct (C _ _ _ Hc) as [? [e He]]. split; [done|].
    rewrite G, He. case_bool_decide; simpl; eauto.
  - intros k e He. by apply (Hnew k e He).
  - intros k e He. assert (exists e0, bt_get k (wd_orphans w) = Some e0 /\ (e = e0 \/ k = id /\ e = f e0)) as (e0&H0&Hc).
    { destruct Eo as [-> | ->]; [eauto|]. rewrite bt_get_alter in He. case_bool_decide as Ek; [subst|by eauto].
      destruct (bt_get id (wd_orphans w)) as [e0|]; [|done]. injection He as <-. eauto. }
    destruct (Os k e0 H0) as [Hn Hi]. split; [rewrite G, Hn; by case_bool_decide|].
    destruct Hc as [->|[-> ->]]; [done|]. apply Hf; [|done]. unfold channel_of. unfold entry_of, tasks_of in Hn. by rewrite Hn.
Qed.

Lemma world_stored w s : world_ok w -> sv_tasks s = sv_tasks (wd_server w) -> world_ok (on_server (fun _ => s) w).
Proof.
  intros [O R L C Is Os] E. split; unfold on_server, tasks_of, entry_of in *; cbn [wd_server wd_cancel wd_orphans];
    unfold tasks_of; cbn [wd_server]; rewrite ?E; done.
Qed.

Lemma world_cancel w c : world_ok w ->
  (forall tid t b, c = Some (tid, t, b) -> w_id t = tid /\ is_Some (entry_of tid w)) -> world_ok (with_cancel c w).
Proof. intros [O R L C Is Os] H. by split. Qed.

(** A step of a run that leaves its snapshot. *)
Lemma run_ids_with_run id e r r' : run_ids id e -> te_run e = Some r ->
  (forall t last, r_phase r' = PWriting (WSave t) last \/ r_phase r' = PWriting (WTell t) last ->
     r_phase r = PWriting (WSave t) last \/ r_phase r = PWriting (WTell t) last \/ t = te_snapshot e) ->
  run_ids id (with_run r' e).
Proof.
  intros [Hs Hr] E H. split; [done|]. intros r0 t last [= <-] Hp. destruct (H t last Hp) as [?|[?| ->]]; [eauto..|done].
Qed.

Lemma world_on_run w id f r :
  world_ok w -> run_of id w = Some r ->
  (forall t last, r_phase (f r) <> PWriting (WSave t) last /\ r_phase (f r) <> PWriting (WTell t) last) ->
  (forall e, te_run e = Some r -> run_ok e -> run_ok (with_run (f r) e)) -> world_ok (on_run id f w).
Proof.
  intros O (e0&He0&Hr)%run_channel Hp Hf. eapply world_update; [done|done|by right|]. intros e He Hi.
  rewrite He in He0. injection He0 as ->. cbv beta. rewrite Hr. split; [|by apply Hf].
  eapply run_ids_with_run; [done..|]. intros t last. destruct (Hp t last). tauto.
Qed.

(** A section of a run's [set]. *)
Lemma world_set w id f r :
  world_ok w -> run_of id w = Some r ->
  (forall e, te_run e = Some r -> run_ids id e -> run_ids id (f e)) ->
  (forall e, te_run e = Some r -> run_ok e -> run_ok (f e)) -> world_ok (on_channel id f w).
Proof.
  intros O (e0&He0&Hr)%run_channel Hi Hf. eapply world_update; [done|done|by right|]. intros e He Hids.
  rewrite He in He0. injection He0 as ->. auto.
Qed.

Lemma length_bt_insert {V} k v (m : btree string V) : (length (bt_insert k v m) <= S (length m))%nat.
Proof.
  induction m as [|[k' v'] m IH]; cbn [bt_insert length]; [lia|].
  destruct (key_cmp k k'); cbn [length]; lia.
Qed.

(** What starting a task makes of the map. *)
Lemma start_spec params tid fresh now s s' :
  store_ok (sv_tasks s) -> start params tid fresh now s = (s', inl tid) ->
  exists gone context,
    let t := initial_task tid context now in
    let e := {| te_snapshot := t; te_updates := []; te_run := Some new_run |} in
    Forall (fun id => evictable (sv_tasks s) id = true) gone /\
    tm_order (sv_tasks s') = (without gone (tm_order (sv_tasks s)) ++ [tid])%list /\
    (forall id, bt_get id (tm_entries (sv_tasks s')) =
       if bool_decide (id = tid) then Some e else if contains gone id then None else bt_get id (tm_entries (sv_tasks s))) /\
    bt_wf (tm_entries (sv_tasks s')) /\ (length (tm_entries (sv_tasks s')) <= MAX_RETAINED_TASKS)%nat /\
    sv_store s' = (fun log => log ++ map StRemove gone)%list <$> sv_store s.
Proof.
  intros O. unfold start. case_bool_decide; [done|]. destruct (is_follow_up params); [done|].
  destruct (Nat.leb_spec MAX_ACTIVE_TASKS (active (sv_tasks s))) as [|Ha]; [done|].
  destruct (make_room_spec (length (tm_order (sv_tasks s))) _ O (le_n _)) as (Hg&Ho&Hl&[W D K I]&_&Hn).
  destruct (make_room _ _) as [m gone]. cbn [fst snd] in *. intros [= <-].
  exists gone, (context_of params fresh). cbv zeta.
  cbn [stored with_tasks sv_tasks sv_store add_entry tm_entries tm_order]. rewrite <- Hg in Ho, Hl. split_and!.
  - rewrite Hg. apply list.Forall_forall. intros id Hid. apply elem_of_take in Hid as (i&Hi&_).
    apply list_elem_of_lookup_2 in Hi. by apply elem_of_lfilter in Hi as [_ ?].
  - by rewrite Ho.
  - intros id. rewrite bt_get_insert. case_bool_decide; [done|]. apply Hl.
  - auto with cuma.
  - pose proof (length_bt_insert tid {| te_snapshot := initial_task tid (context_of params fresh) now;
      te_updates := []; te_run := Some new_run |} (tm_entries m)) as Hi.
    assert (MAX_ACTIVE_TASKS < MAX_RETAINED_TASKS)%nat as Hm by (apply Nat.ltb_lt; reflexivity).
    specialize (Hn (Nat.lt_trans _ _ _ Ha Hm)). lia.
  - done.
Qed.

Lemma taken_get m m' id e : NoDup (bt_keys (tm_entries m)) ->
  bt_get id (taken m m') = Some e -> bt_get id (tm_entries m) = Some e /\ bt_get id (tm_entries m') = None.
Proof.
  intros D H. unfold taken in H. apply bt_get_elem_of in H.
  apply list_elem_of_In, List.filter_In in H as [Hin%list_elem_of_In Hc]. cbn [fst] in Hc.
  split; [by apply bt_elem_of_get|]. unfold bt_contains_key in Hc.
  by destruct (bt_get id (tm_entries m')).
Qed.

Lemma bt_get_app {V} id (a b : btree string V) :
  bt_get id (a ++ b)%list = match bt_get id a with Some v => Some v | None => bt_get id b end.
Proof. induction a as [|[k v] a IH]; [done|]. cbn [app bt_get]. by case_bool_decide. Qed.

Lemma world_start w params tid fresh now s' :
  world_ok w -> channel_of tid w = None -> tid ∉ tm_order (tasks_of w) ->
  start params tid fresh now (wd_server w) = (s', inl tid) ->
  world_ok {| wd_server := s'; wd_cancel := None;
              wd_orphans := (taken (tasks_of w) (sv_tasks s') ++ wd_orphans w)%list |}.
Proof.
  intros [O R L C Is Os] Hc Hf Hs. destruct (start_spec _ _ _ _ _ _ O Hs) as (gone&context&_&Ho&Hg&W&Hl&_).
  set (e0 := {| te_snapshot := _; te_updates := _; te_run := _ |}) in Hg.
  assert (forall id e, bt_get id (tm_entries (sv_tasks s')) = Some e ->
    id = tid /\ e = e0 \/ id <> tid /\ entry_of id w = Some e) as Hget.
  { intros id e. rewrite Hg. case_bool_decide; [intros [= <-]; by left|]. destruct (contains gone id); [done|]. by right. }
  destruct O as [W0 D K I].
  split; [split|..]; unfold tasks_of, entry_of; cbn [wd_server wd_cancel wd_orphans].
  - done.
  - rewrite Ho. apply NoDup_app. split; [by apply lfilter_NoDup|]. split; [|apply NoDup_singleton].
    intros x Hx ->%list_elem_of_singleton. by apply elem_of_lfilter in Hx as [? _].
  - intros x. rewrite Ho, elem_of_app, list_elem_of_singleton, <- bt_get_Some_keys, Hg. unfold without.
    rewrite elem_of_lfilter, K, <- bt_get_Some_keys. case_bool_decide as E; [subst; split; [eauto|by right]|].
    destruct (contains gone x); cbn [negb]; [|naive_solver]. split; [naive_solver|by intros [? [=]]].
  - intros x e [[-> ->]|[_ He]]%Hget; [done|]. by apply I.
  - intros x e [[-> ->]|[_ He]]%Hget; [by left|]. by apply (R x).
  - done.
  - done.
  - intros x e [[-> ->]|[_ He]]%Hget; [|by apply Is]. split; [done|]. intros r t last [= <-]. by intros [|].
  - intros x e. rewrite bt_get_app. destruct (bt_get x (taken _ _)) as [e1|] eqn:Et.
    + intros [= ->]. apply taken_get in Et as [He Hn]; [|by apply bt_wf_NoDup]. split; [done|]. by apply Is.
    + intros He. destruct (Os x e He) as [Hn Hi]. split; [|done]. rewrite Hg. case_bool_decide as Ex.
      * subst. unfold channel_of in Hc. unfold entry_of, tasks_of in Hn. rewrite Hn, He in Hc. done.
      * unfold entry_of, tasks_of in Hn. rewrite Hn. by destruct (contains gone x).
Qed.

Lemma concluded_id result t : w_id (concluded result t) = w_id t.
Proof. by destruct result. Qed.

Lemma set_change_ok now change (last : bool) id e r :
  te_run e = Some r -> (forall t, w_id (change t) = w_id t) ->
  (if (last : bool) then state_settled (w_state (change (te_snapshot e))) = true
   else w_state (change (te_snapshot e)) = Working) ->
  (run_ids id e -> run_ids id (set_change now change last e)) /\ run_ok (set_change now change last e).
Proof.
  intros E Hc Hl. unfold set_change, at_phase. cbn [replaced te_run]. rewrite E. split.
  - intros [Hi _]. split; [cbn; by rewrite Hc|]. intros r0 t b [= <-]. by intros [|].
  - unfold run_ok. cbn. destruct last; [done|by left].
Qed.

Lemma at_phase_run e r p : te_run e = Some r -> at_phase p e = with_run (in_phase p r) e.
Proof. unfold at_phase. by intros ->. Qed.

Lemma world_cancel_abort w tid t : world_ok w -> wd_cancel w = Some (tid, t, CRead) ->
  world_ok (with_cancel (Some (tid, t, CAborted)) (on_server (cancel_abort tid) w)).
Proof.
  intros O Hc. pose proof (wo_cancel _ O _ _ _ Hc) as [Hid He].
  assert (world_ok (on_server (cancel_abort tid) w)) as O1.
  { eapply world_update; [done|done|by left|]. intros e _ Hi. cbv beta.
    destruct (te_run e) as [r|] eqn:E; [|done]. split.
    - eapply run_ids_with_run; [done..|]. cbn [abort r_phase]. intros t' last. tauto.
    - unfold run_ok. rewrite E. cbn [with_run te_run te_snapshot abort r_phase r_aborted].
      destruct (r_phase r); try done. by intros ->. }
  apply world_cancel; [done|]. intros ??? [= <- <- <-]. by apply (wo_cancel _ O1 tid t CRead).
Qed.

Lemma world_cancel_replace w tid t now : world_ok w -> wd_cancel w = Some (tid, t, CAborted) ->
  world_ok (with_cancel (Some (tid, cancelled now t, CReplaced))
    (on_server (update_entry tid (replaced (cancelled now t))) w)).
Proof.
  intros O Hc. pose proof (wo_cancel _ O _ _ _ Hc) as [Hid He].
  assert (world_ok (on_server (update_entry tid (replaced (cancelled now t))) w)) as O1.
  { eapply world_update; [done|done|by left|]. intros e _ [Hi Hr]. split; [by split|].
    unfold run_ok. cbn. destruct (te_run e) as [r|]; [|done]. destruct (r_phase r) as [| | | |x []| |x| |]; auto. }
  apply world_cancel; [done|]. intros ??? [= <- <- <-]. by apply (wo_cancel _ O1 tid t CAborted).
Qed.

Lemma world_step w w' : world_ok w -> step w w' -> world_ok w'.
Proof.
  intros O. destruct 1 as [w params tid fresh now s' Hc Hg Hf Hs|w id e r mid He Hr Hp|w id r Hr Hp|w id e r Hc He Hr Hp Hp'
    |w id r Hr Hp Ha|w id r now Hr Hp|w id r last Hr Hp|w id r t last mid Hr Hp|w id r t last Hr Hp|w id r text Hr Hp
    |w id r result Hr Hp|w id r Hr Hp Ha|w id r result now Hr Hp
    |w rid params d tid current Hc Hd|w tid current Hc|w tid current now Hc|w tid t Hc|w tid t mid Hc].
  - by eapply world_start.
  - eapply world_on_run; [by apply (world_stored w (stored _ (wd_server w)))|apply run_channel; eauto|done|].
    intros e' He'. unfold run_ok. rewrite He', Hp. done.
  - eapply world_on_run; [done..|]. intros e He. unfold run_ok. rewrite He, Hp. done.
  - assert (channel_of id w = Some e) as Hch by (unfold channel_of; by rewrite He).
    eapply world_update; [done|done|by right|]. intros e' He'. rewrite Hch in He'. injection He' as <-.
    intros Hi. cbv beta. rewrite Hr. split; [|by unfold run_ok; rewrite Hr].
    eapply run_ids_with_run; [done..|]. cbn [given_handle r_phase]. intros t last. tauto.
  - eapply world_on_run; [done..|]. intros e He. unfold run_ok. rewrite He, Hp. done.
  - eapply world_set; [done..| |]; intros e He; by destruct (set_change_ok now working false id e r He).
  - eapply world_set; [done..| |]; intros e He; unfold set_read; rewrite (at_phase_run e r) by done.
    + intros Hi. eapply run_ids_with_run; [done..|]. cbn. intros t l [[= <- _]|[=]]. auto.
    + unfold run_ok. rewrite He, Hp. done.
  - eapply world_set; [by apply (world_stored w (stored _ (wd_server w)))|exact Hr| |]; intros e He; unfold set_saved; rewrite (at_phase_run e r) by done.
    + intros Hi. eapply run_ids_with_run; [done..|]. cbn. intros t' l [[=]|[= <- <-]]. auto.
    + unfold run_ok. rewrite He, Hp. done.
  - eapply world_set; [done..| |]; intros e He; unfold set_tell; rewrite (at_phase_run (told t e) r) by done.
    + intros [Hi _]. split; [done|]. intros r0 t' l [= <-]. cbn. by destruct last; intros [|].
    + unfold run_ok. rewrite He, Hp. by destruct last.
  - eapply world_set; [done..|done|done].
  - eapply world_on_run; [done..|]. intros e He. unfold run_ok. rewrite He, Hp. done.
  - eapply world_on_run; [done..|]. intros e He. unfold run_ok. rewrite He. done.
  - eapply world_set; [done..| |]; intros e He; destruct (set_change_ok now (concluded result) true id e r He) as [? ?]; try done.
    all: try (intros; apply concluded_id). all: destruct result as [x|x]; [|done]; cbn; by destruct (sr_success x).
  - apply world_cancel; [done|]. intros ??? [= <- <- <-]. unfold cancel_read in Hd.
    destruct (bt_get _ _) as [e|] eqn:E; [|done]. destruct (state_settled _); [done|]. injection Hd as <- <-.
    split; [|unfold entry_of; eauto]. by apply (so_ids _ (wo_store _ O)).
  - by apply world_cancel_abort.
  - by apply world_cancel_replace.
  - pose proof (wo_cancel _ O _ _ _ Hc) as [Hid He].
    assert (world_ok (on_server (update_entry tid (told t)) w)) as O1 by (eapply world_update; [done|done|by left|done]).
    apply world_cancel; [done|]. intros ??? [= <- <- <-]. by apply (wo_cancel _ O1 tid t CReplaced).
  - apply world_cancel; [by apply (world_stored w (stored _ (wd_server w)))|done].
Qed.

Lemma world_steps w w' : world_ok w -> rtc step w w' -> world_ok w'.
Proof. intros O H. induction H; eauto using world_step. Qed.
