(* ===== verification/A2aServerLaws.v ===== *)
(** * What the A2A server promises to its callers

    The invariant of the store under every interleaving, what settled tasks and
    cancellations come to, restarts, pages, streams and tokens. *)

From S2P Require Export A2aServerFacts.
From S2P Require Import TrustFacts.
From stdpp Require Import relations.
Open Scope string_scope.
Open Scope Z_scope.

(** ** Restarts *)

Definition loaded_tasks (bodies : list (option Value)) : list WireTask :=
  omap (fun b => match b with Some v => parse_task v | None => None end) bodies.

(** What a task is after a restart. *)
Definition restored (now : string) (t : WireTask) : WireTask :=
  if state_settled (w_state t) then t else interrupted now t.

Lemma restore_spec mid now bodies m :
  restore mid now bodies m =
  (fold_left (fun m t => insert_settled t m) (map (restored now) (loaded_tasks bodies)) m,
   map (fun t => save_call mid (interrupted now t))
     (List.filter (fun t => negb (state_settled (w_state t))) (loaded_tasks bodies))).
Proof.
  revert m. induction bodies as [|b bodies IH]; intros m; [done|].
  unfold loaded_tasks in *. cbn [restore omap list_omap].
  destruct (match b with Some v => parse_task v | None => None end) as [t|]; [|apply IH].
  cbn [map fold_left List.filter]. unfold restored at 2. destruct (state_settled (w_state t)); cbn [negb].
  - apply IH.
  - rewrite IH. done.
Qed.

Lemma restored_settled now t : state_settled (w_state (restored now t)) = true.
Proof. unfold restored. by destruct (state_settled (w_state t)) eqn:E. Qed.

Lemma restored_id now t : w_id (restored now t) = w_id t.
Proof. unfold restored. by destruct (state_settled (w_state t)). Qed.

Lemma insert_settled_ok t m :
  store_ok m -> runs_ok m -> w_id t ∉ tm_order m -> state_settled (w_state t) = true ->
  store_ok (insert_settled t m) /\ runs_ok (insert_settled t m).
Proof.
  intros [W D K I] R Hf Hs. split; [split|].
  - cbn [insert_settled add_entry tm_entries]. auto with cuma.
  - cbn [insert_settled add_entry tm_order]. apply NoDup_app. split; [done|]. split; [|apply NoDup_singleton].
    intros x Hx ->%list_elem_of_singleton. done.
  - intros x. cbn [insert_settled add_entry tm_order tm_entries].
    rewrite elem_of_app, list_elem_of_singleton, bt_insert_keys, K. tauto.
  - intros x y. cbn [insert_settled add_entry tm_entries]. rewrite bt_get_insert.
    case_bool_decide as Ex; [|apply I]. by intros [= <-].
  - intros x y. cbn [insert_settled add_entry tm_entries]. rewrite bt_get_insert.
    case_bool_decide as Ex; [|apply R]. by intros [= <-].
Qed.

Lemma insert_all_ok ts m :
  store_ok m -> runs_ok m -> NoDup (tm_order m ++ map w_id ts) ->
  Forall (fun t => state_settled (w_state t) = true) ts ->
  let m' := fold_left (fun m t => insert_settled t m) ts m in
  store_ok m' /\ runs_ok m' /\
  (length (tm_entries m') <= length (tm_entries m) + length ts)%nat /\
  tm_order m' = (tm_order m ++ map w_id ts)%list /\
  (forall t, t ∈ ts -> bt_get (w_id t) (tm_entries m') = Some {| te_snapshot := t; te_updates := []; te_run := None |}) /\
  (forall id, id ∉ map w_id ts -> bt_get id (tm_entries m') = bt_get id (tm_entries m)).
Proof.
  revert m. induction ts as [|t ts IH]; intros m O R D F; cbv zeta; cbn [fold_left map length] in *.
  { rewrite app_nil_r. split_and!; try done; [lia|]. by intros ? ?%not_elem_of_nil. }
  apply list.Forall_cons in F as [Ft F].
  assert (w_id t ∉ tm_order m) as Hf.
  { apply NoDup_app in D as (_&D&_). intros Hx. apply (D _ Hx). by left. }
  destruct (insert_settled_ok t m O R Hf Ft) as [O1 R1].
  assert (tm_order (insert_settled t m) = (tm_order m ++ [w_id t])%list) as Eo by done.
  destruct (IH (insert_settled t m) O1 R1) as (O2&R2&L&E&G&N); [|done|].
  { rewrite Eo, <- app_assoc. exact D. }
  split_and!; [done|done| | | |].
  - pose proof (length_bt_insert (w_id t) {| te_snapshot := t; te_updates := []; te_run := None |} (tm_entries m)).
    cbn [insert_settled add_entry tm_entries] in L. lia.
  - rewrite E, Eo, <- app_assoc. done.
  - intros x [->|Hx]%elem_of_cons; [|auto]. rewrite N.
    + cbn [insert_settled add_entry tm_entries]. by rewrite bt_get_insert_eq.
    + apply NoDup_app in D as (_&_&D). by apply list.NoDup_cons in D as [? _].
  - intros x Hx. apply not_elem_of_cons in Hx as [Hne Hx]. rewrite N by done.
    cbn [insert_settled add_entry tm_entries]. by apply bt_get_insert_ne.
Qed.

(** A server restarted over what its store loaded. *)
Definition restarted (capabilities : CapabilitySet) (url mid now : string) (bodies : list (option Value)) : Server :=
  with_store mid now (Ok bodies) (server_new capabilities url).

Lemma restarted_tasks capabilities url mid now bodies :
  let ts := map (restored now) (loaded_tasks bodies) in
  NoDup (map w_id (loaded_tasks bodies)) ->
  let m := sv_tasks (restarted capabilities url mid now bodies) in
  store_ok m /\ runs_ok m /\ (length (tm_entries m) <= length ts)%nat /\
  tm_order m = map w_id ts /\
  (forall t, t ∈ ts -> bt_get (w_id t) (tm_entries m) = Some {| te_snapshot := t; te_updates := []; te_run := None |}) /\
  (forall id, id ∉ map w_id ts -> bt_get id (tm_entries m) = None) /\
  (forall id e, bt_get id (tm_entries m) = Some e -> te_run e = None).
Proof.
  intros ts D m. unfold m, restarted, with_store. cbn [server_new sv_tasks]. rewrite restore_spec. cbn [sv_tasks].
  assert (map w_id ts = map w_id (loaded_tasks bodies)) as E.
  { unfold ts. rewrite map_map. apply map_ext. intros t. apply restored_id. }
  destruct (insert_all_ok ts map_default) as (O&R&L&Ho&G&N).
  - apply store_ok_default.
  - done.
  - cbn [map_default tm_order app]. by rewrite E.
  - apply list.Forall_forall. intros t (t'&->&_)%elem_of_map. apply restored_settled.
  - split_and!; try done. intros id e He. destruct (decide (id ∈ map w_id ts)) as [(t&->&Ht)%elem_of_map|Hn].
    + fold ts in He. rewrite (G t Ht) in He. by injection He as <-.
    + fold ts in He. by rewrite (N id Hn) in He.
Qed.

Lemma world_new_ok s : store_ok (sv_tasks s) -> runs_ok (sv_tasks s) ->
  (forall id e, bt_get id (tm_entries (sv_tasks s)) = Some e -> te_run e = None) ->
  (length (tm_entries (sv_tasks s)) <= MAX_RETAINED_TASKS)%nat -> world_ok (world_new s).
Proof.
  intros O R N L. split; try done. intros id e He. split; [by apply (so_ids _ O)|].
  intros r t last Hr. by rewrite (N id e He) in Hr.
Qed.

(** C6: From a restart over what the store loaded (at most 512 tasks with ids of
    their own), under every interleaving of calls, runs and cancellations, the
    tasks and their order stay the same set without repetition, at most 512,
    each under its own id, and each task's state is the one of where its run is. *)
Theorem store_invariant capabilities url mid now bodies w :
  NoDup (map w_id (loaded_tasks bodies)) -> (length (loaded_tasks bodies) <= MAX_RETAINED_TASKS)%nat ->
  rtc step (world_new (restarted capabilities url mid now bodies)) w ->
  store_ok (tasks_of w) /\ runs_ok (tasks_of w) /\ (length (tm_entries (tasks_of w)) <= MAX_RETAINED_TASKS)%nat.
Proof.
  intros D L H. assert (world_ok w) as [O R Lw _ _ _]; [|done].
  destruct (restarted_tasks capabilities url mid now bodies D) as (O&R&Lm&_&_&_&N).
  rewrite length_map in Lm.
  eapply world_steps; [|done]. by apply world_new_ok; [..|lia].
Qed.

(** After a restart exactly the tasks the store loaded are there, oldest
    first, every one of them settled: a finished task as it was saved, a task
    that was under way failed, saying so, and saved as such. *)
Theorem restart_settles capabilities url mid now bodies :
  NoDup (map w_id (loaded_tasks bodies)) ->
  let s := restarted capabilities url mid now bodies in
  tm_order (sv_tasks s) = map w_id (loaded_tasks bodies) /\
  (forall t, t ∈ loaded_tasks bodies ->
     te_snapshot <$> bt_get (w_id t) (tm_entries (sv_tasks s)) =
       Some (if state_settled (w_state t) then t else interrupted now t)) /\
  (forall id e, bt_get id (tm_entries (sv_tasks s)) = Some e -> settled_entry e = true /\ te_run e = None) /\
  sv_store s = Some (map (fun t => save_call mid (interrupted now t))
                       (List.filter (fun t => negb (state_settled (w_state t))) (loaded_tasks bodies))).
Proof.
  intros D s. destruct (restarted_tasks capabilities url mid now bodies D) as (O&R&_&Ho&G&N&_). fold s in O, R, Ho, G, N.
  set (ts := map (restored now) (loaded_tasks bodies)) in *.
  split_and!.
  - rewrite Ho. unfold ts. rewrite map_map. apply map_ext. intros t. apply restored_id.
  - intros t Ht. specialize (G (restored now t)). rewrite restored_id in G. rewrite G; [done|].
    apply elem_of_map. eauto.
  - intros id e He. destruct (decide (id ∈ map w_id ts)) as [Hin|Hout]; [|by rewrite N in He].
    apply elem_of_map in Hin as (t&->&Ht). rewrite (G t Ht) in He. injection He as <-. split; [|done].
    apply elem_of_map in Ht as (t'&->&_). apply restored_settled.
  - unfold s, restarted, with_store. by rewrite restore_spec.
Qed.

(** C36: Making room ends, takes the oldest tasks that may go and no more than it
    must, leaves every other task and their order as they were, and leaves
    room as long as not everything is under way. *)
Theorem make_room_exact m :
  store_ok m ->
  let m' := (make_room (length (tm_order m)) m).1 in
  let gone := take (S (length (tm_entries m)) - MAX_RETAINED_TASKS) (expendable m) in
  (make_room (length (tm_order m)) m).2 = gone /\
  Forall (fun id => evictable m id = true) gone /\
  tm_order m' = List.filter (fun id => negb (contains gone id)) (tm_order m) /\
  (forall id, bt_get id (tm_entries m') = if contains gone id then None else bt_get id (tm_entries m)) /\
  active m' = active m /\
  ((active m < MAX_RETAINED_TASKS)%nat -> (length (tm_entries m') < MAX_RETAINED_TASKS)%nat).
Proof.
  intros O m' gone. destruct (make_room_spec _ m O (le_n _)) as (E1&E2&E3&_&E4&E5). fold m' gone in E1, E2, E3, E4, E5.
  split_and!; try done. apply list.Forall_forall. intros id Hid.
  apply elem_of_take in Hid as (i&Hi&_). apply list_elem_of_lookup_2 in Hi. by apply elem_of_lfilter in Hi as [_ ?].
Qed.

(** ** Settled tasks and cancellation *)

(** A settled task nothing is going to write to. *)
Definition at_rest (id : string) (t : WireTask) (w : World) : Prop :=
  state_settled (w_state t) = true /\
  (exists e, entry_of id w = Some e /\ te_snapshot e = t /\
     forall r, te_run e = Some r -> r_phase r = PEnded \/ r_phase r = PDropped) /\
  (forall current b, wd_cancel w <> Some (id, current, b)).

Definition kept (id : string) (a b : World) : Prop := step a b /\ is_Some (entry_of id b).

Lemma start_other params tid fresh now s s' id e :
  start params tid fresh now s = (s', inl tid) -> store_ok (sv_tasks s) -> id <> tid ->
  bt_get id (tm_entries (sv_tasks s)) = Some e ->
  bt_get id (tm_entries (sv_tasks s')) = None \/ bt_get id (tm_entries (sv_tasks s')) = Some e.
Proof.
  intros H O N E. destruct (start_spec _ _ _ _ _ _ O H) as (gone&context&_&_&Hg&_).
  rewrite Hg, bool_decide_eq_false_2 by done. destruct (contains gone id); auto.
Qed.

Lemma entry_channel id w e : entry_of id w = Some e -> channel_of id w = Some e.
Proof. unfold channel_of, entry_of, tasks_of. by intros ->. Qed.

Lemma entry_on_channel id id' f w :
  entry_of id (on_channel id' f w) = if bool_decide (id = id') then f <$> entry_of id w else entry_of id w.
Proof. by apply entry_on_server. Qed.

Lemma at_rest_step id t w w' : world_ok w -> at_rest id t w -> kept id w w' -> at_rest id t w'.
Proof.
  intros O (Hs&(e&He&Ht&Hr)&Hc) [S [e' He']].
  assert (forall w1, entry_of id w1 = Some e -> (forall current b, wd_cancel w1 <> Some (id, current, b)) ->
    at_rest id t w1) as Done by (intros w1 H1 H2; split; [done|]; split; [by exists e|done]).
  assert (forall id' f r w1, run_of id' w = Some r -> r_phase r <> PEnded -> r_phase r <> PDropped ->
    entry_of id w1 = entry_of id w -> wd_cancel w1 = wd_cancel w -> at_rest id t (on_channel id' f w1)) as Other.
  { intros id' f r w1 (e1&H1&H2)%run_channel N1 N2 E1 E2. apply Done; [|by cbn; rewrite E2].
    rewrite entry_on_channel, bool_decide_eq_false_2, E1; [done|]. intros <-.
    rewrite (entry_channel id w e) in H1 by done. injection H1 as <-. by destruct (Hr r H2). }
  assert (forall tid' current b, wd_cancel w = Some (tid', current, b) -> id <> tid') as Nc
    by (intros tid' current b Hw ->; by apply (Hc current b)).
  destruct S as [w params tid fresh now s' Hcn Hg Hf Hst|w id' e1 r mid H1 Hr' Hp|w id' r Hr' Hp|w id' e1 r Hcn H1 Hr' Hp Hp'
    |w id' r Hr' Hp Ha|w id' r now Hr' Hp|w id' r last Hr' Hp|w id' r t' last mid Hr' Hp|w id' r t' last Hr' Hp
    |w id' r text Hr' Hp|w id' r result Hr' Hp|w id' r Hr' Hp Ha|w id' r result now Hr' Hp
    |w rid params d tid current Hcn Hd|w tid current Hcn|w tid current now Hcn|w tid t' Hcn|w tid t' mid Hcn].
  - apply Done; [|done]. assert (id <> tid) as N.
    { intros ->. unfold channel_of in Hg. unfold entry_of, tasks_of in He. by rewrite He in Hg. }
    destruct (start_other _ _ _ _ _ _ id e Hst (wo_store _ O) N He) as [E|E]; [|exact E].
    unfold entry_of, tasks_of in He'. cbn [wd_server] in He'. by rewrite E in He'.
  - eapply (Other id' _ r); [apply run_channel; eauto|by rewrite Hp..|done|done].
  - eapply (Other id' _ r); [done|by rewrite Hp..|done|done].
  - destruct (decide (id = id')) as [<-|N].
    + split; [done|]. split; [|exact Hc]. unfold entry_of, tasks_of in He. rewrite He in H1. injection H1 as <-.
      exists (with_run (given_handle r) e). split; [|split; [done|]].
      * unfold on_run. rewrite entry_on_channel, bool_decide_eq_true_2 by done. unfold entry_of, tasks_of.
        rewrite He. cbn. by rewrite Hr'.
      * intros r' [= <-]. by apply (Hr r).
    + apply Done; [|exact Hc]. unfold on_run. by rewrite entry_on_channel, bool_decide_eq_false_2 by done.
  - eapply (Other id' _ r); [done|by rewrite Hp..|done|done].
  - eapply (Other id' _ r); [done|by rewrite Hp..|done|done].
  - eapply (Other id' _ r); [done|by rewrite Hp..|done|done].
  - eapply (Other id' _ r); [done|by rewrite Hp..|done|done].
  - eapply (Other id' _ r); [done|by rewrite Hp..|done|done].
  - eapply (Other id' _ r); [done|by destruct Hp as [-> |[? ->]]..|done|done].
  - eapply (Other id' _ r); [done|by rewrite Hp..|done|done].
  - eapply (Other id' _ r); [done|by destruct Hp as [-> | ->]..|done|done].
  - eapply (Other id' _ r); [done|by rewrite Hp..|done|done].
  - apply Done; [exact He|]. intros current' b [= -> _ _]. unfold cancel_read in Hd.
    destruct (bt_get (task_id_param params) _) as [e1|] eqn:E1; [|done].
    destruct (state_settled (w_state (te_snapshot e1))) eqn:E2; [done|]. injection Hd as Hid _. rewrite Hid in E1.
    unfold entry_of, tasks_of in He. rewrite He in E1. injection E1 as <-. congruence.
  - pose proof (Nc _ _ _ Hcn) as N. apply Done; [|cbn; by intros ?? [=]].
    change (entry_of id (on_channel tid (fun e => match te_run e with Some r => with_run (abort r) e | None => e end) w) = Some e).
    by rewrite entry_on_channel, bool_decide_eq_false_2.
  - pose proof (Nc _ _ _ Hcn) as N. apply Done; [|cbn; by intros ?? [=]].
    change (entry_of id (on_channel tid (replaced (cancelled now current)) w) = Some e).
    by rewrite entry_on_channel, bool_decide_eq_false_2.
  - pose proof (Nc _ _ _ Hcn) as N. apply Done; [|cbn; by intros ?? [=]].
    change (entry_of id (on_channel tid (told t') w) = Some e). by rewrite entry_on_channel, bool_decide_eq_false_2.
  - by apply Done.
Qed.

(** C14: A task that settled, whose run has ended and which no cancellation is
    working on, never changes again for as long as it is kept, whatever happens. *)
Theorem settled_is_final id t w w' :
  world_ok w -> at_rest id t w -> rtc (kept id) w w' ->
  te_snapshot <$> entry_of id w' = Some t /\ state_settled (w_state t) = true.
Proof.
  intros O A H. assert (at_rest id t w') as (Hs&(e&He&Ht&_)&_).
  { clear -O A H. induction H as [|a b c [Hs Hk] _ IH]; [done|].
    apply IH; [by eapply world_step|]. by eapply at_rest_step. }
  split; [|done]. rewrite He. simpl. by rewrite Ht.
Qed.

(** Cancelling a task under way, from the call to the answer. *)
Definition cancelled_entry (now : string) (e : TaskEntry) : TaskEntry :=
  let t := cancelled now (te_snapshot e) in
  told t (replaced t (match te_run e with Some r => with_run (abort r) e | None => e end)).

Lemma entry_with_cancel id c w : entry_of id (with_cancel c w) = entry_of id w.
Proof. done. Qed.

Lemma cancel_steps w id e (mid now : string) :
  wd_cancel w = None -> entry_of id w = Some e -> settled_entry e = false ->
  exists w', rtc step w w' /\ wd_cancel w' = None /\ entry_of id w' = Some (cancelled_entry now e).
Proof.
  intros Hc He Hs. pose (params := JObject [("id", JString id)]).
  assert (cancel_read JNull params V1 (wd_server w) = inr (id, te_snapshot e)) as Hr.
  { unfold cancel_read. change (task_id_param params) with id. unfold entry_of, tasks_of in He. rewrite He.
    unfold settled_entry in Hs. by rewrite Hs. }
  eexists. split; [|split].
  - eapply rtc_l; [by eapply step_cancel_read|]. eapply rtc_l; [by eapply step_cancel_abort|].
    eapply rtc_l; [by eapply (step_cancel_replace _ _ _ now)|]. eapply rtc_l; [by eapply step_cancel_tell|].
    apply rtc_once. eapply (step_cancel_save _ _ _ mid). reflexivity.
  - done.
  - set (t := cancelled now (te_snapshot e)).
    change (entry_of id (on_channel id (told t) (on_channel id (replaced t) (on_channel id
      (fun e => match te_run e with Some r => with_run (abort r) e | None => e end) w))) = Some (cancelled_entry now e)).
    rewrite !entry_on_channel, !bool_decide_eq_true_2, He by done. done.
Qed.

Lemma entry_on_run id f w e r :
  entry_of id w = Some e -> te_run e = Some r -> entry_of id (on_run id f w) = Some (with_run (f r) e).
Proof.
  intros He Hr. unfold on_run. rewrite entry_on_channel, bool_decide_eq_true_2, He by done. cbn. by rewrite Hr.
Qed.

Lemma entry_run id w e r : entry_of id w = Some e -> te_run e = Some r -> run_of id w = Some r.
Proof. intros He%entry_channel Hr. apply run_channel. eauto. Qed.

(** A [set] from its beginning to its end, when nothing else happens. *)
Lemma set_steps w w1 id e r now (mid : string) change (last : bool) :
  entry_of id w = Some e -> te_run e = Some r -> step w w1 -> w1 = on_channel id (set_change now change last) w ->
  let t := dated now (change (te_snapshot e)) in
  exists w', rtc step w w' /\
    entry_of id w' = Some (with_run (in_phase (if last then PEnded else PDriving) r) (told t (replaced t e))).
Proof.
  intros He Hr H1 E1 t.
  assert (entry_of id w1 = Some (set_change now change last e)) as He1
    by (rewrite E1, entry_on_channel, bool_decide_eq_true_2, He by done; done).
  assert (te_run (set_change now change last e) = Some (in_phase (PWriting WRead last) r)) as Hr1
    by (unfold set_change, at_phase; cbn [replaced te_run]; by rewrite Hr).
  set (e2 := set_read last (set_change now change last e)).
  assert (te_run e2 = Some (in_phase (PWriting (WSave t) last) r)) as Hr2.
  { unfold e2, set_read. rewrite (at_phase_run _ _ _ Hr1). unfold set_change, at_phase. cbn [replaced te_run]. by rewrite Hr. }
  assert (e2 = with_run (in_phase (PWriting (WSave t) last) r) (replaced t e)) as E2.
  { unfold e2, set_read, set_change, at_phase. cbn [replaced te_run]. rewrite Hr. reflexivity. }
  eexists. split.
  - eapply rtc_l; [exact H1|].
    eapply rtc_l; [eapply (step_read w1 id); [by eapply entry_run|reflexivity]|].
    eapply rtc_l; [eapply (step_save _ id _ t last mid); [eapply (entry_run id _ e2); [|exact Hr2]|reflexivity]|].
    { by rewrite entry_on_channel, bool_decide_eq_true_2, He1 by done. }
    apply rtc_once. eapply (step_tell _ id _ t last); [eapply (entry_run id _ (set_saved t last e2)); [|by unfold set_saved, at_phase; rewrite Hr2]|reflexivity].
    rewrite entry_on_channel, bool_decide_eq_true_2 by done. unfold persisted, entry_of, tasks_of. cbn [on_server wd_server stored sv_tasks].
    fold (tasks_of (on_channel id (set_read last) w1)). fold (entry_of id (on_channel id (set_read last) w1)).
    by rewrite entry_on_channel, bool_decide_eq_true_2, He1 by done.
  - rewrite entry_on_channel, bool_decide_eq_true_2 by done.
    rewrite entry_on_channel, bool_decide_eq_true_2 by done. unfold persisted, entry_of, tasks_of. cbn [on_server wd_server stored sv_tasks].
    fold (tasks_of (on_channel id (set_read last) w1)). fold (entry_of id (on_channel id (set_read last) w1)).
    rewrite entry_on_channel, bool_decide_eq_true_2, He1 by done. cbn [fmap option_fmap option_map]. fold e2.
    rewrite E2. by destruct last.
Qed.

(** A cancellation that is answered as done can be undone by the run it
    aborted: when the run has been polled but has not marked its task yet, the
    task ends up working for good with nothing running it; when the run is back
    from its session, the cancelled task ends up completed. *)
Theorem cancelled_revives w id e r (mid now : string) :
  wd_cancel w = None -> entry_of id w = Some e -> te_run e = Some r -> settled_entry e = false ->
  (r_phase r = PEntered -> r_handle r = true ->
   exists w1 w2, rtc step w w1 /\ wd_cancel w1 = None /\ option_map (fun e => w_state (te_snapshot e)) (entry_of id w1) = Some Canceled /\
     rtc step w1 w2 /\
     option_map (fun e => (w_state (te_snapshot e), option_map r_phase (te_run e))) (entry_of id w2) = Some (Working, Some PDropped)) /\
  (forall result, r_phase r = PReturned (Ok result) -> sr_success result = true ->
   exists w1 w2, rtc step w w1 /\ wd_cancel w1 = None /\ option_map (fun e => w_state (te_snapshot e)) (entry_of id w1) = Some Canceled /\
     rtc step w1 w2 /\
     option_map (fun e => w_state (te_snapshot e)) (entry_of id w2) = Some A2aWire.Completed).
Proof.
  intros Hc He Hr Hs. destruct (cancel_steps w id e mid now Hc He Hs) as (w1&H1&Hc1&He1).
  assert (te_run (cancelled_entry now e) = Some (abort r)) as Hr1 by (unfold cancelled_entry; by rewrite Hr).
  pose proof (entry_run id w1 _ _ He1 Hr1) as Hrun1.
  split; [intros Hp Hh|intros result Hp Hok]; exists w1.
  - destruct (set_steps w1 _ id _ _ now mid working false He1 Hr1 ltac:(by eapply step_working) eq_refl) as (w2&H2&He2).
    eexists. split; [exact H1|]. split; [exact Hc1|]. split; [by rewrite He1|]. split.
    + etrans; [exact H2|]. apply rtc_once. eapply step_drop with (id := id).
      * eapply entry_run; [exact He2|reflexivity].
      * by right.
      * cbn [in_phase abort r_aborted]. rewrite Hh. apply orb_true_r.
    + by rewrite (entry_on_run id (in_phase PDropped) _ _ _ He2 eq_refl).
  - destruct (set_steps w1 _ id _ _ now mid (concluded (Ok result)) true He1 Hr1 ltac:(by eapply step_conclude) eq_refl) as (w2&H2&He2).
    exists w2. split; [exact H1|]. split; [exact Hc1|]. split; [by rewrite He1|]. split; [exact H2|].
    rewrite He2. cbn. by rewrite Hok.
Qed.

(** ** Pages *)

(** What a caller collects by following the tokens. *)
Definition page_params (token : string) (params : Value) : Value := jset "pageToken" (JString token) params.

Fixpoint all_pages (fuel : nat) (params : Value) (m : TaskMap) : list WireTask :=
  match fuel with
  | O => []
  | S fuel' =>
      (page params m ++
       (if bool_decide (next_token params m = "") then []
        else all_pages fuel' (page_params (next_token params m) params) m))%list
  end.

Lemma jget_page token params k :
  k <> "pageToken" -> jget k (page_params token params) = jget k params.
Proof.
  intros N. unfold page_params. destruct params as [| | | | | |fields]; try done.
  rewrite jget_jset. by rewrite bool_decide_eq_false_2.
Qed.

Lemma matching_page token params m : matching (page_params token params) m = matching params m.
Proof.
  unfold matching. apply filter_ext_elem. intros t _. unfold wanted, str_field. by rewrite !jget_page.
Qed.

Lemma size_page token params : page_size (page_params token params) = page_size params.
Proof. unfold page_size. by rewrite jget_page. Qed.

Lemma page_size_pos params : (1 <= page_size params <= 100)%nat.
Proof. unfold page_size, MAX_PAGE_SIZE. lia. Qed.

Lemma offset_page n fields :
  parse_unsigned U64_MAX (pretty n) = Some n -> page_offset (page_params (pretty n) (JObject fields)) = n.
Proof.
  intros P. unfold page_offset, page_params, str_field. rewrite jget_jset, bool_decide_eq_true_2 by done.
  cbn [as_str]. by rewrite P.
Qed.

(** Printing a number and parsing it back. *)
Lemma pretty_char_digit x : (x < 10)%N -> byte_of (pretty_N_char x) = 48 + Z.of_N x.
Proof.
  intros H. assert (x = 0 \/ x = 1 \/ x = 2 \/ x = 3 \/ x = 4 \/ x = 5 \/ x = 6 \/ x = 7 \/ x = 8 \/ x = 9)%N as Hx by lia.
  destruct_or! Hx; subst x; reflexivity.
Qed.

Lemma digit_char x : (x < 10)%N -> is_ascii_digit (48 + Z.of_N x) = true.
Proof. intros H. unfold is_ascii_digit. apply andb_true_intro. split; apply Z.leb_le; lia. Qed.

Lemma parse_pretty_go x s : parse_digits 0 (pretty_N_go x s) = parse_digits (Z.of_N x) s.
Proof.
  revert s. induction (N.lt_wf_0 x) as [x _ IH]; intros s.
  destruct (decide (x = 0)%N) as [->|N]; [by rewrite pretty_N_go_0|].
  rewrite pretty_N_go_step by lia. rewrite IH by (apply N.div_lt; lia). cbn [parse_digits].
  pose proof (N.mod_lt x 10 ltac:(done)) as Hm. rewrite pretty_char_digit by done.
  rewrite digit_char by done. f_equal. rewrite N2Z.inj_div, N2Z.inj_mod.
  pose proof (Z.div_mod (Z.of_N x) 10 ltac:(done)). lia.
Qed.

Lemma pretty_go_head x s :
  (0 < x)%N -> exists a s', pretty_N_go x s = String a s' /\ is_ascii_digit (byte_of a) = true.
Proof.
  revert s. induction (N.lt_wf_0 x) as [x _ IH]; intros s Hx.
  rewrite pretty_N_go_step by done.
  destruct (decide (x < 10)%N) as [L|G].
  - rewrite N.div_small by done. rewrite pretty_N_go_0. eexists _, _. split; [done|].
    rewrite N.mod_small by done. rewrite pretty_char_digit by done. by apply digit_char.
  - apply IH; [apply N.div_lt; lia|]. apply N.div_str_pos. lia.
Qed.

Lemma pretty_nonneg n : 0 <= n -> pretty n = pretty (Z.to_N n).
Proof. by destruct n. Qed.

(** A number's digits: there are some, and they are read back as the number. *)
Lemma pretty_digits n : 0 <= n ->
  exists a s', pretty n = String a s' /\ is_ascii_digit (byte_of a) = true /\ parse_digits 0 (pretty n) = Some n.
Proof.
  intros H. rewrite pretty_nonneg by done. unfold pretty, pretty_N.
  destruct (decide (Z.to_N n = 0)%N) as [E|N].
  - eexists _, _. split; [done|]. split; [done|]. assert (n = 0) as -> by lia. reflexivity.
  - destruct (pretty_go_head (Z.to_N n) "" ltac:(lia)) as (a&s'&E&D). exists a, s'.
    split; [done|]. split; [done|]. rewrite parse_pretty_go. cbn [parse_digits]. by rewrite Z2N.id.
Qed.

Lemma parse_pretty max n : 0 <= n <= max -> parse_unsigned max (pretty n) = Some n.
Proof.
  intros [H1 H2]. destruct (pretty_digits n H1) as (a&s&E&D&P). unfold parse_unsigned. rewrite E in *.
  assert ((byte_of a =? 43) = false) as -> by (unfold is_ascii_digit in D; lia).
  rewrite P. assert ((n <=? max) = true) as -> by lia. done.
Qed.

Lemma pretty_not_empty n : 0 <= n -> pretty n <> "".
Proof. intros H. destruct (pretty_digits n H) as (a&s&E&_). by rewrite E. Qed.

(** A page is the piece of the matching tasks at the offset. *)
Lemma page_at params m n :
  page_offset params = Z.of_nat n -> page params m = take (page_size params) (drop n (matching params m)).
Proof.
  intros E. unfold page, skip. rewrite E.
  destruct (Z.leb_spec (Z.of_nat (length (matching params m))) (Z.of_nat n)) as [L|L].
  - by rewrite drop_ge by lia.
  - by rewrite Nat2Z.id.
Qed.

Lemma pages_from fuel fields m n :
  Z.of_nat (length (matching (JObject fields) m)) <= U64_MAX ->
  page_offset (JObject fields) = Z.of_nat n -> (n <= length (matching (JObject fields) m))%nat ->
  (length (matching (JObject fields) m) < fuel + n)%nat ->
  all_pages fuel (JObject fields) m = drop n (matching (JObject fields) m).
Proof.
  intros Hu. revert fields n Hu. induction fuel as [|fuel IH]; intros fields n Hu E Ln F.
  { cbn [all_pages]. by rewrite drop_ge by lia. }
  pose proof (page_size_pos (JObject fields)) as Hs.
  cbn [all_pages].
  pose proof (page_at (JObject fields) m n E) as Hp.
  assert (length (page (JObject fields) m) = Nat.min (page_size (JObject fields)) (length (matching (JObject fields) m) - n)) as Hl
    by (rewrite Hp, length_take, length_drop; done).
  remember (next_token (JObject fields) m) as tok eqn:T. unfold next_token in T. rewrite E, Hl in T.
  rewrite wrap64_small in T by (unfold is_u64; lia).
  destruct (Z.ltb_spec (Z.of_nat n + Z.of_nat (Nat.min (page_size (JObject fields))
    (length (matching (JObject fields) m) - n))) (Z.of_nat (length (matching (JObject fields) m)))) as [L|L].
  - rewrite bool_decide_eq_false_2 by (rewrite T; apply pretty_not_empty; lia).
    assert (page_params tok (JObject fields) = JObject (set_field "pageToken" (JString tok) fields)) as Ep by done.
    pose proof (matching_page tok (JObject fields) m) as Em.
    assert (page_offset (page_params tok (JObject fields)) = Z.of_nat (n + page_size (JObject fields))) as Eo.
    { rewrite T, offset_page by (apply parse_pretty; lia). lia. }
    rewrite Ep in Em, Eo |- *. rewrite (IH _ (n + page_size (JObject fields))%nat); rewrite ?Em; [|lia|done|lia|lia].
    rewrite Hp, <- drop_drop. apply take_drop.
  - rewrite bool_decide_eq_true_2 by done. rewrite app_nil_r, Hp. apply take_ge. rewrite length_drop. lia.
Qed.

Lemma matching_length params m : (length (matching params m) <= length (tm_order m))%nat.
Proof.
  unfold matching. etrans; [apply filter_length_le|]. rewrite length_map, <- (length_rev (tm_order m)).
  generalize (rev (tm_order m)) as order. intros order. induction order as [|x order IH]; [done|].
  cbn [omap list_omap length]. destruct (bt_get x (tm_entries m)); cbn [length]; lia.
Qed.

Lemma matching_ids params m : store_ok m -> NoDup (map w_id (matching params m)).
Proof.
  intros [W D K I]. unfold matching.
  assert (forall l, NoDup l -> NoDup (map w_id (map te_snapshot (omap (fun id => bt_get id (tm_entries m)) l))) /\
    (forall id, id ∈ map w_id (map te_snapshot (omap (fun id => bt_get id (tm_entries m)) l)) -> id ∈ l)) as H.
  { induction 1 as [|x l N _ [IH1 IH2]]; simpl; [split; [constructor|done]|].
    destruct (bt_get x (tm_entries m)) as [e|] eqn:E; simpl.
    - rewrite (I x e E). split; [constructor; auto|].
      intros id [->|H]%elem_of_cons; [by left|right; auto].
    - split; [done|]. intros id H. right. auto. }
  destruct (H (rev (tm_order m))) as [H1 _]; [by apply NoDup_ListNoDup, List.NoDup_rev, NoDup_ListNoDup|].
  revert H1. generalize (map te_snapshot (omap (fun id => bt_get id (tm_entries m)) (rev (tm_order m)))) as l.
  intros l. apply nodup_map_filter.
Qed.

(** Following the page tokens from the first page to the last, with any page
    size, gives exactly the tasks that match, newest first, each once. *)
Theorem pages_cover fields m fuel :
  store_ok m -> (length (tm_order m) <= MAX_RETAINED_TASKS)%nat ->
  jget "pageToken" (JObject fields) = None -> (length (tm_order m) < fuel)%nat ->
  all_pages fuel (JObject fields) m =
    List.filter (wanted (JObject fields))
      (map te_snapshot (omap (fun id => bt_get id (tm_entries m)) (rev (tm_order m)))) /\
  NoDup (map w_id (all_pages fuel (JObject fields) m)).
Proof.
  intros O L T F. pose proof (matching_length (JObject fields) m) as Hm.
  assert (all_pages fuel (JObject fields) m = matching (JObject fields) m) as E.
  { rewrite (pages_from fuel fields m 0); [done| | |lia|lia].
    - assert (Z.of_nat MAX_RETAINED_TASKS <= U64_MAX) by (apply Z.leb_le; reflexivity). lia.
    - unfold page_offset, str_field. by rewrite T. }
  rewrite E. split; [done|by apply matching_ids].
Qed.

(** ** Tokens *)

Lemma same_secret_spec a b : same_secret a b = true <-> a = b.
Proof.
  unfold same_secret.
  assert (forall l acc, (fold_left (fun diff (p : Z * Z) => Z.lor diff (Z.lxor p.1 p.2)) l acc =? 0) = true <->
    acc = 0 /\ Forall (fun p => p.1 = p.2) l) as H.
  { induction l as [|p l IH]; intros acc; cbn [fold_left]; [rewrite Z.eqb_eq; naive_solver|].
    rewrite IH, Z.lor_eq_0_iff, Z.lxor_eq_0_iff, list.Forall_cons. tauto. }
  rewrite andb_true_iff, bool_decide_eq_true, H. split.
  - intros (L&_&F). revert b L F. induction a as [|x a IH]; intros [|y b] L F; try done.
    apply list.Forall_cons in F as [E F]. cbn [fst snd] in E. subst. f_equal. apply IH; [by injection L|done].
  - intros ->. split; [done|]. split; [done|]. induction b; constructor; auto.
Qed.

Lemma splitn2_inv c s x t : splitn_char 2 c s = [x; t] -> s = x +:+ String c t.
Proof.
  unfold splitn_char. match goal with |- ?f _ _ = _ -> _ => set (go := f) end.
  assert (forall rest acc, go acc rest = [x; t] -> acc +:+ rest = x +:+ String c t) as H.
  { induction rest as [|a rest IH]; intros acc; simpl; [done|]. case_bool_decide as E.
    - intros [= -> ->]. by subst a.
    - intros Hg%IH. rewrite <- Hg, str_app_assoc. done. }
  intros Hg%H. exact Hg.
Qed.

Lemma splitn2_intro c x t : absent c x = true -> splitn_char 2 c (x +:+ String c t) = [x; t].
Proof.
  intros Ha. unfold splitn_char. match goal with |- ?f _ _ = _ => set (go := f) end.
  assert (forall x acc, absent c x = true -> go acc (x +:+ String c t) = [acc +:+ x; t]) as H.
  { clear x Ha. induction x as [|a x IH]; intros acc Ha.
    - change (EmptyString +:+ String c t) with (String c t). simpl. rewrite bool_decide_eq_true_2 by done.
      by rewrite str_app_nil_r.
    - cbn [absent] in Ha. apply andb_true_iff in Ha as [N Ha]. apply negb_true_iff, bool_decide_eq_false in N.
      change (String a x +:+ String c t) with (String a (x +:+ String c t)). simpl.
      rewrite bool_decide_eq_false_2 by done. rewrite IH by done. by rewrite str_app_assoc. }
  by rewrite (H x EmptyString Ha).
Qed.

Lemma absent_lower s : absent SPACE (to_ascii_lowercase s) = true -> absent SPACE s = true.
Proof.
  induction s as [|a s IH]; [done|]. cbn [to_ascii_lowercase absent].
  rewrite !andb_true_iff, !negb_true_iff, !bool_decide_eq_false. intros [N H]. split; [|auto].
  intros ->. by apply N.
Qed.

Lemma bearer_token_spec header t :
  bearer_token header = Some t <->
  exists scheme rest, header = Some (scheme +:+ String SPACE rest) /\ to_ascii_lowercase scheme = "bearer" /\ t = trim rest.
Proof.
  unfold bearer_token. split.
  - destruct header as [v|]; [|done]. destruct (splitn_char 2 SPACE v) as [|x [|y [|z l]]] eqn:E; try done.
    destruct (eq_ignore_case x "bearer") eqn:Q; [|done]. intros [= <-]. exists x, y.
    split; [by rewrite (splitn2_inv _ _ _ _ E)|]. split; [|done].
    unfold eq_ignore_case in Q. by apply bool_decide_eq_true in Q.
  - intros (x&y&->&Q&->). rewrite splitn2_intro by (apply absent_lower; by rewrite Q).
    unfold eq_ignore_case. by rewrite Q.
Qed.

(** A call is handled exactly when no tokens are asked for or it carries one
    of them under the bearer scheme; a call refused changes nothing. *)
Theorem route_call_guarded header request tid fresh mid now s :
  let r := route_call header request tid fresh mid now s in
  (is_Some r.2 <->
   sv_tokens s = [] \/
   exists scheme rest, header = Some (scheme +:+ String SPACE rest) /\ to_ascii_lowercase scheme = "bearer" /\
     trim rest ∈ sv_tokens s) /\
  (r.2 = None -> r.1 = s).
Proof.
  intros r. unfold r, route_call.
  assert (is_authorized (sv_tokens s) header = true <->
    sv_tokens s = [] \/ exists t, bearer_token header = Some t /\ t ∈ sv_tokens s) as H.
  { unfold is_authorized. destruct (sv_tokens s) as [|t0 ts]; [naive_solver|].
    destruct (bearer_token header) as [p|]; [|naive_solver].
    assert (forall l ok, fold_left (fun ok token => ok || same_secret (bytes p) (bytes token)) l ok = true <->
      ok = true \/ p ∈ l) as F.
    { induction l as [|x l IH]; intros ok; cbn [fold_left]; [set_solver|].
      rewrite IH, orb_true_iff, same_secret_spec, elem_of_cons. split; [|naive_solver].
      intros [[?|Hb%bytes_inj]|?]; auto. }
    rewrite F. naive_solver. }
  assert (is_Some (if is_authorized (sv_tokens s) header
                   then let '(s, a) := handle request tid fresh mid now s in (s, Some a) else (s, None)).2 <->
          is_authorized (sv_tokens s) header = true) as Hr.
  { destruct (is_authorized (sv_tokens s) header); [|split; [by intros [? [=]]|done]].
    destruct (handle request tid fresh mid now s). cbn [snd]. split; eauto. }
  split.
  - rewrite Hr, H. split; (intros [?|Hx]; [by left|right]).
    + destruct Hx as (t&(x&y&Hv&Q&->)%bearer_token_spec&Hin). eauto.
    + destruct Hx as (x&y&Hv&Q&Hin). exists (trim y). split; [|done]. apply bearer_token_spec. eauto.
  - destruct (is_authorized (sv_tokens s) header); [|done].
    by destruct (handle request tid fresh mid now s).
Qed.

(** ** Streams *)

(** Reading a stream for as long as there is something to read. *)
Fixpoint read_stream (fuel : nat) (mid : string) (e : TaskEntry) (t : TaskStream) : list Value * TaskStream :=
  match fuel with
  | O => ([], t)
  | S fuel' =>
      match stream_next mid e t with
      | Some (Some v, t') => let '(vs, t'') := read_stream fuel' mid e t' in (v :: vs, t'')
      | Some (None, t') => ([], t')
      | None => ([], t)
      end
  end.

Definition ends_stream (u : TaskUpdate) : bool :=
  match u with UStatus t => state_settled (w_state t) | UChunk _ => false end.

(** The updates up to the one that settles the task, that one included. *)
Fixpoint until_settled (us : list TaskUpdate) : list TaskUpdate :=
  match us with
  | [] => []
  | u :: us' => if ends_stream u then [u] else u :: until_settled us'
  end.

Definition update_json (mid : string) (e : TaskEntry) (d : Dialect) (u : TaskUpdate) : Value :=
  match u with
  | UStatus t => status_event_json mid t d
  | UChunk text => artifact_event_json (te_snapshot e) "stream" text d
  end.

Lemma read_updates fuel mid e t :
  ts_first t = None -> ts_done t = false -> (ts_position t <= length (te_updates e))%nat ->
  (length (te_updates e) - ts_position t <= UPDATES_CAPACITY)%nat ->
  (length (te_updates e) - ts_position t < fuel)%nat ->
  let us := until_settled (drop (ts_position t) (te_updates e)) in
  (read_stream fuel mid e t).1 =
    map (fun u => rpc_result (ts_request_id t) (update_json mid e (ts_dialect t) u)) us /\
  ts_done (read_stream fuel mid e t).2 = existsb ends_stream us.
Proof.
  revert t. induction fuel as [|fuel IH]; intros t Ef Ed Hp Hc Hf; [lia|]. cbv zeta. cbn [read_stream].
  unfold stream_next. rewrite Ed, Ef.
  destruct (Nat.ltb_spec UPDATES_CAPACITY (length (te_updates e) - ts_position t)); [lia|].
  destruct (te_updates e !! ts_position t) as [u|] eqn:E.
  - rewrite (drop_S _ u) by done. cbn [until_settled].
    pose proof (lookup_lt_Some _ _ _ E).
    assert (forall b, ts_position (moved t (S (ts_position t)) b) = S (ts_position t)) as Hm by done.
    assert (Hend : forall b, ts_done (moved t (S (ts_position t)) b) = b) by done.
    assert (forall f, read_stream f mid e (moved t (S (ts_position t)) true) = ([], moved t (S (ts_position t)) true)) as Hz
      by (intros [|f]; reflexivity).
    destruct u as [task|text]; cbn [ends_stream].
    + destruct (state_settled (w_state task)) eqn:Q.
      * rewrite Hz. cbn [map fst snd existsb ends_stream]. by rewrite Q.
      * destruct (IH (moved t (S (ts_position t)) false)) as [I1 I2]; [done|done|rewrite ?Hm; lia..|].
        destruct (read_stream fuel mid e _) as [vs t'']. cbn [fst snd map existsb ends_stream] in *.
        rewrite I1, I2, Q. done.
    + destruct (IH (moved t (S (ts_position t)) false)) as [I1 I2]; [done|done|rewrite ?Hm; lia..|].
      destruct (read_stream fuel mid e _) as [vs t'']. cbn [fst snd map existsb ends_stream] in *.
      rewrite I1, I2. done.
  - apply lookup_ge_None in E. rewrite drop_ge by done. cbn. by rewrite Ed.
Qed.

(** A subscriber who keeps up is sent the task as it was when subscribing and
    then every update made since, in order, until the first one that settles
    the task, with which the stream ends. *)
Theorem stream_delivers fuel mid id tid d fresh s e t :
  subscribe id tid d fresh s = RStream t ->
  (length (te_updates e) - ts_position t <= UPDATES_CAPACITY)%nat -> (ts_position t <= length (te_updates e))%nat ->
  (length (te_updates e) - ts_position t < fuel)%nat ->
  exists e0, bt_get tid (tm_entries (sv_tasks s)) = Some e0 /\ ts_position t = length (te_updates e0) /\
  (read_stream (S fuel) mid e t).1 =
    rpc_result id (task_event_json mid (te_snapshot e0) d) ::
    (if settled_entry e0 then []
     else map (fun u => rpc_result id (update_json mid e d u))
            (until_settled (drop (length (te_updates e0)) (te_updates e)))) /\
  ts_done (read_stream (S fuel) mid e t).2 =
    settled_entry e0 || existsb ends_stream (until_settled (drop (length (te_updates e0)) (te_updates e))).
Proof.
  unfold subscribe. intros H Hc Hp Hf.
  destruct (bt_get tid (tm_entries (sv_tasks s))) as [e0|] eqn:E; [|done].
  destruct (negb fresh && state_is_terminal (w_state (te_snapshot e0))); [done|]. injection H as <-.
  cbn [ts_position] in *. exists e0. split; [done|]. split; [done|].
  cbn [read_stream]. unfold stream_next. cbn [ts_done ts_first ts_request_id ts_dialect ts_position].
  fold (settled_entry e0). destruct (settled_entry e0) eqn:Q.
  - assert (forall t f, ts_done t = true -> read_stream f mid e t = ([], t)) as Hz.
    { intros t [|f] Ht; [done|]. cbn [read_stream]. unfold stream_next. by rewrite Ht. }
    rewrite Hz by done. done.
  - destruct (read_updates fuel mid e (moved {| ts_request_id := id; ts_task := tid; ts_dialect := d;
      ts_first := Some (te_snapshot e0); ts_position := length (te_updates e0); ts_done := false |}
      (length (te_updates e0)) false)) as [I1 I2]; [done..|].
    destruct (read_stream fuel mid e _) as [vs t']. cbn [fst snd] in *. rewrite I1, I2. done.
Qed.
