(* ===== verification/A2aClientFacts.v ===== *)
(** * What the A2A client promises

    Attempts end by their deadline, calls are made at most twice, nothing leaves
    in cleartext, abandoned tasks are cancelled, and events do not depend on how
    their bytes were cut. *)

From S2P Require Export A2aClient.
From stdpp Require Import relations.
Open Scope string_scope.
Open Scope Z_scope.

(** ** Relations every computation keeps *)

Section Preserves.
  Context {S : Type} (R : Client S -> Client S -> Prop) `{!PreOrder R}.

Definition preserves {A} (m : CM (S := S) A) : Prop := forall c, R c (m c).1.

Lemma preserves_ret {A} (a : A) : preserves (c_ret a).
Proof. intros c. reflexivity. Qed.

Lemma preserves_bind {A B} (m : CM A) (f : A -> CM B) :
  preserves m -> (forall a, preserves (f a)) -> preserves (c_bind m f).
Proof.
  intros Hm Hf c. unfold c_bind. specialize (Hm c).
  destruct (m c) as [c' [a| |]]; cbn [fst] in *; [|done|done]. etransitivity; [exact Hm|apply Hf].
Qed.

Lemma preserves_try {A B E} (m : CM (result A E)) (f : A -> CM (result B E)) :
  preserves m -> (forall a, preserves (f a)) -> preserves (c_try m f).
Proof. intros Hm Hf. apply preserves_bind; [done|]. intros [a|e]; [apply Hf|apply preserves_ret]. Qed.
End Preserves.

(** A computation that never runs out of fuel from a client of a kind the
    relation keeps, and that is cut short at the deadline only. *)
Definition at_deadline {S} (c : Client S) : Prop := cl_deadline c = Some (cl_now c).

Definition ends_well {S A} (c : Client S) (e : Ended A) : Prop :=
  match e with Came _ => True | Elapsed => at_deadline c | NoFuel => False end.

Section Fuelled.
  Context {S : Type} (K : Client S -> Prop).

Definition fuelled {A} (m : CM (S := S) A) : Prop := forall c, K c -> K (m c).1 /\ ends_well (m c).1 (m c).2.

Lemma fuelled_ret {A} (a : A) : fuelled (c_ret a).
Proof. intros c H. by split. Qed.

Lemma fuelled_bind {A B} (m : CM A) (f : A -> CM B) :
  fuelled m -> (forall a, fuelled (f a)) -> fuelled (c_bind m f).
Proof.
  intros Hm Hf c Hc. unfold c_bind. destruct (Hm c Hc) as [H1 H2].
  destruct (m c) as [c' [a| |]]; cbn [fst snd] in *; [by apply Hf|done|done].
Qed.

Lemma fuelled_try {A B E} (m : CM (result A E)) (f : A -> CM (result B E)) :
  fuelled m -> (forall a, fuelled (f a)) -> fuelled (c_try m f).
Proof. intros Hm Hf. apply fuelled_bind; [done|]. intros [a|e]; [apply Hf|apply fuelled_ret]. Qed.
End Fuelled.

(** ** Attempts end *)

Section Ends.
  Context {S : Type} (rm : Remote S) (ad : Adapter).
  (** Answers and chunks take time, never a negative amount of it. *)
  Hypothesis delays : forall o r, let '(_, d, a) := rm_send rm o r in
    0 <= d /\ match a with Ok h => Forall (fun p => 0 <= p.1) (ht_body h) | Err _ => True end.

(** Time goes on and the deadline [t], which has not passed, stays. *)
Definition in_time (t from : Z) (c : Client S) : Prop :=
  cl_deadline c = Some t /\ from <= cl_now c <= t.

Lemma in_time_later t from c c' :
  in_time t from c -> cl_deadline c' = cl_deadline c -> cl_now c' = cl_now c -> in_time t from c'.
Proof. unfold in_time. intros [H1 H2] -> ->. done. Qed.

Lemma fuelled_wait t from d : 0 <= d -> fuelled (in_time t from) (wait (S := S) d).
Proof.
  intros Hd c [H1 H2]. unfold wait. rewrite H1. destruct (Z.ltb_spec t (cl_now c + d)); cbn [fst snd]; (split; [|done]);
    split; cbn [at_time cl_deadline cl_now]; (done || lia).
Qed.

Lemma wait_came t from d c c' :
  in_time t from c -> wait (S := S) d c = (c', Came tt) -> cl_now c' = cl_now c + d /\ cl_now c + d <= t /\ cl_deadline c' = Some t.
Proof.
  intros [H1 H2]. unfold wait. rewrite H1. destruct (Z.ltb_spec t (cl_now c + d)); [done|]. by intros [= <-].
Qed.

Lemma fuelled_exchange t from r : fuelled (in_time t from) (exchange rm r).
Proof.
  intros c Hc. unfold exchange. pose proof (delays (cl_other c) r) as Hd.
  destruct (rm_send rm (cl_other c) r) as [[o d] a]. destruct Hd as [Hd _].
  apply (fuelled_bind _ (wait d)); [by apply fuelled_wait|intros []; apply fuelled_ret|exact Hc].
Qed.

(** The bodies that come back take time too. *)
Lemma exchange_body r c c' a h :
  exchange rm r c = (c', Came a) -> a = Ok h -> Forall (fun p => 0 <= p.1) (ht_body h).
Proof.
  unfold exchange. pose proof (delays (cl_other c) r) as Hd.
  destruct (rm_send rm (cl_other c) r) as [[o d] a']. destruct Hd as [_ Hd].
  unfold c_bind. destruct (wait d _) as [c1 [[]| |]]; [|done|done]. intros [= _ ->] ->. exact Hd.
Qed.

Lemma fuelled_read_chunks t from body acc :
  Forall (fun p => 0 <= p.1) body -> fuelled (in_time t from) (read_chunks (S := S) ad body acc).
Proof.
  revert acc. induction body as [|[d item] body IH]; intros acc F; cbn [read_chunks]; [apply fuelled_ret|].
  apply list.Forall_cons in F as [Fd F]. apply fuelled_bind; [by apply fuelled_wait|]. intros [].
  destruct item as [chunk|err]; [|apply fuelled_ret].
  destruct (_ <? _); [apply fuelled_ret|by apply IH].
Qed.

Lemma fuelled_read_bounded t from h :
  Forall (fun p => 0 <= p.1) (ht_body h) -> fuelled (in_time t from) (read_bounded (S := S) ad h).
Proof.
  intros F. unfold read_bounded.
  assert (forall X, fuelled (in_time t from) (c_try (read_chunks (S := S) ad (ht_body h) [])
    (fun bs : list Z => c_ret (X bs : Result string)))) as H.
  { intros X. apply fuelled_try; [by apply fuelled_read_chunks|]. intros bs. apply fuelled_ret. }
  destruct (ht_content_length h) as [n|]; [|apply H]. destruct (_ <? n); [apply fuelled_ret|apply H].
Qed.

(** A call of [exchange] followed by what only reads the body it brought. *)
Lemma fuelled_exchange_bind {B} t from r (f : result HttpResponse HttpError -> CM B) :
  (forall a, (forall h, a = Ok h -> Forall (fun p => 0 <= p.1) (ht_body h)) -> fuelled (in_time t from) (f a)) ->
  fuelled (in_time t from) (c_bind (exchange rm r) f).
Proof.
  intros Hf c Hc. unfold c_bind. destruct (fuelled_exchange t from r c Hc) as [H1 H2].
  destruct (exchange rm r c) as [c' [a| |]] eqn:E; cbn [fst snd] in *; [|done|done].
  apply Hf; [|done]. intros h. by eapply exchange_body.
Qed.

Lemma fuelled_post_bind {B} t from url method params timeout streaming
    (f : result HttpResponse CallError -> CM (S := S) B) :
  (forall a, (forall h, a = Ok h -> Forall (fun p => 0 <= p.1) (ht_body h)) -> fuelled (in_time t from) (f a)) ->
  fuelled (in_time t from) (c_bind (post rm ad url method params timeout streaming) f).
Proof.
  intros Hf. unfold post.
  assert (forall r (g : result HttpResponse HttpError -> result HttpResponse CallError),
    (forall a h, g a = Ok h -> a = Ok h) ->
    fuelled (in_time t from) (c_bind (c_bind (exchange rm r) (fun a => c_ret (g a))) f)) as H.
  { intros r g Hg c Hc. pose proof (fuelled_exchange_bind t from r (fun a => f (g a))) as Hx.
    specialize (Hx ltac:(intros a Ha; apply Hf; intros h E; apply Ha; by apply Hg) c Hc).
    unfold c_bind, c_ret in *. destruct (exchange rm r c) as [c' [a| |]]; exact Hx. }
  apply H. intros [h0|err] h; [|done]. destruct (status_error rm ad method h0); [done|]. by intros [= ->].
Qed.

Lemma fuelled_call_raw t from url method params timeout :
  fuelled (in_time t from) (call_raw rm ad url method params timeout).
Proof.
  unfold call_raw, c_try. apply fuelled_post_bind. intros [h|e] Ha; [|apply fuelled_ret].
  apply fuelled_bind; [apply fuelled_read_bounded; by apply Ha|]. intros b. apply fuelled_ret.
Qed.

Lemma fuelled_still {A} t from (m : CM (S := S) A) :
  (forall c, (exists a, (m c).2 = Came a) /\ cl_deadline (m c).1 = cl_deadline c /\ cl_now (m c).1 = cl_now c) ->
  fuelled (in_time t from) m.
Proof. intros H c Hc. destruct (H c) as ([a E]&H2&H3). split; [by eapply in_time_later|by rewrite E]. Qed.

Lemma fuelled_forward t from text : fuelled (in_time t from) (forward (S := S) text).
Proof. apply fuelled_still. intros c. unfold forward. case_bool_decide; eauto. Qed.

Lemma fuelled_guard t from f : fuelled (in_time t from) (guard_task (S := S) f).
Proof. apply fuelled_still. intros c. cbn. eauto. Qed.

Lemma fuelled_call t from method params timeout :
  fuelled (in_time t from) (call rm ad method params timeout).
Proof.
  unfold call. apply fuelled_bind; [apply fuelled_still; intros ?; cbn; by eauto|]. intros peer.
  apply fuelled_bind; [apply fuelled_call_raw|]. intros [v|e]; [apply fuelled_ret|].
  destruct (unrecognised _ _ _); [|apply fuelled_ret].
  apply fuelled_bind; [apply fuelled_still; intros ?; cbn; by eauto|]. intros _.
  apply fuelled_bind; [apply fuelled_still; intros ?; cbn; by eauto|]. intros m.
  apply fuelled_bind; [apply fuelled_call_raw|]. intros a. apply fuelled_ret.
Qed.

(** The rounds left before the deadline. *)
Lemma poll_fuelled t fuel task delay c from :
  in_time t from c -> POLL_INITIAL <= delay -> (Z.to_nat ((t - cl_now c) / POLL_INITIAL) < fuel)%nat ->
  in_time t from (poll rm ad fuel task delay c).1 /\
  ends_well (poll rm ad fuel task delay c).1 (poll rm ad fuel task delay c).2.
Proof.
  revert task delay c. induction fuel as [|fuel IH]; intros task delay c Hc Hd Hf; [lia|].
  assert (0 <= delay) as Hd0 by (unfold POLL_INITIAL in *; lia).
  cbn [poll]. destruct (state_settled (w_state task)); [by split|].
  unfold c_bind. destruct (fuelled_wait t from delay Hd0 c Hc) as [W1 W2].
  destruct (wait delay c) as [c1 [[]| |]] eqn:Ew; cbn [fst snd] in *; [|done|done].
  destruct (wait_came t from _ _ _ Hc Ew) as (Hn1&Hn2&Hdl).
  assert (in_time t (cl_now c1) c1) as Hc1 by (split; [done|lia]).
  unfold c_try, c_bind.
  destruct (fuelled_call t (cl_now c1) GET_TASK (JObject [("id", JString (w_id task))]) (Some SHORT_CALL) c1 Hc1) as [C1 C2].
  destruct (call rm ad GET_TASK _ _ c1) as [c2 [a| |]]; cbn [fst snd] in *.
  2: { split; [|done]. destruct C1, Hc. split; [done|lia]. }
  2: done.
  assert (in_time t from c2) as Hc2 by (destruct C1, Hc; split; [done|lia]).
  destruct a as [v|e]; [|by split]. destruct (polled_task v) as [task'|]; [|by split].
  apply IH; [done|unfold POLL_INITIAL, POLL_MAX in *; lia|].
  destruct C1 as [_ [Hge Hle]]. destruct Hc as [_ Hct].
  assert (0 <= (t - cl_now c2) / POLL_INITIAL) by (apply Z.div_pos; unfold POLL_INITIAL in *; lia).
  assert ((t - cl_now c2) / POLL_INITIAL + 1 <= (t - cl_now c) / POLL_INITIAL); [|lia].
  unfold POLL_INITIAL in *. rewrite <- Z.div_add by done. apply Z.div_le_mono; lia.
Qed.

Lemma fuelled_poll_until_settled t from task : fuelled (in_time t from) (poll_until_settled rm ad task).
Proof.
  intros c Hc. unfold poll_until_settled, poll_fuel. pose proof Hc as [-> _].
  apply poll_fuelled; [done|done|lia].
Qed.

Lemma fuelled_run_blocking t from prompt : fuelled (in_time t from) (run_blocking rm ad prompt).
Proof.
  unfold run_blocking. apply fuelled_bind; [apply fuelled_still; intros ?; cbn; by eauto|]. intros peer.
  apply fuelled_bind; [apply fuelled_still; intros ?; cbn; by eauto|]. intros m.
  apply fuelled_try; [apply fuelled_call|]. intros v.
  destruct (parse_send_result v) as [[task|text]|]; [| |apply fuelled_ret].
  - apply fuelled_bind; [apply fuelled_guard|]. intros _.
    apply fuelled_try; [apply fuelled_poll_until_settled|]. intros task'.
    apply fuelled_bind; [apply fuelled_forward|]. intros _. apply fuelled_ret.
  - apply fuelled_bind; [apply fuelled_forward|]. intros _. apply fuelled_ret.
Qed.

Lemma fuelled_on_events t from method datas f : fuelled (in_time t from) (on_events rm ad method datas f).
Proof.
  revert f. induction datas as [|data datas IH]; intros f; cbn [on_events]; [apply fuelled_ret|].
  destruct (parse_envelope _ _); [|apply fuelled_ret]. destruct (parse_stream_event _); [|apply IH].
  destruct (apply_event _ _) as [f' text]. apply fuelled_bind.
  - destruct text; [apply fuelled_forward|apply fuelled_ret].
  - intros _. apply fuelled_bind; [apply fuelled_guard|]. intros _.
    destruct (follower_finished f'); [apply fuelled_ret|apply IH].
Qed.

Lemma fuelled_follow t from method body buffer f received :
  Forall (fun p => 0 <= p.1) body -> fuelled (in_time t from) (follow rm ad method body buffer f received).
Proof.
  revert buffer f received. induction body as [|[d item] body IH]; intros buffer f received F; cbn [follow];
    [apply fuelled_ret|].
  apply list.Forall_cons in F as [Fd F]. apply fuelled_bind; [by apply fuelled_wait|]. intros [].
  destruct item as [chunk|err]; [|apply fuelled_ret]. destruct (_ <? _); [apply fuelled_ret|].
  destruct (feed buffer chunk) as [buffer' datas]. apply fuelled_try; [apply fuelled_on_events|].
  intros [finished f']. destruct finished; [apply fuelled_ret|by apply IH].
Qed.

Lemma fuelled_run_streaming t from prompt : fuelled (in_time t from) (run_streaming rm ad prompt).
Proof.
  unfold run_streaming. apply fuelled_bind; [apply fuelled_still; intros ?; cbn; by eauto|]. intros peer.
  apply fuelled_bind; [apply fuelled_still; intros ?; cbn; by eauto|]. intros m.
  apply fuelled_post_bind. intros [h|e] Hb; [|apply fuelled_ret]. specialize (Hb h eq_refl).
  destruct (is_sse h).
  - apply fuelled_try; [by apply fuelled_follow|]. intros f. unfold conclude_stream.
    destruct (sf_message f); [apply fuelled_ret|]. destruct (_ || _); [apply fuelled_ret|].
    apply fuelled_try; [apply fuelled_poll_until_settled|]. intros task. apply fuelled_ret.
  - unfold plain_answer. apply fuelled_try; [by apply fuelled_read_bounded|]. intros b.
    destruct (parse_envelope _ _) as [v|e].
    + destruct (parse_stream_event v) as [[task|text| |]|]; try apply fuelled_ret.
      * apply fuelled_bind; [apply fuelled_guard|]. intros _.
        apply fuelled_try; [apply fuelled_poll_until_settled|]. intros task'.
        apply fuelled_bind; [apply fuelled_forward|]. intros _. apply fuelled_ret.
      * apply fuelled_bind; [apply fuelled_forward|]. intros _. apply fuelled_ret.
    + destruct (refuses_streaming e); [|apply fuelled_ret].
      apply fuelled_bind; [apply fuelled_still; intros ?; cbn; by eauto|]. intros _. apply fuelled_ret.
Qed.

Lemma fuelled_attempt t from streaming prompt : fuelled (in_time t from) (attempt rm ad streaming prompt).
Proof.
  unfold attempt. destruct streaming; [|apply fuelled_run_blocking].
  apply fuelled_try; [apply fuelled_run_streaming|]. intros [s|]; [apply fuelled_ret|apply fuelled_run_blocking].
Qed.
End Ends.

(** ** What is sent *)

Section Sent.
  Context {S : Type} (rm : Remote S) (ad : Adapter).
  Implicit Types c : Client S.

(** Only time passes. *)
Definition waits (c c' : Client S) : Prop :=
  cl_sent c' = cl_sent c /\ cl_peer c' = cl_peer c /\ cl_guard c' = cl_guard c /\
  cl_forwarded c' = cl_forwarded c /\ cl_other c' = cl_other c.

#[export] Instance waits_preorder : PreOrder waits.
Proof. split; [by intros ?|]. unfold waits. intros ??? (->&->&->&->&->) (->&->&->&->&->). done. Qed.

Lemma wait_waits d : preserves waits (wait (S := S) d).
Proof. intros c. unfold wait. destruct (cl_deadline c) as [t|]; [destruct (_ <? _)|]; done. Qed.

Lemma read_chunks_waits body acc : preserves waits (read_chunks (S := S) ad body acc).
Proof.
  revert acc. induction body as [|[d item] body IH]; intros acc; cbn [read_chunks]; [apply preserves_ret, _|].
  apply preserves_bind; [apply _|apply wait_waits|]. intros [].
  destruct item; [|apply preserves_ret, _]. destruct (_ <? _); [apply preserves_ret, _|apply IH].
Qed.

Lemma read_bounded_waits h : preserves waits (read_bounded (S := S) ad h).
Proof.
  unfold read_bounded. destruct (ht_content_length h) as [n|]; [destruct (_ <? n); [apply preserves_ret, _|]|];
    (apply preserves_try; [apply _|apply read_chunks_waits|intros ?; apply preserves_ret, _]).
Qed.

(** One more request, and the other end's turn. *)
Lemma exchange_sent r c :
  waits {| cl_other := (rm_send rm (cl_other c) r).1.1; cl_peer := cl_peer c; cl_descriptor := cl_descriptor c;
           cl_now := cl_now c; cl_deadline := cl_deadline c; cl_forwarded := cl_forwarded c;
           cl_guard := cl_guard c; cl_sent := (cl_sent c ++ [r])%list |} (exchange rm r c).1.
Proof.
  unfold exchange. destruct (rm_send rm (cl_other c) r) as [[o d] a]. cbn [fst].
  apply (preserves_bind waits (wait d) (fun _ => c_ret a)); [apply wait_waits|]. intros []. apply preserves_ret, _.
Qed.

Definition request_sent (r : Request) (c c' : Client S) : Prop :=
  cl_sent c' = (cl_sent c ++ [r])%list /\ cl_peer c' = cl_peer c /\ cl_guard c' = cl_guard c.

Lemma exchange_request r c : request_sent r c (exchange rm r c).1.
Proof. by destruct (exchange_sent r c) as (H1&H2&H3&_). Qed.

Lemma call_raw_request url method params timeout c :
  request_sent (Post url method params timeout false (token rm ad)) c (call_raw rm ad url method params timeout c).1.
Proof.
  unfold call_raw, post, c_try, c_bind, c_ret.
  pose proof (exchange_request (Post url method params timeout false (token rm ad)) c) as H.
  destruct (exchange rm _ c) as [c1 [a| |]]; cbn [fst] in *; [|done|done].
  destruct a as [h|e]; [|done]. destruct (status_error rm ad method h); [done|].
  pose proof (read_bounded_waits h c1) as W. destruct (read_bounded ad h c1) as [c2 [b| |]]; cbn [fst] in *;
    destruct W as (W1&W2&W3&_), H as (H1&H2&H3); unfold request_sent; by rewrite W1, W2, W3.
Qed.

(** A call sends one request, in the dialect of the peer; a second one is sent
    exactly when a 1.0 method with an old name was not recognised, it goes to
    the same place under the old name, and the peer is spoken to in the old
    dialect from then on. *)
Theorem call_retries_once method params timeout c :
  let p := cl_peer c in
  let name := wire_name method (pr_dialect p) in
  let first := Post (pr_url p) name params timeout false (token rm ad) in
  let '(c1, answer) := call_raw rm ad (pr_url p) name params timeout c in
  let '(c', final) := call rm ad method params timeout c in
  match answer with
  | Came (Err e) =>
      if unrecognised method (pr_dialect p) e then
        exists old mid, legacy_name method = Some old /\ pr_dialect p = V1 /\
          cl_sent c' = (cl_sent c ++ [first; Post (pr_url p) old (relegacy_params mid method params) timeout false (token rm ad)])%list /\
          cl_peer c' = in_dialect Legacy p
      else cl_sent c' = (cl_sent c ++ [first])%list /\ cl_peer c' = p /\ final = Came (Err (lift ad name e))
  | Came (Ok v) => cl_sent c' = (cl_sent c ++ [first])%list /\ cl_peer c' = p /\ final = Came (Ok v)
  | _ => cl_sent c' = (cl_sent c ++ [first])%list /\ cl_peer c' = p
  end.
Proof.
  cbv zeta. unfold call, get_peer. unfold c_bind at 1. cbv beta iota zeta.
  pose proof (call_raw_request (pr_url (cl_peer c)) (wire_name method (pr_dialect (cl_peer c))) params timeout c) as H.
  unfold c_bind at 1. destruct (call_raw rm ad _ _ _ _ c) as [c1 [[v|e]| |]]; cbn [fst] in H; destruct H as (H1&H2&H3);
    [by unfold c_ret| |done|done].
  destruct (unrecognised method (pr_dialect (cl_peer c)) e) eqn:U; [|by unfold c_ret].
  destruct e as [e|e]; [|done]. cbn [unrecognised] in U. rewrite !andb_true_iff, bool_decide_eq_true in U.
  destruct U as [[_ Hd] Hl]. destruct (legacy_name method) as [old|] eqn:L; [|done].
  unfold c_bind, set_peer, mid, c_ret. cbv beta iota zeta.
  set (c2 := {| cl_other := cl_other c1; cl_peer := _; cl_descriptor := _; cl_now := _; cl_deadline := _;
                cl_forwarded := _; cl_guard := _; cl_sent := _ |}).
  cbn [wire_name]. rewrite L.
  pose proof (call_raw_request (pr_url (cl_peer c)) old (relegacy_params (fresh_mid rm c2) method params) timeout c2) as G.
  destruct (call_raw rm ad _ old _ _ c2) as [c3 a]; cbn [fst] in G; destruct G as (G1&G2&G3).
  assert (exists o m, Some old = Some o /\ pr_dialect (cl_peer c) = V1 /\
    cl_sent c3 = (cl_sent c ++ [Post (pr_url (cl_peer c)) (wire_name method (pr_dialect (cl_peer c))) params timeout false (token rm ad);
      Post (pr_url (cl_peer c)) o (relegacy_params m method params) timeout false (token rm ad)])%list /\
    cl_peer c3 = in_dialect Legacy (cl_peer c)) as X.
  { exists old, (fresh_mid rm c2). split; [done|]. split; [done|]. split.
    - rewrite G1. unfold c2. cbn [cl_sent]. rewrite H1, <- app_assoc. done.
    - rewrite G2. unfold c2. cbn [cl_peer]. by rewrite H2. }
  destruct a as [a| |]; exact X.
Qed.
End Sent.

(** ** Where it is sent *)

Lemma starts_with_longer s pat t : starts_with s pat = true -> starts_with (s +:+ t) pat = true.
Proof. rewrite !starts_with_spec. intros [u ->]. exists (u +:+ t). apply str_app_assoc. Qed.

Lemma before_char_app c s t :
  before_char c (s +:+ String c t) = before_char c s.
Proof.
  induction s as [|a s IH].
  - change (EmptyString +:+ String c t) with (String c t). cbn [before_char]. by rewrite bool_decide_eq_true_2.
  - change (String a s +:+ String c t) with (String a (s +:+ String c t)). cbn [before_char]. by rewrite IH.
Qed.

(** A path added to an acceptable endpoint leaves it acceptable. *)
Lemma acceptable_path e path : acceptable_endpoint e = true -> acceptable_endpoint (e +:+ String (of_byte 47) path) = true.
Proof.
  unfold acceptable_endpoint. rewrite !orb_true_iff. intros [H|H]; [left; by apply starts_with_longer|right].
  revert H. unfold is_local_endpoint.
  destruct (Text.strip_prefix e "http://") as [rest|] eqn:E; [|done]. apply strip_prefix_spec in E as ->.
  rewrite str_app_assoc.
  rewrite (proj2 (strip_prefix_spec _ _ (rest +:+ String (of_byte 47) path)) eq_refl).
  by rewrite before_char_app.
Qed.

(** What an attempt asks for. *)
Definition attempt_methods : list string := [SEND_MESSAGE; SEND_STREAMING_MESSAGE; GET_TASK].

Section Clean.
  Context {S : Type} (rm : Remote S) (ad : Adapter).
  Implicit Types c : Client S.
  (** What is known of the peer's address and of the requests sent. *)
  Context (Pu : string -> Prop) (Pr : Request -> Prop).
  Hypothesis Hpost : forall url method d params timeout streaming,
    Pu url -> method ∈ attempt_methods -> Pr (Post url (wire_name method d) params timeout streaming (token rm ad)).

Definition clean (c c' : Client S) : Prop :=
  Pu (pr_url (cl_peer c)) ->
  Pu (pr_url (cl_peer c')) /\ exists rs, cl_sent c' = (cl_sent c ++ rs)%list /\ Forall Pr rs.

#[export] Instance clean_preorder : PreOrder clean.
Proof.
  split.
  - intros c H. split; [done|]. exists []. by rewrite app_nil_r.
  - intros c1 c2 c3 H12 H23 H. destruct (H12 H) as (H2&rs&E&F). destruct (H23 H2) as (H3&rs'&E'&F').
    split; [done|]. exists (rs ++ rs')%list. split; [by rewrite E', E, app_assoc|by apply Forall_app].
Qed.

Lemma still_clean_to c c' :
  cl_sent c' = cl_sent c -> pr_url (cl_peer c') = pr_url (cl_peer c) -> clean c c'.
Proof. intros H1 H2 H. rewrite H2. split; [done|]. exists []. by rewrite app_nil_r. Qed.

Lemma waits_clean c c' : waits c c' -> clean c c'.
Proof. intros (H1&H2&_). apply still_clean_to; [done|by rewrite H2]. Qed.

Lemma still_clean {A} (m : CM (S := S) A) :
  (forall c, cl_sent (m c).1 = cl_sent c /\ pr_url (cl_peer (m c).1) = pr_url (cl_peer c)) -> preserves clean m.
Proof. intros H c. destruct (H c). by apply still_clean_to. Qed.

Lemma forward_clean text : preserves clean (forward (S := S) text).
Proof. apply still_clean. intros c. unfold forward. by case_bool_decide. Qed.

Lemma exchange_clean r : Pr r -> preserves clean (exchange rm r).
Proof.
  intros Hr c H. destruct (exchange_request rm r c) as (H1&H2&_). rewrite H1, H2. split; [done|].
  exists [r]. split; [done|by constructor].
Qed.

Lemma peer_clean {B} (f : Peer -> CM (S := S) B) :
  (forall p, Pu (pr_url p) -> preserves clean (f p)) -> preserves clean (c_bind get_peer f).
Proof. intros H c Hc. by apply (H (cl_peer c)). Qed.

Lemma post_clean url method d params timeout streaming :
  Pu url -> method ∈ attempt_methods -> preserves clean (post rm ad url (wire_name method d) params timeout streaming).
Proof.
  intros H Hm. apply preserves_bind; [apply _|by apply exchange_clean, Hpost|]. intros a. apply preserves_ret, _.
Qed.

Lemma read_bounded_clean h : preserves clean (read_bounded (S := S) ad h).
Proof. intros c. apply waits_clean. apply read_bounded_waits. Qed.

Lemma call_raw_clean url method d params timeout :
  Pu url -> method ∈ attempt_methods -> preserves clean (call_raw rm ad url (wire_name method d) params timeout).
Proof.
  intros H Hm. apply preserves_try; [apply _|by apply post_clean|]. intros h.
  apply preserves_bind; [apply _|apply read_bounded_clean|]. intros b. apply preserves_ret, _.
Qed.

Lemma call_clean method params timeout :
  method ∈ attempt_methods -> preserves clean (call rm ad method params timeout).
Proof.
  intros Hm. apply peer_clean. intros p Hp. apply preserves_bind; [apply _|by apply call_raw_clean|].
  intros [v|e]; [apply preserves_ret, _|]. destruct (unrecognised _ _ _); [|apply preserves_ret, _].
  apply preserves_bind; [apply _|by apply still_clean|]. intros _.
  apply preserves_bind; [apply _|by apply still_clean|]. intros m.
  apply preserves_bind; [apply _|by apply call_raw_clean|]. intros a. apply preserves_ret, _.
Qed.

Lemma poll_clean fuel t delay : preserves clean (poll rm ad fuel t delay).
Proof.
  revert t delay. induction fuel as [|fuel IH]; intros t delay; cbn [poll]; destruct (state_settled _);
    try apply preserves_ret, _.
  - by intros c.
  - apply preserves_bind; [apply _|intros c; apply waits_clean, wait_waits|]. intros [].
    apply preserves_try; [apply _|apply call_clean; set_solver|]. intros v.
    destruct (polled_task v); [apply IH|apply preserves_ret, _].
Qed.

Lemma poll_until_clean t : preserves clean (poll_until_settled rm ad t).
Proof. intros c. apply poll_clean. Qed.

(** A task followed to its end. *)
Lemma followed_clean {B} (pre : CM (S := S) unit) t (f : WireTask -> CM (S := S) (Result B)) :
  preserves clean pre -> (forall t, preserves clean (f t)) ->
  preserves clean (c_bind pre (fun _ => c_try (poll_until_settled rm ad t) f)).
Proof.
  intros H Hf. apply preserves_bind; [apply _|done|]. intros _.
  apply preserves_try; [apply _|apply poll_until_clean|done].
Qed.

Lemma forwarded_clean {A} text (a : A) : preserves clean (c_bind (forward (S := S) text) (fun _ => c_ret a)).
Proof. apply preserves_bind; [apply _|apply forward_clean|]. intros _. apply preserves_ret, _. Qed.

Lemma run_blocking_clean prompt : preserves clean (run_blocking rm ad prompt).
Proof.
  apply peer_clean. intros p _. apply preserves_bind; [apply _|by apply still_clean|]. intros m.
  apply preserves_try; [apply _|apply call_clean; set_solver|]. intros v.
  destruct (parse_send_result v) as [[task|text]|]; [|apply forwarded_clean|apply preserves_ret, _].
  apply followed_clean; [by apply still_clean|]. intros t. apply forwarded_clean.
Qed.

Lemma on_events_clean method datas f : preserves clean (on_events rm ad method datas f).
Proof.
  revert f. induction datas as [|data datas IH]; intros f; cbn [on_events]; [apply preserves_ret, _|].
  destruct (parse_envelope _ _); [|apply preserves_ret, _]. destruct (parse_stream_event _); [|apply IH].
  destruct (apply_event _ _) as [f' text]. apply preserves_bind; [apply _| |].
  - destruct text; [apply forward_clean|apply preserves_ret, _].
  - intros _. apply preserves_bind; [apply _|by apply still_clean|]. intros _.
    destruct (follower_finished f'); [apply preserves_ret, _|apply IH].
Qed.

Lemma follow_clean method body buffer f received : preserves clean (follow rm ad method body buffer f received).
Proof.
  revert buffer f received. induction body as [|[d item] body IH]; intros buffer f received; cbn [follow];
    [apply preserves_ret, _|].
  apply preserves_bind; [apply _|intros c; apply waits_clean, wait_waits|]. intros [].
  destruct item as [chunk|err]; [|apply preserves_ret, _]. destruct (_ <? _); [apply preserves_ret, _|].
  destruct (feed buffer chunk) as [buffer' datas]. apply preserves_try; [apply _|apply on_events_clean|].
  intros [[] f']; [apply preserves_ret, _|apply IH].
Qed.

Lemma run_streaming_clean prompt : preserves clean (run_streaming rm ad prompt).
Proof.
  apply peer_clean. intros p Hp. apply preserves_bind; [apply _|by apply still_clean|]. intros m.
  apply preserves_bind; [apply _|apply post_clean; [done|set_solver]|]. intros [h|e]; [|apply preserves_ret, _].
  destruct (is_sse h).
  - apply preserves_try; [apply _|apply follow_clean|]. intros f. unfold conclude_stream.
    destruct (sf_message f); [apply preserves_ret, _|]. destruct (_ || _); [apply preserves_ret, _|].
    apply preserves_try; [apply _|apply poll_until_clean|]. intros t. apply preserves_ret, _.
  - apply preserves_try; [apply _|apply read_bounded_clean|]. intros b.
    destruct (parse_envelope _ _) as [v|e].
    + destruct (parse_stream_event v) as [[task|text| |]|]; try apply preserves_ret, _; [|apply forwarded_clean].
      apply followed_clean; [by apply still_clean|]. intros t. apply forwarded_clean.
    + destruct (refuses_streaming e); [|apply preserves_ret, _].
      apply preserves_bind; [apply _|by apply still_clean|]. intros _. apply preserves_ret, _.
Qed.

Lemma attempt_clean streaming prompt : preserves clean (attempt rm ad streaming prompt).
Proof.
  unfold attempt. destruct streaming; [|apply run_blocking_clean].
  apply preserves_try; [apply _|apply run_streaming_clean|].
  intros [s|]; [apply preserves_ret, _|apply run_blocking_clean].
Qed.

End Clean.

(** ** Where cleartext goes *)

(** The authority of a URL, after its scheme, as RFC 3986 delimits it. *)
Definition delimiter (a : ascii) : bool :=
  bool_decide (a = of_byte 47) || bool_decide (a = of_byte 63) || bool_decide (a = of_byte 35).

Fixpoint authority (s : string) : string :=
  match s with
  | EmptyString => EmptyString
  | String a s' => if delimiter a then EmptyString else String a (authority s')
  end.

Definition carries_userinfo (s : string) : bool := negb (absent (of_byte 64) (authority s)).

(** What follows the user information, if there is some. *)
Fixpoint after_userinfo (s : string) : string :=
  match s with
  | EmptyString => EmptyString
  | String _ s' => if absent (of_byte 64) s then s else after_userinfo s'
  end.

(** The host: an address in brackets that only a port follows, or what stands
    before the port. *)
Definition url_host (s : string) : option string :=
  let a := after_userinfo (authority s) in
  match Text.strip_prefix a "[" with
  | Some bracketed =>
      let host := before_char (of_byte 93) bracketed in
      match Text.strip_prefix bracketed (host +:+ "]") with
      | Some "" => Some host
      | Some port => if starts_with port ":" then Some host else None
      | None => None
      end
  | None => Some (before_char (of_byte 58) a)
  end.

Definition this_machine (host : string) : Prop := host = "localhost" \/ host = "127.0.0.1" \/ host = "::1".

(** The URL is a secure one, or its host is this machine, if the URL has a host
    and no user information before it. *)
Definition tls_or_local (url : string) : Prop :=
  starts_with url "https://" = true \/
  exists rest, url = "http://" +:+ rest /\
    (carries_userinfo rest = false -> forall host, url_host rest = Some host -> this_machine host).

Fixpoint undelimited (s : string) : bool :=
  match s with EmptyString => true | String a s' => negb (delimiter a) && undelimited s' end.

Lemma same_host c s :
  delimiter c = false -> undelimited (before_char c (before_char (of_byte 47) s)) = true ->
  before_char c (authority s) = before_char c (before_char (of_byte 47) s).
Proof.
  intros Hc. induction s as [|a s IH]; [done|]. cbn [before_char authority].
  case_bool_decide as Ha; [by subst a|]. cbn [before_char]. case_bool_decide as Hac.
  - subst a. intros _. rewrite Hc. cbn [before_char]. by rewrite bool_decide_eq_true_2.
  - cbn [undelimited]. intros [N H]%andb_true_iff. apply negb_true_iff in N. rewrite N. cbn [before_char].
    rewrite bool_decide_eq_false_2 by done. by rewrite IH.
Qed.

Lemma after_no_userinfo s : absent (of_byte 64) s = true -> after_userinfo s = s.
Proof. destruct s as [|a s]; [done|]. cbn [after_userinfo]. by intros ->. Qed.

Lemma local_word host :
  contains ["localhost"; "127.0.0.1"; "::1"] host = true -> this_machine host /\ undelimited host = true.
Proof.
  intros H%contains_true. unfold this_machine.
  rewrite !list.elem_of_cons, elem_of_nil in H. destruct H as [->|[->|[->|[]]]]; split; auto.
Qed.

Lemma strip_bracket a s :
  Text.strip_prefix (String a s) "[" = if bool_decide (a = of_byte 91) then Some s else None.
Proof.
  case_bool_decide as Ha; [subst a; by apply strip_prefix_spec|].
  destruct (Text.strip_prefix (String a s) "[") as [t|] eqn:E; [|done].
  apply strip_prefix_spec in E. by injection E.
Qed.

(** What the check accepts without TLS has a local host. *)
Lemma local_host rest :
  is_local_endpoint ("http://" +:+ rest) = true -> carries_userinfo rest = false ->
  forall host, url_host rest = Some host -> this_machine host.
Proof.
  intros H Hu host. unfold is_local_endpoint in H.
  rewrite (proj2 (strip_prefix_spec _ _ rest) eq_refl) in H. cbv zeta in H.
  apply negb_false_iff in Hu. unfold url_host. rewrite after_no_userinfo by done. cbv zeta. clear Hu.
  destruct rest as [|a r]; [done|]. cbn [before_char authority] in *.
  case_bool_decide as Ha; [subst a; done|].
  destruct (delimiter a) eqn:Hd.
  { exfalso. rewrite strip_bracket in H. case_bool_decide; [by subst a|]. cbn [before_char] in H.
    destruct (bool_decide (a = of_byte 58)); [done|]. apply local_word in H as [_ H]. cbn [undelimited] in H. by rewrite Hd in H. }
  rewrite strip_bracket in *. case_bool_decide as Hb.
  - apply local_word in H as [H1 H2]. rewrite same_host by done.
    destruct (Text.strip_prefix (authority r) _) as [port|]; [|done].
    destruct port; [by intros [= <-]|]. destruct (starts_with _ ":"); [by intros [= <-]|done].
  - apply local_word in H as [H1 H2]. intros [= <-].
    pose proof (same_host (of_byte 58) (String a r) eq_refl) as X. cbn [authority] in X. rewrite Hd in X.
    assert (before_char (of_byte 47) (String a r) = String a (before_char (of_byte 47) r)) as Y
      by (cbn [before_char]; by rewrite bool_decide_eq_false_2).
    rewrite Y in X. change (this_machine (before_char (of_byte 58) (String a (authority r)))). by rewrite (X H2).
Qed.

Lemma acceptable_tls_or_local url : acceptable_endpoint url = true -> tls_or_local url.
Proof.
  unfold acceptable_endpoint. intros [H|H]%orb_true_iff; [by left|right].
  destruct (Text.strip_prefix url "http://") as [rest|] eqn:E.
  - apply strip_prefix_spec in E as ->. exists rest. split; [done|]. by apply local_host.
  - unfold is_local_endpoint in H. by rewrite E in H.
Qed.

Section Guarded.
  Context {S : Type} (rm : Remote S) (ad : Adapter).
  Implicit Types c : Client S.

(** The peer's address passes the check, and everything sent went over TLS or to
    this machine. *)
Definition guarded (c : Client S) : Prop :=
  acceptable_endpoint (pr_url (cl_peer c)) = true /\ Forall (fun r => tls_or_local (request_url r)) (cl_sent c).

Definition keeps : Client S -> Client S -> Prop :=
  clean (fun url => acceptable_endpoint url = true) (fun r => tls_or_local (request_url r)).

#[export] Instance keeps_preorder : PreOrder keeps.
Proof. apply clean_preorder. Qed.

Lemma keeps_guarded c c' : keeps c c' -> guarded c -> guarded c'.
Proof.
  intros H [G1 G2]. destruct (H G1) as (G3&rs&E&F). split; [done|]. rewrite E. by apply Forall_app.
Qed.

Lemma drop_guard_guarded c : guarded c -> guarded (drop_guard rm ad c).
Proof.
  intros [G1 G2]. unfold drop_guard. destruct (cl_guard c) as [id|]; [|done]. split; [done|].
  cbn [cl_sent]. apply Forall_app. split; [done|]. constructor; [|done]. by apply acceptable_tls_or_local.
Qed.

Lemma fetch_from_clean urls last :
  Forall tls_or_local urls -> preserves keeps (fetch_from rm ad urls last).
Proof.
  revert last. induction urls as [|u urls IH]; intros last F; cbn [fetch_from]; [apply preserves_ret, _|].
  apply list.Forall_cons in F as [Fu F]. apply preserves_bind; [apply _|by apply exchange_clean|].
  intros [h|e]; [|by apply IH]. destruct (negb _); [by apply IH|].
  apply preserves_try; [apply _|apply read_bounded_clean|]. intros b. apply preserves_ret, _.
Qed.

Lemma card_urls_clean :
  acceptable_endpoint (trim_end_matches (fun b => b =? 47) (ad_endpoint ad)) = true ->
  (forall root, rm_root rm (ad_endpoint ad) = Some root -> tls_or_local root) ->
  Forall tls_or_local (card_urls rm ad).
Proof.
  intros Hu Hr. unfold card_urls.
  assert (tls_or_local (trim_end_matches (fun b => b =? 47) (ad_endpoint ad) +:+ AGENT_CARD_PATH)) as Hp
    by (by apply acceptable_tls_or_local, acceptable_path).
  assert (Forall tls_or_local (match rm_root rm (ad_endpoint ad) with Some root => [root] | None => [] end)) as Hroot.
  { destruct (rm_root rm (ad_endpoint ad)) as [root|]; [|constructor]. constructor; [by apply Hr|done]. }
  destruct (contains _ _); [done|]. apply Forall_app. by split; [|constructor].
Qed.

End Guarded.

(** ** What is abandoned *)

Section Abandoned.
  Context {S : Type} (rm : Remote S) (ad : Adapter).
  Implicit Types c : Client S.

Definition asks_for_task (r : Request) : Prop :=
  match r with Post _ m _ _ _ _ => m = GET_TASK \/ m = "tasks/get" | Get _ _ => False end.

(** The task is only asked for, and the guard keeps watching it. *)
Definition watches (c c' : Client S) : Prop :=
  cl_guard c' = cl_guard c /\ exists asked, cl_sent c' = (cl_sent c ++ asked)%list /\ Forall asks_for_task asked.

#[export] Instance watches_preorder : PreOrder watches.
Proof.
  split.
  - intros c. split; [done|]. exists []. split; [by rewrite app_nil_r|constructor].
  - intros c1 c2 c3 [G1 (a1&E1&F1)] [G2 (a2&E2&F2)]. split; [congruence|]. exists (a1 ++ a2)%list.
    split; [by rewrite E2, E1, app_assoc|by apply Forall_app].
Qed.

Lemma watches_same c c' : cl_guard c' = cl_guard c -> cl_sent c' = cl_sent c -> watches c c'.
Proof. intros H1 H2. split; [done|]. exists []. split; [by rewrite app_nil_r|constructor]. Qed.

Lemma watches_request r c c' : asks_for_task r -> request_sent r c c' -> watches c c'.
Proof. intros Hr (H1&_&H3). split; [done|]. exists [r]. split; [done|]. by repeat constructor. Qed.

Lemma call_watches params timeout : preserves watches (call rm ad GET_TASK params timeout).
Proof.
  assert (forall d, wire_name GET_TASK d = GET_TASK \/ wire_name GET_TASK d = "tasks/get") as Hn
    by (intros []; [by left|by right]).
  intros c. unfold call, get_peer, c_bind. cbv beta iota zeta.
  pose proof (call_raw_request rm ad (pr_url (cl_peer c)) (wire_name GET_TASK (pr_dialect (cl_peer c))) params timeout c) as H.
  apply watches_request in H; [|apply Hn].
  destruct (call_raw rm ad _ _ _ _ c) as [c1 [[v|e]| |]]; cbn [fst] in *; try done.
  destruct (unrecognised _ _ _); [|done].
  unfold set_peer, mid, c_ret. cbv beta iota zeta.
  match goal with |- watches _ (match call_raw _ _ ?u ?n ?p ?t ?c2 with _ => _ end).1 =>
    pose proof (call_raw_request rm ad u n p t c2) as G; destruct (call_raw rm ad u n p t c2) as [c3 a] end.
  cbn [fst] in G. assert (watches c c3) as X; [|by destruct a].
  apply watches_request in G; [|apply Hn]. etransitivity; [exact H|]. etransitivity; [|exact G].
  by apply watches_same.
Qed.

Lemma poll_watches fuel t delay : preserves watches (poll rm ad fuel t delay).
Proof.
  revert t delay. induction fuel as [|fuel IH]; intros t delay; cbn [poll]; destruct (state_settled _);
    try apply preserves_ret, _.
  - intros c. reflexivity.
  - apply preserves_bind; [apply _| |].
    { intros c. destruct (wait_waits delay c) as (H1&_&H3&_). by apply watches_same. }
    intros []. apply preserves_try; [apply _|apply call_watches|]. intros v.
    destruct (polled_task v); [apply IH|apply preserves_ret, _].
Qed.
End Abandoned.

(** ** Streams of bytes *)

Lemma take_block_cons x y s :
  take_block (String x (String y s)) =
    if bool_decide (x = LF) && bool_decide (y = LF) then Some (NL +:+ NL, s)
    else match take_block (String y s) with Some (block, rest) => Some (String x block, rest) | None => None end.
Proof. reflexivity. Qed.

Lemma take_block_app a b block rest :
  take_block a = Some (block, rest) -> take_block (a +:+ b) = Some (block, rest +:+ b).
Proof.
  revert block rest. induction a as [|x a IH]; intros block rest; [done|]. destruct a as [|y a]; [done|].
  change (String x (String y a) +:+ b) with (String x (String y (a +:+ b))). rewrite !take_block_cons.
  destruct (_ && _); [by intros [= <- <-]|].
  change (String y (a +:+ b)) with (String y a +:+ b).
  destruct (take_block (String y a)) as [[bl r]|]; [|done].
  rewrite (IH bl r eq_refl). by intros [= <- <-].
Qed.

Lemma take_block_length s block rest :
  take_block s = Some (block, rest) -> (String.length rest < String.length s)%nat.
Proof.
  revert block rest. induction s as [|x s IH]; intros block rest; [done|]. destruct s as [|y s]; [done|].
  rewrite take_block_cons. destruct (_ && _); [intros [= <- <-]; simpl; lia|].
  destruct (take_block (String y s)) as [[bl r]|]; [|done]. intros [= <- <-].
  specialize (IH bl r eq_refl). simpl in *. lia.
Qed.

Lemma drain_fuel n m s :
  (String.length s <= n)%nat -> (String.length s <= m)%nat -> drain n s = drain m s.
Proof.
  revert m s. induction n as [|n IH]; intros m s Hn Hm.
  - destruct s; [|simpl in Hn; lia]. by destruct m.
  - destruct m as [|m]; [destruct s; [done|simpl in Hm; lia]|]. cbn [drain].
    destruct (take_block s) as [[bl r]|] eqn:E; [|done]. apply take_block_length in E.
    rewrite (IH m r) by lia. done.
Qed.

Definition drained (s : string) : string * list string := drain (String.length s) s.

Lemma drained_step s :
  drained s = match take_block s with
              | None => (s, [])
              | Some (block, rest) =>
                  let '(b, events) := drained rest in
                  (b, match block_data block with Some d => d :: events | None => events end)
              end.
Proof.
  unfold drained. destruct s as [|x s]; [done|]. cbn [String.length drain].
  destruct (take_block (String x s)) as [[bl r]|] eqn:E; [|done]. apply take_block_length in E.
  rewrite (drain_fuel (String.length s) (String.length r)); [done|simpl in E; lia|lia].
Qed.

(** Draining what came, then what comes after it, is draining it all. *)
Lemma drained_app a b :
  drained (a +:+ b) = let '(r, e1) := drained a in let '(r', e2) := drained (r +:+ b) in (r', (e1 ++ e2)%list).
Proof.
  remember (String.length a) as n eqn:Hn. revert a Hn. induction (lt_wf n) as [n _ IH]. intros a ->.
  rewrite (drained_step a). destruct (take_block a) as [[bl r]|] eqn:E.
  - rewrite (drained_step (a +:+ b)), (take_block_app _ _ _ _ E).
    rewrite (IH (String.length r) (take_block_length _ _ _ E) r eq_refl).
    destruct (drained r) as [r1 e1]. destruct (drained (r1 +:+ b)) as [r2 e2]. by destruct (block_data bl).
  - destruct (drained (a +:+ b)). done.
Qed.

Definition plain_byte (b : Z) : Prop := 0 <= b < 128 /\ b <> 13.

Lemma bytes_of_bytes bs : Forall plain_byte bs -> bytes (bytes_of_list bs) = bs.
Proof.
  induction 1 as [|b bs [Hb _] F IH]; [done|]. cbn [bytes_of_list bytes]. by rewrite IH, byte_of_of_byte by lia.
Qed.

Lemma lossy_ascii bs : Forall plain_byte bs -> from_utf8_lossy (bytes_of_list bs) = bytes_of_list bs.
Proof.
  intros F. unfold from_utf8_lossy. rewrite bytes_of_bytes by done. f_equal.
  assert (String.length (bytes_of_list bs) = length bs) as -> by (by rewrite <- bytes_length, bytes_of_bytes).
  induction F as [|b bs [Hb _] F IH]; [done|]. cbn [length lossy_bytes]. rewrite utf8_step_ascii by done.
  change (drop 1 (b :: bs)) with bs. by rewrite IH.
Qed.

Lemma absent_bytes bs : Forall plain_byte bs -> absent CR (bytes_of_list bs) = true.
Proof.
  induction 1 as [|b bs [Hb N] F IH]; [done|]. cbn [bytes_of_list absent]. rewrite IH.
  rewrite bool_decide_eq_false_2; [done|]. intros E. apply N.
  rewrite <- (byte_of_of_byte b), E by lia. reflexivity.
Qed.

Lemma absent_app c s t : absent c (s +:+ t) = absent c s && absent c t.
Proof.
  induction s as [|a s IH]; [done|]. change (String a s +:+ t) with (String a (s +:+ t)).
  cbn [absent]. by rewrite IH, andb_assoc.
Qed.

Lemma normalised_plain s : absent CR s = true -> normalised s = s.
Proof.
  intros H. unfold normalised.
  assert (crlf_to_lf s = s) as ->.
  { induction s as [|a s IH]; [done|]. cbn [absent] in H. apply andb_true_iff in H as [N H].
    apply negb_true_iff in N. destruct s as [|b s]; [done|].
    change (crlf_to_lf (String a (String b s))) with
      (if bool_decide (a = CR) && bool_decide (b = LF) then String LF (crlf_to_lf s)
       else String a (crlf_to_lf (String b s))).
    rewrite N. cbn [andb]. by rewrite IH. }
  induction s as [|a s IH]; [done|]. cbn [absent] in H. apply andb_true_iff in H as [N H].
  apply negb_true_iff in N. cbn [replace_char]. rewrite N. by rewrite IH.
Qed.

Lemma take_block_absent c s block rest :
  absent c s = true -> take_block s = Some (block, rest) -> absent c rest = true.
Proof.
  revert block rest. induction s as [|x s IH]; intros block rest H; [done|]. destruct s as [|y s]; [done|].
  rewrite take_block_cons. cbn [absent] in H. apply andb_true_iff in H as [_ H].
  destruct (bool_decide (x = LF) && bool_decide (y = LF)); [intros [= ? <-]; by apply andb_true_iff in H as [_ H]|].
  destruct (take_block (String y s)) as [[bl r]|]; [|done]. intros [= ? <-]. by eapply IH.
Qed.

Lemma drained_absent c s : absent c s = true -> absent c (drained s).1 = true.
Proof.
  remember (String.length s) as n eqn:Hn. revert s Hn. induction (lt_wf n) as [n _ IH]. intros s -> H.
  rewrite drained_step. destruct (take_block s) as [[bl r]|] eqn:E; [|done].
  pose proof (IH _ (take_block_length _ _ _ E) r eq_refl (take_block_absent _ _ _ _ H E)) as Hr.
  by destruct (drained r).
Qed.

(** Feeding the reader one chunk after the other. *)
Fixpoint feed_all (buffer : string) (chunks : list (list Z)) : string * list string :=
  match chunks with
  | [] => (buffer, [])
  | chunk :: chunks' =>
      let '(buffer, e1) := feed buffer chunk in
      let '(buffer, e2) := feed_all buffer chunks' in
      (buffer, (e1 ++ e2)%list)
  end.

Lemma feed_plain buffer chunk :
  absent CR buffer = true -> Forall plain_byte chunk -> feed buffer chunk = drained (buffer +:+ bytes_of_list chunk).
Proof.
  intros H F. unfold feed. rewrite lossy_ascii by done.
  rewrite normalised_plain; [done|]. rewrite absent_app, H. by apply absent_bytes.
Qed.

Lemma bytes_of_list_app a b : bytes_of_list (a ++ b) = bytes_of_list a +:+ bytes_of_list b.
Proof.
  induction a as [|x a IH]; [done|].
  change (bytes_of_list (x :: a) +:+ bytes_of_list b) with (String (of_byte x) (bytes_of_list a +:+ bytes_of_list b)).
  cbn [app bytes_of_list]. by rewrite IH.
Qed.

Lemma feed_all_plain buffer chunks :
  absent CR buffer = true -> take_block buffer = None -> Forall (Forall plain_byte) chunks ->
  feed_all buffer chunks = drained (buffer +:+ bytes_of_list (concat chunks)).
Proof.
  revert buffer. induction chunks as [|chunk chunks IH]; intros buffer H N F; cbn [feed_all concat].
  - rewrite str_app_nil_r, drained_step, N. done.
  - apply list.Forall_cons in F as [Fc F]. rewrite feed_plain by done.
    rewrite bytes_of_list_app, <- str_app_assoc.
    rewrite (drained_app (buffer +:+ bytes_of_list chunk) (bytes_of_list (concat chunks))).
    assert (absent CR (buffer +:+ bytes_of_list chunk) = true) as Ha
      by (rewrite absent_app, H; by apply absent_bytes).
    pose proof (drained_absent CR _ Ha) as Hd.
    assert (forall s, take_block (drained s).1 = None) as Hn.
    { intros s. remember (String.length s) as n eqn:Hn. revert s Hn. induction (lt_wf n) as [n _ IHn]. intros s ->.
      rewrite drained_step. destruct (take_block s) as [[bl r]|] eqn:E; [|done].
      pose proof (IHn _ (take_block_length _ _ _ E) r eq_refl) as Hr. by destruct (drained r). }
    specialize (Hn (buffer +:+ bytes_of_list chunk)).
    destruct (drained (buffer +:+ bytes_of_list chunk)) as [r e1]. cbn [fst] in *. by rewrite (IH r Hd Hn F).
Qed.

(** The events read from a stream of ASCII bytes without carriage returns do
    not depend on how the network cut it into chunks. *)
Theorem sse_chunking chunks1 chunks2 :
  Forall (Forall plain_byte) chunks1 -> Forall (Forall plain_byte) chunks2 -> concat chunks1 = concat chunks2 ->
  feed_all "" chunks1 = feed_all "" chunks2.
Proof. intros F1 F2 E. rewrite !feed_all_plain by done. by rewrite E. Qed.
