(* ===== verification/A2aAnswers.v ===== *)
(** * What an attempt makes of the peer's answers

    The requests an attempt sends and what the peer answers to each; what the
    last answer reads as, and that this is what the attempt comes to; the task
    the peer has named by the time an attempt is given up, and that this task
    is the one cancelled. *)

From S2P Require Export A2aClientFacts.
Open Scope string_scope.
Open Scope Z_scope.

(** ** Bodies *)

(** The chunks of a body that come within [left] milliseconds, without an error
    and within the cap, and whether that is the whole of it. *)
Fixpoint pieces (left : option Z) (received : Z) (body : list (Z * result (list Z) string)) : list (list Z) * bool :=
  match body with
  | [] => ([], true)
  | (delay, item) :: body' =>
      if match left with Some t => t <? delay | None => false end then ([], false)
      else match item with
           | Err _ => ([], false)
           | Ok chunk =>
               let received := received + Z.of_nat (length chunk) in
               if MAX_RESPONSE_BYTES <? received then ([], false)
               else let '(chunks, whole) := pieces ((fun t => t - delay) <$> left) received body' in
                    (chunk :: chunks, whole)
           end
  end.

Definition body_text (h : HttpResponse) : option string :=
  if match ht_content_length h with Some n => MAX_RESPONSE_BYTES <? n | None => false end then None
  else let '(chunks, whole) := pieces None 0 (ht_body h) in
       if whole then from_utf8 (concat chunks) else None.

Definition and_then {A B} (o : option A) (f : A -> option B) : option B :=
  match o with Some a => f a | None => None end.

Definition accepted (h : HttpResponse) : bool := (200 <=? ht_status h) && (ht_status h <? 300).

Section Answers.
  Context {S : Type} (rm : Remote S) (ad : Adapter).
  Implicit Types c : Client S.

(** ** What an answer reads as *)

Definition rpc_payload (text : string) : option Value :=
  match rm_envelope rm text with
  | Ok r => match jp_error r with Some _ => None | None => jp_result r end
  | Err _ => None
  end.

Definition payload (a : result HttpResponse HttpError) : option Value :=
  match a with
  | Ok h => if accepted h then and_then (body_text h) rpc_payload else None
  | Err _ => None
  end.

(** The events of a stream up to the first payload that is none, and whether
    that is all of them. *)
Fixpoint events_of (datas : list string) : list StreamEvent * bool :=
  match datas with
  | [] => ([], true)
  | data :: datas' =>
      match rpc_payload data with
      | None => ([], false)
      | Some v =>
          let '(events, all) := events_of datas' in
          (match parse_stream_event v with Some e => e :: events | None => events end, all)
      end
  end.

(** What was followed once it finished, or else when there was no more. *)
Fixpoint followed (events : list StreamEvent) (f : StreamFollower) : StreamFollower * bool :=
  match events with
  | [] => (f, false)
  | event :: events' =>
      let f := (apply_event event f).1 in
      if follower_finished f then (f, true) else followed events' f
  end.

Definition settled_task (t : WireTask) : option Settled :=
  if state_settled (w_state t) then Some (STask t) else None.

(** What a body makes of a follower, and whether following it came to an end. *)
Definition stream_followed (body : list (Z * result (list Z) string)) (buffer : string) (f : StreamFollower)
    (received : Z) : StreamFollower * bool :=
  let '(chunks, whole) := pieces None received body in
  let '(events, all) := events_of (feed_all buffer chunks).2 in
  let '(f', finished) := followed events f in
  (f', finished || (whole && all)).

(** A stream reads as its message, else as the task its events describe, once
    that is settled or when it has no id to ask for. *)
Definition stream_reading (h : HttpResponse) : option Settled :=
  let '(f, ended) := stream_followed (ht_body h) "" follower_default 0 in
  if ended then
    match sf_message f with
    | Some text => Some (SMessage text)
    | None => if bool_decide (w_id (into_task f) = "") then Some (STask (into_task f)) else settled_task (into_task f)
    end
  else None.

(** What the answer [a] to the request [r] reads as: a message, or a task that
    will not go on. *)
Definition reading (r : Request) (a : result HttpResponse HttpError) : option Settled :=
  match r, a with
  | Post _ _ _ _ true _, Ok h =>
      if is_sse h then if accepted h then stream_reading h else None
      else match and_then (payload a) parse_stream_event with
           | Some (SEMessage text) => Some (SMessage text)
           | Some (SETask t) => settled_task t
           | _ => None
           end
  | Post _ m _ _ false _, Ok _ =>
      if contains [GET_TASK; "tasks/get"] m then and_then (and_then (payload a) polled_task) settled_task
      else match and_then (payload a) parse_send_result with
           | Some (SRMessage text) => Some (SMessage text)
           | Some (SRTask t) => settled_task t
           | None => None
           end
  | _, _ => None
  end.

(** ** What was exchanged *)

(** The other end after the requests [rs]. *)
Fixpoint after (o : S) (rs : list Request) : S :=
  match rs with
  | [] => o
  | r :: rs' => after (rm_send rm o r).1.1 rs'
  end.

Lemma after_app o rs1 rs2 : after o (rs1 ++ rs2) = after (after o rs1) rs2.
Proof. revert o. induction rs1 as [|r rs1 IH]; intros o; [done|]. apply IH. Qed.

(** From [c] to [c'] the requests [rs] were sent, and nothing else. *)
Definition sent (rs : list Request) (c c' : Client S) : Prop :=
  cl_sent c' = (cl_sent c ++ rs)%list /\ cl_other c' = after (cl_other c) rs.

Lemma sent_nil c : sent [] c c.
Proof. split; [by rewrite app_nil_r|done]. Qed.

Lemma sent_app rs1 rs2 c1 c2 c3 : sent rs1 c1 c2 -> sent rs2 c2 c3 -> sent (rs1 ++ rs2) c1 c3.
Proof. intros [H1 H2] [H3 H4]. split; [by rewrite H3, H1, app_assoc|by rewrite H4, H2, after_app]. Qed.

Lemma sent_same c c' : cl_sent c' = cl_sent c -> cl_other c' = cl_other c -> sent [] c c'.
Proof. intros H1 H2. split; [by rewrite app_nil_r|done]. Qed.

Lemma waits_sent c c' : waits c c' -> sent [] c c'.
Proof. intros (H1&_&_&_&H5). by apply sent_same. Qed.

(** The answer to the last of them. *)
Definition answer_to (o : S) (rs : list Request) (r : Request) : result HttpResponse HttpError :=
  (rm_send rm (after o rs) r).2.

(** ** What each part makes of an answer *)

Lemma exchange_came r c c' a :
  exchange rm r c = (c', Came a) -> sent [r] c c' /\ a = answer_to (cl_other c) [] r.
Proof.
  intros E. pose proof (exchange_sent rm r c) as W. rewrite E in W. cbn [fst] in W.
  destruct W as (H1&_&_&_&H5). cbn [cl_sent cl_other] in *. split; [by split|].
  unfold exchange in E. unfold answer_to. cbn [after]. destruct (rm_send rm (cl_other c) r) as [[o d] b].
  unfold c_bind, c_ret in E. destruct (wait d _) as [c1 [[]| |]]; [|done|done]. by injection E.
Qed.

Lemma status_error_accepted method h : status_error rm ad method h = None <-> accepted h = true.
Proof.
  unfold status_error, accepted. set (n := ht_status h).
  destruct (Z.eqb_spec n 429); [split; [discriminate|]; lia|].
  destruct (Z.eqb_spec n 401); [split; [discriminate|]; lia|].
  destruct (Z.eqb_spec n 403); [split; [discriminate|]; lia|]. cbn [orb].
  by destruct (_ && _).
Qed.

Lemma post_came url method params timeout streaming c c' v :
  post rm ad url method params timeout streaming c = (c', Came v) ->
  let r := Post url method params timeout streaming (token rm ad) in
  let a := answer_to (cl_other c) [] r in
  sent [r] c c' /\
  match v with
  | Ok h => a = Ok h /\ accepted h = true
  | Err _ => match a with Ok h => accepted h = false | Err _ => True end
  end.
Proof.
  unfold post, c_bind. cbv zeta. destruct (exchange rm _ c) as [c1 [a| |]] eqn:E; [|done|done].
  intros [= <- <-]. apply exchange_came in E as [H <-]. split; [done|].
  destruct a as [h|e]; [|done]. pose proof (status_error_accepted method h) as X.
  destruct (status_error rm ad method h); [|split; [done|by apply X]].
  apply not_true_is_false. by intros [=]%X.
Qed.

Lemma read_chunks_came body acc c c' v :
  read_chunks ad body acc c = (c', Came v) ->
  let '(chunks, whole) := pieces None (Z.of_nat (length acc)) body in
  if whole then v = Ok (acc ++ concat chunks)%list else exists e, v = Err e.
Proof.
  revert acc c. induction body as [|[d item] body IH]; intros acc c; cbn [read_chunks pieces].
  { intros [= _ <-]. cbn. by rewrite app_nil_r. }
  unfold c_bind. destruct (wait d c) as [c1 [[]| |]]; [|done|done].
  destruct item as [chunk|err]; [|intros [= _ <-]; eauto].
  replace (Z.of_nat (length (acc ++ chunk)%list)) with (Z.of_nat (length acc) + Z.of_nat (length chunk))
    by (rewrite length_app; lia).
  destruct (_ <? _); [intros [= _ <-]; eauto|]. intros H%IH.
  replace (Z.of_nat (length (acc ++ chunk)%list)) with (Z.of_nat (length acc) + Z.of_nat (length chunk)) in H
    by (rewrite length_app; lia).
  cbn [fmap option_fmap option_map]. destruct (pieces None _ body) as [chunks whole]. destruct whole; [|done].
  by rewrite H, <- app_assoc.
Qed.

Lemma read_bounded_came h c c' v :
  read_bounded ad h c = (c', Came v) ->
  sent [] c c' /\ match v with Ok text => body_text h = Some text | Err _ => body_text h = None end.
Proof.
  intros E. split.
  { pose proof (read_bounded_waits (S := S) ad h c) as W. rewrite E in W. by apply waits_sent. }
  revert E. unfold read_bounded, body_text.
  assert (c_try (read_chunks ad (ht_body h) []) (fun bs => c_ret (match from_utf8 bs with
      | Some s => Ok s | None => Err (a2a_error "the response body is not valid UTF-8") end)) c = (c', Came v) ->
    match v with
    | Ok text => (let '(chunks, whole) := pieces None 0 (ht_body h) in
                  if whole then from_utf8 (concat chunks) else None) = Some text
    | Err _ => (let '(chunks, whole) := pieces None 0 (ht_body h) in
                if whole then from_utf8 (concat chunks) else None) = None
    end) as H.
  { unfold c_try, c_bind. destruct (read_chunks ad (ht_body h) [] c) as [c1 [bs| |]] eqn:E; [|done|done].
    apply read_chunks_came in E. change (Z.of_nat (length [])) with 0 in E.
    destruct (pieces None 0 (ht_body h)) as [chunks whole]. destruct whole.
    - subst bs. intros [= _ <-]. by destruct (from_utf8 _).
    - destruct E as [e ->]. by intros [= _ <-]. }
  destruct (ht_content_length h) as [n|]; [|exact H]. destruct (_ <? n); [by intros [= _ <-]|exact H].
Qed.

Lemma envelope_payload method text :
  match parse_envelope method (rm_envelope rm text) with
  | Ok v => rpc_payload text = Some v
  | Err _ => rpc_payload text = None
  end.
Proof.
  unfold parse_envelope, rpc_payload. destruct (rm_envelope rm text) as [r|]; [|done].
  destruct (jp_error r); [done|]. by destruct (jp_result r).
Qed.

Lemma call_raw_came url method params timeout c c' v :
  call_raw rm ad url method params timeout c = (c', Came v) ->
  let r := Post url method params timeout false (token rm ad) in
  sent [r] c c' /\
  match v with
  | Ok x => payload (answer_to (cl_other c) [] r) = Some x
  | Err _ => payload (answer_to (cl_other c) [] r) = None
  end.
Proof.
  cbv zeta. unfold call_raw, c_try, c_bind.
  destruct (post rm ad url method params timeout false c) as [c1 [a| |]] eqn:E; [|done|done].
  apply post_came in E as [H1 H2]. destruct a as [h|e].
  2: { intros [= <- <-]. split; [done|]. unfold payload. destruct (answer_to _ _ _); [by rewrite H2|done]. }
  destruct H2 as [-> Ha]. unfold payload. rewrite Ha.
  destruct (read_bounded ad h c1) as [c2 [b| |]] eqn:Eb; [|done|done]. intros [= <- <-].
  apply read_bounded_came in Eb as [H3 H4]. split; [exact (sent_app [_] [] _ _ _ H1 H3)|].
  destruct b as [text|e]; rewrite H4; [|done]. cbn [and_then].
  pose proof (envelope_payload method text) as P. by destruct (parse_envelope _ _).
Qed.

(** The last of the exchanges between [c] and [c'] reads as [v]. *)
Definition ended (c c' : Client S) (v : Result Settled) : Prop :=
  exists rs r, sent (rs ++ [r]) c c' /\
    reading r (answer_to (cl_other c) rs r) = match v with Ok s => Some s | Err _ => None end.

Lemma ended_after rs c c1 c' v : sent rs c c1 -> ended c1 c' v -> ended c c' v.
Proof.
  intros H (rs'&r&H1&H2). exists (rs ++ rs')%list, r. rewrite <- app_assoc.
  split; [by eapply sent_app|]. unfold answer_to in *. destruct H as [_ Ho]. by rewrite after_app, <- Ho.
Qed.

Lemma ended_before c c1 c' v : ended c c1 v -> sent [] c1 c' -> ended c c' v.
Proof.
  intros (rs&r&H1&H2) H. exists rs, r. split; [|done]. rewrite <- (app_nil_r (rs ++ [r])%list). by eapply sent_app.
Qed.

(** A plain call of a method, in either dialect. *)
Definition plain_call (method : string) (r : Request) : Prop :=
  match r with
  | Post _ m _ _ false _ => m = wire_name method V1 \/ m = wire_name method Legacy
  | _ => False
  end.

Lemma reading_poll r a :
  plain_call GET_TASK r -> reading r a = and_then (and_then (payload a) polled_task) settled_task.
Proof. destruct r as [url m ps to [] tok|]; [done| |done]. by intros [->| ->]; destruct a. Qed.

Lemma reading_send r a :
  plain_call SEND_MESSAGE r ->
  reading r a = match and_then (payload a) parse_send_result with
                | Some (SRMessage text) => Some (SMessage text)
                | Some (SRTask t) => settled_task t
                | None => None
                end.
Proof. destruct r as [url m ps to [] tok|]; [done| |done]. by intros [->| ->]; destruct a. Qed.

Lemma call_came method params timeout c c' v :
  call rm ad method params timeout c = (c', Came v) ->
  exists rs r, sent (rs ++ [r]) c c' /\ plain_call method r /\
    payload (answer_to (cl_other c) rs r) = match v with Ok x => Some x | Err _ => None end.
Proof.
  unfold call, get_peer. unfold c_bind at 1. cbv beta iota zeta. unfold c_bind at 1.
  assert (forall d, wire_name method d = wire_name method V1 \/ wire_name method d = wire_name method Legacy) as Hn
    by (intros []; auto).
  destruct (call_raw rm ad _ _ _ _ c) as [c1 [a| |]] eqn:E; [|done|done].
  apply call_raw_came in E as [H1 H2]. destruct a as [x|e].
  { intros [= <- <-]. exists [], (Post (pr_url (cl_peer c)) (wire_name method (pr_dialect (cl_peer c))) params timeout false (token rm ad)).
    split_and!; [exact H1|apply Hn|exact H2]. }
  destruct (unrecognised _ _ _).
  2: { intros [= <- <-]. exists [], (Post (pr_url (cl_peer c)) (wire_name method (pr_dialect (cl_peer c))) params timeout false (token rm ad)).
    split_and!; [exact H1|apply Hn|exact H2]. }
  unfold c_bind, set_peer, mid, c_ret. cbv beta iota zeta.
  set (c2 := {| cl_other := cl_other c1; cl_peer := _; cl_descriptor := _; cl_now := _; cl_deadline := _;
                cl_forwarded := _; cl_guard := _; cl_sent := _ |}).
  match goal with |- match call_raw _ _ ?u ?n ?p ?t c2 with _ => _ end = _ -> _ =>
    destruct (call_raw rm ad u n p t c2) as [c3 [b| |]] eqn:E2; [|done|done];
    apply call_raw_came in E2 as [H3 H4]; intros [= <- <-];
    exists [Post (pr_url (cl_peer c)) (wire_name method (pr_dialect (cl_peer c))) params timeout false (token rm ad)],
      (Post u n p t false (token rm ad)) end.
  split; [|split; [apply Hn|]].
  - apply (sent_app [_] [_] c c1); [exact H1|]. exact H3.
  - unfold answer_to in *. cbn [after] in *. destruct H1 as [_ H1]. cbn [after] in H1.
    change (cl_other c2) with (cl_other c1) in H4. rewrite <- H1. by destruct b.
Qed.

(** A task followed from an answer that brought it. *)
Lemma poll_came fuel t delay rs r c c1 c' v :
  sent (rs ++ [r]) c c1 -> reading r (answer_to (cl_other c) rs r) = settled_task t ->
  poll rm ad fuel t delay c1 = (c', Came v) ->
  ended c c' (match v with Ok t => Ok (STask t) | Err e => Err e end).
Proof.
  revert t delay rs r c1. induction fuel as [|fuel IH]; intros t delay rs r c1 H Hr; unfold settled_task in Hr; cbn [poll];
    destruct (state_settled (w_state t)); try done; try (intros [= <- <-]; exists rs, r; by split).
  unfold c_bind at 1. pose proof (wait_waits (S := S) delay c1) as W.
  destruct (wait delay c1) as [c2 [[]| |]]; [|done|done]. apply waits_sent in W. cbn [fst] in W.
  unfold c_try, c_bind. destruct (call rm ad GET_TASK _ _ c2) as [c3 [a| |]] eqn:E; [|done|done].
  apply call_came in E as (rs'&r'&H2&Hm&Ha).
  assert (sent ((rs ++ [r]) ++ rs' ++ [r'])%list c c3) as H3
    by (eapply sent_app; [exact H|]; exact (sent_app [] _ _ _ _ W H2)).
  rewrite app_assoc in H3.
  assert (answer_to (cl_other c) ((rs ++ [r]) ++ rs') r' = answer_to (cl_other c2) rs' r') as Ea.
  { unfold answer_to. rewrite after_app. destruct H as [_ H], W as [_ W]. cbn [after] in W. by rewrite W, H. }
  pose proof (reading_poll r' (answer_to (cl_other c2) rs' r') Hm) as Hp. rewrite Ha, <- Ea in Hp.
  destruct a as [x|e]; cbn [and_then] in Hp.
  - destruct (polled_task x) as [t'|]; cbn [and_then] in Hp.
    + by apply IH with (1 := H3).
    + intros [= <- <-]. exists ((rs ++ [r]) ++ rs')%list, r'. by split.
  - intros [= <- <-]. exists ((rs ++ [r]) ++ rs')%list, r'. by split.
Qed.

Lemma forward_came {A} text (a v : A) c c' :
  c_bind (forward text) (fun _ => c_ret a) c = (c', Came v) -> sent [] c c' /\ v = a.
Proof.
  unfold c_bind, forward, c_ret. case_bool_decide; intros [= <- <-]; (split; [|done]);
    [apply sent_nil|by apply sent_same].
Qed.

Definition wrapped {A B} (wrap : A -> B) (w : Result A) : Result B :=
  match w with Ok s => Ok (wrap s) | Err e => Err e end.

(** The task is watched, followed, and its text shown. *)
Lemma task_came {B} (wrap : Settled -> B) t rs r c c1 c' v :
  sent (rs ++ [r]) c c1 -> reading r (answer_to (cl_other c) rs r) = settled_task t ->
  c_try (poll_until_settled rm ad t) (fun t => c_bind (forward (task_text t)) (fun _ => c_ret (Ok (wrap (STask t))))) c1
    = (c', Came v) ->
  exists w, v = wrapped wrap w /\ ended c c' w.
Proof.
  intros H Hr. unfold c_try. unfold c_bind at 1. unfold poll_until_settled.
  destruct (poll rm ad _ t _ c1) as [c2 [[t'|e]| |]] eqn:E; [| |done|done];
    apply (poll_came _ _ _ _ _ _ _ _ _ H Hr) in E.
  - intros [H1 ->]%forward_came. exists (Ok (STask t')). split; [done|]. by apply (ended_before _ _ _ _ E).
  - intros [= <- <-]. by exists (Err e).
Qed.

Lemma run_blocking_came prompt c c' v : run_blocking rm ad prompt c = (c', Came v) -> ended c c' v.
Proof.
  unfold run_blocking, get_peer, mid. do 2 (unfold c_bind at 1; cbv beta iota).
  unfold c_try at 1, c_bind at 1. destruct (call rm ad SEND_MESSAGE _ _ c) as [c1 [a| |]] eqn:E; [|done|done].
  apply call_came in E as (rs&r&H1&Hm&Ha).
  pose proof (reading_send r (answer_to (cl_other c) rs r) Hm) as Hr. rewrite Ha in Hr.
  destruct a as [x|e]; cbn [and_then] in Hr; [|intros [= <- <-]; exists rs, r; by split].
  destruct (parse_send_result x) as [[t|text]|].
  - unfold guard_task. unfold c_bind at 1. cbv beta iota.
    intros (w&->&H)%(task_came (fun s => s) t rs r c); [by destruct w| |exact Hr].
    destruct H1 as [H1 H2]. by split.
  - intros [H2 ->]%forward_came. apply (ended_before _ c1); [|done]. exists rs, r. by split.
  - intros [= <- <-]. exists rs, r. by split.
Qed.

(** ** Streams *)

Lemma events_of_app a b :
  events_of (a ++ b) = let '(ea, all) := events_of a in
                       if all then let '(eb, all) := events_of b in ((ea ++ eb)%list, all) else (ea, false).
Proof.
  induction a as [|x a IH]; cbn [app events_of]; [by destruct (events_of b)|].
  destruct (rpc_payload x); [|done]. rewrite IH. destruct (events_of a) as [ea []]; [|done].
  destruct (events_of b) as [eb all]. by destruct (parse_stream_event _).
Qed.

Lemma followed_app ea eb f :
  followed (ea ++ eb) f = let '(f', finished) := followed ea f in if finished then (f', true) else followed eb f'.
Proof.
  revert f. induction ea as [|e ea IH]; intros f; cbn [app followed]; [done|].
  destruct (follower_finished _); [done|apply IH].
Qed.

Lemma shown_sent (text : option string) c :
  exists c1, (match text with Some text => forward text | None => c_ret tt end) c = (c1, Came tt) /\ sent [] c c1.
Proof.
  destruct text as [text|]; [unfold forward; case_bool_decide|]; eexists; (split; [reflexivity|]);
    [apply sent_nil|by apply sent_same|apply sent_nil].
Qed.

Lemma on_events_came method datas f c c' v :
  on_events rm ad method datas f c = (c', Came v) ->
  sent [] c c' /\
  let '(events, all) := events_of datas in
  let '(f', finished) := followed events f in
  match v with
  | Ok (fin, g) => fin = finished /\ g = f' /\ (finished = true \/ all = true)
  | Err _ => finished = false /\ all = false
  end.
Proof.
  revert f c. induction datas as [|data datas IH]; intros f c; cbn [on_events events_of].
  { intros [= <- <-]. split; [apply sent_nil|cbn; auto]. }
  pose proof (envelope_payload method data) as P. destruct (parse_envelope _ _) as [x|e]; rewrite P.
  2: { intros [= <- <-]. split; [apply sent_nil|done]. }
  specialize (IH f) as IHf. destruct (parse_stream_event x) as [event|].
  2: { intros H%IHf. by destruct (events_of datas) as [events all]. }
  clear IHf. destruct (apply_event event f) as [f1 text] eqn:Ea.
  unfold c_bind at 1. destruct (shown_sent text c) as (c1&->&H1).
  unfold guard_task. unfold c_bind at 1. cbv beta iota.
  set (c2 := {| cl_other := cl_other c1; cl_peer := _; cl_descriptor := _; cl_now := _; cl_deadline := _;
                cl_forwarded := _; cl_guard := _; cl_sent := _ |}).
  assert (sent [] c c2) as H2 by (destruct H1; by split).
  destruct (follower_finished f1) eqn:Ef.
  - intros [= <- <-]. split; [done|]. destruct (events_of datas) as [events all]. cbn [followed].
    rewrite Ea. cbn [fst]. rewrite Ef. auto.
  - intros [H3 H4]%IH. split; [exact (sent_app [] [] _ _ _ H2 H3)|].
    destruct (events_of datas) as [events all]. cbn [followed]. rewrite Ea. cbn [fst]. by rewrite Ef.
Qed.

Lemma follow_came method body buffer f received c c' v :
  follow rm ad method body buffer f received c = (c', Came v) ->
  sent [] c c' /\
  match v with
  | Ok g => stream_followed body buffer f received = (g, true)
  | Err _ => (stream_followed body buffer f received).2 = false
  end.
Proof.
  revert buffer f received c. induction body as [|[d item] body IH]; intros buffer f received c; cbn [follow].
  { intros [= <- <-]. split; [apply sent_nil|done]. }
  unfold c_bind at 1. pose proof (wait_waits (S := S) d c) as W.
  destruct (wait d c) as [c1 [[]| |]]; [|done|done]. apply waits_sent in W. cbn [fst] in W.
  unfold stream_followed. cbn [pieces fmap option_fmap option_map].
  destruct item as [chunk|err]; [|by intros [= <- <-]].
  destruct (_ <? _); [by intros [= <- <-]|].
  destruct (feed buffer chunk) as [buffer' datas] eqn:Ef.
  unfold c_try, c_bind. destruct (on_events rm ad method datas f c1) as [c2 [a| |]] eqn:Eo; [|done|done].
  apply on_events_came in Eo as [H2 H3]. pose proof (sent_app [] [] _ _ _ W H2) as H4.
  specialize (IH buffer'). unfold stream_followed in IH.
  destruct (pieces None (received + Z.of_nat (length chunk)) body) as [chunks whole] eqn:Ep.
  cbn [feed_all]. rewrite Ef. destruct (feed_all buffer' chunks) as [buffer2 datas'] eqn:Efa. cbn [snd] in *.
  rewrite events_of_app. destruct (events_of datas) as [ea alla].
  destruct (followed ea f) as [fa fina] eqn:Efo. destruct a as [[fin g]|e].
  - destruct H3 as (->&->&H3). destruct fina.
    + intros [= <- <-]. split; [done|]. destruct alla.
      * destruct (events_of datas') as [eb allb]. by rewrite followed_app, Efo.
      * by rewrite Efo.
    + destruct H3 as [H3| ->]; [done|]. intros H. specialize (IH fa (received + Z.of_nat (length chunk)) c2 H).
      rewrite Ep in IH. destruct IH as [H5 H6]. split; [exact (sent_app [] [] _ _ _ H4 H5)|].
      cbn [snd] in H6. rewrite Efa in H6. cbn [snd] in H6. destruct (events_of datas') as [eb allb].
      rewrite followed_app, Efo. exact H6.
  - destruct H3 as [-> ->]. intros [= <- <-]. split; [done|]. rewrite Efo. cbn [snd]. by rewrite andb_false_r.
Qed.

Lemma conclude_came f rs r c c1 c' v :
  sent (rs ++ [r]) c c1 ->
  reading r (answer_to (cl_other c) rs r) =
    match sf_message f with
    | Some text => Some (SMessage text)
    | None => if bool_decide (w_id (into_task f) = "") then Some (STask (into_task f)) else settled_task (into_task f)
    end ->
  conclude_stream rm ad f c1 = (c', Came v) ->
  exists w, v = wrapped Some w /\ ended c c' w.
Proof.
  intros H Hr. unfold conclude_stream. set (t := into_task f) in *.
  destruct (sf_message f) as [text|].
  { intros [= <- <-]. exists (Ok (SMessage text)). split; [done|]. exists rs, r. by split. }
  destruct (state_settled (w_state t) || bool_decide (w_id t = "")) eqn:E.
  - intros [= <- <-]. exists (Ok (STask t)). split; [done|]. exists rs, r. split; [done|]. rewrite Hr.
    unfold settled_task. destruct (bool_decide (w_id t = "")); [done|]. rewrite orb_false_r in E. by rewrite E.
  - apply orb_false_iff in E as [_ E]. rewrite E in Hr.
    unfold c_try, c_bind, poll_until_settled. destruct (poll rm ad _ t _ c1) as [c2 [a| |]] eqn:Ep; [|done|done].
    apply (poll_came _ _ _ _ _ _ _ _ _ H Hr) in Ep. destruct a as [t'|e]; intros [= <- <-].
    + by exists (Ok (STask t')).
    + by exists (Err e).
Qed.

Lemma plain_answer_came method h r c c1 c' v :
  sent [r] c c1 -> answer_to (cl_other c) [] r = Ok h -> accepted h = true -> is_sse h = false ->
  match r with Post _ _ _ _ true _ => True | _ => False end ->
  plain_answer rm ad method h c1 = (c', Came v) ->
  v = Ok None /\ sent [r] c c' \/ exists w, v = wrapped Some w /\ ended c c' w.
Proof.
  intros H Ha Hs Hn Hp. destruct r as [url m ps to [] tok|]; [|done|done].
  unfold plain_answer, c_try. unfold c_bind at 1.
  destruct (read_bounded ad h c1) as [c2 [b| |]] eqn:Eb; [|done|done].
  apply read_bounded_came in Eb as [H2 H3]. pose proof (sent_app [_] [] _ _ _ H H2) as H4.
  set (r := Post url m ps to true tok) in *.
  assert (forall w, reading r (answer_to (cl_other c) [] r) = match w with Ok s => Some s | Err _ => None end ->
    ended c c2 w) as Hw by (intros w E; exists [], r; by split).
  rewrite Ha in Hw. cbn [reading r] in Hw. rewrite Hn in Hw. unfold payload in Hw. rewrite Hs in Hw.
  destruct b as [text|e].
  2: { intros [= <- <-]. right. exists (Err e). split; [done|]. apply Hw. by rewrite H3. }
  rewrite H3 in Hw. cbn [and_then] in Hw.
  pose proof (envelope_payload method text) as P. destruct (parse_envelope _ _) as [x|e]; rewrite P in Hw.
  2: { destruct (refuses_streaming e); [|intros [= <- <-]; right; exists (Err (lift ad method e)); split; [done|by apply Hw]].
       intros [= <- <-]. left. split; [done|]. destruct H4. by split. }
  cbn [and_then] in Hw. destruct (parse_stream_event x) as [[t|text'| |]|] eqn:Ex;
    try (intros [= <- <-]; right; eexists (Err _); split; [reflexivity|by apply Hw]).
  - unfold guard_task. unfold c_bind at 1. cbv beta iota. intros E. right.
    apply (task_came Some t [] r c) in E; [done| |].
    + destruct H4. by split.
    + rewrite Ha. cbn [reading r]. rewrite Hn. unfold payload. rewrite Hs, H3. cbn [and_then]. rewrite P. cbn [and_then]. by rewrite Ex.
  - intros [H5 ->]%forward_came. right. exists (Ok (SMessage text')). split; [done|].
    apply (ended_before _ c2); [by apply Hw|done].
Qed.

Lemma run_streaming_came prompt c c' v :
  run_streaming rm ad prompt c = (c', Came v) ->
  v = Ok None /\ (exists rs, sent rs c c') \/ exists w, v = wrapped Some w /\ ended c c' w.
Proof.
  unfold run_streaming, get_peer, mid. do 2 (unfold c_bind at 1; cbv beta iota zeta). unfold c_bind at 1.
  destruct (post rm ad _ _ _ _ _ c) as [c1 [a| |]] eqn:E; [|done|done].
  apply post_came in E. cbv zeta in E. revert E. set (r := Post _ _ _ _ _ _). intros [H Ha].
  destruct a as [h|e].
  2: { intros [= <- <-]. right. eexists (Err _). split; [reflexivity|]. exists [], r. split; [done|].
       destruct (answer_to _ [] r) as [h|]; [|done]. cbn [reading r payload]. rewrite Ha. by destruct (is_sse h). }
  destruct Ha as [Ha Hs]. destruct (is_sse h) eqn:Hn.
  2: { intros E. destruct (plain_answer_came _ _ r _ _ _ _ H Ha Hs Hn I E) as [[-> X]|X]; [left; eauto|by right]. }
  unfold c_try. unfold c_bind at 1.
  destruct (follow _ _ _ _ _ _ _ c1) as [c2 [a| |]] eqn:Ef; [|done|done].
  apply follow_came in Ef as [H2 H3]. pose proof (sent_app [_] [] _ _ _ H H2) as H4. intros E. right.
  assert (reading r (answer_to (cl_other c) [] r) = stream_reading h) as Hr
    by (rewrite Ha; cbn [reading r]; by rewrite Hn, Hs).
  unfold stream_reading in Hr. destruct a as [f|e].
  - rewrite H3 in Hr. by apply (conclude_came f [] r c c2).
  - injection E as <- <-. exists (Err e). split; [done|]. exists [], r. split; [done|].
    destruct (stream_followed _ _ _ _). cbn [snd] in H3. by rewrite H3 in Hr.
Qed.

Lemma attempt_came streaming prompt c c' v : attempt rm ad streaming prompt c = (c', Came v) -> ended c c' v.
Proof.
  unfold attempt. destruct streaming; [|apply run_blocking_came].
  unfold c_try, c_bind. destruct (run_streaming rm ad prompt c) as [c1 [a| |]] eqn:E; [|done|done].
  apply run_streaming_came in E as [[-> [rs H]]|([s|e]&->&H)]; cbn [wrapped].
  - intros X%run_blocking_came. by apply (ended_after rs c c1).
  - intros [= <- <-]. done.
  - intros [= <- <-]. done.
Qed.

(** ** What an attempt comes to *)

Section Outcome.
  (** Answers and chunks take time, never a negative amount of it. *)
  Hypothesis delays : forall o r, let '(_, d, a) := rm_send rm o r in
    0 <= d /\ match a with Ok h => Forall (fun p => 0 <= p.1) (ht_body h) | Err _ => True end.

(** C20: An attempt always ends, at its deadline at the latest, whatever the
    peer answers.  An outcome is what the peer's answer to the last request
    reads as, a message or a task that will not go on, with its text; it is a
    success exactly when that is a message or a completed task, and a failure
    has a class and a reason.  An error means that the last answer reads as
    neither, or, for a time-out, that the deadline is there. *)
Theorem execute_ends request attempt_id c :
  let '(c', answer) := execute rm ad request attempt_id c in
  cl_now c <= cl_now c' <= cl_now c + Z.max (er_timeout_ms request) 1 /\
  match answer with
  | None => False
  | Some (Ok o) =>
      oc_latency_ms o = cl_now c' - cl_now c /\
      exists rs r s, cl_sent c' = (cl_sent c ++ rs ++ [r])%list /\
        reading r (answer_to (cl_other c) rs r) = Some s /\ oc_output o = settled_output s /\
        (oc_success o = true <->
           match s with SMessage _ => True | STask t => w_state t = A2aWire.Completed end) /\
        (oc_success o = false <-> is_Some (oc_failure_class o)) /\
        (oc_success o = false <-> is_Some (oc_failure_reason o))
  | Some (Err e) =>
      (exists rs r cancelled, cl_sent c' = (cl_sent c ++ rs ++ [r] ++ cancelled)%list /\
         (length cancelled <= 1)%nat /\ reading r (answer_to (cl_other c) rs r) = None) \/
      (e = timed_out ad (er_timeout_ms request) /\ cl_now c' = cl_now c + Z.max (er_timeout_ms request) 1)
  end.
Proof.
  unfold execute. set (t := cl_now c + Z.max (er_timeout_ms request) 1).
  assert (in_time t (cl_now c) (begun (er_timeout_ms request) c)) as H0 by (split; [done|cbn [begun cl_now]; lia]).
  destruct (fuelled_attempt rm ad delays t (cl_now c) (pr_streaming (cl_peer c)) (er_prompt request) _ H0) as [H1 H2].
  destruct (attempt rm ad _ _ _) as [c' [a| |]] eqn:E; cbn [fst snd ends_well] in *; [| |done].
  - apply attempt_came in E as (rs&r&[Hs _]&Hr). change (cl_sent (begun _ c)) with (cl_sent c) in Hs.
    change (cl_other (begun _ c)) with (cl_other c) in Hr. destruct a as [s|e].
    + destruct H1 as [_ H1]. split; [exact H1|]. split; [done|]. exists rs, r, s. split; [done|]. split; [done|]. split; [done|].
      unfold outcome. cbn [oc_success oc_failure_class oc_failure_reason].
      destruct s as [text|task]; cbn [settled_failure]; [|destruct (w_state task)];
        cbn; split_and!; split; try done; eauto; intros [? ?]; done.
    + assert (cl_now (drop_guard rm ad c') = cl_now c') as -> by (unfold drop_guard; by destruct (cl_guard c')).
      split; [by destruct H1|]. left. unfold drop_guard. destruct (cl_guard c') as [id|]; cbn [cl_sent].
      * exists rs, r, [cancel_request rm ad id (cl_peer c')]. split_and!; [|done|done].
        rewrite Hs, <- !app_assoc. done.
      * exists rs, r, []. split_and!; [|cbn; lia|done]. by rewrite Hs, app_nil_r.
  - assert (cl_now (drop_guard rm ad c') = cl_now c') as -> by (unfold drop_guard; by destruct (cl_guard c')).
    split; [by destruct H1|]. right. split; [done|]. destruct H1 as [H1 _]. unfold at_deadline in H2.
    rewrite H1 in H2. injection H2 as <-. done.
Qed.
End Outcome.

(** ** What is abandoned *)

Fixpoint first_task (events : list StreamEvent) : option string :=
  match events with
  | [] => None
  | SETask t :: _ => Some (w_id t)
  | _ :: events' => first_task events'
  end.

(** The task the answer to the message is. *)
Definition blocking_named (prompt : string) (c : Client S) : option string :=
  match call rm ad SEND_MESSAGE (send_params (fresh_mid rm c) prompt (pr_dialect (cl_peer c))) None c with
  | (_, Came (Ok v)) => match parse_send_result v with Some (SRTask t) => Some (w_id t) | _ => None end
  | _ => None
  end.

(** The time that is left before the deadline. *)
Definition time_left (c : Client S) : option Z := (fun t => t - cl_now c) <$> cl_deadline c.

(** The task the peer has named by the time an attempt is given up: the first
    one among the events that have arrived, or the one its plain answer is. *)
Definition named (streaming : bool) (prompt : string) (c : Client S) : option string :=
  if streaming then
    let d := pr_dialect (cl_peer c) in
    let method := wire_name SEND_STREAMING_MESSAGE d in
    match post rm ad (pr_url (cl_peer c)) method (send_params (fresh_mid rm c) prompt d) None true c with
    | (c1, Came (Ok h)) =>
        if is_sse h then first_task (events_of (feed_all "" (pieces (time_left c1) 0 (ht_body h)).1).2).1
        else match read_bounded ad h c1 with
             | (c2, Came (Ok text)) =>
                 match parse_envelope method (rm_envelope rm text) with
                 | Ok v => match parse_stream_event v with Some (SETask t) => Some (w_id t) | _ => None end
                 | Err e => if refuses_streaming e then blocking_named prompt (set_peer (set_streaming false) c2).1
                            else None
                 end
             | _ => None
             end
    | _ => None
    end
  else blocking_named prompt c.

(** Unless it comes to a result, a computation leaves the guard with [n]. *)
Definition left_with {A} (n : option string) (c' : Client S) (e : Ended (Result A)) : Prop :=
  match e with Came (Ok _) => True | _ => cl_guard c' = n end.

Definition same_guard (c c' : Client S) : Prop := cl_guard c' = cl_guard c.

#[export] Instance same_guard_preorder : PreOrder same_guard.
Proof. split; [by intros ?|]. unfold same_guard. intros ??? -> ->. done. Qed.

Lemma post_guard url method params timeout streaming :
  preserves same_guard (post rm ad url method params timeout streaming).
Proof.
  apply preserves_bind; [apply _| |intros a; apply preserves_ret, _].
  intros c. by destruct (exchange_request rm (Post url method params timeout streaming (token rm ad)) c) as (_&_&H).
Qed.

Lemma call_guard method params timeout : preserves same_guard (call rm ad method params timeout).
Proof.
  assert (forall url name ps, preserves same_guard (call_raw rm ad url name ps timeout)) as H.
  { intros url name ps c. by destruct (call_raw_request rm ad url name ps timeout c) as (_&_&H). }
  unfold call. apply preserves_bind; [apply _|by intros ?|]. intros peer.
  apply preserves_bind; [apply _|apply H|]. intros [v|e]; [apply preserves_ret, _|].
  destruct (unrecognised _ _ _); [|apply preserves_ret, _].
  apply preserves_bind; [apply _|by intros ?|]. intros _. apply preserves_bind; [apply _|by intros ?|]. intros m.
  apply preserves_bind; [apply _|apply H|]. intros a. apply preserves_ret, _.
Qed.

Lemma follow_task_guard {B} t (g : WireTask -> CM (S := S) (Result B)) c :
  (forall t, preserves same_guard (g t)) ->
  cl_guard (c_try (poll_until_settled rm ad t) g c).1 = cl_guard c.
Proof.
  intros Hg. apply (preserves_try same_guard (poll_until_settled rm ad t) g); [|exact Hg].
  intros c1. by destruct (poll_watches rm ad (poll_fuel c1) t POLL_INITIAL c1) as [H _].
Qed.

Lemma forward_guard {A} text (a : A) : preserves same_guard (c_bind (forward (S := S) text) (fun _ => c_ret a)).
Proof.
  apply preserves_bind; [apply _| |intros ?; apply preserves_ret, _].
  intros c. unfold forward. by case_bool_decide.
Qed.

Lemma run_blocking_left prompt c c' e :
  cl_guard c = None -> run_blocking rm ad prompt c = (c', e) -> left_with (blocking_named prompt c) c' e.
Proof.
  intros Hg. unfold run_blocking, get_peer, mid, blocking_named. do 2 (unfold c_bind at 1; cbv beta iota).
  unfold c_try at 1, c_bind at 1. pose proof (call_guard SEND_MESSAGE
    (send_params (fresh_mid rm c) prompt (pr_dialect (cl_peer c))) None c) as G.
  destruct (call rm ad SEND_MESSAGE _ _ c) as [c1 [[v|err]| |]]; unfold same_guard in G; cbn [fst] in G; rewrite Hg in G;
    try (intros [= <- <-]; exact G).
  destruct (parse_send_result v) as [[t|text]|]; [| |by intros [= <- <-]].
  - unfold guard_task. unfold c_bind at 1. cbv beta iota.
    match goal with |- c_try _ ?g ?c2 = _ -> _ => intros E; pose proof (follow_task_guard t g c2) as H end.
    rewrite E in H. cbn [fst cl_guard] in H.
    assert (cl_guard c' = Some (w_id t)) as Hc by (apply H; intros ?; apply forward_guard).
    by destruct e as [[]| |].
  - unfold c_bind, forward, c_ret. by case_bool_decide; intros [= <- <-].
Qed.

Lemma first_task_app ea eb : first_task (ea ++ eb) = stated (first_task ea) (first_task eb).
Proof. induction ea as [|[] ea IH]; cbn [app first_task]; auto. Qed.

Lemma stated_assoc a b d : stated a (stated b d) = stated (stated a b) d.
Proof. by destruct a. Qed.

Lemma stated_none a : stated a None = a.
Proof. by destruct a. Qed.

(** The clock stands still. *)
Definition same_clock (c c' : Client S) : Prop := cl_now c' = cl_now c /\ cl_deadline c' = cl_deadline c.

(** The follower knows no task the guard does not know. *)
Definition watched (c : Client S) (f : StreamFollower) : Prop := cl_guard c = None -> sf_task_id f = None.

Lemma apply_event_guard event f known :
  (known = None -> sf_task_id f = None) ->
  let f' := (apply_event event f).1 in
  let known' := match known with Some _ => known | None => sf_task_id f' end in
  known' = stated known (first_task [event]) /\ (known' = None -> sf_task_id f' = None).
Proof. destruct known as [id|]; [done|]. intros H. specialize (H eq_refl). by destruct event. Qed.

Lemma on_events_left method datas f c c' e :
  watched c f -> on_events rm ad method datas f c = (c', e) ->
  same_clock c c' /\
  let n := stated (cl_guard c) (first_task (events_of datas).1) in
  match e with
  | Came (Ok (true, g)) => follower_finished g = true
  | Came (Ok (false, g)) => cl_guard c' = n /\ watched c' g /\ (events_of datas).2 = true
  | Came (Err _) => cl_guard c' = n /\ (events_of datas).2 = false
  | _ => False
  end.
Proof.
  revert f c. induction datas as [|data datas IH]; intros f c Hw; cbn [on_events events_of].
  { intros [= <- <-]. split; [done|]. cbn. by rewrite stated_none. }
  pose proof (envelope_payload method data) as P. destruct (parse_envelope _ _) as [x|err]; rewrite P.
  2: { intros [= <- <-]. split; [done|]. cbn. by rewrite stated_none. }
  specialize (IH f) as IHf. destruct (parse_stream_event x) as [event|].
  2: { intros H%IHf; [|done]. by destruct (events_of datas) as [events all]. }
  clear IHf. pose proof (apply_event_guard event f (cl_guard c) Hw) as A. cbv zeta in A.
  destruct (apply_event event f) as [f1 text]. cbn [fst] in A. destruct A as [A1 A2].
  unfold c_bind at 1.
  assert (exists c1, (match text with Some text => forward text | None => c_ret tt end) c = (c1, Came tt) /\
    same_clock c c1 /\ cl_guard c1 = cl_guard c) as (c1&->&H1&H2).
  { destruct text as [text|]; [unfold forward; case_bool_decide|]; eexists; by split. }
  unfold guard_task. unfold c_bind at 1. cbv beta iota.
  set (c2 := {| cl_other := cl_other c1; cl_peer := _; cl_descriptor := _; cl_now := _; cl_deadline := _;
                cl_forwarded := _; cl_guard := _; cl_sent := _ |}).
  assert (cl_guard c2 = stated (cl_guard c) (first_task [event])) as Hg by (unfold c2; cbn [cl_guard]; by rewrite H2).
  destruct (follower_finished f1) eqn:Ef; [by intros [= <- <-]|].
  assert (watched c2 f1) as Hw2 by (unfold watched, c2; cbn [cl_guard]; by rewrite H2).
  intros [H3 H4]%(IH f1 c2 Hw2). split; [unfold same_clock; destruct H1 as [<- <-]; exact H3|].
  destruct (events_of datas) as [events all]. cbn [fst snd] in *. rewrite Hg in H4.
  rewrite <- stated_assoc, <- first_task_app in H4. exact H4.
Qed.

Lemma wait_left d c :
  if match time_left c with Some t => t <? d | None => false end
  then exists c1, wait d c = (c1, Elapsed) /\ cl_guard c1 = cl_guard c
  else exists c1, wait d c = (c1, Came tt) /\ cl_guard c1 = cl_guard c /\ time_left c1 = (fun t => t - d) <$> time_left c.
Proof.
  unfold time_left, wait. destruct (cl_deadline c) as [t|] eqn:Hd; cbn [fmap option_fmap option_map].
  - destruct (Z.ltb_spec (t - cl_now c) d), (Z.ltb_spec t (cl_now c + d)); try lia;
      eexists; (split; [reflexivity|]); [done|]. split; [done|]. cbn [at_time cl_deadline cl_now]. rewrite Hd. cbn.
    f_equal. lia.
  - eexists. split; [reflexivity|]. split; [done|]. cbn [at_time cl_deadline]. by rewrite Hd.
Qed.

Lemma follow_left method body buffer f received c c' e :
  watched c f -> follow rm ad method body buffer f received c = (c', e) ->
  let n := stated (cl_guard c) (first_task (events_of (feed_all buffer (pieces (time_left c) received body).1).2).1) in
  match e with Came (Ok g) => follower_finished g = true \/ cl_guard c' = n | _ => cl_guard c' = n end.
Proof.
  revert buffer f received c. induction body as [|[d item] body IH]; intros buffer f received c Hw; cbn [follow].
  { intros [= <- <-]. right. cbn. by rewrite stated_none. }
  unfold c_bind at 1. cbn [pieces]. pose proof (wait_left d c) as Hwait.
  destruct (match time_left c with Some t => t <? d | None => false end).
  { destruct Hwait as (c1&->&Hg). intros [= <- <-]. cbn. by rewrite stated_none. }
  destruct Hwait as (c1&->&Hg&Hl). rewrite <- Hl, <- Hg.
  assert (watched c1 f) as Hw1 by (unfold watched; by rewrite Hg). clear Hw Hl Hg.
  destruct item as [chunk|err]; [|intros [= <- <-]; cbn; by rewrite stated_none].
  destruct (_ <? received + _); [intros [= <- <-]; cbn; by rewrite stated_none|].
  destruct (feed buffer chunk) as [buffer' datas] eqn:Ef.
  unfold c_try, c_bind. destruct (on_events rm ad method datas f c1) as [c2 a] eqn:Eo.
  apply on_events_left in Eo as [Hc Ho]; [|exact Hw1]. cbv zeta in Ho.
  assert (time_left c2 = time_left c1) as Ht by (unfold time_left; by destruct Hc as [-> ->]). rewrite <- Ht.
  specialize (IH buffer'). destruct (pieces (time_left c2) (received + Z.of_nat (length chunk)) body) as [chunks whole] eqn:Ep.
  cbn [feed_all fst]. rewrite Ef. destruct (feed_all buffer' chunks) as [buffer2 datas'] eqn:Efa. cbn [snd].
  rewrite events_of_app. destruct (events_of datas) as [ea alla]. cbn [fst snd] in Ho.
  destruct a as [[[[] g]|err]| |]; [by intros [= <- <-]; left| |intros [= <- <-]; by destruct Ho as [-> ->]|done..].
  destruct Ho as (Hg&Hw2&->). intros H%(IH g (received + Z.of_nat (length chunk)) c2 Hw2). rewrite Ep in H. cbn [fst] in H.
  rewrite Efa, Hg in H. cbn [snd] in H. destruct (events_of datas') as [eb allb]. cbn [fst] in *.
  rewrite first_task_app, stated_assoc. exact H.
Qed.

Lemma conclude_left f c c' e :
  conclude_stream rm ad f c = (c', e) ->
  match e with
  | Came (Ok s) => s <> None
  | _ => follower_finished f = false /\ cl_guard c' = cl_guard c
  end.
Proof.
  unfold conclude_stream, follower_finished. destruct (sf_message f) as [text|]; [by intros [= <- <-]|].
  set (t := into_task f). assert (w_state t = match sf_state f with Some s => s | None => TSUnknown end) as Hs by done.
  destruct (state_settled (w_state t) || bool_decide (w_id t = "")) eqn:E; [by intros [= <- <-]|].
  apply orb_false_iff in E as [E _]. rewrite Hs in E. intros H.
  pose proof (follow_task_guard t (fun t => c_ret (Ok (Some (STask t)))) c) as X. rewrite H in X. cbn [fst] in X.
  assert (cl_guard c' = cl_guard c) as Hg by (apply X; intros ?; apply preserves_ret, _).
  assert (match sf_state f with Some s => state_settled s | None => false end = false) as Hf by (by destruct (sf_state f)).
  revert H. unfold c_try, c_bind. destruct (poll_until_settled rm ad t c) as [c1 [[]| |]]; by intros [= <- <-].
Qed.

Lemma plain_answer_left prompt method h c c' e :
  cl_guard c = None -> plain_answer rm ad method h c = (c', e) ->
  let n := match read_bounded ad h c with
           | (c2, Came (Ok text)) =>
               match parse_envelope method (rm_envelope rm text) with
               | Ok v => match parse_stream_event v with Some (SETask t) => Some (w_id t) | _ => None end
               | Err e => if refuses_streaming e then blocking_named prompt (set_peer (set_streaming false) c2).1 else None
               end
           | _ => None
           end in
  left_with n c' e /\
  (e = Came (Ok None) -> cl_guard c' = None /\ n = blocking_named prompt c').
Proof.
  intros Hg. unfold plain_answer. unfold c_try at 1, c_bind at 1.
  destruct (read_bounded_waits (S := S) ad h c) as (_&_&G&_). rewrite Hg in G.
  destruct (read_bounded ad h c) as [c2 [[text|err]| |]]; cbn [fst] in G; try (by intros [= <- <-]).
  destruct (parse_envelope _ _) as [v|err].
  2: { destruct (refuses_streaming err); [|by intros [= <- <-]]. by intros [= <- <-]. }
  destruct (parse_stream_event v) as [[t|text'| |]|]; try (by intros [= <- <-]).
  - unfold guard_task. unfold c_bind at 1. cbv beta iota. cbv zeta.
    match goal with |- c_try _ ?g ?c3 = _ -> _ => intros E; pose proof (follow_task_guard t g c3) as H end.
    rewrite E in H. cbn [fst cl_guard] in H.
    assert (cl_guard c' = Some (w_id t)) as Hc by (apply H; intros ?; apply forward_guard). clear H.
    split; [by destruct e as [[]| |]|]. intros ->. exfalso. revert E. unfold c_try, c_bind.
    match goal with |- context [poll_until_settled rm ad t ?c3] => destruct (poll_until_settled rm ad t c3) as [c4 [[]| |]] end;
      [|done..]. unfold forward. by case_bool_decide.
Qed.

Lemma attempt_left streaming prompt c c' e :
  cl_guard c = None -> attempt rm ad streaming prompt c = (c', e) -> left_with (named streaming prompt c) c' e.
Proof.
  intros Hg. unfold attempt, named. destruct streaming; [|by apply run_blocking_left].
  unfold run_streaming, get_peer, mid. cbv zeta. unfold c_try at 1, c_bind at 1. do 2 (unfold c_bind at 1; cbv beta iota zeta).
  unfold c_bind at 1. pose proof (post_guard (pr_url (cl_peer c)) (wire_name SEND_STREAMING_MESSAGE (pr_dialect (cl_peer c)))
    (send_params (fresh_mid rm c) prompt (pr_dialect (cl_peer c))) None true c) as G. unfold same_guard in G. rewrite Hg in G.
  destruct (post rm ad _ _ _ _ _ c) as [c1 [[h|err]| |]]; cbn [fst] in G; try (by intros [= <- <-]).
  destruct (is_sse h).
  - unfold c_try, c_bind. destruct (follow _ _ _ _ _ _ _ c1) as [c2 a] eqn:Ef.
    apply follow_left in Ef; [|by intros _]. cbv zeta in Ef. rewrite G in Ef. cbn [stated] in Ef.
    destruct a as [[f|err]| |]; try (by intros [= <- <-]).
    destruct (conclude_stream rm ad f c2) as [c3 b] eqn:Ec. apply conclude_left in Ec.
    assert (match b with Came (Ok s) => s <> None | _ => cl_guard c3 = first_task (events_of (feed_all ""
      (pieces (time_left c1) 0 (ht_body h)).1).2).1 end) as H.
    { destruct b as [[s|err]| |]; [done|..]; destruct Ec as [E1 E2]; rewrite E2; (destruct Ef as [Ef|Ef]; [congruence|done]). }
    destruct b as [[[s|]|err]| |]; [|done|..]; by intros [= <- <-].
  - unfold c_try, c_bind. destruct (plain_answer rm ad _ h c1) as [c2 a] eqn:Ep.
    apply (plain_answer_left prompt) in Ep as [H1 H2]; [|done]. cbv zeta in H1, H2.
    destruct a as [[[s|]|err]| |]; try (by intros [= <- <-]).
    destruct (H2 eq_refl) as [H3 H4]. intros E. unfold c_bind in H4. rewrite H4. by apply run_blocking_left.
Qed.

(** A request that cancels nothing. *)
Definition no_cancellation (r : Request) : Prop :=
  match r with Post _ method _ _ _ _ => method <> CANCEL_TASK /\ method <> "tasks/cancel" | Get _ _ => True end.

(** C23: An attempt that ends in an error or at its deadline cancels the task the
    peer has named by then, the one its plain answer is or the first one among
    the events that have arrived of a stream: the last thing it does is to ask
    the peer, where and how it is spoken to by then, to cancel that task.  When
    the peer has named none it cancels nothing, and neither does an attempt
    that ends with an outcome, whatever the state of the task. *)
Theorem abandoned_is_cancelled request attempt_id c :
  let '(c', answer) := execute rm ad request attempt_id c in
  exists asked, Forall no_cancellation asked /\
    cl_sent c' = (cl_sent c ++ asked ++
      match answer, named (pr_streaming (cl_peer c)) (er_prompt request) (begun (er_timeout_ms request) c) with
      | Some (Err _), Some id => [cancel_request rm ad id (cl_peer c')]
      | _, _ => []
      end)%list.
Proof.
  unfold execute. set (c0 := begun (er_timeout_ms request) c).
  assert (clean (fun _ => True) no_cancellation c0 (attempt rm ad (pr_streaming (cl_peer c)) (er_prompt request) c0).1)
    as H.
  { apply attempt_clean. intros url m d ps to st _ Hm. unfold attempt_methods in Hm.
    rewrite !list.elem_of_cons, elem_of_nil in Hm. by destruct Hm as [->|[->|[->|[]]]], d. }
  destruct (H I) as (_&asked&Hs&F). clear H. change (cl_sent c0) with (cl_sent c) in Hs.
  destruct (attempt rm ad _ _ _) as [c' e] eqn:E. apply attempt_left in E; [|done]. cbn [fst] in Hs.
  assert (forall n, cl_guard c' = n -> cl_sent (drop_guard rm ad c') = (cl_sent c ++ asked ++
      match n with Some id => [cancel_request rm ad id (cl_peer (drop_guard rm ad c'))] | None => [] end)%list) as Hd.
  { intros n En. unfold drop_guard. rewrite En.
    destruct n; cbn [cl_sent cl_peer]; rewrite Hs; [by rewrite <- app_assoc|by rewrite app_nil_r]. }
  destruct e as [[s|err]| |]; cbn [left_with] in E; exists asked; (split; [done|]);
    [by rewrite app_nil_r|by apply Hd|by apply Hd|by rewrite app_nil_r].
Qed.
End Answers.
