(* ===== verification/A2aBoth.v ===== *)
(** * The A2A client against CUMA's own server

    What one side writes the other reads back, in either dialect, and a client
    polling the server ends with the server's own record of the task. *)

From S2P Require Export A2aServerLaws A2aClientFacts.
From stdpp Require Import relations.
Open Scope string_scope.
Open Scope Z_scope.

(** ** The wire *)

(** C37: In both dialects, what is written of a task, of a send result and of each
    kind of stream event is read back as what was said: the ids, the state, the
    timestamp, and the texts up to surrounding blanks. *)
Theorem wire_roundtrip id t d artifact_id text :
  parse_task (task_json id t d) = Some (wire_task t) /\
  parse_send_result (send_result_json id t d) = Some (SRTask (wire_task t)) /\
  parse_stream_event (task_event_json id t d) = Some (SETask (wire_task t)) /\
  parse_stream_event (status_event_json id t d) = Some (SEStatus (w_state t) (wire_text (w_status_text t))) /\
  parse_stream_event (artifact_event_json t artifact_id text d) = Some (SEArtifact (trim text)).
Proof.
  assert (parse_send_result (send_result_json id t d) = Some (SRTask (wire_task t))) as Hs.
  { unfold send_result_json. destruct d.
    - transitivity (SRTask <$> parse_task (task_json id t V1)); [reflexivity|]. by rewrite parse_task_json.
    - transitivity (SRTask <$> parse_task (task_json id t Legacy)); [reflexivity|]. by rewrite parse_task_json. }
  split_and!.
  - apply parse_task_json.
  - exact Hs.
  - unfold task_event_json, parse_stream_event.
    assert (jget "statusUpdate" (send_result_json id t d) = None /\ jget "artifactUpdate" (send_result_json id t d) = None /\
            (str_field "kind" (send_result_json id t d) = None \/ str_field "kind" (send_result_json id t d) = Some "task"))
      as (->&->&Hk) by (destruct d; split_and!; auto).
    cbv zeta. rewrite !bool_decide_eq_false_2 by (destruct Hk as [-> | ->]; done). by rewrite Hs.
  - assert (status_event (JObject [("status", status_json id t d)]) =
      Some (SEStatus (w_state t) (wire_text (w_status_text t)))) as He.
    { transitivity (Some (SEStatus (status_state (status_json id t d)) (status_text (status_json id t d)))); [reflexivity|].
      by rewrite status_state_json, status_text_json. }
    destruct d; exact He.
  - assert (forall fields, jget "artifact" (JObject fields) =
      Some (JObject [("artifactId", JString artifact_id); ("parts", JArray [text_part text d])]) ->
      artifact_event (JObject fields) = Some (SEArtifact (trim text))) as He.
    { intros fields E. unfold artifact_event. rewrite E.
      transitivity (Some (SEArtifact (parts_text (Some (JArray [text_part text d]))))); [reflexivity|].
      by rewrite parts_text_one. }
    destruct d; (refine (He _ _); reflexivity).
Qed.

(** ** Polling CUMA *)

Section Served.
  (** Printing an answer, and the arguments of the server's calls. *)
  Context (print : Value -> string) (read : string -> result JsonRpcResponse string).
  Context (read_card : string -> result AgentCard string) (status_text : Z -> string).
  Context (root env : string -> option string) (uuid : nat -> string) (rpc_id task_id context mid now : string).

Definition answered (status : Z) (text : string) : HttpResponse :=
  {| ht_status := status; ht_retry_after := None; ht_content_type := Some "application/json";
     ht_content_length := None; ht_body := [(0, Ok (bytes text))] |}.

(** The other end is CUMA's server; what it would not answer at once is out of
    its reach here. *)
Definition served : Remote Server :=
  {| rm_send := fun s r =>
       match r with
       | Post _ method params _ _ token =>
           let header := (fun t => "Bearer" +:+ String SPACE t) <$> token in
           let request := Ok {| jrq_id := JString rpc_id; jrq_method := method; jrq_params := params |} in
           match route_call header request task_id context mid now s with
           | (s, None) => (s, 0, Ok (answered 401 ""))
           | (s, Some (AReply (RJson v))) => (s, 0, Ok (answered 200 (print v)))
           | (s, Some _) => (s, 0, Err (HTimeout ""))
           end
       | Get _ _ => (s, 0, Err (HFailed ""))
       end;
     rm_envelope := read; rm_card := read_card; rm_status := status_text; rm_root := root; rm_env := env;
     rm_uuid := uuid |}.

Lemma handle_get s method params d :
  method = wire_name GET_TASK d ->
  handle (Ok {| jrq_id := JString rpc_id; jrq_method := method; jrq_params := params |}) task_id context mid now s =
    (s, AReply (RJson (get_task (JString rpc_id) params d mid s))).
Proof. intros ->. destruct d; reflexivity. Qed.

Lemma read_answer (ad : Adapter) text (c : Client Server) :
  from_utf8 (bytes text) = Some text -> Z.of_nat (String.length text) <= MAX_RESPONSE_BYTES ->
  (forall t, cl_deadline c = Some t -> cl_now c <= t) ->
  read_bounded ad (answered 200 text) c = (c, Came (Ok text)).
Proof.
  intros U L D. unfold read_bounded, answered. cbn [ht_content_length ht_body]. unfold c_try, c_bind. cbn [read_chunks].
  unfold c_bind.
  assert (wait 0 c = (c, Came tt)) as ->.
  { unfold wait. destruct (cl_deadline c) as [t|] eqn:E.
    - destruct (Z.ltb_spec t (cl_now c + 0)) as [H|H]; [specialize (D t eq_refl); lia|].
      f_equal. unfold at_time. rewrite Z.add_0_r. by destruct c.
    - f_equal. unfold at_time. rewrite Z.add_0_r. by destruct c. }
  cbn [app]. destruct (Z.ltb_spec MAX_RESPONSE_BYTES (Z.of_nat (length (bytes text)))) as [H|H];
    [rewrite bytes_length in H; lia|].
  unfold c_ret. by rewrite U.
Qed.

(** C38: A client that polls CUMA's own server for a task that has settled ends
    with the server's record of it, in whichever dialect the peer is spoken to,
    and the server is unchanged. *)
Theorem poll_reads_server ad fuel t delay e (c : Client Server) :
  let s := cl_other c in
  let text := print (rpc_result (JString rpc_id) (task_json mid (te_snapshot e) (pr_dialect (cl_peer c)))) in
  sv_tokens s = [] -> bt_get (w_id t) (tm_entries (sv_tasks s)) = Some e -> settled_entry e = true ->
  state_settled (w_state t) = false ->
  0 <= delay -> (forall d, cl_deadline c = Some d -> cl_now c + delay <= d) ->
  from_utf8 (bytes text) = Some text -> Z.of_nat (String.length text) <= MAX_RESPONSE_BYTES ->
  read text = Ok {| jp_result := Some (task_json mid (te_snapshot e) (pr_dialect (cl_peer c))); jp_error := None |} ->
  exists c', poll served ad (Datatypes.S fuel) t delay c = (c', Came (Ok (wire_task (te_snapshot e)))) /\
    cl_other c' = s /\ cl_now c' = cl_now c + delay.
Proof.
  intros s text Ht He Hs Hu Hd Dl U L R. set (d := pr_dialect (cl_peer c)) in *.
  cbn [poll]. rewrite Hu. unfold c_bind at 1.
  assert (wait delay c = (at_time (cl_now c + delay) c, Came tt)) as ->.
  { unfold wait. destruct (cl_deadline c) as [x|] eqn:E; [|done].
    destruct (Z.ltb_spec x (cl_now c + delay)) as [H|H]; [specialize (Dl x eq_refl); lia|done]. }
  set (c1 := at_time (cl_now c + delay) c).
  set (params := JObject [("id", JString (w_id t))]).
  set (r := Post (pr_url (cl_peer c)) (wire_name GET_TASK d) params (Some SHORT_CALL) false (token served ad)).
  assert (rm_send served s r = (s, 0, Ok (answered 200 text))) as Hsend.
  { unfold served, r. cbn [rm_send]. unfold route_call, is_authorized. rewrite Ht.
    rewrite (handle_get s _ params d eq_refl). unfold get_task.
    change (task_id_param params) with (w_id t). by rewrite He. }
  set (c2 := {| cl_other := s; cl_peer := cl_peer c1; cl_descriptor := cl_descriptor c1; cl_now := cl_now c1;
                cl_deadline := cl_deadline c1; cl_forwarded := cl_forwarded c1; cl_guard := cl_guard c1;
                cl_sent := (cl_sent c1 ++ [r])%list |}).
  assert (exchange served r c1 = (c2, Came (Ok (answered 200 text)))) as Hx.
  { unfold exchange. change (cl_other c1) with s. rewrite Hsend. unfold c_bind.
    assert (wait 0 c2 = (c2, Came tt)) as Hw.
    { unfold wait. unfold c2 at 1. cbn [cl_deadline c1 at_time]. destruct (cl_deadline c) as [x|] eqn:E.
      - cbn [c2 cl_now c1 at_time]. destruct (Z.ltb_spec x (cl_now c + delay + 0)) as [H|H]; [specialize (Dl x eq_refl); lia|].
        unfold c2, at_time. cbn. rewrite Z.add_0_r. by rewrite E.
      - unfold c2, at_time. cbn. rewrite Z.add_0_r. by rewrite E. }
    fold c2. by rewrite Hw. }
  assert (call served ad GET_TASK params (Some SHORT_CALL) c1 = (c2, Came (Ok (task_json mid (te_snapshot e) d)))) as Hcall.
  { unfold call, get_peer, call_raw, post, c_try. unfold c_bind. change (cl_peer c1) with (cl_peer c). fold d. fold r.
    rewrite Hx. cbn [answered status_error ht_status]. unfold c_ret at 1. cbn beta iota.
    change (status_error served ad (wire_name GET_TASK d) (answered 200 text)) with (None : option MetaAgentError).
    cbv beta iota. rewrite read_answer by (done || (intros x Hx'; cbn [c2 c1 cl_now at_time cl_deadline] in *; by apply Dl)).
    unfold c_ret. change (rm_envelope served text) with (read text). by rewrite R. }
  unfold c_try, c_bind. rewrite Hcall. unfold polled_task. rewrite parse_task_json.
  exists c2. split; [|done].
  assert (forall f x, poll served ad f (wire_task (te_snapshot e)) x c2 = (c2, Came (Ok (wire_task (te_snapshot e))))) as Hp.
  { intros f x. unfold settled_entry in Hs. destruct f; cbn [poll wire_task w_state]; rewrite Hs; reflexivity. }
  apply Hp.
Qed.
End Served.
