(* ===== verification/A2aDemo.v ===== *)
(** * A2A at concrete inputs

    A server with a task or two and a peer with canned answers; each theorem of
    the protocol applied to them. *)

From S2P Require Export A2aBoth A2aAnswers.
From S2P Require Import TrustFacts.
From stdpp Require Import relations.
Open Scope string_scope.
Open Scope Z_scope.

Definition demo_task (id : string) (s : TaskState) : WireTask :=
  {| w_id := id; w_context_id := "c"; w_state := s; w_status_text := None; w_timestamp := None; w_artifacts := [] |}.

Definition demo_bodies : list (option Value) :=
  [Some (task_json "m" (demo_task "t1" A2aWire.Completed) V1); None;
   Some (task_json "m" (demo_task "t2" Working) Legacy)].

Definition demo_server : Server := restarted [] "http://localhost/" "m" "noon" demo_bodies.
Definition demo_world : World := world_new demo_server.

Definition demo_params : Value :=
  JObject [("message", JObject [("parts", JArray [text_part "do it" V1])])].

(** The server once a task was started, and its run spawned, known and polled. *)
Definition demo_started : World := world_new (start demo_params "t3" "c3" "one" demo_server).1.

Definition demo_entry : TaskEntry :=
  {| te_snapshot := initial_task "t3" "c3" "one"; te_updates := []; te_run := Some new_run |}.

Definition demo_saved : World := on_run "t3" (in_phase PSaved) (on_server (first_save "m" demo_entry) demo_started).
Definition demo_spawned : World := on_run "t3" (in_phase PSpawned) demo_saved.
Definition demo_handled : World := on_run "t3" given_handle demo_spawned.
Definition demo_entered : World := on_run "t3" (in_phase PEntered) demo_handled.

Definition demo_run (p : Phase) (handle : bool) : TaskRun :=
  {| r_phase := p; r_handle := handle; r_aborted := false |}.

Lemma demo_kept : rtc (kept "t1") demo_world demo_entered.
Proof.
  eapply (rtc_l _ _ demo_started).
  { split; [|vm_compute; eauto].
    assert (demo_started = {| wd_server := (start demo_params "t3" "c3" "one" demo_server).1; wd_cancel := None;
      wd_orphans := (taken (sv_tasks demo_server) (sv_tasks (start demo_params "t3" "c3" "one" demo_server).1) ++ [])%list |})
      as -> by (vm_compute; reflexivity).
    eapply (step_start demo_world demo_params "t3" "c3" "one"); [done|vm_compute; reflexivity| |].
    - apply (bool_decide_unpack _). vm_compute. exact I.
    - vm_compute. reflexivity. }
  eapply (rtc_l _ _ demo_saved).
  { split; [|vm_compute; eauto].
    apply (step_first_save demo_started "t3" demo_entry new_run "m"); vm_compute; reflexivity. }
  eapply (rtc_l _ _ demo_spawned).
  { split; [|vm_compute; eauto].
    apply (step_spawn demo_saved "t3" (demo_run PSaved false)); vm_compute; reflexivity. }
  eapply (rtc_l _ _ demo_handled).
  { split; [|vm_compute; eauto].
    apply (step_handle demo_spawned "t3" (with_run (demo_run PSpawned false) demo_entry) (demo_run PSpawned false));
      [vm_compute; reflexivity..|by intros [=]|by intros [=]]. }
  apply rtc_once. split; [|vm_compute; eauto].
  apply (step_poll demo_handled "t3" (demo_run PSpawned true)); vm_compute; reflexivity.
Qed.

Lemma demo_steps : rtc step demo_world demo_entered.
Proof. eapply rtc_subrel; [|exact demo_kept]. by intros ? ? [? _]. Qed.

Lemma demo_ids : NoDup (map w_id (loaded_tasks demo_bodies)).
Proof. apply (bool_decide_unpack _). vm_compute. exact I. Qed.

Lemma demo_world_ok : world_ok demo_world.
Proof.
  destruct (restarted_tasks [] "http://localhost/" "m" "noon" demo_bodies demo_ids) as (O&R&L&_&_&_&N).
  apply world_new_ok; [exact O|exact R|exact N|]. apply Nat.leb_le. vm_compute. reflexivity.
Qed.

Lemma store_invariant_witness :
  exists w, rtc step demo_world w /\ length (tm_order (tasks_of w)) = 3%nat /\ runs_ok (tasks_of w).
Proof.
  exists demo_entered. split; [exact demo_steps|]. split; [vm_compute; reflexivity|].
  refine (proj1 (proj2 (store_invariant [] "http://localhost/" "m" "noon" demo_bodies demo_entered demo_ids _ demo_steps))).
  apply Nat.leb_le. vm_compute. reflexivity.
Defined.

Lemma restart_settles_witness :
  tm_order (sv_tasks demo_server) = ["t1"; "t2"] /\
  te_snapshot <$> bt_get "t2" (tm_entries (sv_tasks demo_server)) = Some (interrupted "noon" (demo_task "t2" Working)).
Proof.
  destruct (restart_settles [] "http://localhost/" "m" "noon" demo_bodies demo_ids) as (H1&H2&_).
  split; [exact H1|]. refine (H2 (demo_task "t2" Working) _).
  assert (loaded_tasks demo_bodies = [demo_task "t1" A2aWire.Completed; demo_task "t2" Working]) as ->
    by (vm_compute; reflexivity).
  right. left.
Defined.

(** A full store: 512 settled tasks. *)
Definition demo_full : TaskMap :=
  fold_left (fun m t => insert_settled t m)
    (map (fun n => demo_task (pretty (Z.of_nat n)) A2aWire.Completed) (seq 0 512)) map_default.

Lemma demo_full_ok : store_ok demo_full.
Proof.
  refine (proj1 (insert_all_ok _ map_default store_ok_default _ _ _)).
  - by intros ? ?.
  - apply (bool_decide_unpack _). vm_compute. exact I.
  - apply list.Forall_forall. intros t (n&->&_)%elem_of_map. reflexivity.
Qed.

Lemma make_room_exact_witness :
  (make_room (length (tm_order demo_full)) demo_full).2 = ["0"].
Proof.
  destruct (make_room_exact demo_full demo_full_ok) as (E&_). rewrite E. vm_compute. reflexivity.
Defined.

Lemma settled_is_final_witness :
  te_snapshot <$> entry_of "t1" demo_entered = Some (demo_task "t1" A2aWire.Completed).
Proof.
  refine (proj1 (settled_is_final "t1" (demo_task "t1" A2aWire.Completed) demo_world demo_entered _ _ _)).
  - exact demo_world_ok.
  - split; [reflexivity|]. split; [|by intros ? ? [=]]. eexists. split; [vm_compute; reflexivity|].
    split; [vm_compute; reflexivity|]. by intros ? [=].
  - exact demo_kept.
Defined.

Lemma cancelled_revives_witness :
  exists w1 w2, rtc step demo_world w1 /\
    option_map (fun e => w_state (te_snapshot e)) (entry_of "t3" w1) = Some Canceled /\ rtc step w1 w2 /\
    option_map (fun e => (w_state (te_snapshot e), option_map r_phase (te_run e))) (entry_of "t3" w2) =
      Some (Working, Some PDropped).
Proof.
  assert (exists e r, entry_of "t3" demo_entered = Some e /\ te_run e = Some r /\ settled_entry e = false /\
    r_phase r = PEntered /\ r_handle r = true) as (e&r&He&Hr&Hs&Hp&Hh)
    by (eexists _, (demo_run PEntered true); split; [vm_compute; reflexivity|split_and!; vm_compute; reflexivity]).
  destruct (proj1 (cancelled_revives demo_entered "t3" e r "m" "two" eq_refl He Hr Hs) Hp Hh) as (w1&w2&H1&_&S1&H2&S2).
  exists w1, w2. split; [etrans; [exact demo_steps|exact H1]|]. exact (conj S1 (conj H2 S2)).
Defined.

Lemma pages_cover_witness :
  map w_id (all_pages 4 (JObject [("pageSize", JInt 1)]) (tasks_of demo_entered)) = ["t3"; "t2"; "t1"].
Proof.
  pose proof (wo_store _ (world_steps _ _ demo_world_ok demo_steps)) as O.
  rewrite (proj1 (pages_cover [("pageSize", JInt 1)] (tasks_of demo_entered) 4 O
    ltac:(apply Nat.leb_le; vm_compute; reflexivity) eq_refl ltac:(apply Nat.leb_le; vm_compute; reflexivity))).
  vm_compute. reflexivity.
Defined.

Lemma stream_delivers_witness :
  exists s e t, subscribe (JInt 1) "t3" V1 true (wd_server demo_entered) = RStream t /\
    bt_get "t3" (tm_entries (sv_tasks s)) = Some e /\
    length (read_stream 5 "m" e t).1 = 3%nat.
Proof.
  pose (s := update_entry "t3" (fun e => set_tell (working (te_snapshot e)) false (set_change "two" working false e))
                (wd_server demo_entered)).
  pose (s' := update_entry "t3" (chunk "hello") s).
  assert (exists e, bt_get "t3" (tm_entries (sv_tasks s')) = Some e) as [e He] by (eexists; vm_compute; reflexivity).
  assert (length (te_updates e) = 2%nat /\ settled_entry e = false /\
    length (until_settled (drop 0 (te_updates e))) = 2%nat) as (L&_&Lu)
    by (vm_compute in He; injection He as <-; split_and!; vm_compute; reflexivity).
  assert (exists t, subscribe (JInt 1) "t3" V1 true (wd_server demo_entered) = RStream t /\ ts_position t = 0%nat)
    as (t&Ht&Hp) by (eexists; split; vm_compute; reflexivity).
  exists s', e, t. split; [exact Ht|]. split; [exact He|].
  destruct (stream_delivers 4 "m" (JInt 1) "t3" V1 true (wd_server demo_entered) e t Ht) as (e0&He0&Hp0&E&_);
    [rewrite L, Hp; apply Nat.leb_le; vm_compute; reflexivity|rewrite L, Hp; apply Nat.leb_le; reflexivity
    |rewrite L, Hp; apply Nat.ltb_lt; reflexivity|].
  rewrite E. rewrite Hp in Hp0. rewrite <- Hp0. clear E Ht.
  assert (settled_entry e0 = false) as -> by (vm_compute in He0; injection He0 as <-; vm_compute; reflexivity).
  cbn [length]. rewrite length_map. by rewrite Lu.
Defined.

(** ** A peer *)

Definition demo_request : ExecutionRequest :=
  {| er_task := task_with_id "t" (spec_new "x" General); er_model := None; er_prompt := "do it";
     er_workspace := "/w"; er_handoff := None; er_timeout_ms := 60000 |}.

Definition demo_adapter : Adapter :=
  {| ad_id := "peer"; ad_endpoint := "https://peer.example/a2a"; ad_auth_handle := None |}.

Definition demo_client : Client unit :=
  idle tt {| pr_url := "https://peer.example/a2a"; pr_dialect := V1; pr_streaming := false |} (agent_new "peer" "peer" A2A) 0.

(** A peer that answers a message with [answer], in 5 ms, and nothing else. *)
Definition demo_remote (answer : Value) : Remote unit :=
  {| rm_send := fun _ r =>
       match r with
       | Post _ method _ _ _ _ =>
           if bool_decide (method = SEND_MESSAGE) then (tt, 5, Ok (answered 200 "sent"))
           else (tt, 5, Err (HConnect "refused"))
       | Get _ _ => (tt, 5, Err (HConnect "refused"))
       end;
     rm_envelope := fun _ => Ok {| jp_result := Some answer; jp_error := None |};
     rm_card := fun _ => Err "no card"; rm_status := fun _ => "OK"; rm_root := fun _ => None;
     rm_env := fun _ => None; rm_uuid := pretty |}.

Lemma demo_delays answer o r :
  let '(_, d, a) := rm_send (demo_remote answer) o r in
  0 <= d /\ match a with Ok h => Forall (fun p => 0 <= p.1) (ht_body h) | Err _ => True end.
Proof.
  destruct r as [url method params timeout streaming tok|url tok]; cbn [demo_remote rm_send]; [|done].
  case_bool_decide; [|done]. split; [done|]. cbn [answered ht_body]. by repeat constructor.
Qed.

Lemma execute_ends_witness :
  exists c' o, execute (demo_remote (JObject [("message", message_json "m" "done" "agent" V1)])) demo_adapter demo_request "a1"
    demo_client = (c', Some (Ok o)) /\ oc_success o = true /\ oc_output o = "done" /\ oc_latency_ms o = 5.
Proof.
  set (rm := demo_remote _).
  pose proof (execute_ends rm demo_adapter (demo_delays _) demo_request "a1" demo_client) as H.
  assert ((execute rm demo_adapter demo_request "a1" demo_client).2 =
    Some (Ok (outcome demo_adapter demo_request (SMessage "done") "a1" 5))) as E by (vm_compute; reflexivity).
  destruct (execute rm demo_adapter demo_request "a1" demo_client) as [c' answer]. cbn [snd] in E. subst answer.
  destruct H as (_&_&rs&r&s&_&_&_&_). eexists _, _. split; [reflexivity|]. split_and!; reflexivity.
Defined.


(** A peer that streams: it names a task and the stream breaks. *)
Definition demo_streaming : Client unit :=
  idle tt {| pr_url := "https://peer.example/a2a"; pr_dialect := V1; pr_streaming := true |} (agent_new "peer" "peer" A2A) 0.

Definition demo_streamer : Remote unit :=
  {| rm_send := fun _ _ =>
       (tt, 5, Ok {| ht_status := 200; ht_retry_after := None; ht_content_type := Some "text/event-stream";
                     ht_content_length := None;
                     ht_body := [(7, Ok (bytes ("data: t9" +:+ PARAGRAPH))); (9, Err "reset")] |});
     rm_envelope := fun _ => Ok {| jp_result := Some (JObject [("task", task_json "m" (demo_task "t9" Working) V1)]);
                                   jp_error := None |};
     rm_card := fun _ => Err "no card"; rm_status := fun _ => "OK"; rm_root := fun _ => None;
     rm_env := fun _ => None; rm_uuid := pretty |}.

(** The task is cancelled over either transport, and it is not when the peer's
    agent asks for input, which is an outcome. *)
Lemma abandoned_is_cancelled_witness :
  (exists c' e asked, execute demo_streamer demo_adapter demo_request "a1" demo_streaming = (c', Some (Err e)) /\
     Forall no_cancellation asked /\
     cl_sent c' = (asked ++ [cancel_request demo_streamer demo_adapter "t9" (cl_peer c')])%list) /\
  (let rm := demo_remote (JObject [("task", task_json "m" (demo_task "t9" Working) V1)]) in
   exists c' e asked, execute rm demo_adapter demo_request "a1" demo_client = (c', Some (Err e)) /\
     Forall no_cancellation asked /\ cl_sent c' = (asked ++ [cancel_request rm demo_adapter "t9" (cl_peer c')])%list) /\
  (let rm := demo_remote (JObject [("task", task_json "m" (demo_task "t9" InputRequired) V1)]) in
   exists c' o, execute rm demo_adapter demo_request "a1" demo_client = (c', Some (Ok o)) /\ oc_success o = false /\
     Forall no_cancellation (cl_sent c')).
Proof.
  split; [|split].
  - pose proof (abandoned_is_cancelled demo_streamer demo_adapter demo_request "a1" demo_streaming) as H.
    assert (exists e, (execute demo_streamer demo_adapter demo_request "a1" demo_streaming).2 = Some (Err e)) as [e E]
      by (eexists; vm_compute; reflexivity).
    assert (named demo_streamer demo_adapter true "do it" (begun 60000 demo_streaming) = Some "t9") as N
      by (vm_compute; reflexivity).
    destruct (execute _ _ _ _ _) as [c' answer]. cbn [snd] in E. subst answer. destruct H as (asked&F&H).
    exists c', e, asked. split_and!; [done|done|]. rewrite H. cbn [demo_streaming idle cl_peer pr_streaming er_prompt demo_request er_timeout_ms].
    by rewrite N.
  - cbv zeta. set (rm := demo_remote _).
    pose proof (abandoned_is_cancelled rm demo_adapter demo_request "a1" demo_client) as H.
    assert (exists e, (execute rm demo_adapter demo_request "a1" demo_client).2 = Some (Err e)) as [e E]
      by (eexists; vm_compute; reflexivity).
    assert (named rm demo_adapter false "do it" (begun 60000 demo_client) = Some "t9") as N by (vm_compute; reflexivity).
    destruct (execute _ _ _ _ _) as [c' answer]. cbn [snd] in E. subst answer. destruct H as (asked&F&H).
    exists c', e, asked. split_and!; [done|done|]. rewrite H. cbn [demo_client idle cl_peer pr_streaming er_prompt demo_request er_timeout_ms].
    by rewrite N.
  - cbv zeta. set (rm := demo_remote _).
    pose proof (abandoned_is_cancelled rm demo_adapter demo_request "a1" demo_client) as H.
    assert (exists o, (execute rm demo_adapter demo_request "a1" demo_client).2 = Some (Ok o) /\ oc_success o = false)
      as (o&E&Eo) by (eexists; vm_compute; split; reflexivity).
    destruct (execute _ _ _ _ _) as [c' answer]. cbn [snd] in E. subst answer. destruct H as (asked&F&H).
    exists c', o. split_and!; [done|done|]. rewrite H. by rewrite app_nil_r.
Defined.

Lemma sse_chunking_witness :
  feed_all "" [bytes ("data: a" +:+ NL); bytes NL] = feed_all "" [bytes ("data: a" +:+ NL +:+ NL)].
Proof.
  assert (forall s, forallb (fun b => (0 <=? b) && (b <? 128) && negb (b =? 13)) (bytes s) = true ->
    Forall plain_byte (bytes s)) as P.
  { intros s H. rewrite forallb_forall in H. apply list.Forall_forall. intros b Hb%list_elem_of_In%H.
    unfold plain_byte. lia. }
  apply sse_chunking.
  - apply list.Forall_cons. split; [apply P; vm_compute; reflexivity|].
    apply list.Forall_cons. split; [apply P; vm_compute; reflexivity|constructor].
  - apply list.Forall_cons. split; [apply P; vm_compute; reflexivity|constructor].
  - vm_compute. reflexivity.
Defined.

Lemma poll_reads_server_witness :
  exists c', poll (served (fun _ => "answer") (fun _ => Ok {| jp_result := Some (task_json "m" (demo_task "t1" A2aWire.Completed) Legacy);
                                                      jp_error := None |})
              (fun _ => Err "no card") (fun _ => "OK") (fun _ => None) (fun _ => None) pretty "1" "t9" "c9" "m" "now")
    demo_adapter 1 (demo_task "t1" Working) 250
    (idle demo_server {| pr_url := "http://localhost:8080/"; pr_dialect := Legacy; pr_streaming := false |} (agent_new "p" "p" A2A) 0)
    = (c', Came (Ok (wire_task (demo_task "t1" A2aWire.Completed)))) /\ cl_now c' = 250.
Proof.
  destruct (poll_reads_server (fun _ => "answer")
    (fun _ => Ok {| jp_result := Some (task_json "m" (demo_task "t1" A2aWire.Completed) Legacy); jp_error := None |})
    (fun _ => Err "no card") (fun _ => "OK") (fun _ => None) (fun _ => None) pretty "1" "t9" "c9" "m" "now"
    demo_adapter 0 (demo_task "t1" Working) 250
    {| te_snapshot := demo_task "t1" A2aWire.Completed; te_updates := []; te_run := None |}
    (idle demo_server {| pr_url := "http://localhost:8080/"; pr_dialect := Legacy; pr_streaming := false |} (agent_new "p" "p" A2A) 0))
    as (c'&E&_&Hn); try (vm_compute; reflexivity); try done.
  exists c'. split; [exact E|exact Hn].
Defined.

(** ** Corner cases *)

(** The host before a colon is not the host when it is user information. *)
Example userinfo_is_local :
  is_local_endpoint "http://localhost:x@evil.example/" = true /\ is_local_endpoint "http://[::1]@evil.example/" = true.
Proof. vm_compute. done. Qed.

(** A character cut between two chunks, whole and in pieces. *)
Example split_character :
  let text := bytes "data: é" in
  (feed_all "" [(text ++ bytes PARAGRAPH)%list]).2 = ["é"] /\
  (feed_all "" [take 7 text; (drop 7 text ++ bytes PARAGRAPH)%list]).2 <> ["é"].
Proof. vm_compute. split; [reflexivity|discriminate]. Qed.

(** A CRLF cut between two chunks ends the event early. *)
Example split_crlf :
  let crlf := [13; 10] in
  (feed_all "" [(bytes "data: a" ++ crlf ++ bytes "data: b" ++ crlf ++ crlf)%list]).2 = ["a" +:+ NL +:+ "b"] /\
  (feed_all "" [(bytes "data: a" ++ [13])%list; ([10] ++ bytes "data: b" ++ crlf ++ crlf)%list]).2 = ["a"; "b"].
Proof. vm_compute. done. Qed.

(** Streamed pieces of one text come out on lines of their own. *)
Example chunks_become_lines :
  sf_artifact_text (fold_left (fun f text => (apply_event (SEArtifact (trim text)) f).1) ["Hel"; "lo wor"; "ld"]
                      follower_default) = "Hel" +:+ NL +:+ "lo wor" +:+ NL +:+ "ld".
Proof. vm_compute. reflexivity. Qed.
