(* ===== verification/Store.v ===== *)
(** * The runtime store ([cuma-persistence], and the recorder of [cuma-cli])

    The database sessions are recorded in: its schema and migrations
    (schema.rs), every statement of the store (store.rs), and the session
    recorder that writes to it (recorder.rs of [cuma-cli]).  A table is the list
    of its rows in the order they were inserted; a statement is a function on
    the database that either makes its change or leaves everything as it was and
    fails.  That a statement fails for a reason of the disk's is an argument: a
    connection carries what its next statements run into. *)

From S2P Require Export Session.
Open Scope string_scope.
Open Scope Z_scope.

(** ** What SQLite stores *)

Definition I64_MAX : Z := 2 ^ 63 - 1.

(** [u64 as i64] and [i64 as u64]; [i64 as u32] is [wrap32]. *)
Definition as_i64 (n : Z) : Z := if n <? 2 ^ 63 then n else n - 2 ^ 64.
Definition as_u64 (n : Z) : Z := wrap64 n.

Definition is_i64 (n : Z) : bool := (- 2 ^ 63 <=? n) && (n <=? I64_MAX).

(** A value of an INTEGER column: an integer of 64 bits, or the double an
    addition beyond them comes to. *)
Inductive SqlInt : Type :=
  | SInt (n : Z)
  | SReal (x : f64).

(** The integer a double is, when it is one. *)
Definition f64_integer (x : f64) : option Z :=
  match x with
  | S754_zero _ => Some 0
  | S754_finite s m e =>
      let z := if s then Zneg m else Zpos m in
      if 0 <=? e then Some (Z.shiftl z e)
      else if z mod 2 ^ (- e) =? 0 then Some (z / 2 ^ (- e)) else None
  | _ => None
  end.

(** A column of INTEGER affinity stores a double as an integer when nothing is
    lost. *)
Definition integer_affinity (x : f64) : SqlInt :=
  match f64_integer x with
  | Some n => if (- 2 ^ 63 <? n) && (n <? I64_MAX) then SInt n else SReal x
  | None => SReal x
  end.

Definition sql_real (v : SqlInt) : f64 := match v with SInt n => f64_of_Z n | SReal x => x end.

(** [column + ?]: overflow continues in doubles. *)
Definition sql_add (v : SqlInt) (n : Z) : SqlInt :=
  match v with
  | SInt m => if is_i64 (m + n) then SInt (m + n) else integer_affinity (f64_add (f64_of_Z m) (f64_of_Z n))
  | SReal x => integer_affinity (f64_add x (f64_of_Z n))
  end.

(** A double that is not a number is bound as NULL. *)
Definition sql_bind_real (x : f64) : option f64 := if f64_is_nan x then None else Some x.

Inductive SqlError : Type :=
  | NoSuchTable (name : string)
  | ForeignKeyFailed
  | NotNullFailed (column : string)
  | IntegerOverflow
  | InvalidColumnType (index : Z) (column : string)
  | SqlFault (message : string).

(** [row.get::<_, i64>]. *)
Definition get_i64 (index : Z) (column : string) (v : SqlInt) : result Z SqlError :=
  match v with SInt n => Ok n | SReal _ => Err (InvalidColumnType index column) end.

(** [rows.collect()]: the first row that cannot be read ends it. *)
Fixpoint collect {A B} (f : A -> result B SqlError) (l : list A) : result (list B) SqlError :=
  match l with
  | [] => Ok []
  | a :: l' => let? b := f a in let? bs := collect f l' in Ok (b :: bs)
  end.

(** ** The schema *)

Record SessionRow := {
  sn_id : string; sn_goal : string; sn_started_at : string;
  sn_finished_at : option string; sn_success : option Z; sn_summary : option string;
}.

Record TaskRow := {
  tk_id : string; tk_session_id : string; tk_parent_id : option string; tk_description : string;
  tk_task_type : string; tk_status : string; tk_risk : string; tk_created_at : string;
}.

Record AttemptRow := {
  at_id : string; at_task_id : string; at_session_id : string; at_agent_id : string;
  at_model_id : option string; at_started_at : string; at_latency_ms : Z; at_input_tokens : Z;
  at_output_tokens : Z; at_cached_tokens : Z; at_tokens_reported : Z; at_cost_usd : option f64;
  at_success : Z; at_failure_class : option string; at_retry_count : Z;
}.

Record DecisionRow := {
  dn_id : Z; dn_session_id : string; dn_task_id : string; dn_agent_id : string;
  dn_model_id : option string; dn_score : f64; dn_explanation : string; dn_decided_at : string;
}.

Record HistoryRow := {
  hs_agent_id : string; hs_model_id : string; hs_task_type : string; hs_attempts : SqlInt;
  hs_successes : SqlInt; hs_total_latency_ms : SqlInt; hs_total_tokens : SqlInt; hs_updated_at : string;
}.

Record HealthRow := {
  hl_agent_id : string; hl_state : string; hl_consecutive_failures : SqlInt;
  hl_last_success : option string; hl_last_error : option string; hl_updated_at : string;
}.

Record A2aRow := {
  aa_id : string; aa_context_id : string; aa_state : string; aa_created_seq : Z;
  aa_updated_at : string; aa_body : string;
}.

(** The tables of the first schema. *)
Record Core := {
  co_sessions : list SessionRow;
  co_tasks : list TaskRow;
  co_attempts : list AttemptRow;
  co_decisions : list DecisionRow;
  co_history : list HistoryRow;
  co_health : list HealthRow;
}.

Definition core_empty : Core :=
  {| co_sessions := []; co_tasks := []; co_attempts := []; co_decisions := []; co_history := []; co_health := [] |}.

(** A database: the tables are there once their migration has run. *)
Record Database := {
  db_user_version : Z;
  db_core : option Core;
  db_a2a : option (list A2aRow);
}.

Definition database_new : Database := {| db_user_version := 0; db_core := None; db_a2a := None |}.

(** ** Statements *)

(** A connection: the database, and what its next statements run into. *)
Record Connection := {
  cn_db : Database;
  cn_faults : list (option SqlError);
}.

Definition Sql (A : Type) : Type := Connection -> Connection * result A SqlError.

Definition statement {A} (f : Database -> result (Database * A) SqlError) : Sql A := fun c =>
  match cn_faults c with
  | Some e :: faults => ({| cn_db := cn_db c; cn_faults := faults |}, Err e)
  | faults =>
      match f (cn_db c) with
      | Ok (db, a) => ({| cn_db := db; cn_faults := tail faults |}, Ok a)
      | Err e => ({| cn_db := cn_db c; cn_faults := tail faults |}, Err e)
      end
  end.

Definition sql_bind {A B} (m : Sql A) (k : A -> Sql B) : Sql B := fun c =>
  match m c with
  | (c, Ok a) => k a c
  | (c, Err e) => (c, Err e)
  end.

Definition sql_ret {A} (a : A) : Sql A := fun c => (c, Ok a).

Notation "'let$' x := m 'in' k" := (sql_bind m (fun x => k))
  (at level 10, x pattern, m at level 100, k at level 200) : cuma_scope.

Definition with_core (core : Core) (db : Database) : Database :=
  {| db_user_version := db_user_version db; db_core := Some core; db_a2a := db_a2a db |}.

Definition with_a2a (rows : list A2aRow) (db : Database) : Database :=
  {| db_user_version := db_user_version db; db_core := db_core db; db_a2a := Some rows |}.

(** A statement on the table [name] of the first schema, and on [a2a_tasks]. *)
Definition on_core {A} (name : string) (f : Core -> result (Core * A) SqlError) : Sql A :=
  statement (fun db =>
    match db_core db with
    | None => Err (NoSuchTable name)
    | Some core => let? (core, a) := f core in Ok (with_core core db, a)
    end).

Definition on_a2a {A} (f : list A2aRow -> result (list A2aRow * A) SqlError) : Sql A :=
  statement (fun db =>
    match db_a2a db with
    | None => Err (NoSuchTable "a2a_tasks")
    | Some rows => let? (rows, a) := f rows in Ok (with_a2a rows db, a)
    end).

(** A statement that changes no table: a pragma, [BEGIN], [COMMIT]. *)
Definition no_change : Sql unit := statement (fun db => Ok (db, tt)).

(** A transaction: an error anywhere, the beginning's and the commit's included,
    drops it, and what its statements did is undone. *)
Definition transaction (body : Sql unit) : Sql unit := fun c =>
  match (let$ _ := no_change in let$ _ := body in no_change) c with
  | (c', Ok a) => (c', Ok a)
  | (c', Err e) => ({| cn_db := cn_db c; cn_faults := cn_faults c' |}, Err e)
  end.

(** [INSERT .. ON CONFLICT(key) DO UPDATE]: the row of the key is changed where
    it stands, or the new one appended. *)
Fixpoint upsert {R} (same : R -> bool) (new : R) (update : R -> R) (rows : list R) : list R :=
  match rows with
  | [] => [new]
  | r :: rows' => if same r then update r :: rows' else r :: upsert same new update rows'
  end.

(** [INSERT OR REPLACE]: the row of the key is deleted and the new one appended. *)
Definition replace_row {R} (same : R -> bool) (new : R) (rows : list R) : list R :=
  (List.filter (fun r => negb (same r)) rows ++ [new])%list.

(** [UPDATE .. WHERE]. *)
Definition update_where {R} (same : R -> bool) (update : R -> R) (rows : list R) : list R :=
  map (fun r => if same r then update r else r) rows.

(** ** Migrations (schema.rs) *)

Definition SCHEMA_VERSION : Z := 2.

(** [CREATE TABLE IF NOT EXISTS] in a transaction of its own. *)
Definition migrate_to_v1 : Sql unit :=
  statement (fun db => Ok (with_core (match db_core db with Some core => core | None => core_empty end) db, tt)).

Definition migrate_to_v2 : Sql unit :=
  statement (fun db => Ok (with_a2a (match db_a2a db with Some rows => rows | None => [] end) db, tt)).

Definition set_user_version (version : Z) : Sql unit :=
  statement (fun db => Ok ({| db_user_version := version; db_core := db_core db; db_a2a := db_a2a db |}, tt)).

(** [pragma_query_value(..).unwrap_or(0)]. *)
Definition user_version : Sql Z := fun c =>
  match statement (fun db => Ok (db, db_user_version db)) c with
  | (c, Ok v) => (c, Ok v)
  | (c, Err _) => (c, Ok 0)
  end.

Definition sql_when (b : bool) (m : Sql unit) : Sql unit := if b then m else sql_ret tt.

Definition migrate : Sql unit :=
  let$ _ := no_change in
  let$ _ := no_change in
  let$ _ := no_change in
  let$ current := user_version in
  if SCHEMA_VERSION <=? current then sql_ret tt
  else
    let$ _ := sql_when (current <? 1) migrate_to_v1 in
    let$ _ := sql_when (current <? 2) migrate_to_v2 in
    set_user_version SCHEMA_VERSION.

(** ** The rows written *)

Definition status_debug (s : TaskStatus) : string :=
  match s with
  | Pending => "Pending" | Ready => "Ready" | Running => "Running" | Completed => "Completed"
  | Failed => "Failed" | Skipped => "Skipped" | TCancelled => "Cancelled"
  end.

Definition risk_debug (r : Risk) : string :=
  match r with ReadOnly => "ReadOnly" | Low => "Low" | Medium => "Medium" | High => "High" end.

Definition of_bool (b : bool) : Z := if b then 1 else 0.

Definition attempt_row (rfc3339 : Z -> string) (r : UsageRecord) : AttemptRow :=
  {| at_id := u_attempt_id r; at_task_id := u_task_id r; at_session_id := u_session_id r;
     at_agent_id := u_agent_id r; at_model_id := u_model_id r; at_started_at := rfc3339 (u_started_at r);
     at_latency_ms := as_i64 (u_latency_ms r); at_input_tokens := as_i64 (tu_input (u_tokens r));
     at_output_tokens := as_i64 (tu_output (u_tokens r)); at_cached_tokens := as_i64 (tu_cached (u_tokens r));
     at_tokens_reported := of_bool (tu_reported (u_tokens r));
     at_cost_usd := (match u_estimated_cost_usd r with Some cost => sql_bind_real cost | None => None end);
     at_success := of_bool (u_success r); at_failure_class := class_debug <$> u_failure_class r;
     at_retry_count := u_retry_count r |}.

(** The task's own columns, as [save_task] rewrites them. *)
Definition task_columns (task : Task) (row : TaskRow) : TaskRow :=
  {| tk_id := tk_id row; tk_session_id := tk_session_id row; tk_parent_id := t_parent_id task;
     tk_description := sp_description (t_spec task); tk_task_type := task_type_debug (sp_task_type (t_spec task));
     tk_status := status_debug (t_status task); tk_risk := risk_debug (sp_risk (t_spec task));
     tk_created_at := tk_created_at row |}.

(** The row a task has before its own was written: [record_attempt]'s. *)
Definition task_stub (id session : string) (ty : TaskType) (now : string) : TaskRow :=
  {| tk_id := id; tk_session_id := session; tk_parent_id := None; tk_description := "";
     tk_task_type := task_type_debug ty; tk_status := "Running"; tk_risk := ""; tk_created_at := now |}.

Definition has_session (id : string) (core : Core) : bool :=
  existsb (fun s => bool_decide (sn_id s = id)) (co_sessions core).
Definition has_task (id : string) (core : Core) : bool :=
  existsb (fun t => bool_decide (tk_id t = id)) (co_tasks core).

Definition put_sessions (v : list SessionRow) (c : Core) : Core :=
  {| co_sessions := v; co_tasks := co_tasks c; co_attempts := co_attempts c;
     co_decisions := co_decisions c; co_history := co_history c; co_health := co_health c |}.
Definition put_tasks (v : list TaskRow) (c : Core) : Core :=
  {| co_sessions := co_sessions c; co_tasks := v; co_attempts := co_attempts c;
     co_decisions := co_decisions c; co_history := co_history c; co_health := co_health c |}.
Definition put_attempts (v : list AttemptRow) (c : Core) : Core :=
  {| co_sessions := co_sessions c; co_tasks := co_tasks c; co_attempts := v;
     co_decisions := co_decisions c; co_history := co_history c; co_health := co_health c |}.
Definition put_decisions (v : list DecisionRow) (c : Core) : Core :=
  {| co_sessions := co_sessions c; co_tasks := co_tasks c; co_attempts := co_attempts c;
     co_decisions := v; co_history := co_history c; co_health := co_health c |}.
Definition put_bucket (v : list HistoryRow) (c : Core) : Core :=
  {| co_sessions := co_sessions c; co_tasks := co_tasks c; co_attempts := co_attempts c;
     co_decisions := co_decisions c; co_history := v; co_health := co_health c |}.
Definition put_health (v : list HealthRow) (c : Core) : Core :=
  {| co_sessions := co_sessions c; co_tasks := co_tasks c; co_attempts := co_attempts c;
     co_decisions := co_decisions c; co_history := co_history c; co_health := v |}.

(** [sqlite_sequence]'s next number: no statement deletes a decision. *)
Definition next_decision (rows : list DecisionRow) : Z := 1 + fold_right (fun r n => Z.max (dn_id r) n) 0 rows.

(** [COALESCE(MAX(created_seq), 0) + 1]. *)
Definition next_seq (rows : list A2aRow) : Z :=
  match rows with
  | [] => 1
  | r :: rows' => 1 + fold_right (fun r n => Z.max (aa_created_seq r) n) (aa_created_seq r) rows'
  end.

(** ** The store (store.rs) *)

Record RuntimeStore := {
  rs_connection : Connection;
  rs_poisoned : bool;
}.

Record AgentHealthRecord := {
  ah_agent_id : string;
  ah_state : string;
  ah_consecutive_failures : Z;
  ah_last_success : option string;
  ah_last_error : option string;
  ah_updated_at : string;
}.

(** [parse_task_type]. *)
Definition parse_task_type (raw : string) : option TaskType :=
  if bool_decide (raw = "Inspection") then Some Inspection
  else if bool_decide (raw = "Research") then Some TResearch
  else if bool_decide (raw = "Design") then Some Design
  else if bool_decide (raw = "Implementation") then Some Implementation
  else if bool_decide (raw = "BugFix") then Some BugFix
  else if bool_decide (raw = "Refactor") then Some Refactor
  else if bool_decide (raw = "Testing") then Some TTesting
  else if bool_decide (raw = "Validation") then Some Validation
  else if bool_decide (raw = "Documentation") then Some TDocumentation
  else if bool_decide (raw = "Review") then Some Review
  else if bool_decide (raw = "General") then Some General
  else None.

(** The key of a model in [routing_history]. *)
Definition model_key (model : option ModelId) : string := match model with Some m => m | None => "*" end.

(** A row of [routing_history], as read: agent, model, type, attempts,
    successes, latency and tokens. *)
Definition BucketRow : Type := string * string * string * Z * Z * Z * Z.

Definition read_bucket (r : HistoryRow) : result BucketRow SqlError :=
  let? attempts := get_i64 3 "attempts" (hs_attempts r) in
  let? successes := get_i64 4 "successes" (hs_successes r) in
  let? latency := get_i64 5 "total_latency_ms" (hs_total_latency_ms r) in
  let? tokens := get_i64 6 "total_tokens" (hs_total_tokens r) in
  Ok (hs_agent_id r, hs_model_id r, hs_task_type r, wrap32 attempts, wrap32 successes,
      as_u64 latency, as_u64 tokens).

Definition bucket_stats (attempts successes total_latency total_tokens : Z) : AdaptiveStats :=
  {| as_attempts := attempts; as_successes := successes;
     as_mean_latency_ms := if attempts =? 0 then 0 else total_latency / attempts;
     as_mean_tokens := if successes =? 0 then 0 else total_tokens / successes |}.

(** [load_routing_history], from the rows read. *)
Definition restore_bucket (h : RoutingHistory) (row : BucketRow) : RoutingHistory :=
  let '(agent, model, ty, attempts, successes, latency, tokens) := row in
  match parse_task_type ty with
  | None => h
  | Some ty =>
      history_restore agent (if bool_decide (model = "*") then None else Some model) ty
        (bucket_stats attempts successes latency tokens) h
  end.

(** The rows of [a2a_tasks] by [created_seq]. *)
Fixpoint insert_by_seq (r : A2aRow) (rows : list A2aRow) : list A2aRow :=
  match rows with
  | [] => [r]
  | r' :: rows' => if aa_created_seq r <=? aa_created_seq r' then r :: rows else r' :: insert_by_seq r rows'
  end.

Definition by_seq (rows : list A2aRow) : list A2aRow := fold_right insert_by_seq [] rows.

(** [ORDER BY created_seq DESC LIMIT n], put back in ascending order. *)
Definition newest (limit : Z) (rows : list A2aRow) : list A2aRow :=
  drop (length rows - Z.to_nat (Z.min limit (Z.of_nat (length rows)))) (by_seq rows).

Fixpoint insert_health (r : HealthRow) (rows : list HealthRow) : list HealthRow :=
  match rows with
  | [] => [r]
  | r' :: rows' =>
      match key_cmp (hl_agent_id r) (hl_agent_id r') with
      | Gt => r' :: insert_health r rows'
      | _ => r :: rows
      end
  end.

Definition by_agent_id (rows : list HealthRow) : list HealthRow := fold_right insert_health [] rows.

Definition read_health (r : HealthRow) : result AgentHealthRecord SqlError :=
  let? failures := get_i64 2 "consecutive_failures" (hl_consecutive_failures r) in
  Ok {| ah_agent_id := hl_agent_id r; ah_state := hl_state r; ah_consecutive_failures := Z.max failures 0;
        ah_last_success := hl_last_success r; ah_last_error := hl_last_error r;
        ah_updated_at := hl_updated_at r |}.

(** [SUM] of a column of integers: an error once a partial sum overflows. *)
Definition sql_sum (l : list Z) : result Z SqlError :=
  fold_left (fun acc n => let? sum := acc in if is_i64 (sum + n) then Ok (sum + n) else Err IntegerOverflow) l (Ok 0).

(** The rows of [attempts] by label, in the order of the labels. *)
Definition grouped (label : AttemptRow -> string) (rows : list AttemptRow) : btree string (list AttemptRow) :=
  fold_left (fun m r => bt_upsert [] (fun l => l ++ [r])%list (label r) m) rows [].

Definition model_label (r : AttemptRow) : string :=
  at_agent_id r +:+ "/" +:+ match at_model_id r with Some m => m | None => "*" end.

Section Store.
Context (show : SqlError -> string) (rfc3339 : Z -> string) (real_sum : list f64 -> f64).

(** [open]: the directory and the file are the caller's to fail; [disk] is the
    file as it is found, and what is returned is the file as it is left. *)
Definition open (parent : option string) (path : string) (made connected : result unit string)
    (disk : Connection) : Connection * Result RuntimeStore :=
  let made := match parent with
              | Some p => if bool_decide (p = "") then Ok tt
                          else match made with Ok _ => Ok tt | Err e => Err (EPersistence ("cannot create " +:+ p +:+ ": " +:+ e)) end
              | None => Ok tt
              end in
  match made with
  | Err e => (disk, Err e)
  | Ok _ =>
      match connected with
      | Err e => (disk, Err (EPersistence ("cannot open " +:+ path +:+ ": " +:+ e)))
      | Ok _ =>
          match migrate disk with
          | (disk, Err e) => (disk, Err (EPersistence ("schema migration failed: " +:+ show e)))
          | (disk, Ok _) => (disk, Ok {| rs_connection := disk; rs_poisoned := false |})
          end
      end
  end.

(** [in_memory]. *)
Definition in_memory (connected : result unit string) (faults : list (option SqlError)) : Result RuntimeStore :=
  match connected with
  | Err e => Err (EPersistence ("cannot open an in-memory database: " +:+ e))
  | Ok _ =>
      match migrate {| cn_db := database_new; cn_faults := faults |} with
      | (_, Err e) => Err (EPersistence ("schema migration failed: " +:+ show e))
      | (c, Ok _) => Ok {| rs_connection := c; rs_poisoned := false |}
      end
  end.

(** [with_connection]. *)
Definition with_connection {A} (operation : Sql A) (s : RuntimeStore) : RuntimeStore * Result A :=
  if rs_poisoned s then (s, Err (EPersistence "the database lock is poisoned"))
  else
    let '(c, r) := operation (rs_connection s) in
    ({| rs_connection := c; rs_poisoned := false |},
     match r with Ok a => Ok a | Err e => Err (EPersistence (show e)) end).

Definition begin_session (now : string) (session : SessionId) (goal : string) : RuntimeStore -> RuntimeStore * Result unit :=
  with_connection (on_core "sessions" (fun core =>
    Ok (put_sessions
          (upsert (fun s => bool_decide (sn_id s = session))
             {| sn_id := session; sn_goal := goal; sn_started_at := now; sn_finished_at := None;
                sn_success := None; sn_summary := None |}
             (fun s => {| sn_id := sn_id s; sn_goal := goal; sn_started_at := sn_started_at s;
                          sn_finished_at := sn_finished_at s; sn_success := sn_success s; sn_summary := sn_summary s |})
             (co_sessions core)) core, tt))).

Definition finish_session (now : string) (session : SessionId) (success : bool) (summary : string)
  : RuntimeStore -> RuntimeStore * Result unit :=
  with_connection (on_core "sessions" (fun core =>
    Ok (put_sessions
          (update_where (fun s => bool_decide (sn_id s = session))
             (fun s => {| sn_id := sn_id s; sn_goal := sn_goal s; sn_started_at := sn_started_at s;
                          sn_finished_at := Some now; sn_success := Some (of_bool success); sn_summary := Some summary |})
             (co_sessions core)) core, tt))).

Definition save_task (now : string) (session : SessionId) (task : Task) : RuntimeStore -> RuntimeStore * Result unit :=
  with_connection (on_core "tasks" (fun core =>
    if has_task (t_id task) core || has_session session core then
      Ok (put_tasks
            (upsert (fun t => bool_decide (tk_id t = t_id task))
               (task_columns task (task_stub (t_id task) session (sp_task_type (t_spec task)) now))
               (task_columns task) (co_tasks core)) core, tt)
    else Err ForeignKeyFailed)).

(** The statements of [record_attempt]. *)
Definition ensure_task (now : string) (r : UsageRecord) : Sql unit :=
  on_core "tasks" (fun core =>
    if has_task (u_task_id r) core then Ok (core, tt)
    else if has_session (u_session_id r) core then
      Ok (put_tasks (co_tasks core ++ [task_stub (u_task_id r) (u_session_id r) (u_task_type r) now])%list core, tt)
    else Err ForeignKeyFailed).

Definition insert_attempt (r : UsageRecord) : Sql unit :=
  on_core "attempts" (fun core =>
    if has_task (u_task_id r) core then
      Ok (put_attempts (replace_row (fun a => bool_decide (at_id a = u_attempt_id r)) (attempt_row rfc3339 r)
                          (co_attempts core)) core, tt)
    else Err ForeignKeyFailed).

Definition same_bucket (r : UsageRecord) (h : HistoryRow) : bool :=
  bool_decide (hs_agent_id h = u_agent_id r /\ hs_model_id h = model_key (u_model_id r) /\
               hs_task_type h = task_type_debug (u_task_type r)).

Definition bucket_new (now : string) (r : UsageRecord) : HistoryRow :=
  {| hs_agent_id := u_agent_id r; hs_model_id := model_key (u_model_id r);
     hs_task_type := task_type_debug (u_task_type r); hs_attempts := SInt 1;
     hs_successes := SInt (of_bool (u_success r)); hs_total_latency_ms := SInt (as_i64 (u_latency_ms r));
     hs_total_tokens := SInt (as_i64 (tokens_total (u_tokens r))); hs_updated_at := now |}.

Definition bucket_add (now : string) (r : UsageRecord) (h : HistoryRow) : HistoryRow :=
  {| hs_agent_id := hs_agent_id h; hs_model_id := hs_model_id h; hs_task_type := hs_task_type h;
     hs_attempts := sql_add (hs_attempts h) 1;
     hs_successes := sql_add (hs_successes h) (of_bool (u_success r));
     hs_total_latency_ms := sql_add (hs_total_latency_ms h) (as_i64 (u_latency_ms r));
     hs_total_tokens := sql_add (hs_total_tokens h) (as_i64 (tokens_total (u_tokens r))); hs_updated_at := now |}.

Definition fold_history (now : string) (r : UsageRecord) : Sql unit :=
  on_core "routing_history" (fun core =>
    Ok (put_bucket (upsert (same_bucket r) (bucket_new now r) (bucket_add now r) (co_history core)) core, tt)).

Definition attempt_statements (created updated : string) (r : UsageRecord) : Sql unit :=
  let$ _ := ensure_task created r in
  let$ _ := insert_attempt r in
  fold_history updated r.

(** [record_attempt]: its two readings of the clock are [created] and [updated]. *)
Definition record_attempt (created updated : string) (r : UsageRecord) : RuntimeStore -> RuntimeStore * Result unit :=
  with_connection (transaction (attempt_statements created updated r)).

Definition record_routing_decision (now : string) (session : SessionId) (task : TaskId) (agent : AgentId)
    (model : option ModelId) (score : f64) (explanation : string) : RuntimeStore -> RuntimeStore * Result unit :=
  with_connection (on_core "routing_decisions" (fun core =>
    match sql_bind_real score with
    | None => Err (NotNullFailed "routing_decisions.score")
    | Some score =>
        Ok (put_decisions
              (co_decisions core ++
                 [{| dn_id := next_decision (co_decisions core); dn_session_id := session; dn_task_id := task;
                     dn_agent_id := agent; dn_model_id := model; dn_score := score;
                     dn_explanation := explanation; dn_decided_at := now |}])%list core, tt)
    end)).

Definition record_agent_health (now : string) (agent : AgentId) (state : string) (error : option string)
  : RuntimeStore -> RuntimeStore * Result unit :=
  let healthy := match error with None => true | Some _ => false end in
  with_connection (on_core "agent_health" (fun core =>
    Ok (put_health
          (upsert (fun h => bool_decide (hl_agent_id h = agent))
             {| hl_agent_id := agent; hl_state := state; hl_consecutive_failures := SInt (of_bool (negb healthy));
                hl_last_success := if healthy then Some now else None; hl_last_error := error; hl_updated_at := now |}
             (fun h => {| hl_agent_id := hl_agent_id h; hl_state := state;
                          hl_consecutive_failures := if healthy then SInt 0 else sql_add (hl_consecutive_failures h) 1;
                          hl_last_success := if healthy then Some now else hl_last_success h;
                          hl_last_error := if healthy then hl_last_error h else error; hl_updated_at := now |})
             (co_health core)) core, tt))).

Definition save_a2a_task (now id context_id state body : string) : RuntimeStore -> RuntimeStore * Result unit :=
  with_connection (on_a2a (fun rows =>
    Ok (upsert (fun r => bool_decide (aa_id r = id))
          {| aa_id := id; aa_context_id := context_id; aa_state := state; aa_created_seq := next_seq rows;
             aa_updated_at := now; aa_body := body |}
          (fun r => {| aa_id := aa_id r; aa_context_id := context_id; aa_state := state;
                       aa_created_seq := aa_created_seq r; aa_updated_at := now; aa_body := body |}) rows, tt))).

Definition load_a2a_tasks (limit : Z) : RuntimeStore -> RuntimeStore * Result (list string) :=
  let limit := if limit <=? I64_MAX then limit else I64_MAX in
  with_connection (on_a2a (fun rows => Ok (rows, map aa_body (newest limit rows)))).

Definition delete_a2a_task (id : string) : RuntimeStore -> RuntimeStore * Result unit :=
  with_connection (on_a2a (fun rows => Ok (List.filter (fun r => negb (bool_decide (aa_id r = id))) rows, tt))).

Definition agent_health : RuntimeStore -> RuntimeStore * Result (list AgentHealthRecord) :=
  with_connection (on_core "agent_health" (fun core =>
    let? l := collect read_health (by_agent_id (co_health core)) in Ok (core, l))).

Definition routing_decision_count : RuntimeStore -> RuntimeStore * Result Z :=
  with_connection (on_core "routing_decisions" (fun core => Ok (core, Z.of_nat (length (co_decisions core))))).

(** The row with the largest id of a task's. *)
Definition latest_decision (task : TaskId) (rows : list DecisionRow) : option DecisionRow :=
  fold_left (fun best r =>
    if bool_decide (dn_task_id r = task) then
      match best with
      | Some b => if dn_id b <=? dn_id r then Some r else best
      | None => Some r
      end
    else best) rows None.

Definition routing_explanation (task : TaskId) : RuntimeStore -> RuntimeStore * Result (option string) :=
  with_connection (on_core "routing_decisions" (fun core =>
    Ok (core, dn_explanation <$> latest_decision task (co_decisions core)))).

Definition load_routing_history (s : RuntimeStore) : RuntimeStore * Result RoutingHistory :=
  let '(s, rows) := with_connection (on_core "routing_history" (fun core =>
    let? l := collect read_bucket (co_history core) in Ok (core, l))) s in
  (s, let? rows := rows in Ok (fold_left restore_bucket rows [])).

(** A group's row of totals. *)
Definition group_totals (rows : list AttemptRow) : result UsageTotals SqlError :=
  let? successes := sql_sum (map at_success rows) in
  let? input := sql_sum (map at_input_tokens rows) in
  let? output := sql_sum (map at_output_tokens rows) in
  let? cached := sql_sum (map at_cached_tokens rows) in
  let? latency := sql_sum (map at_latency_ms rows) in
  let? retries := sql_sum (map at_retry_count rows) in
  let cost := real_sum (map (fun r => match at_cost_usd r with Some c => c | None => f64_zero end) rows) in
  if f64_is_nan cost then Err (InvalidColumnType 6 "SUM(COALESCE(cost_usd, 0.0))")
  else
    Ok {| ut_attempts := wrap32 (Z.of_nat (length rows)); ut_successes := wrap32 successes;
          ut_input_tokens := as_u64 input; ut_output_tokens := as_u64 output; ut_cached_tokens := as_u64 cached;
          ut_estimated_cost_usd := cost;
          ut_attempts_without_pricing := wrap32 (Z.of_nat (length (List.filter (fun r =>
            match at_cost_usd r with None => true | Some _ => false end) rows)));
          ut_attempts_with_estimated_tokens := wrap32 (Z.of_nat (length (List.filter (fun r =>
            at_tokens_reported r =? 0) rows)));
          ut_total_latency_ms := as_u64 latency; ut_retries := wrap32 retries |}.

Definition usage_grouped_by (label : AttemptRow -> string)
  : RuntimeStore -> RuntimeStore * Result (list (string * UsageTotals)) :=
  with_connection (on_core "attempts" (fun core =>
    let? l := collect (fun g => let? t := group_totals g.2 in Ok (g.1, t)) (grouped label (co_attempts core)) in
    Ok (core, l))).

Definition usage_by_agent : RuntimeStore -> RuntimeStore * Result (list (string * UsageTotals)) :=
  usage_grouped_by at_agent_id.

Definition usage_by_model : RuntimeStore -> RuntimeStore * Result (list (string * UsageTotals)) :=
  usage_grouped_by model_label.

Definition attempt_count : RuntimeStore -> RuntimeStore * Result Z :=
  with_connection (on_core "attempts" (fun core => Ok (core, as_u64 (Z.of_nat (length (co_attempts core)))))).

Definition total_spend_usd : RuntimeStore -> RuntimeStore * Result f64 :=
  with_connection (on_core "attempts" (fun core =>
    let spend := match omap at_cost_usd (co_attempts core) with
                 | [] => f64_zero
                 | costs => real_sum costs
                 end in
    Ok (core, if f64_is_nan spend then f64_zero else spend))).

Definition session_count : RuntimeStore -> RuntimeStore * Result Z :=
  with_connection (on_core "sessions" (fun core => Ok (core, as_u64 (Z.of_nat (length (co_sessions core)))))).

(** ** The recorder ([cuma-cli/src/recorder.rs])

    Every failed write is logged and dropped.  [clock n] is the reading of the
    clock at the [n]th write of one call. *)

Definition logged (r : RuntimeStore * Result unit) : RuntimeStore := r.1.

Definition session_finished (clock : nat -> string) (result : SessionResult) (s : RuntimeStore) : RuntimeStore :=
  let '(s, n) := fold_left (fun '(s, n) task => (logged (save_task (clock n) (sr_session_id result) task s), S n))
                   (graph_iter (sr_graph result)) (s, 0%nat) in
  logged (finish_session (clock n) (sr_session_id result) (sr_success result) (sr_summary result) s).

Definition store_recorder (clock : nat -> string) (session : SessionId) (heard : Recorded) (s : RuntimeStore)
  : RuntimeStore :=
  match heard with
  | RecSessionStarted goal => logged (begin_session (clock 0%nat) session goal s)
  | RecRoutingDecided task d =>
      logged (record_routing_decision (clock 0%nat) session task (c_agent_id (selected d)) (c_model_id (selected d))
                (sb_total (c_breakdown (selected d))) (explain d) s)
  | RecAttempt r => logged (record_attempt (clock 0%nat) (clock 1%nat) r s)
  | RecHealthChanged agent h error => logged (record_agent_health (clock 0%nat) agent (health_debug h) error s)
  | RecSessionFinished result => session_finished clock result s
  end.

End Store.
