(* ===== verification/StoreFacts.v ===== *)
(** * What the runtime store keeps

    The integrity of the database under every sequence of writes and failures,
    the agreement of its attempts with its aggregated history, migrations, and
    the store as the memory of the A2A server. *)

From S2P Require Export Store.
Open Scope string_scope.
Open Scope Z_scope.

(** ** Statements *)

(** An operation that, when it fails, has changed nothing. *)
Definition atomic {A} (m : Sql A) (R : Database -> A -> Database -> Prop) : Prop := forall c,
  match m c with
  | (c', Ok a) => R (cn_db c) a (cn_db c')
  | (c', Err _) => cn_db c' = cn_db c
  end.

Definition ensures {A} (m : Sql A) (R : Database -> A -> Database -> Prop) : Prop := forall c c' a,
  m c = (c', Ok a) -> R (cn_db c) a (cn_db c').

Lemma atomic_statement {A} (f : Database -> result (Database * A) SqlError) :
  atomic (statement f) (fun db a db' => f db = Ok (db', a)).
Proof.
  intros c. unfold statement. destruct (cn_faults c) as [|[e|] faults]; [|done|];
    destruct (f (cn_db c)) as [[db a]|e]; done.
Qed.

Lemma atomic_ensures {A} (m : Sql A) R : atomic m R -> ensures m R.
Proof. intros H c c' a E. specialize (H c). by rewrite E in H. Qed.

Lemma atomic_weaken {A} (m : Sql A) (R R' : Database -> A -> Database -> Prop) :
  atomic m R -> (forall db a db', R db a db' -> R' db a db') -> atomic m R'.
Proof. intros H I c. specialize (H c). destruct (m c) as [c' [a|e]]; auto. Qed.

Lemma ensures_bind {A B} (m : Sql A) (k : A -> Sql B) R R' :
  ensures m R -> (forall a, ensures (k a) (R' a)) ->
  ensures (sql_bind m k) (fun db b db' => exists a mid, R db a mid /\ R' a mid b db').
Proof.
  intros Hm Hk c c' b. unfold sql_bind. destruct (m c) as [c1 [a|e]] eqn:E; [|done]. intros E'.
  exists a, (cn_db c1). split; [by eapply Hm|by eapply Hk].
Qed.

Lemma ensures_no_change : ensures no_change (fun db _ db' => db' = db).
Proof.
  apply atomic_ensures, (atomic_weaken _ _ _ (atomic_statement _)). by intros db [] db' [= ->].
Qed.

Lemma atomic_transaction (body : Sql unit) R : ensures body R -> atomic (transaction body) R.
Proof.
  intros H c. unfold transaction.
  assert (ensures (let$ _ := no_change in let$ _ := body in no_change) R) as Hb.
  { intros c0 c' [] E.
    destruct (ensures_bind no_change (fun _ => let$ _ := body in no_change) _ _ ensures_no_change
      (fun _ => ensures_bind body (fun _ => no_change) _ _ H (fun _ => ensures_no_change)) c0 c' tt E)
      as (x&mid0&E0&y&mid&HR&E1). subst. by destruct y. }
  destruct ((let$ _ := no_change in let$ _ := body in no_change) c) as [c' [a|e]] eqn:E; [by eapply Hb|done].
Qed.

(** Statements on the tables of the first schema. *)
Lemma atomic_on_core {A} name (f : Core -> result (Core * A) SqlError) :
  atomic (on_core name f) (fun db a db' =>
    exists core core', db_core db = Some core /\ f core = Ok (core', a) /\ db' = with_core core' db).
Proof.
  apply (atomic_weaken _ _ _ (atomic_statement _)). intros db a db'. destruct (db_core db) as [core|]; [|done].
  destruct (f core) as [[core' a']|e] eqn:E; [|done]. cbn. intros [= <- <-]. by exists core, core'.
Qed.

Lemma atomic_on_a2a {A} (f : list A2aRow -> result (list A2aRow * A) SqlError) :
  atomic (on_a2a f) (fun db a db' =>
    exists rows rows', db_a2a db = Some rows /\ f rows = Ok (rows', a) /\ db' = with_a2a rows' db).
Proof.
  apply (atomic_weaken _ _ _ (atomic_statement _)). intros db a db'. destruct (db_a2a db) as [rows|]; [|done].
  destruct (f rows) as [[rows' a']|e] eqn:E; [|done]. cbn. intros [= <- <-]. by exists rows, rows'.
Qed.

(** ** Rows *)

Section Rows.
Context {R K : Type} `{EqDecision K} (key : R -> K).

Lemma upsert_keys k new update rows :
  key new = k -> (forall r, key (update r) = key r) -> NoDup (map key rows) ->
  let rows' := upsert (fun r => bool_decide (key r = k)) new update rows in
  map key rows' = (map key rows ++ (if bool_decide (k ∈ map key rows) then [] else [k]))%list.
Proof.
  intros Hn Hu. induction rows as [|r rows IH]; intros Hd rows'; unfold rows'; clear rows'; cbn [upsert map].
  - rewrite bool_decide_eq_false_2 by apply not_elem_of_nil. cbn [app]. by f_equal.
  - apply list.NoDup_cons in Hd as [Hr Hd]. destruct (decide (key r = k)) as [Ek|Ek].
    + rewrite (bool_decide_eq_true_2 (key r = k)) by done.
      rewrite bool_decide_eq_true_2 by (rewrite <- Ek; left). cbn [map]. by rewrite Hu, app_nil_r.
    + rewrite (bool_decide_eq_false_2 (key r = k)) by done. cbn [map]. rewrite IH by done. cbn [app].
      f_equal. f_equal. rewrite (bool_decide_ext (k ∈ key r :: map key rows) (k ∈ map key rows)); [done|].
      rewrite elem_of_cons. naive_solver.
Qed.

Lemma upsert_NoDup k new update rows :
  key new = k -> (forall r, key (update r) = key r) -> NoDup (map key rows) ->
  NoDup (map key (upsert (fun r => bool_decide (key r = k)) new update rows)).
Proof.
  intros Hn Hu Hd. rewrite upsert_keys by done. case_bool_decide as Hk; [by rewrite app_nil_r|].
  apply list.NoDup_app. split; [done|]. split; [|apply NoDup_singleton].
  by intros x Hx ->%list_elem_of_singleton.
Qed.

Lemma upsert_ext same same' new update (rows : list R) :
  (forall r, same r = same' r) -> upsert same new update rows = upsert same' new update rows.
Proof. intros E. induction rows as [|r rows IH]; cbn [upsert]; [done|]. by rewrite E, IH. Qed.

Lemma upsert_elem same new update rows (r : R) :
  r ∈ upsert same new update rows ->
  (r = new /\ forall r0, r0 ∈ rows -> same r0 = false) \/ (r ∈ rows) \/
  exists r0, r0 ∈ rows /\ same r0 = true /\ r = update r0.
Proof.
  induction rows as [|r0 rows IH]; cbn [upsert].
  - intros ->%list_elem_of_singleton. left. split; [done|]. by intros ? ?%not_elem_of_nil.
  - destruct (same r0) eqn:E.
    + intros [->|Hr]%elem_of_cons; [|right; left; by right]. right; right. exists r0. by split; [left|].
    + intros [->|Hr]%elem_of_cons; [right; left; by left|].
      destruct (IH Hr) as [[-> Hn]|[?|(r1&?&?&?)]]; [left|right; left; by right|].
      * split; [done|]. by intros r1 [->|?%Hn]%elem_of_cons.
      * right; right. exists r1. by split; [right|].
Qed.

Lemma update_where_keys same update rows :
  (forall r, key (update r) = key r) -> map key (update_where same update rows) = map key rows.
Proof.
  intros Hu. unfold update_where. rewrite map_map. apply map_ext. intros r. by destruct (same r).
Qed.
End Rows.

(** ** What a database holds

    [core_ok rfc3339 accepted core]: the tables of sessions, tasks and health
    have one row per key, every task belongs to a session and every attempt to a
    task, the attempts are those of [accepted] in that order, and every bucket
    of the history holds the sums over exactly its records. *)

Definition Sums : Type := SqlInt * SqlInt * SqlInt * SqlInt.

Definition sums_new (r : UsageRecord) : Sums :=
  (SInt 1, SInt (of_bool (u_success r)), SInt (as_i64 (u_latency_ms r)), SInt (as_i64 (tokens_total (u_tokens r)))).

Definition sums_add (s : Sums) (r : UsageRecord) : Sums :=
  let '(a, b, c, d) := s in
  (sql_add a 1, sql_add b (of_bool (u_success r)), sql_add c (as_i64 (u_latency_ms r)),
   sql_add d (as_i64 (tokens_total (u_tokens r)))).

Definition sums_snoc (s : option Sums) (r : UsageRecord) : Sums :=
  match s with None => sums_new r | Some s => sums_add s r end.

(** The sums over records, none over no record. *)
Definition sums_of (l : list UsageRecord) : option Sums := fold_left (fun s r => Some (sums_snoc s r)) l None.

Lemma sums_of_snoc l r : sums_of (l ++ [r]) = Some (sums_snoc (sums_of l) r).
Proof. unfold sums_of. by rewrite fold_left_app. Qed.

Definition BucketId : Type := string * string * string.

Definition record_bucket (r : UsageRecord) : BucketId :=
  (u_agent_id r, model_key (u_model_id r), task_type_debug (u_task_type r)).
Definition row_bucket (h : HistoryRow) : BucketId := (hs_agent_id h, hs_model_id h, hs_task_type h).
Definition row_sums (h : HistoryRow) : Sums := (hs_attempts h, hs_successes h, hs_total_latency_ms h, hs_total_tokens h).

Definition bucket_row (k : BucketId) (rows : list HistoryRow) : option HistoryRow :=
  List.find (fun h => bool_decide (row_bucket h = k)) rows.
Definition bucket_records (k : BucketId) (l : list UsageRecord) : list UsageRecord :=
  List.filter (fun r => bool_decide (record_bucket r = k)) l.

Record core_ok (rfc3339 : Z -> string) (accepted : list UsageRecord) (core : Core) : Prop := {
  ck_sessions : NoDup (map sn_id (co_sessions core));
  ck_tasks : NoDup (map tk_id (co_tasks core));
  ck_health : NoDup (map hl_agent_id (co_health core));
  ck_buckets : NoDup (map row_bucket (co_history core));
  ck_task_session : forall t, t ∈ co_tasks core -> tk_session_id t ∈ map sn_id (co_sessions core);
  ck_attempts : co_attempts core = map (attempt_row rfc3339) accepted;
  ck_attempt_ids : NoDup (map u_attempt_id accepted);
  ck_attempt_task : forall r, r ∈ accepted -> u_task_id r ∈ map tk_id (co_tasks core);
  ck_history : forall k, row_sums <$> bucket_row k (co_history core) = sums_of (bucket_records k accepted);
}.

Lemma same_bucket_row r h : same_bucket r h = bool_decide (row_bucket h = record_bucket r).
Proof.
  unfold same_bucket, row_bucket, record_bucket. apply bool_decide_ext. split; [by intros (->&->&->)|by intros [= -> -> ->]].
Qed.

Lemma has_task_elem id core : has_task id core = true <-> id ∈ map tk_id (co_tasks core).
Proof.
  unfold has_task. rewrite existsb_exists, list_elem_of_In, in_map_iff. split.
  - intros (t&Ht&E%bool_decide_eq_true). by exists t.
  - intros (t&<-&Ht). exists t. split; [done|by apply bool_decide_eq_true].
Qed.

Lemma has_session_elem id core : has_session id core = true <-> id ∈ map sn_id (co_sessions core).
Proof.
  unfold has_session. rewrite existsb_exists, list_elem_of_In, in_map_iff. split.
  - intros (t&Ht&E%bool_decide_eq_true). by exists t.
  - intros (t&<-&Ht). exists t. split; [done|by apply bool_decide_eq_true].
Qed.

Lemma core_ok_empty rfc3339 : core_ok rfc3339 [] core_empty.
Proof. split; try done; try apply NoDup_nil_2; by intros ? ?%not_elem_of_nil. Qed.

(** ** One write at a time *)

Section Writes.
Context (rfc3339 : Z -> string).
#[local] Abbreviation ok := (core_ok rfc3339).

Lemma core_begin acc core now session goal :
  ok acc core ->
  ok acc (put_sessions (upsert (fun s => bool_decide (sn_id s = session))
             {| sn_id := session; sn_goal := goal; sn_started_at := now; sn_finished_at := None;
                sn_success := None; sn_summary := None |}
             (fun s => {| sn_id := sn_id s; sn_goal := goal; sn_started_at := sn_started_at s;
                          sn_finished_at := sn_finished_at s; sn_success := sn_success s; sn_summary := sn_summary s |})
             (co_sessions core)) core).
Proof.
  intros [S T H B F A I G Y]. split; cbn [put_sessions co_sessions co_tasks co_attempts co_history co_health]; try done.
  - by apply upsert_NoDup.
  - intros t Ht. rewrite upsert_keys by done. apply elem_of_app. left. by apply F.
Qed.

Lemma core_finish acc core update session :
  (forall s, sn_id (update s) = sn_id s) -> ok acc core ->
  ok acc (put_sessions (update_where (fun s => bool_decide (sn_id s = session)) update (co_sessions core)) core).
Proof.
  intros U [S T H B F A I G Y].
  split; cbn [put_sessions co_sessions co_tasks co_attempts co_history co_health]; try done;
    by rewrite update_where_keys by done.
Qed.

Lemma core_task acc core now session task :
  has_task (t_id task) core || has_session session core = true -> ok acc core ->
  ok acc (put_tasks
            (upsert (fun t => bool_decide (tk_id t = t_id task))
               (task_columns task (task_stub (t_id task) session (sp_task_type (t_spec task)) now))
               (task_columns task) (co_tasks core)) core).
Proof.
  intros Hh [S T H B F A I G Y]. split; cbn [put_tasks co_sessions co_tasks co_attempts co_history co_health]; try done.
  - by apply upsert_NoDup.
  - intros t [[-> Hn]|[Ht|(t0&Ht&_&->)]]%upsert_elem; [|by apply F|cbn; by apply F].
    apply orb_true_iff in Hh as [Hh|Hh]; [|by apply has_session_elem].
    apply has_task_elem, list_elem_of_In, in_map_iff in Hh as (t&Et&Ht%list_elem_of_In). specialize (Hn t Ht).
    by rewrite bool_decide_eq_true_2 in Hn.
  - intros r Hr. rewrite upsert_keys by done. apply elem_of_app. left. by apply G.
Qed.

Lemma core_health acc core new update agent :
  hl_agent_id new = agent -> (forall h, hl_agent_id (update h) = hl_agent_id h) -> ok acc core ->
  ok acc (put_health (upsert (fun h => bool_decide (hl_agent_id h = agent)) new update (co_health core)) core).
Proof.
  intros N U [S T H B F A I G Y].
  split; cbn [put_health co_sessions co_tasks co_attempts co_history co_health]; try done. by apply upsert_NoDup.
Qed.

Lemma core_decision acc core rows : ok acc core -> ok acc (put_decisions rows core).
Proof. by intros [S T H B F A I G Y]. Qed.

(** Folding an attempt into the history changes its own bucket only. *)
Lemma bucket_row_upsert k now r rows :
  bucket_row k (upsert (same_bucket r) (bucket_new now r) (bucket_add now r) rows) =
  if bool_decide (k = record_bucket r) then
    Some (match bucket_row k rows with Some h => bucket_add now r h | None => bucket_new now r end)
  else bucket_row k rows.
Proof.
  unfold bucket_row. induction rows as [|h rows IH]; cbn [upsert List.find].
  - change (row_bucket (bucket_new now r)) with (record_bucket r).
    rewrite (bool_decide_ext (record_bucket r = k) (k = record_bucket r)) by done. by case_bool_decide.
  - rewrite same_bucket_row. destruct (decide (row_bucket h = record_bucket r)) as [E|E].
    + rewrite (bool_decide_eq_true_2 (row_bucket h = record_bucket r)) by done. cbn [List.find].
      change (row_bucket (bucket_add now r h)) with (row_bucket h). rewrite E.
      rewrite (bool_decide_ext (record_bucket r = k) (k = record_bucket r)) by done. by case_bool_decide.
    + rewrite (bool_decide_eq_false_2 (row_bucket h = record_bucket r)) by done. cbn [List.find].
      rewrite IH. destruct (decide (row_bucket h = k)) as [Ek|Ek].
      * rewrite !(bool_decide_eq_true_2 (row_bucket h = k)) by done.
        rewrite bool_decide_eq_false_2; [done|congruence].
      * by rewrite !(bool_decide_eq_false_2 (row_bucket h = k)) by done.
Qed.

Lemma row_sums_add now r h : row_sums (bucket_add now r h) = sums_add (row_sums h) r.
Proof. done. Qed.

Lemma bucket_records_snoc k l r :
  bucket_records k (l ++ [r]) = (bucket_records k l ++ if bool_decide (record_bucket r = k) then [r] else [])%list.
Proof. unfold bucket_records. by rewrite List.filter_app. Qed.

Lemma replace_fresh {R} (same : R -> bool) new rows :
  (forall r, r ∈ rows -> same r = false) -> replace_row same new rows = (rows ++ [new])%list.
Proof.
  intros H. unfold replace_row. f_equal. induction rows as [|r rows IH]; [done|]. cbn [List.filter].
  rewrite H by left. cbn [negb]. f_equal. apply IH. intros r' Hr'. apply H. by right.
Qed.

(** The three statements of an attempt that was not recorded before. *)
Lemma core_attempt acc core updated r tasks :
  ok acc core -> u_attempt_id r ∉ map u_attempt_id acc ->
  NoDup (map tk_id tasks) -> (forall t, t ∈ co_tasks core -> t ∈ tasks) ->
  (forall t, t ∈ tasks -> tk_session_id t ∈ map sn_id (co_sessions core)) -> u_task_id r ∈ map tk_id tasks ->
  ok (acc ++ [r])
    (put_bucket (upsert (same_bucket r) (bucket_new updated r) (bucket_add updated r) (co_history core))
       (put_attempts (replace_row (fun a => bool_decide (at_id a = u_attempt_id r)) (attempt_row rfc3339 r)
          (co_attempts core)) (put_tasks tasks core))).
Proof.
  intros [S T H B F A I G Y] Hn Dt St Ft Hr.
  split; cbn [put_bucket put_attempts put_tasks co_sessions co_tasks co_attempts co_history co_health]; try done.
  - rewrite (upsert_ext _ _ _ _ _ (same_bucket_row r)). by apply upsert_NoDup.
  - rewrite A, replace_fresh, map_app; [done|].
    intros a (r'&<-&Hr')%list_elem_of_In%in_map_iff. apply bool_decide_eq_false_2. cbn [attempt_row at_id]. intros E.
    apply Hn. rewrite <- E. by apply list_elem_of_In, in_map.
  - rewrite map_app. apply list.NoDup_app. split; [done|]. split; [|apply NoDup_singleton].
    by intros x Hx ->%list_elem_of_singleton.
  - intros r' [Hr'%G| ->%list_elem_of_singleton]%elem_of_app; [|done].
    apply list_elem_of_In, in_map_iff in Hr' as (t&<-&Ht%list_elem_of_In%St).
    apply list_elem_of_In, in_map. by apply list_elem_of_In.
  - intros k. rewrite bucket_row_upsert, bucket_records_snoc.
    rewrite (bool_decide_ext (record_bucket r = k) (k = record_bucket r)) by done.
    case_bool_decide as Ek; [|rewrite app_nil_r; apply Y]. rewrite sums_of_snoc, <- Y.
    cbn [fmap option_fmap option_map]. by destruct (bucket_row k (co_history core)).
Qed.

End Writes.

(** ** Any sequence of writes *)

Inductive StoreOp : Type :=
  | OBegin (now : string) (session : SessionId) (goal : string)
  | OFinish (now : string) (session : SessionId) (success : bool) (summary : string)
  | OTask (now : string) (session : SessionId) (task : Task)
  | OAttempt (created updated : string) (r : UsageRecord)
  | ODecision (now : string) (session : SessionId) (task : TaskId) (agent : AgentId) (model : option ModelId)
      (score : f64) (explanation : string)
  | OHealth (now : string) (agent : AgentId) (state : string) (error : option string)
  | OSaveA2a (now id context_id state body : string)
  | ODeleteA2a (id : string).

(** The attempts a sequence of writes records. *)
Definition op_attempts (ops : list StoreOp) : list UsageRecord :=
  omap (fun op => match op with OAttempt _ _ r => Some r | _ => None end) ops.

Section Runs.
Context (show : SqlError -> string) (rfc3339 : Z -> string).

Definition run_op (op : StoreOp) : RuntimeStore -> RuntimeStore * Result unit :=
  match op with
  | OBegin now session goal => begin_session show now session goal
  | OFinish now session success summary => finish_session show now session success summary
  | OTask now session task => save_task show now session task
  | OAttempt created updated r => record_attempt show rfc3339 created updated r
  | ODecision now session task agent model score explanation =>
      record_routing_decision show now session task agent model score explanation
  | OHealth now agent state error => record_agent_health show now agent state error
  | OSaveA2a now id context_id state body => save_a2a_task show now id context_id state body
  | ODeleteA2a id => delete_a2a_task show id
  end.

(** The attempts whose write was answered [Ok]. *)
Definition accept (op : StoreOp) (answer : Result unit) (acc : list UsageRecord) : list UsageRecord :=
  match op, answer with
  | OAttempt _ _ r, Ok _ => (acc ++ [r])%list
  | _, _ => acc
  end.

Fixpoint run_ops (ops : list StoreOp) (s : RuntimeStore) (acc : list UsageRecord)
  : RuntimeStore * list UsageRecord :=
  match ops with
  | [] => (s, acc)
  | op :: ops' => let '(s, answer) := run_op op s in run_ops ops' s (accept op answer acc)
  end.

(** A store that answers: no fault ahead. *)
Definition quiet (s : RuntimeStore) : Prop := rs_poisoned s = false /\ cn_faults (rs_connection s) = [].

Definition store_db (s : RuntimeStore) : Database := cn_db (rs_connection s).

Lemma with_connection_atomic {A} (m : Sql A) R s :
  atomic m R ->
  match with_connection show m s with
  | (s', Ok a) => R (store_db s) a (store_db s')
  | (s', Err _) => store_db s' = store_db s
  end.
Proof.
  intros H. unfold with_connection. destruct (rs_poisoned s); [done|]. specialize (H (rs_connection s)).
  destruct (m (rs_connection s)) as [c [a|e]]; exact H.
Qed.

Definition tables_ok (P : Core -> Prop) (s : RuntimeStore) : Prop :=
  exists core, db_core (store_db s) = Some core /\ P core.

Definition store_sound (acc : list UsageRecord) : RuntimeStore -> Prop := tables_ok (core_ok rfc3339 acc).

(** A write that keeps a property of the first schema's tables when it is made
    keeps it. *)
Lemma core_write_keeps {A} (P : Core -> Prop) name (f : Core -> result (Core * A) SqlError) s :
  (forall core core' a, P core -> f core = Ok (core', a) -> P core') ->
  tables_ok P s -> tables_ok P (with_connection show (on_core name f) s).1.
Proof.
  intros Hf (core&E&O). pose proof (with_connection_atomic _ _ s (atomic_on_core name f)) as H.
  destruct (with_connection show (on_core name f) s) as [s' [a|e]]; cbn [fst].
  - destruct H as (core1&core'&E1&Ef&E'). rewrite E in E1. injection E1 as <-.
    exists core'. rewrite E'. split; [done|by eapply Hf].
  - exists core. by rewrite H.
Qed.

Lemma a2a_write_sound {A} (f : list A2aRow -> result (list A2aRow * A) SqlError) acc s :
  store_sound acc s -> store_sound acc (with_connection show (on_a2a f) s).1.
Proof.
  intros (core&E&O). pose proof (with_connection_atomic _ _ s (atomic_on_a2a f)) as H.
  destruct (with_connection show (on_a2a f) s) as [s' [a|e]]; cbn [fst]; exists core.
  - destruct H as (rows&rows'&E1&Ef&E'). by rewrite E'.
  - by rewrite H.
Qed.

(** What the three statements of [record_attempt] come to together. *)
Lemma attempt_statements_spec created updated r :
  ensures (attempt_statements rfc3339 created updated r) (fun db _ db' =>
    exists core tasks, db_core db = Some core /\
      (tasks = co_tasks core /\ has_task (u_task_id r) core = true \/
       has_session (u_session_id r) core = true /\ has_task (u_task_id r) core = false /\
       tasks = (co_tasks core ++ [task_stub (u_task_id r) (u_session_id r) (u_task_type r) created])%list) /\
      db' = with_core
        (put_bucket (upsert (same_bucket r) (bucket_new updated r) (bucket_add updated r) (co_history core))
           (put_attempts (replace_row (fun a => bool_decide (at_id a = u_attempt_id r)) (attempt_row rfc3339 r)
              (co_attempts core)) (put_tasks tasks core))) db).
Proof.
  intros c c' [] E.
  destruct (ensures_bind _ _ _ _ (atomic_ensures _ _ (atomic_on_core _ _))
    (fun _ => ensures_bind _ _ _ _ (atomic_ensures _ _ (atomic_on_core _ _))
      (fun _ => atomic_ensures _ _ (atomic_on_core _ _))) c c' tt E)
    as ([]&db1&(core&core1&E0&E1&->)&[]&db2&(core1'&core2&E2&E3&->)&(core2'&core3&E4&E5&->)).
  cbn [with_core db_core] in E2, E4. injection E2 as <-. injection E4 as <-. injection E5 as <-.
  destruct (has_task (u_task_id r) core1); [|done]. injection E3 as <-.
  destruct (has_task (u_task_id r) core) eqn:Ht.
  - injection E1 as <-. exists core, (co_tasks core). split; [done|]. split; [by left|]. by destruct core.
  - destruct (has_session (u_session_id r) core) eqn:Hs; [|done]. injection E1 as <-. eexists core, _.
    split; [done|]. split; [by right|done].
Qed.

Lemma attempt_write_sound created updated r acc s :
  u_attempt_id r ∉ map u_attempt_id acc -> store_sound acc s ->
  match record_attempt show rfc3339 created updated r s with
  | (s', Ok _) => store_sound (acc ++ [r]) s'
  | (s', Err _) => store_sound acc s'
  end.
Proof.
  intros Hn (core&E&O).
  pose proof (with_connection_atomic _ _ s (atomic_transaction _ _ (attempt_statements_spec created updated r))) as H.
  unfold record_attempt. destruct (with_connection _ _ s) as [s' [a|e]]; [|exists core; by rewrite H].
  destruct H as (core1&tasks&E1&Ht&E'). rewrite E in E1. injection E1 as <-.
  eexists. rewrite E'. split; [reflexivity|]. destruct O as [S T H B F A I G Y].
  destruct Ht as [[-> Ht]|(Hs&Ht&->)].
  - apply core_attempt; try done. by apply has_task_elem.
  - assert (u_task_id r ∉ map tk_id (co_tasks core)) as Hf.
    { intros Hx%has_task_elem. congruence. }
    apply has_session_elem in Hs. apply core_attempt; try done.
    + rewrite map_app. apply list.NoDup_app. split; [done|]. split; [|apply NoDup_singleton].
      by intros x Hx ->%list_elem_of_singleton.
    + intros t Ht'. apply elem_of_app. by left.
    + intros t [Ht'| ->%list_elem_of_singleton]%elem_of_app; [by apply F|done].
    + rewrite map_app. apply elem_of_app. right. by left.
Qed.

Lemma run_op_sound op s acc :
  (forall created updated r, op = OAttempt created updated r -> u_attempt_id r ∉ map u_attempt_id acc) ->
  store_sound acc s -> let '(s', answer) := run_op op s in store_sound (accept op answer acc) s'.
Proof.
  intros Hn Hs. destruct (run_op op s) as [s' answer] eqn:E.
  assert (forall o : RuntimeStore * Result unit, run_op op s = o -> store_sound acc o.1 -> store_sound acc s') as Hk.
  { intros o Eo Ho. rewrite <- Eo, E in Ho. exact Ho. }
  destruct op; cbn [accept]; try (eapply Hk; [reflexivity|]; clear Hk E).
  - apply core_write_keeps; [|done]. intros core core' a O [= <- <-]. by apply core_begin.
  - apply core_write_keeps; [|done]. intros core core' a O [= <- <-]. by apply core_finish.
  - apply core_write_keeps; [|done]. intros core core' a O. destruct (_ || _) eqn:Eh; [|done].
    intros [= <- <-]. by apply core_task.
  - pose proof (attempt_write_sound created updated r acc s (Hn _ _ _ eq_refl) Hs) as H.
    cbn [run_op] in E. rewrite E in H. by destruct answer.
  - apply core_write_keeps; [|done]. intros core core' a O. destruct (sql_bind_real score); [|done].
    intros [= <- <-]. by apply core_decision.
  - apply core_write_keeps; [|done]. intros core core' a O [= <- <-]. by apply core_health.
  - by apply a2a_write_sound.
  - by apply a2a_write_sound.
Qed.

Lemma run_ops_sound ops : forall s acc,
  NoDup (map u_attempt_id (acc ++ op_attempts ops)) -> store_sound acc s ->
  store_sound (run_ops ops s acc).2 (run_ops ops s acc).1.
Proof.
  induction ops as [|op ops IH]; intros s acc D H; [done|]. cbn [run_ops].
  pose proof (run_op_sound op s acc) as Hop. destruct (run_op op s) as [s' answer]. apply IH.
  - destruct op; try exact D. cbn [accept]. cbn in D.
    destruct answer; [by rewrite <- app_assoc|]. rewrite map_app in *. eapply sublist_NoDup; [exact D|].
    apply sublist_app; [done|]. by constructor.
  - apply Hop; [|done]. intros created updated r ->. cbn in D. rewrite map_app in D.
    apply list.NoDup_app in D as (_&D&_). intros Hx. apply (D _ Hx). by left.
Qed.

Lemma run_ops_accepts ops : forall s acc,
  exists l, (run_ops ops s acc).2 = (acc ++ l)%list /\ sublist l (op_attempts ops).
Proof.
  induction ops as [|op ops IH]; intros s acc; [by exists []; rewrite app_nil_r|]. cbn [run_ops].
  destruct (run_op op s) as [s' answer]. destruct (IH s' (accept op answer acc)) as (l&El&Hl). rewrite El.
  destruct op; try by exists l. destruct answer as [[]|e]; cbn [accept].
  - exists (r :: l). split; [by rewrite <- app_assoc|]. by apply sublist_skip.
  - exists l. split; [done|]. by apply sublist_cons.
Qed.
End Runs.

(** C8: Whatever fails, and in whatever order the harness writes: the attempts in
    the database are those whose write was answered, in that order; every bucket
    of the routing history holds the sums over exactly those of them that fall
    in it, so the dashboards and the router never contradict each other; every
    attempt has its task and every task its session; and no key is there twice. *)
Theorem store_integrity show rfc3339 ops s :
  db_core (store_db s) = Some core_empty -> NoDup (map u_attempt_id (op_attempts ops)) ->
  let s' := (run_ops show rfc3339 ops s []).1 in
  let acc := (run_ops show rfc3339 ops s []).2 in
  sublist acc (op_attempts ops) /\
  exists core, db_core (store_db s') = Some core /\
    co_attempts core = map (attempt_row rfc3339) acc /\
    (forall k, row_sums <$> bucket_row k (co_history core) = sums_of (bucket_records k acc)) /\
    (forall a, a ∈ co_attempts core -> exists t, t ∈ co_tasks core /\ tk_id t = at_task_id a) /\
    (forall t, t ∈ co_tasks core -> exists n, n ∈ co_sessions core /\ sn_id n = tk_session_id t) /\
    NoDup (map sn_id (co_sessions core)) /\ NoDup (map tk_id (co_tasks core)) /\
    NoDup (map at_id (co_attempts core)) /\ NoDup (map row_bucket (co_history core)).
Proof.
  intros E D s' acc. split.
  { destruct (run_ops_accepts show rfc3339 ops s []) as (l&El&Hl). unfold acc. by rewrite El. }
  destruct (run_ops_sound show rfc3339 ops s []) as (core&Ec&[S T H B F A I G Y]).
  { exact D. }
  { exists core_empty. split; [done|apply core_ok_empty]. }
  exists core. fold s' in Ec. fold acc in A, I, G, Y. split_and!; try done.
  - intros a. rewrite A. intros (r&<-&Hr%list_elem_of_In)%list_elem_of_In%in_map_iff.
    apply G, list_elem_of_In, in_map_iff in Hr as (t&Et&Ht%list_elem_of_In). by exists t.
  - intros t Ht. apply F, list_elem_of_In, in_map_iff in Ht as (n&En&Hn%list_elem_of_In). by exists n.
  - rewrite A, map_map. exact I.
Qed.

(** ** Migrations *)

(** A database as a migration that may have been cut short leaves it. *)
Definition version_ok (db : Database) : Prop :=
  (1 <= db_user_version db -> is_Some (db_core db)) /\ (2 <= db_user_version db -> is_Some (db_a2a db)).

(** Nothing that was there is gone or changed. *)
Definition kept_rows (db db' : Database) : Prop :=
  (forall core, db_core db = Some core -> db_core db' = Some core) /\
  (forall rows, db_a2a db = Some rows -> db_a2a db' = Some rows).

Definition carries {A} (m : Sql A) : Prop := forall c, version_ok (cn_db c) ->
  version_ok (cn_db (m c).1) /\ kept_rows (cn_db c) (cn_db (m c).1).

Lemma carries_statement {A} (f : Database -> result (Database * A) SqlError) :
  (forall db db' a, version_ok db -> f db = Ok (db', a) -> version_ok db' /\ kept_rows db db') -> carries (statement f).
Proof.
  intros H c V. pose proof (atomic_statement f c) as Ha. destruct (statement f c) as [c' [a|e]]; cbn [fst]; [by eapply H|].
  by rewrite Ha.
Qed.

Lemma carries_bind {A B} (m : Sql A) (k : A -> Sql B) :
  carries m -> (forall a, carries (k a)) -> carries (sql_bind m k).
Proof.
  intros Hm Hk c V. unfold sql_bind. destruct (Hm c V) as [V1 [K1 K2]]. destruct (m c) as [c1 [a|e]]; cbn [fst] in *.
  - destruct (Hk a c1 V1) as [V2 [K3 K4]]. split; [done|]. split; auto.
  - by split.
Qed.

Lemma carries_ret {A} (a : A) : carries (sql_ret a).
Proof. by intros c V. Qed.

Lemma carries_no_change : carries no_change.
Proof. apply carries_statement. by intros db db' a V [= <- <-]. Qed.

(** The version read is the database's, or 0. *)
Lemma user_version_read c : let '(c', r) := user_version c in cn_db c' = cn_db c /\
  exists v, r = Ok v /\ (v = db_user_version (cn_db c) \/ v = 0).
Proof.
  unfold user_version. pose proof (atomic_statement (fun db => Ok (db, db_user_version db)) c) as Ha.
  destruct (statement _ c) as [c' [v|e]]; [injection Ha as <- <-|]; (split; [done|]); eexists; (split; [reflexivity|auto]).
Qed.

Lemma kept_rows_refl a : kept_rows a a.
Proof. by split. Qed.

Lemma kept_rows_trans a b c : kept_rows a b -> kept_rows b c -> kept_rows a c.
Proof. intros [K1 K2] [K3 K4]. split; auto. Qed.

(** A table is made unless it is there. *)
Lemma made_v1 b c : version_ok (cn_db c) -> (b = false -> is_Some (db_core (cn_db c))) ->
  let '(c', r) := sql_when b migrate_to_v1 c in
  version_ok (cn_db c') /\ kept_rows (cn_db c) (cn_db c') /\ db_user_version (cn_db c') = db_user_version (cn_db c) /\
  (is_ok r = true -> is_Some (db_core (cn_db c'))).
Proof.
  intros [V1 V2] Hb. destruct b; cbn [sql_when sql_ret]; [|split; [done|split; [apply kept_rows_refl|split; [done|by auto]]]].
  pose proof (atomic_statement (fun db => Ok (with_core (match db_core db with Some core => core | None => core_empty end) db, tt)) c) as Ha.
  unfold migrate_to_v1. destruct (statement _ c) as [c' [[]|e]].
  - injection Ha as Ha. rewrite <- Ha. split; [split; cbn; eauto|]. split; [split; cbn; by intros ? ->|].
    split; [done|]. intros _. cbn. eauto.
  - rewrite Ha. split; [done|]. split; [apply kept_rows_refl|done].
Qed.

Lemma made_v2 b c : version_ok (cn_db c) -> (b = false -> is_Some (db_a2a (cn_db c))) ->
  let '(c', r) := sql_when b migrate_to_v2 c in
  version_ok (cn_db c') /\ kept_rows (cn_db c) (cn_db c') /\ db_core (cn_db c') = db_core (cn_db c) /\
  (is_ok r = true -> is_Some (db_a2a (cn_db c'))).
Proof.
  intros [V1 V2] Hb. destruct b; cbn [sql_when sql_ret]; [|split; [done|split; [apply kept_rows_refl|split; [done|by auto]]]].
  pose proof (atomic_statement (fun db => Ok (with_a2a (match db_a2a db with Some rows => rows | None => [] end) db, tt)) c) as Ha.
  unfold migrate_to_v2. destruct (statement _ c) as [c' [[]|e]].
  - injection Ha as Ha. rewrite <- Ha. split; [split; cbn; eauto|]. split; [split; cbn; by intros ? ->|].
    split; [done|]. intros _. cbn. eauto.
  - rewrite Ha. split; [done|]. split; [apply kept_rows_refl|done].
Qed.

Lemma carries_steps v c : version_ok (cn_db c) -> (v = db_user_version (cn_db c) \/ v = 0) ->
  let '(c', _) := (let$ _ := sql_when (v <? 1) migrate_to_v1 in
                   let$ _ := sql_when (v <? 2) migrate_to_v2 in set_user_version SCHEMA_VERSION) c in
  version_ok (cn_db c') /\ kept_rows (cn_db c) (cn_db c').
Proof.
  intros V Hv. unfold sql_bind at 1.
  pose proof (made_v1 (v <? 1) c V) as H1. destruct (sql_when (v <? 1) migrate_to_v1 c) as [c1 r1].
  destruct H1 as (V1&K1&E1&T1); [intros Hb%Z.ltb_ge; destruct V as [Va _]; apply Va; lia|].
  destruct r1 as [[]|e]; [|exact (conj V1 K1)]. destruct (T1 eq_refl) as [core Hcore]. unfold sql_bind.
  pose proof (made_v2 (v <? 2) c1 V1) as H2. destruct (sql_when (v <? 2) migrate_to_v2 c1) as [c2 r2].
  destruct H2 as (V2&K2&E2&T2); [intros Hb%Z.ltb_ge; destruct V1 as [_ Vb]; apply Vb; rewrite E1; lia|].
  destruct r2 as [[]|e]; [|exact (conj V2 (kept_rows_trans _ _ _ K1 K2))]. destruct (T2 eq_refl) as [rows Hrows].
  pose proof (atomic_statement (fun db => Ok ({| db_user_version := SCHEMA_VERSION; db_core := db_core db;
    db_a2a := db_a2a db |}, tt)) c2) as Ha.
  unfold set_user_version. destruct (statement _ c2) as [c3 [[]|e]].
  - injection Ha as Ha. rewrite <- Ha. split; [split; cbn; intros _; [rewrite E2; eauto|eauto]|].
    eapply kept_rows_trans; [exact K1|]. eapply kept_rows_trans; [exact K2|]. by split.
  - rewrite Ha. split; [done|by eapply kept_rows_trans].
Qed.

Lemma fst_case {A} (x : Connection * A) (P : Connection -> Prop) : (let '(c, _) := x in P c) -> P x.1.
Proof. by destruct x. Qed.

Lemma carries_migrate : carries migrate.
Proof.
  unfold migrate. do 3 (apply carries_bind; [exact carries_no_change|intros _]).
  intros c V. apply (fst_case _ (fun c' => version_ok (cn_db c') /\ kept_rows (cn_db c) (cn_db c'))).
  unfold sql_bind at 1. pose proof (user_version_read c) as Hu. destruct (user_version c) as [c1 r].
  destruct Hu as [E1 (v&->&Hv)]. rewrite <- E1 in *. destruct (SCHEMA_VERSION <=? v); [by split; [|apply kept_rows_refl]|].
  pose proof (carries_steps v c1 V Hv) as H. by destruct (sql_bind _ _ c1).
Qed.

(** What a migration does when nothing fails. *)
Lemma migrate_quiet db : version_ok db ->
  migrate {| cn_db := db; cn_faults := [] |} =
  ({| cn_db := if SCHEMA_VERSION <=? db_user_version db then db
               else {| db_user_version := SCHEMA_VERSION;
                       db_core := Some (match db_core db with Some core => core | None => core_empty end);
                       db_a2a := Some (match db_a2a db with Some rows => rows | None => [] end) |};
      cn_faults := [] |}, Ok tt).
Proof.
  intros [V1 V2]. unfold migrate, no_change, user_version, sql_bind, statement. cbn -[Z.leb Z.ltb].
  destruct (Z.leb_spec SCHEMA_VERSION (db_user_version db)); [done|].
  destruct (Z.ltb_spec (db_user_version db) 2) as [_|]; [|unfold SCHEMA_VERSION in *; lia].
  destruct (Z.ltb_spec (db_user_version db) 1); cbn; [done|]. destruct V1 as [core ->]; [lia|]. done.
Qed.

(** C40: A migration that is cut short anywhere, by any failure, loses no row and
    leaves a database a later start carries on from: opened again without
    failures it is at this build's version or the newer one it was at, every
    table is there, and every row that ever was. *)
Theorem migrate_resumes db faults :
  version_ok db ->
  let db1 := cn_db (migrate {| cn_db := db; cn_faults := faults |}).1 in
  version_ok db1 /\
  exists db2, migrate {| cn_db := db1; cn_faults := [] |} = ({| cn_db := db2; cn_faults := [] |}, Ok tt) /\
    SCHEMA_VERSION <= db_user_version db2 /\ is_Some (db_core db2) /\ is_Some (db_a2a db2) /\
    kept_rows db db2 /\
    (db_core db = None -> db_core db2 = Some core_empty \/ db_core db2 = db_core db1).
Proof.
  intros V db1. destruct (carries_migrate {| cn_db := db; cn_faults := faults |} V) as [V1 K1]. fold db1 in V1, K1.
  split; [done|]. eexists. split; [by apply migrate_quiet|].
  destruct (Z.leb_spec SCHEMA_VERSION (db_user_version db1)) as [Hv|Hv].
  - split_and!; [done|apply V1; unfold SCHEMA_VERSION in Hv; lia|apply V1; unfold SCHEMA_VERSION in Hv; lia|done|by right].
  - cbn [db_user_version db_core db_a2a]. split_and!; [done|eauto|eauto| |].
    + eapply kept_rows_trans; [exact K1|]. split; cbn; by intros ? ->.
    + intros _. destruct (db_core db1) as [core|]; [by right|by left].
Qed.
