(* ===== verification/StoreA2a.v ===== *)
(** * The store as the A2A server's memory

    The task store the command line hands the server ([A2aTasks],
    [cuma-cli/src/commands.rs]), and what survives of a task through any number
    of steps and restarts.  A task is saved some time after it was changed, and
    a cancellation and the task's own run may be between the two at once: what
    is saved last is then not what the task is. *)

From S2P Require Export StoreFacts A2aServerLaws.
From S2P Require Import TrustFacts.
From stdpp Require Import relations.
Open Scope string_scope.
Open Scope Z_scope.

(** ** [A2aTasks], and [persist] *)

Section Adapter.
Context (show : SqlError -> string).

Definition a2a_save (now id context_id state body : string) : RuntimeStore -> RuntimeStore * Result unit :=
  save_a2a_task show now id context_id state body.
Definition a2a_load (limit : Z) : RuntimeStore -> RuntimeStore * Result (list string) := load_a2a_tasks show limit.
Definition a2a_remove (id : string) : RuntimeStore -> RuntimeStore * Result unit := delete_a2a_task show id.

(** A call of the server's; what fails is logged. *)
Definition make_call (print : Value -> string) (now : string) (call : StoreCall) (s : RuntimeStore) : RuntimeStore :=
  match call with
  | StSave id context_id state body => (a2a_save now id context_id state (print body) s).1
  | StRemove id => (a2a_remove id s).1
  end.

Fixpoint make_calls (print : Value -> string) (clock : nat -> string) (calls : list StoreCall) (s : RuntimeStore)
  : RuntimeStore :=
  match calls with
  | [] => s
  | call :: calls' => make_calls print (fun n => clock (S n)) calls' (make_call print (clock 0%nat) call s)
  end.
End Adapter.

(** ** The table *)

Definition body_of (id : string) (rows : list A2aRow) : option string :=
  aa_body <$> List.find (fun r => bool_decide (aa_id r = id)) rows.

(** Rows stand in the order of their numbers, one per task. *)
Record a2a_ok (rows : list A2aRow) : Prop := {
  ao_seq : StronglySorted Z.lt (map aa_created_seq rows);
  ao_ids : NoDup (map aa_id rows);
}.

Definition save_row (now id context_id state body : string) (rows : list A2aRow) : list A2aRow :=
  upsert (fun r => bool_decide (aa_id r = id))
    {| aa_id := id; aa_context_id := context_id; aa_state := state; aa_created_seq := next_seq rows;
       aa_updated_at := now; aa_body := body |}
    (fun r => {| aa_id := aa_id r; aa_context_id := context_id; aa_state := state;
                 aa_created_seq := aa_created_seq r; aa_updated_at := now; aa_body := body |}) rows.

Definition remove_row (id : string) (rows : list A2aRow) : list A2aRow :=
  List.filter (fun r => negb (bool_decide (aa_id r = id))) rows.

Lemma next_seq_above rows r : r ∈ rows -> aa_created_seq r < next_seq rows.
Proof.
  unfold next_seq. destruct rows as [|r0 rows]; [by intros ?%not_elem_of_nil|].
  assert (forall l b, b <= fold_right (fun r n => Z.max (aa_created_seq r) n) b l /\
    forall r, r ∈ l -> aa_created_seq r <= fold_right (fun r n => Z.max (aa_created_seq r) n) b l) as H.
  { induction l as [|r' l IH]; intros b; cbn [fold_right]; [split; [lia|by intros ? ?%not_elem_of_nil]|].
    destruct (IH b) as [I1 I2]. split; [lia|]. intros r1 [->|H1%I2]%elem_of_cons; lia. }
  destruct (H rows (aa_created_seq r0)) as [H1 H2]. intros [->|Hr%H2]%elem_of_cons; lia.
Qed.

Lemma upsert_seqs same new update rows :
  (forall r, aa_created_seq (update r) = aa_created_seq r) ->
  map aa_created_seq (upsert same new update rows) = map aa_created_seq rows \/
  map aa_created_seq (upsert same new update rows) = (map aa_created_seq rows ++ [aa_created_seq new])%list.
Proof.
  intros U. induction rows as [|r rows IH]; cbn [upsert map]; [by right|]. destruct (same r); cbn [map].
  - left. by rewrite U.
  - destruct IH as [-> | ->]; auto.
Qed.

Lemma sorted_snoc l n : StronglySorted Z.lt l -> (forall m, m ∈ l -> m < n) -> StronglySorted Z.lt (l ++ [n]).
Proof.
  induction 1 as [|m l Hl IH Hm]; intros H; cbn [app]; [repeat constructor|]. constructor.
  - apply IH. intros x Hx. apply H. by right.
  - apply List.Forall_app. split; [done|]. constructor; [apply H; by left|constructor].
Qed.

Lemma save_row_ok now id context_id state body rows : a2a_ok rows -> a2a_ok (save_row now id context_id state body rows).
Proof.
  intros [S D]. split; [|by apply upsert_NoDup]. unfold save_row.
  destruct (upsert_seqs (fun r => bool_decide (aa_id r = id))
    {| aa_id := id; aa_context_id := context_id; aa_state := state; aa_created_seq := next_seq rows;
       aa_updated_at := now; aa_body := body |}
    (fun r => {| aa_id := aa_id r; aa_context_id := context_id; aa_state := state;
                 aa_created_seq := aa_created_seq r; aa_updated_at := now; aa_body := body |}) rows) as [-> | ->];
    [done|done|]. apply sorted_snoc; [done|]. intros m (r&->&Hr)%elem_of_map. by apply next_seq_above.
Qed.

Lemma save_row_ids now id context_id state body rows : a2a_ok rows ->
  map aa_id (save_row now id context_id state body rows) =
  (map aa_id rows ++ (if bool_decide (id ∈ map aa_id rows) then [] else [id]))%list.
Proof. intros [S D]. by apply upsert_keys. Qed.

Lemma save_row_body now id context_id state body rows id' :
  body_of id' (save_row now id context_id state body rows) =
  if bool_decide (id' = id) then Some body else body_of id' rows.
Proof.
  unfold body_of, save_row. generalize (next_seq rows) as seq. intros seq.
  induction rows as [|r rows IH]; cbn [upsert List.find aa_id].
  - rewrite (bool_decide_ext (id = id') (id' = id)) by done. by case_bool_decide.
  - destruct (decide (aa_id r = id)) as [E|E].
    + rewrite (bool_decide_eq_true_2 (aa_id r = id)) by done. cbn [List.find aa_id]. rewrite E.
      rewrite (bool_decide_ext (id = id') (id' = id)) by done. by case_bool_decide.
    + rewrite (bool_decide_eq_false_2 (aa_id r = id)) by done. cbn [List.find].
      destruct (decide (aa_id r = id')) as [E'|E'].
      * rewrite !(bool_decide_eq_true_2 (aa_id r = id')) by done. by rewrite bool_decide_eq_false_2 by congruence.
      * rewrite !(bool_decide_eq_false_2 (aa_id r = id')) by done. exact IH.
Qed.

Lemma remove_row_ids id rows :
  map aa_id (remove_row id rows) = List.filter (fun x => negb (bool_decide (x = id))) (map aa_id rows).
Proof.
  unfold remove_row. induction rows as [|r rows IH]; [done|]. cbn [List.filter map].
  case_bool_decide; cbn [negb map]; by rewrite IH.
Qed.

Lemma remove_row_body id rows id' : a2a_ok rows ->
  body_of id' (remove_row id rows) = if bool_decide (id' = id) then None else body_of id' rows.
Proof.
  intros _. unfold body_of, remove_row. induction rows as [|r rows IH]; cbn [List.filter List.find].
  - by case_bool_decide.
  - destruct (decide (aa_id r = id)) as [E|E].
    + rewrite (bool_decide_eq_true_2 (aa_id r = id)) by done. cbn [negb]. rewrite IH.
      case_bool_decide as E'; [done|]. by rewrite (bool_decide_eq_false_2 (aa_id r = id')) by congruence.
    + rewrite (bool_decide_eq_false_2 (aa_id r = id)) by done. cbn [negb List.find].
      destruct (decide (aa_id r = id')) as [E'|E'].
      * rewrite !(bool_decide_eq_true_2 (aa_id r = id')) by done. by rewrite bool_decide_eq_false_2 by congruence.
      * rewrite !(bool_decide_eq_false_2 (aa_id r = id')) by done. exact IH.
Qed.

Lemma remove_row_ok id rows : a2a_ok rows -> a2a_ok (remove_row id rows).
Proof.
  intros [S D]. split.
  - unfold remove_row. clear D. induction rows as [|r rows IH]; [done|]. cbn [map] in S.
    apply StronglySorted_inv in S as [S F]. cbn [List.filter].
    case_bool_decide; cbn [negb map]; [by apply IH|]. constructor; [by apply IH|].
    apply list.Forall_forall. intros n (r'&->&[Hr' _]%elem_of_lfilter)%elem_of_map.
    rewrite list.Forall_forall in F. apply F, elem_of_map. eauto.
  - rewrite remove_row_ids. apply NoDup_ListNoDup, List.NoDup_filter. by apply NoDup_ListNoDup.
Qed.

(** ** Loading *)

Lemma by_seq_sorted rows : StronglySorted Z.lt (map aa_created_seq rows) -> by_seq rows = rows.
Proof.
  unfold by_seq. induction rows as [|r rows IH]; [done|]. cbn [map fold_right]. intros [S F]%StronglySorted_inv.
  rewrite IH by done. destruct rows as [|r' rows]; [done|]. cbn [map insert_by_seq] in *. apply Forall_inv in F.
  destruct (Z.leb_spec (aa_created_seq r) (aa_created_seq r')); [done|lia].
Qed.

(** The newest rows of a table in order are its last. *)
Lemma newest_last limit rows :
  a2a_ok rows -> 0 <= limit -> newest limit rows = drop (length rows - Z.to_nat limit)%nat rows.
Proof.
  intros [S _] Hl. unfold newest. rewrite by_seq_sorted by done.
  destruct (Z.le_ge_cases limit (Z.of_nat (length rows))).
  - by rewrite Z.min_l.
  - rewrite Z.min_r by done. f_equal. lia.
Qed.

Lemma body_of_elem rows id body : a2a_ok rows ->
  body_of id rows = Some body <-> exists r, r ∈ rows /\ aa_id r = id /\ aa_body r = body.
Proof.
  intros [_ D]. unfold body_of. split.
  - destruct (List.find _ rows) as [r|] eqn:E; [|done]. intros [= <-].
    apply List.find_some in E as [Hr E%bool_decide_eq_true]. exists r. split; [by apply list_elem_of_In|done].
  - intros (r&Hr&<-&<-). induction rows as [|r' rows IH]; [by apply not_elem_of_nil in Hr|].
    cbn [map] in D. apply list.NoDup_cons in D as [Dn D]. cbn [List.find].
    apply elem_of_cons in Hr as [->|Hr]; [by rewrite bool_decide_eq_true_2|].
    rewrite bool_decide_eq_false_2; [by apply IH|]. intros E. apply Dn. rewrite E. apply elem_of_map. eauto.
Qed.

(** ** What a step of the server asks of the store *)

Lemma NoDup_map_same {A B} (f : A -> B) l x y : NoDup (map f l) -> x ∈ l -> y ∈ l -> f x = f y -> x = y.
Proof.
  induction l as [|a l IH]; [by intros _ ?%not_elem_of_nil|]. cbn [map]. intros [Dn D]%list.NoDup_cons Hx Hy E.
  apply elem_of_cons in Hx as [->|Hx], Hy as [->|Hy]; [done| | |by apply IH]; destruct Dn; apply elem_of_map; eauto.
Qed.

(** The task a table is told of by calls. *)
Definition told_by (call : StoreCall) (id : string) (old : option WireTask) : option WireTask :=
  match call with
  | StSave id' _ _ body => if bool_decide (id = id') then parse_task body else old
  | StRemove id' => if bool_decide (id = id') then None else old
  end.

Definition told_all (calls : list StoreCall) (id : string) (old : option WireTask) : option WireTask :=
  fold_left (fun old call => told_by call id old) calls old.

(** A call saves a task under its own id. *)
Definition call_ok (call : StoreCall) : Prop :=
  match call with
  | StSave id _ _ body => exists t, parse_task body = Some t /\ w_id t = id
  | StRemove _ => True
  end.

Lemma save_call_ok mid t : call_ok (save_call mid t).
Proof. exists (wire_task t). split; [apply parse_task_json|done]. Qed.

Lemma told_save mid t id old :
  told_by (save_call mid t) id old = if bool_decide (id = w_id t) then Some (wire_task t) else old.
Proof. cbn [save_call told_by]. case_bool_decide; [apply parse_task_json|done]. Qed.

Lemma told_removes gone id old : told_all (map StRemove gone) id old = if contains gone id then None else old.
Proof.
  unfold told_all. revert old. induction gone as [|x gone IH]; intros old; [done|]. cbn [map fold_left told_by].
  rewrite IH, contains_cons. destruct (bool_decide (id = x)); [by destruct (contains gone id)|done].
Qed.

Definition saves (mid : string) (ts : list WireTask) : list StoreCall := map (save_call mid) ts.

Lemma told_saves_other mid ts id old : id ∉ map w_id ts -> told_all (saves mid ts) id old = old.
Proof.
  unfold told_all. revert old. induction ts as [|t ts IH]; intros old; [done|]. cbn [map saves fold_left].
  intros [Hn H]%not_elem_of_cons. rewrite told_save, bool_decide_eq_false_2 by done. by apply IH.
Qed.

Lemma told_saves mid ts t old : NoDup (map w_id ts) -> t ∈ ts ->
  told_all (saves mid ts) (w_id t) old = Some (wire_task t).
Proof.
  revert old. induction ts as [|t' ts IH]; intros old; [by intros _ ?%not_elem_of_nil|]. cbn [map saves].
  intros [Dn D]%list.NoDup_cons [->|Ht]%elem_of_cons.
  - change (told_all (saves mid ts) (w_id t') (told_by (save_call mid t') (w_id t') old) = Some (wire_task t')).
    rewrite told_saves_other by done. by rewrite told_save, bool_decide_eq_true_2.
  - change (told_all (saves mid ts) (w_id t) (told_by (save_call mid t') (w_id t) old) = Some (wire_task t)). by apply IH.
Qed.

(** What each step asks: nothing, to save a task of its own, or to forget tasks
    that are gone. *)
Lemma step_calls w w' log :
  world_ok w -> step w w' -> sv_store (wd_server w) = Some log ->
  exists calls, sv_store (wd_server w') = Some (log ++ calls)%list /\ Forall call_ok calls.
Proof.
  intros O Hs Hl.
  assert (forall w', sv_store (wd_server w') = sv_store (wd_server w) ->
    exists calls, sv_store (wd_server w') = Some (log ++ calls)%list /\ Forall call_ok calls) as Hq.
  { intros w1 E. exists []. rewrite app_nil_r, E. auto. }
  assert (forall w' mid t, sv_store (wd_server w') = (fun log => log ++ [save_call mid t])%list <$> sv_store (wd_server w) ->
    exists calls, sv_store (wd_server w') = Some (log ++ calls)%list /\ Forall call_ok calls) as Hsave.
  { intros w1 mid t E. exists [save_call mid t]. rewrite E, Hl. split; [done|]. constructor; [apply save_call_ok|constructor]. }
  destruct Hs as [w params tid fresh now s' Hc Hg Hf Hst| | | | | | | | | | | | | | | | |];
    try (by apply Hq); try (by eapply Hsave).
  destruct (start_spec _ _ _ _ _ _ (wo_store _ O) Hst) as (gone&context&_&_&_&_&_&E).
  exists (map StRemove gone). cbn [wd_server]. rewrite E, Hl. split; [done|].
  apply list.Forall_forall. by intros c (x&->&_)%elem_of_map.
Qed.

(** ** Lives *)

Section Lives.
Context (show : SqlError -> string) (print : Value -> string) (parse : string -> option Value).
Context (Hprint : forall v, parse (print v) = Some v).

Definition holds_rows (rows : list A2aRow) (s : RuntimeStore) : Prop := quiet s /\ db_a2a (store_db s) = Some rows.

Lemma save_rows now id context_id state body rows s : holds_rows rows s ->
  holds_rows (save_row now id context_id state body rows) (a2a_save show now id context_id state body s).1.
Proof. intros [[P F] E]. destruct s as [[[v core a2a] faults] p]. cbn in P, F, E. by subst. Qed.

Lemma remove_rows id rows s : holds_rows rows s -> holds_rows (remove_row id rows) (a2a_remove show id s).1.
Proof. intros [[P F] E]. destruct s as [[[v core a2a] faults] p]. cbn in P, F, E. by subst. Qed.

Lemma load_rows limit rows s : holds_rows rows s -> 0 <= limit <= I64_MAX ->
  (a2a_load show limit s).2 = Ok (map aa_body (newest limit rows)) /\ holds_rows rows (a2a_load show limit s).1.
Proof.
  intros [[P F] E] [_ Hl%Z.leb_le]. destruct s as [[[v core a2a] faults] p]. cbn in P, F, E. subst.
  unfold a2a_load, load_a2a_tasks. by rewrite Hl.
Qed.

(** What is read back of a task. *)
Definition read_task (text : string) : option WireTask :=
  match parse text with Some v => parse_task v | None => None end.

Definition reads (id : string) (rows : list A2aRow) : option WireTask :=
  match body_of id rows with Some text => read_task text | None => None end.

(** Every row reads as the task it is stored under. *)
Record rows_ok (rows : list A2aRow) : Prop := {
  ro_ok : a2a_ok rows;
  ro_read : forall r, r ∈ rows -> exists t, read_task (aa_body r) = Some t /\ w_id t = aa_id r;
}.

Lemma rows_ok_reads rows : a2a_ok rows ->
  (forall id body, body_of id rows = Some body -> exists t, read_task body = Some t /\ w_id t = id) -> rows_ok rows.
Proof. intros O H. split; [done|]. intros r Hr. apply H. apply body_of_elem; eauto. Qed.

Lemma reads_row rows id body : rows_ok rows -> body_of id rows = Some body ->
  exists t, read_task body = Some t /\ w_id t = id.
Proof. intros [O R] (r&Hr&<-&<-)%body_of_elem; [|done]. by apply R. Qed.

Lemma make_call_rows now call rows s : call_ok call -> rows_ok rows -> holds_rows rows s ->
  exists rows', holds_rows rows' (make_call show print now call s) /\ rows_ok rows' /\
    forall id, reads id rows' = told_by call id (reads id rows).
Proof.
  intros Hc R H. pose proof (ro_ok _ R) as O. destruct call as [id' context_id state body|id']; cbn [make_call told_by].
  - destruct Hc as (t&Ht&Hid). set (rows' := save_row now id' context_id state (print body) rows).
    assert (forall id, body_of id rows' = if bool_decide (id = id') then Some (print body) else body_of id rows) as B
      by (intros id; apply save_row_body).
    exists rows'. split; [by apply save_rows|]. split.
    + apply rows_ok_reads; [by apply save_row_ok|]. intros id b. rewrite B. case_bool_decide as E.
      * intros [= <-]. subst. exists t. unfold read_task. by rewrite Hprint.
      * intros Hb. by eapply reads_row.
    + intros id. unfold reads. rewrite B. case_bool_decide; [unfold read_task; by rewrite Hprint|done].
  - exists (remove_row id' rows). split; [by apply remove_rows|]. split.
    + apply rows_ok_reads; [by apply remove_row_ok|]. intros id b. rewrite remove_row_body by done.
      case_bool_decide; [done|]. intros Hb. by eapply reads_row.
    + intros id. unfold reads. rewrite remove_row_body by done. by case_bool_decide.
Qed.

Lemma make_calls_rows calls : forall clock rows s, Forall call_ok calls -> rows_ok rows -> holds_rows rows s ->
  exists rows', holds_rows rows' (make_calls show print clock calls s) /\ rows_ok rows' /\
    forall id, reads id rows' = told_all calls id (reads id rows).
Proof.
  induction calls as [|call calls IH]; intros clock rows s F R H; [by exists rows|].
  apply list.Forall_cons in F as [Fc F]. cbn [make_calls].
  destruct (make_call_rows (clock 0%nat) call rows s Fc R H) as (rows1&H1&R1&E1).
  destruct (IH (fun n => clock (S n)) rows1 _ F R1 H1) as (rows'&H'&R'&E'). exists rows'.
  split; [done|]. split; [done|]. intros id. rewrite E', E1. done.
Qed.

(** A server working over its store, and starting over from what the store
    holds, whatever was under way. *)
Inductive life : World * RuntimeStore -> World * RuntimeStore -> Prop :=
  | life_step w w' s clock log calls :
      step w w' -> sv_store (wd_server w) = Some log -> sv_store (wd_server w') = Some (log ++ calls)%list ->
      life (w, s) (w', make_calls show print clock calls s)
  | life_restart w s clock capabilities url mid now s1 texts calls :
      a2a_load show (Z.of_nat MAX_RETAINED_TASKS) s = (s1, Ok texts) ->
      sv_store (restarted capabilities url mid now (map parse texts)) = Some calls ->
      life (w, s) (world_new (restarted capabilities url mid now (map parse texts)),
                   make_calls show print clock calls s1).

(** A cancellation of a task has replaced it and not saved it; so has its run. *)
Definition cancel_unsaved (id : string) (t : WireTask) (w : World) : Prop :=
  wd_cancel w = Some (id, t, CReplaced) \/ wd_cancel w = Some (id, t, CTold).

Definition run_unsaved (r : TaskRun) : Prop :=
  exists last, r_phase r = PWriting WRead last \/ exists t, r_phase r = PWriting (WSave t) last.

(** Both at once. *)
Definition clash (id : string) (w : World) : Prop :=
  (exists t, cancel_unsaved id t w) /\ exists r, run_of id w = Some r /\ run_unsaved r.

Definition calm (id : string) (a b : World * RuntimeStore) : Prop := life a b /\ ~ clash id b.1.

(** A task is still to be saved as it stands. *)
Definition unsaved (id : string) (e : TaskEntry) (w : World) : Prop :=
  cancel_unsaved id (te_snapshot e) w \/
  exists r, te_run e = Some r /\ (r_phase r = PNew \/ run_unsaved r).

Record follows (id : string) (rows : list A2aRow) (w : World) : Prop := {
  fo_row : forall e, entry_of id w = Some e ->
    unsaved id e w \/ exists t, reads id rows = Some t /\ (t = te_snapshot e \/ t = wire_task (te_snapshot e));
  fo_run : forall e r t last, entry_of id w = Some e -> te_run e = Some r -> r_phase r = PWriting (WSave t) last ->
    t = te_snapshot e;
  fo_cancel : forall e t, entry_of id w = Some e -> cancel_unsaved id t w -> t = te_snapshot e;
}.

Definition pending (r : TaskRun) : Prop := r_phase r = PNew \/ run_unsaved r.

(** A phase nothing is to be saved in. *)
Definition rests (p : Phase) : Prop :=
  match p with PNew | PWriting WRead _ | PWriting (WSave _) _ => False | _ => True end.

Lemma rests_pending r : rests (r_phase r) <-> ~ pending r.
Proof.
  unfold pending, run_unsaved. destruct (r_phase r) as [| | | |[|t|t] last| |x| |]; cbn [rests]; split; try done; intros H;
    try (by destruct H; eauto); try (by intros [|(l&[|[? ?]])]).
  all: exfalso; apply H; right; exists last; eauto.
Qed.

Lemma follows_none id rows w : entry_of id w = None -> follows id rows w.
Proof. intros E. split; by rewrite E. Qed.

Lemma follows_intro id rows w e : entry_of id w = Some e ->
  unsaved id e w \/ (exists t, reads id rows = Some t /\ (t = te_snapshot e \/ t = wire_task (te_snapshot e))) ->
  (forall r t last, te_run e = Some r -> r_phase r = PWriting (WSave t) last -> t = te_snapshot e) ->
  (forall t, cancel_unsaved id t w -> t = te_snapshot e) -> follows id rows w.
Proof. intros E H1 H2 H3. split; rewrite E; intros e0; [by intros [= <-]|intros r t l [= <-]; apply H2|intros t [= <-]; apply H3]. Qed.

(** A step that leaves the task, whether it is to be saved, and its row. *)
Lemma follows_same id rows rows' w w' :
  follows id rows w -> reads id rows' = reads id rows ->
  (forall t, cancel_unsaved id t w' <-> cancel_unsaved id t w) ->
  (forall e', entry_of id w' = Some e' -> exists e, entry_of id w = Some e /\ te_snapshot e' = te_snapshot e /\
     (te_run e' = te_run e \/ exists r r', te_run e = Some r /\ te_run e' = Some r' /\
        (r_phase r' = r_phase r \/ rests (r_phase r) /\ rests (r_phase r')))) ->
  follows id rows' w'.
Proof.
  intros [F1 F2 F3] Er Ec He. destruct (entry_of id w') as [e'|] eqn:E'; [|by apply follows_none].
  destruct (He e' eq_refl) as (e&E&Es&Hr).
  assert (forall r', te_run e' = Some r' -> exists r, te_run e = Some r /\
    (r_phase r' = r_phase r \/ rests (r_phase r) /\ rests (r_phase r'))) as Hr'.
  { intros r' H. destruct Hr as [Hr|(r1&r2&H1&H2&H3)]; [rewrite <- Hr; eauto|]. rewrite H2 in H. injection H as <-. eauto. }
  apply (follows_intro _ _ _ e' E').
  - rewrite Es, Er. destruct (F1 e E) as [[Hc|(r&H1&H2)]|H]; [left; left; rewrite Es; by apply Ec| |by right].
    left. right. destruct Hr as [Hr|(r1&r2&H3&H4&H5)]; [rewrite Hr; by exists r|].
    rewrite H3 in H1. injection H1 as ->. exists r2. split; [done|]. destruct H5 as [H5|[H5 _]].
    + unfold run_unsaved in *. by rewrite H5.
    + by apply rests_pending in H5.
  - intros r' t last H1 H2. rewrite Es. destruct (Hr' r' H1) as (r&H3&[H4|[_ H4]]).
    + apply (F2 e r t last); [done|done|congruence].
    + by rewrite H2 in H4.
  - intros t Ht. rewrite Es. by apply (F3 e t E), Ec.
Qed.

(** A step on another task's entry. *)
Lemma follows_other id id' f rows rows' w w' :
  id <> id' -> follows id rows w -> reads id rows' = reads id rows ->
  sv_tasks (wd_server w') = sv_tasks (wd_server (on_channel id' f w)) ->
  (forall t, cancel_unsaved id t w' <-> cancel_unsaved id t w) -> follows id rows' w'.
Proof.
  intros N F Er Es Ec. apply (follows_same id rows rows' w); try done. intros e' He'. exists e'.
  assert (entry_of id w' = entry_of id (on_channel id' f w)) as E by (unfold entry_of, tasks_of; by rewrite Es).
  rewrite E, entry_on_channel, bool_decide_eq_false_2 in He' by done. split; [done|]. split; [done|by left].
Qed.

(** A step of the run of a task: to the same task, another task, or a task that
    is gone. *)
Lemma follows_run id id' f r rows rows' w w' :
  follows id rows w -> run_of id' w = Some r -> (id <> id' -> reads id rows' = reads id rows) ->
  sv_tasks (wd_server w') = sv_tasks (wd_server (on_channel id' f w)) -> wd_cancel w' = wd_cancel w ->
  (forall e, id = id' -> entry_of id w = Some e -> te_run e = Some r -> entry_of id w' = Some (f e) -> follows id rows' w') ->
  follows id rows' w'.
Proof.
  intros F (e0&H0&Hr)%run_channel Er Es Ec H. destruct (decide (id = id')) as [<-|N].
  - assert (entry_of id w' = f <$> entry_of id w) as E.
    { transitivity (entry_of id (on_channel id f w)); [unfold entry_of, tasks_of; by rewrite Es|].
      by rewrite entry_on_channel, bool_decide_eq_true_2. }
    destruct (entry_of id w) as [e|] eqn:Ee; [|by apply follows_none].
    apply (H e); [done|done| |done]. apply entry_channel in Ee. congruence.
  - eapply follows_other; [done|done|by apply Er|done|]. intros t. unfold cancel_unsaved. by rewrite Ec.
Qed.

(** The run moves between phases nothing is to be saved in. *)
Lemma follows_rest id id' f r rows w w' :
  follows id rows w -> run_of id' w = Some r -> rests (r_phase r) ->
  sv_tasks (wd_server w') = sv_tasks (wd_server (on_channel id' f w)) -> wd_cancel w' = wd_cancel w ->
  (forall e, te_run e = Some r -> te_snapshot (f e) = te_snapshot e /\
     exists r', te_run (f e) = Some r' /\ rests (r_phase r')) ->
  follows id rows w'.
Proof.
  intros F Hr Hp Es Ec Hf. eapply follows_run; [done..|]. intros e -> He Hre He'.
  destruct (Hf e Hre) as (Hs&r'&Hr'&Hp'). eapply follows_same; [done|done|unfold cancel_unsaved; by rewrite Ec|].
  intros e1. rewrite He'. intros [= <-]. exists e. split; [done|]. split; [done|]. right. exists r, r'. auto.
Qed.

(** The run changes the task. *)
Lemma follows_change id id' f r rows w w' :
  follows id rows w -> ~ clash id w' -> run_of id' w = Some r ->
  w' = on_channel id' f w ->
  (forall e, te_run e = Some r -> exists r' last, te_run (f e) = Some r' /\ r_phase r' = PWriting WRead last) ->
  follows id rows w'.
Proof.
  intros F Hn Hr Ew Hf. eapply (follows_run id id' f r); [done|done|done|by subst|by subst|]. intros e -> He Hre He'.
  destruct (Hf e Hre) as (r'&last&Hr'&Hp). apply (follows_intro _ _ _ _ He').
  - left. right. exists r'. split; [done|]. right. exists last. by left.
  - intros r0 t l H0 Hp0. congruence.
  - intros t Ht. destruct Hn. split; [by exists t|]. exists r'. split; [by eapply entry_run|]. exists last. by left.
Qed.

(** The run reads the task it is to save. *)
Lemma follows_read id id' r last rows w :
  follows id rows w -> run_of id' w = Some r -> follows id rows (on_channel id' (set_read last) w).
Proof.
  intros F Hr. eapply (follows_run id id' (set_read last) r); [done..|]. intros e -> He Hre He'.
  assert (te_run (set_read last e) = Some (in_phase (PWriting (WSave (te_snapshot e)) last) r)) as Hr'
    by (unfold set_read; by rewrite (at_phase_run e r)).
  assert (te_snapshot (set_read last e) = te_snapshot e) as Es by (unfold set_read; by rewrite (at_phase_run e r)).
  apply (follows_intro _ _ _ _ He').
  - left. right. eexists. split; [exact Hr'|]. right. exists last. right. by eexists.
  - intros r0 t l. rewrite Hr', Es. by intros [= <-] [= <- _].
  - intros t Ht. rewrite Es. by apply (fo_cancel _ _ _ F e t He).
Qed.

(** What a task's run, or a cancellation, saves is the task as it stands. *)
Lemma follows_saved id rows w' e t :
  entry_of id w' = Some e -> reads id rows = Some (wire_task t) -> t = te_snapshot e ->
  (forall r t last, te_run e = Some r -> r_phase r = PWriting (WSave t) last -> t = te_snapshot e) ->
  (forall t, cancel_unsaved id t w' -> t = te_snapshot e) -> follows id rows w'.
Proof.
  intros E Hr -> Hp Hc. apply (follows_intro _ _ _ e E); [right; eexists; split; [exact Hr|by right]|done|done].
Qed.

Lemma follows_first_save id id' e0 r mid rows rows' w :
  world_ok w -> follows id rows w -> channel_of id' w = Some e0 -> te_run e0 = Some r -> r_phase r = PNew ->
  reads id rows' = told_by (save_call mid (te_snapshot e0)) id (reads id rows) ->
  follows id rows' (on_run id' (in_phase PSaved) (on_server (first_save mid e0) w)).
Proof.
  intros O F H0 Hr Hp Er. destruct (channel_ids _ _ _ O H0) as [Hid _]. rewrite told_save, Hid in Er.
  eapply (follows_run id id' _ r); [done|apply run_channel; eauto| |reflexivity|done|].
  { intros N. by rewrite bool_decide_eq_false_2 in Er. }
  intros e -> He Hre He'. apply entry_channel in He as Hch. rewrite H0 in Hch. injection Hch as ->.
  rewrite bool_decide_eq_true_2 in Er by done. cbv beta in He'. rewrite Hre in He'.
  eapply follows_saved; [exact He'|exact Er|done| |].
  - by intros r' t' l [= <-].
  - intros t Ht. by apply (fo_cancel _ _ _ F e t He).
Qed.

Lemma follows_save id id' r t last mid rows rows' w :
  world_ok w -> follows id rows w -> run_of id' w = Some r -> r_phase r = PWriting (WSave t) last ->
  reads id rows' = told_by (save_call mid t) id (reads id rows) ->
  follows id rows' (on_channel id' (set_saved t last) (persisted mid t w)).
Proof.
  intros O F Hr Hp Er. assert (w_id t = id') as Hid.
  { apply run_channel in Hr as (e0&H0&Hr0). destruct (channel_ids _ _ _ O H0) as [_ H]. by eapply H; eauto. }
  rewrite told_save, Hid in Er.
  eapply (follows_run id id' _ r); [done|done| |reflexivity|done|].
  { intros N. by rewrite bool_decide_eq_false_2 in Er. }
  intros e -> He Hre He'. rewrite bool_decide_eq_true_2 in Er by done.
  unfold set_saved in He'. rewrite (at_phase_run e r) in He' by done.
  eapply follows_saved; [exact He'|exact Er|by apply (fo_run _ _ _ F e r t last)| |].
  - by intros r' t' l [= <-].
  - intros t' Ht. by apply (fo_cancel _ _ _ F e t' He).
Qed.

(** The cancellation's sections. *)
Lemma follows_replace id tid t now rows w :
  world_ok w -> follows id rows w -> wd_cancel w = Some (tid, t, CAborted) ->
  let w' := with_cancel (Some (tid, cancelled now t, CReplaced)) (on_server (update_entry tid (replaced (cancelled now t))) w) in
  ~ clash id w' -> follows id rows w'.
Proof.
  intros O F Hc w' Hn. destruct (decide (id = tid)) as [->|N].
  - destruct (wo_cancel _ O _ _ _ Hc) as [_ [e He]].
    assert (entry_of tid w' = Some (replaced (cancelled now t) e)) as He'.
    { transitivity (entry_of tid (on_channel tid (replaced (cancelled now t)) w)); [done|].
      by rewrite entry_on_channel, bool_decide_eq_true_2, He. }
    assert (cancel_unsaved tid (cancelled now t) w') as Hu by (by left).
    apply (follows_intro _ _ _ _ He').
    + left. by left.
    + intros r t' last Hr Hp. destruct Hn. split; [by eexists|]. exists r. split; [by eapply entry_run|].
      exists last. right. eauto.
    + intros t'. by intros [[= <-]|[=]].
  - eapply (follows_other id tid (replaced (cancelled now t))); [done|done|done|done|].
    intros t'. unfold cancel_unsaved. cbn [w' with_cancel wd_cancel]. rewrite Hc.
    split; [by intros [[= ? _]|[=]]|by intros [[=]|[=]]].
Qed.

Lemma follows_abort id tid t rows w :
  follows id rows w -> wd_cancel w = Some (tid, t, CRead) ->
  follows id rows (with_cancel (Some (tid, t, CAborted)) (on_server (cancel_abort tid) w)).
Proof.
  intros F Hc. eapply follows_same; [done|done| |].
  - intros t'. unfold cancel_unsaved. cbn [with_cancel wd_cancel]. rewrite Hc. split; by intros [|].
  - intros e'. change (entry_of id (with_cancel (Some (tid, t, CAborted)) (on_server (cancel_abort tid) w)))
      with (entry_of id (on_run tid abort w)).
    unfold on_run. rewrite entry_on_channel. case_bool_decide; [|by eauto].
    destruct (entry_of id w) as [e|]; [|done]. intros [= <-]. exists e. split; [done|].
    destruct (te_run e) as [r|] eqn:Er; [|by eauto]. split; [done|]. right. exists r, (abort r). auto.
Qed.

Lemma follows_told id tid t rows w :
  follows id rows w -> wd_cancel w = Some (tid, t, CReplaced) ->
  follows id rows (with_cancel (Some (tid, t, CTold)) (on_server (update_entry tid (told t)) w)).
Proof.
  intros F Hc. eapply follows_same; [done|done| |].
  - intros t'. unfold cancel_unsaved. cbn [with_cancel wd_cancel]. rewrite Hc.
    split; [intros [[=]|[= <- <-]]; by left|intros [[= <- <-]|[=]]; by right].
  - intros e'. change (entry_of id (with_cancel (Some (tid, t, CTold)) (on_server (update_entry tid (told t)) w)))
      with (entry_of id (on_channel tid (told t) w)).
    rewrite entry_on_channel. case_bool_decide; [|by eauto].
    destruct (entry_of id w) as [e|]; [|done]. intros [= <-]. exists e. eauto.
Qed.

Lemma follows_cancel_saved id tid t mid rows rows' w :
  world_ok w -> follows id rows w -> wd_cancel w = Some (tid, t, CTold) ->
  reads id rows' = told_by (save_call mid t) id (reads id rows) ->
  follows id rows' (with_cancel None (persisted mid t w)).
Proof.
  intros O F Hc Er. destruct (wo_cancel _ O _ _ _ Hc) as [Hid [e He]]. rewrite told_save, Hid in Er.
  destruct (decide (id = tid)) as [->|N].
  - rewrite bool_decide_eq_true_2 in Er by done. assert (t = te_snapshot e) as Et by (apply (fo_cancel _ _ _ F e t He); by right).
    eapply follows_saved; [exact He|exact Er|done| |].
    + intros r t' last. by apply (fo_run _ _ _ F).
    + by intros t' [|].
  - rewrite bool_decide_eq_false_2 in Er by done. eapply follows_same; [done|done| |].
    + intros t'. unfold cancel_unsaved. cbn [with_cancel wd_cancel]. rewrite Hc.
      split; [by intros [|]|by intros [[=]|[= ? _]]].
    + intros e' He'. exists e'. split; [done|]. split; [done|by left].
Qed.

Lemma follows_reads id rows rows' w : follows id rows w -> reads id rows' = reads id rows -> follows id rows' w.
Proof. intros F E. eapply follows_same; [done|done|done|]. intros e He. exists e. eauto. Qed.

Lemma follows_start id params tid fresh now s' rows rows' w :
  world_ok w -> follows id rows w -> channel_of tid w = None -> wd_cancel w = None ->
  start params tid fresh now (wd_server w) = (s', inl tid) ->
  forall log calls, sv_store (wd_server w) = Some log -> sv_store s' = Some (log ++ calls)%list ->
  reads id rows' = told_all calls id (reads id rows) ->
  forall o, follows id rows' {| wd_server := s'; wd_cancel := None; wd_orphans := o |}.
Proof.
  intros O F Hc Hcn Hs log calls Hl Hl' Er o.
  destruct (start_spec _ _ _ _ _ _ (wo_store _ O) Hs) as (gone&context&_&_&Hg&_&_&E).
  rewrite E, Hl in Hl'. injection Hl' as Hl'%app_inv_head. rewrite <- Hl', told_removes in Er. clear Hl'.
  set (e0 := {| te_snapshot := _; te_updates := _; te_run := _ |}) in Hg. set (w' := {| wd_server := s'; wd_cancel := _; wd_orphans := _ |}).
  assert (entry_of id w' = if bool_decide (id = tid) then Some e0 else if contains gone id then None else entry_of id w)
    as He by apply Hg.
  case_bool_decide as Ei.
  - apply (follows_intro _ _ _ e0 He); [left; right; exists new_run; split; [done|by left]|by intros r t l [= <-]|by intros t [|]].
  - destruct (contains gone id); [by apply follows_none|]. eapply follows_same; [done|done| |].
    + intros t. unfold cancel_unsaved. by rewrite Hcn.
    + intros e'. rewrite He. intros He'. exists e'. eauto.
Qed.

Lemma follows_step id rows rows' w w' log calls :
  world_ok w -> follows id rows w -> step w w' -> ~ clash id w' ->
  sv_store (wd_server w) = Some log -> sv_store (wd_server w') = Some (log ++ calls)%list ->
  reads id rows' = told_all calls id (reads id rows) -> follows id rows' w'.
Proof.
  intros O F Hs Hn Hl Hl' Er.
  assert (forall w', sv_store (wd_server w') = Some (log ++ calls)%list ->
    sv_store (wd_server w') = sv_store (wd_server w) -> reads id rows' = reads id rows) as Quiet.
  { intros w1 H1 H2. rewrite H2, Hl in H1. injection H1 as H1. rewrite <- (app_nil_r log) in H1 at 1.
    apply app_inv_head in H1 as <-. exact Er. }
  assert (forall w' mid t, sv_store (wd_server w') = Some (log ++ calls)%list ->
    sv_store (wd_server w') = (fun log => log ++ [save_call mid t])%list <$> sv_store (wd_server w) ->
    reads id rows' = told_by (save_call mid t) id (reads id rows)) as Saved.
  { intros w1 mid t H1 H2. rewrite H2, Hl in H1. injection H1 as H1%app_inv_head. by rewrite <- H1 in Er. }
  destruct Hs as [w params tid fresh now s' Hc Hg Hf Hst|w id' e r mid He Hr Hp|w id' r Hr Hp|w id' e r Hc He Hr Hp Hp'
    |w id' r Hr Hp Ha|w id' r now Hr Hp|w id' r last Hr Hp|w id' r t last mid Hr Hp|w id' r t last Hr Hp|w id' r text Hr Hp
    |w id' r result Hr Hp|w id' r Hr Hp Ha|w id' r result now Hr Hp
    |w rid params d tid current Hc Hd|w tid current Hc|w tid current now Hc|w tid t Hc|w tid t mid Hc].
  - by eapply follows_start.
  - eapply follows_first_save; [done..|by eapply Saved].
  - eapply follows_reads; [|by eapply Quiet]. eapply follows_rest; [done|done|by rewrite Hp|done|done|].
    intros e He. cbv beta. rewrite He. split; [done|]. eexists. by split.
  - eapply follows_reads; [|by eapply Quiet].
    eapply (follows_run id id' _ r); [done|apply run_channel; exists e; by rewrite (entry_channel id' w e)|done|done|done|].
    intros e1 -> He1 Hr1 He1'. eapply follows_same; [done|done|done|]. intros e2. rewrite He1'. intros [= <-].
    exists e1. split; [done|]. rewrite Hr1. split; [done|]. right. exists r, (given_handle r). auto.
  - eapply follows_reads; [|by eapply Quiet]. eapply follows_rest; [done|done|by rewrite Hp|done|done|].
    intros e He. cbv beta. rewrite He. split; [done|]. eexists. by split.
  - eapply follows_reads; [|by eapply Quiet]. eapply follows_change; [done|done|exact Hr|done|].
    intros e He. eexists _, false. split; [unfold set_change, at_phase; cbn [replaced te_run]; by rewrite He|done].
  - eapply follows_reads; [|by eapply Quiet]. by eapply follows_read.
  - eapply follows_save; [done..|by eapply Saved].
  - eapply follows_reads; [|by eapply Quiet]. eapply follows_rest; [done|done|by rewrite Hp|done|done|].
    intros e He. unfold set_tell. rewrite (at_phase_run (told t e) r) by done. split; [done|].
    eexists. split; [done|]. by destruct last.
  - eapply follows_reads; [|by eapply Quiet]. eapply follows_rest; [done|done| |done|done|].
    + by destruct Hp as [-> |[? ->]].
    + intros e He. split; [done|]. exists r. split; [done|]. by destruct Hp as [-> |[? ->]].
  - eapply follows_reads; [|by eapply Quiet]. eapply follows_rest; [done|done|by rewrite Hp|done|done|].
    intros e He. cbv beta. rewrite He. split; [done|]. eexists. by split.
  - eapply follows_reads; [|by eapply Quiet]. eapply follows_rest; [done|done|by destruct Hp as [-> | ->]|done|done|].
    intros e He. cbv beta. rewrite He. split; [done|]. eexists. by split.
  - eapply follows_reads; [|by eapply Quiet]. eapply follows_change; [done|done|exact Hr|done|].
    intros e He. eexists _, true. split; [unfold set_change, at_phase; cbn [replaced te_run]; by rewrite He|done].
  - eapply follows_reads; [|by eapply Quiet]. eapply follows_same; [done|done| |].
    + intros t. unfold cancel_unsaved. cbn [with_cancel wd_cancel]. rewrite Hc. split; by intros [|].
    + intros e He. exists e. eauto.
  - eapply follows_reads; [|by eapply Quiet]. by apply follows_abort.
  - eapply follows_reads; [|by eapply Quiet]. by apply follows_replace.
  - eapply follows_reads; [|by eapply Quiet]. by apply follows_told.
  - eapply follows_cancel_saved; [done|done|exact Hc|by eapply Saved].
Qed.

(** ** Starting over *)

Definition loaded_of (rows : list A2aRow) : list WireTask := loaded_tasks (map parse (map aa_body rows)).

Lemma loaded_ids rows : (forall r, r ∈ rows -> exists t, read_task (aa_body r) = Some t /\ w_id t = aa_id r) ->
  map w_id (loaded_of rows) = map aa_id rows.
Proof.
  unfold loaded_of, loaded_tasks, read_task. induction rows as [|r rows IH]; intros H; [done|].
  destruct (H r) as (t&Ht&Hid); [by left|]. cbn [map omap list_omap]. rewrite Ht. cbn [map]. rewrite Hid. f_equal.
  apply IH. intros r' Hr'. apply H. by right.
Qed.

Lemma loaded_reads rows sub t : rows_ok rows -> (forall r, r ∈ sub -> r ∈ rows) -> t ∈ loaded_of sub ->
  reads (w_id t) rows = Some t.
Proof.
  intros [O R] Hs Ht. unfold loaded_of, loaded_tasks in Ht. apply list_elem_of_omap in Ht as (o&Ho&Ht).
  apply elem_of_map in Ho as (b&->&(r&->&Hr%Hs)%elem_of_map). destruct (R r Hr) as (t'&Ht'&Hid).
  assert (t' = t) as -> by (unfold read_task in Ht'; congruence).
  unfold reads. rewrite (proj2 (body_of_elem rows (w_id t) (aa_body r) O)); [done|eauto].
Qed.

Section Restart.
Context (capabilities : CapabilitySet) (url mid now : string) (rows : list A2aRow) (R : rows_ok rows).
#[local] Abbreviation sub := (newest (Z.of_nat MAX_RETAINED_TASKS) rows).
#[local] Abbreviation again := (restarted capabilities url mid now (map parse (map aa_body sub))).

Lemma sub_drop : sub = drop (length rows - MAX_RETAINED_TASKS)%nat rows.
Proof. rewrite newest_last by (first [apply R|lia]). by rewrite Nat2Z.id. Qed.

Lemma sub_rows r : r ∈ sub -> r ∈ rows.
Proof.
  rewrite sub_drop. intros H. rewrite <- (take_drop (length rows - MAX_RETAINED_TASKS)%nat rows).
  apply elem_of_app. by right.
Qed.

Lemma sub_ids : map w_id (loaded_of sub) = map aa_id sub.
Proof. apply loaded_ids. intros r Hr%sub_rows. by apply R. Qed.

Lemma sub_NoDup : NoDup (map w_id (loaded_of sub)).
Proof.
  rewrite sub_ids, sub_drop. eapply sublist_NoDup; [apply (ao_ids _ (ro_ok _ R))|]. apply map_sublist, sublist_drop.
Qed.

Lemma sub_length : (length (loaded_of sub) <= MAX_RETAINED_TASKS)%nat.
Proof. rewrite <- (length_map w_id), sub_ids, length_map, sub_drop, length_drop. lia. Qed.

Lemma again_ok : world_ok (world_new again).
Proof.
  destruct (restarted_tasks capabilities url mid now _ sub_NoDup) as (O&Rn&L&_&_&_&N).
  apply world_new_ok; [exact O|exact Rn|exact N|]. rewrite length_map in L. pose proof sub_length as Hl.
  unfold loaded_of in Hl. lia.
Qed.

Lemma again_get id e : bt_get id (tm_entries (sv_tasks again)) = Some e ->
  exists t, t ∈ loaded_of sub /\ w_id t = id /\ e = {| te_snapshot := restored now t; te_updates := []; te_run := None |}.
Proof.
  destruct (restarted_tasks capabilities url mid now _ sub_NoDup) as (_&_&_&_&G&N&_). intros He.
  destruct (decide (id ∈ map w_id (map (restored now) (loaded_of sub)))) as [(t'&->&Ht')%elem_of_map|Hn].
  - rewrite (G t' Ht') in He. injection He as <-. apply elem_of_map in Ht' as (t&->&Ht). exists t. by rewrite restored_id.
  - by rewrite (N id Hn) in He.
Qed.

Lemma get_again t : t ∈ loaded_of sub ->
  te_snapshot <$> bt_get (w_id t) (tm_entries (sv_tasks again)) = Some (restored now t).
Proof.
  intros Ht. destruct (restarted_tasks capabilities url mid now _ sub_NoDup) as (_&_&_&_&G&_).
  rewrite <- (restored_id now t). rewrite G; [done|]. apply elem_of_map. eauto.
Qed.

Definition open_tasks : list WireTask := List.filter (fun t => negb (state_settled (w_state t))) (loaded_of sub).

Lemma again_calls : sv_store again = Some (saves mid (map (interrupted now) open_tasks)).
Proof.
  unfold restarted, with_store. rewrite restore_spec. unfold saves, open_tasks, loaded_of.
  by rewrite (map_map (interrupted now)).
Qed.

Lemma open_ids : map w_id (map (interrupted now) open_tasks) = map w_id open_tasks.
Proof. rewrite map_map. by apply map_ext. Qed.

Lemma open_NoDup : NoDup (map w_id open_tasks).
Proof. eapply sublist_NoDup; [exact sub_NoDup|]. apply map_sublist, filter_sublist. Qed.

(** After its calls every task of the restarted server is in the table as it is. *)
Lemma again_follows id rows' :
  (forall id, reads id rows' = told_all (saves mid (map (interrupted now) open_tasks)) id (reads id rows)) ->
  follows id rows' (world_new again).
Proof.
  intros Er. destruct (entry_of id (world_new again)) as [e|] eqn:He; [|by apply follows_none].
  destruct (again_get id e He) as (t&Ht&Hid&->). apply (follows_intro _ _ _ _ He); [|done|by intros t' [|]].
  right. cbn [te_snapshot]. rewrite Er. unfold restored. destruct (state_settled (w_state t)) eqn:Es.
  - exists t. split; [|by left]. rewrite told_saves_other; [rewrite <- Hid; by eapply loaded_reads, Ht; [|apply sub_rows]|].
    rewrite open_ids. intros (t1&E1&[Ht1 Hs1]%elem_of_lfilter)%elem_of_map.
    assert (t1 = t) as -> by (eapply (NoDup_map_same w_id); [exact sub_NoDup|done|done|congruence]).
    by rewrite Es in Hs1.
  - exists (wire_task (interrupted now t)). split; [|by right]. rewrite <- Hid.
    change (w_id t) with (w_id (interrupted now t)). apply told_saves; [rewrite open_ids; exact open_NoDup|].
    apply elem_of_map. exists t. split; [done|]. apply elem_of_lfilter. by rewrite Es.
Qed.
End Restart.

(** ** What lives keep *)

Record life_ok (id : string) (w : World) (s : RuntimeStore) : Prop := {
  li_world : world_ok w;
  li_log : is_Some (sv_store (wd_server w));
  li_rows : exists rows, holds_rows rows s /\ rows_ok rows /\ follows id rows w;
}.

Lemma restart_keeps id rows s capabilities url mid now s1 texts calls clock :
  holds_rows rows s -> rows_ok rows -> a2a_load show (Z.of_nat MAX_RETAINED_TASKS) s = (s1, Ok texts) ->
  sv_store (restarted capabilities url mid now (map parse texts)) = Some calls ->
  life_ok id (world_new (restarted capabilities url mid now (map parse texts))) (make_calls show print clock calls s1).
Proof.
  intros H R Hload Hcalls.
  destruct (load_rows (Z.of_nat MAX_RETAINED_TASKS) rows s H ltac:(by vm_compute)) as [El H1].
  rewrite Hload in El, H1. cbn [fst snd] in El, H1. injection El as ->.
  rewrite again_calls in Hcalls. injection Hcalls as <-.
  set (ts := map (interrupted now) (open_tasks rows)).
  destruct (make_calls_rows (saves mid ts) clock rows s1) as (rows'&H'&R'&E'); [|done|done|].
  { apply list.Forall_forall. intros c (t&->&_)%elem_of_map. apply save_call_ok. }
  split; [by apply again_ok|eexists; by apply again_calls|]. exists rows'. split; [done|]. split; [done|].
  by eapply again_follows.
Qed.

Lemma life_keeps id w s w' s' : life_ok id w s -> calm id (w, s) (w', s') -> life_ok id w' s'.
Proof.
  intros [O [log0 L] (rows&H&R&F)] [Hl Hn].
  inversion Hl as [w0 w1 s0 clock log calls Hs E0 E1|w0 s0 clock capabilities url mid now s1 texts calls Hload Hcalls]; subst.
  - destruct (step_calls w w' log O Hs E0) as (calls'&E&Hc).
    rewrite E in E1. injection E1 as E1. apply app_inv_head in E1 as ->.
    destruct (make_calls_rows calls clock rows s Hc R H) as (rows'&H'&R'&E').
    split; [by eapply world_step|rewrite E; eauto|]. exists rows'. split; [done|]. split; [done|].
    by eapply follows_step.
  - by eapply restart_keeps.
Qed.

Lemma lives_keep id a b : life_ok id a.1 a.2 -> rtc (calm id) a b -> life_ok id b.1 b.2.
Proof.
  intros O H. induction H as [|[w s] [w' s'] b Hl _ IH]; [done|]. apply IH. by eapply life_keeps.
Qed.

Lemma life_start id capabilities url mid now s0 :
  quiet s0 -> db_a2a (store_db s0) = Some [] ->
  life_ok id (world_new (restarted capabilities url mid now [])) s0.
Proof.
  intros Q E. assert (rows_ok []) as R by (split; [split; constructor|by intros r ?%not_elem_of_nil]).
  split; [by apply (again_ok capabilities url mid now [] R)|by eexists|].
  exists []. split; [done|]. split; [done|]. by apply (again_follows capabilities url mid now [] R).
Qed.
End Lives.

(** C11: Through any interleaving of calls, runs, cancellations, evictions and
    saves, each save made some time after the change it is of, and any number of
    restarts, a task that no cancellation and run of its own were about to save
    at once is in the table exactly as the server has it (up to the blanks around
    its texts), unless its save is still to come; and as long as the table holds
    at most 512 rows a server started over from it has the task again: as it was
    when settled, failed and saying so otherwise. *)
Theorem tasks_survive show print parse capabilities url mid now s0 id w s e :
  (forall v, parse (print v) = Some v) ->
  quiet s0 -> db_a2a (store_db s0) = Some [] ->
  rtc (calm show print parse id) (world_new (restarted capabilities url mid now []), s0) (w, s) ->
  entry_of id w = Some e -> ~ unsaved id e w ->
  exists rows body t, db_a2a (store_db s) = Some rows /\
    body_of id rows = Some body /\ read_task parse body = Some t /\
    (t = te_snapshot e \/ t = wire_task (te_snapshot e)) /\
    ((length rows <= MAX_RETAINED_TASKS)%nat -> forall capabilities' url' mid' now' s1 texts,
      a2a_load show (Z.of_nat MAX_RETAINED_TASKS) s = (s1, Ok texts) ->
      te_snapshot <$> bt_get id (tm_entries (sv_tasks (restarted capabilities' url' mid' now' (map parse texts)))) =
        Some (if state_settled (w_state t) then t else interrupted now' t)).
Proof.
  intros Hp Q E Hr He Hu.
  pose proof (lives_keep show print parse Hp id (_, s0) (w, s) (life_start parse id capabilities url mid now s0 Q E) Hr) as Hl.
  destruct Hl as [O _ (rows&H&R&F)]. cbn [fst snd] in *.
  destruct (fo_row _ _ _ _ F e He) as [?|(t&Ht&Hc)]; [done|]. unfold reads in Ht.
  destruct (body_of id rows) as [body|] eqn:Eb; [|done]. exists rows, body, t.
  split_and!; [apply H|done|done|done|]. intros L capabilities' url' mid' now' s1 texts Hload.
  destruct (load_rows show (Z.of_nat MAX_RETAINED_TASKS) rows s H ltac:(by vm_compute)) as [El _].
  rewrite Hload in El. injection El as ->.
  apply body_of_elem in Eb as (r&Hin&Hid&<-); [|apply R].
  destruct (ro_read _ _ R r Hin) as (t'&Ht'&Ht'id). assert (t' = t) as -> by (unfold read_task in *; congruence).
  rewrite <- Hid, <- Ht'id. apply (get_again parse capabilities' url' mid' now' rows R t).
  unfold loaded_of, loaded_tasks. rewrite (sub_drop parse rows R). replace (length rows - MAX_RETAINED_TASKS)%nat with 0%nat by lia.
  rewrite drop_0. apply list_elem_of_omap. exists (parse (aa_body r)). split; [|done].
  apply elem_of_map. eexists. split; [done|]. apply elem_of_map. eauto.
Qed.
