(* ===== verification/StoreLaws.v ===== *)
(** * What the runtime store tells its readers

    The usage dashboards against the tracker a session counts with, and the
    routing history a fresh process loads against the one the last process
    had. *)

From S2P Require Export StoreFacts ScoreFacts.
Open Scope string_scope.
Open Scope Z_scope.

(** ** Sums within 64 bits *)

Lemma as_i64_small n : 0 <= n <= I64_MAX -> as_i64 n = n.
Proof. unfold as_i64, I64_MAX. intros H. destruct (Z.ltb_spec n (2 ^ 63)); lia. Qed.

Lemma is_i64_small n : 0 <= n <= I64_MAX -> is_i64 n = true.
Proof. unfold is_i64. intros H. apply andb_true_iff. split; apply Z.leb_le; lia. Qed.

Lemma as_u64_small n : 0 <= n <= I64_MAX -> as_u64 n = n.
Proof. unfold as_u64, I64_MAX. intros H. apply wrap64_small. unfold is_u64, U64_MAX. lia. Qed.

Lemma sat64_i64 n : 0 <= n <= I64_MAX -> sat64 n = n.
Proof. unfold I64_MAX. intros H. apply sat64_small. unfold is_u64, U64_MAX. lia. Qed.

Lemma sql_add_small a b : 0 <= a -> 0 <= b -> a + b <= I64_MAX -> sql_add (SInt a) b = SInt (a + b).
Proof. intros. cbn [sql_add]. by rewrite is_i64_small by lia. Qed.

(** [SUM] over integers that are not negative and whose sum fits. *)
Lemma sql_sum_small l :
  Forall (fun n => 0 <= n) l -> fold_right Z.add 0 l <= I64_MAX -> sql_sum l = Ok (fold_right Z.add 0 l).
Proof.
  intros Hl. assert (forall acc, 0 <= acc -> acc + fold_right Z.add 0 l <= I64_MAX ->
    fold_left (fun acc n => let? sum := acc in if is_i64 (sum + n) then Ok (sum + n) else Err IntegerOverflow) l (Ok acc)
      = Ok (acc + fold_right Z.add 0 l)) as H.
  { induction Hl as [|n l Hn Hl IH]; intros acc Ha Hs; cbn [fold_left fold_right] in *; [f_equal; lia|].
    assert (0 <= fold_right Z.add 0 l) by (clear -Hl; induction Hl; cbn; lia).
    cbn [result_bind]. rewrite is_i64_small, IH by lia. f_equal. lia. }
  intros Hs. unfold sql_sum. rewrite H by lia. f_equal.
Qed.

Lemma fold_add_sum {A} (f : A -> Z) (g : UsageRecord -> A) l :
  fold_right Z.add 0 (map f (map g l)) = sum_of (fun r => f (g r)) l.
Proof. induction l as [|r l IH]; [done|]. cbn [map fold_right]. by rewrite IH. Qed.

Lemma sum_of_ext f g l : Forall (fun r => f r = g r) l -> sum_of f l = sum_of g l.
Proof. induction 1 as [|r l E _ IH]; [done|]. cbn. rewrite E. f_equal. exact IH. Qed.

Lemma sum_of_filter_le f p l : Forall (fun r => 0 <= f r) l -> sum_of f (List.filter p l) <= sum_of f l.
Proof.
  induction 1 as [|r l Hr _ IH]; [done|]. cbn. unfold sum_of in IH. destruct (p r); cbn; lia.
Qed.

Lemma sum_of_elem_le f l r : Forall (fun r => 0 <= f r) l -> r ∈ l -> f r <= sum_of f l.
Proof.
  induction 1 as [|r' l Hr' Hl IH]; [by intros ?%not_elem_of_nil|].
  pose proof (sum_of_nonneg f l Hl). intros [->|Hr]%elem_of_cons; cbn; [fold (sum_of f l); lia|].
  specialize (IH Hr). fold (sum_of f l). lia.
Qed.

Lemma sum_of_bool p l : sum_of (fun r => of_bool (p r)) l = count_of p l.
Proof.
  unfold count_of. induction l as [|r l IH]; [done|]. cbn [sum_of fold_right List.filter].
  unfold sum_of in IH. rewrite IH. destruct (p r); cbn [of_bool length]; lia.
Qed.

Lemma count_of_bounds p l : 0 <= count_of p l <= Z.of_nat (length l).
Proof. unfold count_of. pose proof (List.filter_length_le p l). lia. Qed.

(** Records whose sums fit the columns they are kept in. *)
Record sums_fit (l : list UsageRecord) : Prop := {
  sf_records : Forall record_ok l;
  sf_count : Z.of_nat (length l) <= U32_MAX;
  sf_input : sum_of (fun r => tu_input (u_tokens r)) l <= I64_MAX;
  sf_output : sum_of (fun r => tu_output (u_tokens r)) l <= I64_MAX;
  sf_cached : sum_of (fun r => tu_cached (u_tokens r)) l <= I64_MAX;
  sf_total : sum_of (fun r => tokens_total (u_tokens r)) l <= I64_MAX;
  sf_latency : sum_of u_latency_ms l <= I64_MAX;
  sf_retries : sum_of u_retry_count l <= I64_MAX;
}.

Lemma record_nonneg r : record_ok r ->
  0 <= tu_input (u_tokens r) /\ 0 <= tu_output (u_tokens r) /\ 0 <= tu_cached (u_tokens r) /\
  0 <= tokens_total (u_tokens r) /\ 0 <= u_latency_ms r /\ 0 <= u_retry_count r.
Proof.
  intros (?&?&?&?&?). unfold is_u64, is_u32 in *. pose proof (sat64_range (tu_input (u_tokens r) + tu_output (u_tokens r))) as H6.
  unfold is_u64 in H6. unfold tokens_total. lia.
Qed.

(** The counters of a record are not negative. *)
Ltac nonneg :=
  let r := fresh in let H := fresh in
  intros r H; destruct (record_nonneg r H) as (?&?&?&?&?&?); assumption.

Lemma records_nonneg (f : UsageRecord -> Z) l :
  (forall r, record_ok r -> 0 <= f r) -> Forall record_ok l -> Forall (fun r => 0 <= f r) l.
Proof. intros Hf Hl. eapply Forall_impl; [exact Hf|exact Hl]. Qed.

Lemma sums_fit_filter p l : sums_fit l -> sums_fit (List.filter p l).
Proof.
  intros [R N S1 S2 S3 S4 S5 S6].
  assert (forall f b, (forall r, record_ok r -> 0 <= f r) -> sum_of f l <= b -> sum_of f (List.filter p l) <= b) as Hb.
  { intros f b Hf Hs. pose proof (sum_of_filter_le f p l (records_nonneg f l Hf R)). lia. }
  split; try (apply Hb; [|done]; nonneg).
  - apply list.Forall_forall. intros r Hr. rewrite list.Forall_forall in R. apply R.
    apply list_elem_of_In, List.filter_In in Hr as [? _]. by apply list_elem_of_In.
  - pose proof (List.filter_length_le p l). lia.
Qed.

(** ** The dashboard's groups *)

Definition with_cost (cost : f64) (t : UsageTotals) : UsageTotals :=
  {| ut_attempts := ut_attempts t; ut_successes := ut_successes t; ut_input_tokens := ut_input_tokens t;
     ut_output_tokens := ut_output_tokens t; ut_cached_tokens := ut_cached_tokens t;
     ut_estimated_cost_usd := cost; ut_attempts_without_pricing := ut_attempts_without_pricing t;
     ut_attempts_with_estimated_tokens := ut_attempts_with_estimated_tokens t;
     ut_total_latency_ms := ut_total_latency_ms t; ut_retries := ut_retries t |}.

Definition cost_or_zero (r : UsageRecord) : f64 :=
  match u_estimated_cost_usd r with Some c => c | None => f64_zero end.

(** A price is a number. *)
Definition cost_ok (r : UsageRecord) : Prop :=
  match u_estimated_cost_usd r with Some c => f64_is_nan c = false | None => True end.

Section Groups.
Context (show : SqlError -> string) (rfc3339 : Z -> string) (real_sum : list f64 -> f64).
#[local] Abbreviation row := (attempt_row rfc3339).

Lemma row_sum (col : AttemptRow -> Z) (f : UsageRecord -> Z) l :
  (forall r, record_ok r -> 0 <= f r) -> (forall r, f r <= I64_MAX -> 0 <= f r -> col (row r) = f r) ->
  Forall record_ok l -> sum_of f l <= I64_MAX -> sql_sum (map col (map row l)) = Ok (sum_of f l).
Proof.
  intros Hf Hc Hl Hs. pose proof (records_nonneg f l Hf Hl) as Hn.
  assert (Forall (fun r => col (row r) = f r) l) as He.
  { apply list.Forall_forall. intros r Hr. pose proof (sum_of_elem_le f l r Hn Hr).
    rewrite list.Forall_forall in Hn. apply Hc; [lia|by apply Hn]. }
  assert (fold_right Z.add 0 (map col (map row l)) = sum_of f l) as E.
  { rewrite fold_add_sum. by apply sum_of_ext. }
  rewrite <- E. apply sql_sum_small; [|lia]. rewrite map_map. apply list.Forall_forall.
  intros n (r&<-&Hr%list_elem_of_In)%list_elem_of_In%in_map_iff. rewrite list.Forall_forall in He, Hn.
  rewrite (He r Hr). by apply Hn.
Qed.

Lemma filter_map_length {A B} (p : B -> bool) (f : A -> B) l :
  length (List.filter p (map f l)) = length (List.filter (fun a => p (f a)) l).
Proof. induction l as [|a l IH]; [done|]. cbn. destruct (p (f a)); cbn; by rewrite IH. Qed.

Lemma filter_count (p q : UsageRecord -> bool) l :
  Forall (fun r => p r = q r) l -> length (List.filter p l) = length (List.filter q l).
Proof. induction 1 as [|r l E _ IH]; [done|]. cbn. rewrite E. destruct (q r); cbn; by rewrite IH. Qed.

Lemma group_totals_spec l :
  sums_fit l -> Forall cost_ok l -> f64_is_nan (real_sum (map cost_or_zero l)) = false ->
  group_totals real_sum (map row l) = Ok (with_cost (real_sum (map cost_or_zero l)) (totals_of l)).
Proof.
  intros [R N S1 S2 S3 S4 S5 S6] C Hr. pose proof (totals_of_spec l R) as [T1 T2 T3 T4 T5 T6 T7 T8 T9 T10].
  assert (forall f, (forall r, record_ok r -> 0 <= f r) -> 0 <= sum_of f l) as Hn.
  { intros f Hf. apply sum_of_nonneg. by apply records_nonneg. }
  assert (map (fun r => match at_cost_usd r with Some c => c | None => f64_zero end) (map row l) = map cost_or_zero l)
    as Ec.
  { rewrite map_map. apply List.map_ext_Forall. eapply Forall_impl; [|exact C]. intros r Hc. unfold cost_ok in Hc.
    unfold cost_or_zero, sql_bind_real. cbn [attempt_row at_cost_usd].
    destruct (u_estimated_cost_usd r) as [c|]; [|done]. unfold sql_bind_real. by rewrite Hc. }
  unfold group_totals. rewrite Ec, Hr.
  rewrite (row_sum at_success (fun r => of_bool (u_success r))); [|by intros r _; destruct (u_success r)|done|done|].
  2:{ rewrite sum_of_bool. pose proof (count_of_bounds u_success l). unfold I64_MAX, U32_MAX in *. lia. }
  rewrite (row_sum at_input_tokens (fun r => tu_input (u_tokens r)));
    [|nonneg|by intros; apply as_i64_small|done|done].
  rewrite (row_sum at_output_tokens (fun r => tu_output (u_tokens r)));
    [|nonneg|by intros; apply as_i64_small|done|done].
  rewrite (row_sum at_cached_tokens (fun r => tu_cached (u_tokens r)));
    [|nonneg|by intros; apply as_i64_small|done|done].
  rewrite (row_sum at_latency_ms u_latency_ms);
    [|nonneg|by intros; apply as_i64_small|done|done].
  rewrite (row_sum at_retry_count u_retry_count); [|nonneg|done|done|done].
  cbn [result_bind]. f_equal. unfold with_cost. rewrite T1, T2, T3, T4, T5, T7, T8, T9, T10.
  rewrite sum_of_bool, length_map, !filter_map_length.
  rewrite !as_u64_small, !sat64_i64 by (split; [apply Hn; nonneg|done]).
  f_equal; f_equal; unfold count_of; f_equal; apply filter_count.
  - eapply Forall_impl; [|exact C]. intros r Hc. unfold cost_ok, priced in *. cbn [attempt_row at_cost_usd].
    destruct (u_estimated_cost_usd r) as [c|]; [|done]. unfold sql_bind_real. by rewrite Hc.
  - apply list.Forall_forall. intros r _. cbn [attempt_row at_tokens_reported]. by destruct (tu_reported (u_tokens r)).
Qed.
End Groups.

(** Maps over the values of a map. *)
Section MapValues.
Context {K V W : Type} `{OrdKey K} (f : V -> W).

Definition bt_map (m : btree K V) : btree K W := map (fun kv => (kv.1, f kv.2)) m.

Lemma bt_map_get k m : bt_get k (bt_map m) = f <$> bt_get k m.
Proof.
  unfold bt_map. induction m as [|[k' v] m IH]; [done|]. cbn [map bt_get fst snd].
  destruct (bool_decide (k = k')); [done|exact IH].
Qed.

Lemma bt_map_insert k v m : bt_map (bt_insert k v m) = bt_insert k (f v) (bt_map m).
Proof.
  unfold bt_map. induction m as [|[k' v'] m IH]; [done|]. cbn [map bt_insert fst snd].
  destruct (key_cmp k k'); cbn [map fst snd]; try done. by rewrite IH.
Qed.

Lemma bt_map_upsert d g d' g' k m :
  (forall o : option V, f (g (match o with Some v => v | None => d end)) =
    g' (match f <$> o with Some w => w | None => d' end)) ->
  bt_map (bt_upsert d g k m) = bt_upsert d' g' k (bt_map m).
Proof. intros E. unfold bt_upsert. by rewrite bt_map_insert, E, bt_map_get. Qed.

Lemma bt_map_keys m : bt_keys (bt_map m) = bt_keys m.
Proof. unfold bt_keys, bt_map. rewrite map_map. by apply map_ext. Qed.
End MapValues.

Section KeyGroups.
Context {K : Type} `{OrdKey K} (key : UsageRecord -> K).

(** The records of every key. *)
Definition groups (l : list UsageRecord) : btree K (list UsageRecord) :=
  fold_left (fun m r => bt_upsert [] (fun g => g ++ [r])%list (key r) m) l [].

Lemma groups_snoc l r : groups (l ++ [r]) = bt_upsert [] (fun g => g ++ [r])%list (key r) (groups l).
Proof. unfold groups. by rewrite fold_left_app. Qed.

Lemma groups_get k l :
  bt_get k (groups l) =
  match List.filter (fun r => bool_decide (key r = k)) l with [] => None | g => Some g end.
Proof.
  induction l as [|r l IH] using rev_ind; [done|]. rewrite groups_snoc, List.filter_app, bt_get_upsert.
  cbn [List.filter]. rewrite (bool_decide_ext (key r = k) (k = key r)) by done.
  destruct (decide (k = key r)) as [->|Hne].
  - rewrite !(bool_decide_eq_true_2 (key r = key r)) by done. rewrite IH.
    by destruct (List.filter _ l).
  - rewrite !bool_decide_eq_false_2 by done. by rewrite app_nil_r.
Qed.

Lemma groups_wf l : bt_wf (groups l).
Proof.
  induction l as [|r l IH] using rev_ind; [constructor|]. rewrite groups_snoc. by apply bt_wf_upsert.
Qed.

Lemma groups_elem k g l : (k, g) ∈ groups l -> g = List.filter (fun r => bool_decide (key r = k)) l.
Proof.
  intros Hg. pose proof (bt_elem_of_get k g _ (bt_wf_NoDup _ (groups_wf l)) Hg) as E.
  rewrite groups_get in E. destruct (List.filter _ l); [done|]. by injection E as <-.
Qed.

Lemma groups_totals l : group_by (fun r => Some (key r)) l = bt_map totals_of (groups l).
Proof.
  induction l as [|r l IH] using rev_ind; [done|]. rewrite groups_snoc, group_by_snoc, IH. symmetry.
  apply bt_map_upsert. intros o. rewrite totals_of_snoc. by destruct o.
Qed.
End KeyGroups.

Lemma grouped_rows rfc3339 label (key : UsageRecord -> string) l :
  (forall r, label (attempt_row rfc3339 r) = key r) ->
  grouped label (map (attempt_row rfc3339) l) = bt_map (map (attempt_row rfc3339)) (groups key l).
Proof.
  intros E. induction l as [|r l IH] using rev_ind; [done|]. rewrite groups_snoc, map_app.
  unfold grouped. rewrite fold_left_app. fold (grouped label (map (attempt_row rfc3339) l)). rewrite IH.
  cbn [map fold_left]. rewrite E. symmetry. apply bt_map_upsert. intros o. rewrite map_app. by destruct o.
Qed.

(** ** Reading *)

Definition answers (s : RuntimeStore) : Prop :=
  rs_poisoned s = false /\ forall e faults, cn_faults (rs_connection s) <> Some e :: faults.

Lemma core_read {A} show name (f : Core -> result (Core * A) SqlError) s core core' a :
  answers s -> db_core (store_db s) = Some core -> f core = Ok (core', a) ->
  (with_connection show (on_core name f) s).2 = Ok a.
Proof.
  intros [P F] E Ef. unfold with_connection. rewrite P. unfold on_core, statement. unfold store_db in E.
  destruct (cn_faults (rs_connection s)) as [|[e|] l]; [|by destruct (F e l)|];
    rewrite E, Ef; done.
Qed.

Lemma collect_map {A B} (f : A -> result B SqlError) (g : A -> B) l :
  (forall a, a ∈ l -> f a = Ok (g a)) -> collect f l = Ok (map g l).
Proof.
  induction l as [|a l IH]; intros E; [done|]. cbn [collect map]. rewrite E by left. cbn [result_bind].
  rewrite IH; [done|]. intros a' Ha'. apply E. by right.
Qed.

(** ** The history a fresh process loads *)

Definition bucket_name (b : BucketId) : string := b.1.1 +:+ BAR +:+ b.1.2 +:+ BAR +:+ b.2.

(** No two buckets have the same name. *)
Definition names_apart (l : list UsageRecord) : Prop := forall r1 r2, r1 ∈ l -> r2 ∈ l ->
  bucket_name (record_bucket r1) = bucket_name (record_bucket r2) -> record_bucket r1 = record_bucket r2.

Lemma record_name r : bucket_name (record_bucket r) = bucket_key (u_agent_id r) (u_model_id r) (u_task_type r).
Proof. done. Qed.

Lemma parse_task_type_debug ty : parse_task_type (task_type_debug ty) = Some ty.
Proof. by destruct ty. Qed.

Lemma sums_of_spec l :
  sums_fit l -> sums_of l =
  match l with
  | [] => None
  | _ => Some (SInt (Z.of_nat (length l)), SInt (count_of u_success l), SInt (sum_of u_latency_ms l),
               SInt (sum_of (fun r => tokens_total (u_tokens r)) l))
  end.
Proof.
  induction l as [|r l IH] using rev_ind; [done|]. intros [R N S1 S2 S3 S4 S5 S6].
  rewrite sums_of_snoc. apply Forall_app in R as [Rl Rr]. apply Forall_inv in Rr.
  destruct (record_nonneg r Rr) as (?&?&?&?&?&?). rewrite length_app in N. rewrite sum_of_app in *.
  assert (forall f, (forall r, record_ok r -> 0 <= f r) -> 0 <= sum_of f l) as Hn.
  { intros f Hf. apply sum_of_nonneg. by apply records_nonneg. }
  pose proof (Hn (fun r => tu_input (u_tokens r)) ltac:(nonneg)).
  pose proof (Hn (fun r => tu_output (u_tokens r)) ltac:(nonneg)).
  pose proof (Hn (fun r => tu_cached (u_tokens r)) ltac:(nonneg)).
  pose proof (Hn (fun r => tokens_total (u_tokens r)) ltac:(nonneg)).
  pose proof (Hn u_latency_ms ltac:(nonneg)). pose proof (Hn u_retry_count ltac:(nonneg)).
  cbn [sum_of fold_right length] in *. rewrite IH by (split; first [done|lia]). clear IH Hn.
  pose proof (count_of_bounds u_success l). unfold U32_MAX, I64_MAX in *.
  destruct (l ++ [r])%list as [|x k] eqn:E; [by destruct l|]. rewrite <- E. clear x k E.
  rewrite length_app, count_of_snoc, !sum_of_app. cbn [sum_of fold_right length].
  unfold sums_snoc. destruct l as [|r0 l]; unfold sums_new, sums_add.
  - rewrite !as_i64_small by (unfold I64_MAX; lia). cbn. rewrite !Z.add_0_r.
    by destruct (u_success r).
  - rewrite !as_i64_small by (unfold I64_MAX; lia).
    rewrite !sql_add_small by (unfold I64_MAX, of_bool in *; first [lia|destruct (u_success r); lia]).
    rewrite Nat2Z.inj_add, !Z.add_0_r. by destruct (u_success r).
Qed.

Lemma NoDup_map_coarser {A B C} (f : A -> B) (g : A -> C) l :
  NoDup (map f l) -> (forall x y, x ∈ l -> y ∈ l -> g x = g y -> f x = f y) -> NoDup (map g l).
Proof.
  induction l as [|a l IH]; cbn [map]; intros D Hi; [apply NoDup_nil_2|].
  apply list.NoDup_cons in D as [Dn D]. apply list.NoDup_cons. split.
  - intros (x&E&Hx)%list_elem_of_In%in_map_iff. apply Dn.
    rewrite (Hi a x); [|by left|right; by apply list_elem_of_In|done].
    by apply list_elem_of_In, in_map.
  - apply IH; [done|]. intros x y Hx Hy. apply Hi; by right.
Qed.

Section Reload.
Context (rfc3339 : Z -> string) (acc : list UsageRecord) (core : Core).
Context (Hok : core_ok rfc3339 acc core) (Hfit : sums_fit acc).

Definition records_of (h : HistoryRow) : list UsageRecord := bucket_records (row_bucket h) acc.

Lemma bucket_records_fit k : sums_fit (bucket_records k acc).
Proof. by apply sums_fit_filter. Qed.

Lemma bucket_row_elem h : h ∈ co_history core -> bucket_row (row_bucket h) (co_history core) = Some h.
Proof.
  pose proof (ck_buckets _ _ _ Hok) as D. unfold bucket_row. induction (co_history core) as [|h' l IH].
  - by intros ?%not_elem_of_nil.
  - cbn [map] in D. apply list.NoDup_cons in D as [Dn D]. cbn [List.find]. intros [->|Hh]%elem_of_cons.
    + by rewrite bool_decide_eq_true_2.
    + rewrite bool_decide_eq_false_2; [by apply IH|]. intros E. apply Dn. rewrite E.
      by apply list_elem_of_In, in_map, list_elem_of_In.
Qed.

(** Every row is of recorded attempts, and holds their sums. *)
Lemma history_row h : h ∈ co_history core ->
  let l := records_of h in
  l <> [] /\ row_sums h = (SInt (Z.of_nat (length l)), SInt (count_of u_success l), SInt (sum_of u_latency_ms l),
               SInt (sum_of (fun r => tokens_total (u_tokens r)) l)) /\
  (forall r, r ∈ l -> r ∈ acc /\ record_bucket r = row_bucket h).
Proof.
  intros Hh l. pose proof (ck_history _ _ _ Hok (row_bucket h)) as E. rewrite bucket_row_elem in E by done.
  cbn in E. fold l in E. unfold l in *. unfold records_of in *.
  rewrite (sums_of_spec _ (bucket_records_fit _)) in E.
  assert (forall r, r ∈ bucket_records (row_bucket h) acc -> r ∈ acc /\ record_bucket r = row_bucket h) as Hr.
  { intros r [Hr Eb%bool_decide_eq_true]%list_elem_of_In%List.filter_In. by split; [apply list_elem_of_In|]. }
  destruct (bucket_records (row_bucket h) acc); [done|]. split_and!; [done|by apply (inj Some) in E|done].
Qed.

Definition row_stats (h : HistoryRow) : AdaptiveStats :=
  let l := records_of h in
  bucket_stats (Z.of_nat (length l)) (count_of u_success l) (sum_of u_latency_ms l)
    (sum_of (fun r => tokens_total (u_tokens r)) l).

Definition read_row (h : HistoryRow) : BucketRow :=
  let l := records_of h in
  (hs_agent_id h, hs_model_id h, hs_task_type h, Z.of_nat (length l), count_of u_success l,
   sum_of u_latency_ms l, sum_of (fun r => tokens_total (u_tokens r)) l).

Lemma read_bucket_row h : h ∈ co_history core -> read_bucket h = Ok (read_row h).
Proof.
  intros Hh. destruct (history_row h Hh) as (_&E&_). unfold row_sums in E. injection E as E1 E2 E3 E4.
  pose proof (bucket_records_fit (row_bucket h)) as [R N S1 S2 S3 S4 S5 S6]. fold (records_of h) in *.
  pose proof (count_of_bounds u_success (records_of h)).
  pose proof (sum_of_nonneg u_latency_ms (records_of h) (records_nonneg u_latency_ms _ ltac:(nonneg) R)).
  pose proof (sum_of_nonneg (fun r => tokens_total (u_tokens r)) (records_of h)
    (records_nonneg (fun r => tokens_total (u_tokens r)) _ ltac:(nonneg) R)).
  unfold read_bucket. rewrite E1, E2, E3, E4. cbn [get_i64 result_bind].
  rewrite !wrap32_small, !as_u64_small by (unfold is_u32; lia). done.
Qed.

Lemma restore_row h m : h ∈ co_history core ->
  restore_bucket m (read_row h) = bt_insert (bucket_name (row_bucket h)) (row_stats h) m.
Proof.
  intros Hh. destruct (history_row h Hh) as (Hne&_&Hr). unfold read_row, restore_bucket.
  destruct (records_of h) as [|r l] eqn:E; [done|]. destruct (Hr r) as [_ Eb]; [by left|].
  unfold row_bucket, record_bucket in Eb. injection Eb as Ea Em Et. rewrite <- Et, parse_task_type_debug.
  unfold history_restore, row_stats. rewrite E. f_equal. unfold bucket_name, bucket_key, row_bucket.
  cbn [fst snd]. rewrite <- Et. by case_bool_decide as Es; [rewrite Es|].
Qed.

Lemma restored_get rows m : (forall h, h ∈ rows -> h ∈ co_history core) ->
  NoDup (map (fun h => bucket_name (row_bucket h)) rows) -> forall k,
  bt_get k (fold_left restore_bucket (map read_row rows) m) =
  match List.find (fun h => bool_decide (bucket_name (row_bucket h) = k)) rows with
  | Some h => Some (row_stats h)
  | None => bt_get k m
  end.
Proof.
  revert m. induction rows as [|h rows IH]; intros m Hin D k; [done|]. cbn [map fold_left List.find].
  cbn [map] in D. apply list.NoDup_cons in D as [Dn D].
  rewrite IH by (try done; intros h' Hh'; apply Hin; by right).
  rewrite restore_row by (apply Hin; by left).
  destruct (decide (bucket_name (row_bucket h) = k)) as [<-|Hne].
  - rewrite (bool_decide_eq_true_2 (bucket_name (row_bucket h) = bucket_name (row_bucket h))) by done.
    destruct (List.find _ rows) as [h'|] eqn:Ef.
    + apply List.find_some in Ef as [Hh' E%bool_decide_eq_true]. destruct Dn. rewrite <- E.
      by apply list_elem_of_In, (in_map (fun h => bucket_name (row_bucket h))).
    + by rewrite bt_get_insert_eq.
  - rewrite (bool_decide_eq_false_2 (bucket_name (row_bucket h) = k)) by done.
    destruct (List.find _ rows); [done|]. apply bt_get_insert_ne. congruence.
Qed.

(** With no two buckets of one name, a bucket is loaded with the counts of the
    records of its name. *)
Lemma restored_counts (Hap : names_apart acc) k :
  let l := List.filter (fun r => bool_decide (bucket_name (record_bucket r) = k)) acc in
  bt_get k (fold_left restore_bucket (map read_row (co_history core)) []) =
  match l with
  | [] => None
  | _ => Some (bucket_stats (Z.of_nat (length l)) (count_of u_success l) (sum_of u_latency_ms l)
                 (sum_of (fun r => tokens_total (u_tokens r)) l))
  end.
Proof.
  intros l. rewrite restored_get; [|done|].
  - destruct (List.find _ _) as [h|] eqn:Ef.
    + apply List.find_some in Ef as [Hh%list_elem_of_In Ek%bool_decide_eq_true].
      destruct (history_row h Hh) as (Hne&_&Hr).
      assert (l = records_of h) as El.
      { unfold l, records_of, bucket_records. apply List.filter_ext_in. intros r Hin%list_elem_of_In.
        apply bool_decide_ext. rewrite <- Ek. split; [|by intros ->]. intros E.
        destruct (records_of h) as [|r0 l0] eqn:E0; [done|]. destruct (Hr r0) as [Ha0 Eb0]; [by left|].
        rewrite <- Eb0 in *. by apply Hap. }
      rewrite El. destruct (records_of h) eqn:E0; [done|]. unfold row_stats. by rewrite E0.
    + destruct l as [|r l0] eqn:El; [done|].
      assert (r ∈ l) as [Hr Ek%bool_decide_eq_true]%list_elem_of_In%List.filter_In by (rewrite El; left).
      pose proof (ck_history _ _ _ Hok (record_bucket r)) as E.
      destruct (bucket_row (record_bucket r) (co_history core)) as [h|] eqn:Eb.
      * apply List.find_some in Eb as [Hh Ebr%bool_decide_eq_true].
        apply (List.find_none _ _ Ef) in Hh. rewrite Ebr in Hh. by rewrite bool_decide_eq_true_2 in Hh.
      * rewrite (sums_of_spec _ (bucket_records_fit _)) in E.
        assert (r ∈ bucket_records (record_bucket r) acc) as Hb.
        { apply list_elem_of_In, List.filter_In. split; [done|by apply bool_decide_eq_true]. }
        destruct (bucket_records (record_bucket r) acc); [by apply not_elem_of_nil in Hb|done].
  - apply (NoDup_map_coarser row_bucket); [apply (ck_buckets _ _ _ Hok)|]. intros h1 h2 H1 H2 E.
    destruct (history_row h1 H1) as (N1&_&R1), (history_row h2 H2) as (N2&_&R2).
    destruct (records_of h1) as [|r1 l1]; [done|]. destruct (records_of h2) as [|r2 l2]; [done|].
    destruct (R1 r1) as [A1 E1]; [by left|]. destruct (R2 r2) as [A2 E2]; [by left|].
    rewrite <- E1, <- E2 in *. by apply Hap.
Qed.
End Reload.

(** The rows the agents' dashboard shows. *)
Definition agent_rows (real_sum : list f64 -> f64) (l : list UsageRecord) : list (string * UsageTotals) :=
  map (fun g => (g.1, with_cost (real_sum (map cost_or_zero
        (List.filter (fun r => bool_decide (u_agent_id r = g.1)) l))) g.2))
    (by_agent {| records := l; rtk_tokens_saved := 0 |}).

Lemma collect_compose {A B C} (f : B -> result C SqlError) (g : A -> B) l :
  collect f (map g l) = collect (fun a => f (g a)) l.
Proof. induction l as [|a l IH]; [done|]. cbn [map collect]. by rewrite IH. Qed.

Lemma agent_rows_read rfc3339 real_sum acc core :
  core_ok rfc3339 acc core -> sums_fit acc -> Forall cost_ok acc ->
  (forall p, f64_is_nan (real_sum (map cost_or_zero (List.filter p acc))) = false) ->
  collect (fun g => let? t := group_totals real_sum g.2 in Ok (g.1, t)) (grouped at_agent_id (co_attempts core))
    = Ok (agent_rows real_sum acc).
Proof.
  intros O F C N. rewrite (ck_attempts _ _ _ O), (grouped_rows rfc3339 at_agent_id u_agent_id) by done.
  unfold bt_map. rewrite collect_compose. cbn [fst snd].
  rewrite (collect_map _ (fun g => (g.1, with_cost (real_sum (map cost_or_zero g.2)) (totals_of g.2)))).
  - f_equal. unfold agent_rows, by_agent. cbn [records]. rewrite (groups_totals u_agent_id). unfold bt_map.
    rewrite map_map. apply List.map_ext_in. intros [k g] Hg%list_elem_of_In%groups_elem. cbn [fst snd]. by rewrite <- Hg.
  - intros [k g] Hg%groups_elem. cbn [fst snd]. subst g. rewrite group_totals_spec; [done|by apply sums_fit_filter| |apply N].
    apply list.Forall_forall. intros r [Hr _]%list_elem_of_In%List.filter_In. rewrite list.Forall_forall in C.
    by apply C, list_elem_of_In.
Qed.

(** ** Routing by a loaded history *)

(** Blending looks at the counts of a bucket only. *)
Lemma blend_counts h1 h2 prior agent model ty w k :
  (fun s => (as_attempts s, as_successes s)) <$> history_stats agent model ty h1 =
  (fun s => (as_attempts s, as_successes s)) <$> history_stats agent model ty h2 ->
  blend h1 prior agent model ty w k = blend h2 prior agent model ty w k.
Proof.
  intros E. unfold blend. destruct (f64_leb _ _); [done|].
  destruct (history_stats agent model ty h1) as [s1|], (history_stats agent model ty h2) as [s2|]; try done.
  injection E as E1 E2. unfold stats_success_rate. by rewrite E1, E2.
Qed.

Lemma stats_of_counts l :
  as_attempts (stats_of l) = wrap32 (Z.of_nat (length l)) /\
  as_successes (stats_of l) = wrap32 (outcomes_where or_success l).
Proof.
  induction l as [|o l [I1 I2]] using rev_ind; [done|]. unfold stats_of in *. rewrite fold_left_app.
  cbn [fold_left stats_record as_attempts as_successes]. unfold outcomes_where in *.
  rewrite I1, I2, List.filter_app, !length_app. split.
  - unfold wrap32. rewrite Z.add_mod_idemp_l by lia. f_equal. cbn. lia.
  - cbn [List.filter]. destruct (or_success o); cbn [length].
    + unfold wrap32. rewrite Z.add_mod_idemp_l by lia. f_equal. lia.
    + by rewrite Nat.add_0_r.
Qed.

(** The outcome a usage record was folded into the history as. *)
Definition outcome_of (r : UsageRecord) (o : OutcomeRecord) : Prop :=
  or_agent_id o = u_agent_id r /\ or_model_id o = u_model_id r /\ or_task_type o = u_task_type r /\
  or_success o = u_success r.

Lemma outcomes_filter k l os :
  Forall2 outcome_of l os ->
  Forall2 outcome_of (List.filter (fun r => bool_decide (bucket_name (record_bucket r) = k)) l)
    (List.filter (in_bucket k) os).
Proof.
  induction 1 as [|r o l os (E1&E2&E3&E4) _ IH]; [constructor|]. cbn [List.filter]. unfold in_bucket at 1.
  rewrite E1, E2, E3, record_name. case_bool_decide; [|done]. constructor; [|done]. by repeat split.
Qed.

Lemma outcomes_counts l os : Forall2 outcome_of l os ->
  length os = length l /\ outcomes_where or_success os = count_of u_success l.
Proof.
  induction 1 as [|r o l os (E1&E2&E3&E4) _ [I1 I2]]; [done|]. split; [cbn; by rewrite I1|].
  unfold outcomes_where, count_of in *. cbn [List.filter]. rewrite E4. destruct (u_success r); cbn [length]; lia.
Qed.

(** A history loaded from the store routes as the one it was recorded with. *)
Lemma loaded_blends rfc3339 acc core os :
  core_ok rfc3339 acc core -> sums_fit acc -> names_apart acc -> Forall2 outcome_of acc os ->
  exists rows, collect read_bucket (co_history core) = Ok rows /\
    forall prior agent model ty w k,
      blend (fold_left restore_bucket rows []) prior agent model ty w k =
      blend (fold_left (fun h o => history_record o h) os []) prior agent model ty w k.
Proof.
  intros O F A Ho. exists (map (read_row acc) (co_history core)). split.
  { apply collect_map. by apply (read_bucket_row rfc3339). }
  intros prior agent model ty w k. apply blend_counts. unfold history_stats.
  rewrite (restored_counts rfc3339 acc core O F A), history_get. set (key := bucket_key agent model ty).
  pose proof (outcomes_filter key acc os Ho) as Hf.
  pose proof (sums_fit_filter (fun r => bool_decide (bucket_name (record_bucket r) = key)) acc F) as Fit.
  destruct (outcomes_counts _ _ Hf) as [E1 E2]. set (l := List.filter _ acc) in *. set (l' := List.filter _ os) in *.
  destruct (stats_of_counts l') as [S1 S2].
  destruct l as [|r l0] eqn:El, l' as [|o l0'] eqn:El'; try done. rewrite <- El, <- El' in *.
  cbn [fmap option_fmap option_map bucket_stats as_attempts as_successes]. rewrite S1, S2, E1, E2.
  pose proof (count_of_bounds u_success l). destruct Fit as [_ N _ _ _ _ _ _].
  by rewrite !wrap32_small by (unfold is_u32; lia).
Qed.
