(* ===== verification/StoreSession.v ===== *)
(** * A session and its record

    What the recorder of a session hears is what the session counts: every
    attempt once, in the order it was counted, and folded into the routing
    history.  Replayed into a store that answers, it leaves the dashboards and
    the reloaded history equal to the session's own. *)

From S2P Require Export StoreLaws SessionFacts.
Open Scope string_scope.
Open Scope Z_scope.

(** ** Computations that count no attempt *)

Definition heard (l : list Recorded) : list UsageRecord :=
  omap (fun r => match r with RecAttempt u => Some u | _ => None end) l.

Arguments heard : simpl never.

Lemma heard_app l k : heard (l ++ k) = (heard l ++ heard k)%list.
Proof. apply omap_app_list. Qed.

(** What the recorder was told meanwhile: [rs] of it attempts. *)
Definition told (s s' : SessionState) (rs : list UsageRecord) : Prop :=
  exists k, sh_recorded s' = (sh_recorded s ++ k)%list /\ heard k = rs.

Lemma told_same s s' : sh_recorded s' = sh_recorded s -> told s s' [].
Proof. intros E. exists []. by rewrite app_nil_r. Qed.

Lemma told_trans s1 s2 s3 rs rs' : told s1 s2 rs -> told s2 s3 rs' -> told s1 s3 (rs ++ rs').
Proof.
  intros (k&E&<-) (k'&E'&<-). exists (k ++ k')%list. split; [by rewrite E', E, app_assoc|apply heard_app].
Qed.

(** No attempt is drawn, counted or reported. *)
Definition same_books (s s' : SessionState) : Prop :=
  told s s' [] /\ records (sh_usage s') = records (sh_usage s) /\
  sh_history s' = sh_history s /\ sh_attempts s' = sh_attempts s.

Definition still {A} (m : M A) : Prop := forall s, same_books s (m s).1.

Lemma same_books_eq s s' :
  sh_recorded s' = sh_recorded s -> sh_usage s' = sh_usage s -> sh_history s' = sh_history s ->
  sh_attempts s' = sh_attempts s -> same_books s s'.
Proof. intros E1 E2 E3 E4. split_and!; [by apply told_same|congruence|done|done]. Qed.

Ltac same := apply same_books_eq; reflexivity.

Lemma same_books_trans s1 s2 s3 : same_books s1 s2 -> same_books s2 s3 -> same_books s1 s3.
Proof. intros (A&?&?&?) (B&?&?&?). split_and!; [exact (told_trans _ _ _ _ _ A B)|congruence..]. Qed.

Lemma still_ret {A} (x : A) : still (ret x).
Proof. intros s. same. Qed.

Lemma still_bind {A B} (m : M A) (k : A -> M B) : still m -> (forall x, still (k x)) -> still (bind m k).
Proof.
  intros Hm Hk s. unfold bind. specialize (Hm s). destruct (m s) as [s1 x].
  eapply same_books_trans; [exact Hm|apply Hk].
Qed.

Lemma still_gets {A} (f : SessionState -> A) : still (gets f).
Proof. intros s. same. Qed.

Lemma still_modify f : (forall s, same_books s (f s)) -> still (modify f).
Proof. intros H s. apply H. Qed.

Lemma still_for_all {A} (f : A -> M unit) l : (forall x, still (f x)) -> still (for_all f l).
Proof. intros Hf. induction l as [|x l IH]; [by apply still_ret|]. by apply still_bind. Qed.

Create HintDb still discriminated.
#[export] Hint Resolve still_gets still_ret : still.
#[export] Hint Extern 1 (still (modify _)) => (apply still_modify; intros; same) : still.

Ltac still :=
  repeat first
    [ progress auto with still nocore
    | apply still_bind; [|intros ?]
    | apply still_for_all; intros ?
    | case_match ].

Lemma still_now wall : still (now wall).
Proof. intros s. same. Qed.
#[export] Hint Resolve still_now : still.

Lemma still_publish wall session t k : still (publish wall session t k).
Proof. unfold publish, publish_event. still. Qed.

Lemma still_publish_attempt wall session t a k : still (publish_attempt wall session t a k).
Proof. unfold publish_attempt, publish_event. still. Qed.

Lemma still_publish_session wall session k : still (publish_session wall session k).
Proof. unfold publish_session, publish_event. still. Qed.

Lemma still_tell r : heard [r] = [] -> still (tell r).
Proof.
  intros E s. split_and!; try done. by exists [r].
Qed.
#[export] Hint Resolve still_publish still_publish_attempt still_publish_session : still.
#[export] Hint Extern 1 (still (tell _)) => (apply still_tell; reflexivity) : still.

Section Task.
Context (wall clock : nat -> Z) (attempt_id : nat -> AttemptId) (elapsed : nat -> Z) (rng : nat -> Rng).
Context {C : Type} `{!ContextManager C} {P : Type} `{!Planner P}.
Context (config : Config) (workspace : string) (planner : P) (context_manager : C).
Context (adapters : btree AgentId AgentAdapter) (memory : option MemoryStore).
Context (guidance : option (CapabilitySet -> list SkillGuide)) (git : Git) (session : SessionId).

Lemma still_emit r k : still (emit wall session r k).
Proof. unfold emit. still. Qed.

Lemma still_route t l : still (route_task clock config t l).
Proof. intros s. unfold route_task. destruct (route _ _ _ _ _). same. Qed.

Lemma still_breakers {A} (f : Z -> CircuitBreakerRegistry -> CircuitBreakerRegistry * A) :
  still (on_breakers clock f).
Proof. intros s. unfold on_breakers. destruct (f _ _). same. Qed.

Lemma still_recall t : still (recall_for_task config memory t).
Proof. unfold recall_for_task. still. Qed.

Lemma still_remember t a : still (remember_success memory t a).
Proof. unfold remember_success. still. Qed.
Hint Resolve still_emit still_route still_breakers still_recall still_remember : still.

Lemma still_fail_task reason r : still (fail_task wall session reason r).
Proof. unfold fail_task. still. Qed.
Hint Resolve still_fail_task : still.

Lemma still_fail_run reason r : still (fail_run wall session reason r).
Proof. unfold fail_run. still. Qed.
Hint Resolve still_fail_run : still.

Lemma still_note p class reason r : still (note_failure wall clock session p class reason r).
Proof. unfold note_failure. still. Qed.

Lemma still_deliver agent r : still (deliver_handoff wall memory session agent r).
Proof. unfold deliver_handoff. still. Qed.

Lemma still_succeed p o tokens r : still (succeed wall memory session p o tokens r).
Proof. unfold succeed. still. Qed.

Lemma still_replan task reason r : still (replan_run wall planner session task reason r).
Proof.
  intros s. unfold replan_run. destruct (replan _ _ _ _ _) as [n [[[g|]|e]|]]; try same.
Qed.
Hint Resolve still_note still_deliver still_succeed still_replan : still.

Lemma still_decide task p class r : still (decide_next wall clock rng config planner session task p class r).
Proof. unfold decide_next, retry, reroute. still. Qed.
Hint Resolve still_decide : still.

Lemma still_fail_attempt p o tokens class reason r :
  still (fail_attempt wall clock rng config planner session p o tokens class reason r).
Proof. unfold fail_attempt. still. Qed.

Lemma still_settle outcome r : still (settle wall git session outcome r).
Proof. unfold settle. still. Qed.

Lemma still_prepare r : still (prepare config workspace memory git r).
Proof. unfold prepare. still. Qed.
Hint Resolve still_fail_attempt : still.

(** ** What a step of a task books *)

(** The same attempts, [rs], are heard, counted and folded into the history. *)
Definition booked (s s' : SessionState) (rs : list UsageRecord) : Prop :=
  told s s' rs /\
  records (sh_usage s') = (records (sh_usage s) ++ rs)%list /\
  Forall (fun r => u_session_id r = session) rs /\
  exists os, Forall2 outcome_of rs os /\
    sh_history s' = fold_left (fun h o => history_record o h) os (sh_history s).

Lemma booked_same s s' : same_books s s' -> booked s s' [].
Proof.
  intros (E1&E2&E3&_). split_and!; rewrite ?app_nil_r; try done. exists []. by split; [constructor|].
Qed.

Lemma booked_trans s1 s2 s3 rs rs' : booked s1 s2 rs -> booked s2 s3 rs' -> booked s1 s3 (rs ++ rs').
Proof.
  intros (A1&A2&A3&os&A4&A5) (B1&B2&B3&os'&B4&B5). split_and!.
  - by eapply told_trans.
  - by rewrite B2, A2, app_assoc.
  - by apply List.Forall_app.
  - exists (os ++ os')%list. split; [by apply Forall2_app|]. by rewrite fold_left_app, <- A5.
Qed.

Lemma record_attempt_booked p tokens cost ok class n s :
  let s' := (Attempt.record_attempt wall session p tokens cost ok class n s).1 in
  sh_attempts s' = sh_attempts s /\ exists r, booked s s' [r] /\ u_attempt_id r = p_attempt_id p.
Proof.
  unfold Attempt.record_attempt, publish_attempt, publish_event, now, tell, bind, gets, modify. cbn.
  split; [done|].
  pose (c := match cost with Some _ => cost | None => estimated_cost (sh_agents s) (p_agent p) (p_model p) tokens end).
  exists (usage_record session p tokens c cost ok class n). split; [|done]. split_and!.
  - by exists [RecAttempt (usage_record session p tokens c cost ok class n)].
  - reflexivity.
  - by repeat constructor.
  - exists [outcome_record (wall (sh_reads s)) p tokens c ok class n]. split; [|reflexivity].
    constructor; [|constructor]. by destruct ok.
Qed.

(** The attempt a run waits for. *)
Definition live (r : Run) : list AttemptId :=
  match r_phase r with Waiting p => [p_attempt_id p] | _ => [] end.

(** What the run that is answered waits for. *)
Definition leaves (l : list AttemptId) (m : M Run) : Prop := forall s, live (m s).2 = l.
#[local] Abbreviation idle m := (leaves [] m).

Lemma leaves_bind {A} l (m : M A) (k : A -> M Run) : (forall x, leaves l (k x)) -> leaves l (bind m k).
Proof. intros Hk s. unfold bind. destruct (m s) as [s1 x]. apply Hk. Qed.

Lemma leaves_ret l r : live r = l -> leaves l (ret r).
Proof. by intros E s. Qed.

Ltac idle :=
  repeat first
    [ apply leaves_ret; reflexivity
    | apply leaves_bind; intros ?
    | case_match ].

Lemma idle_fail_run reason r : idle (fail_run wall session reason r).
Proof. unfold fail_run. idle. Qed.

Lemma idle_decide task p class r : idle (decide_next wall clock rng config planner session task p class r).
Proof.
  unfold decide_next, retry, reroute. apply leaves_bind. intros x. destruct (retry_decide _ _ _ _ _ _); idle.
  intros s. unfold replan_run. destruct (replan _ _ _ _ _) as [n [[[g|]|e]|]]; done.
Qed.

Lemma idle_fail_attempt p o tokens class reason r :
  idle (fail_attempt wall clock rng config planner session p o tokens class reason r).
Proof.
  unfold fail_attempt. apply leaves_bind. intros _. destruct (graph_get _ _); [|by apply leaves_ret].
  cbv zeta. destruct (graph_get _ _); [apply idle_decide|by apply leaves_ret].
Qed.

(** One more attempt is drawn, and the run waits for it. *)
Definition draws (m : M Run) : Prop := forall s,
  let '(s', r) := m s in
  told s s' [] /\ records (sh_usage s') = records (sh_usage s) /\
  sh_history s' = sh_history s /\ sh_attempts s' = S (sh_attempts s) /\ live r = [attempt_id (sh_attempts s)].

Lemma draws_bind {A} (m : M A) (k : A -> M Run) : still m -> (forall x, draws (k x)) -> draws (bind m k).
Proof.
  intros Hm Hk s. unfold bind. destruct (Hm s) as (E1&E2&E3&E4). destruct (m s) as [s1 x].
  cbn [fst] in *. specialize (Hk x s1). destruct (k x s1) as [s2 r]. destruct Hk as (F1&F2&F3&F4&F5).
  rewrite E2, E3, E4 in *. split_and!; [exact (told_trans _ _ _ _ _ E1 F1)|done..].
Qed.

Lemma start_attempt_draws task d r :
  draws (start_attempt wall attempt_id elapsed config context_manager adapters memory guidance session task d r).
Proof.
  unfold start_attempt. apply draws_bind; [still|intros _]. apply draws_bind; [still|intros _].
  apply draws_bind; [still|intros r']. intros s. unfold bind at 1, gets at 1. unfold bind at 1, modify at 1.
  match goal with |- let '(_, _) := ?m _ in _ => assert (still m) as Hs by still;
    assert (leaves [attempt_id (sh_attempts s)] m) as Hl end.
  { apply leaves_bind. intros started. apply leaves_bind. intros _. apply leaves_bind. intros request.
    destruct (adapter_answer _ _ _ _) as [result chunks]. by apply leaves_ret. }
  specialize (Hs (put_attempts (S (sh_attempts s)) s)). specialize (Hl (put_attempts (S (sh_attempts s)) s)).
  destruct Hs as (E1&E2&E3&E4). destruct (bind _ _ _) as [s' r'']. cbn [fst snd] in *. done.
Qed.

Lemma react_books p r s :
  let '(s', r') := react wall clock rng config planner memory session p r s in
  sh_attempts s' = sh_attempts s /\ live r' = [] /\
  exists u, booked s s' [u] /\ u_attempt_id u = p_attempt_id p.
Proof.
  unfold react, bind at 1.
  pose proof (still_for_all (fun chunk => emit wall session r (AgentOutputReceived chunk)) (p_chunks p)
    ltac:(intros; apply still_emit) s) as H1.
  destruct (for_all _ _ s) as [s1 u1]. destruct (judge (p_result p)) as [outcome failure] eqn:Ej.
  unfold bind at 1. pose proof (record_attempt_booked p
    (match outcome with Some o => oc_tokens o | None => tokens_estimated 0 0 end)
    (match outcome with Some o => oc_reported_cost_usd o | None => None end)
    (match failure with None => true | Some _ => false end) (fst <$> failure) (r_on_target r) s1) as (E2&u&B2&Eu).
  destruct (Attempt.record_attempt _ _ _ _ _ _ _ _ s1) as [s2 u2].
  match goal with |- let '(_, _) := ?m s2 in _ => assert (still m /\ leaves [] m) as [H3 L3] end.
  { destruct failure as [[class reason]|].
    - split; [apply still_fail_attempt|apply idle_fail_attempt].
    - destruct outcome as [o|]; [split; [apply still_succeed|]|].
      + unfold succeed. by repeat (apply leaves_bind; intros ?); apply leaves_ret.
      + exfalso. unfold judge in Ej. destruct (p_result p) as [o|e]; [by destruct (oc_success o)|done]. }
  specialize (H3 s2). specialize (L3 s2).
  match goal with |- let '(_, _) := ?x in _ => destruct x as [s3 r3] end. cbn [fst snd] in *.
  split; [|split; [done|]].
  - destruct H1 as (_&_&_&E1), H3 as (_&_&_&E3). congruence.
  - exists u. split; [|done]. apply booked_same in H1. apply booked_same in H3.
    pose proof (booked_trans _ _ _ _ _ (booked_trans _ _ _ _ _ H1 B2) H3) as B. exact B.
Qed.

Lemma select_books r s :
  let '(s', r') := select wall clock attempt_id elapsed config context_manager adapters memory guidance session r s in
  (same_books s s' /\ live r' = []) \/
  (told s s' [] /\ records (sh_usage s') = records (sh_usage s) /\
   sh_history s' = sh_history s /\ sh_attempts s' = S (sh_attempts s) /\ live r' = [attempt_id (sh_attempts s)]).
Proof.
  assert (forall m, still m -> leaves [] m -> let '(s', r') := m s in same_books s s' /\ live r' = []) as Hq.
  { intros m Hs Hl. specialize (Hs s). specialize (Hl s). by destruct (m s). }
  unfold select. destruct (graph_get _ _) as [task|];
    [|pose proof (Hq (ret (finish (Ok false) r)) ltac:(still) ltac:(idle)) as H; cbn in *; by left].
  destruct (_ <=? _).
  { pose proof (Hq (fail_run wall session "retry budget exhausted" r) ltac:(apply still_fail_run)
      ltac:(apply idle_fail_run)) as H. destruct (fail_run _ _ _ _ s). by left. }
  unfold bind at 1. pose proof (still_route task (r_abandoned r) s) as H1.
  destruct (route_task _ _ _ _ s) as [s1 [d|e]]; cbn [fst] in H1.
  - pose proof (start_attempt_draws task d r s1) as H. destruct (start_attempt _ _ _ _ _ _ _ _ _ _ _ _ s1) as [s2 r2].
    right. destruct H1 as (E1&E2&E3&E4), H as (F1&F2&F3&F4&F5). rewrite E2, E3, E4 in *.
    split_and!; [exact (told_trans _ _ _ _ _ E1 F1)|done..].
  - match goal with |- let '(_, _) := ?m s1 in _ => assert (still m) as Hs by (still; apply still_fail_run);
      assert (leaves [] m) as Hl by (apply leaves_bind; intros ?; apply idle_fail_run) end.
    specialize (Hs s1). specialize (Hl s1). match goal with |- let '(_, _) := ?x in _ => destruct x end.
    left. split; [by eapply same_books_trans|done].
Qed.

(** A step books the attempt the task waited for, or draws the next, or
    neither. *)
Lemma step_books r s :
  let '(s', r') := run_step wall clock attempt_id elapsed rng config workspace planner context_manager adapters
    memory guidance git session r s in
  exists rs, booked s s' rs /\
    ((sh_attempts s' = sh_attempts s /\ (map u_attempt_id rs ++ live r')%list = live r) \/
     (rs = [] /\ live r = [] /\ sh_attempts s' = S (sh_attempts s) /\ live r' = [attempt_id (sh_attempts s)])).
Proof.
  assert (forall m, still m -> leaves [] m -> live r = [] -> let '(s', r') := m s in
    exists rs, booked s s' rs /\
      ((sh_attempts s' = sh_attempts s /\ (map u_attempt_id rs ++ live r')%list = live r) \/
       (rs = [] /\ live r = [] /\ sh_attempts s' = S (sh_attempts s) /\ live r' = [attempt_id (sh_attempts s)]))) as Hq.
  { intros m Hs Hl Er. specialize (Hs s). specialize (Hl s). destruct (m s) as [s' r']. exists []. cbn in *.
    split; [by apply booked_same|]. left. split; [apply Hs|]. by rewrite Hl, Er. }
  unfold run_step, live in *. destruct (r_phase r) as [| |p|outcome|f|] eqn:Ep.
  - apply Hq; [apply still_prepare|unfold prepare; idle|done].
  - pose proof (select_books r s) as H. destruct (select _ _ _ _ _ _ _ _ _ _ r s) as [s' r'].
    exists []. destruct H as [[H L]|(E1&E2&E3&E4&L)].
    + split; [by apply booked_same|]. left. split; [apply H|exact L].
    + split; [|by right]. split_and!; rewrite ?app_nil_r; try done. exists []. by split; [constructor|].
  - pose proof (react_books p r s) as H. destruct (react _ _ _ _ _ _ _ _ _ s) as [s' r'].
    destruct H as (E&L&u&B&Eu). exists [u]. split; [done|]. left. split; [done|]. unfold live in L.
    rewrite L. cbn. by rewrite Eu.
  - apply Hq; [apply still_settle|unfold settle; idle|done].
  - exists []. split; [apply booked_same; same|]. left. by rewrite Ep.
  - exists []. split; [apply booked_same; same|]. left. by rewrite Ep.
Qed.
End Task.

(** ** Identifiers drawn and booked *)

(** Attempt identifiers, each once, among those drawn since the [n0]th. *)
Definition drawn_once (attempt_id : nat -> AttemptId) (n0 : nat) (ids : list AttemptId) (n : nat) : Prop :=
  (n0 <= n)%nat /\ NoDup ids /\ forall a, a ∈ ids -> exists i, (n0 <= i < n)%nat /\ a = attempt_id i.

Lemma drawn_once_perm attempt_id n0 ids ids' n :
  Permutation ids ids' -> drawn_once attempt_id n0 ids n -> drawn_once attempt_id n0 ids' n.
Proof.
  intros Hp (H&D&I). split; [done|]. split; [by rewrite <- Hp|]. intros a. rewrite <- Hp. apply I.
Qed.

Lemma drawn_once_app attempt_id n0 ids ids' n :
  drawn_once attempt_id n0 (ids ++ ids') n -> drawn_once attempt_id n0 ids n.
Proof.
  intros (H&D&I). split; [done|]. split; [by apply list.NoDup_app in D as [? _]|].
  intros a Ha. apply I, elem_of_app. by left.
Qed.

Lemma drawn_once_next attempt_id `{!Inj (=) (=) attempt_id} n0 ids n :
  drawn_once attempt_id n0 ids n -> drawn_once attempt_id n0 (ids ++ [attempt_id n]) (S n).
Proof.
  intros (H&D&I). split; [lia|]. split.
  - apply list.NoDup_app. split; [done|]. split; [|apply NoDup_singleton].
    intros a Ha ->%list_elem_of_singleton. destruct (I _ Ha) as (i&Hi&E). apply (inj attempt_id) in E. lia.
  - intros a [Ha| ->%list_elem_of_singleton]%elem_of_app; [|exists n; split; [lia|done]].
    destruct (I a Ha) as (i&Hi&->). exists i. split; [lia|done].
Qed.

Definition lives (runs : list Run) : list AttemptId := concat (map live runs).

Lemma lives_lookup runs i r : runs !! i = Some r ->
  exists rest, Permutation (lives runs) (live r ++ rest) /\
    forall r', Permutation (lives (<[i := r']> runs)) (live r' ++ rest).
Proof.
  intros H. exists (lives (take i runs) ++ lives (drop (S i) runs))%list.
  assert (forall l k, lives (l ++ k) = (lives l ++ lives k)%list) as Ha.
  { intros l k. unfold lives. by rewrite map_app, concat_app. }
  assert (forall x, lives (take i runs ++ x :: drop (S i) runs) ≡ₚ (live x ++ lives (take i runs) ++ lives (drop (S i) runs))%list)
    as Hm.
  { intros x. rewrite Ha. change (lives (x :: drop (S i) runs)) with (live x ++ lives (drop (S i) runs))%list.
    rewrite !app_assoc. f_equiv. apply Permutation_app_comm. }
  split.
  - rewrite <- Hm. by rewrite take_drop_middle.
  - intros r'. rewrite <- Hm, insert_take_drop; [done|]. by eapply lookup_lt_Some.
Qed.

Section Session.
Context (wall clock : nat -> Z) (attempt_id : nat -> AttemptId) (elapsed : nat -> Z) (rng : nat -> Rng).
Context {C : Type} `{!ContextManager C} {P : Type} `{!Planner P}.
Context (config : Config) (workspace : string) (planner : P) (context_manager : C).
Context (adapters : btree AgentId AgentAdapter) (memory : option MemoryStore).
Context (guidance : option (CapabilitySet -> list SkillGuide)) (git : Git) (session : SessionId).
Context (alphanumeric : Z -> bool) (index : option WorkspaceIndex).
Context `{!Inj (=) (=) attempt_id} (n0 : nat).
#[local] Abbreviation step := (run_step wall clock attempt_id elapsed rng config workspace planner
  context_manager adapters memory guidance git session).
#[local] Abbreviation run_wave := (run_wave wall clock attempt_id elapsed rng config workspace planner
  context_manager adapters memory guidance git session).
#[local] Abbreviation drawn := (drawn_once attempt_id n0).
#[local] Abbreviation ids l := (map u_attempt_id l).

(** Whatever [m] draws it books at most once. *)
Definition books {A} (m : M A) : Prop := forall s rs0, drawn (ids rs0) (sh_attempts s) ->
  exists rs, booked session s (m s).1 rs /\ drawn (ids (rs0 ++ rs)) (sh_attempts (m s).1).

Lemma books_still {A} (m : M A) : still m -> books m.
Proof.
  intros Hm s rs0 D. exists []. split; [by apply booked_same|]. rewrite app_nil_r.
  destruct (Hm s) as (_&_&_&->). done.
Qed.

Lemma books_bind {A B} (m : M A) (k : A -> M B) : books m -> (forall x, books (k x)) -> books (bind m k).
Proof.
  intros Hm Hk s rs0 D. destruct (Hm s rs0 D) as (rs&B1&D1). unfold bind. destruct (m s) as [s1 x]. cbn [fst] in *.
  destruct (Hk x s1 (rs0 ++ rs)%list D1) as (rs'&B2&D2). exists (rs ++ rs')%list.
  split; [by eapply booked_trans|]. by rewrite app_assoc.
Qed.

Lemma run_wave_books fuel pick : forall runs s rs0,
  drawn (ids rs0 ++ lives runs) (sh_attempts s) ->
  exists rs, booked session s (run_wave fuel pick runs s).1 rs /\
    drawn (ids (rs0 ++ rs)) (sh_attempts (run_wave fuel pick runs s).1).
Proof.
  induction fuel as [|fuel IH]; intros runs s rs0 D.
  all: assert (exists rs, booked session s s rs /\ drawn (ids (rs0 ++ rs)) (sh_attempts s)) as Hend
    by (exists []; split; [apply booked_same; same|rewrite app_nil_r; by apply drawn_once_app in D]).
  { cbn [Orchestrator.run_wave]. by destruct (unfinished runs). }
  cbn [Orchestrator.run_wave]. destruct (unfinished runs) as [|x l]; [done|].
  set (i := List.nth _ _ _). destruct (runs !! i) as [r|] eqn:Er; [|done].
  destruct (lives_lookup runs i r Er) as (rest&Hp&Hp'). unfold bind.
  pose proof (step_books wall clock attempt_id elapsed rng config workspace planner context_manager adapters memory
    guidance git session r s) as Hs. destruct (step r s) as [s1 r'].
  destruct Hs as (rs&B&Hs).
  assert (drawn (ids (rs0 ++ rs) ++ lives (<[i:=r']> runs)) (sh_attempts s1)) as D1.
  { destruct Hs as [[-> El]|(->&El&->&El')].
    - eapply drawn_once_perm; [|exact D]. rewrite map_app, <- app_assoc, Hp, Hp', <- El. by rewrite !app_assoc.
    - rewrite app_nil_r. eapply drawn_once_perm; [|by apply drawn_once_next].
      rewrite Hp, Hp', El, El'. cbn [app]. rewrite <- app_assoc. apply Permutation_app_head, Permutation_app_comm. }
  destruct (IH (<[i:=r']> runs) s1 (rs0 ++ rs)%list D1) as (rs'&B2&D2). exists (rs ++ rs')%list.
  split; [by eapply booked_trans|]. by rewrite app_assoc.
Qed.

Lemma lives_start graph admitted : lives (map (start_run workspace graph) admitted) = [].
Proof. unfold lives. induction admitted as [|id l IH]; [done|exact IH]. Qed.

Lemma still_fail_in_graph id graph : still (fail_in_graph wall session id graph).
Proof. unfold fail_in_graph, announce_skipped. still. Qed.
Hint Resolve still_fail_in_graph : still.

Lemma still_fold_result alone r graph : still (fold_result wall session alone r graph).
Proof. unfold fold_result. still. Qed.
Hint Resolve still_fold_result : still.

Lemma still_fold_results alone runs : forall graph, still (fold_results wall session alone runs graph).
Proof. induction runs as [|r runs IH]; intros graph; cbn [fold_results]; still. Qed.

Lemma still_drop_claims l : still (drop_claims l).
Proof. unfold drop_claims. still. Qed.
Hint Resolve still_fold_results still_drop_claims : still.

Lemma wave_books pick graph ready :
  books (wave wall clock attempt_id elapsed rng config workspace planner context_manager adapters memory guidance
    git session alphanumeric index pick graph ready).
Proof.
  unfold wave. apply books_bind; [apply books_still; still|]. intros ledger.
  destruct (admit_concurrently alphanumeric index graph ready ledger) as [ledger' admitted].
  apply books_bind; [apply books_still; still|]. intros _. apply books_bind.
  - intros s rs0 D. apply run_wave_books. by rewrite lives_start, app_nil_r.
  - intros [runs|]; apply books_still; still.
Qed.

Lemma waves_books passes pick : forall graph,
  books (waves wall clock attempt_id elapsed rng config workspace planner context_manager adapters memory guidance
    git session alphanumeric index passes pick graph).
Proof.
  induction passes as [|passes IH]; intros graph; cbn [waves]; [apply books_still; still|].
  destruct (graph_complete graph); [apply books_still; still|].
  destruct (next_wave config graph) as [|t l]; [apply books_still; still|].
  apply books_bind; [apply wave_books|]. intros [g|]; [apply IH|apply books_still; still].
Qed.

Lemma still_plan_goal goal : still (plan_goal config workspace planner memory goal).
Proof.
  unfold plan_goal. apply still_bind; [still|]. intros memories s.
  destruct (plan _ _ _ _) as [n [[g|e]|]]; same.
Qed.

(** A session begins by announcing itself, and books what it draws. *)
Lemma session_books pick goal s rs0 :
  drawn (ids rs0) (sh_attempts s) ->
  let s' := (run_session wall clock attempt_id elapsed rng config workspace planner context_manager adapters memory
    guidance git session alphanumeric index pick goal s).1 in
  exists k, sh_recorded s' = (sh_recorded s ++ RecSessionStarted goal :: k)%list /\
    booked session s s' (heard k) /\ drawn (ids (rs0 ++ heard k)) (sh_attempts s').
Proof.
  intros D s'. unfold run_session in (value of s'). unfold bind at 1 in (value of s').
  set (s1 := (tell (RecSessionStarted goal) s).1) in (value of s').
  assert (sh_recorded s1 = (sh_recorded s ++ [RecSessionStarted goal])%list) as E1 by done.
  assert (same_books s s1) as H1 by (unfold s1; by apply still_tell).
  assert (drawn (ids rs0) (sh_attempts s1)) as D1 by done.
  change (tell (RecSessionStarted goal) s) with (s1, tt) in (value of s'). lazy beta iota in (value of s').
  match goal with s' := (?m s1).1 |- _ => change m with (id m) in (value of s'); set (rest := id m) in (value of s');
    assert (books rest) as Hb end.
  { unfold rest, id. apply books_bind; [apply books_still; still|]. intros _.
    apply books_bind; [apply books_still, still_plan_goal|]. intros [[g|e]|]; try solve [apply books_still; still].
    apply books_bind; [apply books_still; still|]. intros _.
    apply books_bind; [apply waves_books|]. intros [g'|]; apply books_still; still. }
  destruct (Hb s1 rs0 D1) as (rs&B&D2). change (rest s1).1 with s' in B, D2.
  pose proof B as ((k&Ek&Hk)&_). exists k. split; [by rewrite Ek, E1, <- app_assoc|].
  rewrite Hk. split; [|done]. pose proof (booked_trans session _ _ _ _ _ (booked_same session _ _ H1) B) as Bt.
  exact Bt.
Qed.
End Session.

(** ** The recorder over a store that answers *)

(** Without faults ahead, none are ahead afterwards. *)
Definition calm {A} (m : Sql A) : Prop := forall c, cn_faults c = [] -> cn_faults (m c).1 = [].

Lemma calm_statement {A} (f : Database -> result (Database * A) SqlError) : calm (statement f).
Proof. intros c E. unfold statement. rewrite E. by destruct (f (cn_db c)) as [[db a]|e]. Qed.

Lemma calm_bind {A B} (m : Sql A) (k : A -> Sql B) : calm m -> (forall a, calm (k a)) -> calm (sql_bind m k).
Proof.
  intros Hm Hk c E. unfold sql_bind. specialize (Hm c E). destruct (m c) as [c1 [a|e]]; [by apply Hk|done].
Qed.

Lemma calm_transaction body : calm body -> calm (transaction body).
Proof.
  intros Hb c E. unfold transaction.
  assert (calm (let$ _ := no_change in let$ _ := body in no_change)) as H.
  { apply calm_bind; [apply calm_statement|]. intros _. apply calm_bind; [done|]. intros _. apply calm_statement. }
  specialize (H c E). by destruct ((let$ _ := no_change in let$ _ := body in no_change) c) as [c1 [a|e]].
Qed.

Section Recorder.
Context (show : SqlError -> string) (rfc3339 : Z -> string) (session : SessionId).

Lemma quiet_write {A} (m : Sql A) s : calm m -> quiet s -> quiet (with_connection show m s).1.
Proof.
  intros H [Q E]. unfold with_connection. rewrite Q. specialize (H _ E).
  by destruct (m (rs_connection s)) as [c r].
Qed.

(** The store holds the attempts of [acc] and knows the session. *)
Definition ready (acc : list UsageRecord) (s : RuntimeStore) : Prop :=
  quiet s /\ tables_ok (fun core => core_ok rfc3339 acc core /\ session ∈ map sn_id (co_sessions core)) s.

Lemma ready_write {A} name (f : Core -> result (Core * A) SqlError) acc s :
  (forall core core' a, core_ok rfc3339 acc core -> f core = Ok (core', a) ->
     core_ok rfc3339 acc core' /\ forall x, x ∈ map sn_id (co_sessions core) -> x ∈ map sn_id (co_sessions core')) ->
  ready acc s -> ready acc (with_connection show (on_core name f) s).1.
Proof.
  intros Hf [Q H]. split; [by apply quiet_write; [apply calm_statement|]|].
  apply core_write_keeps; [|done]. intros core core' a [O S] E. destruct (Hf core core' a O E) as [? Hs].
  split; [done|by apply Hs].
Qed.

Lemma sessions_upsert (new : SessionRow) update rows k x :
  sn_id new = k -> (forall r, sn_id (update r) = sn_id r) -> NoDup (map sn_id rows) ->
  x ∈ map sn_id rows \/ x = k ->
  x ∈ map sn_id (upsert (fun s => bool_decide (sn_id s = k)) new update rows).
Proof.
  intros N U D Hx. rewrite (upsert_keys sn_id) by done. apply elem_of_app. destruct Hx as [Hx| ->]; [by left|].
  case_bool_decide as Hk; [by left|right; by left].
Qed.

Lemma begin_ready now goal acc s :
  quiet s -> store_sound rfc3339 acc s -> ready acc (logged (begin_session show now session goal s)).
Proof.
  intros Q (core&E&O). unfold logged, begin_session. split; [by apply quiet_write; [apply calm_statement|]|].
  destruct Q as [P F]. unfold with_connection. rewrite P. unfold on_core, statement. unfold store_db in E. rewrite F, E.
  eexists. split; [reflexivity|]. split; [by apply core_begin|]. cbn [put_sessions co_sessions].
  apply sessions_upsert; [done|done|apply O|by right].
Qed.

Lemma save_task_ready now task acc s id : ready acc s -> ready acc (logged (save_task show now id task s)).
Proof.
  apply ready_write. intros core core' a O. destruct (_ || _) eqn:Eh; [|done]. intros [= <- <-].
  split; [by apply core_task|done].
Qed.

Lemma finish_ready now ok summary acc s id :
  ready acc s -> ready acc (logged (finish_session show now id ok summary s)).
Proof.
  apply ready_write. intros core core' a O [= <- <-]. split; [by apply core_finish|].
  intros x. cbn [put_sessions co_sessions]. by rewrite (update_where_keys sn_id).
Qed.

Lemma has_task_stub id session0 ty now core :
  has_task id (put_tasks (co_tasks core ++ [task_stub id session0 ty now])%list core) = true.
Proof. apply has_task_elem. cbn [put_tasks co_tasks]. rewrite map_app. apply elem_of_app. right. by left. Qed.

(** With its session known, an attempt is accepted. *)
Lemma attempt_accepted created updated r s core :
  quiet s -> db_core (store_db s) = Some core -> u_session_id r ∈ map sn_id (co_sessions core) ->
  (Store.record_attempt show rfc3339 created updated r s).2 = Ok tt.
Proof.
  intros [P F] E Hs%has_session_elem. destruct s as [[[v core0 a2a] faults] poisoned]. cbn in P, F, E. subst.
  unfold Store.record_attempt, with_connection, transaction, sql_bind, no_change, attempt_statements, sql_bind,
    ensure_task, insert_attempt, fold_history, on_core, statement. cbn.
  destruct (has_task (u_task_id r) core) eqn:Ht; cbn [result_bind].
  - cbn. rewrite Ht. done.
  - rewrite Hs. cbn -[has_task]. by rewrite has_task_stub.
Qed.

Lemma attempt_ready created updated r acc s :
  u_session_id r = session -> u_attempt_id r ∉ map u_attempt_id acc -> ready acc s ->
  ready (acc ++ [r]) (logged (Store.record_attempt show rfc3339 created updated r s)).
Proof.
  intros Es Hn (Q&core&E&O&S). unfold logged.
  assert (quiet (Store.record_attempt show rfc3339 created updated r s).1) as Q'.
  { apply quiet_write; [|done]. apply calm_transaction. repeat (apply calm_bind; [apply calm_statement|intros _]).
    apply calm_statement. }
  split; [done|]. rewrite <- Es in S.
  pose proof (attempt_accepted created updated r s core Q E S) as Ea.
  pose proof (attempt_write_sound show rfc3339 created updated r acc s Hn) as H.
  pose proof (with_connection_atomic show _ _ s (atomic_transaction _ _
    (attempt_statements_spec rfc3339 created updated r))) as Hw.
  change (with_connection show _ s) with (Store.record_attempt show rfc3339 created updated r s) in Hw.
  destruct (Store.record_attempt show rfc3339 created updated r s) as [s' answer]. cbn [fst snd] in *. subst answer.
  destruct H as (core'&E'&O'); [by exists core|]. exists core'. split; [done|]. split; [done|].
  destruct Hw as (core1&tasks&E1&_&Ew). rewrite E in E1. injection E1 as <-. rewrite Ew in E'.
  cbn [with_core db_core] in E'. injection E' as <-. by rewrite <- Es.
Qed.

Lemma recorder_ready clock heard_ acc s :
  (forall r, heard_ = RecAttempt r -> u_session_id r = session /\ u_attempt_id r ∉ map u_attempt_id acc) ->
  ready acc s -> ready (acc ++ heard [heard_]) (store_recorder show rfc3339 clock session heard_ s).
Proof.
  intros Hr H. destruct heard_ as [goal|task d|r|agent h error|result]; cbn [store_recorder];
    try change (heard _) with (@nil UsageRecord); rewrite ?app_nil_r.
  - destruct H as (Q&core&E&O&S). apply begin_ready; [done|]. by exists core.
  - apply ready_write; [|done]. intros core core' a O. destruct (sql_bind_real _); [|done]. intros [= <- <-].
    split; [by apply core_decision|done].
  - destruct (Hr r eq_refl). by apply attempt_ready.
  - apply ready_write; [|done]. intros core core' a O [= <- <-]. split; [by apply core_health|done].
  - unfold session_finished. assert (forall n, ready acc (fold_left (fun '(s, n) task =>
      (logged (save_task show (clock n) (sr_session_id result) task s), S n)) (graph_iter (sr_graph result)) (s, n)).1) as Hf.
    { revert s H. induction (graph_iter (sr_graph result)) as [|t l IH]; intros s H n; [done|].
      cbn [fold_left]. apply IH. by apply save_task_ready. }
    specialize (Hf 0%nat). destruct (fold_left _ _ (s, 0%nat)) as [s' n]. by apply finish_ready.
Qed.

(** Replaying what the recorder of a session was told. *)
Definition replay (clock : nat -> nat -> string) (l : list Recorded) (s : RuntimeStore) : RuntimeStore :=
  (fold_left (fun '(s, n) r => (store_recorder show rfc3339 (clock n) session r s, S n)) l (s, 0%nat)).1.

Lemma replay_ready clock l : forall n acc s,
  Forall (fun r => u_session_id r = session) (heard l) -> NoDup (map u_attempt_id (acc ++ heard l)) -> ready acc s ->
  ready (acc ++ heard l) (fold_left (fun '(s, n) r => (store_recorder show rfc3339 (clock n) session r s, S n)) l (s, n)).1.
Proof.
  induction l as [|r l IH]; intros n acc s F D H; cbn [fold_left].
  { by rewrite app_nil_r. }
  change (r :: l) with ([r] ++ l)%list in F, D |- *. rewrite heard_app in F, D |- *. rewrite app_assoc in D |- *.
  apply List.Forall_app in F as [F1 F2]. apply IH; [done|done|]. apply recorder_ready; [|done].
  intros u ->. change (heard [RecAttempt u]) with [u] in F1, D. split; [by apply Forall_inv in F1|].
  rewrite !map_app, <- app_assoc in D. apply list.NoDup_app in D as (_&D&_). intros Hx. apply (D _ Hx). by left.
Qed.
End Recorder.

(** ** What is left of a session *)

Section Left.
Context (show : SqlError -> string) (rfc3339 : Z -> string) (real_sum : list f64 -> f64).
Context (wall clock : nat -> Z) (attempt_id : nat -> AttemptId) (elapsed : nat -> Z) (rng : nat -> Rng).
Context {C : Type} `{!ContextManager C} {P : Type} `{!Planner P}.
Context (config : Config) (workspace : string) (planner : P) (context_manager : C).
Context (adapters : btree AgentId AgentAdapter) (memory : option MemoryStore).
Context (guidance : option (CapabilitySet -> list SkillGuide)) (git : Git) (session : SessionId).
Context (alphanumeric : Z -> bool) (index : option WorkspaceIndex).
Context `{!Inj (=) (=) attempt_id}.
#[local] Abbreviation run_session := (run_session wall clock attempt_id elapsed rng config workspace planner
  context_manager adapters memory guidance git session alphanumeric index).

(** An orchestrator that has not run yet, its recorder over an empty store. *)
Definition unused (s : SessionState) : Prop :=
  sh_recorded s = [] /\ records (sh_usage s) = [] /\ sh_history s = [].

Definition empty_store (store : RuntimeStore) : Prop :=
  quiet store /\ db_core (store_db store) = Some core_empty.

(** The store after a session told it everything. *)
Definition left_behind (stamps : nat -> nat -> string) (s' : SessionState) (store : RuntimeStore) : RuntimeStore :=
  replay show rfc3339 session stamps (sh_recorded s') store.

Lemma left_behind_ready stamps pick goal s store :
  unused s -> empty_store store ->
  let s' := (run_session pick goal s).1 in
  let store' := left_behind stamps s' store in
  quiet store' /\
  (exists core, db_core (store_db store') = Some core /\ core_ok rfc3339 (records (sh_usage s')) core /\
     session ∈ map sn_id (co_sessions core)) /\
  exists os, Forall2 outcome_of (records (sh_usage s')) os /\
    sh_history s' = fold_left (fun h o => history_record o h) os [].
Proof.
  intros (U1&U2&U3) [Q E0] s' store'.
  destruct (session_books wall clock attempt_id elapsed rng config workspace planner context_manager adapters memory
    guidance git session alphanumeric index (sh_attempts s) pick goal s []) as (k&Ek&(_&B2&B3&os&B4&B5)&D).
  { split; [done|]. split; [constructor|]. by intros ? ?%not_elem_of_nil. }
  fold s' in Ek, B2, B5, D. rewrite U2 in B2. rewrite U3 in B5. cbn [app] in B2.
  assert (ready rfc3339 session ([] ++ heard k) store') as [Q' (core&E&O&S)].
  { unfold store', left_behind, replay. rewrite Ek, U1. cbn [app fold_left].
    refine (replay_ready show rfc3339 session stamps k 1%nat []
      (logged (begin_session show (stamps 0%nat 0%nat) session goal store)) _ _ _);
      [done|by destruct D as (_&D&_)|]. apply begin_ready; [done|].
    exists core_empty. split; [done|apply core_ok_empty]. }
  split; [done|]. rewrite B2. split; [by exists core|]. by exists os.
Qed.

Lemma quiet_answers store : quiet store -> answers store.
Proof. intros [P0 F]. split; [done|]. intros e faults. by rewrite F. Qed.


End Left.
