(* ===== verification/StoreDemo.v ===== *)
(** * The store at concrete inputs

    A session recorded in an empty store, a database cut short in its
    migration, a server whose task outlives it, and what the store's queries
    make of unusual names and rows. *)

From S2P Require Export StoreSession StoreA2a Demo.
From S2P Require Import TrustFacts.
From stdpp Require Import relations pretty countable.
Open Scope string_scope.
Open Scope Z_scope.

Definition demo_show (e : SqlError) : string :=
  match e with
  | NoSuchTable name => "no such table: " +:+ name
  | ForeignKeyFailed => "FOREIGN KEY constraint failed"
  | NotNullFailed column => "NOT NULL constraint failed: " +:+ column
  | IntegerOverflow => "integer overflow"
  | InvalidColumnType _ column => "Invalid column type at " +:+ column
  | SqlFault message => message
  end.

Definition demo_stamp (n : Z) : string := pretty n.

(** An empty store, and what its statements run into. *)
Definition demo_store (faults : list (option SqlError)) : RuntimeStore :=
  {| rs_connection := {| cn_db := {| db_user_version := 2; db_core := Some core_empty; db_a2a := Some [] |};
                         cn_faults := faults |};
     rs_poisoned := false |}.

Lemma demo_empty : empty_store (demo_store []).
Proof. by repeat split. Qed.

Definition demo_attempt (id : string) (agent : AgentId) (model : option ModelId) (ok : bool) (tokens : Z) : UsageRecord :=
  {| u_attempt_id := id; u_session_id := "s"; u_task_id := "t"; u_task_type := BugFix; u_agent_id := agent;
     u_model_id := model; u_provider := None; u_started_at := 0; u_latency_ms := 10;
     u_tokens := tokens_reported tokens 0; u_estimated_cost_usd := None; u_cost_reported := false;
     u_success := ok; u_failure_class := if ok then None else Some Timeout; u_retry_count := 0 |}.

(** ** Writes and failures *)

(** The disk is full at the third statement of the second attempt. *)
Definition demo_ops : list StoreOp :=
  [OBegin "1" "s" "fix it"; OAttempt "2" "3" (demo_attempt "x" "a" None true 7);
   OAttempt "4" "5" (demo_attempt "y" "a" None true 8); OAttempt "6" "7" (demo_attempt "z" "a" None false 9)].

Definition demo_faults : list (option SqlError) :=
  (repeat None 9 ++ [Some (SqlFault "database or disk is full")])%list.

Lemma store_integrity_witness :
  let s' := (run_ops demo_show demo_stamp demo_ops (demo_store demo_faults) []).1 in
  exists core, db_core (store_db s') = Some core /\ map at_id (co_attempts core) = ["x"; "z"] /\
    (row_sums <$> bucket_row ("a", "*", "BugFix") (co_history core)) = Some (SInt 2, SInt 1, SInt 20, SInt 16).
Proof.
  destruct (store_integrity demo_show demo_stamp demo_ops (demo_store demo_faults) eq_refl) as (_&core&Ec&Ea&Eh&_).
  { apply (bool_decide_unpack _). vm_compute. exact I. }
  exists core. split; [exact Ec|]. rewrite Ea, Eh. split; vm_compute; reflexivity.
Defined.

Definition demo_database : Database := {| db_user_version := 0; db_core := None; db_a2a := None |}.

(** Cut short after the first tables, then resumed. *)
Lemma migrate_resumes_witness :
  db_core (cn_db (migrate {| cn_db := demo_database;
     cn_faults := (repeat None 5 ++ [Some (SqlFault "disk I/O error")])%list |}).1) = Some core_empty /\
  exists db2, migrate {| cn_db := cn_db (migrate {| cn_db := demo_database;
     cn_faults := (repeat None 5 ++ [Some (SqlFault "disk I/O error")])%list |}).1; cn_faults := [] |} =
    ({| cn_db := db2; cn_faults := [] |}, Ok tt) /\ is_Some (db_a2a db2).
Proof.
  split; [vm_compute; reflexivity|].
  destruct (migrate_resumes demo_database (repeat None 5 ++ [Some (SqlFault "disk I/O error")])%list) as (_&db2&E&_&_&H&_).
  { by split; cbn; lia. }
  exists db2. by split.
Defined.

(** ** A session *)

#[local] Instance demo_heuristic : Planner HeuristicPlanner :=
  HeuristicPlanner_Planner sample_gen ascii_lower_only.

Definition demo_ids (n : nat) : AttemptId := "attempt-" +:+ pretty n.

#[local] Instance demo_ids_inj : Inj (=) (=) demo_ids.
Proof. intros a b E. apply (inj (String.append "attempt-")) in E. by apply (inj pretty) in E. Qed.

Definition demo_goal : string := "Fix the parser bug and add tests".

Definition demo_orchestrator : SessionState := (demo_world (overflow_at 1)).1.

Definition demo_ran : SessionState :=
  (run_session (fun _ => 0) (fun n => Z.of_nat n) demo_ids (fun _ => 5) (fun _ lo hi => lo) config_default "/w"
    heuristic_new context_new (demo_world (overflow_at 1)).2 None None demo_git "s" no_unicode None
    (fun passes fuel => (3 * passes + fuel)%nat) demo_goal demo_orchestrator).1.

Definition demo_clock (call write : nat) : string := pretty call.

Definition demo_left : RuntimeStore := left_behind demo_show demo_stamp "s" demo_clock demo_ran (demo_store []).

Lemma demo_unused : unused demo_orchestrator.
Proof. by split_and!. Qed.

Definition record_okb (r : UsageRecord) : bool :=
  forallb (fun n => (0 <=? n) && (n <=? U32_MAX))
    [tu_input (u_tokens r); tu_output (u_tokens r); tu_cached (u_tokens r); u_latency_ms r; u_retry_count r].

Definition sums_fitb (l : list UsageRecord) : bool :=
  forallb record_okb l && (Z.of_nat (length l) <=? U32_MAX) &&
  forallb (fun f => sum_of f l <=? I64_MAX)
    [(fun r => tu_input (u_tokens r)); (fun r => tu_output (u_tokens r)); (fun r => tu_cached (u_tokens r));
     (fun r => tokens_total (u_tokens r)); u_latency_ms; u_retry_count].

Lemma sums_fitb_ok l : sums_fitb l = true -> sums_fit l.
Proof.
  intros [[R N]%andb_true_iff S]%andb_true_iff. rewrite forallb_forall in S.
  split; try (apply Z.leb_le, (S _); cbn; auto 10); [|by apply Z.leb_le].
  apply list.Forall_forall. intros r Hr%list_elem_of_In. rewrite forallb_forall in R. specialize (R r Hr).
  unfold record_okb in R. rewrite forallb_forall in R. unfold U32_MAX in R.
  assert (forall n, In n [tu_input (u_tokens r); tu_output (u_tokens r); tu_cached (u_tokens r); u_latency_ms r; u_retry_count r] ->
    0 <= n <= 2 ^ 32 - 1) as H by (intros n Hn%R; lia).
  unfold record_ok, is_u64, is_u32, U32_MAX, U64_MAX.
  assert (forall n, In n [tu_input (u_tokens r); tu_output (u_tokens r); tu_cached (u_tokens r); u_latency_ms r; u_retry_count r] ->
    0 <= n <= 2 ^ 64 - 1) as H' by (intros n Hn%H; lia).
  split_and!; try (apply H'; cbn; auto 10); apply H; cbn; auto 10.
Qed.

Definition demo_records : list UsageRecord := records (sh_usage demo_ran).

(** Comparing terms, these unfold first. *)
Strategy expand [demo_records demo_left demo_ran].

Lemma demo_fit : sums_fit demo_records.
Proof. apply sums_fitb_ok. vm_compute. reflexivity. Qed.

(** Nothing of the session was priced. *)
Lemma demo_unpriced : forallb (fun r => negb (priced r)) demo_records = true.
Proof. vm_compute. reflexivity. Qed.

Lemma zeros_sum l : forallb (fun r => negb (priced r)) l = true ->
  f64_is_nan (f64_sum (map cost_or_zero l)) = false.
Proof.
  intros H. assert (forall x, x = f64_zero \/ x = f64_neg_zero ->
    f64_is_nan (fold_left f64_add (map cost_or_zero l) x) = false) as Hf; [|apply Hf; by right].
  induction l as [|r l IH]; intros x Hx; cbn [map fold_left]; [by destruct Hx as [-> | ->]|].
  apply andb_true_iff in H as [Hr Hl]. apply IH; [done|]. left. unfold cost_or_zero, priced in *.
  destruct (u_estimated_cost_usd r); [done|]. by destruct Hx as [-> | ->].
Qed.

Lemma unpriced_ok l : forallb (fun r => negb (priced r)) l = true -> Forall cost_ok l.
Proof.
  rewrite forallb_forall. intros H. apply list.Forall_forall. intros r Hr%list_elem_of_In. specialize (H r Hr).
  unfold priced, cost_ok in *. by destruct (u_estimated_cost_usd r).
Qed.

Lemma zeros_filter p l : forallb (fun r => negb (priced r)) l = true ->
  f64_is_nan (f64_sum (map cost_or_zero (List.filter p l))) = false.
Proof.
  intros H. apply zeros_sum. rewrite forallb_forall in *. intros r [Hr _]%List.filter_In. by apply H.
Qed.


Definition names_apartb (l : list UsageRecord) : bool :=
  forallb (fun r1 => forallb (fun r2 =>
    negb (bool_decide (bucket_name (record_bucket r1) = bucket_name (record_bucket r2))) ||
    bool_decide (record_bucket r1 = record_bucket r2)) l) l.

Lemma names_apartb_ok l : names_apartb l = true -> names_apart l.
Proof.
  intros H r1 r2 H1%list_elem_of_In H2%list_elem_of_In E. unfold names_apartb in H. rewrite forallb_forall in H.
  specialize (H r1 H1). rewrite forallb_forall in H. specialize (H r2 H2).
  apply orb_true_iff in H as [H|H%bool_decide_eq_true]; [|done]. by rewrite bool_decide_eq_true_2 in H.
Qed.


(** ** A text for every JSON value *)

Fixpoint positive_text (p : positive) : string :=
  match p with
  | xH => ""
  | xO p' => String "0" (positive_text p')
  | xI p' => String "1" (positive_text p')
  end.

Fixpoint text_positive (s : string) : positive :=
  match s with
  | EmptyString => xH
  | String a s' => if bool_decide (a = "0"%char) then xO (text_positive s') else xI (text_positive s')
  end.

Lemma text_positive_text p : text_positive (positive_text p) = p.
Proof. induction p as [p IH|p IH|]; cbn; by rewrite ?IH. Qed.

Fixpoint value_tree (v : Value) : gen_tree (bool + Z + string) :=
  match v with
  | JNull => GenNode 0 []
  | JBool b => GenNode 1 [GenLeaf (inl (inl b))]
  | JInt z => GenNode 1 [GenLeaf (inl (inr z))]
  | JFloat text => GenNode 2 [GenLeaf (inr text)]
  | JString s => GenNode 3 [GenLeaf (inr s)]
  | JArray l => GenNode 4 (map value_tree l)
  | JObject fields => GenNode 5 (map (fun f => GenNode 6 [GenLeaf (inr f.1); value_tree f.2]) fields)
  end.

Fixpoint tree_value (t : gen_tree (bool + Z + string)) : Value :=
  match t with
  | GenNode 1 [GenLeaf (inl (inl b))] => JBool b
  | GenNode 1 [GenLeaf (inl (inr z))] => JInt z
  | GenNode 2 [GenLeaf (inr text)] => JFloat text
  | GenNode 3 [GenLeaf (inr s)] => JString s
  | GenNode 4 l => JArray (map tree_value l)
  | GenNode 5 l =>
      JObject (map (fun t => match t with
                             | GenNode 6 [GenLeaf (inr k); v] => (k, tree_value v)
                             | _ => ("", JNull)
                             end) l)
  | _ => JNull
  end.

Lemma tree_value_tree : forall v, tree_value (value_tree v) = v.
Proof.
  fix IH 1. intros [| | | | |l|fields]; cbn [value_tree tree_value]; try done; f_equal; rewrite map_map.
  - induction l as [|v l IHl]; [done|]. cbn [map]. by rewrite IH, IHl.
  - induction fields as [|[k v] fields IHf]; [done|]. cbn [map fst snd]. by rewrite IH, IHf.
Qed.

Definition demo_print (v : Value) : string := positive_text (encode (value_tree v)).
Definition demo_parse (s : string) : option Value := tree_value <$> decode (text_positive s).

Lemma demo_json_text v : demo_parse (demo_print v) = Some v.
Proof. unfold demo_parse, demo_print. rewrite text_positive_text, decode_encode. cbn. by rewrite tree_value_tree. Qed.

(** ** A task that outlives its server *)

Definition demo_first : World := world_new (restarted [] "http://localhost/" "m" "noon" []).

Definition demo_asked : Value :=
  JObject [("message", JObject [("parts", JArray [text_part "do it" V1])])].

Definition demo_begun : World := world_new (start demo_asked "t1" "c1" "one" (wd_server demo_first)).1.

Definition demo_submitted : WireTask := initial_task "t1" "c1" "one".
Definition demo_new : TaskEntry := {| te_snapshot := demo_submitted; te_updates := []; te_run := Some new_run |}.
Definition demo_kept : World := on_run "t1" (in_phase PSaved) (on_server (first_save "m" demo_new) demo_begun).

Definition demo_saving (calls : list StoreCall) (s : RuntimeStore) : RuntimeStore :=
  make_calls demo_show demo_print (fun n => pretty n) calls s.
Definition demo_saved : RuntimeStore := demo_saving [save_call "m" demo_submitted] (demo_store []).

Lemma life_of w w' s log calls :
  step w w' -> sv_store (wd_server w) = Some log -> sv_store (wd_server w') = Some (log ++ calls)%list ->
  life demo_show demo_print demo_parse (w, s) (w', demo_saving calls s).
Proof. apply life_step. Qed.

Lemma demo_begins : life demo_show demo_print demo_parse (demo_first, demo_store []) (demo_begun, demo_store []).
Proof.
  eapply (life_of _ _ _ _ []); [|reflexivity|reflexivity].
  eapply (step_start demo_first demo_asked "t1" "c1" "one"); [done|reflexivity| |reflexivity].
  apply (bool_decide_unpack _). vm_compute. exact I.
Qed.

Lemma demo_saves : life demo_show demo_print demo_parse (demo_begun, demo_store []) (demo_kept, demo_saved).
Proof.
  eapply (life_of _ _ _ _ [_]); [|reflexivity|reflexivity].
  by apply (step_first_save demo_begun "t1" demo_new new_run "m").
Qed.

Lemma no_clash id w : wd_cancel w = None -> ~ clash id w.
Proof. intros E [(t&[H|H]) _]; congruence. Qed.

(** Started over, the server has the task, failed. *)
Lemma tasks_survive_witness :
  exists t, te_snapshot <$> bt_get "t1" (tm_entries (sv_tasks (restarted [] "http://localhost/" "m2" "later"
      (map demo_parse (map aa_body (default [] (db_a2a (store_db demo_saved)))))))) = Some t /\
    w_state t = TSFailed.
Proof.
  set (e := with_run (in_phase PSaved new_run) demo_new).
  destruct (tasks_survive demo_show demo_print demo_parse [] "http://localhost/" "m" "noon" (demo_store []) "t1"
    demo_kept demo_saved e demo_json_text (conj eq_refl eq_refl) eq_refl) as (rows&body&t&E&_&_&Hc&H).
  - eapply rtc_l; [split; [exact demo_begins|by apply no_clash]|]. apply rtc_once.
    split; [exact demo_saves|by apply no_clash].
  - reflexivity.
  - intros [[|]|(r&[= <-]&[|(l&[|[? ?]])])]; done.
  - assert (default [] (db_a2a (store_db demo_saved)) = rows) as E' by (by rewrite E). rewrite E'.
    assert (length rows = 1%nat) as L by (rewrite <- E'; vm_compute; reflexivity).
    exists (interrupted "later" t). split; [|done].
    specialize (H ltac:(rewrite L; apply Nat.leb_le; reflexivity) [] "http://localhost/" "m2" "later"
      (a2a_load demo_show (Z.of_nat MAX_RETAINED_TASKS) demo_saved).1 (map aa_body rows)).
    rewrite H; [by destruct Hc as [-> | ->]|]. rewrite <- E'. vm_compute. reflexivity.
Defined.

(** ** A cancelled task whose row says it works

    The run reads the task it marked working, the task is cancelled and saved,
    and then the run saves what it read. *)
Definition demo_run_at (p : A2aServer.Phase) (handle : bool) : TaskRun := {| A2aServer.r_phase := p; r_handle := handle; r_aborted := false |}.
Definition demo_works : WireTask := dated "two" (working demo_submitted).

Definition demo_spawned : World := on_run "t1" (in_phase PSpawned) demo_kept.
Definition demo_polled : World := on_run "t1" (in_phase PEntered) demo_spawned.
Definition demo_marked : World := on_channel "t1" (set_change "two" working false) demo_polled.
Definition demo_read : World := on_channel "t1" (set_read false) demo_marked.
Definition demo_asked_off : World := with_cancel (Some ("t1", demo_works, CRead)) demo_read.
Definition demo_aborted : World := with_cancel (Some ("t1", demo_works, CAborted)) (on_server (cancel_abort "t1") demo_asked_off).
Definition demo_off : WireTask := cancelled "three" demo_works.
Definition demo_replaced : World :=
  with_cancel (Some ("t1", demo_off, CReplaced)) (on_server (update_entry "t1" (A2aServer.replaced demo_off)) demo_aborted).
Definition demo_told : World :=
  with_cancel (Some ("t1", demo_off, CTold)) (on_server (update_entry "t1" (A2aServer.told demo_off)) demo_replaced).
Definition demo_answered : World := with_cancel None (persisted "m" demo_off demo_told).
Definition demo_late : World := on_channel "t1" (set_saved demo_works false) (persisted "m" demo_works demo_answered).
Definition demo_stale : RuntimeStore :=
  demo_saving [save_call "m" demo_works] (demo_saving [save_call "m" demo_off] demo_saved).

Lemma demo_quiet w w' s : step w w' -> sv_store (wd_server w') = sv_store (wd_server w) -> is_Some (sv_store (wd_server w)) ->
  life demo_show demo_print demo_parse (w, s) (w', s).
Proof. intros H E [log L]. apply (life_of w w' s log []); [done|done|]. by rewrite E, L, app_nil_r. Qed.

Lemma demo_races : rtc (life demo_show demo_print demo_parse) (demo_kept, demo_saved) (demo_late, demo_stale).
Proof.
  eapply rtc_l; [apply demo_quiet; [by apply (step_spawn demo_kept "t1" (demo_run_at PSaved false))|done|eauto]|].
  eapply rtc_l; [apply demo_quiet; [by apply (step_poll demo_spawned "t1" (demo_run_at PSpawned false))|done|eauto]|].
  eapply rtc_l; [apply demo_quiet; [by apply (step_working demo_polled "t1" (demo_run_at PEntered false) "two")|done|eauto]|].
  eapply rtc_l; [apply demo_quiet; [by apply (step_read demo_marked "t1" (demo_run_at (PWriting WRead false) false))|done|eauto]|].
  eapply rtc_l; [apply demo_quiet; [by apply (step_cancel_read demo_read JNull (JObject [("id", JString "t1")]) V1)|done|eauto]|].
  eapply rtc_l; [apply demo_quiet; [by apply step_cancel_abort|done|eauto]|].
  eapply rtc_l; [apply demo_quiet; [by apply (step_cancel_replace demo_aborted "t1" demo_works "three")|done|eauto]|].
  eapply rtc_l; [apply demo_quiet; [by apply step_cancel_tell|done|eauto]|].
  eapply rtc_l; [eapply (life_of demo_told demo_answered _ _ [_]); [by apply (step_cancel_save demo_told "t1" demo_off "m")|reflexivity|reflexivity]|].
  apply rtc_once. eapply (life_of demo_answered demo_late _ _ [_]); [|reflexivity|reflexivity].
  by apply (step_save demo_answered "t1" (demo_run_at (PWriting (WSave demo_works) false) false)).
Qed.

(** With nothing left to save, the server has the task cancelled, the table has
    it working, and a server started over reports it failed. *)
Example late_save_stays :
  rtc (life demo_show demo_print demo_parse) (demo_first, demo_store []) (demo_late, demo_stale) /\
  option_map (fun e => w_state (te_snapshot e)) (entry_of "t1" demo_late) = Some Canceled /\
  (forall e, entry_of "t1" demo_late = Some e -> ~ unsaved "t1" e demo_late) /\
  option_map (map aa_state) (db_a2a (store_db demo_stale)) = Some [state_render Working V1].
Proof.
  split; [eapply rtc_l; [exact demo_begins|]; eapply rtc_l; [exact demo_saves|exact demo_races]|].
  split; [reflexivity|]. split; [|vm_compute; reflexivity].
  intros e [= <-] [[|]|(r&[= <-]&[|(l&[|[? ?]])])]; done.
Qed.

(** ** What the queries make of it *)

Definition demo_write (ops : list StoreOp) : RuntimeStore := (run_ops demo_show demo_stamp ops (demo_store []) []).1.

(** The same attempt recorded again replaces its row and counts twice in the
    history. *)
Example attempt_counted_twice :
  let s := demo_write [OBegin "1" "s" "g"; OAttempt "2" "2" (demo_attempt "x" "a" None true 7);
                       OAttempt "3" "3" (demo_attempt "x" "a" None true 7)] in
  (Store.attempt_count demo_show s).2 = Ok 1 /\
  option_map (fun c => map hs_attempts (co_history c)) (db_core (store_db s)) = Some [SInt 2].
Proof. by vm_compute. Qed.

(** Without the row of its session no attempt is kept. *)
Example attempt_without_session :
  (Store.record_attempt demo_show demo_stamp "1" "1" (demo_attempt "x" "a" None true 7) (demo_store [])).2 =
  Err (EPersistence "FOREIGN KEY constraint failed").
Proof. by vm_compute. Qed.

(** Agents and models whose names join to one label share a row. *)
Example model_labels_collide :
  let s := demo_write [OBegin "1" "s" "g"; OAttempt "2" "2" (demo_attempt "x" "a/b" (Some "c") true 7);
                       OAttempt "3" "3" (demo_attempt "y" "a" (Some "b/c") true 7);
                       OAttempt "4" "4" (demo_attempt "z" "a" None true 7);
                       OAttempt "5" "5" (demo_attempt "w" "a" (Some "*") true 7)] in
  option_map (map (fun r => (r.1, ut_attempts r.2))) (result_ok (usage_by_model demo_show f64_sum s).2) =
  Some [("a/*", 2); ("a/b/c", 2)].
Proof. by vm_compute. Qed.

(** The tokens of failed attempts count towards the mean of the successful ones
    once the history is loaded again. *)
Example loaded_mean_counts_failures :
  let s := demo_write [OBegin "1" "s" "g"; OAttempt "2" "2" (demo_attempt "x" "a" None false 100);
                       OAttempt "3" "3" (demo_attempt "y" "a" None true 50)] in
  option_map (fun h => as_mean_tokens <$> history_stats "a" None BugFix h)
    (result_ok (load_routing_history demo_show s).2) = Some (Some 150) /\
  as_mean_tokens (stats_record (stats_record stats_default
    (outcome_failure 0 "a" None BugFix Timeout 10)) (outcome_success 1 "a" None BugFix 10 50)) = 25.
Proof. by vm_compute. Qed.

(** A bucket of a type this build does not know is left out. *)
Example unknown_type_skipped : restore_bucket [] ("a", "*", "Poetry", 1, 1, 1, 1) = [].
Proof. by vm_compute. Qed.
